(* ===== verification/_CoqProject ===== *)
-Q . S2P
Prelude.v
PyVal.v
Config.v
TaskWorker.v
Calculator.v
RWLock.v
Workers.v
State.v
Redis.v
Etcd.v
Consul.v
Allocation.v
Docker.v
K8s.v
Shell.v
Buffer.v
TaskManager.v
Rollout.v
ChatApi.v
Advantage.v
Sequences.v
Schedules.v
Losses.v
Nccl.v
Workflow.v
Convert.v
DataUrl.v
EvalUtils.v
Images.v
Store.v
ResultList.v
Runner.v
Events.v
Clients.v
Grpc.v
Snapshots.v
Files.v
Cli.v
TraceStore.v
Tracectl.v
Fsdp.v
Checkpoint.v
Training.v
Scripts.v
ServerAgent.v
Testeval.v
PassK.v
StoreMetrics.v
MetricTree.v
