(* ===== verification/Prelude.v ===== *)
(** * AgentRL: a verification development

    AgentRL trains and evaluates language-model agents.  A task worker
    (src/worker) serves episodes of a task over HTTP: a session runs the task's
    coroutine and exchanges messages with the agent, and gets the containers or
    pods it needs from an environment controller that shares them with other
    workers through a state provider.  A trainer (src/trainer) plays episodes
    with a model, buffers them, computes advantages and losses and sends the new
    parameters to the inference workers.  An evaluator (src/eval) runs the
    samples of a task with a model and records the results.

    This library translates the parts of that program that carry its own logic
    and proves what makes them correct.  It is built on the Standard Library and
    stdpp; a file requires this one and the files of the components it calls.

    ** Files

    - Prelude: Python's exceptions as a type, the result type [res], the monad
      [M S A] of computations that change a state and may raise (the state
      reached when an exception leaves the code is kept), [try_except],
      [finally], loops, the judgements [safe] and [keeps] with their lemmas and
      tactics, and [run] for lists of events.
    - PyVal: strings as Python sees them (ASCII), dictionaries as association
      lists in insertion order, floats, and the values JSON and YAML hold.
    - Config (config/loader.py, config/consul.py): merging, expansion of
      default/overwrite, loading with imports and the override file.
    - TaskWorker (task.py, task_worker.py, typings.py): the session controller
      with its two semaphores and locks, and the worker, as one step function
      over events (requests, resumptions, operations of the task, the steps of a
      cancellation), one per stretch of code between two [await]s.
    - Calculator (examples/simple-calculator/task.py): the example task, over the
      session of TaskWorker.
    - State (environment/state/_base.py, local.py): the class [StateProvider]
      the controllers use, the abstract specification [spec], the refinement
      [Implements] and the in-memory provider.
    - Redis, Etcd, Consul (environment/state): the three shared providers over
      their servers: commands and scripts on a map, key ranges, transactions and
      leases, HTTP requests.
    - Allocation (environment/docker.py, k8s.py, _delegation.py): sessions of
      environments, which both controllers write alike, once over a
      [StateProvider] and a [Driver].
    - Docker, K8s (environment/docker.py, k8s.py): the two drivers: retried
      calls, creation, listing, health, deletion and cleaning, the pod cache
      with its watch.
    - Shell (the same files): the frames of commands and shells, and the
      recognition of a prompt.
    - RWLock, Buffer (trainer/utils/aio_rwlock.py, components/buffer.py): the
      coroutines that wait on a condition or an event, as step functions over the
      interleavings of an event loop.
    - Workers (trainer/workers/abstract.py, collective_handle.py,
      async_sglang_worker.py): plugins, handles that pass calls to workers, and the
      generations and updates of an inference worker, over RWLock.
    - Rollout (trainer/agentic/loops.py, data_provider.py, utils/utils.py): the
      loop that plays an episode, its retries, data sets and iterators.
    - ChatApi (trainer/agentic/tasks.py, components/task_manager.py): the requests an
      episode makes to the controller, over Rollout.
    - Advantage (trainer/algorithms): the advantage estimators, the clipped
      losses and the dispatch by group.
    - Sequences, Schedules (trainer/utils/torch_functional.py): padding, cutting
      and unpadding of token sequences, masks, log-probabilities of responses;
      learning rates and attention masks.
    - Losses (trainer/algorithms/loss_funcs.py, metrics.py): the losses over the
      logits of a model, the metrics of a batch, statistics over all ranks.
    - Nccl (trainer/components/nccl_tensor_comm.py): the transfer of parameters.
    - TaskManager (trainer/components/task_manager.py): the local and the
      distributed manager that feed items through a task function to the buffer.
    - Workflow (eval/session/workflow.py, controller.py, types.py): the workflow
      of one sample of the evaluator over the requests to the controller.
    - Convert (eval/convert): messages and tools in the formats of OpenAI's chat
      completions and responses and of Anthropic's messages.
    - DataUrl, Images (eval/utils/data_url.py, messages.py): data URLs moved to
      files and back; images trimmed and resized.
    - EvalUtils (eval/utils/utils.py, session/tokens.py): names of models,
      display of numbers, token counts.
    - Store, ResultList (eval/store, session/metric.py, types.py): keys, metrics,
      the table of results with the directories of traces, the list of stores.
    - Files: a file system with directories, files and links, the operations of
      Python on it and their errors.
    - TraceStore (worker/trace_store.py): traces moved from temporary directories
      into the store, with their links, over Files.
    - Tracectl (extra/scripts/tracectl.py): the tool that finds, copies and unpacks
      saved traces, over TraceStore.
    - Fsdp (trainer/workers/fsdp_worker.py): the training workers: packing and
      collating samples, the pass over a mini-batch on all ranks, the step.
    - Checkpoint (trainer/checkpoint): the checkpoints of all ranks over Files:
      saving, rotating, loading, finding the latest.
    - Training (examples/training): the drivers of a training run as the list of
      the calls they make: resuming, the steps, validation, checkpoints; metrics.
    - Snapshots (worker/snapshots.py): the client of the snapshots service.
    - Grpc (worker/task_worker_grpc.py): the routing of requests, the queue of
      messages and the loop that writes them to a stream.
    - Runner (eval/session/runner.py): the specs of an evaluation and the workers
      that run them, over Store.
    - Events (eval/event/bus.py): the bus between the evaluation and the display, as
      steps over the interleavings of publications and waits.
    - Cli (eval/cli/main.py): what a call of the evaluator does, over Runner.
    - Scripts, ServerAgent, Testeval (examples/eval/server_agent.py,
      extra/scripts/testeval.py): what the evaluation scripts share (requests, the
      table of results, runs behind a semaphore), and the two scripts.
    - MetricTree (trainer/utils/utils.py): how metrics are printed.
    - StoreMetrics (eval/store/store.py): what is aggregated from the rows of a store.
    - PassK (examples/eval/check.py): pass@k of a file of results; the only file over
      MathComp, it requires no other.
    - Clients (eval/client): what a query sends to a model and does with the
      answer, over Convert, Images and EvalUtils.

    ** How the code is translated

    A method of an object becomes a function on the object's record; a coroutine
    that runs to its end without interleaving is a computation in [M]; where the
    interleaving is the point (TaskWorker, Grpc, RWLock, Workers, Buffer,
    TaskManager, Runner, Events, Scripts)
    every stretch between two suspensions is one event, and the theorems hold for
    every list of events.
    An exception is a value of [exn], with what the code reads back from it;
    [AgentCancelledException], [CancelledError] and [SystemExit] are not [Exception]s.  What is
    not in the repository (Docker, Kubernetes, Redis, etcd, Consul, the file
    system, torch, tokenizers, uuid, random) is a class of operations or an
    argument; the theorems say what they assume of it, and a concrete instance
    satisfies it in the examples at the end of each file.  Logging, metrics and
    sleeping are left out.

    ** What is proved

    - Sessions: the two sides of a session never run at once and never both wait
      for ever, messages are delivered once and in order, the session map stays
      within the concurrency, every end is signalled; and the two ways in which
      a slot or a request is lost.
    - Configuration: the value at every path of a merge, termination of loading
      whatever imports what, and an override that can never import.
    - Environments: limits of reuse and concurrency, termination of the
      allocation loop, the end of a session as a list of abstract requests, and
      that cleaning touches nothing in use.
    - State providers: refinement of the specification (in-memory, Redis), locks,
      ranges, counters and leases (etcd), client sessions (Consul).
    - Concurrency of the trainer: exclusion and preference of the lock, whole
      groups and no lost wake-up in the buffer.
    - Training: the shape of a rollout, closed forms of GAE, RLOO and the clipped
      loss, the dispatch by group, and which parameters reach the workers; that
      padding changes nothing, which logits a loss sees, where learning rates lie,
      and that the statistics over ranks are those of all elements.
    - Training workers: packed passes over all ranks give the gradient and the
      metrics of the samples one by one; which checkpoints stay and that they load
      again; what a run logs and saves, and when the marker of the latest checkpoint
      can be trusted.
    - Traces: what is found where after a trace was saved, that its links lead
      there, and that the tool gives the files back.
    - The trainer against its servers: which requests an item can cause and which
      sessions they leave open; that an update of parameters that fails stops an
      inference worker for ever.
    - Transport: every request is answered once and in order, and what is lost
      when a stream breaks.
    - Task managers: what the count of pending items is, and when it makes
      get_all wait for ever.
    - Evaluation: how a workflow ends, the slices of its history, and that
      starting a sample is never retried; round trips and types of the
      conversions; what is moved to files comes back; which images stay and how
      large they become; the store as a map from keys to results; every spec of a
      run is run once, a run comes to its end, and a resumed one runs only the
      rest; the fallback of a client that never works.

    - Around the evaluation: a wait for an event gives the first one it accepts and
      leaves no listener behind; the tables of the scripts keep one row per run,
      whatever order the runs end in; the example task rewards exactly the answer; the
      metrics of a store are means of its completed rows and pass@k is a share of subsets.

    ** Bounds

    A loop that polls or retries without end takes fuel and raises
    [RecursionLimit] when it runs out.  Config.load_from_terminates shows that
    one more than the number of files is enough; Allocation.allocate_shared
    needs two rounds once creation works; Nccl.receive needs one round per
    parameter; Interleaving and the retried calls recurse on their own bound.
    Health polling and lock attempts depend on the outside and have no bound.
    A run of the evaluator ends within the steps Runner.run_ends counts, a training
    run within the steps that are left (Training.training_run).

    ** Not modelled

    The HTTP servers and clients, the reading of settings (pydantic) and the
    terminal interface (textual), the engines of torch, ray and sglang and the
    patches of their code; floating-point rounding; text beyond ASCII. *)

From Stdlib Require Export Ascii ZArith QArith_base Lia.
From stdpp Require Export strings pretty gmap numbers base tactics list_basics list_relations list_monad list_misc list_tactics list_numbers list.

#[global] Open Scope Z_scope.
#[global] Set Default Goal Selector "!".

(** ** Python exceptions

    One constructor per class the modelled code raises or catches; the
    payload is what the code reads back from the exception. *)
Inductive exn : Type :=
| Exception (msg : string)
| AssertionError
| ValueError
| TypeError
| KeyError
| IndexError
| AttributeError
| UnboundLocalError
| NotImplementedError
| RuntimeError (msg : string)
| ZeroDivisionError
| ConversionError
| FileNotFoundError
| NotADirectoryError
| FileExistsError
| OSError
| OverflowError
| HTTPException (status : Z) (detail : string)
| ApiException (status : Z)
| DockerError (status : Z)
| RpcError (code : Z)
| ClientError
| TimeoutError
| CancelledError
| AgentCancelledException
| ResponseError
| HTTPStatusError (status : Z)
| APIStatusError (status : Z)
| SystemExit (code : Z)
| RecursionLimit.

(** [asyncio.CancelledError], [AgentCancelledException] and [SystemExit] derive from
    [BaseException], so [except Exception] does not catch them. *)
Definition is_Exception (e : exn) : bool :=
  match e with
  | CancelledError | AgentCancelledException | SystemExit _ => false
  | _ => true
  end.

(** ** Results and the state-and-exception monad *)
Inductive res (A : Type) : Type :=
| Ok (a : A)
| Raise (e : exn).
Arguments Ok {A} a.
Arguments Raise {A} e.

#[export] Instance exn_eq_dec : EqDecision exn.
Proof. solve_decision. Defined.
#[export] Instance res_eq_dec {A} `{EqDecision A} : EqDecision (res A).
Proof. solve_decision. Defined.

#[export] Instance res_ret : MRet res := fun A a => Ok a.
#[export] Instance res_bind : MBind res := fun A B f m =>
  match m with Ok a => f a | Raise e => Raise e end.

Definition is_ok {A} (r : res A) : bool :=
  match r with Ok _ => true | Raise _ => false end.

(** A computation that threads the state [S] and may raise: the state reached
    when the exception left the code is kept, as Python keeps it. *)
Definition M (S A : Type) : Type := S -> S * res A.

#[export] Instance M_ret {S} : MRet (M S) := fun A a s => (s, Ok a).
#[export] Instance M_bind {S} : MBind (M S) := fun A B f m s =>
  match m s with
  | (s', Ok a) => f a s'
  | (s', Raise e) => (s', Raise e)
  end.

Definition raise {S A} (e : exn) : M S A := fun s => (s, Raise e).
Definition get {S} : M S S := fun s => (s, Ok s).
Definition put {S} (s' : S) : M S unit := fun _ => (s', Ok tt).
Definition modify {S} (f : S -> S) : M S unit := fun s => (f s, Ok tt).
Definition gets {S A} (f : S -> A) : M S A := fun s => (s, Ok (f s)).
Definition lift_res {S A} (r : res A) : M S A := fun s => (s, r).
Definition assert_ {S} (b : bool) : M S unit :=
  if b then mret tt else raise AssertionError.

(** [try: m except e: h e] where [h] returns [None] for an exception it does
    not catch. *)
Definition try_except {S A} (m : M S A) (h : exn -> option (M S A)) : M S A :=
  fun s =>
    match m s with
    | (s', Raise e) =>
        match h e with Some k => k s' | None => (s', Raise e) end
    | r => r
    end.

(** [try: m finally: f], where [f] does not raise. *)
Definition try_finally {S A} (m : M S A) (f : S -> S) : M S A :=
  fun s => let '(s', r) := m s in (f s', r).

(** [try: m finally: f] where [f] is a computation of its own: an exception of
    [f] replaces the outcome of [m]. *)
Definition finally {S A} (m : M S A) (f : M S unit) : M S A :=
  fun s => let '(s', r) := m s in
           match f s' with
           | (s'', Ok _) => (s'', r)
           | (s'', Raise e) => (s'', Raise e)
           end.

(** [for x in l: f x] *)
Fixpoint for_each {S A} (l : list A) (f : A -> M S unit) : M S unit :=
  match l with
  | [] => mret tt
  | x :: l' => f x ;; for_each l' f
  end.

Fixpoint map_m {S A B} (f : A -> M S B) (l : list A) : M S (list B) :=
  match l with
  | [] => mret []
  | x :: l' => y ← f x; ys ← map_m f l'; mret (y :: ys)
  end.

(** ** Automation *)
Create HintDb agentrl.

(** Case analysis on every [match] of the goal or of a hypothesis that
    blocks it, closing the absurd branches. *)
Ltac crush_match :=
  repeat (case_match; simplify_eq/=; try done).

(** ** Lemmas on the monad *)
Lemma M_bind_ok {S A B} (m : M S A) (f : A -> M S B) s s' r :
  (m ≫= f) s = (s', Ok r) ->
  exists a s1, m s = (s1, Ok a) /\ f a s1 = (s', Ok r).
Proof.
  unfold mbind, M_bind. destruct (m s) as [s1 [a|e]] eqn:E; [eauto|].
  intros; simplify_eq.
Qed.

Lemma M_bind_run {S A B} (m : M S A) (f : A -> M S B) s s1 a :
  m s = (s1, Ok a) -> (m ≫= f) s = f a s1.
Proof. unfold mbind, M_bind. by intros ->. Qed.

Lemma M_bind_raise {S A B} (m : M S A) (f : A -> M S B) s s1 e :
  m s = (s1, Raise e) -> (m ≫= f) s = (s1, Raise e).
Proof. unfold mbind, M_bind. by intros ->. Qed.

Lemma bind_gets {S A B} (f : S -> A) (k : A -> M S B) s :
  (gets f ≫= k) s = k (f s) s.
Proof. done. Qed.
Lemma bind_modify {S B} (f : S -> S) (k : unit -> M S B) s :
  (modify f ≫= k) s = k tt (f s).
Proof. done. Qed.
Lemma bind_lift {S A B} (r : res A) (k : A -> M S B) s :
  (lift_res r ≫= k) s = match r with Ok a => k a s | Raise e => (s, Raise e) end.
Proof. by destruct r. Qed.
Lemma bind_ret {S A B} (a : A) (k : A -> M S B) s : (mret a ≫= k) s = k a s.
Proof. done. Qed.
Lemma bind_raise {S A B} e (k : A -> M S B) s :
  ((raise e : M S A) ≫= k) s = (s, Raise e).
Proof. done. Qed.
Lemma bind_try {S A B} (m : M S A) h (k : A -> M S B) s :
  (try_except m h ≫= k) s =
    match m s with
    | (s', Ok a) => k a s'
    | (s', Raise e) =>
        match h e with Some c => (c ≫= k) s' | None => (s', Raise e) end
    end.
Proof.
  unfold try_except, mbind, M_bind. destruct (m s) as [s' [a|e]]; [done|].
  by destruct (h e).
Qed.

(** [safe P E m]: from a state satisfying [P], the computation ends in a state
    satisfying [P], whether it returns or raises, and an exception it raises
    satisfies [E]. *)
Definition safe {S A} (P : S -> Prop) (E : exn -> Prop) (m : M S A) : Prop :=
  forall s, P s ->
    P (fst (m s)) ∧ match snd (m s) with Ok _ => True | Raise e => E e end.

Section safe.
Context {S : Type} (P : S -> Prop) (E : exn -> Prop).

Lemma safe_ret {A} (a : A) : safe P E (mret a).
Proof. by intros s. Qed.

Lemma safe_raise {A} e : E e -> safe P E (raise e : M S A).
Proof. by intros He s. Qed.

Lemma safe_bind {A B} (m : M S A) (f : A -> M S B) :
  safe P E m -> (forall a, safe P E (f a)) -> safe P E (m ≫= f).
Proof.
  intros Hm Hf s Hs. unfold mbind, M_bind. specialize (Hm s Hs).
  destruct (m s) as [s1 [a|e]]; simpl in *; [apply Hf, Hm|done].
Qed.

Lemma safe_gets {A} (f : S -> A) : safe P E (gets f).
Proof. by intros s. Qed.

Lemma safe_get : safe P E get.
Proof. by intros s. Qed.

Lemma safe_lift {A} (r : res A) :
  (forall e, r = Raise e -> E e) -> safe P E (lift_res r).
Proof. intros Hr s Hs. split; [done|]. destruct r; simpl; auto. Qed.

Lemma safe_modify (f : S -> S) :
  (forall s, P s -> P (f s)) -> safe P E (modify f).
Proof. intros Hf s Hs. split; [by apply Hf|done]. Qed.

Lemma safe_for_each {A} (l : list A) f :
  (forall x, x ∈ l -> safe P E (f x)) -> safe P E (for_each l f).
Proof.
  induction l as [|x l IH]; intros Hf; simpl; [apply safe_ret|].
  apply safe_bind; [apply Hf; left|].
  intros _. apply IH. intros y Hy. apply Hf. by right.
Qed.

Lemma safe_map_m {A B} (l : list A) (f : A -> M S B) :
  (forall x, x ∈ l -> safe P E (f x)) -> safe P E (map_m f l).
Proof.
  induction l as [|x l IH]; intros Hf; simpl; [apply safe_ret|].
  apply safe_bind; [apply Hf; left|]. intros y.
  apply safe_bind; [apply IH; intros; apply Hf; by right|].
  intros ys. apply safe_ret.
Qed.
End safe.

#[export] Hint Resolve safe_ret safe_raise safe_bind safe_gets safe_get
  safe_lift safe_for_each safe_map_m : agentrl.

(** [keeps P Q m]: from a state satisfying [P] the computation ends in one
    satisfying [P], and a value it returns satisfies [Q]. *)
Definition keeps {S A} (P : S -> Prop) (Q : A -> Prop) (m : M S A) : Prop :=
  forall s, P s -> P (m s).1 ∧ forall a, (m s).2 = Ok a -> Q a.

Section keeps.
Context {S : Type} (P : S -> Prop).

Lemma keeps_ret {A} (Q : A -> Prop) a : Q a -> keeps P Q (mret a).
Proof. intros Ha s Hs. split; [done|]. intros ? [= <-]. done. Qed.

Lemma keeps_raise {A} (Q : A -> Prop) e : keeps P Q (raise e : M S A).
Proof. by intros s Hs. Qed.

Lemma keeps_lift {A} (Q : A -> Prop) r :
  (forall a, r = Ok a -> Q a) -> keeps P Q (lift_res r).
Proof. by intros Hr s Hs. Qed.

Lemma keeps_gets {A} (Q : A -> Prop) (f : S -> A) :
  (forall s, P s -> Q (f s)) -> keeps P Q (gets f).
Proof. intros Hf s Hs. split; [done|]. intros ? [= <-]. auto. Qed.

Lemma keeps_modify (Q : unit -> Prop) (f : S -> S) :
  Q tt -> (forall s, P s -> P (f s)) -> keeps P Q (modify f).
Proof. intros HQ Hf s Hs. split; [by apply Hf|]. by intros []. Qed.

Lemma keeps_bind {A B} (Q : A -> Prop) (Q' : B -> Prop) (m : M S A) (f : A -> M S B) :
  keeps P Q m -> (forall a, Q a -> keeps P Q' (f a)) -> keeps P Q' (m ≫= f).
Proof.
  intros Hm Hf s Hs. destruct (Hm s Hs) as [Hp Hq]. unfold mbind, M_bind.
  destruct (m s) as [s' [a|e]]; simpl in *; [by apply (Hf a); auto|done].
Qed.

Lemma keeps_weaken {A} (Q Q' : A -> Prop) (m : M S A) :
  keeps P Q m -> (forall a, Q a -> Q' a) -> keeps P Q' m.
Proof. intros Hm HQ s Hs. destruct (Hm s Hs). naive_solver. Qed.

Lemma keeps_for_each {A} (l : list A) (f : A -> M S unit) :
  (forall x, x ∈ l -> keeps P (fun _ => True) (f x)) ->
  keeps P (fun _ => True) (for_each l f).
Proof.
  induction l as [|x l IH]; intros Hf; [by apply keeps_ret|].
  eapply keeps_bind; [apply Hf; left|]. intros _ _. apply IH. intros y Hy. apply Hf. by right.
Qed.

Lemma keeps_map_m {A B} (Q : B -> Prop) (l : list A) (f : A -> M S B) :
  (forall x, x ∈ l -> keeps P Q (f x)) -> keeps P (Forall Q) (map_m f l).
Proof.
  induction l as [|x l IH]; intros Hf; [apply keeps_ret; constructor|].
  eapply keeps_bind; [apply Hf; left|]. intros y Hy.
  eapply keeps_bind; [apply IH; intros z Hz; apply Hf; by right|].
  intros ys Hys. apply keeps_ret. by constructor.
Qed.

Lemma keeps_try {A} (Q : A -> Prop) (m : M S A) h :
  keeps P Q m -> (forall e k, h e = Some k -> keeps P Q k) -> keeps P Q (try_except m h).
Proof.
  intros Hm Hh s Hs. destruct (Hm s Hs) as [Hp Hq]. unfold try_except.
  destruct (m s) as [s' [a|e]]; [done|]. simpl in *.
  destruct (h e) eqn:He; [by apply (Hh e)|done].
Qed.
End keeps.

(** Walks through a computation, leaving the calls it knows no [safe] lemma
    for. *)
Ltac safe_auto :=
  repeat (intros; cbn beta iota;
    match goal with
    | |- safe _ _ _ => solve [eauto 2 with agentrl]
    | |- safe _ _ (mret _) => apply safe_ret
    | |- safe _ _ (raise _) => apply safe_raise; try done; eauto with agentrl
    | |- safe _ _ (_ ≫= _) => apply safe_bind
    | |- safe _ _ (gets _) => apply safe_gets
    | |- safe _ _ get => apply safe_get
    | |- safe _ _ (modify _) => apply safe_modify; simpl; try done; auto
    | |- safe _ _ (match ?x with _ => _ end) => destruct x eqn:?
    end).

(** ** Runs of an executable step function over a list of events *)
Section runs.
Context {S E : Type} (step : S -> E -> S).

Definition run (s : S) (l : list E) : S := foldl step s l.

Lemma run_invariant (P : S -> Prop) s l :
  P s -> (forall s e, P s -> P (step s e)) -> P (run s l).
Proof. revert s. induction l; simpl; auto. Qed.

Lemma run_app s l1 l2 : run s (l1 ++ l2) = run (run s l1) l2.
Proof. apply foldl_app. Qed.
End runs.

(** ** Lists *)
Lemma foldl_sum_length {A} (l : list (list A)) (n : nat) :
  foldl (fun k x => (k + length x)%nat) n l = (n + length (mjoin l))%nat.
Proof.
  revert n. induction l as [|x l IH]; intros n; simpl; [lia|].
  rewrite IH, length_app. lia.
Qed.

Lemma size_pos_bool (X : gset string) :
  bool_decide (0 < Z.of_nat (size X)) = bool_decide (X ≠ ∅).
Proof.
  apply bool_decide_ext. split.
  - intros H1 ->. rewrite size_empty in H1. lia.
  - intros H. destruct (decide (size X = 0%nat)) as [H0|]; [|lia].
    by apply size_empty_inv, leibniz_equiv in H0.
Qed.
