(* ===== verification/PyVal.v ===== *)
(** * Python strings, dictionaries and JSON-like values

    The part of Python's own data model the translated code uses: [str]
    operations on ASCII text, [dict] as an association list in insertion
    order, and the values [json.loads] / [yaml.safe_load] return. *)

From S2P Require Import Prelude.


#[global] Open Scope Z_scope.
Declare Scope py_scope.
Delimit Scope py_scope with py.

(** ** Strings *)
Fixpoint str_map (f : ascii -> ascii) (s : string) : string :=
  match s with
  | EmptyString => EmptyString
  | String c s' => String (f c) (str_map f s')
  end.

Definition ascii_upper (c : ascii) : ascii :=
  let n := Ascii.nat_of_ascii c in
  if bool_decide (97 ≤ n ∧ n ≤ 122)%nat then Ascii.ascii_of_nat (n - 32) else c.
Definition ascii_lower (c : ascii) : ascii :=
  let n := Ascii.nat_of_ascii c in
  if bool_decide (65 ≤ n ∧ n ≤ 90)%nat then Ascii.ascii_of_nat (n + 32) else c.

(** [s.upper()], [s.lower()], [s.replace(a, b)] for one-character [a], [b]. *)
Definition upper (s : string) : string := str_map ascii_upper s.
Definition lower (s : string) : string := str_map ascii_lower s.
Definition replace_char (a b : ascii) (s : string) : string :=
  str_map (fun c => if bool_decide (c = a) then b else c) s.

Definition is_space (c : ascii) : bool :=
  let n := Ascii.nat_of_ascii c in
  bool_decide (n = 32 ∨ (9 ≤ n ∧ n ≤ 13) ∨ (28 ≤ n ∧ n ≤ 31))%nat.
Definition is_digit (c : ascii) : bool :=
  let n := Ascii.nat_of_ascii c in bool_decide (48 ≤ n ∧ n ≤ 57)%nat.
Definition digit_val (c : ascii) : Z := Z.of_nat (Ascii.nat_of_ascii c) - 48.

Definition chars (s : string) : list ascii := String.list_ascii_of_string s.
Definition of_chars (l : list ascii) : string := String.string_of_list_ascii l.

Fixpoint drop_space (l : list ascii) : list ascii :=
  match l with
  | c :: l' => if is_space c then drop_space l' else l
  | [] => []
  end.
(** [s.strip()] *)
Definition strip (s : string) : string :=
  of_chars (reverse (drop_space (reverse (drop_space (chars s))))).

(** [s.split(c)] for a one-character separator. *)
Fixpoint split_chars (c : ascii) (l : list ascii) : list (list ascii) :=
  match l with
  | [] => [[]]
  | x :: l' =>
      if bool_decide (x = c) then [] :: split_chars c l'
      else match split_chars c l' with
           | w :: ws => (x :: w) :: ws
           | [] => [[x]]
           end
  end.
Definition split_on (c : ascii) (s : string) : list string :=
  of_chars <$> split_chars c (chars s).

(** [s.split(c, 1)]: the text before the first [c] and the text after it,
    [None] when there is no [c]. *)
Fixpoint split_first (c : ascii) (s : string) : option (string * string) :=
  match s with
  | EmptyString => None
  | String x s' =>
      if bool_decide (x = c) then Some (EmptyString, s')
      else '(a, b) ← split_first c s'; Some (String x a, b)
  end.

Definition starts_with (p s : string) : bool := String.prefix p s.
Definition ends_with (p s : string) : bool :=
  let n := String.length s in let k := String.length p in
  bool_decide (k ≤ n)%nat && String.eqb (String.substring (n - k) k s) p.
Definition drop_str (n : nat) (s : string) : string :=
  String.substring n (String.length s - n) s.

(** [sep.join(l)] *)
Fixpoint join (sep : string) (l : list string) : string :=
  match l with
  | [] => EmptyString
  | [x] => x
  | x :: l' => x +:+ sep +:+ join sep l'
  end.

(** [str(n)] of an integer and [str(b)] of a boolean. *)
Definition str_Z (n : Z) : string := pretty n.
Definition str_bool (b : bool) : string := if b then "True" else "False".

(** ** Dictionaries: association lists in insertion order *)
Section dict.
Context {K V : Type} `{EqDecision K}.

Fixpoint dget (k : K) (d : list (K * V)) : option V :=
  match d with
  | [] => None
  | (k', v) :: d' => if decide (k = k') then Some v else dget k d'
  end.

(** [d[k] = v]: the position of a key already present is kept. *)
Fixpoint dset (k : K) (v : V) (d : list (K * V)) : list (K * V) :=
  match d with
  | [] => [(k, v)]
  | (k', v') :: d' =>
      if decide (k = k') then (k', v) :: d' else (k', v') :: dset k v d'
  end.

(** [d.pop(k, None)] *)
Fixpoint ddel (k : K) (d : list (K * V)) : list (K * V) :=
  match d with
  | [] => []
  | (k', v') :: d' =>
      if decide (k = k') then d' else (k', v') :: ddel k d'
  end.

Definition dmem (k : K) (d : list (K * V)) : bool :=
  match dget k d with Some _ => true | None => false end.

Definition dkeys (d : list (K * V)) : list K := d.*1.
Definition dvalues (d : list (K * V)) : list V := d.*2.

(** [d.get(k, default)] *)
Definition dget_or (k : K) (default : V) (d : list (K * V)) : V :=
  match dget k d with Some v => v | None => default end.

(** [d.update(d2)] and [{**d, **d2}] *)
Definition dupdate (d d2 : list (K * V)) : list (K * V) :=
  foldl (fun acc kv => dset kv.1 kv.2 acc) d d2.

(** A Python [dict] has each key once. *)
Definition dict_wf (d : list (K * V)) : Prop := NoDup (dkeys d).

Lemma dget_dset_eq k v d : dget k (dset k v d) = Some v.
Proof.
  induction d as [|[k' v'] d IH]; simpl; [by rewrite decide_True|].
  destruct (decide (k = k')) as [->|]; simpl; [by rewrite decide_True|].
  by rewrite decide_False.
Qed.

Lemma dget_dset_ne k k' v d : k ≠ k' -> dget k (dset k' v d) = dget k d.
Proof.
  intros Hne. induction d as [|[k1 v1] d IH]; simpl; [by rewrite decide_False|].
  destruct (decide (k' = k1)) as [->|]; simpl; [by rewrite !decide_False|].
  by rewrite IH.
Qed.

Lemma dget_dset k k' v d :
  dget k (dset k' v d) = if decide (k = k') then Some v else dget k d.
Proof.
  destruct (decide (k = k')) as [->|]; [apply dget_dset_eq|by apply dget_dset_ne].
Qed.

Lemma dget_ddel_ne k k' d : k ≠ k' -> dget k (ddel k' d) = dget k d.
Proof.
  intros Hne. induction d as [|[k1 v1] d IH]; simpl; [done|].
  destruct (decide (k' = k1)) as [->|]; simpl; [by rewrite decide_False|].
  by rewrite IH.
Qed.

Lemma dkeys_elem k d : k ∈ dkeys d ↔ is_Some (dget k d).
Proof.
  unfold dkeys. induction d as [|[k1 v1] d IH]; simpl.
  - split; [by intros ?%elem_of_nil|by intros [? ?]].
  - rewrite elem_of_cons, IH. destruct (decide (k = k1)) as [->|Hne].
    + split; [by eexists|by left].
    + split; [by intros [?|?]|by right].
Qed.

Lemma dget_None k d : dget k d = None ↔ k ∉ dkeys d.
Proof. rewrite dkeys_elem, <- eq_None_not_Some. done. Qed.

Lemma dmem_true k d : dmem k d = true ↔ k ∈ dkeys d.
Proof. rewrite dkeys_elem. unfold dmem. destruct (dget k d); naive_solver. Qed.

Lemma dkeys_dset k v d :
  dkeys (dset k v d) = if decide (k ∈ dkeys d) then dkeys d else dkeys d ++ [k].
Proof.
  unfold dkeys. induction d as [|[k1 v1] d IH]; [done|].
  cbn [dset]. destruct (decide (k = k1)) as [->|Hne]; cbn [fmap list_fmap fst].
  - rewrite decide_True by left. done.
  - change ((list_fmap _ _ fst (dset k v d))) with ((dset k v d).*1).
    change ((list_fmap _ _ fst d)) with (d.*1). rewrite IH.
    destruct (decide (k ∈ d.*1)); [rewrite decide_True by by right|
      rewrite decide_False by set_solver]; done.
Qed.

Lemma dset_wf k v d : dict_wf d -> dict_wf (dset k v d).
Proof.
  unfold dict_wf. rewrite dkeys_dset. destruct (decide _); [done|].
  intros H. apply NoDup_app. split_and!; [done| |apply NoDup_singleton].
  intros x Hx ->%list_elem_of_singleton. done.
Qed.

Lemma dget_in k v d : dget k d = Some v -> (k, v) ∈ d.
Proof.
  induction d as [|[k1 v1] d IH]; simpl; [done|].
  destruct (decide (k = k1)) as [->|]; intros; simplify_eq.
  - left.
  - right. auto.
Qed.

Lemma in_dget k v d : dict_wf d -> (k, v) ∈ d -> dget k d = Some v.
Proof.
  unfold dict_wf, dkeys.
  induction d as [|[k1 v1] d IH]; simpl; [by intros _ ?%elem_of_nil|].
  intros [Hni Hnd]%NoDup_cons [?|Hin]%elem_of_cons; simplify_eq.
  - by rewrite decide_True.
  - rewrite decide_False; [by apply IH|]. intros ->. apply Hni.
    change k1 with (k1, v).1. by apply list_elem_of_fmap_2.
Qed.

Lemma ddel_wf k d : dict_wf d -> dict_wf (ddel k d) ∧ dget k (ddel k d) = None.
Proof.
  unfold dict_wf, dkeys. induction d as [|[k1 v1] d IH]; simpl; [done|].
  intros [Hni Hnd]%NoDup_cons. destruct (decide (k = k1)) as [->|]; simpl.
  - split; [done|]. by apply dget_None.
  - destruct (IH Hnd) as [H1 H2]. rewrite decide_False by done. split; [|done].
    apply NoDup_cons. split; [|done]. intros Hin. apply Hni. revert Hin. clear.
    induction d as [|[k2 v2] d IHd]; simpl; [done|].
    destruct (decide (k = k2)); simpl; rewrite ?elem_of_cons; naive_solver.
Qed.

Lemma dset_dset k v w d : dset k v (dset k w d) = dset k v d.
Proof.
  induction d as [|[k1 v1] d IH]; simpl; [by rewrite decide_True|].
  destruct (decide (k = k1)) as [->|]; simpl; [by rewrite decide_True|].
  by rewrite decide_False, IH.
Qed.

Lemma dset_comm k k' v w d : k ≠ k' -> is_Some (dget k d) -> is_Some (dget k' d) ->
  dset k v (dset k' w d) = dset k' w (dset k v d).
Proof.
  intros Hne. induction d as [|[k1 v1] d IH]; simpl; [by intros [? ?]|].
  intros H1 H2. destruct (decide (k = k1)) as [->|Hk]; simpl.
  - rewrite !(decide_False (P := k' = k1)) by done. simpl. by rewrite decide_True.
  - destruct (decide (k' = k1)) as [->|Hk']; simpl.
    + by rewrite (decide_False (P := k = k1)).
    + by rewrite (decide_False (P := k = k1)), IH.
Qed.

Lemma dget_ddel k k' d :
  dict_wf d -> dget k (ddel k' d) = if decide (k = k') then None else dget k d.
Proof.
  intros Hwf. case_decide; [subst; by apply ddel_wf|by apply dget_ddel_ne].
Qed.
End dict.

#[export] Hint Resolve dset_wf : agentrl.

(** ** Floats

    A [float] as the exact number it denotes, or one of the three values that
    denote none; the rounding of arithmetic is not modelled. *)
Inductive pyfloat : Type :=
| Fin (q : Q)
| Inf (negative : bool)
| NaN.

(** [x == y] and [x < y] *)
Definition feq (x y : pyfloat) : bool :=
  match x, y with
  | Fin p, Fin q => Qeq_bool p q
  | Inf a, Inf b => eqb a b
  | _, _ => false
  end.
Definition flt (x y : pyfloat) : bool :=
  match x, y with
  | Fin p, Fin q => Qle_bool p q && negb (Qeq_bool p q)
  | Fin _, Inf b => negb b
  | Inf a, Fin _ => a
  | Inf a, Inf b => a && negb b
  | _, _ => false
  end.

(** [round(a / b)] of the exact quotient, halves to the even neighbour. *)
Definition round_div (a b : Z) : Z :=
  let q := a / b in
  let r := a mod b in
  if bool_decide (2 * r < b) then q
  else if bool_decide (b < 2 * r) then q + 1
  else if Z.even q then q else q + 1.

Lemma round_div_bounds a b : 0 < b -> b * (2 * round_div a b - 1) <= 2 * a <= b * (2 * round_div a b + 1).
Proof.
  intros Hb. unfold round_div. pose proof (Z.div_mod a b ltac:(lia)).
  pose proof (Z.mod_pos_bound a b Hb). repeat case_match; rewrite ?bool_decide_eq_true, ?bool_decide_eq_false in *; nia.
Qed.

Lemma round_div_exact n b : 0 < b -> round_div (b * n) b = n.
Proof.
  intros Hb. unfold round_div. rewrite (Z.mul_comm b n), Z.div_mul, Z.mod_mul by lia.
  by rewrite bool_decide_true by lia.
Qed.

(** [int(s)]: surrounding blanks, a sign, then digits with single underscores
    between them. *)
Fixpoint int_digits (acc : Z) (after_digit : bool) (l : list ascii) : option Z :=
  match l with
  | [] => if after_digit then Some acc else None
  | c :: l' =>
      if is_digit c then int_digits (10 * acc + digit_val c) true l'
      else if bool_decide (c = "_"%char) && after_digit
           then int_digits acc false l' else None
  end.
Definition py_int (s : string) : option Z :=
  match chars (strip s) with
  | "-"%char :: l => Z.opp <$> int_digits 0 false l
  | "+"%char :: l => int_digits 0 false l
  | l => int_digits 0 false l
  end.

(** [float(s)]: an optional sign, then [inf], [infinity], [nan] or a decimal
    literal with an optional fraction and exponent. *)
Fixpoint float_digits (acc : Z) (n : nat) (after_digit : bool) (l : list ascii)
    : option (Z * nat * list ascii) :=
  match l with
  | c :: l' =>
      if is_digit c then float_digits (10 * acc + digit_val c) (S n) true l'
      else if bool_decide (c = "_"%char) && after_digit
           then float_digits acc n false l'
           else if after_digit || bool_decide (n = O) then Some (acc, n, l) else None
  | [] => if after_digit || bool_decide (n = O) then Some (acc, n, []) else None
  end.
Definition pow10 (e : Z) : Q :=
  if 0 <=? e then inject_Z (10 ^ e) else 1 / inject_Z (10 ^ (- e)).
Definition float_exponent (l : list ascii) : option Z :=
  match l with
  | [] => Some 0
  | c :: l' =>
      if bool_decide (ascii_lower c = "e"%char)
      then match l' with
           | "-"%char :: l2 => Z.opp <$> int_digits 0 false l2
           | "+"%char :: l2 => int_digits 0 false l2
           | _ => int_digits 0 false l'
           end
      else None
  end.
Definition float_literal (l : list ascii) : option Q :=
  '(ip, n1, l1) ← float_digits 0 0 false l;
  '(fp, n2, l2) ← match l1 with
                  | "."%char :: l1' => float_digits 0 0 false l1'
                  | _ => Some (0, O, l1)
                  end;
  if bool_decide (n1 + n2 = 0)%nat then None
  else e ← float_exponent l2;
       Some (inject_Z (ip * 10 ^ Z.of_nat n2 + fp) * pow10 (e - Z.of_nat n2))%Q.
Definition unsigned_float (neg : bool) (l : list ascii) : option pyfloat :=
  let w := lower (of_chars l) in
  if bool_decide (w = "inf" \/ w = "infinity") then Some (Inf neg)
  else if bool_decide (w = "nan") then Some NaN
  else (fun q => Fin (if neg then Qopp q else q)) <$> float_literal l.
Definition py_float (s : string) : option pyfloat :=
  match chars (strip s) with
  | "-"%char :: l => unsigned_float true l
  | "+"%char :: l => unsigned_float false l
  | l => unsigned_float false l
  end.

(** ** Values *)
Inductive val : Type :=
| VNone
| VBool (b : bool)
| VInt (z : Z)
| VFloat (q : pyfloat)
| VStr (s : string)
| VList (l : list val)
| VDict (d : list (string * val)).

(** Structural induction through the nested lists and dictionaries. *)
Section val_ind.
Variable P : val -> Prop.
Hypothesis HNone : P VNone.
Hypothesis HBool : forall b, P (VBool b).
Hypothesis HInt : forall z, P (VInt z).
Hypothesis HFloat : forall q, P (VFloat q).
Hypothesis HStr : forall s, P (VStr s).
Hypothesis HList : forall l, Forall P l -> P (VList l).
Hypothesis HDict : forall d, Forall (fun kv => P kv.2) d -> P (VDict d).

Fixpoint val_nested_ind (v : val) : P v :=
  match v with
  | VNone => HNone
  | VBool b => HBool b
  | VInt z => HInt z
  | VFloat q => HFloat q
  | VStr s => HStr s
  | VList l =>
      HList l ((fix go l : Forall P l :=
                  match l with
                  | [] => List.Forall_nil _
                  | x :: l' => List.Forall_cons _ _ _ (val_nested_ind x) (go l')
                  end) l)
  | VDict d =>
      HDict d ((fix go d : Forall (fun kv => P kv.2) d :=
                  match d with
                  | [] => List.Forall_nil _
                  | (k, x) :: d' =>
                      List.Forall_cons _ (k, x) _ (val_nested_ind x) (go d')
                  end) d)
  end.
End val_ind.

(** Size of a value, the measure of the functions that are not structural. *)
Fixpoint vsize (v : val) : nat :=
  match v with
  | VList l => S (list_sum (vsize <$> l))
  | VDict d => S ((fix go d := match d with [] => 0%nat | (_, x) :: d' => (vsize x + go d')%nat end) d)
  | _ => 1%nat
  end.

(** [bool(v)] *)
Definition truthy (v : val) : bool :=
  match v with
  | VNone => false
  | VBool b => b
  | VInt z => negb (bool_decide (z = 0))
  | VFloat q => negb (feq q (Fin 0))
  | VStr s => negb (bool_decide (s = ""))
  | VList l => negb (bool_decide (l = []))
  | VDict d => negb (bool_decide (d = []))
  end.

(** A value every dictionary of which has unique keys. *)
Fixpoint val_wf (v : val) : Prop :=
  match v with
  | VList l => (fix go l := match l with [] => True | x :: l' => val_wf x ∧ go l' end) l
  | VDict d =>
      dict_wf d ∧
      (fix go d := match d with [] => True | (_, x) :: d' => val_wf x ∧ go d' end) d
  | _ => True
  end.

Lemma val_wf_list l : val_wf (VList l) ↔ Forall val_wf l.
Proof.
  induction l as [|x l IH]; [done|]. rewrite Forall_cons, <- IH. done.
Qed.

Lemma val_wf_dict d : val_wf (VDict d) ↔ dict_wf d ∧ Forall (fun kv => val_wf kv.2) d.
Proof.
  cbn [val_wf]. f_equiv. induction d as [|[k x] d IH]; [done|].
  rewrite Forall_cons, <- IH. done.
Qed.

Definition vget (k : string) (v : val) : option val :=
  match v with VDict d => dget k d | _ => None end.

(** ** [int(str(n))] and separators in keys *)

Definition digits_value (acc : Z) (l : list ascii) : Z :=
  foldl (fun a c => 10 * a + digit_val c) acc l.

Lemma int_digits_app acc b l r :
  Forall (fun c => is_digit c = true) l -> l ≠ [] ->
  int_digits acc b (l ++ r) = int_digits (digits_value acc l) true r.
Proof.
  revert acc b. induction l as [|c l IH]; intros acc b Hd Hne; [done|].
  apply Forall_cons in Hd as [Hc Hd]. simpl. rewrite Hc.
  destruct l as [|c' l]; [done|]. by rewrite IH.
Qed.

Lemma pretty_N_char_digit x :
  (x < 10)%N -> is_digit (pretty_N_char x) = true ∧ digit_val (pretty_N_char x) = Z.of_N x.
Proof.
  intros H.
  assert (x = 0 ∨ x = 1 ∨ x = 2 ∨ x = 3 ∨ x = 4 ∨ x = 5 ∨ x = 6 ∨ x = 7 ∨ x = 8 ∨ x = 9)%N
    as Hx by lia.
  repeat destruct Hx as [->|Hx]; try (by split); by subst.
Qed.

Lemma pretty_N_digits x s :
  (0 < x)%N ->
  exists l, chars (pretty_N_go x s) = l ++ chars s ∧
    Forall (fun c => is_digit c = true) l ∧ l ≠ [] ∧
    digits_value 0 l = Z.of_N x.
Proof.
  revert s. induction (N.lt_wf_0 x) as [x _ IH]; intros s Hx.
  rewrite pretty_N_go_step by done.
  destruct (pretty_N_char_digit (x `mod` 10)) as [Hd Hv]; [by apply N.mod_lt|].
  set (c := pretty_N_char (x `mod` 10)) in *.
  destruct (decide (x `div` 10 = 0)%N) as [Hz|Hz].
  - rewrite Hz, pretty_N_go_0. exists [c]. split_and!; [done|by repeat constructor|done|].
    simpl. rewrite Hv. pose proof (N.div_mod x 10 ltac:(done)). lia.
  - destruct (IH (x `div` 10)%N (N.div_lt x 10 Hx eq_refl) (String c s)
      (proj1 (N.neq_0_lt_0 _) Hz)) as (l & H1 & H2 & H3 & H4).
    exists (l ++ [c]). split_and!.
    + rewrite H1. by rewrite <- app_assoc.
    + apply Forall_app. by repeat constructor.
    + by destruct l.
    + unfold digits_value in *. rewrite foldl_app, H4. simpl. rewrite Hv.
      pose proof (N.div_mod x 10 ltac:(done)). lia.
Qed.

Lemma digit_not_space c : is_digit c = true -> is_space c = false.
Proof.
  unfold is_digit, is_space. rewrite bool_decide_eq_true, bool_decide_eq_false. lia.
Qed.

Lemma chars_of_chars l : chars (of_chars l) = l.
Proof. apply String.list_ascii_of_string_of_list_ascii. Qed.
Lemma of_chars_chars s : of_chars (chars s) = s.
Proof. apply String.string_of_list_ascii_of_string. Qed.

Lemma split_chars_none c l : c ∉ l -> split_chars c l = [l].
Proof.
  induction l as [|x l IH]; [done|]. rewrite not_elem_of_cons. intros [Hx Hl]. simpl.
  rewrite bool_decide_false by congruence. by rewrite IH.
Qed.

Lemma str_Z_chars n : 0 <= n ->
  exists l, chars (str_Z n) = l ∧ Forall (fun c => is_digit c = true) l ∧ l ≠ [] ∧
    digits_value 0 l = n.
Proof.
  intros Hn. destruct n as [|p|p]; [by exists ["0"%char]; repeat constructor| |lia].
  destruct (pretty_N_digits (N.pos p) "" ltac:(done)) as (l & H1 & H2 & H3 & H4).
  exists l. rewrite app_nil_r in H1. by split_and!.
Qed.

(** [strip] leaves a string alone whose ends are not blank. *)
Lemma strip_id_ends s l :
  chars s = l ->
  (forall c, head l = Some c -> is_space c = false) ->
  (forall c, last l = Some c -> is_space c = false) ->
  chars (strip s) = l.
Proof.
  intros Hs Hh Hl. unfold strip. rewrite chars_of_chars, Hs.
  destruct l as [|c l]; [done|]. simpl (drop_space (c :: l)).
  rewrite (Hh c) by done.
  destruct (last (c :: l)) as [d|] eqn:El; [|by apply last_None in El].
  pose proof El as (l' & Hl')%last_Some. rewrite Hl', reverse_app. simpl.
  rewrite (Hl d) by done. rewrite reverse_cons, reverse_involutive. done.
Qed.

Lemma py_int_str_Z n : 0 <= n -> py_int (str_Z n) = Some n.
Proof.
  intros Hn. destruct (str_Z_chars n Hn) as (l & H1 & H2 & H3 & H4).
  assert (chars (strip (str_Z n)) = l) as Hs.
  { apply strip_id_ends; [done|..]; intros c Hc; apply digit_not_space;
      rewrite Forall_forall in H2; apply H2.
    - by destruct l; simplify_eq/=; left.
    - apply last_Some in Hc as [l' ->]. apply elem_of_app. right. left. }
  unfold py_int. rewrite Hs.
  assert (int_digits 0 false l = Some n) as Hi.
  { rewrite <- (app_nil_r l), int_digits_app by done. by rewrite H4. }
  destruct l as [|c l]; [done|]. apply Forall_cons in H2 as [Hc _].
  destruct c as [[] [] [] [] [] [] [] []]; try exact Hi; by vm_compute in Hc.
Qed.

Lemma chars_app a b : chars (a +:+ b) = chars a ++ chars b.
Proof. unfold chars. induction a as [|x a IH]; [done|]. exact (f_equal (cons x) IH). Qed.

(** A key made of a part without the separator, the separator, and a rest is
    read in one way. *)
Definition no_char (c : ascii) (s : string) : Prop := c ∉ chars s.

Lemma sep_inj c s1 s2 r1 r2 :
  no_char c s1 -> no_char c s2 ->
  s1 +:+ String c r1 = s2 +:+ String c r2 -> s1 = s2 ∧ r1 = r2.
Proof.
  unfold no_char. revert s2. induction s1 as [|a s1 IH]; intros [|b s2] H1 H2 Heq; simpl in *.
  - by simplify_eq.
  - simplify_eq. by destruct H2; left.
  - simplify_eq. by destruct H1; left.
  - injection Heq as -> Heq. apply not_elem_of_cons in H1 as [_ H1], H2 as [_ H2].
    by destruct (IH s2 H1 H2 Heq) as [-> ->].
Qed.

Lemma str_app_inj p s1 s2 : p +:+ s1 = p +:+ s2 -> s1 = s2.
Proof. induction p; simpl; intros H; [done|]. injection H as H. auto. Qed.

Lemma starts_with_app p s : starts_with p (p +:+ s) = true.
Proof. unfold starts_with. induction p; simpl; [by destruct s|]. by rewrite decide_True_pi || (case_match; done). Qed.

Lemma starts_with_iff p k : starts_with p k = true ↔ exists r, k = p +:+ r.
Proof.
  split; [|by intros [r ->]; apply starts_with_app].
  unfold starts_with. revert k. induction p as [|a p IH]; intros k H; [by exists k|].
  destruct k as [|b k]; [done|]. simpl in H.
  case_match; [subst|done]. destruct (IH k H) as [r ->]. by exists r.
Qed.

Lemma str_app_assoc (a b c : string) : (a +:+ b) +:+ c = a +:+ (b +:+ c).
Proof. induction a as [|x a IH]; [done|]. exact (f_equal (String x) IH). Qed.

(** ** Access to values whose type is not known *)

(** [v[k]] for a string [k] *)
Definition vsub (k : string) (v : val) : res val :=
  match v with
  | VDict d => match dget k d with Some x => Ok x | None => Raise KeyError end
  | _ => Raise TypeError
  end.

(** [v.get(k, default)] *)
Definition vget_or (k : string) (default : val) (v : val) : res val :=
  match v with
  | VDict d => Ok (dget_or k default d)
  | _ => Raise AttributeError
  end.

(** [v == s] for a string [s] *)
Definition is_str (s : string) (v : val) : bool :=
  match v with VStr x => bool_decide (x = s) | _ => false end.

(** [v.startswith(p)] *)
Definition vstartswith (p : string) (v : val) : res bool :=
  match v with VStr s => Ok (starts_with p s) | _ => Raise AttributeError end.

(** [for x in v]; [None] when the value is not an [Iterable]. *)
Definition iterable (v : val) : option (list val) :=
  match v with
  | VList l => Some l
  | VDict d => Some (VStr <$> dkeys d)
  | VStr s => Some ((fun c => VStr (String c EmptyString)) <$> chars s)
  | _ => None
  end.
Definition iterate (v : val) : res (list val) :=
  match iterable v with Some l => Ok l | None => Raise TypeError end.

(** A loop that extends a list with what each round gives. *)
Fixpoint flat_m {A B} (f : A -> res (list B)) (l : list A) : res (list B) :=
  match l with
  | [] => Ok []
  | x :: l => y ← f x; ys ← flat_m f l; Ok (y ++ ys)
  end.

Fixpoint map_r {A B} (f : A -> res B) (l : list A) : res (list B) :=
  match l with
  | [] => Ok []
  | x :: l => y ← f x; ys ← map_r f l; Ok (y :: ys)
  end.

Lemma flat_m_app {A B} (f : A -> res (list B)) l1 l2 :
  flat_m f (l1 ++ l2) = x ← flat_m f l1; y ← flat_m f l2; Ok (x ++ y).
Proof.
  induction l1 as [|a l1 IH]; simpl.
  - by destruct (flat_m f l2).
  - destruct (f a); simpl; [|done]. rewrite IH.
    destruct (flat_m f l1); simpl; [|done]. destruct (flat_m f l2); simpl; [|done].
    by rewrite app_assoc.
Qed.

Lemma flat_m_ok {A B} (f : A -> res (list B)) (g : A -> list B) l :
  Forall (fun x => f x = Ok (g x)) l -> flat_m f l = Ok (l ≫= g).
Proof. induction 1 as [|x l Hx _ IH]; simpl; [done|]. by rewrite Hx, IH. Qed.

Lemma map_r_ok {A B} (f : A -> res B) (g : A -> B) l :
  Forall (fun x => f x = Ok (g x)) l -> map_r f l = Ok (g <$> l).
Proof. induction 1 as [|x l Hx _ IH]; simpl; [done|]. by rewrite Hx, IH. Qed.

(** Loops whose rounds return and give elements of one kind, or raise an
    exception of one kind. *)
Definition yields {A} (P : A -> Prop) (E : exn -> Prop) (r : res A) : Prop :=
  match r with Ok a => P a | Raise e => E e end.

Lemma yields_bind {A B} (P : A -> Prop) (Q : B -> Prop) E r (f : A -> res B) :
  yields P E r -> (forall a, P a -> yields Q E (f a)) -> yields Q E (r ≫= f).
Proof. destruct r; simpl; auto. Qed.

Lemma yields_weaken {A} (P Q : A -> Prop) (E F : exn -> Prop) r :
  yields P E r -> (forall a, P a -> Q a) -> (forall e, E e -> F e) -> yields Q F r.
Proof. destruct r; simpl; auto. Qed.

Lemma yields_flat_m {A B} (P : B -> Prop) E (f : A -> res (list B)) l :
  Forall (fun x => yields (Forall P) E (f x)) l -> yields (Forall P) E (flat_m f l).
Proof.
  induction 1 as [|x l Hx _ IH]; simpl; [constructor|].
  eapply yields_bind; [done|]. intros y Hy. eapply yields_bind; [done|].
  intros ys Hys. by apply Forall_app.
Qed.

Lemma yields_map_r {A B} (P : B -> Prop) E (f : A -> res B) l :
  Forall (fun x => yields P E (f x)) l -> yields (Forall P) E (map_r f l).
Proof.
  induction 1 as [|x l Hx _ IH]; simpl; [constructor|].
  eapply yields_bind; [done|]. intros y Hy. eapply yields_bind; [done|].
  intros ys Hys. by constructor.
Qed.

#[export] Hint Resolve yields_flat_m yields_map_r : agentrl.

Lemma drop_str_app p s : drop_str (String.length p) (p +:+ s) = s.
Proof.
  unfold drop_str. induction p as [|x p IH]; simpl.
  - rewrite Nat.sub_0_r. induction s as [|c s IHs]; [done|]. exact (f_equal (String c) IHs).
  - exact IH.
Qed.
