(* ===== verification/Config.v ===== *)
(** * Worker configuration loading

    Models worker/config/loader.py and worker/config/consul.py: merging,
    [default]/[overwrite] expansion, imports with the circular-import guard,
    the override file, the Consul override and the environment override. *)

From S2P Require Import Prelude PyVal.

(** ** Pure transformations *)

(* worker/config/loader.py:141-150 ConfigLoader.deep_merge *)
Fixpoint deep_merge (base_item new_item : val) {struct new_item} : val :=
  match base_item, new_item with
  | VDict b, VDict n =>
      VDict ((fix go ret n :=
                match n with
                | [] => ret
                | (key, x) :: n' =>
                    go (dset key (match dget key ret with
                                  | Some y => deep_merge y x
                                  | None => x
                                  end) ret) n'
                end) b n)
  | _, _ => new_item
  end.

(* worker/config/loader.py:100-121 ConfigLoader.parse_default_and_overwrite *)
Fixpoint parse_default_and_overwrite (config : val) : val :=
  match config with
  | VDict d =>
      let parsed := (fix go d := match d with
                                 | [] => []
                                 | (k, v) :: d' =>
                                     (k, parse_default_and_overwrite v) :: go d'
                                 end) d in
      let overwrite := dget "overwrite" parsed in
      let default := dget "default" parsed in
      let finish parsed_v :=
        let parsed_v := match overwrite with
                        | Some o => deep_merge parsed_v o
                        | None => parsed_v
                        end in
        match default with
        | Some df => deep_merge df parsed_v
        | None => parsed_v
        end in
      VDict (prod_map id finish <$> ddel "default" (ddel "overwrite" parsed))
  | _ => config
  end.

(** [type(v)(s)] of [deep_override_from_env], with its [except] branch: the
    string itself when the conversion raises. *)
(* worker/config/loader.py:129-135 ConfigLoader.deep_override_from_env *)
Definition env_convert (v : val) (s : string) : val :=
  match v with
  | VBool _ => VBool (bool_decide (lower s ∈ ["true"; "1"; "yes"]))
  | VStr _ => VStr s
  | VInt _ => match py_int s with Some z => VInt z | None => VStr s end
  | VFloat _ => match py_float s with Some f => VFloat f | None => VStr s end
  | VList _ => VList ((fun c => VStr (String c EmptyString)) <$> chars s)
  | VDict _ => if bool_decide (s = "") then VDict [] else VStr s
  | VNone => VStr s
  end.

(* worker/config/loader.py:127-127 ConfigLoader.deep_override_from_env *)
Definition env_key_of (prefix k : string) : string :=
  upper (replace_char "-" "_" (prefix +:+ k)).

(* worker/config/loader.py:123-139 ConfigLoader.deep_override_from_env *)
Fixpoint deep_override_from_env (environ : string -> option string)
    (config : val) (prefix : string) : val :=
  match config with
  | VDict d =>
      VDict ((fix go d :=
                match d with
                | [] => []
                | (k, v) :: d' =>
                    let env_key := env_key_of prefix k in
                    (k, match environ env_key with
                        | Some s => env_convert v s
                        | None => deep_override_from_env environ v (env_key +:+ "_")
                        end) :: go d'
                end) d)
  | _ => config
  end.

(** ** Path functions of [os.path] *)
Fixpoint dirname_chars (l : list ascii) : option (list ascii) :=
  match l with
  | [] => None
  | c :: l' =>
      match dirname_chars l' with
      | Some d => Some (c :: d)
      | None => if bool_decide (c = "/"%char) then Some [] else None
      end
  end.
Definition dirname (p : string) : string :=
  match dirname_chars (chars p) with
  | Some [] => "/"
  | Some d => of_chars d
  | None => ""
  end.
Definition path_join (a b : string) : string :=
  if starts_with "/" b then b
  else if bool_decide (a = "") || ends_with "/" a then a +:+ b
  else a +:+ "/" +:+ b.

(** ** The loader *)

(** What the loader reads from outside: the file system, the YAML and JSON
    parsers, the process environment and the Consul HTTP API. *)
Record outside := {
  realpath : string -> string;
  path_exists : string -> bool;
  yaml_file : string -> res val;
  json_file : string -> res val;
  environ : string -> option string;
  (** [base64-decoded Value] of a Consul key, or the exception of fetching it *)
  consul_raw : string -> res string;
  json_loads : string -> res val;
  yaml_loads : string -> res val
}.

(* worker/config/loader.py:13-17 ConfigLoader.__init__ *)
Record loader := {
  loading : gset string;
  loaded : gmap string val
}.

Section loader.
Context (o : outside) (base_url : option string).

(* worker/config/consul.py:21-36 ConsulConfigLoader.get_config *)
Definition get_config (name : string) : option val :=
  match base_url with
  | None | Some EmptyString => None
  | Some url =>
      match (raw ← consul_raw o (url +:+ "/v1/kv/agentrl/config/" +:+ name);
             match json_loads o raw with
             | Raise ValueError => yaml_loads o raw
             | r => r
             end) with
      | Ok v => Some v
      | Raise _ => None
      end
  end.

Definition is_loading (path : string) : M loader bool :=
  gets (fun s => bool_decide (path ∈ loading s)).
Definition start_loading (path : string) : M loader unit :=
  modify (fun s => {| loading := {[path]} ∪ loading s; loaded := loaded s |}).
Definition stop_loading (path : string) (s : loader) : loader :=
  {| loading := loading s ∖ {[path]}; loaded := loaded s |}.
Definition set_loaded (path : string) (v : val) (s : loader) : loader :=
  {| loading := loading s; loaded := <[path := v]> (loaded s) |}.

Section with_load.
(** [self.load_from(path)] *)
Context (load : string -> M loader val).

(** The [import] entry: one path, or a list of paths merged in order. *)
(* worker/config/loader.py:72-87 ConfigLoader.parse_imports *)
Definition load_imports (path : string) (v : option val) : M loader val :=
  match v with
  | None => mret (VDict [])
  | Some (VStr p) =>
      config ← load (path_join path p);
      mret (deep_merge (VDict []) config)
  | Some (VList vs) =>
      (fix go ret vs :=
         match vs with
         | [] => mret ret
         | VStr p :: vs' =>
             config ← load (path_join path p);
             go (deep_merge ret config) vs'
         | _ :: _ => raise AssertionError
         end) (VDict []) vs
  | Some _ => raise (Exception "Unknown import value")
  end.

(* worker/config/loader.py:68-98 ConfigLoader.parse_imports *)
Fixpoint parse_imports (path : string) (raw_config : val) : M loader val :=
  match raw_config with
  | VDict d =>
      ret ← load_imports path (dget "import" d);
      rest ← (fix go d : M loader (list (string * val)) :=
                match d with
                | [] => mret []
                | (k, v) :: d' =>
                    if decide (k = "import") then go d'
                    else v' ← parse_imports path v;
                         rest ← go d';
                         mret ((k, v') :: rest)
                end) d;
      mret (deep_merge ret (VDict rest))
  | VList l =>
      ret ← (fix go l : M loader (list val) :=
               match l with
               | [] => mret []
               | v :: l' =>
                   v' ← parse_imports path v;
                   rest ← go l';
                   mret (v' :: rest)
               end) l;
      mret (VList ret)
  | _ => mret raw_config
  end.
End with_load.

(** The parsed file, before imports. *)
(* worker/config/loader.py:47-56 ConfigLoader._load_file *)
Definition read_config (path : string) : res val :=
  if negb (path_exists o path) then Raise (Exception "File not found")
  else if ends_with ".yaml" path || ends_with ".yml" path then yaml_file o path
  else if ends_with ".json" path then json_file o path
  else Raise (Exception "Unknown file type").

(** A configuration with the entry of [self.loaded] it is the same object
    as, if any: [load_from] assigns into it. *)
Definition shared : Type := val * option string.

(* worker/config/loader.py:41-66 ConfigLoader._load_file *)
Definition load_file_with (load : string -> M loader val) (path : string)
    : M loader shared :=
  let path := realpath o path in
  busy ← is_loading path;
  if (busy : bool) then raise (Exception "Circular import detected") else
  cached ← gets (fun s => loaded s !! path);
  match cached with
  | Some c => mret (c, None)
  | None =>
      config ← lift_res (read_config path);
      start_loading path;;
      config ← try_except (parse_imports load (dirname path) config)
                 (fun e => if is_Exception e
                           then Some (modify (stop_loading path);; raise e)
                           else None);
      let config := parse_default_and_overwrite config in
      modify (stop_loading path);;
      modify (set_loaded path config);;
      mret (config, Some path)
  end.

(** [self.deep_merge(config, override_config)] builds a new dictionary only
    when both are dictionaries. *)
Definition merge_shared (c oc : shared) : shared :=
  match c.1, oc.1 with
  | VDict _, VDict _ => (deep_merge c.1 oc.1, None)
  | _, _ => oc
  end.

(** [config[name] = deep_merge(config.get(name) or {}, consul_override)],
    written through to the cached object. *)
(* worker/config/loader.py:29-34 ConfigLoader.load_from *)
Definition apply_consul (name : option string) (c : shared) : M loader val :=
  match name with
  | None => mret c.1
  | Some n =>
      match get_config n with
      | Some ov =>
          if truthy ov then
            match c.1 with
            | VDict d =>
                let v := match dget n d with
                         | Some v => if truthy v then v else VDict []
                         | None => VDict []
                         end in
                let d' := VDict (dset n (deep_merge v ov) d) in
                match c.2 with
                | Some p => modify (set_loaded p d')
                | None => mret tt
                end;;
                mret d'
            | _ => raise AttributeError
            end
          else mret c.1
      | None => mret c.1
      end
  end.

(* worker/config/loader.py:22-27 ConfigLoader.load_from *)
Definition apply_override (load_file : string -> M loader shared) (c : shared)
    : M loader shared :=
  match environ o "AGENTRL_CONFIG_OVERRIDE" with
  | None | Some EmptyString => mret c
  | Some override_path =>
      oc ← load_file override_path;
      mret (merge_shared c oc)
  end.

(* worker/config/loader.py:19-39 ConfigLoader.load_from *)
Definition load_from_with (load_file : string -> M loader shared)
    (path : string) (name : option string) : M loader val :=
  c ← load_file path;
  c ← apply_override load_file c;
  config ← apply_consul name c;
  mret (deep_override_from_env (environ o) config "").

(** [_load_file] and [load_from] call each other; [fuel] bounds the nesting
    of files being loaded. *)
(* worker/config/loader.py:41-66 ConfigLoader._load_file *)
Fixpoint load_file (fuel : nat) (path : string) : M loader shared :=
  match fuel with
  | O => raise RecursionLimit
  | S fuel =>
      load_file_with (fun p => load_from_with (load_file fuel) p None) path
  end.

(* worker/config/loader.py:19-39 ConfigLoader.load_from *)
Definition load_from (fuel : nat) (path : string) (name : option string)
    : M loader val := load_from_with (load_file fuel) path name.
End loader.

(** ** Merging *)

(** The value at a path of keys. *)
Fixpoint get_path (p : list string) (v : val) : option val :=
  match p with
  | [] => Some v
  | k :: p' => x ← vget k v; get_path p' x
  end.

(** The override says something about the path: it has a value there, or a
    value that is not a dictionary above it. *)
Fixpoint touches (p : list string) (v : val) : bool :=
  match p, v with
  | [], _ => true
  | k :: p', VDict d =>
      match dget k d with Some x => touches p' x | None => false end
  | _ :: _, _ => true
  end.

(** One step of [deep_merge] on dictionaries. *)
Definition merge_entry (ret : list (string * val)) (kv : string * val)
    : list (string * val) :=
  dset kv.1 (match dget kv.1 ret with
             | Some y => deep_merge y kv.2
             | None => kv.2
             end) ret.

Lemma deep_merge_dict b n :
  deep_merge (VDict b) (VDict n) = VDict (foldl merge_entry b n).
Proof.
  simpl. f_equal. revert b. induction n as [|[k x] n IH]; intros b; [done|].
  simpl. apply IH.
Qed.

Lemma foldl_merge_other k n b :
  k ∉ dkeys n -> dget k (foldl merge_entry b n) = dget k b.
Proof.
  unfold dkeys. revert b. induction n as [|[k1 x] n IH]; intros b Hk; [done|].
  simpl in *. apply not_elem_of_cons in Hk as [Hne Hk].
  rewrite IH by done. unfold merge_entry. by rewrite dget_dset_ne.
Qed.

Lemma deep_merge_vget b n k :
  dict_wf n ->
  dget k (foldl merge_entry b n) =
    match dget k n with
    | Some x => Some (match dget k b with Some y => deep_merge y x | None => x end)
    | None => dget k b
    end.
Proof.
  unfold dict_wf, dkeys. revert b.
  induction n as [|[k1 x1] n IH]; intros b Hnd; [done|].
  simpl in *. apply NoDup_cons in Hnd as [Hni Hnd].
  destruct (decide (k = k1)) as [->|Hne].
  - rewrite foldl_merge_other by done. unfold merge_entry; simpl.
    by rewrite dget_dset_eq.
  - rewrite IH by done. unfold merge_entry; simpl. by rewrite dget_dset_ne by done.
Qed.

Lemma foldl_merge_wf n b :
  dict_wf b -> Forall (fun kv => val_wf kv.2) b ->
  Forall (fun kv => val_wf kv.2 ∧ forall y, val_wf y -> val_wf (deep_merge y kv.2)) n ->
  dict_wf (foldl merge_entry b n) ∧
  Forall (fun kv => val_wf kv.2) (foldl merge_entry b n).
Proof.
  revert b. induction n as [|[k x] n IH]; intros b Hb Hvs Hn; [done|].
  apply Forall_cons in Hn as [[Hx Hmx] Hn]. simpl. apply IH; [|  |done].
  - by apply dset_wf.
  - unfold merge_entry; simpl.
    assert (val_wf (match dget k b with Some y => deep_merge y x | None => x end)) as Hv.
    { destruct (dget k b) as [y|] eqn:E; [|done]. apply Hmx.
      apply dget_in in E. rewrite Forall_forall in Hvs. by apply (Hvs (k, y)). }
    revert Hv. generalize (match dget k b with Some y => deep_merge y x | None => x end).
    intros v Hv. clear -Hvs Hv. induction b as [|[k1 v1] b IHb]; simpl.
    + by repeat constructor.
    + apply Forall_cons in Hvs as [??].
      destruct (decide (k = k1)); constructor; auto.
Qed.

Lemma deep_merge_wf b n : val_wf b -> val_wf n -> val_wf (deep_merge b n).
Proof.
  revert b. induction n as [| | | | |l _|d IH] using val_nested_ind; intros base Hb Hn;
    try (by destruct base).
  destruct base as [| | | | | |db]; try done. rewrite deep_merge_dict.
  rewrite val_wf_dict in *. destruct Hb as [Hb1 Hb2], Hn as [Hn1 Hn2].
  apply foldl_merge_wf; [done..|].
  eapply Forall_impl; [apply Forall_and; split; [exact IH|exact Hn2]|].
  intros kv [Hi Hw]. split; auto.
Qed.

Lemma get_path_untouched p n : touches p n = false -> get_path p n = None.
Proof.
  revert n. induction p as [|k p IH]; intros n; [done|].
  destruct n as [| | | | | |d]; simpl; try done.
  destruct (dget k d); simpl; auto.
Qed.

Lemma deep_merge_path p b n :
  val_wf n ->
  get_path p (deep_merge b n) =
    match get_path p n with
    | Some x => Some (match get_path p b with Some y => deep_merge y x | None => x end)
    | None => if touches p n then None else get_path p b
    end.
Proof.
  revert b n. induction p as [|k p IH]; intros b n Hn; [done|].
  destruct n as [| | | | | |dn]; try (by destruct b).
  destruct b as [| | | | | |db];
    try (simpl; destruct (dget k dn) as [x|]; simpl; [|done];
         destruct (get_path p x); [done|]; by case_match).
  rewrite deep_merge_dict. cbn [get_path vget touches].
  apply val_wf_dict in Hn as [Hn1 Hn2]. rewrite deep_merge_vget by done.
  destruct (dget k dn) as [x|] eqn:Ex; simpl; [|done].
  assert (val_wf x) as Hx.
  { rewrite Forall_forall in Hn2. by apply (Hn2 (k, x)), dget_in. }
  destruct (dget k db) as [y|]; simpl; [by apply IH|].
  destruct (get_path p x) eqn:?; [done|]. by case_match.
Qed.

(** Merging [n] over [b] changes exactly what [n] talks about. *)
(** C9: merging a configuration over another gives, at every path of keys, the new
    value merged into the old one where the new one has a value, nothing where the
    new one replaces a branch above, and the old value everywhere else; merging
    keeps keys unique. *)
Theorem deep_merge_correct (b n : val) :
  val_wf b -> val_wf n ->
  val_wf (deep_merge b n) ∧
  forall p,
    get_path p (deep_merge b n) =
      match get_path p n with
      | Some x => Some (match get_path p b with Some y => deep_merge y x | None => x end)
      | None => if touches p n then None else get_path p b
      end.
Proof. intros. split; [by apply deep_merge_wf|]. intros. by apply deep_merge_path. Qed.

(** ** [default] and [overwrite] *)

Definition parse_entries (d : list (string * val)) : list (string * val) :=
  prod_map id parse_default_and_overwrite <$> d.

Lemma dget_prod_map (f : val -> val) (k : string) (d : list (string * val)) :
  dget k (prod_map id f <$> d) = f <$> dget k d.
Proof.
  induction d as [|[k1 v1] d IH]; [done|]. simpl.
  destruct (decide (k = k1)); done.
Qed.

Lemma parse_dict d :
  parse_default_and_overwrite (VDict d) =
    VDict (prod_map id (fun v =>
             let v := match dget "overwrite" (parse_entries d) with
                      | Some o => deep_merge v o | None => v end in
             match dget "default" (parse_entries d) with
             | Some df => deep_merge df v | None => v end)
           <$> ddel "default" (ddel "overwrite" (parse_entries d))).
Proof.
  cbn [parse_default_and_overwrite].
  assert (forall l, (fix go d := match d with
            | [] => []
            | (k, v) :: d' => (k, parse_default_and_overwrite v) :: go d'
            end) l = parse_entries l) as ->; [|done].
  induction l as [|[k v] l IH]; [done|]. by rewrite IH.
Qed.

Lemma parse_entries_wf d : dict_wf d -> dict_wf (parse_entries d).
Proof.
  unfold dict_wf, dkeys, parse_entries. intros H.
  rewrite <- list_fmap_compose. exact H.
Qed.

(** The default and overwrite entries of a dictionary disappear and every other
    entry becomes default, merged under its own value, merged under overwrite, each
    of them expanded first. *)
Theorem parse_default_and_overwrite_correct (d : list (string * val)) (k : string) :
  dict_wf d ->
  vget k (parse_default_and_overwrite (VDict d)) =
    if decide (k = "default" ∨ k = "overwrite") then None
    else v ← dget k d;
         let own := parse_default_and_overwrite v in
         let over := match dget "overwrite" d with
                     | Some o => deep_merge own (parse_default_and_overwrite o)
                     | None => own
                     end in
         Some (match dget "default" d with
               | Some df => deep_merge (parse_default_and_overwrite df) over
               | None => over
               end).
Proof.
  intros Hwf%parse_entries_wf. rewrite parse_dict. cbn [vget].
  rewrite dget_prod_map.
  destruct (ddel_wf "overwrite" _ Hwf) as [Hwf1 Ho].
  destruct (ddel_wf "default" _ Hwf1) as [_ Hd].
  destruct (decide _) as [[->| ->]|Hne]; [by rewrite Hd| |].
  - by rewrite dget_ddel_ne, Ho.
  - rewrite !dget_ddel_ne by naive_solver.
    unfold parse_entries. rewrite !dget_prod_map.
    destruct (dget k d), (dget "overwrite" d), (dget "default" d); done.
Qed.

(** ** Loading: the guard against circular imports *)
Section loading.
Context (o : outside) (base_url : option string).

Abbreviation keeps L E := (safe (fun s => loading s = L) E).

Section with_load.
Context (load : string -> M loader val) (P : loader -> Prop) (E : exn -> Prop).
Hypothesis Hload : forall p, safe P E (load p).
Hypothesis Hassert : E AssertionError.
Hypothesis Hexc : forall m, E (Exception m).

Lemma load_imports_keeps path v : safe P E (load_imports load path v).
Proof.
  destruct v as [[]|]; simpl; eauto with agentrl.
  generalize (VDict []). induction l as [|x l IH]; intros ret; [eauto with agentrl|].
  destruct x; eauto with agentrl.
Qed.

Lemma parse_imports_keeps path v : safe P E (parse_imports load path v).
Proof.
  induction v as [| | | | |l IH|d IH] using val_nested_ind; cbn [parse_imports];
    try apply safe_ret.
  - apply safe_bind; [|eauto with agentrl].
    induction IH; [apply safe_ret|].
    apply safe_bind; [done|]. intros ?. apply safe_bind; eauto with agentrl.
  - apply safe_bind; [apply load_imports_keeps|]. intros ret.
    apply safe_bind; [|eauto with agentrl].
    induction IH as [|[k x] d Hx _ IH]; [apply safe_ret|].
    destruct (decide (k = "import")); [done|].
    apply safe_bind; [done|]. intros ?. apply safe_bind; eauto with agentrl.
Qed.
End with_load.

Lemma apply_consul_keeps L (E : exn -> Prop) name c :
  E AttributeError -> keeps L E (apply_consul o base_url name c).
Proof.
  intros HE. unfold apply_consul. safe_auto.
Qed.

Lemma load_from_with_keeps lf L (E : exn -> Prop) path name :
  E AttributeError -> (forall p, keeps L E (lf p)) ->
  keeps L E (load_from_with o base_url lf path name).
Proof.
  intros HE Hlf. unfold load_from_with, apply_override. apply safe_bind; [done|]. intros c.
  apply safe_bind; [safe_auto|]. intros c'.
  apply safe_bind; [by apply apply_consul_keeps|]. eauto with agentrl.
Qed.

(** Whatever happens inside, the path is taken out of [loading] again. *)
Lemma load_file_with_keeps load L (E : exn -> Prop) path :
  (realpath o path ∉ L -> path_exists o (realpath o path) = true ->
   forall p, keeps ({[realpath o path]} ∪ L) E (load p)) ->
  E AssertionError -> (forall m, E (Exception m)) ->
  (forall e, read_config o (realpath o path) = Raise e -> E e) ->
  (forall e, E e -> is_Exception e = true) ->
  keeps L E (load_file_with o load path).
Proof.
  intros Hload Ha Hx Hr HE s Hs. unfold load_file_with.
  set (p := realpath o path) in *.
  unfold is_loading. rewrite bind_gets.
  destruct (bool_decide (p ∈ loading s)) eqn:Eb; [by split; [|apply Hx]|].
  apply bool_decide_eq_false in Eb. rewrite Hs in Eb.
  rewrite bind_gets. destruct (loaded s !! p) as [c|]; [done|].
  rewrite bind_lift.
  destruct (read_config o p) as [cfg|e] eqn:Er; [|by split; [|apply Hr]].
  assert (path_exists o p = true) as Hex.
  { unfold read_config in Er. by destruct (path_exists o p). }
  unfold start_loading. rewrite bind_modify.
  set (s1 := {| loading := {[p]} ∪ loading s; loaded := loaded s |}).
  pose proof (parse_imports_keeps load (fun s => loading s = {[p]} ∪ L) E (Hload Eb Hex) Ha Hx
    (dirname p) cfg s1 ltac:(simpl; by rewrite Hs)) as [H1 H2].
  rewrite bind_try.
  destruct (parse_imports load (dirname p) cfg s1) as [s2 [v|e]]; simpl in *.
  - split; [|done]. rewrite H1. set_solver.
  - rewrite HE by done. simpl. split; [|done]. rewrite H1. set_solver.
Qed.

Lemma load_file_balanced fuel path L :
  (forall p e, read_config o p = Raise e -> is_Exception e = true) ->
  keeps L (fun e => is_Exception e = true) (load_file o base_url fuel path).
Proof.
  intros Hr. revert path L. induction fuel as [|fuel IH]; intros path L.
  - by apply safe_raise.
  - simpl. apply load_file_with_keeps; [|done..|by apply Hr|done].
    intros _ _ p. by apply load_from_with_keeps.
Qed.

(** The files that exist bound the nesting. *)
Lemma load_file_total (F : gset string) fuel path L :
  (forall p, path_exists o p = true -> p ∈ F) ->
  (forall p e, read_config o p = Raise e -> is_Exception e = true ∧ e ≠ RecursionLimit) ->
  (size (F ∖ L) < fuel)%nat ->
  keeps L (fun e => is_Exception e = true ∧ e ≠ RecursionLimit)
    (load_file o base_url fuel path).
Proof.
  intros HF Hr. revert path L. induction fuel as [|fuel IH]; intros path L HL; [lia|].
  simpl. apply load_file_with_keeps; [|done..|by apply Hr|naive_solver].
  intros Hni Hex p. apply load_from_with_keeps; [done|]. intros p'. apply IH.
  assert (F ∖ ({[realpath o path]} ∪ L) ⊂ F ∖ L) as Hlt%subset_size; [|lia].
  apply HF in Hex. set_solver.
Qed.

(** C10: loading a configuration terminates: with more fuel than there are files the
    nesting bound is never reached, whatever imports whatever, and the set of files
    being loaded is empty again at the end, whether loading returns or raises. *)
Theorem load_from_terminates (F : gset string) (fuel : nat) (path : string)
    (name : option string) (s : loader) :
  (forall p, path_exists o p = true -> p ∈ F) ->
  (forall p e, read_config o p = Raise e -> is_Exception e = true ∧ e ≠ RecursionLimit) ->
  (size F < fuel)%nat ->
  loading s = ∅ ->
  loading (load_from o base_url fuel path name s).1 = ∅ ∧
  (load_from o base_url fuel path name s).2 ≠ Raise RecursionLimit.
Proof.
  intros HF Hr Hfuel Hs.
  destruct (load_from_with_keeps (load_file o base_url fuel) ∅
    (fun e => is_Exception e = true ∧ e ≠ RecursionLimit) path name
    ltac:(done) ltac:(intros p; apply (load_file_total F); [done|done|];
      by replace (F ∖ ∅) with F by set_solver) s Hs) as [H1 H2].
  split; [done|]. unfold load_from. intros Heq. rewrite Heq in H2. naive_solver.
Qed.

(** An override file that itself imports something. *)
Section override_import.
Context (ov : string) (d : list (string * val)) (i : string).
Hypothesis Henv : environ o "AGENTRL_CONFIG_OVERRIDE" = Some ov.
Hypothesis Hne : ov ≠ "".
Hypothesis Hread : read_config o (realpath o ov) = Ok (VDict d).
Hypothesis Himport : dget "import" d = Some (VStr i).
Hypothesis Hr : forall p e, read_config o p = Raise e -> is_Exception e = true.

Lemma apply_override_eq lf c :
  apply_override o lf c = (oc ← lf ov; mret (merge_shared c oc)).
Proof. unfold apply_override. rewrite Henv. by destruct ov. Qed.

Lemma load_file_busy fuel path s :
  realpath o path ∈ loading s ->
  exists e, load_file o base_url fuel path s = (s, Raise e).
Proof.
  intros Hin. destruct fuel as [|fuel]; [by eexists|]. simpl.
  unfold load_file_with, is_loading. rewrite bind_gets.
  rewrite bool_decide_eq_true_2 by done. by eexists.
Qed.

Lemma load_from_override_busy fuel path name s :
  realpath o ov ∈ loading s ->
  exists s' e, load_from_with o base_url (load_file o base_url fuel) path name s
               = (s', Raise e).
Proof.
  intros Hin. unfold load_from_with.
  pose proof (load_file_balanced fuel path (loading s) Hr s eq_refl) as [Hl _].
  destruct (load_file o base_url fuel path s) as [s1 [c|e]] eqn:E1;
    [erewrite M_bind_run by exact E1|erewrite M_bind_raise by exact E1; by eauto].
  simpl in Hl. rewrite apply_override_eq. rewrite <- Hl in Hin.
  destruct (load_file_busy fuel ov s1 Hin) as [e He].
  exists s1, e. by apply M_bind_raise, M_bind_raise.
Qed.

Lemma load_override_fails fuel path s :
  realpath o ov ∉ dom (loaded s) ->
  realpath o ov ∉ dom (loaded (load_file o base_url fuel path s).1) ∧
  (realpath o path = realpath o ov ->
   exists e, (load_file o base_url fuel path s).2 = Raise e).
Proof.
  revert path s. induction fuel as [|fuel IH]; intros path s Hs.
  { split; [done|by eexists]. }
  set (P := fun s => realpath o ov ∉ dom (loaded s)) in *.
  assert (forall p, safe P (fun _ => True)
    (load_from_with o base_url (load_file o base_url fuel) p None)) as Hsafe.
  { assert (forall p, safe P (fun _ => True) (load_file o base_url fuel p)) as Hlf.
    { intros p s1 H1. split; [by apply IH|by case_match]. }
    intros p. unfold load_from_with, apply_override, apply_consul. safe_auto. }
  simpl. unfold load_file_with, is_loading. rewrite bind_gets.
  set (p := realpath o path) in *.
  destruct (bool_decide (p ∈ loading s)); [by split; [|eexists]|].
  rewrite bind_gets. destruct (loaded s !! p) as [c|] eqn:Ec.
  { split; [done|]. intros Hp. rewrite Hp in Ec. destruct Hs.
    by apply elem_of_dom_2 in Ec. }
  rewrite bind_lift.
  destruct (read_config o p) as [cfg|e] eqn:Er; [|by split; [|eexists]].
  unfold start_loading. rewrite bind_modify, bind_try.
  match goal with |- context [parse_imports ?l ?q ?c ?s1] =>
    pose proof (parse_imports_keeps l P (fun _ => True) Hsafe I
      (fun _ => I) q c s1 Hs) as [H1 _];
    assert (p = realpath o ov -> exists e s', parse_imports l q c s1 = (s', Raise e))
      as H2
  end.
  { intros Hp. rewrite Hp, Hread in Er. injection Er as <-.
    cbn [parse_imports]. rewrite Himport. simpl load_imports.
    edestruct (load_from_override_busy fuel) as (s' & e & Heq); cycle 1.
    - exists e, s'. apply M_bind_raise, M_bind_raise, Heq.
    - simpl. rewrite Hp. set_solver. }
  destruct (parse_imports _ _ _ _) as [s2 [v|e]]; simpl in *.
  - split; [|intros Hp; destruct (H2 Hp) as (?&?&?); simplify_eq].
    rewrite dom_insert_L. destruct (decide (p = realpath o ov)) as [Hp|Hp].
    + destruct (H2 Hp) as (?&?&?); simplify_eq.
    + set_solver.
  - destruct (is_Exception e); simpl; (split; [done|by eexists]).
Qed.

(** When the file named by AGENTRL_CONFIG_OVERRIDE has an import entry, every
    load_from raises: loading the import applies the override again, while the
    override file is still being loaded. *)
Theorem override_import_always_fails (fuel : nat) (path : string)
    (name : option string) (s : loader) :
  loading s = ∅ -> realpath o ov ∉ dom (loaded s) ->
  exists e, (load_from o base_url fuel path name s).2 = Raise e.
Proof.
  intros Hl Hs. unfold load_from, load_from_with.
  pose proof (load_override_fails fuel path s Hs) as [H1 _].
  destruct (load_file o base_url fuel path s) as [s1 [c|e]] eqn:E1;
    [erewrite M_bind_run by exact E1|erewrite M_bind_raise by exact E1; by eexists].
  simpl in H1. rewrite apply_override_eq.
  destruct (load_override_fails fuel ov s1 H1) as [_ [e He]]; [done|].
  exists e.
  destruct (load_file o base_url fuel ov s1) as [s2 r] eqn:E; simpl in He; subst r.
  by erewrite M_bind_raise by (apply M_bind_raise, E).
Qed.
End override_import.
End loading.

(** ** Concrete inputs *)

(** Three files: [/c/main.yaml] imports [base.yaml]; [/c/ov.yaml] is the
    override file and imports [base.yaml] as well. *)
Definition demo_files (p : string) : option val :=
  if decide (p = "/c/main.yaml")
  then Some (VDict [("import", VStr "base.yaml"); ("os", VDict [("port", VInt 1)])])
  else if decide (p = "/c/base.yaml")
  then Some (VDict [("os", VDict [("port", VInt 0); ("host", VStr "h")])])
  else if decide (p = "/c/ov.yaml")
  then Some (VDict [("import", VStr "base.yaml")])
  else None.

Definition demo_outside (override : option string) : outside := {|
  realpath := id;
  path_exists := fun p => bool_decide (is_Some (demo_files p));
  yaml_file := fun p => match demo_files p with Some v => Ok v | None => Raise FileNotFoundError end;
  json_file := fun _ => Raise ValueError;
  environ := fun k => if decide (k = "AGENTRL_CONFIG_OVERRIDE") then override else None;
  consul_raw := fun _ => Raise ClientError;
  json_loads := fun _ => Raise ValueError;
  yaml_loads := fun _ => Raise ValueError
|}.

Definition empty_loader : loader := {| loading := ∅; loaded := ∅ |}.

Example demo_load :
  (load_from (demo_outside None) None 4 "/c/main.yaml" None empty_loader).2 =
    Ok (VDict [("os", VDict [("port", VInt 1); ("host", VStr "h")])]).
Proof. vm_compute. reflexivity. Qed.

Lemma demo_files_in p :
  is_Some (demo_files p) -> p ∈ ({["/c/main.yaml"; "/c/base.yaml"; "/c/ov.yaml"]} : gset string).
Proof. unfold demo_files. intros [? ?]. repeat case_decide; set_solver. Qed.

Lemma demo_read ov p e :
  read_config (demo_outside ov) p = Raise e -> is_Exception e = true ∧ e ≠ RecursionLimit.
Proof.
  unfold read_config. simpl. repeat case_match; intros; by simplify_eq.
Qed.

Lemma deep_merge_correct_witness :
  get_path ["os"; "port"]
    (deep_merge (VDict [("os", VDict [("port", VInt 0)])])
                (VDict [("os", VDict [("port", VInt 1)])])) = Some (VInt 1).
Proof.
  assert (val_wf (VDict [("os", VDict [("port", VInt 0)])])) as H1
    by (repeat constructor; set_solver).
  assert (val_wf (VDict [("os", VDict [("port", VInt 1)])])) as H2
    by (repeat constructor; set_solver).
  exact (proj2 (deep_merge_correct _ _ H1 H2) ["os"; "port"]).
Defined.

Lemma parse_default_and_overwrite_correct_witness :
  dict_wf [("default", VDict [("p", VInt 1)]); ("a", VDict [("q", VInt 2)])] ∧
  vget "a" (parse_default_and_overwrite
    (VDict [("default", VDict [("p", VInt 1)]); ("a", VDict [("q", VInt 2)])]))
  = Some (VDict [("p", VInt 1); ("q", VInt 2)]).
Proof.
  assert (dict_wf [("default", VDict [("p", VInt 1)]); ("a", VDict [("q", VInt 2)])]) as H
    by (repeat constructor; set_solver).
  split; [exact H|]. exact (parse_default_and_overwrite_correct _ "a" H).
Defined.

Lemma load_from_terminates_witness :
  loading (load_from (demo_outside None) None 4 "/c/main.yaml" None empty_loader).1 = ∅.
Proof.
  apply (load_from_terminates (demo_outside None) None
    {["/c/main.yaml"; "/c/base.yaml"; "/c/ov.yaml"]}).
  - intros p Hp. apply demo_files_in. by apply bool_decide_eq_true in Hp.
  - apply demo_read.
  - vm_compute. lia.
  - reflexivity.
Defined.

Lemma override_import_always_fails_witness :
  exists e, (load_from (demo_outside (Some "/c/ov.yaml")) None 9 "/c/base.yaml" None
             empty_loader).2 = Raise e.
Proof.
  apply (override_import_always_fails (demo_outside (Some "/c/ov.yaml")) None
    "/c/ov.yaml" [("import", VStr "base.yaml")] "base.yaml");
    [reflexivity|discriminate|reflexivity|reflexivity| |reflexivity|vm_compute; intros H; inversion H].
  intros p e H. exact (proj1 (demo_read _ _ _ H)).
Defined.
