(* ===== verification/TaskWorker.v ===== *)
(** * The task worker: sessions, the agent/environment rendezvous, cancellation

    Models worker/task.py ([SessionController], [Session]) and
    worker/task_worker.py ([TaskWorker]).  A step of the model is the code
    between two suspension points of the event loop; a run is a list of events,
    in any order the event loop may choose.  The task's own coroutine is the
    environment: it may perform any operation on its session while it has the
    control, one at a time. *)

From S2P Require Import Prelude PyVal.

(** ** Data *)

(* worker/typings.py:45-54 SampleStatus *)
Inductive SampleStatus : Type :=
| RUNNING | COMPLETED | AGENT_CONTEXT_LIMIT | AGENT_VALIDATION_FAILED
| AGENT_INVALID_ACTION | TASK_LIMIT_REACHED | UNKNOWN | TASK_ERROR | CANCELLED.

#[export] Instance SampleStatus_eq_dec : EqDecision SampleStatus.
Proof. solve_decision. Defined.

(* worker/typings.py:69-77 RewardHistoryItem *)
Record RewardHistoryItem := {
  reward : pyfloat;
  score : option pyfloat;
  metrics : list (string * val)
}.

(** [RewardHistoryItem.__init__], after the fields are validated. *)
(* worker/typings.py:74-77 RewardHistoryItem.__init__ *)
Definition make_reward (reward : pyfloat) (score : option pyfloat)
    (metrics : list (string * val)) : RewardHistoryItem :=
  {| reward := reward; score := score;
     metrics := match score with
                | Some s => if dmem "score" metrics then metrics
                            else dset "score" (VFloat s) metrics
                | None => metrics
                end |}.

(** A history item: a dictionary as the task wrote it, a [RewardHistoryItem],
    or a [HistoryItem] whose [root] is a message or a reward. *)
(* worker/typings.py:80-82 HistoryItem *)
Inductive history_item : Type :=
| Raw (d : val)
| RewardObj (r : RewardHistoryItem)
| RootChat (m : val)
| RootReward (r : RewardHistoryItem).

(* worker/typings.py:85-90 TaskOutput *)
Record TaskOutput := {
  out_index : option val;
  out_status : SampleStatus;
  out_result : val;
  history : list history_item;
  history_ptr : nat
}.

(** [AgentOutput]: the messages of a [NORMAL] answer, or [CANCELLED]. *)
(* worker/typings.py:98-108 AgentOutput *)
Inductive AgentOutput : Type :=
| AgentNormal (messages : list val)
| AgentCancelled.

(* worker/task_worker.py:55-70 split_history *)
Fixpoint split_history (h : list history_item)
    : list history_item * list RewardHistoryItem :=
  match h with
  | [] => ([], [])
  | item :: h =>
      let '(chat_history, reward_history) := split_history h in
      match item with
      | RewardObj r | RootReward r => (chat_history, r :: reward_history)
      | _ => (item :: chat_history, reward_history)
      end
  end.

(** What the code injects: nothing, an item, or nested lists of those. *)
Inductive injection : Type :=
| InjNothing
| InjItem (i : history_item)
| InjList (l : list injection).

(** ** The session controller *)

(** [agent_lock] and [env_lock] say whether the lock is held, the signals are
    the semaphores' counters. *)
(* worker/task.py:19-27 SessionController.__init__ *)
Record SessionController := {
  agent_lock : bool;
  env_lock : bool;
  agent_signal : nat;
  env_signal : nat;
  env_input : option AgentOutput;
  env_output : TaskOutput;
  full_history : bool
}.

(* worker/task.py:20-27 SessionController.__init__ *)
Definition new_controller : SessionController := {|
  agent_lock := false; env_lock := false; agent_signal := 0; env_signal := 0;
  env_input := None;
  env_output := {| out_index := None; out_status := RUNNING; out_result := VNone;
                   history := []; history_ptr := 0 |};
  full_history := false
|}.

(** [agent_pull] up to [await self.agent_signal.acquire()]: the lock is taken. *)
(* worker/task.py:32-36 SessionController.agent_pull *)
Definition agent_pull_begin (input : option AgentOutput) (c : SessionController)
    : SessionController := {|
  agent_lock := true; env_lock := env_lock c;
  agent_signal := agent_signal c;
  env_signal := match input with Some _ => S (env_signal c) | None => env_signal c end;
  env_input := match input with Some _ => input | None => env_input c end;
  env_output := env_output c; full_history := full_history c
|}.

(** The rest of [agent_pull], once the semaphore has been acquired. *)
(* worker/task.py:36-37 SessionController.agent_pull *)
Definition agent_pull_end (c : SessionController) : SessionController * TaskOutput :=
  ({| agent_lock := false; env_lock := env_lock c;
      agent_signal := pred (agent_signal c); env_signal := env_signal c;
      env_input := env_input c; env_output := env_output c;
      full_history := full_history c |}, env_output c).

(* worker/task.py:41-44 SessionController.env_pull *)
Definition next_ptr (full : bool) (h : list history_item) : nat :=
  if full then 0%nat else length h.

(** [env_pull] up to [await self.env_signal.acquire()]. *)
(* worker/task.py:39-47 SessionController.env_pull *)
Definition env_pull_begin (h : list history_item) (c : SessionController)
    : SessionController := {|
  agent_lock := agent_lock c; env_lock := true;
  agent_signal := S (agent_signal c); env_signal := env_signal c;
  env_input := env_input c;
  env_output := {| out_index := out_index (env_output c);
                   out_status := out_status (env_output c);
                   out_result := out_result (env_output c);
                   history := h;
                   history_ptr := next_ptr (full_history c) (history (env_output c)) |};
  full_history := full_history c
|}.

(** The rest of [env_pull]. *)
(* worker/task.py:47-48 SessionController.env_pull *)
Definition env_pull_end (c : SessionController)
    : SessionController * option AgentOutput :=
  ({| agent_lock := agent_lock c; env_lock := false;
      agent_signal := agent_signal c; env_signal := pred (env_signal c);
      env_input := env_input c; env_output := env_output c;
      full_history := full_history c |}, env_input c).

(** A [CancelledError] thrown at [await self.env_signal.acquire()]: the context
    manager releases the lock. *)
(* worker/task.py:40-47 SessionController.env_pull *)
Definition env_pull_cancelled (c : SessionController) : SessionController := {|
  agent_lock := agent_lock c; env_lock := false;
  agent_signal := agent_signal c; env_signal := env_signal c;
  env_input := env_input c; env_output := env_output c;
  full_history := full_history c
|}.

(* worker/task.py:50-60 SessionController.env_finish *)
Definition env_finish (result : TaskOutput) (c : SessionController)
    : SessionController := {|
  agent_lock := agent_lock c; env_lock := env_lock c;
  agent_signal := S (agent_signal c); env_signal := env_signal c;
  env_input := env_input c;
  env_output := {| out_index := out_index result; out_status := out_status result;
                   out_result := out_result result; history := history result;
                   history_ptr := next_ptr (full_history c) (history (env_output c)) |};
  full_history := full_history c
|}.

(** The cancellation part of [TaskWorker._cancel] on the controller. *)
(* worker/task_worker.py:279-280 TaskWorker._cancel *)
Definition cancel_input (c : SessionController) : SessionController := {|
  agent_lock := agent_lock c; env_lock := env_lock c;
  agent_signal := agent_signal c; env_signal := S (env_signal c);
  env_input := Some AgentCancelled;
  env_output := env_output c; full_history := full_history c
|}.

(** [self.controller.env_output.history = h] *)
(* worker/task.py:113-113 Session.action *)
Definition set_output_history (h : list history_item) (c : SessionController)
    : SessionController := {|
  agent_lock := agent_lock c; env_lock := env_lock c;
  agent_signal := agent_signal c; env_signal := env_signal c;
  env_input := env_input c;
  env_output := {| out_index := out_index (env_output c);
                   out_status := out_status (env_output c);
                   out_result := out_result (env_output c);
                   history := h; history_ptr := history_ptr (env_output c) |};
  full_history := full_history c
|}.

(* worker/task.py:94-95 Session.set_full_history *)
Definition set_full_history (b : bool) (c : SessionController)
    : SessionController := {|
  agent_lock := agent_lock c; env_lock := env_lock c;
  agent_signal := agent_signal c; env_signal := env_signal c;
  env_input := env_input c; env_output := env_output c; full_history := b
|}.

(* worker/task.py:62-70 SessionController.get_status *)
Definition get_status (c : SessionController)
    : bool * bool * option AgentOutput * TaskOutput :=
  (agent_lock c, env_lock c, env_input c, env_output c).

(** ** Sessions *)

(** Where the coroutine of the sample is: not started, with the control (in
    the task's own code), waiting in [env_pull], or over, with the exception it
    ended on, if any. *)
Inductive env_phase : Type :=
| EnvCreated
| EnvRunning
| EnvWaiting
| EnvDone (e : option exn).

#[export] Instance env_phase_eq_dec : EqDecision env_phase.
Proof. solve_decision. Defined.

(** Which request is suspended in [agent_pull]. *)
Inductive agent_phase : Type :=
| AgentIdle
| InStartSample
| InInteract.

#[export] Instance agent_phase_eq_dec : EqDecision agent_phase.
Proof. solve_decision. Defined.

(** The session together with its [RunningSampleData] and the coroutines that
    hold it.  [must_cancel] is the pending [asyncio.Task.cancel];
    [cancel_tasks] are the suspended [cancel_task] coroutines, each with its
    [with_notice]. *)
(* worker/task_worker.py:36-52 RunningSampleData *)
Record session := {
  session_id : Z;
  index : val;
  s_history : list history_item;
  controller : SessionController;
  tools : option (list val);
  env_at : env_phase;
  agent_at : agent_phase;
  cancelling : bool;
  must_cancel : bool;
  cancel_tasks : list bool
}.

(* worker/task.py:73-79 Session.__init__ *)
Definition new_session (sid : Z) (i : val) : session := {|
  session_id := sid; index := i; s_history := []; controller := new_controller;
  tools := None; env_at := EnvCreated; agent_at := AgentIdle;
  cancelling := false; must_cancel := false; cancel_tasks := []
|}.

Definition set_controller (c : SessionController) (s : session) : session := {|
  session_id := session_id s; index := index s; s_history := s_history s;
  controller := c; tools := tools s; env_at := env_at s; agent_at := agent_at s;
  cancelling := cancelling s; must_cancel := must_cancel s;
  cancel_tasks := cancel_tasks s |}.
Definition set_history (h : list history_item) (s : session) : session := {|
  session_id := session_id s; index := index s; s_history := h;
  controller := controller s; tools := tools s; env_at := env_at s;
  agent_at := agent_at s; cancelling := cancelling s;
  must_cancel := must_cancel s; cancel_tasks := cancel_tasks s |}.
Definition set_tools (t : option (list val)) (s : session) : session := {|
  session_id := session_id s; index := index s; s_history := s_history s;
  controller := controller s; tools := t; env_at := env_at s;
  agent_at := agent_at s; cancelling := cancelling s;
  must_cancel := must_cancel s; cancel_tasks := cancel_tasks s |}.
Definition set_env_at (p : env_phase) (s : session) : session := {|
  session_id := session_id s; index := index s; s_history := s_history s;
  controller := controller s; tools := tools s; env_at := p;
  agent_at := agent_at s; cancelling := cancelling s;
  must_cancel := must_cancel s; cancel_tasks := cancel_tasks s |}.
Definition set_agent_at (p : agent_phase) (s : session) : session := {|
  session_id := session_id s; index := index s; s_history := s_history s;
  controller := controller s; tools := tools s; env_at := env_at s;
  agent_at := p; cancelling := cancelling s;
  must_cancel := must_cancel s; cancel_tasks := cancel_tasks s |}.
Definition set_cancel (cancelling must_cancel : bool) (l : list bool) (s : session)
    : session := {|
  session_id := session_id s; index := index s; s_history := s_history s;
  controller := controller s; tools := tools s; env_at := env_at s;
  agent_at := agent_at s; cancelling := cancelling; must_cancel := must_cancel;
  cancel_tasks := l |}.

(** ** The worker *)

(* worker/task_worker.py:81-98 TaskWorker.__init__ *)
Record worker := {
  objs : gmap nat session;
  next_obj : nat;
  session_map : gmap Z nat
}.

Definition new_worker : worker :=
  {| objs := ∅; next_obj := 0; session_map := ∅ |}.

Definition put_obj (o : nat) (s : session) (w : worker) : worker :=
  {| objs := <[o := s]> (objs w); next_obj := next_obj w; session_map := session_map w |}.
(** [self.session_map.pop(session_id, None)] *)
Definition pop (sid : Z) (w : worker) : worker :=
  {| objs := objs w; next_obj := next_obj w; session_map := delete sid (session_map w) |}.

(** What [start_sample] of the task returns: a [TaskSampleExecutionResult], a
    falsy value, or a truthy value without the attribute [status]. *)
(* worker/typings.py:93-95 TaskSampleExecutionResult *)
Inductive task_result : Type :=
| TaskResult (status : SampleStatus) (result : val)
| NoResult
| NotAResult.

(** What the task's code does with the control. *)
Inductive task_op : Type :=
| DoAction (i : list injection)
| DoInject (i : injection)
| DoClear
| DoCover (items : list history_item)
| DoSetTools (t : option (list val))
| DoSetFull (b : bool)
| DoReturn (r : task_result)
| DoRaise (e : exn).

Inductive event : Type :=
| StartSample (sid : Z) (i : val)
| Interact (sid : Z) (messages : option (list val))
| Cancel (sid : Z) (with_notice : bool)
| AgentWake (o : nat)
| EnvStart (o : nat)
| EnvWake (o : nat)
| CancelThrow (o : nat)
| CancelRun (o : nat)
| TaskOp (o : nat) (op : task_op).

Inductive output : Type :=
| Failed (status : Z) (detail : string)
| ServerError (e : exn)
| Response (o : nat) (messages : list history_item) (tools : option (list val))
    (status : SampleStatus) (finish : bool) (reward : val)
    (metric : list (string * val))
| CancelOk (sid : Z)
| CancelNotice (sid : Z)
| Lost (e : exn)
| Answer (o : nat) (messages : list val)
| Thrown (o : nat) (e : exn).

Section worker.
(** The task's attributes, the pydantic validators and the text of
    [traceback.format_exc]. *)
Context (concurrency : Z) (full_async : bool) (task_tools : option (list val)).
Context (validate : history_item -> option history_item)
        (chat_valid assistant_valid : val -> bool)
        (tools_valid : option (list val) -> bool)
        (format_exc : exn -> string).

Definition item_truthy (i : history_item) : bool :=
  match i with Raw v => truthy v | _ => true end.

(** The items appended before an exception stay. *)
(* worker/task.py:81-89 Session.inject *)
Fixpoint inject (i : injection) (h : list history_item)
    : list history_item * option exn :=
  match i with
  | InjNothing => (h, None)
  | InjItem x =>
      if negb (item_truthy x) then (h, None)
      else match validate x with
           | Some _ => (h ++ [x], None)
           | None => (h, Some ValueError)
           end
  | InjList l =>
      (fix go l h :=
         match l with
         | [] => (h, None)
         | x :: l' =>
             match inject x h with
             | (h', None) => go l' h'
             | r => r
             end
         end) l h
  end.

(* worker/task.py:110-112 Session.action *)
Fixpoint append_messages (l : list val) (h : list history_item)
    : list history_item * option exn :=
  match l with
  | [] => (h, None)
  | m :: l' => if chat_valid m then append_messages l' (h ++ [Raw m])
               else (h, Some ValueError)
  end.

(** [action] up to its suspension in [env_pull]. *)
(* worker/task.py:105-107 Session.action *)
Definition action_begin (o : nat) (i : list injection) (s : session)
    : session * list output :=
  match inject (InjList i) (s_history s) with
  | (h, Some e) => (set_history h s, [Thrown o e])
  | (h, None) =>
      (set_env_at EnvWaiting
         (set_controller (env_pull_begin h (controller s)) (set_history h s)), [])
  end.

(** [action] from its resumption in [env_pull]. *)
(* worker/task.py:107-114 Session.action *)
Definition action_end (o : nat) (s : session) : session * list output :=
  let '(c, input) := env_pull_end (controller s) in
  let s := set_env_at EnvRunning (set_controller c s) in
  match input with
  | None => (s, [Thrown o AttributeError])
  | Some AgentCancelled => (s, [Thrown o AgentCancelledException])
  | Some (AgentNormal messages) =>
      match append_messages messages (s_history s) with
      | (h, Some e) => (set_history h s, [Thrown o e])
      | (h, None) =>
          (set_controller (set_output_history h c) (set_history h s),
           [Answer o messages])
      end
  end.

(** The response built from what [agent_pull] returned. *)
(* worker/task_worker.py:213-222 TaskWorker.start_sample *)
Definition response (o : nat) (tools : option (list val)) (env_output : TaskOutput)
    : output :=
  let '(messages, reward_history) :=
    split_history (drop (history_ptr env_output) (history env_output)) in
  Response o messages tools (out_status env_output)
    (bool_decide (out_status env_output ≠ RUNNING))
    (match last reward_history with Some r => VFloat (reward r) | None => VInt 0 end)
    (match last reward_history with Some r => metrics r | None => [] end).

(** [session.tools or self.task.tools] *)
(* worker/task_worker.py:217-217 TaskWorker.start_sample *)
Definition start_tools (t : option (list val)) : option (list val) :=
  match t with
  | Some (_ :: _) => t
  | _ => task_tools
  end.

(* worker/task_worker.py:186-231 TaskWorker.start_sample *)
Definition start_sample (sid : Z) (i : val) (w : worker) : worker * list output :=
  match session_map w !! sid with
  | Some _ => (w, [Failed 400 "Session ID already exists"])
  | None =>
      if bool_decide (concurrency ≤ Z.of_nat (size (session_map w)))
      then (w, [Failed 406 ("Sample concurrency limit reached: " +:+ str_Z concurrency)])
      else
        let s := new_session sid i in
        let s := set_agent_at InStartSample
                   (set_controller (agent_pull_begin None (controller s)) s) in
        ({| objs := <[next_obj w := s]> (objs w); next_obj := S (next_obj w);
            session_map := <[sid := next_obj w]> (session_map w) |}, [])
  end.

(* worker/task_worker.py:233-253 TaskWorker.interact *)
Definition interact (sid : Z) (messages : option (list val)) (w : worker)
    : worker * list output :=
  match session_map w !! sid with
  | None => (w, [Failed 400 "No such session"])
  | Some o =>
      match objs w !! o with
      | None => (w, [])
      | Some s =>
          if agent_lock (controller s) || cancelling s
          then (w, [Failed 400 "Task Executing, please do not send new request."])
          else match messages with
               | Some ((_ :: _) as l) =>
                   if forallb assistant_valid l then
                     (put_obj o (set_agent_at InInteract
                        (set_controller
                           (agent_pull_begin (Some (AgentNormal l)) (controller s)) s)) w,
                      [])
                   else (w, [ServerError ValueError])
               | _ => (w, [ServerError ValueError])
               end
      end
  end.

(** A request suspended in [agent_pull] goes on. *)
(* worker/task_worker.py:212-270 TaskWorker.start_sample, TaskWorker.interact *)
Definition agent_wake (o : nat) (w : worker) : worker * list output :=
  match objs w !! o with
  | None => (w, [])
  | Some s =>
      if bool_decide (agent_at s = AgentIdle) || bool_decide (agent_signal (controller s) = 0%nat)
      then (w, [])
      else
        let '(c, env_output) := agent_pull_end (controller s) in
        let t := match agent_at s with
                 | InStartSample => start_tools (tools s)
                 | _ => task_tools
                 end in
        (put_obj o (set_agent_at AgentIdle (set_controller c s)) w,
         [response o t env_output])
  end.

(** [running.asyncio_task.cancel()] *)
Definition request_cancel (s : session) : session :=
  match env_at s with
  | EnvDone _ => s
  | _ => set_cancel (cancelling s) true (cancel_tasks s) s
  end.

(* worker/task_worker.py:272-309 TaskWorker._cancel *)
Definition cancel (sid : Z) (with_notice : bool) (w : worker)
    : worker * list output :=
  match session_map w !! sid with
  | None => (w, [Failed 400 "No such session"])
  | Some o =>
      match objs w !! o with
      | None => (w, [])
      | Some s =>
          let s := set_controller (cancel_input (controller s)) s in
          if with_notice then
            (put_obj o (set_cancel true (must_cancel s) (cancel_tasks s ++ [true]) s) w,
             [CancelOk sid])
          else if full_async then
            (pop sid (put_obj o (request_cancel
               (set_cancel true (must_cancel s) (cancel_tasks s) s)) w), [CancelOk sid])
          else
            (put_obj o (set_cancel true (must_cancel s) (cancel_tasks s ++ [false]) s) w, [])
      end
  end.

(** A suspended [cancel_task] runs: at once when the coroutine is cancelled
    directly, when the coroutine of the sample is over otherwise. *)
(* worker/task_worker.py:286-309 TaskWorker._cancel.cancel_task *)
Definition cancel_run (o : nat) (w : worker) : worker * list output :=
  match objs w !! o with
  | None => (w, [])
  | Some s =>
      match cancel_tasks s with
      | [] => (w, [])
      | with_notice :: l =>
          let s' := set_cancel (cancelling s) (must_cancel s) l s in
          let done_ s' :=
            (pop (session_id s) (put_obj o s' w),
             [if (with_notice : bool) then CancelNotice (session_id s)
              else CancelOk (session_id s)]) in
          if full_async then done_ (request_cancel s')
          else match env_at s with
               | EnvDone None | EnvDone (Some CancelledError)
               | EnvDone (Some TimeoutError) => done_ s'
               | EnvDone (Some e) =>
                   (put_obj o s' w,
                    [if (with_notice : bool) then Lost e else ServerError e])
               | _ => (w, [])
               end
      end
  end.

(** The coroutine is stepped for the first time; cancelled before, it never
    runs. *)
Definition env_start (o : nat) (w : worker) : worker * list output :=
  match objs w !! o with
  | None => (w, [])
  | Some s =>
      match env_at s with
      | EnvCreated =>
          (put_obj o (set_env_at (if must_cancel s then EnvDone (Some CancelledError)
                                  else EnvRunning) s) w, [])
      | _ => (w, [])
      end
  end.

(* worker/task.py:47-48 SessionController.env_pull *)
Definition env_wake (o : nat) (w : worker) : worker * list output :=
  match objs w !! o with
  | None => (w, [])
  | Some s =>
      match env_at s, env_signal (controller s), must_cancel s with
      | EnvWaiting, S _, false =>
          let '(s', out) := action_end o s in (put_obj o s' w, out)
      | _, _, _ => (w, [])
      end
  end.

(** The pending cancellation is thrown into the coroutine. *)
Definition cancel_throw (o : nat) (w : worker) : worker * list output :=
  match objs w !! o with
  | None => (w, [])
  | Some s =>
      if must_cancel s then
        let s' := set_cancel (cancelling s) false (cancel_tasks s) s in
        match env_at s with
        | EnvWaiting =>
            (put_obj o (set_env_at EnvRunning
               (set_controller (env_pull_cancelled (controller s)) s')) w,
             [Thrown o CancelledError])
        | EnvRunning => (put_obj o s' w, [Thrown o CancelledError])
        | _ => (w, [])
        end
      else (w, [])
  end.

(** [session_map.pop] and [env_finish(TaskOutput(...))], the construction of
    the [TaskOutput] validating the history. *)
(* worker/task_worker.py:180-184 TaskWorker.task_start_sample_wrapper *)
Definition finish (o : nat) (s : session) (status : SampleStatus) (result : val)
    (w : worker) : worker * list output :=
  let w := pop (session_id s) w in
  match mapM validate (s_history s) with
  | Some h =>
      let out := {| out_index := Some (index s); out_status := status;
                    out_result := result; history := h; history_ptr := 0 |} in
      (put_obj o (set_env_at (EnvDone None)
                    (set_controller (env_finish out (controller s)) s)) w, [])
  | None => (put_obj o (set_env_at (EnvDone (Some ValueError)) s) w, [Lost ValueError])
  end.

(* worker/task_worker.py:157-178 TaskWorker.task_start_sample_wrapper *)
Definition wrapper_raised (o : nat) (s : session) (e : exn) (w : worker)
    : worker * list output :=
  if bool_decide (e = CancelledError) then finish o s CANCELLED VNone w
  else if is_Exception e then finish o s TASK_ERROR (VStr (format_exc e)) w
  else (put_obj o (set_env_at (EnvDone (Some e)) s) w, [Lost e]).

(* worker/task_worker.py:149-184 TaskWorker.task_start_sample_wrapper *)
Definition wrapper_returned (o : nat) (s : session) (r : task_result) (w : worker)
    : worker * list output :=
  match r with
  | NoResult => wrapper_raised o s ValueError w
  | NotAResult =>
      (put_obj o (set_env_at (EnvDone (Some AttributeError)) s) (pop (session_id s) w),
       [Lost AttributeError])
  | TaskResult status result => finish o s status result w
  end.

Definition task_op_step (o : nat) (op : task_op) (w : worker)
    : worker * list output :=
  match objs w !! o with
  | None => (w, [])
  | Some s =>
      match env_at s with
      | EnvRunning =>
          match op with
          | DoAction i => let '(s', out) := action_begin o i s in (put_obj o s' w, out)
          | DoInject i =>
              let '(h, e) := inject i (s_history s) in
              (put_obj o (set_history h s) w,
               match e with Some e => [Thrown o e] | None => [] end)
          | DoClear => (put_obj o (set_history [] s) w, [])
          | DoCover items =>
              match mapM validate items with
              | Some _ => (put_obj o (set_history items s) w, [])
              | None => (w, [Thrown o ValueError])
              end
          | DoSetTools t =>
              (put_obj o (set_tools t s) w,
               if tools_valid t then [] else [Thrown o ValueError])
          | DoSetFull b =>
              (put_obj o (set_controller (set_full_history b (controller s)) s) w, [])
          | DoReturn r => wrapper_returned o s r w
          | DoRaise e => wrapper_raised o s e w
          end
      | _ => (w, [])
      end
  end.

Definition step (w : worker) (e : event) : worker * list output :=
  match e with
  | StartSample sid i => start_sample sid i w
  | Interact sid m => interact sid m w
  | Cancel sid n => cancel sid n w
  | AgentWake o => agent_wake o w
  | EnvStart o => env_start o w
  | EnvWake o => env_wake o w
  | CancelThrow o => cancel_throw o w
  | CancelRun o => cancel_run o w
  | TaskOp o op => task_op_step o op w
  end.

Definition next (w : worker) (e : event) : worker := (step w e).1.

(** [cancel_all]: the sessions of the map at that time, one after the other. *)
(* worker/task_worker.py:311-322 TaskWorker._cancel_all *)
Definition cancel_all (with_notice : bool) (w : worker) : worker :=
  foldl (fun w sid => (cancel sid with_notice w).1) w
    ((map_to_list (session_map w)).*1).

(* worker/task_worker.py:324-328 TaskWorker.worker_status *)
Definition worker_status (w : worker) : Z * nat := (concurrency, size (session_map w)).

(* worker/task_worker.py:330-338 TaskWorker.sample_status *)
Definition sample_status (sid : Z) (w : worker)
    : res (val * (bool * bool * option AgentOutput * TaskOutput)) :=
  match session_map w !! sid with
  | None => Raise (HTTPException 400 "No such session")
  | Some o =>
      match objs w !! o with
      | None => Raise KeyError
      | Some s => Ok (index s, get_status (controller s))
      end
  end.

(* worker/task_worker.py:340-341 TaskWorker.get_sessions *)
Definition get_sessions (w : worker) : gmap Z val :=
  omap (fun o => index <$> objs w !! o) (session_map w).
End worker.

(** ** One session: its transitions *)
Section proofs.
Context (concurrency : Z) (full_async : bool) (task_tools : option (list val)).
Context (validate : history_item -> option history_item)
        (chat_valid assistant_valid : val -> bool)
        (tools_valid : option (list val) -> bool)
        (format_exc : exn -> string).

Abbreviation step := (step concurrency full_async task_tools validate chat_valid
  assistant_valid tools_valid format_exc).
Abbreviation next := (next concurrency full_async task_tools validate chat_valid
  assistant_valid tools_valid format_exc).

(** What the agent and the task have exchanged at an event: the slice of the
    history handed to the agent, the messages handed to the task. *)
Definition log_of (o : nat) (w : worker) (e : event) : list history_item :=
  match e with
  | AgentWake o' =>
      if decide (o' = o) then
        match objs w !! o with
        | Some s => if bool_decide (agent_at s = AgentIdle)
                       || bool_decide (agent_signal (controller s) = 0%nat) then []
                    else drop (history_ptr (env_output (controller s)))
                           (history (env_output (controller s)))
        | None => []
        end
      else []
  | EnvWake o' =>
      if decide (o' = o) then
        match (step w e).2 with
        | [Answer _ messages] => Raw <$> messages
        | _ => []
        end
      else []
  | _ => []
  end.

Inductive transition (s : session) : list history_item -> session -> Prop :=
| TCall input :
    agent_lock (controller s) = false -> cancelling s = false ->
    env_at s ≠ EnvDone None ->
    transition s [] (set_agent_at InInteract
      (set_controller (agent_pull_begin (Some (AgentNormal input)) (controller s)) s))
| TAgentWake :
    agent_at s ≠ AgentIdle -> agent_signal (controller s) ≠ 0%nat ->
    transition s (drop (history_ptr (env_output (controller s)))
                       (history (env_output (controller s))))
      (set_agent_at AgentIdle (set_controller (agent_pull_end (controller s)).1 s))
| TCancel s' :
    cancelling s' = true -> session_id s' = session_id s -> env_at s' = env_at s ->
    agent_at s' = agent_at s ->
    agent_lock (controller s') = agent_lock (controller s) ->
    env_lock (controller s') = env_lock (controller s) ->
    transition s [] s'
| TCancelRun mc l :
    cancel_tasks s ≠ [] ->
    transition s [] (set_cancel (cancelling s) mc l s)
| TStart :
    env_at s = EnvCreated ->
    transition s [] (set_env_at (if must_cancel s then EnvDone (Some CancelledError)
                                 else EnvRunning) s)
| TEnvWake s' out :
    env_at s = EnvWaiting -> env_signal (controller s) ≠ 0%nat -> must_cancel s = false ->
    (exists o, action_end chat_valid o s = (s', out)) ->
    transition s (match out with [Answer _ m] => Raw <$> m | _ => [] end) s'
| TThrowWaiting :
    must_cancel s = true -> env_at s = EnvWaiting ->
    transition s [] (set_env_at EnvRunning
       (set_controller (env_pull_cancelled (controller s))
          (set_cancel (cancelling s) false (cancel_tasks s) s)))
| TThrowRunning :
    must_cancel s = true -> env_at s = EnvRunning ->
    transition s [] (set_cancel (cancelling s) false (cancel_tasks s) s)
| TAction h :
    env_at s = EnvRunning -> (exists t, h = s_history s ++ t) ->
    transition s [] (set_env_at EnvWaiting
      (set_controller (env_pull_begin h (controller s)) (set_history h s)))
| TInject h :
    env_at s = EnvRunning -> (exists t, h = s_history s ++ t) ->
    transition s [] (set_history h s)
| TRewrite h :
    env_at s = EnvRunning -> transition s [] (set_history h s)
| TSetFull b :
    env_at s = EnvRunning ->
    transition s [] (set_controller (set_full_history b (controller s)) s)
| TTools t :
    env_at s = EnvRunning -> transition s [] (set_tools t s)
| TFinish status result h :
    env_at s = EnvRunning -> mapM validate (s_history s) = Some h ->
    transition s [] (set_env_at (EnvDone None)
      (set_controller (env_finish
         {| out_index := Some (index s); out_status := status; out_result := result;
            history := h; history_ptr := 0 |} (controller s)) s))
| TDie e :
    env_at s = EnvRunning -> transition s [] (set_env_at (EnvDone (Some e)) s).

(** The task does not rewrite the history of its session. *)
Definition append_only (o : nat) (e : event) : bool :=
  match e with
  | TaskOp o' (DoClear | DoCover _ | DoSetFull _) => negb (bool_decide (o' = o))
  | _ => true
  end.

Lemma inject_app i h : exists t, (inject validate i h).1 = h ++ t.
Proof.
  revert i h. fix IH 1. intros i h. destruct i as [|x|l].
  - exists []. by rewrite app_nil_r.
  - simpl. destruct (negb _); [exists []; by rewrite app_nil_r|].
    destruct (validate x); eexists; simpl; [done|by rewrite app_nil_r].
  - simpl. revert h. induction l as [|x l IHl]; intros h; [exists []; by rewrite app_nil_r|].
    destruct (IH x h) as [t1 H1]. destruct (inject validate x h) as [h1 [e|]]; simpl in H1.
    + by exists t1.
    + destruct (IHl h1) as [t2 H2]. exists (t1 ++ t2). rewrite H2, H1. by rewrite app_assoc.
Qed.

Lemma append_messages_app l h :
  exists t, (append_messages chat_valid l h).1 = h ++ t
         ∧ ((append_messages chat_valid l h).2 = None -> t = Raw <$> l).
Proof.
  revert h. induction l as [|m l IH]; intros h; [exists []; by rewrite app_nil_r|].
  simpl. destruct (chat_valid m); [|exists []; simpl; by rewrite app_nil_r].
  destruct (IH (h ++ [Raw m])) as (t & H1 & H2). exists (Raw m :: t).
  rewrite H1, <- app_assoc. split; [done|]. intros H. by rewrite H2.
Qed.

(** What an event does to the session [o]. *)
Definition obj_effect (o : nat) (w : worker) (e : event) (w' : worker) : Prop :=
  (objs w' !! o = objs w !! o ∧ log_of o w e = []) ∨
  (exists s s', objs w !! o = Some s ∧ objs w' !! o = Some s' ∧
     transition s (log_of o w e) s' ∧
     (append_only o e = true ->
      s_history s `prefix_of` s_history s' ∧
      full_history (controller s') = full_history (controller s))) ∨
  (exists sid i, e = StartSample sid i ∧ session_map w !! sid = None ∧
     o = next_obj w ∧ log_of o w e = [] ∧
     session_map w' = <[sid := o]> (session_map w) ∧ next_obj w' = S o ∧
     objs w' !! o = Some (set_agent_at InStartSample
       (set_controller (agent_pull_begin None new_controller) (new_session sid i)))).

Lemma obj_effect_other o o' s' w e w' :
  o' ≠ o -> objs w' = <[o' := s']> (objs w) -> log_of o w e = [] ->
  obj_effect o w e w'.
Proof. intros Hne Ho Hl. left. split; [|done]. by rewrite Ho, lookup_insert_ne. Qed.

Lemma obj_effect_same o w e : log_of o w e = [] -> obj_effect o w e w.
Proof. by left. Qed.

Lemma obj_effect_put o s s' w e w' :
  objs w !! o = Some s -> objs w' = <[o := s']> (objs w) ->
  transition s (log_of o w e) s' ->
  (append_only o e = true -> s_history s `prefix_of` s_history s' ∧
      full_history (controller s') = full_history (controller s)) ->
  obj_effect o w e w'.
Proof.
  intros Ho Hw Ht Ha. right. left. exists s, s'. rewrite Hw, lookup_insert_eq. eauto.
Qed.

Ltac effect o o' :=
  destruct (decide (o' = o)) as [->|];
  [|eapply obj_effect_other; [done|reflexivity|];
    simpl; try rewrite decide_False by done; done].

Lemma wrapper_effect o o' s op w :
  objs w !! o' = Some s -> env_at s = EnvRunning ->
  (forall r, op = DoReturn r ->
     obj_effect o w (TaskOp o' op) (wrapper_returned validate format_exc o' s r w).1) ∧
  (forall e, op = DoRaise e ->
     obj_effect o w (TaskOp o' op) (wrapper_raised validate format_exc o' s e w).1).
Proof.
  intros Ho Hr.
  assert (forall status result, obj_effect o w (TaskOp o' op)
            (finish validate o' s status result w).1) as Hfin.
  { intros. unfold finish. destruct (mapM validate (s_history s)) as [h|] eqn:Eh; simpl;
      effect o o'; (eapply obj_effect_put; [done|reflexivity|by constructor|by split]). }
  assert (forall w' e, objs w' = <[o' := set_env_at (EnvDone (Some e)) s]> (objs w) ->
            obj_effect o w (TaskOp o' op) w') as Hdie.
  { intros w' e Hw. destruct (decide (o' = o)) as [->|].
    - eapply obj_effect_put; [done|done|by constructor|by split].
    - by eapply obj_effect_other. }
  assert (forall e, obj_effect o w (TaskOp o' op)
            (wrapper_raised validate format_exc o' s e w).1) as Hraise.
  { intros e. unfold wrapper_raised. case_bool_decide; [done|].
    destruct (is_Exception e); [done|]. by eapply Hdie. }
  split; intros x ->; [|done]. destruct x; simpl; [done|done|]. by eapply Hdie.
Qed.

Lemma task_op_effect o o' op w :
  obj_effect o w (TaskOp o' op) (next w (TaskOp o' op)).
Proof.
  unfold TaskWorker.next, TaskWorker.step. unfold task_op_step.
  destruct (objs w !! o') as [s|] eqn:Eo; [|by apply obj_effect_same].
  destruct (env_at s) eqn:Ep; try by apply obj_effect_same.
  destruct op as [l|i| |items|t|b|r|e].
  - unfold action_begin. pose proof (inject_app (InjList l) (s_history s)) as [t Ht].
    destruct (inject validate (InjList l) (s_history s)) as [h [e|]]; simpl in Ht; subst h;
      simpl; effect o o'; (eapply obj_effect_put;
        [done|reflexivity|constructor; by eauto|split; [by exists t|done]]).
  - pose proof (inject_app i (s_history s)) as [t Ht].
    destruct (inject validate i (s_history s)) as [h e]; simpl in Ht; subst h; simpl.
    effect o o'. eapply obj_effect_put;
      [done|reflexivity|constructor; by eauto|split; [by exists t|done]].
  - simpl. effect o o'. eapply obj_effect_put; [done|reflexivity|by apply TRewrite|].
    simpl. by rewrite bool_decide_eq_true_2.
  - simpl. destruct (mapM validate items); [|by apply obj_effect_same]. simpl.
    effect o o'. eapply obj_effect_put; [done|reflexivity|by apply TRewrite|].
    simpl. by rewrite bool_decide_eq_true_2.
  - simpl. effect o o'. eapply obj_effect_put; [done|reflexivity|by constructor|by split].
  - simpl. effect o o'. eapply obj_effect_put; [done|reflexivity|by constructor|].
    simpl. by rewrite bool_decide_eq_true_2.
  - by eapply wrapper_effect.
  - by eapply wrapper_effect.
Qed.

Lemma cancel_effect o sid b w : obj_effect o w (Cancel sid b) (next w (Cancel sid b)).
Proof.
  unfold TaskWorker.next, TaskWorker.step. unfold cancel.
  destruct (session_map w !! sid) as [o'|]; [|by apply obj_effect_same].
  destruct (objs w !! o') as [s|] eqn:Eo; [|by apply obj_effect_same].
  assert (forall m l, transition s []
    (set_cancel true m l (set_controller (cancel_input (controller s)) s))) as HT
    by (intros; by apply TCancel).
  assert (forall s', (s' = request_cancel
      (set_cancel true (must_cancel s) (cancel_tasks s)
         (set_controller (cancel_input (controller s)) s)) ->
      transition s [] s' ∧ s_history s' = s_history s ∧
      full_history (controller s') = full_history (controller s))) as HR.
  { intros s' ->. unfold request_cancel. simpl. destruct (env_at s); simpl;
      (split; [apply HT|done]). }
  destruct b; [|destruct full_async]; simpl; effect o o';
    (eapply obj_effect_put; [done|reflexivity| |]); simpl; try apply HT; try done;
    destruct (HR _ eq_refl) as (H1 & H2 & H3); [apply H1|].
  intros _. by rewrite H2, H3.
Qed.

Lemma cancel_run_effect o o' w : obj_effect o w (CancelRun o') (next w (CancelRun o')).
Proof.
  unfold TaskWorker.next, TaskWorker.step. unfold cancel_run.
  destruct (objs w !! o') as [s|] eqn:Eo; [|by apply obj_effect_same].
  destruct (cancel_tasks s) as [|b l] eqn:El; [by apply obj_effect_same|].
  assert (forall mc, transition s [] (set_cancel (cancelling s) mc l s)) as HT
    by (intros; constructor; by rewrite El).
  assert (forall w' mc, objs w' = <[o' := set_cancel (cancelling s) mc l s]> (objs w) ->
            obj_effect o w (CancelRun o') w') as Hput.
  { intros w' mc Hw. destruct (decide (o' = o)) as [->|].
    - by eapply obj_effect_put.
    - by eapply obj_effect_other. }
  destruct full_async.
  - simpl. unfold request_cancel. simpl. destruct (env_at s); by eapply Hput.
  - destruct (env_at s) as [| | |[e|]]; try by apply obj_effect_same.
    + destruct e; by eapply Hput.
    + by eapply Hput.
Qed.

Lemma step_effect o w e :
  (forall sid o s, session_map w !! sid = Some o -> objs w !! o = Some s ->
     env_at s ≠ EnvDone None) ->
  obj_effect o w e (next w e).
Proof.
  intros Hlive.
  destruct e as [sid i|sid m|sid b|o'|o'|o'|o'|o'|o' op];
    [| |apply cancel_effect| | | | |apply cancel_run_effect|apply task_op_effect].
  - unfold TaskWorker.next, TaskWorker.step. unfold start_sample.
    destruct (session_map w !! sid) eqn:Es; [by apply obj_effect_same|].
    case_bool_decide; [by apply obj_effect_same|]. simpl.
    destruct (decide (next_obj w = o)) as [<-|].
    + right. right. exists sid, i. split_and!; try done. apply lookup_insert_eq.
    + by eapply obj_effect_other.
  - unfold TaskWorker.next, TaskWorker.step. unfold interact.
    destruct (session_map w !! sid) as [o'|] eqn:Es; [|by apply obj_effect_same].
    destruct (objs w !! o') as [s|] eqn:Eo; [|by apply obj_effect_same].
    destruct (_ || _) eqn:Eb; [by apply obj_effect_same|].
    apply orb_false_iff in Eb as [E1 E2].
    destruct m as [[|m l]|]; try by apply obj_effect_same.
    destruct (forallb _ _); [|by apply obj_effect_same]. simpl.
    effect o o'. eapply obj_effect_put; [done|reflexivity| |by split].
    constructor; eauto.
  - unfold TaskWorker.next, TaskWorker.step. unfold agent_wake.
    destruct (objs w !! o') as [s|] eqn:Eo.
    2:{ apply obj_effect_same. unfold log_of; cbn [fst]. destruct (decide (o' = o)) as [<-|]; [|done]. by rewrite Eo. }
    destruct (_ || _) eqn:Eb; simpl.
    { apply obj_effect_same. unfold log_of; cbn [fst]. destruct (decide (o' = o)) as [<-|]; [|done]. by rewrite Eo, Eb. }
    effect o o'. eapply obj_effect_put; [done|reflexivity| |by split].
    simpl. rewrite decide_True, Eo, Eb by done.
    apply orb_false_iff in Eb as [E1%bool_decide_eq_false E2%bool_decide_eq_false].
    by constructor.
  - unfold TaskWorker.next, TaskWorker.step. unfold env_start.
    destruct (objs w !! o') as [s|] eqn:Eo; [|by apply obj_effect_same].
    destruct (env_at s) eqn:Ep; try by apply obj_effect_same.
    simpl. effect o o'. eapply obj_effect_put; [done|reflexivity|by constructor|by split].
  - unfold TaskWorker.next, TaskWorker.step.
    destruct (decide (o' = o)) as [->|].
    2:{ unfold env_wake. destruct (objs w !! o') as [s|] eqn:Eo.
        2:{ apply obj_effect_same. simpl. by rewrite decide_False. }
        destruct (env_at s), (env_signal (controller s)), (must_cancel s);
          try (apply obj_effect_same; simpl; by rewrite decide_False).
        destruct (action_end chat_valid o' s) as [s' out].
        eapply obj_effect_other; [done|reflexivity|]. simpl. by rewrite decide_False. }
    assert (log_of o w (EnvWake o) = match (env_wake chat_valid o w).2 with
              | [Answer _ m] => Raw <$> m | _ => [] end) as Hl.
    { simpl. by rewrite decide_True. }
    unfold env_wake in *. destruct (objs w !! o) as [s|] eqn:Eo; [|by apply obj_effect_same].
    destruct (env_at s) eqn:E1, (env_signal (controller s)) eqn:E2, (must_cancel s) eqn:E3;
      try by apply obj_effect_same.
    destruct (action_end chat_valid o s) as [s' out] eqn:E.
    eapply obj_effect_put; [done|reflexivity| |].
    { rewrite Hl. eapply TEnvWake; [done|by rewrite E2|done|by eauto]. }
    intros _. unfold action_end in E. simpl in E.
    destruct (env_input (controller s)) as [[m|]|]; simplify_eq; try done.
    pose proof (append_messages_app m (s_history s)) as (t & H1 & _).
    destruct (append_messages chat_valid m (s_history s)) as [h [e|]]; simplify_eq/=;
      (split; [by exists t|done]).
  - unfold TaskWorker.next, TaskWorker.step. unfold cancel_throw.
    destruct (objs w !! o') as [s|] eqn:Eo; [|by apply obj_effect_same].
    destruct (must_cancel s) eqn:Em; [|by apply obj_effect_same].
    destruct (env_at s) eqn:Ep; try by apply obj_effect_same.
    + simpl. effect o o'. eapply obj_effect_put; [done|reflexivity|by constructor|by split].
    + simpl. effect o o'. eapply obj_effect_put; [done|reflexivity| |by split].
      by apply TThrowWaiting.
Qed.

(** ** The session map *)

(** The sessions of the map exist, under their own id, and have not ended
    normally; the map never outgrows the concurrency. *)
Record wf (w : worker) : Prop := {
  wf_fresh : forall o, is_Some (objs w !! o) -> (o < next_obj w)%nat;
  wf_map : forall sid o, session_map w !! sid = Some o ->
    exists s, objs w !! o = Some s ∧ session_id s = sid ∧ env_at s ≠ EnvDone None;
  wf_size : Z.of_nat (size (session_map w)) ≤ Z.max 0 concurrency
}.

(** The coroutine of the sample let the [AgentCancelledException] through. *)
Definition uncaught (s : session) : Prop :=
  env_at s = EnvDone (Some AgentCancelledException).

(** The shapes of a step, as far as the map is concerned. *)
Inductive frame (w w' : worker) : Prop :=
| FSame : w' = w -> frame w w'
| FPut o s s' :
    objs w !! o = Some s -> objs w' = <[o := s']> (objs w) ->
    next_obj w' = next_obj w -> session_map w' ⊆ session_map w ->
    session_id s' = session_id s ->
    (env_at s' = EnvDone None ->
     env_at s = EnvDone None ∨ session_map w' !! session_id s = None) ->
    (uncaught s -> uncaught s') ->
    full_async = true ∨ session_map w' = session_map w ∨
      (session_map w' = delete (session_id s) (session_map w) ∧ ¬ uncaught s) ->
    frame w w'
| FStart sid i :
    session_map w !! sid = None -> Z.of_nat (size (session_map w)) < concurrency ->
    objs w' = <[next_obj w := set_agent_at InStartSample
       (set_controller (agent_pull_begin None new_controller) (new_session sid i))]> (objs w) ->
    next_obj w' = S (next_obj w) ->
    session_map w' = <[sid := next_obj w]> (session_map w) -> frame w w'.

Lemma frame_put o s s' w :
  objs w !! o = Some s -> session_id s' = session_id s ->
  (env_at s' = EnvDone None -> env_at s = EnvDone None) ->
  (uncaught s -> uncaught s') ->
  frame w (put_obj o s' w).
Proof. intros. eapply (FPut _ _ o s s'); simpl; auto. Qed.

Lemma frame_pop sid o s s' w :
  objs w !! o = Some s -> session_id s' = session_id s ->
  (env_at s' = EnvDone None -> env_at s = EnvDone None ∨ sid = session_id s) ->
  (uncaught s -> uncaught s') ->
  full_async = true ∨ (sid = session_id s ∧ ¬ uncaught s) ->
  frame w (pop sid (put_obj o s' w)).
Proof.
  intros Ho Hid He Hu Hp. eapply (FPut _ _ o s s'); simpl; auto.
  - apply delete_subseteq.
  - intros [?| ->]%He; [auto|right; apply lookup_delete_eq].
  - destruct Hp as [?|[-> ?]]; auto.
Qed.

Lemma frame_put_pop sid o s s' w :
  objs w !! o = Some s -> session_id s' = session_id s ->
  (env_at s' = EnvDone None -> env_at s = EnvDone None ∨ sid = session_id s) ->
  (uncaught s -> uncaught s') ->
  full_async = true ∨ (sid = session_id s ∧ ¬ uncaught s) ->
  frame w (put_obj o s' (pop sid w)).
Proof. exact (frame_pop sid o s s' w). Qed.

Ltac frame_goal := unfold uncaught in *; simpl; intros; auto; intuition congruence.

Lemma wrapper_frame o s w :
  objs w !! o = Some s -> env_at s = EnvRunning ->
  (forall r, frame w (wrapper_returned validate format_exc o s r w).1) ∧
  (forall e, frame w (wrapper_raised validate format_exc o s e w).1).
Proof.
  intros Ho Hr.
  assert (forall st r, frame w (finish validate o s st r w).1) as Hfin.
  { intros. unfold finish. destruct (mapM _ _); simpl;
      (apply (frame_put_pop (session_id s) o s); frame_goal). }
  assert (forall e, frame w (wrapper_raised validate format_exc o s e w).1) as Hraise.
  { intros e. unfold wrapper_raised. case_bool_decide; [done|].
    destruct (is_Exception e); [done|]. eapply frame_put; frame_goal. }
  split; [|done]. intros r. destruct r; simpl; [done|done|].
  apply (frame_put_pop (session_id s) o s); frame_goal.
Qed.

Ltac frame_solve :=
  try (by apply FSame);
  try (eapply frame_put; unfold uncaught; simpl; solve [eauto|intros; congruence]).

Lemma cancel_frame sid b w : frame w (next w (Cancel sid b)).
Proof.
  unfold TaskWorker.next, TaskWorker.step, cancel.
  destruct (session_map w !! sid) as [o|]; [|by apply FSame].
  destruct (objs w !! o) as [s|] eqn:Eo; [|by apply FSame].
  destruct b; [frame_solve|]. destruct full_async eqn:Ef; [|frame_solve].
  apply (frame_pop sid o s); [done|..]; unfold uncaught, request_cancel; simpl;
    destruct (env_at s) eqn:E; simpl; rewrite ?E; auto.
Qed.

Lemma cancel_run_frame o w : frame w (next w (CancelRun o)).
Proof.
  unfold TaskWorker.next, TaskWorker.step, cancel_run.
  destruct (objs w !! o) as [s|] eqn:Eo; [|by apply FSame].
  destruct (cancel_tasks s) as [|b l]; [by apply FSame|].
  set (s' := set_cancel _ _ _ _).
  assert (env_at s' = env_at s) as He by done.
  destruct full_async eqn:Ef.
  - apply (frame_pop (session_id s) o s); [done|..]; unfold uncaught, request_cancel; simpl;
      destruct (env_at s) eqn:E; simpl; rewrite ?E; auto.
  - assert (frame w (put_obj o s' w)) by (eapply frame_put; frame_goal).
    assert (¬ uncaught s -> frame w (pop (session_id s) (put_obj o s' w)))
      by (intros; apply (frame_pop (session_id s) o s); frame_goal).
    unfold uncaught in *.
    destruct (env_at s) as [| | |[e|]]; [by apply FSame..| |auto].
    destruct e; simpl; auto.
Qed.

Lemma step_frame w e : frame w (next w e).
Proof.
  destruct e as [sid i|sid m|sid b|o|o|o|o|o|o op];
    [| |apply cancel_frame| | | | |apply cancel_run_frame|];
    unfold TaskWorker.next; simpl.
  - unfold start_sample. destruct (session_map w !! sid) eqn:Es; [by apply FSame|].
    case_bool_decide; [by apply FSame|]. simpl. eapply (FStart _ _ sid i); simpl; auto; lia.
  - unfold interact. repeat (case_match; frame_solve).
  - unfold agent_wake. repeat (case_match; frame_solve).
  - unfold env_start. destruct (objs w !! o) as [s|] eqn:Eo; [|by apply FSame].
    destruct (env_at s) eqn:E; try by apply FSame.
    eapply frame_put; [done|done|..]; unfold uncaught; simpl; [by destruct (must_cancel s)|].
    by rewrite E.
  - unfold env_wake. destruct (objs w !! o) as [s|] eqn:Eo; [|by apply FSame].
    destruct (env_at s) eqn:E, (env_signal (controller s)), (must_cancel s); try by apply FSame.
    unfold action_end. repeat (case_match; simplify_eq; frame_solve).
  - unfold cancel_throw. repeat (case_match; frame_solve).
  - unfold task_op_step. destruct (objs w !! o) as [s|] eqn:Eo; [|by apply FSame].
    destruct (env_at s) eqn:Ep; try by apply FSame.
    destruct op; simpl; try (by apply wrapper_frame);
      try (unfold action_begin); frame_solve; repeat (case_match; simplify_eq; frame_solve).
Qed.

Lemma wf_new : wf new_worker.
Proof.
  split; simpl.
  - intros o [s Hs]. by rewrite lookup_empty in Hs.
  - intros sid o Hs. by rewrite lookup_empty in Hs.
  - rewrite map_size_empty. lia.
Qed.

Lemma wf_next w e : wf w -> wf (next w e).
Proof.
  intros [Hf Hm Hs]. destruct (step_frame w e) as
    [->|o s s' Ho Hw Hn Hsub Hid He _ _|sid i Hsid Hlt Hw Hn Hmap]; [done|..].
  - split.
    + intros o' Ho'. rewrite Hw in Ho'. rewrite Hn. apply Hf.
      destruct (decide (o' = o)) as [->|]; [by eexists|by rewrite lookup_insert_ne in Ho'].
    + intros sid o' Hsid. pose proof (lookup_weaken _ _ _ _ Hsid Hsub) as Hsid'.
      destruct (Hm sid o' Hsid') as (s1 & H1 & H2 & H3). rewrite Hw.
      destruct (decide (o' = o)) as [->|].
      * rewrite lookup_insert_eq. exists s'. simplify_eq. split_and!; [done|done|].
        intros He'. destruct (He He'); [done|congruence].
      * rewrite lookup_insert_ne by done. eauto.
    + apply map_subseteq_size in Hsub. lia.
  - split.
    + intros o Ho. rewrite Hw in Ho. rewrite Hn.
      destruct (decide (o = next_obj w)) as [->|]; [lia|].
      rewrite lookup_insert_ne in Ho by done. apply Hf in Ho. lia.
    + intros sid' o Hsid'. rewrite Hmap in Hsid'. rewrite Hw.
      apply lookup_insert_Some in Hsid' as [[<- <-]|[Hne Hsid']].
      * rewrite lookup_insert_eq. by eexists.
      * destruct (Hm _ _ Hsid') as (s1 & H1 & H2 & H3).
        rewrite lookup_insert_ne; [eauto|]. intros <-.
        specialize (Hf (next_obj w) ltac:(by eexists)). lia.
    + rewrite Hmap, map_size_insert_None by done. lia.
Qed.

(** ** The rendezvous *)

(** Who has the control, and what is in transit. *)
Definition turns (s : session) : Prop :=
  let a := agent_signal (controller s) in
  let e := env_signal (controller s) in
  match agent_at s, env_at s with
  | AgentIdle, (EnvCreated | EnvRunning | EnvDone (Some _)) => False
  | AgentIdle, (EnvWaiting | EnvDone None) => a = 0%nat ∧ e = 0%nat
  | _, (EnvCreated | EnvRunning | EnvDone (Some _)) => a = 0%nat ∧ e = 0%nat
  | _, EnvWaiting =>
      (a = 1%nat ∧ e = 0%nat) ∨
      (a = 0%nat ∧ e = 1%nat ∧ exists m, env_input (controller s) = Some (AgentNormal m))
  | _, EnvDone None => a = 1%nat ∧ e = 0%nat
  end.

Definition protocol (s : session) : Prop :=
  agent_lock (controller s) = bool_decide (agent_at s ≠ AgentIdle) ∧
  env_lock (controller s) = bool_decide (env_at s = EnvWaiting) ∧
  (cancelling s = false -> must_cancel s = false ∧ cancel_tasks s = [] ∧ turns s).

Lemma turns_EnvDone (s s' : session) :
  env_at s = EnvRunning -> turns s -> agent_at s' = agent_at s ->
  env_signal (controller s') = env_signal (controller s) ->
  (env_at s' = EnvDone None ∧
   agent_signal (controller s') = S (agent_signal (controller s))) ∨
  (exists e, env_at s' = EnvDone (Some e) ∧
   agent_signal (controller s') = agent_signal (controller s)) -> turns s'.
Proof.
  unfold turns. intros -> H Ha He Hd. rewrite Ha, He.
  destruct Hd as [[-> ->]|(e & -> & ->)]; destruct (agent_at s); intuition (try lia; eauto).
Qed.

Lemma transition_protocol s L s' : transition s L s' -> protocol s -> protocol s'.
Proof.
  intros Ht (Hal & Hel & Hc).
  destruct Ht as [input Hlock Hcan Hd|Ha Hs|s' Hcan _ He Ha Hl Hl'|mc l Hl|He|s' out He Hs Hm [o Hout]
    |Hm He|Hm He|h He _|h He _|h He|b He|t He|st r h He _|e He]; unfold protocol in *; simpl.
  - rewrite Hlock in Hal. symmetry in Hal. apply bool_decide_eq_false in Hal.
    apply dec_stable in Hal. split_and!; [done|done|]. intros _.
    destruct (Hc Hcan) as (?&?&Ht). unfold turns in *. simpl. rewrite Hal in Ht.
    destruct (env_at s) as [| | |[]]; intuition (try lia; eauto).
  - split_and!; [done|done|]. intros Hcan. destruct (Hc Hcan) as (?&?&Ht).
    unfold turns in *. simpl. destruct (agent_at s); [done|..];
      destruct (env_at s) as [| | |[]]; intuition (try lia; eauto).
  - rewrite Hcan, Hl, Hl', Ha, He. by split_and!.
  - split_and!; [done|done|]. intros Hcan. destruct (Hc Hcan) as (?&?&_). done.
  - rewrite He in *. split_and!; [done| |].
    + rewrite Hel. by destruct (must_cancel s).
    + intros Hcan. destruct (Hc Hcan) as (->&?&Ht). split_and!; [done..|].
      unfold turns in *. simpl. rewrite He in Ht. by destruct (agent_at s).
  - unfold action_end in Hout. simpl in Hout.
    assert (agent_lock (controller s') = agent_lock (controller s) ∧
            env_lock (controller s') = false ∧ agent_at s' = agent_at s ∧
            env_at s' = EnvRunning ∧ cancelling s' = cancelling s ∧
            must_cancel s' = must_cancel s ∧ cancel_tasks s' = cancel_tasks s ∧
            agent_signal (controller s') = agent_signal (controller s) ∧
            env_signal (controller s') = pred (env_signal (controller s)))
      as (H1&H2&H3&H4&H5&H6&H7&H8&H9).
    { destruct (env_input (controller s)) as [[m|]|]; simplify_eq; try done.
      destruct (append_messages chat_valid m (s_history s)) as [h [e|]]; by simplify_eq. }
    rewrite H1, H2, H3, H4, H5, H6, H7. split_and!; [done|done|].
    intros Hcan. destruct (Hc Hcan) as (?&?&Ht). split_and!; [done..|].
    unfold turns in *. rewrite H3, H4, H8, H9. rewrite He in Ht.
    destruct (agent_at s); intuition (try lia; eauto).
  - split_and!; [done|done|]. intros Hcan. destruct (Hc Hcan) as (?&?&_). congruence.
  - split_and!; [done|done|]. intros Hcan. destruct (Hc Hcan) as (?&?&_). congruence.
  - split_and!; [done|done|]. intros Hcan. destruct (Hc Hcan) as (?&?&Ht).
    split_and!; [done..|]. unfold turns in *. simpl. rewrite He in Ht.
    destruct (agent_at s); intuition (try lia; eauto).
  - done.
  - done.
  - done.
  - done.
  - rewrite He in Hel. split_and!; [done|done|]. intros Hcan. destruct (Hc Hcan) as (?&?&Ht).
    split_and!; [done..|]. eapply turns_EnvDone; [done|exact Ht|done|done|]. by left.
  - rewrite He in Hel. split_and!; [done|done|]. intros Hcan. destruct (Hc Hcan) as (?&?&Ht).
    split_and!; [done..|]. eapply turns_EnvDone; [done|exact Ht|done|done|]. right. eauto.
Qed.

(** ** What has been delivered *)

(** A validated history holds the [HistoryItem] of each item. *)
Definition norm (x : history_item) : history_item := default x (validate x).

Definition delivery (L : list history_item) (s : session) : Prop :=
  full_history (controller s) = false ∧
  (cancelling s = false ->
   let out := env_output (controller s) in
   match env_at s with
   | EnvCreated | EnvRunning => L = history out ∧ L `prefix_of` s_history s
   | EnvWaiting =>
       history out = s_history s ∧ (history_ptr out <= length (history out))%nat ∧
       L = if bool_decide (agent_signal (controller s) = 0%nat) then s_history s
           else take (history_ptr out) (s_history s)
   | EnvDone None =>
       history out = norm <$> s_history s ∧ (history_ptr out <= length (history out))%nat ∧
       norm <$> L = if bool_decide (agent_signal (controller s) = 0%nat) then history out
                    else take (history_ptr out) (history out)
   | EnvDone (Some _) => norm <$> L `prefix_of` norm <$> s_history s
   end).

(** Validation is the identity on what it has produced. *)
Hypothesis validate_idem : forall x y, validate x = Some y -> validate y = Some y.

Lemma norm_idem x : norm (norm x) = norm x.
Proof.
  unfold norm. destruct (validate x) as [y|] eqn:E; simpl.
  - by rewrite (validate_idem x y E).
  - by rewrite E.
Qed.

Lemma fmap_norm_idem (l : list history_item) : norm <$> (norm <$> l) = norm <$> l.
Proof. rewrite <- list_fmap_compose. apply list_fmap_ext. intros. apply norm_idem. Qed.

Lemma mapM_norm l h : mapM validate l = Some h -> h = norm <$> l.
Proof.
  intros H%mapM_Some. induction H as [|x y l h Hxy _ IH]; [done|].
  rewrite fmap_cons, <- IH. f_equal. unfold norm. by rewrite Hxy.
Qed.

Lemma take_prefix_app (L h : list history_item) :
  L `prefix_of` h -> take (length L) h = L.
Proof. intros [t ->]. by rewrite take_app_length. Qed.

Lemma delivery_finish s L st r h :
  env_at s = EnvRunning -> cancelling s = false -> turns s ->
  L = history (env_output (controller s)) -> L `prefix_of` s_history s ->
  full_history (controller s) = false -> mapM validate (s_history s) = Some h ->
  delivery L (set_env_at (EnvDone None)
    (set_controller (env_finish
       {| out_index := Some (index s); out_status := st; out_result := r;
          history := h; history_ptr := 0 |} (controller s)) s)).
Proof.
  intros Ha Hc Ht HL Hp Hf ->%mapM_norm. split; [done|]. intros _. simpl.
  rewrite Hf, <- HL. simpl. split; [done|]. rewrite length_fmap, <- fmap_take.
  split; [by apply prefix_length|]. by rewrite take_prefix_app.
Qed.

Lemma transition_delivery s E s' L :
  transition s E s' -> protocol s -> delivery L s ->
  s_history s `prefix_of` s_history s' ->
  full_history (controller s') = full_history (controller s) ->
  delivery (L ++ E) s'.
Proof.
  intros Ht (_ & _ & Hc) [Hfull Hd] Hpre Hkeep. split; [congruence|].
  intros Hcan'.
  assert (cancelling s = false) as Hcan.
  { destruct Ht as [| |s' Hcan| | |s' out He Hs Hm [o Hout]| | | | | | | | |];
      try done; [congruence|]. revert Hcan' Hout. unfold action_end. simpl.
    intros. repeat (case_match; simplify_eq; try done). }
  specialize (Hd Hcan). destruct (Hc Hcan) as (Hmc & Hct & Hturn). clear Hc.
  destruct Ht as [input Hlock _ Hd'|Ha Hs|s' Hcan2 _ He Ha Hl Hl'|mc l Hl|He
    |s' out He Hs Hm [o Hout]|Hm He|Hm He|h He Happ|h He Happ|h He|b He|t He
    |st r h He Hval|e He];
    try (rewrite app_nil_r); try congruence; simpl in *.
  - by destruct (env_at s) as [| | |[]].
  - unfold turns in Hturn. destruct (env_at s) as [| | |[e|]] eqn:Ep.
    + destruct (agent_at s); intuition lia.
    + destruct (agent_at s); intuition lia.
    + destruct Hd as (H1 & H2 & ->).
      rewrite bool_decide_eq_false_2 by done.
      assert (agent_signal (controller s) = 1%nat) as -> by (destruct (agent_at s); intuition lia).
      simpl. rewrite H1, take_drop. by rewrite H1 in H2.
    + destruct (agent_at s); intuition lia.
    + destruct Hd as (H1 & H2 & H3).
      rewrite bool_decide_eq_false_2 in H3 by done.
      assert (agent_signal (controller s) = 1%nat) as -> by (destruct (agent_at s); intuition lia).
      simpl. split_and!; [done|done|]. rewrite fmap_app, H3, fmap_drop.
      rewrite H1 at 2. rewrite fmap_norm_idem, <- H1. apply take_drop.
  - rewrite He, Hmc in *. done.
  - rewrite He in Hd. destruct Hd as (H1 & H2 & ->).
    assert (agent_signal (controller s) = 0%nat) as Hs0.
    { unfold turns in Hturn. rewrite He in Hturn. destruct (agent_at s); intuition lia. }
    rewrite bool_decide_eq_true_2 by done.
    unfold action_end in Hout. simpl in Hout.
    destruct (env_input (controller s)) as [[m|]|]; simplify_eq/=;
      try (by rewrite app_nil_r, H1).
    pose proof (append_messages_app m (s_history s)) as (t & Ht1 & Ht2).
    destruct (append_messages chat_valid m (s_history s)) as [h [e|]]; simplify_eq/=.
    + rewrite app_nil_r. split; [done|]. by apply prefix_app_r.
    + by rewrite Ht2.
  - rewrite He in Hd. destruct Hd as [HL Hp]. rewrite Hfull. simpl.
    rewrite <- HL. split; [done|]. destruct Happ as [t ->].
    split; [apply prefix_length; by apply prefix_app_r|].
    rewrite take_app_le by (by apply prefix_length). by rewrite take_prefix_app.
  - rewrite He in Hd |- *. destruct Hd as [HL Hp]. split; [done|].
    destruct Happ as [t ->]. by apply prefix_app_r.
  - rewrite He in Hd |- *. destruct Hd as [HL Hp]. split; [done|]. by etrans.
  - rewrite He in *. done.
  - rewrite He in *. done.
  - rewrite He in Hd. destruct Hd as [HL Hp].
    by apply (delivery_finish s L st r h).
  - rewrite He in Hd. destruct Hd as [HL Hp]. destruct Hp as [t ->].
    rewrite fmap_app. by eexists.
Qed.

(** ** Runs *)

(** Everything exchanged on the session [o] during a run. *)
Fixpoint exchanged (o : nat) (w : worker) (l : list event) : list history_item :=
  match l with
  | [] => []
  | e :: l => log_of o w e ++ exchanged o (next w e) l
  end.

Lemma wf_run l w : wf w -> wf (run next w l).
Proof. intros. apply run_invariant; [done|]. intros. by apply wf_next. Qed.

Lemma live_wf w sid o s :
  wf w -> session_map w !! sid = Some o -> objs w !! o = Some s -> env_at s ≠ EnvDone None.
Proof. intros [_ Hm _] Hs Ho. destruct (Hm _ _ Hs) as (?&?&?&?). by simplify_eq. Qed.

Lemma protocol_start sid i :
  protocol (set_agent_at InStartSample
    (set_controller (agent_pull_begin None new_controller) (new_session sid i))).
Proof. by split_and!. Qed.

Definition obj_inv (o : nat) (P : session -> Prop) (w : worker) : Prop :=
  forall s, objs w !! o = Some s -> P s.

Lemma protocol_next o w e :
  wf w -> obj_inv o protocol w -> obj_inv o protocol (next w e).
Proof.
  intros Hwf Hp s Hs.
  destruct (step_effect o w e (fun sid o s => live_wf w sid o s Hwf))
    as [[Ho _]|[(s1 & s2 & H1 & H2 & Ht & _)|(sid & i & _ & _ & _ & _ & _ & _ & Ho)]].
  - apply Hp. by rewrite <- Ho.
  - simplify_eq. eapply transition_protocol; [exact Ht|by apply Hp].
  - simplify_eq. apply protocol_start.
Qed.

Lemma protocol_run o l w :
  wf w -> obj_inv o protocol w -> obj_inv o protocol (run next w l).
Proof.
  intros Hwf Hp.
  assert (wf (run next w l) ∧ obj_inv o protocol (run next w l)) as [_ ?]; [|done].
  apply run_invariant; [done|]. intros w1 e [H1 H2].
  split; [by apply wf_next|by apply protocol_next].
Qed.

Definition log_inv (o : nat) (L : list history_item) (w : worker) : Prop :=
  match objs w !! o with
  | Some s => protocol s ∧ delivery L s
  | None => L = []
  end.

Lemma log_next o L w e :
  wf w -> append_only o e = true -> log_inv o L w ->
  log_inv o (L ++ log_of o w e) (next w e).
Proof.
  unfold log_inv. intros Hwf Ha Hl.
  destruct (step_effect o w e (fun sid o s => live_wf w sid o s Hwf))
    as [[Ho ->]|[(s1 & s2 & H1 & H2 & Ht & Hpre)|(sid & i & _ & _ & Hnew & -> & _ & _ & Ho)]].
  - by rewrite app_nil_r, Ho.
  - rewrite H1 in Hl. rewrite H2. destruct Hl as [Hp Hd], (Hpre Ha).
    split; [by eapply transition_protocol|by eapply transition_delivery].
  - rewrite Ho, app_nil_r. destruct (objs w !! o) as [s|] eqn:E.
    + pose proof (wf_fresh w Hwf o ltac:(by eexists)). lia.
    + subst L. split; [apply protocol_start|]. split; [done|]. intros _. simpl. done.
Qed.

Lemma log_run o l L w :
  wf w -> Forall (fun e => append_only o e = true) l -> log_inv o L w ->
  log_inv o (L ++ exchanged o w l) (run next w l).
Proof.
  revert L w. induction l as [|e l IH]; intros L w Hwf Ha Hl; simpl.
  - by rewrite app_nil_r.
  - apply Forall_cons in Ha as [Ha1 Ha]. rewrite app_assoc. apply IH; [by apply wf_next|done|].
    by apply log_next.
Qed.

(** ** Slots that are never freed *)

Record leaked (sid : Z) (o : nat) (w : worker) : Prop := {
  leak_map : session_map w !! sid = Some o;
  leak_obj : exists s, objs w !! o = Some s ∧ uncaught s;
  leak_only : forall o' s', objs w !! o' = Some s' -> session_id s' = sid -> o' = o
}.

Lemma leaked_next sid o w e :
  full_async = false -> wf w -> leaked sid o w -> leaked sid o (next w e).
Proof.
  intros Hsync Hwf [Hm (s0 & Ho & Hu) Honly].
  assert (session_id s0 = sid) as Hid.
  { destruct (wf_map _ Hwf _ _ Hm) as (s1 & H1 & H2 & _). congruence. }
  destruct (step_frame w e) as
    [->|o1 s s' H1 Hw Hn Hsub Hs' _ Hstay Hpop|sid1 i Hnone _ Hw Hn Hmap]; [by split; eauto|..].
  - split.
    + destruct Hpop as [?|[->|[-> Hnu]]]; [congruence|done|].
      rewrite lookup_delete_ne; [done|]. intros Heq.
      assert (o1 = o) as -> by (by eapply Honly). by simplify_eq.
    + rewrite Hw. destruct (decide (o1 = o)) as [->|].
      * rewrite lookup_insert_eq. eexists. split; [done|]. simplify_eq. auto.
      * rewrite lookup_insert_ne by done. eauto.
    + intros o' s1. rewrite Hw. destruct (decide (o' = o1)) as [->|].
      * rewrite lookup_insert_eq. intros [= <-]. rewrite Hs'. by eapply Honly.
      * rewrite lookup_insert_ne by done. apply Honly.
  - assert (sid1 ≠ sid) as Hne by (intros ->; congruence).
    assert (next_obj w ≠ o) as Hno.
    { intros <-. pose proof (wf_fresh _ Hwf (next_obj w) ltac:(by eexists)). lia. }
    split.
    + by rewrite Hmap, lookup_insert_ne.
    + rewrite Hw, lookup_insert_ne by done. eauto.
    + intros o' s1. rewrite Hw. destruct (decide (o' = next_obj w)) as [->|].
      * rewrite lookup_insert_eq. intros [= <-]. simpl. by intros.
      * rewrite lookup_insert_ne by done. apply Honly.
Qed.

Lemma leaked_run sid o l w :
  full_async = false -> wf w -> leaked sid o w -> leaked sid o (run next w l).
Proof.
  intros Hsync Hwf Hl.
  assert (wf (run next w l) ∧ leaked sid o (run next w l)) as [_ ?]; [|done].
  apply run_invariant; [done|]. intros w1 e [H1 H2].
  split; [by apply wf_next|by apply leaked_next].
Qed.

(** ** Requests that are never answered *)

(** The coroutine is over, nothing was signalled to the suspended request,
    and the session is out of the map. *)
Record hung (o : nat) (w : worker) : Prop := {
  hung_obj : exists s e, objs w !! o = Some s ∧ env_at s = EnvDone (Some e) ∧
    agent_signal (controller s) = 0%nat;
  hung_map : forall sid, session_map w !! sid ≠ Some o
}.

Ltac hung_same := simpl; split_and!; [by eauto|done|by intros; simplify_eq].

Lemma hung_next o w e :
  wf w -> hung o w -> hung o (next w e) ∧ log_of o w e = [] ∧
    forall o' m t st f r mt, (step w e).2 = [Response o' m t st f r mt] -> o' ≠ o.
Proof.
  intros Hwf [(s & x & Ho & Hd & Hs) Hm].
  assert (forall sid, session_map (next w e) !! sid ≠ Some o) as Hm'.
  { intros sid. destruct (step_frame w e) as
      [->|? ? ? ? ? ? Hsub _ _ _ _|sid1 i _ _ _ _ Hmap]; [done|..].
    - intros H'. eapply Hm, lookup_weaken; eauto.
    - rewrite Hmap. intros [[_ Heq]|[_ H']]%lookup_insert_Some; [|by apply Hm in H'].
      pose proof (wf_fresh _ Hwf o ltac:(by eexists)). lia. }
  assert ((exists s', objs (next w e) !! o = Some s' ∧ env_at s' = env_at s ∧
             agent_signal (controller s') = agent_signal (controller s)) ∧
          log_of o w e = [] ∧
          forall o' m t st f r mt, (step w e).2 = [Response o' m t st f r mt] -> o' ≠ o)
    as [(s' & H1 & H2 & H3) ?]; [|split; [|done]; split; [|done]; exists s', x; split_and!; congruence].
  destruct e as [sid i|sid m|sid b|o1|o1|o1|o1|o1|o1 op];
    unfold TaskWorker.next, TaskWorker.step.
  - unfold start_sample. repeat case_match; simpl; (split_and!; [|done..]); eauto.
    rewrite lookup_insert_ne; [eauto|]. intros Hn.
    pose proof (wf_fresh _ Hwf o ltac:(by eexists)). lia.
  - unfold interact. repeat case_match; simpl; (split_and!; [|done..]); eauto.
    rewrite lookup_insert_ne; [eauto|]. intros ->. naive_solver.
  - unfold cancel. repeat case_match; simpl; (split_and!; [|done..]); eauto;
      (rewrite lookup_insert_ne; [eauto|]; intros ->; naive_solver).
  - destruct (decide (o1 = o)) as [->|Hne].
    + unfold agent_wake, log_of. rewrite decide_True, Ho, Hs by done.
      rewrite (bool_decide_eq_true_2 (0%nat = 0%nat)) by done. rewrite orb_true_r. hung_same.
    + unfold log_of. rewrite decide_False by done. unfold agent_wake.
      repeat (case_match; simplify_eq); simpl; try rewrite lookup_insert_ne by done;
        (split_and!; [eauto|done|]); unfold response; intros ??????? Heq; repeat case_match;
        try discriminate; by injection Heq as <-.
  - unfold env_start. destruct (decide (o1 = o)) as [->|Hne].
    + rewrite Ho, Hd. rewrite <- Hd. hung_same.
    + repeat case_match; simpl; try rewrite lookup_insert_ne by done; hung_same.
  - unfold log_of. destruct (decide (o1 = o)) as [->|Hne].
    + unfold TaskWorker.step, env_wake. rewrite Ho, Hd. rewrite <- Hd. hung_same.
    + unfold env_wake, action_end. simpl.
      repeat (case_match; simplify_eq); simpl; try rewrite lookup_insert_ne by done;
        (split_and!; [eauto|done|by intros; simplify_eq]).
  - unfold cancel_throw. destruct (decide (o1 = o)) as [->|Hne].
    + rewrite Ho, Hd. rewrite <- Hd. destruct (must_cancel s); hung_same.
    + repeat case_match; simpl; try rewrite lookup_insert_ne by done;
        (split_and!; [eauto|done|by intros; simplify_eq]).
  - unfold cancel_run. destruct (decide (o1 = o)) as [->|Hne].
    + rewrite Ho. destruct (cancel_tasks s) as [|b l]; [hung_same|].
      unfold request_cancel. simpl. rewrite Hd.
      destruct full_async; [|destruct x]; simpl; rewrite lookup_insert_eq;
        (split_and!; [by eexists|done|destruct b; by intros; simplify_eq]).
    + repeat case_match; simpl; try rewrite lookup_insert_ne by done;
        (split_and!; [eauto|done|by intros; simplify_eq]).
  - unfold task_op_step. destruct (decide (o1 = o)) as [->|Hne].
    + rewrite Ho, Hd. rewrite <- Hd. hung_same.
    + destruct (objs w !! o1) as [s1|]; [|simpl; eauto 10].
      destruct (env_at s1); try hung_same.
      unfold wrapper_returned, wrapper_raised, finish, action_begin.
      repeat (case_match; simplify_eq); simpl; try rewrite lookup_insert_ne by done;
        (split_and!; [eauto|done|by intros; simplify_eq]).
Qed.

Lemma hung_run o l w :
  wf w -> hung o w -> hung o (run next w l) ∧ exchanged o w l = [].
Proof.
  revert w. induction l as [|e l IH]; intros w Hwf Hh; [done|]. simpl.
  destruct (hung_next o w e Hwf Hh) as (H1 & -> & _). apply IH; [by apply wf_next|done].
Qed.
End proofs.

(** ** Theorems *)
Section theorems.
Context (concurrency : Z) (full_async : bool) (task_tools : option (list val)).
Context (validate : history_item -> option history_item)
        (chat_valid assistant_valid : val -> bool)
        (tools_valid : option (list val) -> bool)
        (format_exc : exn -> string).

Abbreviation next := (next concurrency full_async task_tools validate chat_valid
  assistant_valid tools_valid format_exc).
Abbreviation runs := (run next new_worker).

(** C8: in every run the session map never holds more sessions than the task's
    concurrency, each entry is a session under its own id, and no session whose
    coroutine ended normally is still in it. *)
Theorem session_map_ok (l : list event) :
  Z.of_nat (size (session_map (runs l))) ≤ Z.max 0 concurrency ∧
  forall sid o, session_map (runs l) !! sid = Some o ->
    exists s, objs (runs l) !! o = Some s ∧ session_id s = sid ∧ env_at s ≠ EnvDone None.
Proof.
  pose proof (wf_run concurrency full_async task_tools validate chat_valid assistant_valid
    tools_valid format_exc l new_worker (wf_new _)) as [_ H2 H3].
  split; [exact H3|exact H2].
Qed.

(** C1: in every interleaving of requests, wake-ups, cancellations and task
    operations, a session's agent_lock is held exactly while a request is suspended
    in agent_pull, its env_lock exactly while the task waits in env_pull, and, as
    long as the session is not being cancelled, exactly one side has the control:
    the two semaphores hold at most one permit together, a permit is always
    addressed to the side that waits, and an idle agent always faces a task that
    waits or has ended. *)
Theorem rendezvous (l : list event) (o : nat) (s : session) :
  objs (runs l) !! o = Some s ->
  (agent_lock (controller s) = true <-> agent_at s ≠ AgentIdle) ∧
  (env_lock (controller s) = true <-> env_at s = EnvWaiting) ∧
  (cancelling s = false -> turns s).
Proof.
  intros Ho.
  destruct (protocol_run concurrency full_async task_tools validate chat_valid
    assistant_valid tools_valid format_exc o l new_worker (wf_new _)
    ltac:(intros ? [=]) s Ho) as (H1 & H2 & H3).
  rewrite H1, H2, !bool_decide_eq_true.
  split; [done|]. split; [done|]. intros Hc. by apply H3.
Qed.


(** When a task lets the AgentCancelledException of a cancelled session
    propagate (and is not fully asynchronous), the session keeps its slot of the
    session map in every continuation, whatever requests and further cancellations
    arrive. *)
Theorem uncaught_cancellation_leaks (l0 l : list event) (sid : Z) (o : nat) (s : session) :
  full_async = false ->
  session_map (runs l0) !! sid = Some o ->
  objs (runs l0) !! o = Some s ->
  env_at s = EnvDone (Some AgentCancelledException) ->
  (forall o' s', objs (runs l0) !! o' = Some s' -> session_id s' = sid -> o' = o) ->
  session_map (runs (l0 ++ l)) !! sid = Some o.
Proof.
  intros Hsync Hm Ho Hu Honly. rewrite run_app.
  eapply leak_map, leaked_run; [done|by apply wf_run, wf_new|].
  split; [done|eauto|done].
Qed.

(** What the coroutine of a sample ends on, seen from the controller. *)
Definition outcome (op : task_op) : option (SampleStatus * val) :=
  match op with
  | DoReturn (TaskResult st r) => Some (st, r)
  | DoReturn NoResult => Some (TASK_ERROR, VStr (format_exc ValueError))
  | DoRaise CancelledError => Some (CANCELLED, VNone)
  | DoRaise (AgentCancelledException | SystemExit _) => None
  | DoRaise e => Some (TASK_ERROR, VStr (format_exc e))
  | _ => None
  end.

(** When the task returns a result, returns nothing, raises an exception or is
    cancelled, the session leaves the map and the agent is signalled exactly one
    output: the result with its status, TASK_ERROR with the traceback, or CANCELLED,
    with the validated history and a pointer past what the agent has seen. *)
Theorem ended_session (w : worker) (o : nat) (s : session) (op : task_op)
    (st : SampleStatus) (r : val) (h : list history_item) :
  objs w !! o = Some s -> env_at s = EnvRunning ->
  outcome op = Some (st, r) -> mapM validate (s_history s) = Some h ->
  let w' := next w (TaskOp o op) in
  session_map w' = delete (session_id s) (session_map w) ∧
  exists s', objs w' !! o = Some s' ∧ env_at s' = EnvDone None ∧
    agent_signal (controller s') = S (agent_signal (controller s)) ∧
    env_output (controller s') =
      {| out_index := Some (index s); out_status := st; out_result := r; history := h;
         history_ptr := if full_history (controller s) then 0%nat
                        else length (history (env_output (controller s))) |}.
Proof.
  intros Ho Hr Hout Hh.
  assert (objs (next w (TaskOp o op)) = objs (finish validate o s st r w).1 ∧
    session_map (next w (TaskOp o op)) = session_map (finish validate o s st r w).1) as [H1 H2].
  { unfold TaskWorker.next, TaskWorker.step, task_op_step. rewrite Ho, Hr.
    destruct op as [| | | | | |[]|[]]; simplify_eq/=; done. }
  simpl. rewrite H1, H2. unfold finish. rewrite Hh. simpl. split; [done|].
  rewrite lookup_insert_eq. by eexists.
Qed.

(** When the task returns a truthy value without the attribute status, as
    VirtualTask does, the session leaves the map without a signal: the request
    suspended in agent_pull is never answered, in any continuation. *)
Theorem result_without_status_hangs (l0 l : list event) (o : nat) (s : session) :
  objs (runs l0) !! o = Some s -> env_at s = EnvRunning -> cancelling s = false ->
  exists s', objs (runs (l0 ++ TaskOp o (DoReturn NotAResult) :: l)) !! o = Some s' ∧
    exchanged concurrency full_async task_tools validate chat_valid assistant_valid
      tools_valid format_exc o (next (runs l0) (TaskOp o (DoReturn NotAResult))) l = [] ∧
    agent_signal (controller s') = 0%nat ∧ agent_at s ≠ AgentIdle.
Proof.
  intros Ho Hr Hc.
  pose proof (wf_run concurrency full_async task_tools validate chat_valid
    assistant_valid tools_valid format_exc l0 new_worker (wf_new _)) as Hwf.
  destruct (protocol_run concurrency full_async task_tools validate chat_valid
    assistant_valid tools_valid format_exc o l0 new_worker (wf_new _)
    ltac:(intros ? [=]) s Ho) as (_ & _ & Ht).
  destruct (Ht Hc) as (_ & _ & Hturn). unfold turns in Hturn. rewrite Hr in Hturn.
  assert (agent_at s ≠ AgentIdle ∧ agent_signal (controller s) = 0%nat) as [Hi Hs]
    by (destruct (agent_at s); intuition congruence).
  rewrite run_app. simpl.
  assert (hung o (next (runs l0) (TaskOp o (DoReturn NotAResult)))) as Hh.
  { clear - Ho Hr Hs Hwf. set (w0 := runs l0) in *. clearbody w0.
    unfold TaskWorker.next, TaskWorker.step, task_op_step. rewrite Ho, Hr. split; simpl.
    - rewrite lookup_insert_eq. by do 2 eexists.
    - intros sid [Hne Hm]%lookup_delete_Some.
      destruct (wf_map _ _ Hwf _ _ Hm) as (s1 & H1 & H2 & _). congruence. }
  destruct (hung_run concurrency full_async task_tools validate chat_valid
    assistant_valid tools_valid format_exc o l _ (wf_next _ _ _ _ _ _ _ _ _ _ Hwf) Hh)
    as [[(s' & e & H1 & _ & H2) _] H3].
  by exists s'.
Qed.
End theorems.

(** ** Concrete runs *)
Definition demo_validate (x : history_item) : option history_item :=
  match x with
  | Raw (VDict d) => if dmem "role" d then Some (RootChat (VDict d)) else None
  | Raw _ => None
  | RewardObj r => Some (RootReward r)
  | x => Some x
  end.
Abbreviation demo_runs := (run (next 2 false None demo_validate (fun _ => true)
  (fun _ => true) (fun _ => true) (fun _ => "traceback")) new_worker).

Definition user (t : string) : val := VDict [("role", VStr "user"); ("content", VStr t)].
Definition assistant (t : string) : val :=
  VDict [("role", VStr "assistant"); ("content", VStr t)].

(** One round, then the agent's answer. *)
Definition demo_round : list event :=
  [StartSample 7 (VInt 0); EnvStart 0; TaskOp 0 (DoAction [InjItem (Raw (user "hi"))]);
   AgentWake 0; Interact 7 (Some [assistant "move"]); EnvWake 0].
Definition demo_cancelled : list event :=
  [StartSample 7 (VInt 0); EnvStart 0; TaskOp 0 (DoAction [InjItem (Raw (user "hi"))]);
   AgentWake 0; Cancel 7 false; EnvWake 0; TaskOp 0 (DoRaise AgentCancelledException)].

Lemma demo_validate_idem x y : demo_validate x = Some y -> demo_validate y = Some y.
Proof. unfold demo_validate. intros. repeat (case_match; simplify_eq/=; try done). Qed.

Lemma rendezvous_witness :
  exists s, objs (demo_runs demo_round) !! 0%nat = Some s ∧ turns s.
Proof.
  assert (exists s, objs (demo_runs demo_round) !! 0%nat = Some s) as [s E] by (eexists; vm_compute; reflexivity).
  exists s. split; [exact E|].
  apply (rendezvous 2 false None demo_validate (fun _ => true) (fun _ => true)
    (fun _ => true) (fun _ => "traceback") demo_round 0 s E).
  vm_compute in E. injection E as <-. reflexivity.
Defined.


Lemma uncaught_cancellation_leaks_witness :
  session_map (demo_runs (demo_cancelled ++ [CancelRun 0; Cancel 7 true; CancelRun 0]))
    !! 7 = Some 0%nat.
Proof.
  assert (exists s, objs (demo_runs demo_cancelled) !! 0%nat = Some s) as [s E] by (eexists; vm_compute; reflexivity).
  apply (uncaught_cancellation_leaks 2 false None demo_validate (fun _ => true) (fun _ => true)
    (fun _ => true) (fun _ => "traceback") demo_cancelled _ 7 0 s); [reflexivity..|exact E| |].
  - vm_compute in E. injection E as <-. reflexivity.
  - intros o' s' H%elem_of_dom_2 _.
    assert (dom (objs (demo_runs demo_cancelled)) = {[0%nat]}) as Hdom
      by (vm_compute; reflexivity).
    rewrite Hdom in H. by apply elem_of_singleton in H.
Defined.

Lemma ended_session_witness :
  exists s, objs (demo_runs demo_round) !! 0%nat = Some s ∧
    session_map (next 2 false None demo_validate (fun _ => true) (fun _ => true)
      (fun _ => true) (fun _ => "traceback") (demo_runs demo_round)
      (TaskOp 0 (DoReturn (TaskResult COMPLETED (VInt 1))))) =
    delete (session_id s) (session_map (demo_runs demo_round)).
Proof.
  assert (exists s, objs (demo_runs demo_round) !! 0%nat = Some s) as [s E] by (eexists; vm_compute; reflexivity).
  exists s. split; [exact E|].
  eapply (ended_session 2 false None demo_validate (fun _ => true) (fun _ => true)
    (fun _ => true) (fun _ => "traceback") _ 0 s _ COMPLETED (VInt 1) _ E);
    vm_compute in E; injection E as <-; reflexivity.
Defined.

Lemma result_without_status_hangs_witness :
  exists s, objs (demo_runs demo_round) !! 0%nat = Some s ∧ agent_at s ≠ AgentIdle.
Proof.
  assert (exists s, objs (demo_runs demo_round) !! 0%nat = Some s) as [s E] by (eexists; vm_compute; reflexivity).
  exists s. split; [exact E|].
  destruct (result_without_status_hangs 2 false None demo_validate (fun _ => true)
    (fun _ => true) (fun _ => true) (fun _ => "traceback") demo_round [AgentWake 0; Cancel 7 true] 0 s E)
    as (s' & _ & _ & _ & H);
    [vm_compute in E; injection E as <-; reflexivity..|exact H].
Defined.
