(* ===== verification/Calculator.v ===== *)
(** * The example task

    Models examples/simple-calculator/task.py, a task of the worker: it asks for the
    result of a sum, runs the tools the agent calls and gives a reward for the right
    answer.  What it does to its session is that of TaskWorker (inject, action); the
    agent is a function of the history it sees.  JSON and the arithmetic of floats
    are arguments. *)

From S2P Require Import Prelude PyVal TaskWorker.

(** ** The tools and the samples *)

Definition number_property (description : string) : val :=
  VDict [("type", VStr "number"); ("description", VStr description)].
Definition function_tool (name description : string) (properties : list (string * val)) : val :=
  VDict [("type", VStr "function");
         ("function", VDict [("name", VStr name); ("description", VStr description);
            ("parameters", VDict [("type", VStr "object"); ("properties", VDict properties);
                                  ("required", VList (VStr <$> properties.*1)); ("additionalProperties", VBool false)]);
            ("strict", VBool true)])].
(* examples/simple-calculator/task.py:17-83 TOOLS *)
Definition TOOLS : list val :=
  [function_tool "add" "Add two numbers" [("a", number_property "The first number"); ("b", number_property "The second number")];
   function_tool "subtract" "Subtract two numbers" [("a", number_property "The first number"); ("b", number_property "The second number")];
   function_tool "submit" "Submit the final answer." [("result", number_property "The final result")]].

Record sample := { s_a : Z; s_b : Z; op : string; ans : Z }.
(* examples/simple-calculator/task.py:87-96 generate_tasks *)
Definition generate_tasks (count : Z) : list sample :=
  (fun i => {| s_a := i; s_b := i * 2; op := if bool_decide (i mod 2 = 0) then "+" else "-";
               ans := if bool_decide (i mod 2 = 0) then i + i * 2 else i - i * 2 |}) <$> seqZ 1 count.

(** [tasks[index]]: negative indices count from the end. *)
Definition at_index {A} (l : list A) (index : val) : res A :=
  match index with
  | VInt z =>
      let z := if bool_decide (z < 0) then z + Z.of_nat (length l) else z in
      if bool_decide (z < 0) then Raise IndexError
      else match l !! Z.to_nat z with Some x => Ok x | None => Raise IndexError end
  | _ => Raise TypeError
  end.

Section task.
Context (validate : history_item -> option history_item) (chat_valid : val -> bool).
(** What the agent answers to a history: messages, or an exception when the session is
    cancelled. *)
Context (agent : list history_item -> res (list val)).
Context (json_loads : string -> res val).
Context (float_of : Z -> res pyfloat) (float_add float_sub : pyfloat -> pyfloat -> pyfloat) (str_of : val -> string).
Context (max_rounds number_of_indices : Z).

Abbreviation history := (list history_item).

(** The two operations of the session. *)
Definition inject_item (x : history_item) : M history unit := fun h =>
  match inject validate (InjItem x) h with (h, None) => (h, Ok tt) | (h, Some e) => (h, Raise e) end.
Definition action : M history (list val) := fun h =>
  match agent h with
  | Raise e => (h, Raise e)
  | Ok messages => match append_messages chat_valid messages h with (h, None) => (h, Ok messages) | (h, Some e) => (h, Raise e) end
  end.

(* examples/simple-calculator/task.py:110-111 SimpleCalculatorTask.get_indices *)
Definition get_indices : list val := VInt <$> seqZ 0 (Z.of_nat (length (generate_tasks number_of_indices))).

(** ** A call of a tool *)

Definition number (v : val) : option (Z + pyfloat) :=
  match v with VInt z => Some (inl z) | VBool b => Some (inl (if b then 1 else 0)) | VFloat q => Some (inr q) | _ => None end.
Definition as_float (x : Z + pyfloat) : res pyfloat := match x with inl z => float_of z | inr q => Ok q end.
Definition calculate (add : bool) (a b : Z + pyfloat) : res val :=
  match a, b with
  | inl x, inl y => Ok (VInt (if add then x + y else x - y))
  | _, _ => x ← as_float a; y ← as_float b; Ok (VFloat (if add then float_add x y else float_sub x y))
  end.

(** [result == task['ans']] *)
Definition equals (v : val) (n : Z) : bool :=
  match v with
  | VInt z => bool_decide (z = n)
  | VBool b => bool_decide ((if b then 1 else 0) = n)
  | VFloat q => feq q (Fin (inject_Z n))
  | _ => false
  end.

(** [json.loads]; arguments that are not JSON count as none. *)
(* examples/simple-calculator/task.py:151-154 SimpleCalculatorTask.start_sample *)
Definition load_args (v : val) : res val :=
  match v with
  | VStr s => match json_loads s with Raise ValueError => Ok (VDict []) | r => r end
  | _ => Raise TypeError
  end.

Definition tool_message (content : string) (id : val) : history_item :=
  Raw (VDict [("role", VStr "tool"); ("content", VStr content); ("tool_call_id", id)]).

(** What a call is answered with, or the value submitted. *)
(* examples/simple-calculator/task.py:156-186 SimpleCalculatorTask.start_sample *)
Definition answer (tool_name tool_args : val) : res (string + val) :=
  if is_str "add" tool_name || is_str "subtract" tool_name then
    a ← vget_or "a" VNone tool_args; b ← vget_or "b" VNone tool_args;
    match number a, number b with
    | Some x, Some y => r ← calculate (is_str "add" tool_name) x y; Ok (inl (str_of r))
    | _, _ => Ok (inl "Invalid arguments. Both a and b must be numbers.")
    end
  else if is_str "submit" tool_name then result ← vget_or "result" VNone tool_args; Ok (inr result)
  else Ok (inl ("Unknown function: " +:+ str_of tool_name)).

(** The identifier of a call with its answer. *)
(* examples/simple-calculator/task.py:149-186 SimpleCalculatorTask.start_sample *)
Definition read_call (tool_call : val) : res (val * (string + val)) :=
  tool_call_id ← vget_or "id" VNone tool_call;
  f ← vget_or "function" (VDict []) tool_call;
  tool_name ← vget_or "name" VNone f;
  arguments ← vget_or "arguments" VNone f;
  tool_args ← load_args arguments;
  r ← answer tool_name tool_args;
  Ok (tool_call_id, r).

Definition reward_of (v : val) (t : sample) : history_item :=
  RewardObj (make_reward (Fin (if equals v (ans t) then 1 else 0)) None []).

(* examples/simple-calculator/task.py:146-186 SimpleCalculatorTask.start_sample *)
Definition run_call (t : sample) (tool_call : val) : M history (option SampleStatus) :=
  '(id, r) ← lift_res (read_call tool_call);
  match r with
  | inl content => inject_item (tool_message content id);; mret None
  | inr result => inject_item (reward_of result t);; mret (Some COMPLETED)
  end.

Fixpoint run_calls (t : sample) (calls : list val) : M history (option SampleStatus) :=
  match calls with
  | [] => mret None
  | c :: calls => r ← run_call t c; match r with Some st => mret (Some st) | None => run_calls t calls end
  end.

(** ** A sample *)

(** [response.messages[0].get('tool_calls') or []] *)
(* examples/simple-calculator/task.py:139-139 SimpleCalculatorTask.start_sample *)
Definition calls_of (messages : list val) : res val :=
  match messages with
  | [] => Raise IndexError
  | m :: _ => v ← vget_or "tool_calls" VNone m; Ok (if truthy v then v else VList [])
  end.

(* examples/simple-calculator/task.py:137-186 SimpleCalculatorTask.start_sample *)
Definition round (t : sample) : M history (option SampleStatus) :=
  messages ← action;
  tool_calls ← lift_res (calls_of messages);
  if negb (truthy tool_calls) then mret (Some AGENT_VALIDATION_FAILED)
  else l ← lift_res (iterate tool_calls); run_calls t l.

Fixpoint rounds (n : nat) (t : sample) : M history SampleStatus :=
  match n with
  | O => mret TASK_LIMIT_REACHED
  | S n => r ← round t; match r with Some st => mret st | None => rounds n t end
  end.

Definition dquote : string := String (Ascii.ascii_of_nat 34) EmptyString.
Definition prompt (t : sample) : list history_item :=
  [Raw (VDict [("role", VStr "system");
     ("content", VStr ("You are an agent specialized in tool-calling. You can use the functions provided to you to perform calculations. " +:+
        "When you are done, you must use the " +:+ dquote +:+ "submit" +:+ dquote +:+ " function to submit the final answer. " +:+
        "Do not provide any text response outside of the function calls."))]);
   Raw (VDict [("role", VStr "user"); ("content", VStr ("What's " +:+ str_Z (s_a t) +:+ " " +:+ op t +:+ " " +:+ str_Z (s_b t) +:+ "?"))])].

(* examples/simple-calculator/task.py:113-196 SimpleCalculatorTask.start_sample *)
Definition start_sample (index : val) : M history SampleStatus :=
  t ← lift_res (at_index (generate_tasks number_of_indices) index);
  for_each (prompt t) inject_item;;
  try_except (rounds (Z.to_nat max_rounds) t)
    (fun e => match e with
              | AgentCancelledException => Some (mret CANCELLED)
              | _ => if is_Exception e then Some (mret TASK_ERROR) else None
              end).

(** ** Proofs *)

(** What a call that is answered adds. *)
Definition answers (c : val) (x : history_item) : Prop :=
  exists id content, read_call c = Ok (id, inl content) ∧ x = tool_message content id.

Lemma inject_item_run x h : item_truthy x = true ->
  inject_item x h = match validate x with Some _ => (h ++ [x], Ok tt) | None => (h, Raise ValueError) end.
Proof. intros Hx. unfold inject_item. cbn [inject]. rewrite Hx. cbn. by destruct (validate x). Qed.

Lemma run_calls_spec t calls h h' r : run_calls t calls h = (h', r) ->
  exists pre replies more, h' = h ++ replies ++ more ∧ Forall2 answers pre replies ∧
    match r with
    | Ok None => more = [] ∧ calls = pre
    | Ok (Some st) => st = COMPLETED ∧ exists c post id v, calls = pre ++ c :: post ∧ read_call c = Ok (id, inr v) ∧ more = [reward_of v t]
    | Raise _ => more = []
    end.
Proof.
  revert h. induction calls as [|c calls IH]; intros h E; cbn [run_calls] in E.
  { injection E as <- <-. exists [], [], []. cbn. rewrite !app_nil_r. by repeat split. }
  unfold run_call in E. unfold mbind, M_bind, lift_res in E. destruct (read_call c) as [[id [content|v]]|e] eqn:Ec.
  - rewrite inject_item_run in E by done. destruct (validate _); cbn in E.
    + destruct (IH _ E) as (pre & replies & more & -> & Hp & Hr). exists (c :: pre), (tool_message content id :: replies), more.
      split; [by rewrite <- app_assoc|]. split; [constructor; [by exists id, content|done]|]. destruct r as [[st|]|]; [|by destruct Hr as [-> ->]|done].
      destruct Hr as (-> & c' & post & id' & v & -> & Hc & ->). split; [done|]. by exists c', post, id', v.
    + injection E as <- <-. exists [], [], []. cbn. rewrite !app_nil_r. by repeat split.
  - rewrite inject_item_run in E by done. destruct (validate _); cbn in E; injection E as <- <-.
    + exists [], [], [reward_of v t]. split; [done|]. split; [constructor|]. split; [done|]. by exists c, calls, id, v.
    + exists [], [], []. cbn. rewrite !app_nil_r. by repeat split.
  - injection E as <- <-. exists [], [], []. cbn. rewrite !app_nil_r. by repeat split.
Qed.

Lemma append_messages_prefix ms h : exists k, (append_messages chat_valid ms h).1 = h ++ (Raw <$> take k ms) ∧
  ((append_messages chat_valid ms h).2 = None -> (k = length ms)%nat).
Proof.
  revert h. induction ms as [|m ms IH]; intros h; cbn [append_messages]; [exists 0%nat; by rewrite app_nil_r|].
  destruct (chat_valid m); [|exists 0%nat; by rewrite app_nil_r]. destruct (IH (h ++ [Raw m])) as (k & E1 & E2).
  exists (S k). rewrite E1, <- app_assoc. split; [done|]. intros H. cbn. by rewrite E2.
Qed.

Lemma action_spec h h' r : action h = (h', r) ->
  match r with Ok ms => agent h = Ok ms ∧ h' = h ++ (Raw <$> ms) | Raise _ => exists l, h' = h ++ (Raw <$> l) end.
Proof.
  unfold action. destruct (agent h) as [ms|e] eqn:E; [|intros [= <- <-]; exists []; by rewrite app_nil_r].
  destruct (append_messages_prefix ms h) as (k & E1 & E2). destruct (append_messages chat_valid ms h) as [h1 [e|]]; cbn in *.
  - intros [= <- <-]. by exists (take k ms).
  - intros [= <- <-]. rewrite E1, E2, take_ge by done. done.
Qed.

(** What one answer of the agent leads to: its messages, the answers to its calls and
    maybe a reward. *)
Definition asks (h : history) (ms calls : list val) : Prop :=
  agent h = Ok ms ∧ exists v, calls_of ms = Ok v ∧ truthy v = true ∧ iterate v = Ok calls.
Definition full_turn (h items : history) : Prop :=
  exists ms calls replies, asks h ms calls ∧ Forall2 answers calls replies ∧ items = (Raw <$> ms) ++ replies.
Definition submits (t : sample) (v : val) (h items : history) : Prop :=
  exists ms pre c post replies id, asks h ms (pre ++ c :: post) ∧ Forall2 answers pre replies ∧ read_call c = Ok (id, inr v) ∧
    items = (Raw <$> ms) ++ replies ++ [reward_of v t].
Definition no_reward (items : history) : Prop := (split_history items).2 = [].

Lemma no_reward_app a b : no_reward a -> no_reward b -> no_reward (a ++ b).
Proof.
  unfold no_reward. intros Ha Hb. induction a as [|x a IH]; [done|]. cbn [app split_history] in *.
  destruct (split_history a) as [c r], (split_history (a ++ b)) as [c' r']. destruct x; cbn in *; try done; by apply IH.
Qed.
Lemma no_reward_raw ms : no_reward (Raw <$> ms).
Proof. unfold no_reward. induction ms as [|m ms IH]; [done|]. cbn. by destruct (split_history _). Qed.
Lemma no_reward_answers calls replies : Forall2 answers calls replies -> no_reward replies.
Proof.
  unfold no_reward. induction 1 as [|c x calls replies (id & content & _ & ->) _ IH]; [done|]. cbn. by destruct (split_history _).
Qed.
Lemma one_reward a r : no_reward a -> (split_history (a ++ [RewardObj r])).2 = [r].
Proof.
  unfold no_reward. induction a as [|x a IH]; [done|]. cbn [app split_history].
  destruct (split_history a) as [c rs], (split_history (a ++ _)) as [c' rs']. destruct x; cbn; try done; auto.
Qed.

Lemma round_spec t h h' r : round t h = (h', r) -> exists items, h' = h ++ items ∧
  match r with
  | Ok None => full_turn h items
  | Ok (Some COMPLETED) => exists v, submits t v h items
  | Ok (Some AGENT_VALIDATION_FAILED) => exists ms v, agent h = Ok ms ∧ items = Raw <$> ms ∧ calls_of ms = Ok v ∧ truthy v = false
  | Ok (Some _) => False
  | Raise _ => no_reward items
  end.
Proof.
  intros E. unfold round in E. destruct (action h) as [h1 [ms|e]] eqn:Ea; pose proof (action_spec _ _ _ Ea) as Hs.
  2:{ rewrite (M_bind_raise _ _ _ _ _ Ea) in E. injection E as <- <-. destruct Hs as [l ->]. exists (Raw <$> l). split; [done|]. apply no_reward_raw. }
  rewrite (M_bind_run _ _ _ _ _ Ea), bind_lift in E. destruct Hs as [Hag ->].
  destruct (calls_of ms) as [v|e] eqn:Ec; [|injection E as <- <-; exists (Raw <$> ms); split; [done|apply no_reward_raw]].
  destruct (truthy v) eqn:Et; cbn [negb] in E; [|injection E as <- <-; exists (Raw <$> ms); split; [done|by exists ms, v]].
  rewrite bind_lift in E. destruct (iterate v) as [calls|e] eqn:Ei; [|injection E as <- <-; exists (Raw <$> ms); split; [done|apply no_reward_raw]].
  destruct (run_calls_spec _ _ _ _ _ E) as (pre & replies & more & -> & Hp & Hr). rewrite <- app_assoc. eexists. split; [done|].
  assert (Hask : asks h ms calls) by (split; [done|by exists v]). destruct r as [[st|]|e].
  - destruct Hr as (-> & c & post & id & w & -> & Hc & ->). exists w, ms, pre, c, post, replies, id. split; [exact Hask|]. by split.
  - destruct Hr as [-> ->]. exists ms, pre, replies. by rewrite app_nil_r.
  - rewrite Hr, app_nil_r. apply no_reward_app; [apply no_reward_raw|by eapply no_reward_answers].
Qed.

(** [n] turns that lead from one history to another. *)
Inductive plays : nat -> history -> history -> Prop :=
| plays_none h : plays 0 h h
| plays_turn n h items h' : full_turn h items -> plays n (h ++ items) h' -> plays (S n) h h'.

Lemma plays_no_reward n h h' : plays n h h' -> no_reward h -> no_reward h'.
Proof.
  induction 1 as [|n h items h' (ms & calls & replies & _ & Ha & ->) _ IH]; [done|]. intros Hh. apply IH.
  apply no_reward_app; [done|]. apply no_reward_app; [apply no_reward_raw|by eapply no_reward_answers].
Qed.

(** How the turns end. *)
Definition ended (t : sample) (h items : history) (limit : bool) (st : SampleStatus) : Prop :=
  match st with
  | TASK_LIMIT_REACHED => items = [] ∧ limit = true
  | COMPLETED => exists v, submits t v h items
  | AGENT_VALIDATION_FAILED => exists ms v, agent h = Ok ms ∧ items = Raw <$> ms ∧ calls_of ms = Ok v ∧ truthy v = false
  | _ => False
  end.

Lemma rounds_spec n t h h' r : rounds n t h = (h', r) -> exists m h1 items, (m <= n)%nat ∧ plays m h h1 ∧ h' = h1 ++ items ∧
  match r with Ok st => ended t h1 items (bool_decide (m = n)) st | Raise _ => no_reward items end.
Proof.
  revert h. induction n as [|n IH]; intros h E; cbn [rounds] in E.
  { injection E as <- <-. exists 0%nat, h, []. rewrite app_nil_r. by repeat split; [lia|constructor]. }
  destruct (round t h) as [h1 r1] eqn:Er; destruct (round_spec _ _ _ _ Er) as (items & -> & Hr).
  unfold mbind, M_bind in E. rewrite Er in E. destruct r1 as [[st|]|e].
  - injection E as <- <-. exists 0%nat, h, items. split; [lia|]. split; [constructor|]. split; [done|]. by destruct st.
  - destruct (IH _ E) as (m & h1 & more & Hm & Hp & -> & Hend). exists (S m), h1, more. split; [lia|]. split; [by eapply plays_turn|].
    split; [done|]. destruct r as [st|]; [|done]. by rewrite (bool_decide_ext (S m = S n) (m = n)) by lia.
  - injection E as <- <-. exists 0%nat, h, items. split; [lia|]. by split; [constructor|].
Qed.

Lemma prompt_run t h : for_each (prompt t) inject_item h = (h ++ prompt t, Ok tt) \/
  exists x h' e, x ∈ prompt t ∧ validate x = None ∧ for_each (prompt t) inject_item h = (h', Raise e).
Proof.
  unfold prompt. set (x1 := Raw _). set (x2 := Raw _). cbn [for_each].
  destruct (validate x1) eqn:E1.
  - assert (H1 : inject_item x1 h = (h ++ [x1], Ok tt)) by (rewrite inject_item_run by done; by rewrite E1).
    rewrite (M_bind_run _ _ _ _ _ H1). destruct (validate x2) eqn:E2.
    + assert (H2 : inject_item x2 (h ++ [x1]) = ((h ++ [x1]) ++ [x2], Ok tt)) by (rewrite inject_item_run by done; by rewrite E2).
      left. rewrite (M_bind_run _ _ _ _ _ H2). by rewrite <- app_assoc.
    + assert (H2 : inject_item x2 (h ++ [x1]) = (h ++ [x1], Raise ValueError)) by (rewrite inject_item_run by done; by rewrite E2).
      right. exists x2. do 2 eexists. split; [set_solver|]. split; [done|]. by rewrite (M_bind_raise _ _ _ _ _ H2).
  - assert (H1 : inject_item x1 h = (h, Raise ValueError)) by (rewrite inject_item_run by done; by rewrite E1).
    right. exists x1. do 2 eexists. split; [set_solver|]. split; [done|]. by rewrite (M_bind_raise _ _ _ _ _ H1).
Qed.

Lemma ended_no_reward t h items b st : ended t h items b st -> st ≠ COMPLETED -> no_reward items.
Proof.
  destruct st; cbn; try done.
  - intros (ms & v & _ & -> & _) _. apply no_reward_raw.
  - by intros [-> _].
Qed.
Lemma submitted_reward t v h items : no_reward h -> submits t v h items ->
  (split_history (h ++ items)).2 = [make_reward (Fin (if equals v (ans t) then 1 else 0)) None []].
Proof.
  intros Hh (ms & pre & c & post & replies & id & _ & Ha & _ & ->). rewrite !app_assoc. apply one_reward.
  apply no_reward_app; [|by eapply no_reward_answers]. apply no_reward_app; [done|apply no_reward_raw].
Qed.

(** C38: a sample of the example task is at most max_rounds turns in which every
    call of the agent is answered in order and with its id, and then its end: the
    value the agent submits brings the only reward, 1 exactly when it equals the
    answer; no call, the limit, an error or a cancellation brings none. *)
Theorem sample_outcome index h r : start_sample index [] = (h, r) ->
  match r with
  | Ok st => exists t n h1 items, at_index (generate_tasks number_of_indices) index = Ok t ∧ (n <= Z.to_nat max_rounds)%nat ∧
      plays n (prompt t) h1 ∧ h = h1 ++ items ∧
      match st with
      | TASK_ERROR | CANCELLED => no_reward h
      | _ => ended t h1 items (bool_decide (n = Z.to_nat max_rounds)) st ∧ (st ≠ COMPLETED -> no_reward h) ∧
             forall v, submits t v h1 items -> (split_history h).2 = [make_reward (Fin (if equals v (ans t) then 1 else 0)) None []]
      end
  | Raise e => is_Exception e = false \/ (exists e', at_index (generate_tasks number_of_indices) index = Raise e') \/
               exists t x, x ∈ prompt t ∧ validate x = None
  end.
Proof.
  intros E. unfold start_sample in E. rewrite bind_lift in E. destruct (at_index _ index) as [t|e] eqn:Ea.
  2:{ injection E as <- <-. right. left. by exists e. }
  destruct (prompt_run t []) as [Hp|(x & h' & e & Hx & Hv & Hp)].
  2:{ rewrite (M_bind_raise _ _ _ _ _ Hp) in E. injection E as <- <-. right. right. by exists t, x. }
  rewrite (M_bind_run _ _ _ _ _ Hp) in E. unfold try_except in E.
  destruct (rounds (Z.to_nat max_rounds) t ([] ++ prompt t)) as [h2 [st|e]] eqn:Er; apply rounds_spec in Er as (n & h1 & items & Hn & Hplays & -> & Hend);
    assert (Hno : no_reward h1) by (by apply (plays_no_reward n (prompt t))).
  - injection E as <- <-. exists t, n, h1, items. split; [done|]. split; [done|]. split; [done|]. split; [done|].
    assert (Hst : ended t h1 items (bool_decide (n = Z.to_nat max_rounds)) st ∧ (st ≠ COMPLETED -> no_reward (h1 ++ items)) ∧
      forall v, submits t v h1 items -> (split_history (h1 ++ items)).2 = [make_reward (Fin (if equals v (ans t) then 1 else 0)) None []]).
    { split; [done|]. split; [|intros v; by apply submitted_reward]. intros Hst. apply no_reward_app; [done|]. by apply (ended_no_reward t h1 items _ st Hend). }
    by destruct st.
  - assert (Hno2 : no_reward (h1 ++ items)) by (by apply no_reward_app).
    destruct e; cbn in E; injection E as <- <-; try (by left); by exists t, n, h1, items.
Qed.
End task.

(** ** Examples *)

Module Examples.
#[local] Open Scope string_scope.

Definition tool_call (id name : string) (arguments : val) : val :=
  VDict [("id", VStr id); ("function", VDict [("name", VStr name); ("arguments", arguments)])].
Definition says (calls : list val) : list val := [VDict [("role", VStr "assistant"); ("tool_calls", VList calls)]].
Definition loads (s : string) : res val :=
  if bool_decide (s = "2,4") then Ok (VDict [("a", VInt 2); ("b", VInt 4)])
  else if bool_decide (s = "6") then Ok (VDict [("result", VFloat (Fin 6))])
  else Raise ValueError.
Definition show (v : val) : string := match v with VInt z => str_Z z | VStr s => s | _ => "?" end.

(** An agent that adds, asks for a tool that is not there, and submits what it got. *)
Definition good (h : list history_item) : res (list val) :=
  match length h with
  | 2%nat => Ok (says [tool_call "x" "add" (VStr "2,4"); tool_call "y" "multiply" (VStr "2,4")])
  | _ => Ok (says [tool_call "z" "submit" (VStr "6")])
  end.
Abbreviation play agent := (start_sample (fun x => Some x) (fun _ => true) agent loads (fun z => Ok (Fin (inject_Z z)))
  (fun x _ => x) (fun x _ => x) show 3 5 (VInt 1) []).

Example good_agent : (play good).2 = Ok COMPLETED ∧
  drop 3 (play good).1 = [tool_message "6" (VStr "x"); tool_message "Unknown function: multiply" (VStr "y");
    Raw (VDict [("role", VStr "assistant"); ("tool_calls", VList [tool_call "z" "submit" (VStr "6")])]);
    RewardObj {| reward := Fin 1; score := None; metrics := [] |}].
Proof. by vm_compute. Qed.

(** A call without arguments is an error of the task, one with bad arguments is not. *)
Example no_arguments : (play (fun _ => Ok (says [tool_call "x" "add" VNone]))).2 = Ok TASK_ERROR ∧
  (play (fun _ => Ok (says [tool_call "x" "add" (VStr "{")]))).2 = Ok TASK_LIMIT_REACHED.
Proof. by vm_compute. Qed.

Example last_sample : at_index (generate_tasks 5) (VInt (-1)) = Ok {| s_a := 5; s_b := 10; op := "-"; ans := -5 |}.
Proof. by vm_compute. Qed.

Lemma sample_outcome_witness : exists t n h1 items, (n <= 3)%nat ∧
  ended good loads (fun z => Ok (Fin (inject_Z z))) (fun x _ => x) (fun x _ => x) show t h1 items (bool_decide (n = 3%nat)) COMPLETED.
Proof.
  destruct (play good) as [h r] eqn:E. pose proof (sample_outcome _ _ _ _ _ _ _ _ _ _ _ _ _ E) as H.
  assert (Hr : r = Ok COMPLETED) by (vm_compute in E; congruence). rewrite Hr in H.
  destruct H as (t & n & h1 & items & _ & Hn & _ & _ & He & _). exists t, n, h1, items. split; [exact Hn|exact He].
Defined.
End Examples.
