(* ===== verification/RWLock.v ===== *)
(** * The reader/writer lock of the inference workers

    Models trainer/utils/aio_rwlock.py ([WriteEnforceRWLock]): a lock whose
    writers cancel the readers.  The internal [asyncio.Lock] is only held
    between suspension points, so each operation, and each resumption of
    [self._cond.wait()], is one step. *)

From S2P Require Import Prelude.

Definition task : Type := nat.

(** A task suspended in [self._cond.wait()]: in [acquire_writer] or in
    [acquire_reader], already notified or not. *)
Record waiter := {
  w_task : task;
  w_writer : bool;
  w_notified : bool
}.

(* trainer/utils/aio_rwlock.py:5-21 WriteEnforceRWLock.__init__ *)
Record rwlock := {
  readers : Z;
  writer_active : bool;
  waiting_writers : Z;
  active_reader_tasks : gset task;
  cond : list waiter;
  (** the tasks inside [async with reader_lock] and [async with writer_lock] *)
  reading : gset task;
  writing : gset task;
  (** the tasks [acquire_writer] has called [cancel] on *)
  cancelled : gset task
}.

Definition new_lock : rwlock := {|
  readers := 0; writer_active := false; waiting_writers := 0;
  active_reader_tasks := ∅; cond := []; reading := ∅; writing := ∅; cancelled := ∅
|}.

Definition set_cond (c : list waiter) (s : rwlock) : rwlock := {|
  readers := readers s; writer_active := writer_active s;
  waiting_writers := waiting_writers s; active_reader_tasks := active_reader_tasks s;
  cond := c; reading := reading s; writing := writing s; cancelled := cancelled s |}.
Definition set_waiting (n : Z) (s : rwlock) : rwlock := {|
  readers := readers s; writer_active := writer_active s; waiting_writers := n;
  active_reader_tasks := active_reader_tasks s; cond := cond s;
  reading := reading s; writing := writing s; cancelled := cancelled s |}.

Definition wake (w : waiter) : waiter :=
  {| w_task := w_task w; w_writer := w_writer w; w_notified := true |}.
Definition notify_all (s : rwlock) : rwlock := set_cond (wake <$> cond s) s.
(** [notify(1)]: the first waiter that has not been notified. *)
Fixpoint notify_one (l : list waiter) : list waiter :=
  match l with
  | [] => []
  | w :: l' => if w_notified w then w :: notify_one l' else wake w :: l'
  end.

Definition wait (t : task) (writer : bool) (s : rwlock) : rwlock :=
  set_cond (cond s ++ [{| w_task := t; w_writer := writer; w_notified := false |}]) s.

(** The test of the loop and what follows it. *)
(* trainer/utils/aio_rwlock.py:49-52 WriteEnforceRWLock.acquire_reader *)
Definition reader_loop (t : task) (s : rwlock) : rwlock :=
  if writer_active s || bool_decide (0 < waiting_writers s) then wait t false s
  else {| readers := readers s + 1; writer_active := writer_active s;
          waiting_writers := waiting_writers s;
          active_reader_tasks := {[t]} ∪ active_reader_tasks s; cond := cond s;
          reading := {[t]} ∪ reading s; writing := writing s; cancelled := cancelled s |}.

(* trainer/utils/aio_rwlock.py:45-52 WriteEnforceRWLock.acquire_reader *)
Definition acquire_reader (t : task) (s : rwlock) : rwlock := reader_loop t s.

(* trainer/utils/aio_rwlock.py:54-61 WriteEnforceRWLock.release_reader *)
Definition release_reader (t : task) (s : rwlock) : rwlock :=
  let s := {| readers := readers s - 1; writer_active := writer_active s;
              waiting_writers := waiting_writers s;
              active_reader_tasks := active_reader_tasks s ∖ {[t]}; cond := cond s;
              reading := reading s ∖ {[t]}; writing := writing s;
              cancelled := cancelled s |} in
  if bool_decide (readers s = 0) then notify_all s else s.

(* trainer/utils/aio_rwlock.py:72-78 WriteEnforceRWLock.acquire_writer *)
Definition writer_loop (t : task) (s : rwlock) : rwlock :=
  if writer_active s || bool_decide (0 < readers s) then wait t true s
  else {| readers := readers s; writer_active := true;
          waiting_writers := waiting_writers s - 1;
          active_reader_tasks := active_reader_tasks s; cond := cond s;
          reading := reading s; writing := {[t]} ∪ writing s; cancelled := cancelled s |}.

(** [t.cancel()] for every task of [_active_reader_tasks]: none is done, they
    are inside their [async with]. *)
(* trainer/utils/aio_rwlock.py:68-71 WriteEnforceRWLock.acquire_writer *)
Definition cancel_readers (s : rwlock) : rwlock := {|
  readers := readers s; writer_active := writer_active s;
  waiting_writers := waiting_writers s;
  active_reader_tasks := active_reader_tasks s; cond := cond s;
  reading := reading s; writing := writing s;
  cancelled := active_reader_tasks s ∪ cancelled s |}.

(* trainer/utils/aio_rwlock.py:63-78 WriteEnforceRWLock.acquire_writer *)
Definition acquire_writer (t : task) (s : rwlock) : rwlock :=
  let s := cancel_readers s in
  writer_loop t (set_waiting (waiting_writers s + 1) s).

(* trainer/utils/aio_rwlock.py:80-84 WriteEnforceRWLock.release_writer *)
Definition release_writer (t : task) (s : rwlock) : rwlock :=
  notify_all
    {| readers := readers s; writer_active := false;
       waiting_writers := waiting_writers s;
       active_reader_tasks := active_reader_tasks s; cond := cond s;
       reading := reading s; writing := writing s ∖ {[t]}; cancelled := cancelled s |}.

Definition waiting_on (t : task) (s : rwlock) : option waiter :=
  snd <$> list_find (fun w => w_task w = t) (cond s).
Definition remove_waiter (t : task) (s : rwlock) : rwlock :=
  set_cond (filter (fun w => w_task w ≠ t) (cond s)) s.
Definition busy (t : task) (s : rwlock) : bool :=
  bool_decide (t ∈ reading s) || bool_decide (t ∈ writing s) ||
  bool_decide (t ∈ (w_task <$> cond s)).

Inductive event : Type :=
| AcquireReader (t : task)
| ReleaseReader (t : task)
| AcquireWriter (t : task)
| ReleaseWriter (t : task)
(** a notified waiter is resumed *)
| Resume (t : task)
(** a waiter is cancelled inside [self._cond.wait()] *)
| CancelWait (t : task).

Section lock.
(** Whether [Condition.wait] passes a notification on to another waiter when
    it raises: Python does since 3.13. *)
Context (pass_on : bool).

(* trainer/utils/aio_rwlock.py:47-78 WriteEnforceRWLock.acquire_writer *)
Definition resume (t : task) (s : rwlock) : rwlock :=
  match waiting_on t s with
  | Some w =>
      if w_notified w then
        (if w_writer w then writer_loop t else reader_loop t) (remove_waiter t s)
      else s
  | None => s
  end.

(** The [CancelledError] leaves [wait], hence [acquire_reader] or
    [acquire_writer], whose [finally] runs. *)
(* trainer/utils/aio_rwlock.py:73-78 WriteEnforceRWLock.acquire_writer *)
Definition cancel_wait (t : task) (s : rwlock) : rwlock :=
  match waiting_on t s with
  | Some w =>
      let s := remove_waiter t s in
      let s := if pass_on then set_cond (notify_one (cond s)) s else s in
      if w_writer w then set_waiting (waiting_writers s - 1) s else s
  | None => s
  end.

(** A task does one thing at a time. *)
(* trainer/utils/aio_rwlock.py:87-108 _ReaderLock, _WriterLock *)
Definition step (s : rwlock) (e : event) : rwlock :=
  match e with
  | AcquireReader t => if busy t s then s else acquire_reader t s
  | AcquireWriter t => if busy t s then s else acquire_writer t s
  | ReleaseReader t => if bool_decide (t ∈ reading s) then release_reader t s else s
  | ReleaseWriter t => if bool_decide (t ∈ writing s) then release_writer t s else s
  | Resume t => resume t s
  | CancelWait t => cancel_wait t s
  end.

(** ** The invariant *)

Definition writers_in (l : list waiter) : Z := Z.of_nat (length (filter (fun w => w_writer w = true) l)).

Record ok (s : rwlock) : Prop := {
  ok_readers : readers s = Z.of_nat (size (reading s));
  ok_tasks : active_reader_tasks s = reading s;
  ok_waiting : waiting_writers s = writers_in (cond s);
  ok_writer : writer_active s = bool_decide (writing s ≠ ∅);
  ok_single : (size (writing s) <= 1)%nat;
  ok_mutex : writing s = ∅ ∨ reading s = ∅;
  ok_nodup : NoDup (w_task <$> cond s);
  ok_apart : forall t, t ∈ (w_task <$> cond s) -> t ∉ reading s ∧ t ∉ writing s
}.

Definition held (s : rwlock) : bool := writer_active s || bool_decide (0 < readers s).

(** With nobody inside, whoever waits as a writer has been notified, and
    somebody has. *)
Definition progress (s : rwlock) : Prop :=
  held s = false ->
  Forall (fun w => w_writer w = true -> w_notified w = true) (cond s) ∧
  (cond s = [] ∨ Exists (fun w => w_notified w = true) (cond s)).

Lemma writers_in_app l1 l2 : writers_in (l1 ++ l2) = writers_in l1 + writers_in l2.
Proof. unfold writers_in. rewrite filter_app, length_app. lia. Qed.

Lemma filter_id (P : waiter -> Prop) `{forall x, Decision (P x)} (l : list waiter) :
  (forall x, x ∈ l -> P x) -> filter P l = l.
Proof.
  induction l as [|x l IH]; intros Hl; [done|].
  rewrite filter_cons_True by (apply Hl; left). f_equal. apply IH. intros. apply Hl. by right.
Qed.

Lemma wake_writers l : writers_in (wake <$> l) = writers_in l.
Proof.
  unfold writers_in. induction l as [|w l IH]; [done|].
  rewrite fmap_cons, !filter_cons. simpl. case_decide; simpl; lia.
Qed.

Lemma wake_tasks (l : list waiter) : w_task <$> (wake <$> l) = w_task <$> l.
Proof. by rewrite <- list_fmap_compose. Qed.

Lemma notify_one_tasks (l : list waiter) : w_task <$> notify_one l = w_task <$> l.
Proof. induction l as [|w l IH]; [done|]. simpl.
  destruct (w_notified w); rewrite !fmap_cons, ?IH; done. Qed.

Lemma notify_one_writers l : writers_in (notify_one l) = writers_in l.
Proof.
  unfold writers_in. induction l as [|w l IH]; [done|]. simpl.
  destruct (w_notified w); rewrite !filter_cons; simpl; case_decide; simpl; lia.
Qed.

(** Taking a waiter out of the queue. *)
Lemma waiting_on_spec t s w :
  NoDup (w_task <$> cond s) -> waiting_on t s = Some w ->
  exists l1 l2, cond s = l1 ++ w :: l2 ∧ w_task w = t ∧
    cond (remove_waiter t s) = l1 ++ l2 ∧
    NoDup (w_task <$> l1 ++ l2) ∧ t ∉ (w_task <$> l1 ++ l2) ∧
    writers_in (cond s) = writers_in (l1 ++ l2) + (if w_writer w then 1 else 0).
Proof.
  unfold waiting_on. intros Hnd ([i w1] & Hf & Heq)%fmap_Some. simpl in Heq. subst w1.
  apply list_find_Some in Hf as (Hi & Ht & _). apply list_elem_of_split_length in Hi
    as (l1 & l2 & Hl & _).
  exists l1, l2. rewrite Hl in *. rewrite fmap_app, fmap_cons in Hnd.
  assert (w_task <$> l1 ++ w :: l2 ≡ₚ w_task w :: (w_task <$> l1 ++ l2)) as Hperm
    by (rewrite !fmap_app, fmap_cons; by rewrite Permutation_middle).
  rewrite fmap_app, fmap_cons in Hperm. rewrite Hperm, Ht in Hnd.
  apply NoDup_cons in Hnd as [Hni Hnd].
  split_and!; [done|done| |done|done|].
  - simpl. rewrite Hl, filter_app, filter_cons_False by (by intros ?).
    rewrite fmap_app, not_elem_of_app in Hni. destruct Hni as [H1 H2].
    f_equal; apply filter_id; intros x Hx <-;
      [apply H1|apply H2]; by apply list_elem_of_fmap_2.
  - rewrite !writers_in_app. unfold writers_in. rewrite filter_cons.
    destruct (w_writer w); case_decide; try done; simpl; lia.
Qed.

(** The operations, from a state in which the task waits for nothing and holds
    nothing. *)
Definition free (t : task) (s : rwlock) : Prop :=
  t ∉ reading s ∧ t ∉ writing s ∧ t ∉ (w_task <$> cond s).

Lemma ok_wait t (b : bool) s :
  ok s -> free t s -> ok (set_waiting (waiting_writers s + (if b then 1 else 0)) (wait t b s)).
Proof.
  intros [] (H1 & H2 & H3). split; simpl; auto.
  - rewrite writers_in_app. unfold writers_in at 2. rewrite filter_cons.
    destruct b; simpl; lia.
  - rewrite fmap_app. apply NoDup_app. split_and!; [done| |apply NoDup_singleton].
    intros x Hx ->%list_elem_of_singleton. done.
  - intros x. rewrite fmap_app, elem_of_app. intros [?| ->%list_elem_of_singleton]; auto.
Qed.

Lemma ok_notify_all s : ok s -> ok (notify_all s).
Proof.
  intros []. split; simpl; auto.
  - by rewrite wake_writers.
  - by rewrite wake_tasks.
  - intros x. rewrite wake_tasks. auto.
Qed.

Lemma size_union_new (t : task) (X : gset task) : t ∉ X -> size ({[t]} ∪ X) = S (size X).
Proof. intros. rewrite size_union, size_singleton by set_solver. lia. Qed.
Lemma size_diff_in (t : task) (X : gset task) : t ∈ X -> size X = S (size (X ∖ {[t]})).
Proof. intros. rewrite <- (size_union_new t) by set_solver. f_equal. by apply leibniz_equiv, union_difference_singleton. Qed.

Lemma ok_reader_loop t s : ok s -> free t s -> ok (reader_loop t s).
Proof.
  intros Hok Hf. unfold reader_loop. destruct (_ || _) eqn:E.
  - pose proof (ok_wait t false s Hok Hf) as H. rewrite Z.add_0_r in H.
    unfold set_waiting, wait in *. by destruct s.
  - apply orb_false_iff in E as [E _]. destruct Hok as [? Ht ? Hw ? ? ? Ha], Hf as (?&?&?).
    assert (writing s = ∅) as Hnone.
    { rewrite Hw in E. apply bool_decide_eq_false in E. by apply dec_stable. }
    split; simpl; auto.
    + rewrite size_union_new by done. lia.
    + by rewrite Ht.
    + intros x Hx. specialize (Ha x Hx). set_solver.
Qed.

Lemma ok_writer_loop t s :
  ok s -> free t s -> ok (writer_loop t (set_waiting (waiting_writers s + 1) s)).
Proof.
  intros Hok Hf. unfold writer_loop. simpl. destruct (_ || _) eqn:E.
  - exact (ok_wait t true s Hok Hf).
  - apply orb_false_iff in E as [E1 E2]. apply bool_decide_eq_false in E2.
    destruct Hok as [Hr Ht ? Hw ? ? ? Ha], Hf as (?&?&?).
    assert (writing s = ∅) as Hnone.
    { rewrite Hw in E1. apply bool_decide_eq_false in E1. by apply dec_stable. }
    assert (reading s = ∅) as Hrnone by (apply leibniz_equiv, size_empty_inv; lia).
    split; simpl; auto.
    + lia.
    + rewrite Hnone, bool_decide_eq_true_2; [done|]. set_solver.
    + rewrite Hnone. replace ({[t]} ∪ ∅ : gset task) with ({[t]} : gset task) by set_solver.
      rewrite size_singleton. lia.
    + intros x Hx. specialize (Ha x Hx). set_solver.
Qed.

Lemma ok_remove t s w :
  ok s -> waiting_on t s = Some w ->
  ok (set_waiting (waiting_writers s - if w_writer w then 1 else 0) (remove_waiter t s)) ∧
  free t (remove_waiter t s).
Proof.
  intros [] Hw. destruct (waiting_on_spec t s w ok_nodup0 Hw)
    as (l1 & l2 & Hl & Ht & Hr & Hnd & Hni & Hwr).
  assert (t ∈ (w_task <$> cond s)) as Hin
    by (rewrite Hl, fmap_app, fmap_cons, Ht; set_solver).
  split.
  - split; simpl; auto; fold (cond (remove_waiter t s)).
    + simpl in Hr. rewrite Hr. lia.
    + simpl in Hr. by rewrite Hr.
    + simpl in Hr. rewrite Hr. intros x Hx. apply ok_apart0.
      rewrite Hl. rewrite fmap_app, fmap_cons in *. set_solver.
  - simpl in Hr. split_and!; simpl; [by apply ok_apart0..|]. by rewrite Hr.
Qed.

Lemma set_waiting_id s : set_waiting (waiting_writers s) s = s.
Proof. by destruct s. Qed.

Lemma step_ok s e : ok s -> ok (step s e).
Proof.
  intros Hok. destruct e as [t|t|t|t|t|t]; simpl.
  - destruct (busy t s) eqn:E; [done|]. apply ok_reader_loop; [done|].
    unfold busy in E. rewrite !orb_false_iff, !bool_decide_eq_false in E. by destruct E as [[] ].
  - case_bool_decide; [|done]. unfold release_reader.
    assert (ok {| readers := readers s - 1; writer_active := writer_active s;
              waiting_writers := waiting_writers s;
              active_reader_tasks := active_reader_tasks s ∖ {[t]}; cond := cond s;
              reading := reading s ∖ {[t]}; writing := writing s;
              cancelled := cancelled s |}).
    { destruct Hok. split; simpl; auto.
      - rewrite ok_readers0, (size_diff_in t) by done. lia.
      - by rewrite ok_tasks0.
      - destruct ok_mutex0 as [?|Hnone]; [by left|right; set_solver].
      - intros x Hx. specialize (ok_apart0 x Hx). set_solver. }
    case_bool_decide; [by apply ok_notify_all|done].
  - destruct (busy t s) eqn:E; [done|]. unfold acquire_writer.
    unfold busy in E. rewrite !orb_false_iff, !bool_decide_eq_false in E.
    destruct E as [[] ].
    apply ok_writer_loop; [|done].
    destruct Hok. by split.
  - case_bool_decide; [|done]. apply ok_notify_all. destruct Hok.
    assert (writing s ∖ {[t]} = ∅) as Hnone.
    { apply leibniz_equiv, size_empty_inv. rewrite (size_diff_in t) in ok_single0 by done. lia. }
    split; simpl; auto.
    + rewrite Hnone, bool_decide_eq_false_2; [done|]. intros Hn. by apply Hn.
    + rewrite Hnone, size_empty. lia.
    + intros x Hx. specialize (ok_apart0 x Hx). set_solver.
  - unfold resume. destruct (waiting_on t s) as [w|] eqn:E; [|done].
    destruct (w_notified w); [|done]. destruct (ok_remove t s w Hok E) as [H1 H2].
    destruct (w_writer w).
    + pose proof (ok_writer_loop t _ H1 H2) as H. simpl in H.
      by replace (waiting_writers s - 1 + 1) with (waiting_writers s) in H by lia.
    + apply ok_reader_loop; [|done]. by rewrite Z.sub_0_r in H1.
  - unfold cancel_wait. destruct (waiting_on t s) as [w|] eqn:E; [|done].
    destruct (ok_remove t s w Hok E) as [H1 _].
    assert (ok (set_waiting (waiting_writers s - if w_writer w then 1 else 0)
      (if pass_on then set_cond (notify_one (cond (remove_waiter t s))) (remove_waiter t s)
       else remove_waiter t s))) as H2.
    { destruct pass_on; [|done]. destruct H1. simpl in *. split; simpl; auto.
      - by rewrite notify_one_writers.
      - by rewrite notify_one_tasks.
      - intros x. rewrite notify_one_tasks. auto. }
    destruct pass_on, (w_writer w); simpl in *; rewrite ?Z.sub_0_r in H2; exact H2.
Qed.

(** ** Progress *)

Definition all_writers_notified (l : list waiter) : Prop :=
  Forall (fun w => w_writer w = true -> w_notified w = true) l.
Definition someone_notified (l : list waiter) : Prop :=
  l = [] ∨ Exists (fun w => w_notified w = true) l.

Lemma wake_progress l : all_writers_notified (wake <$> l) ∧ someone_notified (wake <$> l).
Proof.
  split; [by apply Forall_fmap, Forall_true|].
  destruct l; [by left|right]. by constructor.
Qed.

Lemma notify_one_progress l :
  (all_writers_notified l -> all_writers_notified (notify_one l)) ∧
  someone_notified (notify_one l).
Proof.
  induction l as [|w l [IH1 IH2]]; [by split; [|left]|]. simpl. split.
  - intros [Hw Hl]%Forall_cons.
    destruct (w_notified w) eqn:E; constructor; [done|by apply IH1|done|done].
  - destruct (w_notified w) eqn:E; right; by constructor.
Qed.

Lemma writers_in_notified l :
  0 < writers_in l -> all_writers_notified l -> Exists (fun w => w_notified w = true) l.
Proof.
  unfold writers_in, all_writers_notified. induction l as [|w l IH]; [done|].
  rewrite filter_cons. intros Hn [Hw Hl]%Forall_cons.
  case_decide; [left; auto|right; auto].
Qed.

Lemma held_progress s : held s = true -> progress s.
Proof. unfold progress. congruence. Qed.

Lemma notify_all_progress s : progress (notify_all s).
Proof. intros _. apply wake_progress. Qed.

(** A reader at its test, when nobody inside means every queued writer is
    notified. *)
Lemma reader_loop_progress t s :
  0 <= readers s -> waiting_writers s = writers_in (cond s) ->
  (held s = false -> all_writers_notified (cond s)) -> progress (reader_loop t s).
Proof.
  intros Hr Hww Hw. unfold reader_loop.
  destruct (writer_active s || bool_decide (0 < waiting_writers s)) eqn:E.
  - intros Hh. specialize (Hw Hh). simpl.
    apply orb_false_iff in Hh as [Ha _]. simpl in Ha. rewrite Ha in E.
    apply bool_decide_eq_true in E.
    split; [apply Forall_app; split; [done|by constructor]|].
    right. apply Exists_app. left. apply writers_in_notified; [lia|done].
  - apply held_progress. unfold held. simpl. rewrite bool_decide_eq_true_2 by lia. apply orb_true_r.
Qed.

Lemma writer_loop_progress t s : progress (writer_loop t s).
Proof.
  unfold writer_loop. apply held_progress.
  destruct (writer_active s || bool_decide (0 < readers s)) eqn:E; exact E || done.
Qed.

Lemma progress_next s e : pass_on = true -> ok s -> progress s -> progress (step s e).
Proof.
  intros Hpass Hok Hp. pose proof Hok as [Hr _ Hww _ _ _ Hnd _].
  destruct e as [t|t|t|t|t|t]; simpl.
  - destruct (busy t s); [done|]. apply reader_loop_progress; [lia|done|]. intros Hh. by apply Hp.
  - case_bool_decide; [|done]. unfold release_reader.
    case_bool_decide as Hz; [by apply notify_all_progress|]. simpl in Hz.
    apply held_progress. unfold held. simpl. apply orb_true_iff. right.
    apply bool_decide_eq_true. rewrite (size_diff_in t) in Hr by done. lia.
  - destruct (busy t s); [done|]. apply writer_loop_progress.
  - case_bool_decide; [|done]. apply notify_all_progress.
  - unfold resume. destruct (waiting_on t s) as [w|] eqn:Ew; [|done].
    destruct (w_notified w); [|done].
    destruct (w_writer w) eqn:Eww; [apply writer_loop_progress|].
    destruct (waiting_on_spec t s w Hnd Ew) as (l1 & l2 & Hl & _ & Hrem & _ & _ & Hwi).
    rewrite Eww in Hwi. apply reader_loop_progress; [simpl; lia| |].
    + rewrite Hrem. simpl. lia.
    + intros Hh. destruct (Hp Hh) as [Hall _]. rewrite Hl in Hall. rewrite Hrem.
      apply Forall_app in Hall as [? [_ ?]%Forall_cons]. by apply Forall_app.
  - unfold cancel_wait. rewrite Hpass. destruct (waiting_on t s) as [w|] eqn:Ew; [|done].
    destruct (waiting_on_spec t s w Hnd Ew) as (l1 & l2 & Hl & _ & Hrem & _).
    assert (progress (set_cond (notify_one (cond (remove_waiter t s))) (remove_waiter t s))) as H.
    { intros Hh. destruct (Hp Hh) as [Hall _]. rewrite Hrem. simpl.
      split; [|apply notify_one_progress]. apply notify_one_progress.
      rewrite Hl in Hall. apply Forall_app in Hall as [? [_ ?]%Forall_cons]. by apply Forall_app. }
    by destruct (w_writer w).
Qed.

(** ** Theorems *)
Abbreviation runs := (run step new_lock).

Lemma ok_new : ok new_lock.
Proof.
  split; simpl; try (vm_compute; reflexivity);
    [vm_compute; lia|by left|constructor|intros t Ht; by inversion Ht].
Qed.

Lemma ok_run l : ok (runs l).
Proof. apply run_invariant; [apply ok_new|]. intros; by apply step_ok. Qed.

(** C18: in every interleaving of acquisitions, releases, wake-ups and cancellations
    at most one writer holds the lock and never together with a reader, and the
    counters are exactly the readers inside and the writers waiting. *)
Theorem mutual_exclusion (l : list event) :
  let s := runs l in
  readers s = Z.of_nat (size (reading s)) ∧
  waiting_writers s = writers_in (cond s) ∧
  (writer_active s = true <-> writing s ≠ ∅) ∧
  (size (writing s) <= 1)%nat ∧
  (writing s ≠ ∅ -> reading s = ∅ ∧ readers s = 0).
Proof.
  destruct (ok_run l) as [Hr _ Hw Ha H1 Hm _ _]. simpl. split_and!; [done|done| |done|].
  - rewrite Ha. apply bool_decide_eq_true.
  - intros Hne. destruct Hm as [?|He]; [done|]. by rewrite Hr, He.
Qed.

(** While a writer waits no task becomes a reader, and the arrival of a writer
    cancels every reader inside. *)
Theorem writer_preference (l : list event) (e : event) :
  let s := runs l in
  0 < waiting_writers s ->
  reading (step s e) ⊆ reading s ∧
  match e with
  | AcquireWriter t => busy t s = false -> reading s ⊆ cancelled (step s e)
  | _ => True
  end.
Proof.
  pose proof (ok_run l) as Hok. set (s := runs l) in *. simpl. intros Hw.
  assert (forall t s', waiting_writers s' = waiting_writers s -> reading s' = reading s ->
            reading (reader_loop t s') = reading s) as Hrl.
  { intros t s' H1 H2. unfold reader_loop. rewrite H1, bool_decide_eq_true_2 by done.
    by rewrite orb_true_r. }
  assert (forall t s', reading (writer_loop t s') = reading s') as Hwl.
  { intros t s'. unfold writer_loop. by destruct (_ || _). }
  destruct e as [t|t|t|t|t|t]; simpl; (split; [|try done]).
  - destruct (busy t s); [done|]. unfold acquire_reader. by rewrite Hrl.
  - case_bool_decide; [|done]. unfold release_reader. case_bool_decide; simpl; set_solver.
  - destruct (busy t s); [done|]. unfold acquire_writer. by rewrite Hwl.
  - intros ->. unfold acquire_writer, writer_loop. rewrite <- (ok_tasks _ Hok).
    destruct (_ || _); simpl; set_solver.
  - by case_bool_decide.
  - unfold resume. destruct (waiting_on t s) as [w|]; [|done].
    destruct (w_notified w); [|done]. destruct (w_writer w); [by rewrite Hwl|by rewrite Hrl].
  - unfold cancel_wait. destruct (waiting_on t s) as [w|]; [|done].
    by destruct pass_on, (w_writer w).
Qed.

(** Where a cancelled waiter passes its notification on (Python 3.13 and
    later), a free lock with waiters always has a notified waiter that can take it. *)
Theorem no_lost_wakeup (l : list event) :
  pass_on = true ->
  let s := runs l in
  held s = false -> cond s ≠ [] ->
  exists w, w ∈ cond s ∧ w_notified w = true ∧
    (w_writer w = false -> waiting_writers s = 0 \/
       exists w', w' ∈ cond s ∧ w_writer w' = true ∧ w_notified w' = true).
Proof.
  intros Hpass s Hh Hne.
  assert (ok s ∧ progress s) as [Hok Hp].
  { apply run_invariant; [split; [apply ok_new|by intros _; split; [constructor|left]]|].
    intros s1 e [H1 H2]. split; [by apply step_ok|by apply progress_next]. }
  destruct (Hp Hh) as [Hall [?|Hex]]; [done|].
  apply Exists_exists in Hex as (w & Hin & Hn). exists w. split_and!; [done|done|].
  intros _. rewrite (ok_waiting _ Hok). unfold writers_in.
  destruct (filter (fun w => w_writer w = true) (cond s)) as [|w' l'] eqn:Ef; [by left|right].
  assert (w' ∈ filter (fun w => w_writer w = true) (cond s)) as [Hw' Hin']%list_elem_of_filter
    by (rewrite Ef; left).
  exists w'. split_and!; [done|done|]. eapply Forall_forall in Hall; eauto.
Qed.
End lock.

(** ** A lost wake-up *)

(** Without passing notifications on: writer 0 is inside, reader 1 and writer 2
    wait; at the release reader 1 is resumed first and waits again because of
    writer 2, which is then cancelled. *)
Definition lost_wakeup : list event :=
  [AcquireWriter 0; AcquireReader 1; AcquireWriter 2; ReleaseWriter 0; Resume 1;
   CancelWait 2]%nat.

(** Where it does not (earlier Pythons), cancelling a notified writer leaves
    the lock free with a reader waiting that nothing wakes. *)
Theorem lost_wakeup_deadlock :
  let s := run (step false) new_lock lost_wakeup in
  held s = false ∧ waiting_writers s = 0 ∧
  cond s = [{| w_task := 1%nat; w_writer := false; w_notified := false |}] ∧
  step false s (Resume 1%nat) = s.
Proof. vm_compute. auto. Qed.

Lemma writer_preference_witness :
  reading (step true (run (step true) new_lock
    [AcquireReader 1; AcquireWriter 2]%nat) (AcquireReader 3%nat)) ⊆ {[1%nat]}.
Proof.
  refine (proj1 (writer_preference true [AcquireReader 1; AcquireWriter 2]%nat
    (AcquireReader 3%nat) _)).
  vm_compute. reflexivity.
Defined.

Lemma no_lost_wakeup_witness :
  exists w, w ∈ cond (run (step true) new_lock lost_wakeup) ∧ w_notified w = true.
Proof.
  destruct (no_lost_wakeup true lost_wakeup eq_refl) as (w & H1 & H2 & _);
    [reflexivity|vm_compute; discriminate|].
  exists w. split; [exact H1|exact H2].
Defined.
