(* ===== verification/Workers.v ===== *)
(** * The workers of the trainer

    Models trainer/workers: the plugins of a worker and the handle that passes calls
    to all workers or to one (abstract.py, collective_handle.py), and the inference
    worker (async_sglang_worker.py), whose generations and parameter updates share
    the lock of RWLock.  The calls that ray delivers are a list; what sglang answers
    is an event. *)

From S2P Require Import Prelude PyVal RWLock.

(** ** Plugins *)

Section plugins.
Context {P A : Type}.
(** The methods of a plugin; those that are coroutines are run to their end. *)
Context (method : P -> string -> option (res A)).

(** The plugins of all workers of a process: the dictionary is an attribute of the
    class. *)
Abbreviation plugins := (list (string * P)).

(* trainer/workers/abstract.py:28-30 BaseWorker.register_plugin *)
Definition register_plugin (name : string) (plugin_cls : res P) : M plugins unit :=
  plugin ← lift_res plugin_cls; modify (dset name plugin).

(* trainer/workers/abstract.py:32-36 BaseWorker.call_plugin *)
Definition call_plugin (name meth : string) : M plugins A :=
  plugin ← gets (dget name);
  match plugin with
  | None => raise AttributeError
  | Some plugin => match method plugin meth with Some r => lift_res r | None => raise AttributeError end
  end.

(* trainer/workers/abstract.py:68-72 AsyncBaseWorker.async_call_plugin *)
Definition async_call_plugin (name meth : string) : M plugins A :=
  plugin ← gets (dget name);
  match plugin with
  | None => raise AttributeError
  | Some plugin => match method plugin meth with Some r => lift_res r | None => raise AttributeError end
  end.
End plugins.

(** ** Handles *)

Section handles.
Context {Arg : Type}.

(** The calls made to the workers: which worker, which method, with what. *)
Abbreviation calls := (list (nat * string * Arg)).

(** The target is all workers, or some, or one. *)
Inductive target : Type := Many (l : list nat) | One (w : nat).
(** What a call gives: references to results, which are places in the list of calls. *)
Inductive refs : Type := RefList (l : list nat) | Ref (n : nat).

Record handle := { workers : list nat; h_world_size : nat; dispatch_target : target }.

Definition remote (w : nat) (item : string) (args : Arg) : M calls nat :=
  fun l => (l ++ [(w, item, args)], Ok (length l)).

(* trainer/workers/collective_handle.py:53-62 CollectiveHandle.__getattribute__ *)
Definition wrapped_func (h : handle) (item : string) (args : Arg) : M calls refs :=
  match dispatch_target h with
  | Many l => r ← map_m (fun w => remote w item args) l; mret (RefList r)
  | One w => r ← remote w item args; mret (Ref r)
  end.

(** The names that are not passed on. *)
Definition own_names : list string :=
  ["workers"; "world_size"; "dispatch_target"; "dispatch_rank0"; "dispatch_rank"].
(* trainer/workers/collective_handle.py:50-52 CollectiveHandle.__getattribute__ *)
Definition passed_on (item : string) : bool := negb (starts_with "_" item || bool_decide (item ∈ own_names)).

(** A rank or a list of ranks. *)
Definition out_of_range (rank : Z) (h : handle) : bool :=
  bool_decide (rank < 0) || bool_decide (Z.of_nat (length (workers h)) <= rank).

(** Comparing a list with a number raises [TypeError]. *)
(* trainer/workers/collective_handle.py:67-75 CollectiveHandle.dispatch_rank *)
Definition dispatch_rank (rank : Z + list Z) (h : handle) : res handle :=
  match rank with
  | inr _ => Raise TypeError
  | inl rank =>
      if out_of_range rank h then Raise IndexError
      else match workers h !! Z.to_nat rank with
           | Some w => Ok {| workers := workers h; h_world_size := h_world_size h; dispatch_target := One w |}
           | None => Raise IndexError
           end
  end.

(* trainer/workers/collective_handle.py:64-65 CollectiveHandle.dispatch_rank0 *)
Definition dispatch_rank0 (h : handle) : res handle := dispatch_rank (inl 0) h.

(* trainer/utils/utils.py:78-82 is_async_cls *)
Definition is_async_cls (members : list (string * bool)) : bool := existsb snd members.

(** [bundles] is the size of the placement, [members] the methods of the class and whether
    they are coroutines; the workers are numbered from [fresh].  Gives the handle and
    how many calls a worker runs at a time. *)
(* trainer/workers/collective_handle.py:20-48 CollectiveHandle.__init__ *)
Definition new_handle (members : list (string * bool)) (based_on_async : bool) (bundles fresh : nat)
    (no_args : Arg) (address : Arg) : M calls (handle * Z) :=
  (if is_async_cls members && negb based_on_async then raise AssertionError else mret tt);;
  let concurrency := if is_async_cls members then 16384 else 1 in
  let workers := seq fresh bundles in
  let h := {| workers := workers; h_world_size := bundles; dispatch_target := Many workers |} in
  first ← lift_res (match workers with w :: _ => Ok w | [] => Raise IndexError end);
  remote first "get_addr_and_port" no_args;;
  wrapped_func h "init_distributed" address;;
  mret (h, concurrency).

(** ** Proofs: who is called *)

(** A call to many reaches each of them once, in order. *)
Lemma remote_all l item args (s : calls) : map_m (fun w => remote w item args) l s =
  (s ++ ((fun w => (w, item, args)) <$> l), Ok (seq (length s) (length l))).
Proof.
  revert s. induction l as [|w l IH]; intros s; simpl; [by rewrite app_nil_r|].
  unfold mbind at 1, M_bind at 1, remote at 1. erewrite M_bind_run by apply IH. unfold mret, M_ret. rewrite length_app. simpl.
  by rewrite Nat.add_1_r, <- app_assoc.
Qed.

(** A rank in range gets the call alone; the handle itself still reaches everybody. *)
Lemma dispatch_one h rank item args (s : calls) : 0 <= rank < Z.of_nat (length (workers h)) ->
  exists h' w, dispatch_rank (inl rank) h = Ok h' ∧ workers h !! Z.to_nat rank = Some w ∧
    wrapped_func h' item args s = (s ++ [(w, item, args)], Ok (Ref (length s))) ∧
    wrapped_func {| workers := workers h; h_world_size := h_world_size h; dispatch_target := Many (workers h) |} item args s =
      (s ++ ((fun w => (w, item, args)) <$> workers h), Ok (RefList (seq (length s) (length (workers h))))).
Proof.
  intros Hr. destruct (lookup_lt_is_Some_2 (workers h) (Z.to_nat rank)) as [w Hw]; [lia|].
  eexists _, w. split; [|split; [exact Hw|split]].
  - unfold dispatch_rank, out_of_range. rewrite !bool_decide_false by lia. by rewrite Hw.
  - done.
  - unfold wrapped_func. cbn [dispatch_target]. by erewrite M_bind_run by apply remote_all.
Qed.
End handles.

(** ** The inference worker *)

(** The sampling parameters of the worker, set up from its options, and of one call. *)
(* trainer/workers/async_sglang_worker.py:29-32 AsyncSglangWorker.__init__ *)
Definition base_sampling_params (config : list (string * val)) : list (string * val) :=
  dupdate config [("skip_special_tokens", VBool false)].
(* trainer/workers/async_sglang_worker.py:51-53 AsyncSglangWorker.generate *)
Definition sampling_params (base kwargs : list (string * val)) : list (string * val) := dupdate base kwargs.

Section engine.
(** What a generation gives. *)
Context {Out : Type}.
Context (pass_on forget_lock : bool).

(** Where a task is: a generation waits for the lock, runs in the engine, or is over;
    an update waits for the lock, flushes the cache, transfers parameters, or is over.
    An update that fails keeps the lock unless it was waiting for it. *)
Inductive phase : Type :=
| GWait
| GRun
| GDone (o : Out)
| GFailed (e : exn)
| RWait
| RFlush
| RUpdate
| RDone
| RFailed (e : exn)
| RCancelled.

(** [doomed] are the tasks [cancel] was called on that have not noticed yet. *)
Record engine := { lock : rwlock; tasks : gmap task phase; doomed : gset task }.
Definition new_engine : engine := {| lock := new_lock; tasks := ∅; doomed := ∅ |}.

Inductive happening : Type :=
| Generate (t : task)
| Receive (t : task)
(** a task notified of a change of the lock is resumed *)
| Wake (t : task)
(** what the engine answers to a generation *)
| EngineReturns (t : task) (o : Out)
| EngineRaises (t : task) (e : exn)
(** the [CancelledError] reaches a generation that runs *)
| Deliver (t : task)
(** somebody else cancels a task *)
| Cancel (t : task)
| FlushReturns (t : task) (success : bool)
| FlushRaises (t : task) (e : exn)
| UpdateReturns (t : task)
| UpdateRaises (t : task) (e : exn).

Definition with_phase (t : task) (p : phase) (s : engine) : engine :=
  {| lock := lock s; tasks := <[t := p]> (tasks s); doomed := doomed s |}.
Definition with_lock (e : event) (s : engine) : engine :=
  {| lock := RWLock.step pass_on (lock s) e; tasks := tasks s; doomed := doomed s |}.
Definition with_doomed (d : gset task) (s : engine) : engine := {| lock := lock s; tasks := tasks s; doomed := d |}.

(** [async with self.rw_lock.reader_lock] *)
Definition start_reading (t : task) (s : engine) : engine :=
  let s := with_lock (AcquireReader t) s in
  with_phase t (if bool_decide (t ∈ reading (lock s)) then GRun else GWait) s.

(** The loop of a generation that has left the lock, with what ended the attempt. *)
(* trainer/workers/async_sglang_worker.py:54-63 AsyncSglangWorker.generate *)
Definition attempt_ended (t : task) (r : res Out) (s : engine) : engine :=
  match r with
  | Ok o => with_phase t (GDone o) s
  | Raise CancelledError => start_reading t s
  | Raise e => with_phase t (GFailed e) s
  end.
(* trainer/workers/async_sglang_worker.py:50-68 AsyncSglangWorker.generate *)
Definition leave_engine (t : task) (r : res Out) (s : engine) : engine :=
  attempt_ended t r (with_lock (ReleaseReader t) s).

(** The readers inside are cancelled by [acquire_writer]. *)
(* trainer/workers/async_sglang_worker.py:93-96 AsyncSglangWorker.async_acquire_writer_lock *)
Definition async_acquire_writer_lock (t : task) (s : engine) : engine :=
  if forget_lock then with_phase t RUpdate s
  else
    let d := active_reader_tasks (lock s) ∪ doomed s in
    let s := with_doomed d (with_lock (AcquireWriter t) s) in
    with_phase t (if bool_decide (t ∈ writing (lock s)) then RFlush else RWait) s.
(* trainer/workers/async_sglang_worker.py:109-112 AsyncSglangWorker.async_release_writer_lock *)
Definition async_release_writer_lock (t : task) (s : engine) : engine :=
  if forget_lock then s else with_lock (ReleaseWriter t) s.

(** The cache is flushed until that works. *)
(* trainer/workers/async_sglang_worker.py:98-106 AsyncSglangWorker.async_acquire_writer_lock *)
Definition flush_answered (t : task) (success : bool) (s : engine) : engine :=
  if success then with_phase t RUpdate s else s.

Definition engine_step (s : engine) (h : happening) : engine :=
  match h with
  | Generate t => match tasks s !! t with None => start_reading t s | Some _ => s end
  | Receive t => match tasks s !! t with None => async_acquire_writer_lock t s | Some _ => s end
  | Wake t =>
      let s' := with_lock (Resume t) s in
      match tasks s !! t with
      | Some GWait => with_phase t (if bool_decide (t ∈ reading (lock s')) then GRun else GWait) s'
      | Some RWait => with_phase t (if bool_decide (t ∈ writing (lock s')) then RFlush else RWait) s'
      | _ => s
      end
  | EngineReturns t o =>
      match tasks s !! t with
      | Some GRun => if bool_decide (t ∈ doomed s) then s else leave_engine t (Ok o) s
      | _ => s
      end
  | EngineRaises t e =>
      match tasks s !! t with
      | Some GRun => if bool_decide (t ∈ doomed s) then s else leave_engine t (Raise e) s
      | _ => s
      end
  | Deliver t =>
      match tasks s !! t with
      | Some GRun => if bool_decide (t ∈ doomed s) then leave_engine t (Raise CancelledError) (with_doomed (doomed s ∖ {[t]}) s) else s
      | _ => s
      end
  | Cancel t =>
      match tasks s !! t with
      | Some GRun => with_doomed ({[t]} ∪ doomed s) s
      | Some GWait => attempt_ended t (Raise CancelledError) (with_lock (CancelWait t) s)
      | Some RWait => with_phase t RCancelled (with_lock (CancelWait t) s)
      | _ => s
      end
  | FlushReturns t b => match tasks s !! t with Some RFlush => flush_answered t b s | _ => s end
  | FlushRaises t e => match tasks s !! t with Some RFlush => with_phase t (RFailed e) s | _ => s end
  | UpdateReturns t => match tasks s !! t with Some RUpdate => with_phase t RDone (async_release_writer_lock t s) | _ => s end
  | UpdateRaises t e => match tasks s !! t with Some RUpdate => with_phase t (RFailed e) s | _ => s end
  end.
End engine.

(** ** Proofs: where the lock has a task *)

(** Whether a task waits, and as a writer or not. *)
Fixpoint waits_as (t : task) (l : list waiter) : option bool :=
  match l with
  | [] => None
  | w :: l => if decide (w_task w = t) then Some (w_writer w) else waits_as t l
  end.

Inductive place : Type := Outside | Reading | Writing | Waits (writer : bool).
Definition place_of (t : task) (s : rwlock) : place :=
  if bool_decide (t ∈ reading s) then Reading
  else if bool_decide (t ∈ writing s) then Writing
  else match waits_as t (cond s) with Some b => Waits b | None => Outside end.

Lemma waits_as_app t l k : waits_as t (l ++ k) = match waits_as t l with Some b => Some b | None => waits_as t k end.
Proof. induction l as [|w l IH]; simpl; [done|]. by case_decide. Qed.
Lemma waits_as_wake t l : waits_as t (wake <$> l) = waits_as t l.
Proof. induction l as [|w l IH]; simpl; [done|]. by rewrite <- IH. Qed.
Lemma waits_as_notify_one t l : waits_as t (notify_one l) = waits_as t l.
Proof. induction l as [|w l IH]; simpl; [done|]. destruct (w_notified w); simpl; [by rewrite IH|done]. Qed.
Lemma waits_as_none t l : t ∉ (w_task <$> l) <-> waits_as t l = None.
Proof.
  induction l as [|w l IH]; simpl; [split; [done|by intros _ ?%elem_of_nil]|].
  rewrite not_elem_of_cons, IH. case_decide; naive_solver.
Qed.
Lemma waits_as_removed t t' l : waits_as t (filter (fun w => w_task w ≠ t') l) = if decide (t = t') then None else waits_as t l.
Proof.
  induction l as [|w l IH]; [by case_decide|]. rewrite filter_cons. cbn [waits_as].
  destruct (decide (w_task w ≠ t')) as [H|H%dec_stable]; cbn [waits_as]; rewrite IH; repeat case_decide; congruence.
Qed.
Lemma waiting_waits t s w : waiting_on t s = Some w -> waits_as t (cond s) = Some (w_writer w).
Proof.
  unfold waiting_on. intros ([i w1] & Hf & E)%fmap_Some. simpl in E. subst w1. revert i Hf.
  induction (cond s) as [|x l IH]; intros i Hf; [done|]. simpl in *. case_decide; simplify_eq; [done|].
  apply fmap_Some in Hf as ([j w'] & Hf & E). simplify_eq/=. by eapply IH.
Qed.
Lemma not_waiting t s : waiting_on t s = None -> waits_as t (cond s) = None.
Proof.
  unfold waiting_on. intros Hf%fmap_None. induction (cond s) as [|x l IH]; [done|]. simpl in *. case_decide; [done|].
  apply IH. by apply fmap_None in Hf.
Qed.

Section places.
Context (pass_on : bool).
#[local] Abbreviation step := (RWLock.step pass_on).

Definition task_of (e : event) : task :=
  match e with
  | AcquireReader t | ReleaseReader t | AcquireWriter t | ReleaseWriter t | Resume t | CancelWait t => t
  end.

(** A step moves only its own task. *)
Lemma reader_loop_place t t' s : t' ≠ t -> place_of t' (reader_loop t s) = place_of t' s.
Proof.
  intros Hne. unfold reader_loop. destruct (_ || _); unfold place_of; simpl.
  - rewrite waits_as_app. simpl. rewrite decide_False by done. by destruct (waits_as t' (cond s)).
  - by rewrite (bool_decide_ext (t' ∈ {[t]} ∪ reading s) (t' ∈ reading s)) by set_solver.
Qed.
Lemma writer_loop_place t t' s : t' ≠ t -> place_of t' (writer_loop t s) = place_of t' s.
Proof.
  intros Hne. unfold writer_loop. destruct (_ || _); unfold place_of; simpl.
  - rewrite waits_as_app. simpl. rewrite decide_False by done. by destruct (waits_as t' (cond s)).
  - by rewrite (bool_decide_ext (t' ∈ {[t]} ∪ writing s) (t' ∈ writing s)) by set_solver.
Qed.
Lemma remove_place t t' s : t' ≠ t -> place_of t' (remove_waiter t s) = place_of t' s.
Proof. intros Hne. unfold place_of. simpl. by rewrite waits_as_removed, decide_False. Qed.
Lemma notify_place t s : place_of t (notify_all s) = place_of t s.
Proof. unfold place_of. simpl. by rewrite waits_as_wake. Qed.

Lemma step_place t s e : t ≠ task_of e -> place_of t (step s e) = place_of t s.
Proof.
  intros Hne. destruct e as [u|u|u|u|u|u]; simpl in *.
  - destruct (busy u s); [done|]. by apply reader_loop_place.
  - case_bool_decide; [|done]. unfold release_reader. case_bool_decide; [rewrite notify_place|]; unfold place_of; simpl;
      by rewrite (bool_decide_ext (t ∈ reading s ∖ {[u]}) (t ∈ reading s)) by set_solver.
  - destruct (busy u s); [done|]. unfold acquire_writer. by rewrite writer_loop_place.
  - case_bool_decide; [|done]. unfold release_writer. rewrite notify_place. unfold place_of. simpl.
    by rewrite (bool_decide_ext (t ∈ writing s ∖ {[u]}) (t ∈ writing s)) by set_solver.
  - unfold resume. destruct (waiting_on u s) as [w|]; [|done]. destruct (w_notified w); [|done].
    destruct (w_writer w); [rewrite writer_loop_place by done|rewrite reader_loop_place by done]; by apply remove_place.
  - unfold cancel_wait. destruct (waiting_on u s) as [w|]; [|done].
    assert (Hp : place_of t (set_cond (notify_one (cond (remove_waiter u s))) (remove_waiter u s)) = place_of t s).
    { unfold place_of. simpl. by rewrite waits_as_notify_one, waits_as_removed, decide_False. }
    pose proof (remove_place u t s Hne) as Hr.
    destruct pass_on, (w_writer w); [exact Hp|exact Hp|exact Hr|exact Hr].
Qed.

(** The step of a task itself. *)
Lemma outside_free t s : place_of t s = Outside -> free t s ∧ busy t s = false.
Proof.
  unfold place_of. case_bool_decide; [done|]. case_bool_decide; [done|]. destruct (waits_as t (cond s)) eqn:E; [done|]. intros _.
  apply waits_as_none in E. split; [by split|]. unfold busy. by rewrite !bool_decide_false.
Qed.

Lemma reader_loop_self t s : free t s -> place_of t (reader_loop t s) = if bool_decide (t ∈ reading (reader_loop t s)) then Reading else Waits false.
Proof.
  intros (H1 & H2 & H3%waits_as_none). unfold reader_loop. destruct (_ || _); unfold place_of; simpl.
  - rewrite !(bool_decide_false (t ∈ _)) by done. rewrite waits_as_app, H3. simpl. by rewrite decide_True.
  - by rewrite !bool_decide_true by set_solver.
Qed.
Lemma writer_loop_self t s : free t s -> place_of t (writer_loop t s) = if bool_decide (t ∈ writing (writer_loop t s)) then Writing else Waits true.
Proof.
  intros (H1 & H2 & H3%waits_as_none). unfold writer_loop. destruct (_ || _); unfold place_of; simpl.
  - rewrite !(bool_decide_false (t ∈ _)) by done. rewrite waits_as_app, H3. simpl. by rewrite decide_True.
  - rewrite (bool_decide_false (t ∈ reading s)) by done. by rewrite !bool_decide_true by set_solver.
Qed.

Lemma acquire_reader_self t s : place_of t s = Outside ->
  place_of t (step s (AcquireReader t)) = if bool_decide (t ∈ reading (step s (AcquireReader t))) then Reading else Waits false.
Proof. intros [Hf Hb]%outside_free. simpl. rewrite Hb. by apply reader_loop_self. Qed.
Lemma acquire_writer_self t s : place_of t s = Outside ->
  place_of t (step s (AcquireWriter t)) = if bool_decide (t ∈ writing (step s (AcquireWriter t))) then Writing else Waits true.
Proof. intros [Hf Hb]%outside_free. simpl. rewrite Hb. by apply writer_loop_self. Qed.

Lemma place_reading t s : place_of t s = Reading <-> t ∈ reading s.
Proof.
  unfold place_of. case_bool_decide; [done|]. case_bool_decide; [done|]. by destruct (waits_as t (cond s)).
Qed.
Lemma place_writing t s : ok s -> place_of t s = Writing <-> t ∈ writing s.
Proof.
  intros Hok. unfold place_of. case_bool_decide as Hr; [split; [done|]|].
  - intros Hw. destruct (ok_mutex _ Hok) as [E|E]; set_solver.
  - case_bool_decide; [done|]. by destruct (waits_as t (cond s)).
Qed.
Lemma place_waits t s b : place_of t s = Waits b -> t ∉ reading s ∧ t ∉ writing s ∧ waits_as t (cond s) = Some b.
Proof.
  unfold place_of. case_bool_decide; [done|]. case_bool_decide; [done|]. destruct (waits_as t (cond s)); [|done]. by intros [= ->].
Qed.

Lemma inside_not_waiting t s : ok s -> t ∈ reading s \/ t ∈ writing s -> waits_as t (cond s) = None.
Proof.
  intros Hok Hin. apply waits_as_none. intros H. apply (ok_apart _ Hok) in H as [H1 H2]. by destruct Hin.
Qed.

Lemma release_reader_self t s : ok s -> place_of t s = Reading -> place_of t (step s (ReleaseReader t)) = Outside.
Proof.
  intros Hok Hr%place_reading. simpl. rewrite bool_decide_true by done.
  assert (Hw : t ∉ writing s) by (destruct (ok_mutex _ Hok); set_solver).
  pose proof (inside_not_waiting t s Hok (or_introl Hr)) as Hn.
  unfold release_reader. case_bool_decide; [rewrite notify_place|]; unfold place_of; simpl;
    rewrite (bool_decide_false (t ∈ reading s ∖ {[t]})) by set_solver; by rewrite bool_decide_false, Hn.
Qed.
Lemma release_writer_self t s : ok s -> place_of t s = Writing -> place_of t (step s (ReleaseWriter t)) = Outside.
Proof.
  intros Hok Hr%place_writing; [|done]. simpl. rewrite bool_decide_true by done.
  assert (Hw : t ∉ reading s) by (destruct (ok_mutex _ Hok); set_solver).
  pose proof (inside_not_waiting t s Hok (or_intror Hr)) as Hn. unfold release_writer. rewrite notify_place. unfold place_of. simpl.
  rewrite (bool_decide_false (t ∈ reading s)) by done. by rewrite bool_decide_false, Hn by set_solver.
Qed.

Lemma removed_waiter_free t s : t ∉ reading s -> t ∉ writing s -> free t (remove_waiter t s).
Proof. intros H1 H2. split; [done|]. split; [done|]. apply waits_as_none. simpl. by rewrite waits_as_removed, decide_True. Qed.

Lemma resume_self t s b : place_of t s = Waits b -> place_of t (step s (Resume t)) =
  if b then if bool_decide (t ∈ writing (step s (Resume t))) then Writing else Waits true
  else if bool_decide (t ∈ reading (step s (Resume t))) then Reading else Waits false.
Proof.
  intros (H1 & H2 & H3)%place_waits. simpl. unfold resume.
  assert (Hstay : place_of t s = if b then if bool_decide (t ∈ writing s) then Writing else Waits true
    else if bool_decide (t ∈ reading s) then Reading else Waits false).
  { rewrite !(bool_decide_false (t ∈ _)) by done. unfold place_of. rewrite !(bool_decide_false (t ∈ _)) by done. rewrite H3. by destruct b. }
  destruct (waiting_on t s) as [w|] eqn:E; [|done]. destruct (w_notified w); [|done].
  apply waiting_waits in E. rewrite H3 in E. injection E as ->.
  destruct (w_writer w); [by apply writer_loop_self, removed_waiter_free|by apply reader_loop_self, removed_waiter_free].
Qed.

Lemma cancel_wait_self t s b : place_of t s = Waits b -> place_of t (step s (CancelWait t)) = Outside.
Proof.
  intros (H1 & H2 & H3)%place_waits. simpl. unfold cancel_wait. destruct (waiting_on t s) as [w|] eqn:E.
  2:{ apply not_waiting in E. congruence. }
  assert (Hn : waits_as t (notify_one (cond (remove_waiter t s))) = None ∧ waits_as t (cond (remove_waiter t s)) = None).
  { simpl. by rewrite waits_as_notify_one, !waits_as_removed, !decide_True. }
  destruct Hn as [Hn1 Hn2]. destruct pass_on, (w_writer w); unfold place_of; cbn [set_waiting set_cond reading writing cond remove_waiter] in *;
    rewrite !(bool_decide_false (t ∈ _)) by done; by rewrite ?Hn1, ?Hn2.
Qed.
End places.

(** ** Proofs: the engine *)

Section engine_facts.
Context {Out : Type} (pass_on : bool).
#[local] Abbreviation engine_step := (engine_step (Out := Out) pass_on false).
#[local] Abbreviation with_lock := (with_lock (Out := Out) pass_on).
#[local] Abbreviation start_reading := (start_reading (Out := Out) pass_on).

Definition phase_place (p : phase (Out := Out)) : place :=
  match p with
  | GRun => Reading
  | GWait => Waits false
  | RWait => Waits true
  | RFlush | RUpdate | RFailed _ => Writing
  | _ => Outside
  end.

(** The lock has every task where its phase says, and only generations that run are
    to be cancelled. *)
Record consistent (s : engine (Out := Out)) : Prop := {
  co_lock : ok (lock s);
  co_place : forall t, place_of t (lock s) = from_option phase_place Outside (tasks s !! t);
  co_doomed : forall t, t ∈ doomed s -> tasks s !! t = Some GRun;
  co_failed : forall t, tasks s !! t ≠ Some (GFailed CancelledError)
}.

(** A step of the lock by a task that gets the phase it is in afterwards. *)
Lemma consistent_move t e p d s : consistent s -> task_of e = t -> place_of t (RWLock.step pass_on (lock s) e) = phase_place p ->
  p ≠ GFailed CancelledError -> (forall u, u ∈ d -> u ≠ t ∧ tasks s !! u = Some GRun) ->
  consistent (with_phase t p (with_doomed d (with_lock e s))).
Proof.
  intros [Hok Hp Hd Hf] He Hpl Hc Hu. split; simpl.
  - by apply step_ok.
  - intros u. destruct (decide (u = t)) as [->|Hne]; [by rewrite lookup_insert_eq, Hpl|].
    rewrite lookup_insert_ne, step_place by congruence. apply Hp.
  - intros u [Hne Hr]%Hu. by rewrite lookup_insert_ne.
  - intros u. destruct (decide (u = t)) as [->|Hne]; [rewrite lookup_insert_eq; by intros [= ->]|by rewrite lookup_insert_ne].
Qed.

Lemma consistent_phase t p s : consistent s -> place_of t (lock s) = phase_place p -> p ≠ GFailed CancelledError ->
  t ∉ doomed s -> consistent (with_phase t p s).
Proof.
  intros [Hok Hp Hd Hf] Hpl Hc Ht. split; simpl.
  - done.
  - intros u. destruct (decide (u = t)) as [->|Hne]; [by rewrite lookup_insert_eq, Hpl|]. by rewrite lookup_insert_ne.
  - intros u Hu. rewrite lookup_insert_ne by (by intros ->). by apply Hd.
  - intros u. destruct (decide (u = t)) as [->|Hne]; [rewrite lookup_insert_eq; by intros [= ->]|by rewrite lookup_insert_ne].
Qed.

Lemma doomed_runs t p s : consistent s -> tasks s !! t = p -> p ≠ Some GRun -> t ∉ doomed s.
Proof. intros Hs Ht Hp Hd%(co_doomed _ Hs). congruence. Qed.
Lemma task_place t p s : consistent s -> tasks s !! t = p -> place_of t (lock s) = from_option phase_place Outside p.
Proof. intros Hs <-. apply (co_place _ Hs). Qed.

Lemma doomed_others t p s : consistent s -> tasks s !! t = p -> p ≠ Some GRun ->
  forall u, u ∈ doomed s -> u ≠ t ∧ tasks s !! u = Some GRun.
Proof.
  intros Hs Ht Hp u Hu. split; [|by apply (co_doomed _ Hs)]. intros ->. by apply (doomed_runs t p s).
Qed.

(** Out of the lock and into it again, in two steps. *)
Lemma consistent_restart t e s : consistent s -> task_of e = t -> place_of t (RWLock.step pass_on (lock s) e) = Outside ->
  t ∉ doomed s -> consistent (start_reading t (with_lock e s)).
Proof.
  intros Hs He Hout Hd. unfold Workers.start_reading. set (s1 := with_phase t RCancelled (with_lock e s)).
  assert (H1 : consistent s1).
  { apply (consistent_move t e RCancelled (doomed s) s); try done. intros u Hu. split; [by intros ->|by apply (co_doomed _ Hs)]. }
  assert (H2 : consistent (with_phase t (if bool_decide (t ∈ reading (RWLock.step pass_on (lock s1) (AcquireReader t))) then GRun else GWait)
    (with_doomed (doomed s) (with_lock (AcquireReader t) s1)))).
  { apply consistent_move; [done|done| |by case_bool_decide|].
    - rewrite acquire_reader_self by exact Hout. by case_bool_decide.
    - intros u Hu. split; [by intros ->|]. by apply (co_doomed _ H1). }
  eapply (eq_ind _ consistent H2). unfold with_phase, with_doomed, Workers.with_lock, s1. cbn. by rewrite insert_insert_eq.
Qed.

Lemma consistent_new : consistent new_engine.
Proof.
  split; [apply ok_new|done|by intros t ?%elem_of_empty|done].
Qed.

Lemma leave_consistent t r s : consistent s -> tasks s !! t = Some GRun -> t ∉ doomed s -> consistent (leave_engine pass_on t r s).
Proof.
  intros Hs Ht Hd. assert (Hp : place_of t (RWLock.step pass_on (lock s) (ReleaseReader t)) = Outside).
  { apply release_reader_self; [apply Hs|]. by rewrite (task_place t _ _ Hs Ht). }
  assert (Hu : forall u, u ∈ doomed s -> u ≠ t ∧ tasks s !! u = Some GRun)
    by (intros u Hu; split; [by intros ->|by apply (co_doomed _ Hs)]).
  assert (Hend : forall p, phase_place p = Outside -> p ≠ GFailed CancelledError -> consistent (with_phase t p (with_lock (ReleaseReader t) s))).
  { intros p Hpp Hpf. apply (consistent_move t (ReleaseReader t) p (doomed s) s); try done. by rewrite Hp. }
  unfold leave_engine, attempt_ended. destruct r as [o|e]; [by apply Hend|].
  destruct e; try (by apply Hend). by apply consistent_restart.
Qed.

Lemma acquire_consistent t s : consistent s -> tasks s !! t = None -> consistent (async_acquire_writer_lock pass_on false t s).
Proof.
  intros Hs E. unfold async_acquire_writer_lock. cbv zeta.
  apply (consistent_move t (AcquireWriter t) _ (active_reader_tasks (lock s) ∪ doomed s) s); [done|done| |by case_bool_decide|].
  - cbn [lock with_doomed Workers.with_lock]. rewrite acquire_writer_self by (by rewrite (task_place t _ _ Hs E)). by case_bool_decide.
  - intros u [Hu|Hu]%elem_of_union.
    + rewrite (ok_tasks _ (co_lock _ Hs)) in Hu. apply place_reading in Hu. rewrite (co_place _ Hs) in Hu.
      split; [intros ->; by rewrite E in Hu|]. by destruct (tasks s !! u) as [[]|].
    + by apply (doomed_others t None).
Qed.

Lemma wake_consistent t b p s : consistent s -> tasks s !! t = Some p -> phase_place p = Waits b ->
  consistent (with_phase t (if b then if bool_decide (t ∈ writing (lock (with_lock (Resume t) s))) then RFlush else RWait
    else if bool_decide (t ∈ reading (lock (with_lock (Resume t) s))) then GRun else GWait) (with_lock (Resume t) s)).
Proof.
  intros Hs E Hp. apply (consistent_move t (Resume t) _ (doomed s) s); [done|done| | |].
  - cbn [lock Workers.with_lock]. rewrite (resume_self pass_on t (lock s) b) by (by rewrite (task_place t _ _ Hs E)).
    destruct b; by case_bool_decide.
  - by destruct b; case_bool_decide.
  - apply (doomed_others t (Some p)); [done|done|]. intros [= ->]. by destruct b.
Qed.

Lemma cancel_consistent t p s : consistent s -> tasks s !! t = Some p -> p ≠ GRun ->
  consistent s -> (exists b, phase_place p = Waits b) ->
  consistent (start_reading t (with_lock (CancelWait t) s)) ∧ consistent (with_phase t RCancelled (with_lock (CancelWait t) s)).
Proof.
  intros Hs E Hne _ [b Hp]. assert (Hout : place_of t (RWLock.step pass_on (lock s) (CancelWait t)) = Outside).
  { apply (cancel_wait_self pass_on t (lock s) b). by rewrite (task_place t _ _ Hs E). }
  assert (Some p ≠ Some GRun) by (by intros [= ->]). split.
  - apply consistent_restart; [done|done|exact Hout|by apply (doomed_runs t (Some p))].
  - apply (consistent_move t (CancelWait t) RCancelled (doomed s) s); [done|done|by rewrite Hout|done|]. by apply (doomed_others t (Some p)).
Qed.

Lemma release_consistent t s : consistent s -> tasks s !! t = Some RUpdate ->
  consistent (with_phase t RDone (async_release_writer_lock pass_on false t s)).
Proof.
  intros Hs E. apply (consistent_move t (ReleaseWriter t) RDone (doomed s) s); [done|done| |done|by apply (doomed_others t (Some RUpdate))].
  apply release_writer_self; [apply Hs|]. by rewrite (task_place t _ _ Hs E).
Qed.

Lemma consistent_doom d s : consistent s -> (forall t, t ∈ d -> tasks s !! t = Some GRun) -> consistent (with_doomed d s).
Proof. intros [Hok Hp Hd Hf] H. by split. Qed.

Lemma start_consistent t s : consistent s -> tasks s !! t = None -> consistent (start_reading t s).
Proof.
  intros Hs E. apply (consistent_move t (AcquireReader t) _ (doomed s) s); [done|done| |by case_bool_decide|by apply (doomed_others t None)].
  cbn [lock Workers.with_lock]. rewrite acquire_reader_self by (by rewrite (task_place t _ _ Hs E)). by case_bool_decide.
Qed.

Lemma consistent_step s h : consistent s -> consistent (engine_step s h).
Proof.
  intros Hs. destruct h as [t|t|t|t o|t e|t|t|t b|t e|t|t e]; cbn [Workers.engine_step];
    destruct (tasks s !! t) as [[| | | | | | | | |]|] eqn:E; try done.
  - by apply start_consistent.
  - by apply acquire_consistent.
  - by apply (wake_consistent t false GWait).
  - by apply (wake_consistent t true RWait).
  - case_bool_decide; [done|]. by apply leave_consistent.
  - case_bool_decide; [done|]. by apply leave_consistent.
  - case_bool_decide; [|done]. apply leave_consistent; [|done|set_solver].
    apply consistent_doom; [done|]. intros u [Hu _]%elem_of_difference. by apply (co_doomed _ Hs).
  - apply (cancel_consistent t GWait s); try done. by exists false.
  - apply consistent_doom; [done|]. intros u [->%elem_of_singleton|Hu]%elem_of_union; [done|by apply (co_doomed _ Hs)].
  - apply (cancel_consistent t RWait s); try done. by exists true.
  - unfold flush_answered. destruct b; [|done].
    apply consistent_phase; [done|by rewrite (task_place t _ _ Hs E)|done|by apply (doomed_runs t _ s Hs E)].
  - apply consistent_phase; [done|by rewrite (task_place t _ _ Hs E)|done|by apply (doomed_runs t _ s Hs E)].
  - by apply release_consistent.
  - apply consistent_phase; [done|by rewrite (task_place t _ _ Hs E)|done|by apply (doomed_runs t _ s Hs E)].
Qed.

Lemma consistent_run l : consistent (run engine_step new_engine l).
Proof. apply run_invariant; [apply consistent_new|]. intros; by apply consistent_step. Qed.

(** Who holds the lock to write holds it alone. *)
Lemma holder_alone s t t' p p' : consistent s -> tasks s !! t = Some p -> phase_place p = Writing ->
  tasks s !! t' = Some p' -> t' ≠ t -> phase_place p' ≠ Writing ∧ phase_place p' ≠ Reading.
Proof.
  intros Hs E Hp E' Hne. pose proof (co_lock _ Hs) as Hok.
  assert (Hw : t ∈ writing (lock s)) by (apply place_writing; [done|]; by rewrite (co_place _ Hs), E).
  split; intros Hp'.
  - assert (Hw' : t' ∈ writing (lock s)) by (apply place_writing; [done|]; by rewrite (co_place _ Hs), E').
    pose proof (ok_single _ Hok) as H1. assert (H2 : (size ({[t; t']} : gset task) <= size (writing (lock s)))%nat)
      by (apply subseteq_size; set_solver).
    rewrite size_union, !size_singleton in H2 by set_solver. lia.
  - assert (Hr : t' ∈ reading (lock s)) by (apply place_reading; by rewrite (co_place _ Hs), E').
    destruct (ok_mutex _ Hok); set_solver.
Qed.

(** While an update flushes the cache or transfers parameters, no generation runs in the
    engine and no other update does either; no generation ends with a cancellation, and
    only generations that run are waiting for one to reach them. *)
Theorem updates_alone (l : list (happening (Out := Out))) :
  let s := run engine_step new_engine l in
  (forall t t' p p', tasks s !! t = Some p -> p = RFlush \/ p = RUpdate -> tasks s !! t' = Some p' -> t' ≠ t ->
     p' ≠ GRun ∧ p' ≠ RFlush ∧ p' ≠ RUpdate) ∧
  (forall t, tasks s !! t ≠ Some (GFailed CancelledError)) ∧
  (forall t, t ∈ doomed s -> tasks s !! t = Some GRun).
Proof.
  intros s. pose proof (consistent_run l) as Hs. split; [|split; [apply Hs|apply Hs]].
  intros t t' p p' E Hp E' Hne. assert (Hw : phase_place p = Writing) by (by destruct Hp as [->| ->]).
  destruct (holder_alone s t t' p p' Hs E Hw E' Hne). split; [by intros ->|]. split; by intros ->.
Qed.

(** A step changes the phase of its own task only. *)
Definition subject (h : happening (Out := Out)) : task :=
  match h with
  | Generate t | Receive t | Wake t | EngineReturns t _ | EngineRaises t _ | Deliver t | Cancel t
  | FlushReturns t _ | FlushRaises t _ | UpdateReturns t | UpdateRaises t _ => t
  end.

Lemma attempt_others t u r (s : engine (Out := Out)) : u ≠ t -> tasks (attempt_ended pass_on u r s) !! t = tasks s !! t.
Proof. intros Hne. unfold attempt_ended. destruct r as [o|[]]; simpl; by rewrite lookup_insert_ne. Qed.

Lemma step_others (s : engine (Out := Out)) h t : subject h ≠ t -> tasks (engine_step s h) !! t = tasks s !! t.
Proof.
  intros Hne. destruct h as [u|u|u|u o|u e'|u|u|u b|u e'|u|u e']; cbn [subject] in Hne; cbn [Workers.engine_step];
    destruct (tasks s !! u) as [[| | | | | | | | |]|]; try done; try (case_bool_decide; try done);
    try destruct b; try done; unfold leave_engine; rewrite ?attempt_others by done; try done; simpl; by rewrite lookup_insert_ne.
Qed.

(** An update that failed stays so. *)
Lemma failed_stays (s : engine (Out := Out)) t e h : tasks s !! t = Some (RFailed e) -> tasks (engine_step s h) !! t = Some (RFailed e).
Proof.
  intros E. destruct (decide (subject h = t)) as [<-|Hne]; [|by rewrite step_others].
  destruct h; cbn [subject] in E; cbn [Workers.engine_step]; by rewrite E.
Qed.

(** A generation that waits gets the lock, or goes on waiting. *)
Lemma waits_step (s : engine (Out := Out)) t h : tasks s !! t = Some GWait ->
  tasks (engine_step s h) !! t = Some GWait \/ tasks (engine_step s h) !! t = Some GRun.
Proof.
  intros E. destruct (decide (subject h = t)) as [<-|Hne]; [|rewrite step_others; auto].
  destruct h; cbn [subject] in E; cbn [Workers.engine_step]; rewrite E; auto;
    cbn [attempt_ended]; simpl; rewrite lookup_insert_eq; case_bool_decide; auto.
Qed.

Lemma run_cons (s : engine (Out := Out)) h l : run engine_step s (h :: l) = run engine_step (engine_step s h) l.
Proof. done. Qed.

(** With an update that failed, a generation that waits goes on waiting. *)
Lemma waits_on (s : engine (Out := Out)) t e u l : consistent s -> tasks s !! t = Some (RFailed e) ->
  consistent (run engine_step s l) ∧ tasks (run engine_step s l) !! t = Some (RFailed e) ∧
  (tasks s !! u = Some GWait -> tasks (run engine_step s l) !! u = Some GWait).
Proof.
  revert s. induction l as [|h l IH]; intros s Hs E; [done|]. rewrite run_cons.
  pose proof (consistent_step s h Hs) as Hs'. pose proof (failed_stays s t e h E) as E'.
  destruct (IH _ Hs' E') as (H1 & H2 & H3). split; [done|]. split; [done|]. intros Hu. apply H3.
  destruct (waits_step s u h Hu) as [Hw|Hr]; [done|]. assert (u ≠ t) by congruence.
  by destruct (holder_alone _ t u _ _ Hs' E' eq_refl Hr).
Qed.

End engine_facts.

(** ** Examples *)

Module Examples.
#[local] Abbreviation go := (run (engine_step (Out := Z) false false) new_engine).

(** A generation is interrupted by an update, waits for it, and runs again. *)
Example interrupted :
  let l := [Generate 1%nat; Receive 2%nat; Deliver 1%nat; Wake 2%nat; FlushReturns 2%nat false;
            FlushReturns 2%nat true; UpdateReturns 2%nat; Wake 1%nat; EngineReturns 1%nat 7] in
  tasks (go (take 3 l)) !! 1%nat = Some GWait ∧ tasks (go (take 5 l)) !! 2%nat = Some RFlush ∧
  tasks (go l) !! 1%nat = Some (GDone 7) ∧ tasks (go l) !! 2%nat = Some RDone.
Proof. by vm_compute. Qed.

(** Cancelling a generation has it start again. *)
Example cancel_is_swallowed :
  tasks (go [Generate 1%nat; Cancel 1%nat; Deliver 1%nat]) !! 1%nat = Some GRun.
Proof. by vm_compute. Qed.

End Examples.
