(* ===== verification/State.v ===== *)
(** * State providers: interface, abstract specification, in-memory provider

    Models worker/environment/state/_base.py ([StateProvider], [with_lock]),
    state/__init__.py and state/local.py.  [StateProvider] is the interface the
    environment controllers use; [spec] says what it promises; [Implements] is
    the refinement each provider proves. *)

From S2P Require Import Prelude PyVal.

(** ** The interface *)

(* worker/environment/state/_base.py:8-85 StateProvider *)
Class StateProvider (S : Type) := {
  acquire_lock : string -> option string -> Z -> M S bool;
  release_lock : string -> option string -> M S unit;
  allocate_container : string -> string -> M S unit;
  renew_container : string -> string -> M S unit;
  container_is_allocated : string -> M S bool;
  container_current_uses : string -> M S Z;
  container_total_uses : string -> M S Z;
  containers_total_uses_gte : Z -> M S (list string);
  release_container : string -> string -> M S unit;
  remove_container : string -> M S unit;
  store_session : string -> val -> M S unit;
  renew_session : string -> M S unit;
  get_session : string -> M S (option val);
  delete_session : string -> M S unit
}.

Section with_lock.
Context {S : Type} `{StateProvider S}.

(** The loop of [with_lock] retries until the lock is acquired; [fuel] bounds
    the attempts. *)
(* worker/environment/state/_base.py:24-27 StateProvider.with_lock *)
Fixpoint acquire_loop (fuel : nat) (lock_name : string) (client_id : option string)
    (timeout : Z) : M S unit :=
  match fuel with
  | O => raise RecursionLimit
  | Datatypes.S fuel =>
      b ← acquire_lock lock_name client_id timeout;
      if (b : bool) then mret tt else acquire_loop fuel lock_name client_id timeout
  end.

(* worker/environment/state/_base.py:21-31 StateProvider.with_lock *)
Definition with_lock {A} (fuel : nat) (lock_name : string) (client_id : option string)
    (timeout : Z) (body : M S A) : M S A :=
  acquire_loop fuel lock_name client_id timeout ;;
  finally body (release_lock lock_name client_id).
End with_lock.

(** ** The abstract specification *)

(** Who uses which container, how often each has been used, and the stored
    sessions. *)
Record spec := {
  s_alloc : gmap string (gset string);
  s_uses : gmap string Z;
  s_sessions : gmap string val
}.

Definition new_spec : spec := {| s_alloc := ∅; s_uses := ∅; s_sessions := ∅ |}.
Definition users (c : string) (sp : spec) : gset string := default ∅ (s_alloc sp !! c).
Definition uses (c : string) (sp : spec) : Z := default 0 (s_uses sp !! c).

Inductive request : Type :=
| AllocateContainer (c s : string)
| RenewContainer (c s : string)
| ContainerIsAllocated (c : string)
| ContainerCurrentUses (c : string)
| ContainerTotalUses (c : string)
| ReleaseContainer (c s : string)
| RemoveContainer (c : string)
| StoreSession (s : string) (data : val)
| RenewSession (s : string)
| GetSession (s : string)
| DeleteSession (s : string).

Inductive response : Type :=
| RUnit
| RBool (b : bool)
| RInt (n : Z)
| RData (d : option val).

Definition spec_step (q : request) (sp : spec) : spec * response :=
  match q with
  | AllocateContainer c s =>
      ({| s_alloc := <[c := {[s]} ∪ users c sp]> (s_alloc sp);
          s_uses := <[c := uses c sp + 1]> (s_uses sp);
          s_sessions := s_sessions sp |}, RUnit)
  | RenewContainer _ _ | RenewSession _ => (sp, RUnit)
  | ContainerIsAllocated c => (sp, RBool (bool_decide (users c sp ≠ ∅)))
  | ContainerCurrentUses c => (sp, RInt (Z.of_nat (size (users c sp))))
  | ContainerTotalUses c => (sp, RInt (uses c sp))
  | ReleaseContainer c s =>
      ({| s_alloc := <[c := users c sp ∖ {[s]}]> (s_alloc sp);
          s_uses := s_uses sp; s_sessions := s_sessions sp |}, RUnit)
  | RemoveContainer c =>
      ({| s_alloc := delete c (s_alloc sp); s_uses := delete c (s_uses sp);
          s_sessions := s_sessions sp |}, RUnit)
  | StoreSession s d =>
      ({| s_alloc := s_alloc sp; s_uses := s_uses sp;
          s_sessions := <[s := d]> (s_sessions sp) |}, RUnit)
  | GetSession s => (sp, RData (s_sessions sp !! s))
  | DeleteSession s =>
      ({| s_alloc := s_alloc sp; s_uses := s_uses sp;
          s_sessions := delete s (s_sessions sp) |}, RUnit)
  end.

Definition spec_run (l : list request) (sp : spec) : spec :=
  foldl (fun sp q => (spec_step q sp).1) sp l.

(** A request served by a provider. *)
Definition perform {S} `{StateProvider S} (q : request) : M S response :=
  match q with
  | AllocateContainer c s => allocate_container c s ;; mret RUnit
  | RenewContainer c s => renew_container c s ;; mret RUnit
  | ContainerIsAllocated c => b ← container_is_allocated c; mret (RBool b)
  | ContainerCurrentUses c => n ← container_current_uses c; mret (RInt n)
  | ContainerTotalUses c => n ← container_total_uses c; mret (RInt n)
  | ReleaseContainer c s => release_container c s ;; mret RUnit
  | RemoveContainer c => remove_container c ;; mret RUnit
  | StoreSession s d => store_session s d ;; mret RUnit
  | RenewSession s => renew_session s ;; mret RUnit
  | GetSession s => d ← get_session s; mret (RData d)
  | DeleteSession s => delete_session s ;; mret RUnit
  end.

(** The refinement: a state related to an abstract one answers as it does and
    stays related to it. *)
Class Implements (S : Type) `{StateProvider S} (R : S -> spec -> Prop)
    (valid : request -> Prop) : Prop :=
  perform_spec q s sp : valid q -> R s sp ->
    exists s', perform q s = (s', Ok (spec_step q sp).2) ∧ R s' (spec_step q sp).1.

(** The answers of a provider, and of the specification, to a list of requests. *)
Fixpoint answers {S} `{StateProvider S} (l : list request) (s : S) : list (res response) :=
  match l with
  | [] => []
  | q :: l => let '(s', r) := perform q s in r :: answers l s'
  end.
Fixpoint spec_answers (l : list request) (sp : spec) : list response :=
  match l with
  | [] => []
  | q :: l => let '(sp', r) := spec_step q sp in r :: spec_answers l sp'
  end.

Lemma implements_answers {S} `{Implements S R valid} l s sp :
  Forall valid l -> R s sp -> answers l s = Ok <$> spec_answers l sp.
Proof.
  revert s sp. induction l as [|q l IH]; intros s sp Hv HR; [done|].
  apply Forall_cons in Hv as [Hq Hv].
  destruct (perform_spec q s sp Hq HR) as (s' & Hp & HR'). simpl. rewrite Hp.
  destruct (spec_step q sp) as [sp' r]. simpl in *. f_equal. by apply IH.
Qed.

(** The state reached by a list of requests. *)
Definition final {S} `{StateProvider S} (l : list request) (s : S) : S :=
  foldl (fun s q => (perform q s).1) s l.

Lemma implements_final {S} `{Implements S R valid} l s sp :
  Forall valid l -> R s sp -> R (final l s) (spec_run l sp).
Proof.
  revert s sp. induction l as [|q l IH]; intros s sp Hv HR; [done|].
  apply Forall_cons in Hv as [Hq Hv].
  destruct (perform_spec q s sp Hq HR) as (s' & Hp & HR'). simpl. apply IH; [done|].
  by rewrite Hp.
Qed.

(** Laws of the specification the controllers rely on. *)
Lemma users_allocate c s sp : users c (spec_step (AllocateContainer c s) sp).1 = {[s]} ∪ users c sp.
Proof. unfold users. simpl. by rewrite lookup_insert_eq. Qed.

(** ** The in-memory provider *)

(* worker/environment/state/local.py:13-16 LocalStateProvider.__init__ *)
Record local := {
  containers : gmap string (gset string);
  container_uses : list (string * Z);
  sessions : gmap string val
}.

Definition new_local : local := {| containers := ∅; container_uses := []; sessions := ∅ |}.

(* worker/environment/state/local.py:24-31 LocalStateProvider.allocate_container *)
Definition local_allocate_container (container_id session_id : string) : M local unit := fun st =>
  let fresh := negb (dmem container_id (container_uses st)) in
  let cs := if fresh then <[container_id := ∅]> (containers st) else containers st in
  match cs !! container_id with
  | None => (st, Raise KeyError)
  | Some X =>
      let us := if fresh then dset container_id 0 (container_uses st) else container_uses st in
      match dget container_id us with
      | None => ({| containers := <[container_id := {[session_id]} ∪ X]> cs;
                    container_uses := us; sessions := sessions st |}, Raise KeyError)
      | Some n =>
          ({| containers := <[container_id := {[session_id]} ∪ X]> cs;
              container_uses := dset container_id (n + 1) us;
              sessions := sessions st |}, Ok tt)
      end
  end.

(* worker/environment/state/local.py:35-36 LocalStateProvider.container_is_allocated *)
Definition local_container_is_allocated (container_id : string) : M local bool :=
  gets (fun st => match containers st !! container_id with
                  | Some X => bool_decide (0 < Z.of_nat (size X))
                  | None => false
                  end).

(* worker/environment/state/local.py:38-40 LocalStateProvider.release_container *)
Definition local_release_container (container_id session_id : string) : M local unit :=
  modify (fun st => match containers st !! container_id with
                    | Some X =>
                        {| containers := <[container_id := X ∖ {[session_id]}]> (containers st);
                           container_uses := container_uses st; sessions := sessions st |}
                    | None => st
                    end).

(* worker/environment/state/local.py:48-53 LocalStateProvider.containers_total_uses_gte *)
Definition local_containers_total_uses_gte (min_uses : Z) : M local (list string) :=
  gets (fun st => (filter (fun kv => min_uses ≤ kv.2) (container_uses st)).*1).

(* worker/environment/state/local.py:68-72 LocalStateProvider.remove_container *)
Definition local_remove_container (container_id : string) : M local unit :=
  modify (fun st => {| containers := delete container_id (containers st);
                       container_uses := ddel container_id (container_uses st);
                       sessions := sessions st |}).

(* worker/environment/state/local.py:55-66 LocalStateProvider.store_session *)
Definition local_set_session (f : gmap string val -> gmap string val) : M local unit :=
  modify (fun st => {| containers := containers st; container_uses := container_uses st;
                       sessions := f (sessions st) |}).

(** No locking, no expiry. *)
(* worker/environment/state/local.py:18-72 LocalStateProvider *)
#[export] Instance LocalStateProvider : StateProvider local := {|
  acquire_lock _ _ _ := mret true;
  release_lock _ _ := mret tt;
  allocate_container := local_allocate_container;
  renew_container _ _ := mret tt;
  container_is_allocated := local_container_is_allocated;
  container_current_uses c :=
    gets (fun st => Z.of_nat (size (default ∅ (containers st !! c))));
  container_total_uses c := gets (fun st => dget_or c 0 (container_uses st));
  containers_total_uses_gte := local_containers_total_uses_gte;
  release_container := local_release_container;
  remove_container := local_remove_container;
  store_session s d := local_set_session <[s := d]>;
  renew_session _ := mret tt;
  get_session s := gets (fun st => sessions st !! s);
  delete_session s := local_set_session (delete s)
|}.

Record local_rel (st : local) (sp : spec) : Prop := {
  lr_wf : dict_wf (container_uses st);
  lr_users c : default ∅ (containers st !! c) = users c sp;
  lr_uses c : dget c (container_uses st) = s_uses sp !! c;
  lr_dom c : is_Some (containers st !! c) <-> is_Some (s_uses sp !! c);
  lr_sessions : sessions st = s_sessions sp
}.

#[export] Instance local_implements : Implements local local_rel (fun _ => True).
Proof.
  intros q st sp _ [Hwf Hu Hn Hd Hs]. destruct q as [c s|c s|c|c|c|c s|c|s d|s|s|s]; simpl.
  - unfold local_allocate_container, dmem. pose proof (Hn c) as Hnc. pose proof (Hd c) as Hdc.
    pose proof (Hu c) as Huc. unfold uses. unfold mbind, M_bind.
    rewrite Hnc. destruct (s_uses sp !! c) as [n|] eqn:En; simpl.
    + destruct (proj2 Hdc ltac:(by eexists)) as [X HX]. rewrite HX in *. rewrite Hnc. simpl in *.
      eexists. split; [done|]. split; simpl; [by apply dset_wf| | | |done]; intros c'.
      * unfold users; simpl. rewrite !lookup_insert. case_decide; [by subst|]. apply Hu.
      * rewrite dget_dset, lookup_insert. repeat case_decide; congruence.
      * rewrite !lookup_insert. case_decide; [split; by eexists|]. apply Hd.
    + rewrite lookup_insert_eq, dget_dset_eq. simpl.
      assert (users c sp = ∅) as Hemp.
      { rewrite <- Huc. destruct (containers st !! c); [|done].
        destruct (proj1 Hdc ltac:(by eexists)). done. }
      eexists. split; [done|].
      split; simpl; [by apply dset_wf, dset_wf| | | |done]; intros c'.
      * unfold users at 1; simpl. rewrite !lookup_insert, Hemp. case_decide; [done|]. apply Hu.
      * rewrite !dget_dset, lookup_insert. repeat case_decide; first [congruence|apply Hn].
      * rewrite !lookup_insert. case_decide; [split; by eexists|]. apply Hd.
  - by eexists.
  - eexists. split; [|done]. cbv [mbind M_bind gets local_container_is_allocated mret M_ret].
    do 3 f_equal. rewrite <- Hu. destruct (containers st !! c) as [X|]; simpl.
    + apply size_pos_bool.
    + symmetry. by apply bool_decide_eq_false_2; intros [].
  - eexists. split; [|done]. cbv [mbind M_bind gets mret M_ret]. by rewrite Hu.
  - eexists. split; [|done]. cbv [mbind M_bind gets mret M_ret]. unfold dget_or, uses.
    by rewrite Hn; destruct (s_uses sp !! c).
  - eexists. split; [done|]. pose proof (Hu c) as Huc. destruct (containers st !! c) as [X|] eqn:Ec.
    + split; simpl; try done; intros c'.
      * unfold users at 1; simpl. rewrite !lookup_insert. case_decide; [simpl; by rewrite <- Huc|].
        apply Hu.
      * rewrite !lookup_insert. case_decide; [subst; rewrite <- Hd, Ec; split; by eexists|]. apply Hd.
    + split; simpl; try done; intros c'. unfold users at 1; simpl. rewrite lookup_insert.
      case_decide; [subst; rewrite Ec, <- Huc; set_solver|apply Hu].
  - eexists. split; [done|]. split; simpl; [by apply ddel_wf| | | |done]; intros c'.
    + unfold users; simpl. rewrite !lookup_delete. case_decide; [done|apply Hu].
    + rewrite dget_ddel, lookup_delete by done. repeat case_decide; first [congruence|done].
    + rewrite !lookup_delete. case_decide; [done|apply Hd].
  - eexists. split; [done|]. split; simpl; try done. by rewrite Hs.
  - by eexists.
  - eexists. split; [|done]. cbv [mbind M_bind gets mret M_ret]. by rewrite Hs.
  - eexists. split; [done|]. split; simpl; try done. by rewrite Hs.
Qed.

Lemma local_rel_new : local_rel new_local new_spec.
Proof.
  split; simpl; try done; [constructor|]. intros c. rewrite !lookup_empty. split; by intros [].
Qed.

(** The in-memory provider answers every sequence of requests as the abstract
    specification of containers, uses and sessions does, and never raises. *)
Theorem local_refines (l : list request) :
  answers l new_local = Ok <$> spec_answers l new_spec.
Proof.
  apply (implements_answers (R := local_rel) (valid := fun _ => True)); [by apply Forall_true|].
  apply local_rel_new.
Qed.

(** Whatever the body does, [with_lock] has released the lock at its end, and
    the body only runs once the lock has been granted. *)
Section with_lock_proofs.
Context {S A : Type} `{StateProvider S}.
Context (lock_name : string) (client_id : option string) (timeout : Z).
(** [Free] and [Held] as the provider's [acquire_lock] and [release_lock] see
    them. *)
Context (Free Held : S -> Prop).
Hypothesis Hacquire : forall s, Free s ->
  exists s', acquire_lock lock_name client_id timeout s = (s', Ok true) ∧ Held s' \/
             acquire_lock lock_name client_id timeout s = (s', Ok false) ∧ Free s'.
Hypothesis Hrelease : forall s, Held s ->
  exists s', release_lock lock_name client_id s = (s', Ok tt) ∧ Free s'.

Lemma acquire_loop_held fuel s :
  Free s ->
  let '(s', r) := acquire_loop fuel lock_name client_id timeout s in
  (r = Ok tt ∧ Held s') ∨ (r = Raise RecursionLimit ∧ Free s').
Proof.
  revert s. induction fuel as [|fuel IH]; intros s Hf; simpl; [by right|].
  destruct (Hacquire s Hf) as (s' & [[Ha Hh]|[Ha Hh]]); erewrite M_bind_run by exact Ha;
    [by left|by apply IH].
Qed.

(** With_lock runs its body only once the lock is held, passes on what the body
    returns or raises, and leaves the lock free in every case. *)
Theorem with_lock_correct (fuel : nat) (body : M S A) (s : S) :
  Free s ->
  (forall s, Held s -> Held (body s).1) ->
  let '(s', r) := with_lock fuel lock_name client_id timeout body s in
  Free s' ∧ (r = Raise RecursionLimit ∨ exists s1, Held s1 ∧ r = (body s1).2).
Proof.
  intros Hf Hb. unfold with_lock.
  pose proof (acquire_loop_held fuel s Hf) as Hl.
  destruct (acquire_loop fuel lock_name client_id timeout s) as [s1 r] eqn:E.
  destruct Hl as [[-> Hh]|[-> Hfree]].
  - erewrite M_bind_run by exact E. unfold finally.
    destruct (body s1) as [s2 r2] eqn:Eb. specialize (Hb s1 Hh). rewrite Eb in Hb.
    destruct (Hrelease s2 Hb) as (s3 & Hr & Hf3). rewrite Hr. split; [done|].
    right. exists s1. by rewrite Eb.
  - erewrite M_bind_raise by exact E. auto.
Qed.
End with_lock_proofs.

(** A lock with a queue of one: free, or held by a client. *)
#[local] Instance demo_lock : StateProvider (option string) := {|
  acquire_lock _ c _ := fun s => match s with
                                 | None => (c, Ok true)
                                 | Some _ => (s, Ok false)
                                 end;
  release_lock _ _ := fun _ => (None, Ok tt);
  allocate_container _ _ := mret tt; renew_container _ _ := mret tt;
  container_is_allocated _ := mret false; container_current_uses _ := mret 0;
  container_total_uses _ := mret 0; containers_total_uses_gte _ := mret [];
  release_container _ _ := mret tt; remove_container _ := mret tt;
  store_session _ _ := mret tt; renew_session _ := mret tt;
  get_session _ := mret None; delete_session _ := mret tt
|}.

Lemma with_lock_correct_witness :
  (with_lock 3 "l" (Some "me") 10 (raise ValueError : M (option string) unit) None).1 = None.
Proof.
  pose proof (with_lock_correct "l" (Some "me") 10 (fun s => s = None) (fun s => s = Some "me")
    ltac:(intros s ->; eexists; left; split; reflexivity)
    ltac:(intros s ->; eexists; split; reflexivity)
    3 (raise ValueError : M (option string) unit) None eq_refl
    ltac:(intros s H; exact H)) as H.
  exact (proj1 H).
Defined.
