(* ===== verification/Redis.v ===== *)
(** * The Redis state provider

    Models worker/environment/state/redis.py: the Lua scripts, the keys and
    the provider, over a Redis server given by its documented commands. *)

From S2P Require Import Prelude PyVal State.

(** ** The server *)

(** The commands the provider and its scripts send; values are strings. *)
Class RedisServer (db : Type) := {
  r_get : string -> db -> option string;
  (** [SET key value EX seconds] *)
  r_set : string -> string -> Z -> db -> db;
  (** [SET key value NX EX seconds] *)
  r_set_nx : string -> string -> Z -> db -> db * bool;
  (** [EXPIRE key seconds] *)
  r_expire : string -> Z -> db -> db * Z;
  r_del : string -> db -> db;
  r_incr : string -> db -> db;
  (** [KEYS pattern] *)
  r_keys : string -> db -> list string
}.

(** No character of the pattern is special to [KEYS]. *)
Definition glob_free (p : string) : Prop :=
  Forall (fun c => c ∉ ["*"; "?"; "["; "\"]%char) (chars p).

(** The documented behaviour of the commands, as long as nothing expires. *)
Class RedisLaws (db : Type) `{RedisServer db} : Prop := {
  get_set k k' v t s : 0 < t -> r_get k (r_set k' v t s) = if decide (k = k') then Some v else r_get k s;
  get_set_nx k k' v t s : 0 < t ->
    (r_set_nx k' v t s).2 = bool_decide (r_get k' s = None) ∧
    r_get k (r_set_nx k' v t s).1 =
      if decide (k = k' ∧ r_get k' s = None) then Some v else r_get k s;
  get_expire k k' t s : 0 < t ->
    (r_expire k' t s).2 = match r_get k' s with Some _ => 1 | None => 0 end ∧ r_get k (r_expire k' t s).1 = r_get k s;
  get_del k k' s : r_get k (r_del k' s) = if decide (k = k') then None else r_get k s;
  get_incr k k' n s :
    match r_get k' s with None => n = 0 | Some v => py_int v = Some n end ->
    r_get k (r_incr k' s) = if decide (k = k') then Some (str_Z (n + 1)) else r_get k s;
  keys_prefix p s : glob_free p ->
    NoDup (r_keys (p +:+ "*") s) ∧
    forall k, k ∈ r_keys (p +:+ "*") s <-> starts_with p k = true ∧ is_Some (r_get k s)
}.

(** ** Scripts *)
Section scripts.
Context {db : Type} `{RedisServer db}.

(* worker/environment/state/redis.py:14-27 ACQUIRE_LOCK_SCRIPT *)
Definition ACQUIRE_LOCK_SCRIPT (key client_id : string) (timeout : Z) (s : db) : db * Z :=
  let '(s, set) := r_set_nx key client_id timeout s in
  if (set : bool) then (s, 1)
  else if bool_decide (r_get key s = Some client_id) then r_expire key timeout s
  else (s, 0).

(* worker/environment/state/redis.py:29-37 RELEASE_LOCK_SCRIPT *)
Definition RELEASE_LOCK_SCRIPT (key client_id : string) (s : db) : db :=
  if bool_decide (r_get key s = Some client_id) then r_del key s else s.

(* worker/environment/state/redis.py:39-43 COUNT_KEYS_SCRIPT *)
Definition COUNT_KEYS_SCRIPT (pattern : string) (s : db) : Z :=
  Z.of_nat (length (r_keys pattern s)).

(** The table [result] is built, but [res], a global that does not exist, is
    returned: Redis refuses the access. *)
(* worker/environment/state/redis.py:45-58 KEYS_VALUE_GTE_SCRIPT *)
Definition KEYS_VALUE_GTE_SCRIPT (pattern : string) (threshold : Z) (s : db)
    : res (list string) :=
  let result := filter (fun k => match r_get k s ≫= py_int with
                                 | Some v => bool_decide (threshold ≤ v)
                                 | None => false
                                 end = true) (r_keys pattern s) in
  Raise ResponseError.

(* worker/environment/state/redis.py:60-67 DELETE_KEYS_SCRIPT *)
Definition DELETE_KEYS_SCRIPT (pattern : string) (s : db) : db :=
  foldl (fun s key => r_del key s) s (r_keys pattern s).
End scripts.

(** ** The provider *)
Section redis.
Context {db : Type} `{RedisServer db}.
(** [self.prefix], [self._client_id] and the JSON codec. *)
Context (raw_prefix client_id : string).
Context (json_dumps : val -> string) (json_loads : string -> option val).

(* worker/environment/state/redis.py:77-79 RedisStateProvider.__init__ *)
Definition prefix : string :=
  if bool_decide (raw_prefix = "") then "" else raw_prefix +:+ ":".
(* worker/environment/state/redis.py:80-80 RedisStateProvider.__init__ *)
Definition session_expiry : Z := 600.

(* worker/environment/state/redis.py:183-184 RedisStateProvider._lock_key *)
Definition lock_key (lock_name : string) : string := prefix +:+ "lock:" +:+ lock_name.
(* worker/environment/state/redis.py:186-187 RedisStateProvider._container_key_prefix *)
Definition container_key_prefix (c : string) : string :=
  prefix +:+ "container:" +:+ c +:+ ":".
(* worker/environment/state/redis.py:189-190 RedisStateProvider._container_allocation_key_prefix *)
Definition container_allocation_key_prefix (c : string) : string :=
  container_key_prefix c +:+ "allocation:".
(* worker/environment/state/redis.py:192-193 RedisStateProvider._container_allocation_key *)
Definition container_allocation_key (c s : string) : string :=
  container_allocation_key_prefix c +:+ s.
(* worker/environment/state/redis.py:195-196 RedisStateProvider._container_uses_key *)
Definition container_uses_key (c : string) : string := container_key_prefix c +:+ "uses".
(* worker/environment/state/redis.py:198-199 RedisStateProvider._session_key *)
Definition session_key (s : string) : string := prefix +:+ "session:" +:+ s.

(* worker/environment/state/redis.py:107-107 RedisStateProvider.acquire_lock *)
Definition owner (client : option string) : string :=
  match client with Some c => c | None => client_id end.

(* worker/environment/state/redis.py:104-108 RedisStateProvider.acquire_lock *)
Definition redis_acquire_lock (lock_name : string) (client : option string) (timeout : Z)
    : M db bool := fun s =>
  let '(s, n) := ACQUIRE_LOCK_SCRIPT (lock_key lock_name) (owner client) timeout s in
  (s, Ok (negb (bool_decide (n = 0)))).

(* worker/environment/state/redis.py:110-114 RedisStateProvider.release_lock *)
Definition redis_release_lock (lock_name : string) (client : option string) : M db unit :=
  modify (RELEASE_LOCK_SCRIPT (lock_key lock_name) (owner client)).

(* worker/environment/state/redis.py:116-121 RedisStateProvider.allocate_container *)
Definition redis_allocate_container (c s : string) : M db unit :=
  modify (r_set (container_allocation_key c s) "1" session_expiry);;
  modify (r_incr (container_uses_key c)).

(* worker/environment/state/redis.py:123-126 RedisStateProvider.renew_container *)
Definition redis_renew_container (c s : string) : M db unit :=
  modify (fun d => (r_expire (container_allocation_key c s) session_expiry d).1).

(* worker/environment/state/redis.py:131-134 RedisStateProvider.container_current_uses *)
Definition redis_container_current_uses (c : string) : M db Z :=
  gets (COUNT_KEYS_SCRIPT (container_allocation_key_prefix c +:+ "*")).

(* worker/environment/state/redis.py:128-129 RedisStateProvider.container_is_allocated *)
Definition redis_container_is_allocated (c : string) : M db bool :=
  n ← redis_container_current_uses c; mret (bool_decide (0 < n)).

(* worker/environment/state/redis.py:136-139 RedisStateProvider.container_total_uses *)
Definition redis_container_total_uses (c : string) : M db Z :=
  v ← gets (r_get (container_uses_key c));
  match v with
  | None | Some EmptyString => mret 0
  | Some v => lift_res (match py_int v with Some n => Ok n | None => Raise ValueError end)
  end.

(** [key.split(':')[-2]] *)
(* worker/environment/state/redis.py:144-145 RedisStateProvider.containers_total_uses_gte *)
Definition second_to_last (l : list string) : res string :=
  match reverse l with
  | _ :: x :: _ => Ok x
  | _ => Raise IndexError
  end.

(* worker/environment/state/redis.py:141-147 RedisStateProvider.containers_total_uses_gte *)
Definition redis_containers_total_uses_gte (threshold : Z) : M db (list string) :=
  keys ← (fun s => (s, KEYS_VALUE_GTE_SCRIPT (container_uses_key "*") threshold s));
  lift_res (mapM (fun key => second_to_last (split_on ":" key)) keys).

(* worker/environment/state/redis.py:149-152 RedisStateProvider.release_container *)
Definition redis_release_container (c s : string) : M db unit :=
  modify (r_del (container_allocation_key c s)).

(* worker/environment/state/redis.py:154-157 RedisStateProvider.remove_container *)
Definition redis_remove_container (c : string) : M db unit :=
  modify (DELETE_KEYS_SCRIPT (container_key_prefix c +:+ "*")).

(* worker/environment/state/redis.py:159-161 RedisStateProvider.store_session *)
Definition redis_store_session (s : string) (data : val) : M db unit :=
  modify (r_set (session_key s) (json_dumps data) session_expiry).

(* worker/environment/state/redis.py:163-168 RedisStateProvider.get_session *)
Definition redis_get_session (s : string) : M db (option val) :=
  v ← gets (r_get (session_key s));
  mret (v ≫= json_loads).

(* worker/environment/state/redis.py:170-172 RedisStateProvider.renew_session *)
Definition redis_renew_session (s : string) : M db unit :=
  modify (fun d => (r_expire (session_key s) session_expiry d).1).

(* worker/environment/state/redis.py:174-176 RedisStateProvider.delete_session *)
Definition redis_delete_session (s : string) : M db unit :=
  modify (r_del (session_key s)).

(* worker/environment/state/redis.py:70-70 RedisStateProvider *)
Definition RedisStateProvider : StateProvider db := {|
  acquire_lock := redis_acquire_lock;
  release_lock := redis_release_lock;
  allocate_container := redis_allocate_container;
  renew_container := redis_renew_container;
  container_is_allocated := redis_container_is_allocated;
  container_current_uses := redis_container_current_uses;
  container_total_uses := redis_container_total_uses;
  containers_total_uses_gte := redis_containers_total_uses_gte;
  release_container := redis_release_container;
  remove_container := redis_remove_container;
  store_session := redis_store_session;
  renew_session := redis_renew_session;
  get_session := redis_get_session;
  delete_session := redis_delete_session
|}.
End redis.

(** ** Correctness *)
Section proofs.
Context {db : Type} `{RedisLaws db}.
Context (raw_prefix client_id : string).
Context (json_dumps : val -> string) (json_loads : string -> option val).
Hypothesis prefix_plain : glob_free raw_prefix.

Abbreviation prefix := (prefix raw_prefix).
Abbreviation container_key_prefix := (container_key_prefix raw_prefix).
Abbreviation container_allocation_key_prefix := (container_allocation_key_prefix raw_prefix).
Abbreviation container_allocation_key := (container_allocation_key raw_prefix).
Abbreviation container_uses_key := (container_uses_key raw_prefix).
Abbreviation session_key := (session_key raw_prefix).

#[local] Instance provider : StateProvider db :=
  RedisStateProvider raw_prefix client_id json_dumps json_loads.

Definition plain_id (c : string) : Prop := no_char ":"%char c ∧ glob_free c.

(** *** Keys *)

Lemma container_key_eq c r :
  container_key_prefix c +:+ r = prefix +:+ ("container:" +:+ (c +:+ String ":" r)).
Proof. unfold Redis.container_key_prefix. by rewrite !str_app_assoc. Qed.

Lemma container_key_inj c c' r r' :
  plain_id c -> plain_id c' ->
  container_key_prefix c +:+ r = container_key_prefix c' +:+ r' -> c = c' ∧ r = r'.
Proof.
  intros [Hc _] [Hc' _]. rewrite !container_key_eq.
  intros Heq%str_app_inj%str_app_inj. by eapply sep_inj.
Qed.

Lemma container_session_ne c r s : container_key_prefix c +:+ r ≠ session_key s.
Proof.
  rewrite container_key_eq. unfold Redis.session_key. by intros Heq%str_app_inj.
Qed.

Lemma allocation_key_eq c s :
  container_allocation_key c s = container_key_prefix c +:+ ("allocation:" +:+ s).
Proof. unfold Redis.container_allocation_key, Redis.container_allocation_key_prefix. by rewrite str_app_assoc. Qed.

Lemma allocation_key_inj c c' s s' :
  plain_id c -> plain_id c' ->
  container_allocation_key c s = container_allocation_key c' s' -> c = c' ∧ s = s'.
Proof.
  intros Hc Hc'. rewrite !allocation_key_eq.
  intros [-> Heq]%container_key_inj; [|done..]. by apply str_app_inj in Heq.
Qed.

Lemma allocation_uses_ne c c' s :
  plain_id c -> plain_id c' -> container_allocation_key c s ≠ container_uses_key c'.
Proof.
  intros Hc Hc'. rewrite allocation_key_eq. unfold Redis.container_uses_key.
  by intros [_ Heq]%container_key_inj.
Qed.

Lemma uses_key_inj c c' :
  plain_id c -> plain_id c' -> container_uses_key c = container_uses_key c' -> c = c'.
Proof. unfold Redis.container_uses_key. by intros Hc Hc' [-> _]%container_key_inj. Qed.

Lemma session_key_inj s s' : session_key s = session_key s' -> s = s'.
Proof. unfold Redis.session_key. by intros Heq%str_app_inj%str_app_inj. Qed.

Lemma glob_free_app p q : glob_free p -> glob_free q -> glob_free (p +:+ q).
Proof.
  unfold glob_free. intros Hp Hq. induction p as [|x p IH]; [done|].
  apply Forall_cons in Hp as [Hx Hp]. apply Forall_cons. split; [done|]. by apply IH.
Qed.

Lemma glob_free_lit p : (if decide (glob_free p) then True else False) -> glob_free p.
Proof. by case_decide. Qed.

Lemma prefix_glob_free : glob_free prefix.
Proof.
  unfold Redis.prefix. case_bool_decide; [constructor|].
  apply glob_free_app; [done|]. by apply glob_free_lit.
Qed.

Lemma container_prefix_glob_free c : plain_id c -> glob_free (container_key_prefix c).
Proof.
  intros [_ Hc]. unfold Redis.container_key_prefix.
  repeat apply glob_free_app; try (by apply glob_free_lit); [apply prefix_glob_free|done].
Qed.

Lemma keys_under c r s k :
  plain_id c -> glob_free r ->
  k ∈ r_keys ((container_key_prefix c +:+ r) +:+ "*") s <->
  (exists t, k = container_key_prefix c +:+ (r +:+ t)) ∧ is_Some (r_get k s).
Proof.
  intros Hc Hr.
  destruct (keys_prefix (container_key_prefix c +:+ r) s) as [_ ->];
    [by apply glob_free_app; [apply container_prefix_glob_free|]|].
  rewrite starts_with_iff.
  split; intros [[t ->] ?]; (split; [exists t; by rewrite ?str_app_assoc|done]).
Qed.

Lemma get_delete_keys pat k s :
  r_get k (DELETE_KEYS_SCRIPT pat s) =
    if decide (k ∈ r_keys pat s) then None else r_get k s.
Proof.
  unfold DELETE_KEYS_SCRIPT. generalize (r_keys pat s). intros l. revert s.
  induction l as [|k' l IH]; intros s.
  { destruct (decide (k ∈ [])) as [Hin|]; [by apply elem_of_nil in Hin|done]. }
  cbn [foldl]. rewrite IH, get_del.
  destruct (decide (k ∈ l)), (decide (k = k')), (decide (k ∈ k' :: l)) as [Hin|Hin]; try done;
    rewrite elem_of_cons in Hin; naive_solver.
Qed.

(** *** The refinement *)

Record redis_rel (d : db) (sp : spec) : Prop := {
  rr_alloc c s : plain_id c ->
    is_Some (r_get (container_allocation_key c s) d) <-> s ∈ users c sp;
  rr_uses c : plain_id c -> r_get (container_uses_key c) d = str_Z <$> s_uses sp !! c;
  rr_pos c n : s_uses sp !! c = Some n -> 0 <= n;
  rr_session s :
    match s_sessions sp !! s with
    | Some data => r_get (session_key s) d = Some (json_dumps data) ∧
                   json_loads (json_dumps data) = Some data
    | None => r_get (session_key s) d = None
    end
}.

Definition valid (q : request) : Prop :=
  match q with
  | AllocateContainer c _ | RenewContainer c _ | ReleaseContainer c _
  | ContainerIsAllocated c | ContainerCurrentUses c | ContainerTotalUses c
  | RemoveContainer c => plain_id c
  | StoreSession _ data => json_loads (json_dumps data) = Some data
  | _ => True
  end.

(** A change of the database that leaves every key of the relation alone. *)
Lemma redis_rel_ext d d' sp :
  (forall k, r_get k d' = r_get k d) -> redis_rel d sp -> redis_rel d' sp.
Proof.
  intros Heq [Ha Hu Hp Hs]. split.
  - intros c s Hc. rewrite Heq. by apply Ha.
  - intros c Hc. rewrite Heq. by apply Hu.
  - exact Hp.
  - intros s. rewrite Heq. apply Hs.
Qed.

Lemma current_uses_eq d sp c :
  plain_id c -> redis_rel d sp ->
  COUNT_KEYS_SCRIPT (container_allocation_key_prefix c +:+ "*") d = Z.of_nat (size (users c sp)).
Proof.
  intros Hc HR. unfold COUNT_KEYS_SCRIPT. f_equal.
  set (pat := container_allocation_key_prefix c +:+ "*").
  assert (r_keys pat d ≡ₚ container_allocation_key c <$> elements (users c sp)) as ->.
  { apply NoDup_Permutation.
    - refine (proj1 (keys_prefix _ _ _)). apply glob_free_app;
        [by apply container_prefix_glob_free|by apply glob_free_lit].
    - apply NoDup_fmap_2_strong; [|apply NoDup_elements].
      intros x y _ _ Heq. by destruct (allocation_key_inj c c x y Hc Hc Heq).
    - intros k. unfold pat, Redis.container_allocation_key_prefix.
      rewrite keys_under by (done || by apply glob_free_lit).
      rewrite list_elem_of_fmap. split.
      + intros [[t ->] Hsome]. exists t. rewrite elem_of_elements.
        rewrite <- (rr_alloc _ _ HR) by done. by rewrite allocation_key_eq.
      + intros (t & -> & Hin%elem_of_elements). rewrite <- (rr_alloc _ _ HR) in Hin by done.
        split; [|done]. exists t. apply allocation_key_eq. }
  by rewrite length_fmap.
Qed.

Lemma allocate_rel d sp c s :
  plain_id c -> redis_rel d sp ->
  redis_rel (r_incr (container_uses_key c) (r_set (container_allocation_key c s) "1" session_expiry d))
    (spec_step (AllocateContainer c s) sp).1.
Proof.
  intros Hc [Ha Hu Hp Hs].
  assert (forall k, r_get k (r_incr (container_uses_key c)
    (r_set (container_allocation_key c s) "1" session_expiry d)) =
    if decide (k = container_uses_key c) then Some (str_Z (uses c sp + 1))
    else if decide (k = container_allocation_key c s) then Some "1" else r_get k d) as Hget.
  { intros k. rewrite (get_incr _ _ (uses c sp)).
    - case_decide; [done|]. by rewrite get_set.
    - rewrite get_set by done. rewrite decide_False by (by apply not_eq_sym, allocation_uses_ne).
      rewrite Hu by done. unfold uses. destruct (s_uses sp !! c) as [n|] eqn:E; simpl; [|done].
      apply py_int_str_Z. by eapply Hp. }
  split; simpl.
  - intros c' s' Hc'. rewrite Hget.
    rewrite (decide_False (P := container_allocation_key c' s' = _)) by (by apply allocation_uses_ne).
    unfold users; simpl. rewrite lookup_insert.
    destruct (decide (c = c')) as [->|Hne]; simpl.
    + destruct (decide (container_allocation_key c' s' = container_allocation_key c' s))
        as [Heq|Hne].
      * apply allocation_key_inj in Heq as [_ ->]; [|done..]. split; [set_solver|by eexists].
      * rewrite Ha by done. fold (users c' sp). split; [set_solver|].
        intros [->%elem_of_singleton|?]%elem_of_union; [done|done].
    + rewrite decide_False by (by intros [<- _]%allocation_key_inj). by apply Ha.
  - intros c' Hc'. rewrite Hget, lookup_insert.
    destruct (decide (c = c')) as [->|Hne]; [by rewrite decide_True|].
    rewrite decide_False by (by intros <-%uses_key_inj).
    rewrite decide_False by (by apply not_eq_sym, allocation_uses_ne). by apply Hu.
  - intros c' n. rewrite lookup_insert. case_decide; [|by apply Hp].
    intros [= <-]. unfold uses. destruct (s_uses sp !! c) eqn:E; simpl; [|lia].
    apply Hp in E. lia.
  - intros s'. rewrite Hget.
    rewrite decide_False by (by apply not_eq_sym, container_session_ne).
    rewrite allocation_key_eq, decide_False by (by apply not_eq_sym, container_session_ne).
    apply Hs.
Qed.

Lemma release_rel d sp c s :
  plain_id c -> redis_rel d sp ->
  redis_rel (r_del (container_allocation_key c s) d) (spec_step (ReleaseContainer c s) sp).1.
Proof.
  intros Hc [Ha Hu Hp Hs]. split; simpl; [| |done|].
  - intros c' s' Hc'. rewrite get_del. unfold users; simpl. rewrite lookup_insert.
    destruct (decide (c = c')) as [->|Hne]; simpl.
    + case_decide as Heq.
      * apply allocation_key_inj in Heq as [_ ->]; [|done..]. split; [by intros []|set_solver].
      * rewrite Ha by done. fold (users c' sp). set_solver.
    + rewrite decide_False by (by intros [<- _]%allocation_key_inj). by apply Ha.
  - intros c' Hc'. rewrite get_del, decide_False by (by apply not_eq_sym, allocation_uses_ne).
    by apply Hu.
  - intros s'. rewrite get_del, allocation_key_eq, decide_False
      by (by apply not_eq_sym, container_session_ne). apply Hs.
Qed.

Lemma remove_rel d sp c :
  plain_id c -> redis_rel d sp ->
  redis_rel (DELETE_KEYS_SCRIPT (container_key_prefix c +:+ "*") d)
    (spec_step (RemoveContainer c) sp).1.
Proof.
  intros Hc [Ha Hu Hp Hs].
  assert (forall k, k ∈ r_keys (container_key_prefix c +:+ "*") d <->
    (exists t, k = container_key_prefix c +:+ t) ∧ is_Some (r_get k d)) as Hkeys.
  { intros k. destruct (keys_prefix (container_key_prefix c) d) as [_ ->];
      [by apply container_prefix_glob_free|]. by rewrite starts_with_iff. }
  split; simpl.
  - intros c' s' Hc'. rewrite get_delete_keys. unfold users; simpl. rewrite lookup_delete.
    case_decide as Hin; destruct (decide (c = c')) as [->|Hne]; simpl.
    + split; [by intros []|set_solver].
    + apply Hkeys in Hin as [[t Ht] _]. rewrite allocation_key_eq in Ht.
      by apply container_key_inj in Ht as [<- _].
    + split; [|set_solver]. intros Hsome. destruct Hin. apply Hkeys.
      split; [|done]. rewrite allocation_key_eq. by eexists.
    + by apply Ha.
  - intros c' Hc'. rewrite get_delete_keys, lookup_delete.
    case_decide as Hin; destruct (decide (c = c')) as [->|Hne]; simpl; [done| | |by apply Hu].
    + apply Hkeys in Hin as [[t Ht] _]. by apply container_key_inj in Ht as [<- _].
    + destruct (r_get (container_uses_key c') d) eqn:E; [|done]. destruct Hin. apply Hkeys.
      split; [by eexists|by eexists].
  - intros c' n. rewrite lookup_delete. case_decide; [done|]. apply Hp.
  - intros s. rewrite get_delete_keys, decide_False; [apply Hs|].
    intros [[t Ht] _]%Hkeys. symmetry in Ht. by apply container_session_ne in Ht.
Qed.

Lemma session_rel d d' sp s o :
  redis_rel d sp ->
  (forall k, r_get k d' = if decide (k = session_key s) then json_dumps <$> o else r_get k d) ->
  (forall data, o = Some data -> json_loads (json_dumps data) = Some data) ->
  redis_rel d' {| s_alloc := s_alloc sp; s_uses := s_uses sp;
                  s_sessions := partial_alter (fun _ => o) s (s_sessions sp) |}.
Proof.
  intros [Ha Hu Hp Hs] Hget Ho. split; simpl.
  - intros c t Hc. rewrite Hget, allocation_key_eq, decide_False by apply container_session_ne.
    rewrite <- allocation_key_eq. by apply Ha.
  - intros c Hc. rewrite Hget, decide_False by apply container_session_ne. by apply Hu.
  - exact Hp.
  - intros s'. rewrite Hget. destruct (decide (s' = s)) as [->|Hne].
    + rewrite lookup_partial_alter_eq, decide_True by done. destruct o; [by split; [|apply Ho]|done].
    + rewrite lookup_partial_alter_ne by done.
      rewrite decide_False by (by intros ?%session_key_inj). apply Hs.
Qed.

#[export] Instance redis_implements : Implements db redis_rel valid.
Proof.
  intros q d sp Hv HR. destruct q as [c s|c s|c|c|c|c s|c|s data|s|s|s]; simpl in Hv.
  - eexists. split; [done|]. by apply allocate_rel.
  - eexists. split; [done|]. eapply redis_rel_ext, HR. intros k. by apply get_expire.
  - eexists. split; [|done]. unfold perform. simpl. unfold redis_container_is_allocated.
    cbv [mbind M_bind gets redis_container_current_uses mret M_ret].
    by rewrite (current_uses_eq d sp c Hv HR), size_pos_bool.
  - eexists. split; [|done]. unfold perform. simpl.
    cbv [mbind M_bind gets redis_container_current_uses mret M_ret].
    by rewrite (current_uses_eq d sp c Hv HR).
  - eexists. split; [|done]. unfold perform. simpl. unfold redis_container_total_uses.
    cbv [mbind M_bind gets mret M_ret]. pose proof (rr_uses _ _ HR c Hv) as Hu.
    unfold uses. rewrite Hu. destruct (s_uses sp !! c) as [n|] eqn:E; simpl; [|done].
    pose proof (py_int_str_Z n (rr_pos _ _ HR c n E)) as Hn.
    destruct (str_Z n) eqn:Es; [by vm_compute in Hn|]. by rewrite Hn.
  - eexists. split; [done|]. by apply release_rel.
  - eexists. split; [done|]. by apply remove_rel.
  - eexists. split; [done|]. apply (session_rel d _ sp s (Some data)); [done| |by intros ? [= <-]].
    intros k. by apply get_set.
  - eexists. split; [done|]. eapply redis_rel_ext, HR. intros k. by apply get_expire.
  - eexists. split; [|done]. unfold perform. simpl. unfold redis_get_session.
    cbv [mbind M_bind gets mret M_ret]. pose proof (rr_session _ _ HR s) as Hs.
    destruct (s_sessions sp !! s) as [data|]; [destruct Hs as [-> Hj]|rewrite Hs];
      simpl; [by rewrite Hj|done].
  - eexists. split; [done|]. apply (session_rel d _ sp s None); [done| |done].
    intros k. by apply get_del.
Qed.


Lemma release_script_get key me d k :
  r_get k (RELEASE_LOCK_SCRIPT key me d) =
    if decide (k = key ∧ r_get key d = Some me) then None else r_get k d.
Proof.
  unfold RELEASE_LOCK_SCRIPT. case_bool_decide as Hg.
  - rewrite get_del. repeat case_decide; naive_solver.
  - by rewrite decide_False by naive_solver.
Qed.

Lemma acquire_script_get key me timeout d :
  0 < timeout ->
  let free := bool_decide (r_get key d = None ∨ r_get key d = Some me) in
  let '(d1, n) := ACQUIRE_LOCK_SCRIPT key me timeout d in
  n = (if free then 1 else 0) ∧
  forall k, r_get k d1 = if decide (k = key ∧ free = true) then Some me else r_get k d.
Proof.
  intros Ht free. unfold ACQUIRE_LOCK_SCRIPT, free. clear free.
  destruct (r_set_nx key me timeout d) as [d1 b] eqn:Ex.
  assert (forall k, b = bool_decide (r_get key d = None) ∧
    r_get k d1 = if decide (k = key ∧ r_get key d = None) then Some me else r_get k d) as Hnx.
  { intros k. pose proof (get_set_nx k key me timeout d Ht) as H1. by rewrite Ex in H1. }
  destruct (Hnx key) as [-> Hkey].
  destruct (r_get key d) as [v|] eqn:Ev; simpl.
  - rewrite decide_False in Hkey by naive_solver. rewrite Hkey.
    assert (forall k, r_get k d1 = r_get k d) as Hsame.
    { intros k. destruct (Hnx k) as [_ ->]. by rewrite decide_False by naive_solver. }
    destruct (decide (v = me)) as [->|Hne].
    + rewrite !bool_decide_eq_true_2 by auto.
      destruct (get_expire key key timeout d1 Ht) as [H1 _].
      destruct (r_expire key timeout d1) as [d2 n] eqn:Ee. rewrite Hsame, Ev in H1.
      split; [done|]. intros k. destruct (get_expire k key timeout d1 Ht) as [_ H3].
      rewrite Ee in H3. simpl in H3. rewrite H3, Hsame. case_decide as Hk; [|done].
      by destruct Hk as [-> _].
    + rewrite !bool_decide_eq_false_2 by naive_solver. split; [done|]. intros k.
      rewrite decide_False by naive_solver. apply Hsame.
  - split; [done|].
    intros k. destruct (Hnx k) as [_ ->]. repeat case_decide; naive_solver.
Qed.

(** A lock is granted exactly when nobody or the caller itself holds it, then
    belongs to the caller, and releasing it frees it exactly when the caller holds
    it; no other key changes. *)
Theorem redis_lock (d : db) (name : string) (client : option string) (timeout : Z) :
  0 < timeout ->
  let key := lock_key raw_prefix name in
  let me := owner client_id client in
  let free := bool_decide (r_get key d = None ∨ r_get key d = Some me) in
  (exists d', acquire_lock name client timeout d = (d', Ok free) ∧
     forall k, r_get k d' = if decide (k = key ∧ free = true) then Some me else r_get k d) ∧
  (exists d', release_lock name client d = (d', Ok tt) ∧
     forall k, r_get k d' = if decide (k = key ∧ r_get key d = Some me) then None
                            else r_get k d).
Proof.
  intros Ht key me free. split.
  - simpl. unfold redis_acquire_lock. fold key me.
    pose proof (acquire_script_get key me timeout d Ht) as Ha. simpl in Ha. fold free in Ha.
    destruct (ACQUIRE_LOCK_SCRIPT key me timeout d) as [d' n]. destruct Ha as [-> Ha].
    exists d'. split; [|done]. by destruct free.
  - eexists. split; [done|]. intros k. apply release_script_get.
Qed.

(** The script reads a variable it never sets. *)
Theorem redis_total_uses_gte_fails (threshold : Z) (d : db) :
  containers_total_uses_gte threshold d = (d, Raise ResponseError).
Proof. done. Qed.
End proofs.

(** ** A concrete server *)

Fixpoint strip_star (s : string) : option string :=
  match s with
  | EmptyString => None
  | String c EmptyString => if bool_decide (c = "*"%char) then Some EmptyString else None
  | String c s' => String c <$> strip_star s'
  end.

#[export] Instance demo_redis : RedisServer (gmap string string) := {|
  r_get k d := d !! k;
  r_set k v _ d := <[k := v]> d;
  r_set_nx k v _ d := match d !! k with
                      | Some _ => (d, false)
                      | None => (<[k := v]> d, true)
                      end;
  r_expire k _ d := (d, match d !! k with Some _ => 1 | None => 0 end);
  r_del k d := delete k d;
  r_incr k d := <[k := str_Z (default 0 (d !! k ≫= py_int) + 1)]> d;
  r_keys p d := match strip_star p with
                | Some q => filter (fun k => starts_with q k = true) (map_to_list d).*1
                | None => []
                end
|}.

Lemma strip_star_app p : strip_star (p +:+ "*") = Some p.
Proof.
  induction p as [|c p IH]; [done|].
  change (String c p +:+ "*") with (String c (p +:+ "*")). cbn [strip_star].
  destruct (p +:+ "*") eqn:E; [by destruct p|]. by rewrite IH.
Qed.

#[export] Instance demo_redis_laws : RedisLaws (gmap string string).
Proof.
  split; simpl.
  - intros k k' v t s _. rewrite lookup_insert. repeat case_decide; congruence.
  - intros k k' v t s _. destruct (s !! k') eqn:E; simpl; (split; [done|]).
    + by rewrite decide_False by naive_solver.
    + rewrite lookup_insert. repeat case_decide; naive_solver.
  - done.
  - intros k k' s. rewrite lookup_delete. repeat case_decide; congruence.
  - intros k k' n s Hn. rewrite lookup_insert. 
    assert (default 0 (s !! k' ≫= py_int) = n) as -> by (destruct (s !! k'); simpl; [by rewrite Hn|done]).
    repeat case_decide; congruence.
  - intros p s _. rewrite strip_star_app. split.
    + apply NoDup_filter, NoDup_fst_map_to_list.
    + intros k. rewrite list_elem_of_filter, list_elem_of_fmap. apply and_iff_compat_l.
      split.
      * intros ([k' v] & -> & Hin%elem_of_map_to_list). by eexists.
      * intros [v Hv]. exists (k, v). by rewrite elem_of_map_to_list.
Qed.

Definition demo_dumps (v : val) : string := match v with VInt n => str_Z n | _ => "null" end.
Definition demo_loads (s : string) : option val := VInt <$> py_int s.

Lemma plain_id_lit c :
  (if decide (":"%char ∉ chars c ∧ glob_free c) then True else False) -> plain_id c.
Proof. by case_decide. Qed.

Definition demo_requests : list request :=
  [AllocateContainer "c1" "a"; AllocateContainer "c1" "b"; AllocateContainer "c10" "b";
   ReleaseContainer "c1" "a"; ContainerCurrentUses "c1"; RemoveContainer "c1";
   ContainerCurrentUses "c10"; ContainerTotalUses "c10"; StoreSession "b" (VInt 7);
   GetSession "b"].


Lemma redis_lock_witness :
  exists d', @acquire_lock _ (RedisStateProvider "p" "me" demo_dumps demo_loads)
    "l" (Some "a") 10 ({["p:lock:l" := "b"]} : gmap string string) = (d', Ok false).
Proof.
  destruct (redis_lock "p" "me" demo_dumps demo_loads
    ({["p:lock:l" := "b"]} : gmap string string) "l" (Some "a") 10 ltac:(reflexivity))
    as [(d' & H & _) _].
  exists d'. exact H.
Defined.
