(* ===== verification/Etcd.v ===== *)
(** * The etcd state provider

    Models worker/environment/state/etcd.py over an etcd server given by its
    RPCs: key ranges, the retried calls, locks by transaction, leases and the
    compare-and-swap counter.  Keys are byte strings. *)

From S2P Require Import Prelude PyVal State.

(** ** Key ranges *)

Definition byte (c : ascii) : Z := Z.of_nat (Ascii.nat_of_ascii c).
Definition succ_byte (c : ascii) : ascii := Ascii.ascii_of_nat (S (Ascii.nat_of_ascii c)).
Definition zero_byte : ascii := Ascii.ascii_of_nat 0.

(** The loop of [_range_end] over the bytes from the last one: the first byte
    that is not 0xFF is incremented and what follows it dropped. *)
(* worker/environment/state/etcd.py:464-467 EtcdStateProvider._range_end *)
Fixpoint incr_last (rev : list ascii) : option (list ascii) :=
  match rev with
  | [] => None
  | c :: rev' => if bool_decide (byte c ≠ 255) then Some (succ_byte c :: rev') else incr_last rev'
  end.

(* worker/environment/state/etcd.py:459-468 EtcdStateProvider._range_end *)
Definition range_end (prefix : list ascii) : list ascii :=
  match prefix with
  | [] => [zero_byte]
  | _ => match incr_last (reverse prefix) with
         | Some r => reverse r
         | None => [zero_byte]
         end
  end.

(** The order of keys, and the keys of a range as etcd documents it: from [key]
    on, up to [range_end] excluded, without an upper bound when [range_end] is
    the byte 0. *)
Fixpoint key_le (a b : list ascii) : bool :=
  match a, b with
  | [], _ => true
  | _ :: _, [] => false
  | x :: a', y :: b' => bool_decide (byte x < byte y) || bool_decide (byte x = byte y) && key_le a' b'
  end.
Definition key_lt (a b : list ascii) : bool := negb (key_le b a).
Definition in_range (key last k : list ascii) : bool :=
  key_le key k && (bool_decide (last = [zero_byte]) || key_lt k last).

Lemma byte_inj x y : byte x = byte y -> x = y.
Proof.
  unfold byte. intros H%Nat2Z.inj. rewrite <- (Ascii.ascii_nat_embedding x), H.
  apply Ascii.ascii_nat_embedding.
Qed.

Lemma byte_bound x : 0 <= byte x <= 255.
Proof. unfold byte. pose proof (Ascii.nat_ascii_bounded x). lia. Qed.

Lemma byte_succ c : byte c ≠ 255 -> byte (succ_byte c) = byte c + 1.
Proof.
  intros H. pose proof (byte_bound c). unfold byte, succ_byte in *.
  rewrite Ascii.nat_ascii_embedding by lia. lia.
Qed.

Lemma key_le_app q a b : key_le (q ++ a) (q ++ b) = key_le a b.
Proof.
  induction q as [|x q IH]; [done|]. simpl.
  rewrite (bool_decide_eq_false_2 (byte x < byte x)) by lia.
  by rewrite (bool_decide_eq_true_2 (byte x = byte x)) by done.
Qed.

(** Above a string of 0xFF bytes there is nothing but its extensions. *)
Lemma key_le_max ffs k :
  Forall (fun c => byte c = 255) ffs -> key_le ffs k = true <-> ffs `prefix_of` k.
Proof.
  intros Hf. revert k. induction Hf as [|c ffs Hc _ IH]; intros k.
  { split; [intros _; apply prefix_nil|done]. }
  destruct k as [|y k]; simpl; [split; [done|by intros ?%prefix_nil_not]|].
  pose proof (byte_bound y).
  rewrite bool_decide_eq_false_2 by lia. simpl. rewrite andb_true_iff, IH, bool_decide_eq_true.
  split.
  - intros [Heq Hp]. apply byte_inj in Heq as ->. by apply prefix_cons.
  - intros Hp. pose proof (prefix_cons_inv_1 _ _ _ _ Hp) as ->.
    by apply prefix_cons_inv_2 in Hp.
Qed.

(** Between [q ++ a] and [q ++ b] there are only extensions of [q]. *)
Lemma between_app q a b k :
  key_le (q ++ a) k = true -> key_lt k (q ++ b) = true ->
  exists k', k = q ++ k' ∧ key_le a k' = true ∧ key_lt k' b = true.
Proof.
  unfold key_lt. revert k. induction q as [|x q IH]; intros k; [by exists k|].
  simpl. destruct k as [|y k]; [done|]. simpl.
  intros [Hlt|[Heq Ha]%andb_prop]%orb_prop Hb; apply negb_true_iff, orb_false_iff in Hb as [Hb1 Hb2].
  - apply bool_decide_eq_true in Hlt. apply bool_decide_eq_false in Hb1. lia.
  - apply bool_decide_eq_true in Heq. rewrite Heq, bool_decide_eq_true_2 in Hb2 by done.
    simpl in Hb2. apply byte_inj in Heq as ->.
    destruct (IH k Ha) as (k' & -> & H1 & H2); [by rewrite Hb2|]. by exists k'.
Qed.

Lemma incr_last_spec rev :
  match incr_last rev with
  | Some r => exists ffs c q, rev = ffs ++ c :: q ∧ r = succ_byte c :: q ∧
      Forall (fun c => byte c = 255) ffs ∧ byte c ≠ 255
  | None => Forall (fun c => byte c = 255) rev
  end.
Proof.
  induction rev as [|c rev IH]; simpl; [done|]. case_bool_decide as Hc.
  - by exists [], c, rev.
  - destruct (incr_last rev) as [r|].
    + destruct IH as (ffs & d & q & -> & -> & Hf & Hd). exists (c :: ffs), d, q.
      split_and!; [done|done| |done]. constructor; [lia|done].
    + constructor; [lia|done].
Qed.

(** The range [p, range_end(p)) holds exactly the keys that have p as a prefix,
    trailing 0xff bytes and carries included. *)
Theorem range_end_prefix (p k : list ascii) :
  p ≠ [] -> in_range p (range_end p) k = true <-> p `prefix_of` k.
Proof.
  intros Hne. unfold in_range, range_end. destruct p as [|p0 p1] eqn:Ep; [done|].
  rewrite <- Ep. clear Ep Hne p0 p1.
  pose proof (incr_last_spec (reverse p)) as Hs.
  destruct (incr_last (reverse p)) as [r|].
  2:{ rewrite bool_decide_eq_true_2 by done. simpl. rewrite andb_true_r.
      apply key_le_max. rewrite <- (reverse_involutive p). by apply Forall_reverse. }
  destruct Hs as (ffs & c & q & Hrev & -> & Hf & Hc).
  assert (p = reverse q ++ c :: reverse ffs) as ->.
  { rewrite <- (reverse_involutive p), Hrev, reverse_app, reverse_cons, <- app_assoc. done. }
  rewrite reverse_cons. apply Forall_reverse in Hf. revert Hf.
  generalize (reverse q), (reverse ffs). clear q ffs Hrev. intros q ffs Hf.
  assert (bool_decide (q ++ [succ_byte c] = [zero_byte]) = false) as ->.
  { apply bool_decide_eq_false. destruct q as [|x q]; simpl.
    - intros [= H]. assert (byte (succ_byte c) = 0) as H0 by (by rewrite H).
      rewrite byte_succ in H0 by done. pose proof (byte_bound c). lia.
    - intros [= _ H]. by destruct q. }
  simpl. rewrite andb_true_iff. split.
  - intros [H1 H2]. destruct (between_app _ _ _ _ H1 H2) as (k' & -> & H3 & H4).
    destruct k' as [|y k']; [done|]. unfold key_lt in H4. simpl in H3, H4.
    apply negb_true_iff, orb_false_iff in H4 as [H4 H5]. rewrite andb_true_r in H5.
    apply bool_decide_eq_false in H4, H5. rewrite byte_succ in H4, H5 by done.
    apply orb_prop in H3 as [H3|[H3 H6]%andb_prop]; apply bool_decide_eq_true in H3; [lia|].
    apply byte_inj in H3 as ->. apply key_le_max in H6; [|done].
    by apply prefix_app, prefix_cons.
  - intros [t ->]. rewrite <- app_assoc. unfold key_lt. rewrite !key_le_app. simpl.
    rewrite byte_succ by done. split.
    + rewrite (bool_decide_eq_false_2 (byte c < byte c)) by lia.
      rewrite (bool_decide_eq_true_2 (byte c = byte c)) by done. simpl.
      apply key_le_max; [done|]. by apply prefix_app_r.
    + rewrite bool_decide_eq_false_2 by lia. by rewrite bool_decide_eq_false_2 by lia.
Qed.

Lemma range_end_prefix_witness :
  in_range (chars "c:1") (range_end (chars "c:1")) (chars "c:10") = true.
Proof. apply range_end_prefix; [discriminate|]. by exists ["0"%char]. Defined.

(** ** The server *)

Record kv := { kv_key : list ascii; kv_value : string; kv_mod : Z }.

Inductive compare : Type :=
| CmpVersion (key : list ascii) (version : Z)
| CmpMod (key : list ascii) (revision : Z)
| CmpValue (key : list ascii) (value : string).

Inductive request_op : Type :=
| RequestPut (key : list ascii) (value : string) (lease : Z)
| RequestDeleteRange (key last : list ascii)
| RequestRange (key last : list ascii).

(** The RPCs; [last = []] addresses the single key, [lease = 0] is no lease. A
    failed call raises [RpcError]. *)
Class EtcdServer (db : Type) := {
  Range : list ascii -> list ascii -> M db (list kv);
  Put : list ascii -> string -> Z -> M db unit;
  DeleteRange : list ascii -> list ascii -> M db unit;
  (** the outcome of the comparisons and the results of the range requests *)
  Txn : list compare -> list request_op -> list request_op -> M db (bool * list (list kv));
  LeaseGrant : Z -> M db Z;
  LeaseRevoke : Z -> M db unit;
  (** one write and one read on the keep-alive stream: the TTL of the response *)
  LeaseKeepAlive : Z -> M db (option Z)
}.

(* worker/environment/state/etcd.py:62-72 EtcdStateProvider.__init__ *)
Record etcd (db : Type) := {
  server : db;
  channel_open : bool;
  keepalive_open : bool;
  session_leases : gmap string Z;
  lock_leases : gmap string Z;
  lock_keys : gmap (string * string) (list ascii);
  (** how many [uuid4] have been drawn *)
  uuids : nat
}.
Arguments server {db}. Arguments channel_open {db}. Arguments keepalive_open {db}.
Arguments session_leases {db}. Arguments lock_leases {db}. Arguments lock_keys {db}.
Arguments uuids {db}.

Section etcd.
Context {db : Type} `{EtcdServer db}.
Context (raw_prefix default_lock_client : string) (session_expiry : Z).
Context (uuid4 : nat -> string).
Context (json_dumps : val -> string) (json_loads : string -> option val).
(** What other clients do to the server while a call of this one is suspended. *)
Context (others : nat -> db -> db).

Abbreviation etcd := (etcd db).

Definition with_server (d : db) (s : etcd) : etcd :=
  {| server := d; channel_open := channel_open s; keepalive_open := keepalive_open s;
     session_leases := session_leases s; lock_leases := lock_leases s;
     lock_keys := lock_keys s; uuids := uuids s |}.
Definition with_leases (sl ll : gmap string Z) (s : etcd) : etcd :=
  {| server := server s; channel_open := channel_open s; keepalive_open := keepalive_open s;
     session_leases := sl; lock_leases := ll; lock_keys := lock_keys s; uuids := uuids s |}.
Definition with_lock_keys (lk : gmap (string * string) (list ascii)) (s : etcd) : etcd :=
  {| server := server s; channel_open := channel_open s; keepalive_open := keepalive_open s;
     session_leases := session_leases s; lock_leases := lock_leases s; lock_keys := lk;
     uuids := uuids s |}.
Definition with_channel (c k : bool) (s : etcd) : etcd :=
  {| server := server s; channel_open := c; keepalive_open := k;
     session_leases := session_leases s; lock_leases := lock_leases s;
     lock_keys := lock_keys s; uuids := uuids s |}.

Definition on_server {A} (m : M db A) : M etcd A := fun s =>
  let '(d, r) := m (server s) in (with_server d s, r).

(** *** Keys *)

(* worker/environment/state/etcd.py:35-35 EtcdStateProvider.__init__ *)
Definition prefix : string := if bool_decide (raw_prefix = "") then "" else raw_prefix +:+ ":".
(* worker/environment/state/etcd.py:438-439 EtcdStateProvider._lock_key *)
Definition lock_key (name : string) : list ascii := chars (prefix +:+ "lock:" +:+ name).
(* worker/environment/state/etcd.py:441-442 EtcdStateProvider._container_key_prefix *)
Definition container_key_prefix (c : string) : list ascii :=
  chars (prefix +:+ "container:" +:+ c).
(* worker/environment/state/etcd.py:444-445 EtcdStateProvider._container_allocation_prefix *)
Definition container_allocation_prefix (c : string) : list ascii :=
  container_key_prefix c ++ chars ":allocation:".
(* worker/environment/state/etcd.py:447-448 EtcdStateProvider._container_allocation_key *)
Definition container_allocation_key (c s : string) : list ascii :=
  container_allocation_prefix c ++ chars s.
(* worker/environment/state/etcd.py:453-454 EtcdStateProvider._uses_prefix *)
Definition uses_prefix : list ascii := chars (prefix +:+ "container-uses:").
(* worker/environment/state/etcd.py:450-451 EtcdStateProvider._container_uses_key *)
Definition container_uses_key (c : string) : list ascii := uses_prefix ++ chars c.
(* worker/environment/state/etcd.py:456-457 EtcdStateProvider._session_key *)
Definition session_key (s : string) : list ascii := chars (prefix +:+ "session:" +:+ s).

(** *** Calls *)

(** [grpc.StatusCode] of UNAVAILABLE, ABORTED, DEADLINE_EXCEEDED, INTERNAL. *)
(* worker/environment/state/etcd.py:55-60 EtcdStateProvider.__init__ *)
Definition retryable_statuses : list Z := [14; 10; 4; 13].
(* worker/environment/state/etcd.py:123-124 EtcdStateProvider._should_retry *)
Definition should_retry (code : Z) : bool := bool_decide (code ∈ retryable_statuses).

(* worker/environment/state/etcd.py:96-102 EtcdStateProvider._reset_channel *)
Definition reset_channel : M etcd unit := modify (with_channel false false).

(** [left] attempts are left, the last of which re-raises. *)
(* worker/environment/state/etcd.py:126-146 EtcdStateProvider._kv_call *)
Fixpoint call_loop {A} (left : nat) (fn : M db A) : M etcd A :=
  match left with
  | O => raise (RuntimeError "kv call retries exhausted")
  | S left' =>
      modify (fun s => with_channel true (keepalive_open s) s);;
      try_except (on_server fn)
        (fun e => match e with
                  | RpcError code =>
                      if negb (should_retry code) || bool_decide (left' = 0%nat) then None
                      else Some (reset_channel;; call_loop left' fn)
                  | _ => None
                  end)
  end.
(* worker/environment/state/etcd.py:126-135 EtcdStateProvider._kv_call *)
Definition kv_call {A} (fn : M db A) : M etcd A := call_loop 2 fn.
(* worker/environment/state/etcd.py:137-146 EtcdStateProvider._lease_call *)
Definition lease_call {A} (fn : M db A) : M etcd A := call_loop 2 fn.

(** *** Leases *)

(* worker/environment/state/etcd.py:403-407 EtcdStateProvider._grant_lease *)
Definition grant_lease (ttl : Z) : M etcd Z := lease_call (LeaseGrant ttl).

(* worker/environment/state/etcd.py:415-421 EtcdStateProvider._reset_keepalive_stream *)
Definition reset_keepalive_stream : M etcd unit :=
  modify (fun s => with_channel (channel_open s) false s).

(* worker/environment/state/etcd.py:423-436 EtcdStateProvider._keepalive *)
Fixpoint keepalive_loop (attempts : nat) (lease : Z) : M etcd unit :=
  match attempts with
  | O => mret tt
  | S attempts =>
      modify (with_channel true true);;
      ok ← try_except
        (ttl ← on_server (LeaseKeepAlive lease);
         match ttl with
         | None | Some 0 => raise (RuntimeError "lease expired")
         | Some _ => mret true
         end)
        (fun e => if is_Exception e then Some (reset_keepalive_stream;; mret false) else None);
      if (ok : bool) then mret tt else keepalive_loop attempts lease
  end.
(* worker/environment/state/etcd.py:423-436 EtcdStateProvider._keepalive *)
Definition keepalive (lease : Z) : M etcd unit := keepalive_loop 3 lease.

(* worker/environment/state/etcd.py:210-222 EtcdStateProvider._ensure_lock_lease *)
Definition ensure_lock_lease (owner : string) (ttl : Z) : M etcd Z :=
  sl ← gets (fun s => session_leases s !! owner);
  match sl with
  | Some lease => keepalive lease;; mret lease
  | None =>
      ll ← gets (fun s => lock_leases s !! owner);
      match ll with
      | None =>
          lease ← grant_lease (Z.max ttl 5);
          modify (fun s => with_leases (session_leases s) (<[owner := lease]> (lock_leases s)) s);;
          mret lease
      | Some lease => keepalive lease;; mret lease
      end
  end.

(** *** Locks *)

(** [client_id or self._default_lock_client] *)
(* worker/environment/state/etcd.py:151-151 EtcdStateProvider.acquire_lock *)
Definition owner_of (client : option string) : string :=
  match client with
  | None | Some EmptyString => default_lock_client
  | Some c => c
  end.

(* worker/environment/state/etcd.py:150-192 EtcdStateProvider.acquire_lock *)
Definition etcd_acquire_lock (lock_name : string) (client : option string) (timeout : Z)
    : M etcd bool :=
  let owner := owner_of client in
  lease_id ← ensure_lock_lease owner timeout;
  let key := lock_key lock_name in
  resp ← kv_call (Txn [CmpVersion key 0] [RequestPut key owner lease_id] [RequestRange key []]);
  let remember := modify (fun s => with_lock_keys (<[(lock_name, owner) := key]> (lock_keys s)) s) in
  if (resp.1 : bool) then remember;; mret true
  else match resp.2 with
       | (current :: _) :: _ =>
           if bool_decide (kv_value current = owner) then remember;; mret true
           else mret false
       | _ => mret false
       end.

(* worker/environment/state/etcd.py:194-208 EtcdStateProvider.release_lock *)
Definition etcd_release_lock (lock_name : string) (client : option string) : M etcd unit :=
  let owner := owner_of client in
  cached ← gets (fun s => lock_keys s !! (lock_name, owner));
  modify (fun s => with_lock_keys (delete (lock_name, owner) (lock_keys s)) s);;
  let key := match cached with Some (x :: k) => x :: k | _ => lock_key lock_name end in
  _ ← kv_call (Txn [CmpValue key owner] [RequestDeleteRange key []] []);
  mret tt.

(** *** Containers *)

(** [int(value or b'0')] *)
(* worker/environment/state/etcd.py:263-263 EtcdStateProvider.container_total_uses *)
Definition parse_uses (value : string) : res Z :=
  match value with
  | EmptyString => Ok 0
  | _ => match py_int value with Some n => Ok n | None => Raise ValueError end
  end.

(* worker/environment/state/etcd.py:364-401 EtcdStateProvider._increment_uses *)
Fixpoint increment_loop (attempts : nat) (key : list ascii) : M etcd unit :=
  match attempts with
  | O => mret tt
  | S attempts =>
      kvs ← kv_call (Range key []);
      cv ← match kvs with
           | [] => mret (CmpVersion key 0, "1")
           | kv_pair :: _ =>
               current ← lift_res (parse_uses (kv_value kv_pair));
               mret (CmpMod key (kv_mod kv_pair), str_Z (current + 1))
           end;
      modify (fun s => with_server (others attempts (server s)) s);;
      resp ← kv_call (Txn [cv.1] [RequestPut key cv.2 0] []);
      if (resp.1 : bool) then mret tt else increment_loop attempts key
  end.
(* worker/environment/state/etcd.py:364-401 EtcdStateProvider._increment_uses *)
Definition increment_uses (c : string) : M etcd unit := increment_loop 16 (container_uses_key c).

(* worker/environment/state/etcd.py:226-237 EtcdStateProvider.allocate_container *)
Definition etcd_allocate_container (c s : string) : M etcd unit :=
  lease ← gets (fun st => session_leases st !! s);
  match lease with
  | None => raise ValueError
  | Some lease_id =>
      kv_call (Put (container_allocation_key c s) "1" lease_id);;
      increment_uses c
  end.

(* worker/environment/state/etcd.py:246-254 EtcdStateProvider.container_current_uses *)
Definition etcd_container_current_uses (c : string) : M etcd Z :=
  let key := container_allocation_prefix c in
  kvs ← kv_call (Range key (range_end key));
  mret (Z.of_nat (length kvs)).

(* worker/environment/state/etcd.py:243-244 EtcdStateProvider.container_is_allocated *)
Definition etcd_container_is_allocated (c : string) : M etcd bool :=
  n ← etcd_container_current_uses c; mret (bool_decide (0 < n)).

(* worker/environment/state/etcd.py:256-263 EtcdStateProvider.container_total_uses *)
Definition etcd_container_total_uses (c : string) : M etcd Z :=
  kvs ← kv_call (Range (container_uses_key c) []);
  match kvs with
  | [] => mret 0
  | kv_pair :: _ => lift_res (parse_uses (kv_value kv_pair))
  end.

(** [kv_pair.key.decode().split(':')[-1]] *)
Definition last_part (key : list ascii) : string :=
  default "" (last (split_on ":" (of_chars key))).

(* worker/environment/state/etcd.py:265-278 EtcdStateProvider.containers_total_uses_gte *)
Definition etcd_containers_total_uses_gte (min_uses : Z) : M etcd (list string) :=
  kvs ← kv_call (Range uses_prefix (range_end uses_prefix));
  (fix go kvs : M etcd (list string) :=
     match kvs with
     | [] => mret []
     | kv_pair :: kvs =>
         uses ← lift_res (parse_uses (kv_value kv_pair));
         rest ← go kvs;
         mret (if bool_decide (min_uses ≤ uses) then last_part (kv_key kv_pair) :: rest else rest)
     end) kvs.

(* worker/environment/state/etcd.py:280-286 EtcdStateProvider.release_container *)
Definition etcd_release_container (c s : string) : M etcd unit :=
  kv_call (DeleteRange (container_allocation_key c s) []).

(* worker/environment/state/etcd.py:288-301 EtcdStateProvider.remove_container *)
Definition etcd_remove_container (c : string) : M etcd unit :=
  let prefix := container_key_prefix c in
  kv_call (DeleteRange prefix (range_end prefix));;
  kv_call (DeleteRange (container_uses_key c) []).

(** *** Sessions *)

(* worker/environment/state/etcd.py:305-310 EtcdStateProvider.generate_session_id *)
Definition generate_session_id : M etcd string :=
  lease ← grant_lease session_expiry;
  n ← gets uuids;
  let session_id := uuid4 n in
  modify (fun s => {| server := server s; channel_open := channel_open s;
                      keepalive_open := keepalive_open s;
                      session_leases := <[session_id := lease]> (session_leases s);
                      lock_leases := <[session_id := lease]> (lock_leases s);
                      lock_keys := lock_keys s; uuids := S n |});;
  mret session_id.

(* worker/environment/state/etcd.py:312-325 EtcdStateProvider.store_session *)
Definition etcd_store_session (s : string) (data : val) : M etcd unit :=
  lease ← gets (fun st => session_leases st !! s);
  match lease with
  | None => raise ValueError
  | Some lease => kv_call (Put (session_key s) (json_dumps data) lease)
  end.

(* worker/environment/state/etcd.py:327-339 EtcdStateProvider.get_session *)
Definition etcd_get_session (s : string) : M etcd (option val) :=
  kvs ← kv_call (Range (session_key s) []);
  mret (match kvs with [] => None | kv_pair :: _ => json_loads (kv_value kv_pair) end).

(* worker/environment/state/etcd.py:341-344 EtcdStateProvider.renew_session *)
Definition etcd_renew_session (s : string) : M etcd unit :=
  lease ← gets (fun st => session_leases st !! s);
  match lease with Some lease => keepalive lease | None => mret tt end.

(* worker/environment/state/etcd.py:346-360 EtcdStateProvider.delete_session *)
Definition etcd_delete_session (s : string) : M etcd unit :=
  kv_call (DeleteRange (session_key s) []);;
  lease ← gets (fun st => session_leases st !! s);
  modify (fun st => with_leases (delete s (session_leases st)) (lock_leases st) st);;
  match lease with Some lease => lease_call (LeaseRevoke lease) | None => mret tt end;;
  modify (fun st => with_leases (session_leases st) (delete s (lock_leases st)) st).

(* worker/environment/state/etcd.py:239-241 EtcdStateProvider.renew_container *)
Definition EtcdStateProvider : StateProvider etcd := {|
  acquire_lock := etcd_acquire_lock;
  release_lock := etcd_release_lock;
  allocate_container := etcd_allocate_container;
  renew_container _ _ := mret tt;
  container_is_allocated := etcd_container_is_allocated;
  container_current_uses := etcd_container_current_uses;
  container_total_uses := etcd_container_total_uses;
  containers_total_uses_gte := etcd_containers_total_uses_gte;
  release_container := etcd_release_container;
  remove_container := etcd_remove_container;
  store_session := etcd_store_session;
  renew_session := etcd_renew_session;
  get_session := etcd_get_session;
  delete_session := etcd_delete_session
|}.
End etcd.

(** ** A server that answers *)

(** What etcd documents of the RPCs that succeed: the keys with their values and
    modification revisions ([view]), and which leases are alive. *)
Class EtcdLaws (db : Type) `{EtcdServer db} (view : db -> gmap (list ascii) (string * Z))
    (alive : Z -> db -> bool) : Prop := {
  range_single k d : Range k [] d =
    (d, Ok (match view d !! k with
            | Some (v, m) => [{| kv_key := k; kv_value := v; kv_mod := m |}]
            | None => []
            end));
  range_many k last d : last ≠ [] ->
    exists l, Range k last d = (d, Ok l) ∧ NoDup (kv_key <$> l) ∧
      forall x, x ∈ l <-> in_range k last (kv_key x) = true ∧
                          view d !! kv_key x = Some (kv_value x, kv_mod x);
  put_ok k v l d : alive l d = true ->
    exists d' m, Put k v l d = (d', Ok tt) ∧ view d' = <[k := (v, m)]> (view d);
  delete_single k d :
    exists d', DeleteRange k [] d = (d', Ok tt) ∧ view d' = delete k (view d);
  delete_many k last d : last ≠ [] ->
    exists d', DeleteRange k last d = (d', Ok tt) ∧
      forall k', view d' !! k' = if in_range k last k' then None else view d !! k';
  txn_put c k v l fl d : alive l d = true ->
    match c with
    | CmpVersion k' 0 => view d !! k' = None
    | CmpMod k' m => exists v, view d !! k' = Some (v, m)
    | _ => False
    end ->
    exists d' m, Txn [c] [RequestPut k v l] fl d = (d', Ok (true, [])) ∧
      view d' = <[k := (v, m)]> (view d);
  txn_dead c k v l fl d : alive l d = false ->
    match c with CmpVersion k' 0 => view d !! k' = None | _ => False end ->
    Txn [c] [RequestPut k v l] fl d = (d, Raise (RpcError 5));
  txn_fail c ops d :
    match c with
    | CmpVersion k' 0 => view d !! k' ≠ None
    | CmpMod k' m => forall v, view d !! k' ≠ Some (v, m)
    | _ => False
    end ->
    Txn [c] ops [] d = (d, Ok (false, []));
  alive_none d : alive 0 d = true;
  keepalive_dead l d : alive l d = false -> LeaseKeepAlive l d = (d, Ok (Some 0))
}.

Section proofs.
Context {db : Type} (view : db -> gmap (list ascii) (string * Z)) (alive : Z -> db -> bool).
Context `{EtcdLaws db view alive}.
Context (raw_prefix default_lock_client : string).
Context (others : nat -> db -> db).

(** *** The retried call *)

(** One failure with a retryable status is retried on a new channel; the second
    failure, and any other exception, is raised. *)
Lemma kv_call_cases {A} (fn : M db A) (s : etcd db) :
  let s1 := with_channel true (keepalive_open s) s in
  kv_call fn s =
    match on_server fn s1 with
    | (s2, Raise (RpcError code)) =>
        if should_retry code then on_server fn (with_channel true false s2)
        else (s2, Raise (RpcError code))
    | r => r
    end.
Proof.
  cbv zeta. unfold kv_call. cbn [call_loop]. rewrite bind_modify. unfold try_except at 1.
  destruct (on_server fn (with_channel true (keepalive_open s) s)) as [s2 [a|e]]; [done|].
  destruct e; try done. destruct (should_retry code); [|done].
  simpl. unfold reset_channel. rewrite !bind_modify. unfold try_except.
  unfold with_channel at 1 2 3. simpl. fold (with_channel true false s2).
  destruct (on_server fn (with_channel true false s2)) as [s3 [a|e]]; [done|].
  destruct e; try done. by rewrite orb_true_r.
Qed.

Lemma kv_call_ok {A} (fn : M db A) (s : etcd db) d a :
  fn (server s) = (d, Ok a) ->
  kv_call fn s = (with_server d (with_channel true (keepalive_open s) s), Ok a).
Proof. intros Hf. rewrite kv_call_cases. unfold on_server. simpl. by rewrite Hf. Qed.

Lemma kv_call_raise {A} (fn : M db A) (s : etcd db) d e :
  fn (server s) = (d, Raise e) ->
  match e with RpcError code => should_retry code = false | _ => True end ->
  kv_call fn s = (with_server d (with_channel true (keepalive_open s) s), Raise e).
Proof.
  intros Hf He. rewrite kv_call_cases. unfold on_server. simpl. rewrite Hf.
  destruct e; try done. by rewrite He.
Qed.

(** *** The counter *)

Abbreviation uses_key := (container_uses_key raw_prefix).

Definition counter_ok (c : string) (d : db) : Prop :=
  match view d !! uses_key c with
  | Some (v, _) => exists n, 0 <= n ∧ v = str_Z n
  | None => True
  end.
Definition count (c : string) (d : db) : Z :=
  match view d !! uses_key c with
  | Some (v, _) => default 0 (py_int v)
  | None => 0
  end.

(** Other clients keep the counter a number, and a key they have written has a
    new revision. *)
Hypothesis others_ok : forall c n d, counter_ok c d -> counter_ok c (others n d).
Hypothesis others_rev : forall n d k v v' m,
  view d !! k = Some (v, m) -> view (others n d) !! k = Some (v', m) -> v = v'.

Lemma parse_uses_str n : 0 <= n -> parse_uses (str_Z n) = Ok n.
Proof.
  intros Hn. unfold parse_uses. pose proof (py_int_str_Z n Hn) as Hp.
  destruct (str_Z n) eqn:E; [by vm_compute in Hp|]. by rewrite Hp.
Qed.

(** One attempt: read, be overtaken, commit or fail. *)
Lemma increment_attempt c n (s : etcd db) :
  counter_ok c (server s) ->
  let d := others n (server s) in
  exists s',
    (exists m, increment_loop others (S n) (uses_key c) s = (s', Ok tt) ∧
       view (server s') = <[uses_key c := (str_Z (count c d + 1), m)]> (view d)) ∨
    (increment_loop others (S n) (uses_key c) s = increment_loop others n (uses_key c) s' ∧
     server s' = d).
Proof.
  intros Hok d. cbn [increment_loop].
  erewrite M_bind_run by (apply kv_call_ok, range_single).
  set (s1 := with_server _ _).
  unfold counter_ok in Hok.
  assert (forall cmp new,
    match cmp with
    | CmpVersion k' 0 => k' = uses_key c
    | CmpMod k' m => k' = uses_key c
    | _ => False
    end ->
    (match cmp with
     | CmpMod k' m => exists v, view d !! k' = Some (v, m)
     | _ => view d !! uses_key c = None
     end -> new = str_Z (count c d + 1)) ->
    exists s',
    (exists m, (modify (fun s => with_server (others n (server s)) s);;
       resp ← kv_call (Txn [cmp] [RequestPut (uses_key c) new 0] []);
       if (resp.1 : bool) then mret tt else increment_loop others n (uses_key c)) s1 = (s', Ok tt) ∧
       view (server s') = <[uses_key c := (str_Z (count c d + 1), m)]> (view d)) ∨
    ((modify (fun s => with_server (others n (server s)) s);;
       resp ← kv_call (Txn [cmp] [RequestPut (uses_key c) new 0] []);
       if (resp.1 : bool) then mret tt else increment_loop others n (uses_key c)) s1
       = increment_loop others n (uses_key c) s' ∧ server s' = d)) as Hcommit.
  { intros cmp new Hcmp Hnew. rewrite bind_modify.
    set (s2 := with_server _ _). assert (server s2 = d) as Hs2 by done.
    assert (
      (match cmp with
       | CmpMod k' m => exists v, view d !! k' = Some (v, m)
       | _ => view d !! uses_key c = None
       end) ∨ ¬ (match cmp with
       | CmpMod k' m => exists v, view d !! k' = Some (v, m)
       | _ => view d !! uses_key c = None
       end)) as [Hc|Hc].
    { destruct cmp as [k' v|k' m|k' v];
        try (destruct (decide (view d !! uses_key c = None)); by auto).
      destruct (view d !! k') as [[v m']|]; [|right; by intros [? ?]].
      destruct (decide (m = m')) as [->|]; [left; by eexists|right]. intros [? ?]. naive_solver. }
    - destruct (txn_put cmp (uses_key c) new 0 [] d) as (d' & m & Ht & Hv); [apply alive_none| |].
      { destruct cmp as [k' [|?|?]|k' m|k' v]; try done. by subst. }
      eexists. left. exists m. split.
      + erewrite M_bind_run by (apply kv_call_ok; rewrite Hs2; exact Ht). done.
      + simpl. by rewrite Hv, Hnew.
    - assert (Txn [cmp] [RequestPut (uses_key c) new 0] [] d = (d, Ok (false, []))) as Ht.
      { apply txn_fail. destruct cmp as [k' [|?|?]|k' m|k' v]; try done; [by subst|].
        intros v Hv. apply Hc. by eexists. }
      eexists. right. split.
      + erewrite M_bind_run by (apply kv_call_ok; rewrite Hs2; exact Ht). done.
      + done. }
  destruct (view (server s) !! uses_key c) as [[v m]|] eqn:E.
  - destruct Hok as (n0 & Hn0 & ->). cbn [kv_value kv_mod].
    rewrite (M_bind_run _ _ s1 s1 (CmpMod (uses_key c) m, str_Z (n0 + 1))).
    2:{ rewrite bind_lift. by rewrite parse_uses_str. }
    apply (Hcommit (CmpMod (uses_key c) m) (str_Z (n0 + 1))); [done|].
    intros [v Hv]. unfold count. rewrite Hv.
    rewrite <- (others_rev _ _ _ _ _ _ E Hv). by rewrite py_int_str_Z.
  - rewrite (M_bind_run _ _ s1 s1 (CmpVersion (uses_key c) 0, "1")) by done.
    apply (Hcommit (CmpVersion (uses_key c) 0) "1"); [done|].
    intros Hv. unfold count. by rewrite Hv.
Qed.

(** The interference of the other clients at the attempts [l]. *)
Definition overtaken (l : list nat) (d : db) : db := foldl (fun d i => others i d) d l.


(** *** Removing a container *)

Lemma chars_prefix_nonempty t c : chars (prefix raw_prefix +:+ ("c" +:+ t) +:+ c) ≠ [].
Proof. rewrite !chars_app. simpl. by destruct (chars (prefix raw_prefix)). Qed.

Lemma container_key_nonempty c : container_key_prefix raw_prefix c ≠ [].
Proof. exact (chars_prefix_nonempty "ontainer:" c). Qed.

Lemma range_end_nonempty p : range_end p ≠ [].
Proof.
  unfold range_end. destruct p as [|x p]; [done|].
  pose proof (incr_last_spec (reverse (x :: p))) as Hs.
  destruct (incr_last (reverse (x :: p))) as [r|]; [|done].
  destruct Hs as (ffs & c & q & _ & -> & _). rewrite reverse_cons. by destruct (reverse q).
Qed.

(** Removing a container also deletes the allocations of every container whose
    name starts with its name. *)
Theorem remove_container_takes_prefixed (c c' t : string) (s : etcd db) :
  chars c `prefix_of` chars c' ->
  exists s', etcd_remove_container raw_prefix c s = (s', Ok tt) ∧
    view (server s') !! container_allocation_key raw_prefix c' t = None.
Proof.
  intros [r Hr]. unfold etcd_remove_container. cbv zeta.
  destruct (delete_many (container_key_prefix raw_prefix c)
    (range_end (container_key_prefix raw_prefix c)) (server s)) as (d1 & H1 & Hv1);
    [apply range_end_nonempty|].
  erewrite M_bind_run by (apply kv_call_ok, H1).
  destruct (delete_single (uses_key c) d1) as (d2 & H2 & Hv2).
  eexists. split; [apply kv_call_ok; exact H2|]. simpl. rewrite Hv2.
  apply lookup_delete_None. right. rewrite Hv1.
  assert (in_range (container_key_prefix raw_prefix c)
    (range_end (container_key_prefix raw_prefix c))
    (container_allocation_key raw_prefix c' t) = true) as ->; [|done].
  apply range_end_prefix; [apply container_key_nonempty|].
  unfold container_allocation_key, container_allocation_prefix, container_key_prefix.
  rewrite !chars_app, Hr, <- !app_assoc. do 2 apply prefix_app. by eexists.
Qed.

(** The current uses of a container are the number of its live allocation keys,
    those of containers whose name extends its own not counted, and reading changes
    nothing. *)
Theorem current_uses_exact (c : string) (s : etcd db) :
  exists s' l, etcd_container_current_uses raw_prefix c s = (s', Ok (Z.of_nat (length l))) ∧
    server s' = server s ∧ NoDup l ∧
    forall k, k ∈ l <-> container_allocation_prefix raw_prefix c `prefix_of` k ∧
                        is_Some (view (server s) !! k).
Proof.
  unfold etcd_container_current_uses. cbv zeta.
  assert (container_allocation_prefix raw_prefix c ≠ []) as Hne.
  { unfold container_allocation_prefix. by intros [_ ?]%app_eq_nil. }
  destruct (range_many (container_allocation_prefix raw_prefix c)
    (range_end (container_allocation_prefix raw_prefix c)) (server s)) as (l & Hr & Hnd & Hl);
    [apply range_end_nonempty|].
  eexists. exists (kv_key <$> l). split; [|split; [|split]]; [..|exact Hnd|].
  - erewrite M_bind_run by (apply kv_call_ok, Hr). by rewrite length_fmap.
  - done.
  - intros k. rewrite list_elem_of_fmap. split.
    + intros (x & -> & [Hin Hx]%Hl). apply range_end_prefix in Hin; [|done].
      split; [done|by eexists].
    + intros [Hp [[v m] Hv]]. exists {| kv_key := k; kv_value := v; kv_mod := m |}.
      split; [done|]. apply Hl. split; [by apply range_end_prefix|done].
Qed.

(** *** Expired leases *)

Lemma keepalive_dead_lease n l (s : etcd db) :
  alive l (server s) = false ->
  exists s', keepalive_loop n l s = (s', Ok tt) ∧ server s' = server s ∧
    session_leases s' = session_leases s ∧ lock_leases s' = lock_leases s.
Proof.
  revert s. induction n as [|n IH]; intros s Hd; [by exists s|].
  cbn [keepalive_loop]. rewrite bind_modify. set (s1 := with_channel true true s).
  assert (exists s2, try_except
    (ttl ← on_server (LeaseKeepAlive l);
     match ttl with
     | None | Some 0 => raise (RuntimeError "lease expired")
     | Some _ => mret true
     end)
    (fun e => if is_Exception e then Some (reset_keepalive_stream;; mret false) else None) s1
    = (s2, Ok false) ∧ server s2 = server s ∧
    session_leases s2 = session_leases s ∧ lock_leases s2 = lock_leases s) as (s2 & H1 & H2 & H3 & H4).
  { unfold try_except. cbv [mbind M_bind on_server]. rewrite keepalive_dead by done.
    simpl. eexists. split; [done|]. done. }
  erewrite M_bind_run by exact H1.
  destruct (IH s2) as (s3 & H5 & H6 & H7 & H8); [by rewrite H2|].
  exists s3. split; [done|]. by rewrite H6, H7, H8.
Qed.

(** Once the cached lease of a lock owner has expired, acquiring a free lock
    raises NOT_FOUND and leaves the cached lease in place, so the next attempt finds
    the same state. *)
Theorem expired_lock_lease_is_kept (name : string) (owner : string) (timeout l : Z) (s : etcd db) :
  owner ≠ "" -> session_leases s !! owner = None -> lock_leases s !! owner = Some l ->
  alive l (server s) = false -> view (server s) !! lock_key raw_prefix name = None ->
  exists s', etcd_acquire_lock raw_prefix default_lock_client name (Some owner) timeout s
               = (s', Raise (RpcError 5)) ∧
    server s' = server s ∧ session_leases s' = session_leases s ∧ lock_leases s' = lock_leases s.
Proof.
  intros Hne Hsl Hll Hd Hfree. unfold etcd_acquire_lock.
  assert (owner_of default_lock_client (Some owner) = owner) as -> by by destruct owner.
  destruct (keepalive_dead_lease 3 l s Hd) as (s1 & H1 & H2 & H3 & H4).
  assert (ensure_lock_lease owner timeout s = (s1, Ok l)) as He.
  { unfold ensure_lock_lease. rewrite bind_gets, Hsl, bind_gets, Hll.
    by erewrite M_bind_run by exact H1. }
  erewrite M_bind_run by exact He. cbv zeta.
  erewrite M_bind_raise.
  2:{ eapply (kv_call_raise _ _ _ (RpcError 5)); [|reflexivity]. rewrite H2. by apply txn_dead. }
  eexists. split; [done|]. simpl. by rewrite H3, H4.
Qed.
End proofs.

(** ** A concrete server *)

Record demo_etcd := {
  d_kvs : gmap (list ascii) (string * Z);
  d_rev : Z;
  d_dead : gset Z
}.
Definition demo_alive (l : Z) (d : demo_etcd) : bool :=
  bool_decide (l = 0) || bool_decide (l ∉ d_dead d).
Definition demo_set (kvs : gmap (list ascii) (string * Z)) (d : demo_etcd) : demo_etcd :=
  {| d_kvs := kvs; d_rev := d_rev d + 1; d_dead := d_dead d |}.
Definition demo_kv (p : list ascii * (string * Z)) : kv :=
  {| kv_key := p.1; kv_value := p.2.1; kv_mod := p.2.2 |}.
Definition selects (k last k' : list ascii) : bool :=
  match last with [] => bool_decide (k' = k) | _ => in_range k last k' end.
Definition demo_range (k last : list ascii) (d : demo_etcd) : list kv :=
  match last with
  | [] => match d_kvs d !! k with Some vm => [demo_kv (k, vm)] | None => [] end
  | _ => demo_kv <$> filter (fun p => in_range k last p.1 = true) (map_to_list (d_kvs d))
  end.
Definition demo_delete (k last : list ascii) (d : demo_etcd) : demo_etcd :=
  demo_set (filter (fun p => selects k last p.1 = false) (d_kvs d)) d.
Definition demo_put (k : list ascii) (v : string) (l : Z) : M demo_etcd unit := fun d =>
  if demo_alive l d then (demo_set (<[k := (v, d_rev d)]> (d_kvs d)) d, Ok tt)
  else (d, Raise (RpcError 5)).
Definition demo_holds (d : demo_etcd) (c : compare) : bool :=
  match c with
  | CmpVersion k v => match d_kvs d !! k with None => bool_decide (v = 0) | Some _ => false end
  | CmpMod k m => bool_decide (snd <$> d_kvs d !! k = Some m)
  | CmpValue k v => bool_decide (fst <$> d_kvs d !! k = Some v)
  end.
Fixpoint demo_ops (l : list request_op) : M demo_etcd (list (list kv)) :=
  match l with
  | [] => mret []
  | RequestPut k v lease :: l => demo_put k v lease;; demo_ops l
  | RequestDeleteRange k last :: l => modify (demo_delete k last);; demo_ops l
  | RequestRange k last :: l =>
      r ← gets (demo_range k last); rs ← demo_ops l; mret (r :: rs)
  end.

#[export] Instance demo_server : EtcdServer demo_etcd := {|
  Range k last := gets (demo_range k last);
  Put := demo_put;
  DeleteRange k last := modify (demo_delete k last);
  Txn cs ok ko := fun d =>
    let b := forallb (demo_holds d) cs in
    (rs ← demo_ops (if b then ok else ko); mret (b, rs)) d;
  LeaseGrant _ := gets d_rev;
  LeaseRevoke l := modify (fun d => {| d_kvs := d_kvs d; d_rev := d_rev d;
                                       d_dead := {[l]} ∪ d_dead d |});
  LeaseKeepAlive l := gets (fun d => Some (if demo_alive l d then 10 else 0))
|}.

Lemma demo_delete_lookup k last k' d :
  d_kvs (demo_delete k last d) !! k' = if selects k last k' then None else d_kvs d !! k'.
Proof.
  apply option_eq. intros vm. simpl. rewrite map_lookup_filter_Some. simpl.
  destruct (selects k last k'); naive_solver.
Qed.

#[export] Instance demo_laws : EtcdLaws demo_etcd d_kvs demo_alive.
Proof.
  split; simpl.
  - intros k d. unfold gets. simpl. by destruct (d_kvs d !! k) as [[v m]|].
  - intros k last d Hne. exists (demo_range k last d). split; [done|].
    destruct last as [|x last]; [done|]. unfold demo_range. split.
    + rewrite <- list_fmap_compose. change (kv_key ∘ demo_kv) with (@fst (list ascii) (string * Z)).
      apply NoDup_fmap_fst; [|apply NoDup_filter, NoDup_map_to_list].
      intros k' v1 v2 [_ H1%elem_of_map_to_list]%list_elem_of_filter
        [_ H2%elem_of_map_to_list]%list_elem_of_filter. congruence.
    + intros y. rewrite list_elem_of_fmap. split.
      * intros ([k' [v m]] & -> & [Hin Hm%elem_of_map_to_list]%list_elem_of_filter). done.
      * intros [Hin Hm]. exists (kv_key y, (kv_value y, kv_mod y)). split; [by destruct y|].
        apply list_elem_of_filter. by rewrite elem_of_map_to_list.
  - intros k v l d Ha. unfold demo_put. rewrite Ha. by do 2 eexists.
  - intros k d. eexists. split; [done|]. apply map_eq. intros k'.
    rewrite demo_delete_lookup, lookup_delete. simpl.
    destruct (decide (k = k')) as [->|]; [by rewrite bool_decide_eq_true_2|].
    by rewrite bool_decide_eq_false_2 by congruence.
  - intros k last d Hne. eexists. split; [done|]. intros k'. rewrite demo_delete_lookup.
    by destruct last.
  - intros c k v l fl d Ha Hc. assert (demo_holds d c = true) as Hh.
    { destruct c as [k' [|?|?]|k' m|k' ?]; simpl; try done; [by rewrite Hc|].
      destruct Hc as [v' ->]. by apply bool_decide_eq_true. }
    rewrite Hh. simpl. cbv [mbind M_bind demo_put]. rewrite Ha. by do 2 eexists.
  - intros c k v l fl d Ha Hc. assert (demo_holds d c = true) as Hh.
    { destruct c as [k' [|?|?]|k' m|k' ?]; simpl; try done. by rewrite Hc. }
    rewrite Hh. simpl. cbv [mbind M_bind demo_put]. by rewrite Ha.
  - intros c ops d Hc. assert (demo_holds d c = false) as Hh.
    { destruct c as [k' [|?|?]|k' m|k' ?]; simpl; try done; [by destruct (d_kvs d !! k')|].
      apply bool_decide_eq_false. destruct (d_kvs d !! k') as [[v m']|]; [|done].
      intros [= ->]. by eapply Hc. }
    by rewrite Hh.
  - intros d. done.
  - intros l d Hd. unfold gets. by rewrite Hd.
Qed.

Definition demo_state (kvs : gmap (list ascii) (string * Z)) (dead : gset Z)
    (ll : gmap string Z) : etcd demo_etcd :=
  {| server := {| d_kvs := kvs; d_rev := 9; d_dead := dead |}; channel_open := false;
     keepalive_open := false; session_leases := ∅; lock_leases := ll; lock_keys := ∅;
     uuids := 0 |}.

(** Another client increments the counter of [c] before the commit of the
    first attempt. *)
Definition demo_others (n : nat) (d : demo_etcd) : demo_etcd :=
  if bool_decide (n = 15%nat) then demo_set (<[container_uses_key "p" "c" := ("1", d_rev d)]> (d_kvs d)) d
  else d.

Example demo_increment :
  (etcd_container_total_uses "p" "c" (increment_uses "p" demo_others "c" (demo_state ∅ ∅ ∅)).1).2
  = Ok 2.
Proof. vm_compute. reflexivity. Qed.


Lemma remove_container_takes_prefixed_witness :
  exists s', etcd_remove_container "p" "c1"
    (demo_state {[container_allocation_key "p" "c10" "a" := ("1", 3)]} ∅ ∅) = (s', Ok tt) ∧
    d_kvs (server s') !! container_allocation_key "p" "c10" "a" = None.
Proof.
  apply (remove_container_takes_prefixed d_kvs demo_alive "p"). by exists ["0"%char].
Defined.

Lemma expired_lock_lease_is_kept_witness :
  exists s', etcd_acquire_lock "p" "d" "l" (Some "w") 10
    (demo_state ∅ {[7]} {["w" := 7]}) = (s', Raise (RpcError 5)).
Proof.
  destruct (expired_lock_lease_is_kept d_kvs demo_alive "p" "d" "l" "w" 10 7
    (demo_state ∅ {[7]} {["w" := 7]}) ltac:(discriminate) eq_refl eq_refl eq_refl eq_refl)
    as (s' & H & _).
  exists s'. exact H.
Defined.

Lemma current_uses_exact_witness :
  exists s' (l : list (list ascii)), etcd_container_current_uses "p" "c1"
    (demo_state {[container_allocation_key "p" "c10" "a" := ("1", 3)]} ∅ ∅)
    = (s', Ok (Z.of_nat (length l))).
Proof.
  destruct (current_uses_exact d_kvs demo_alive "p" "c1"
    (demo_state {[container_allocation_key "p" "c10" "a" := ("1", 3)]} ∅ ∅))
    as (s' & l & H & _).
  exists s', l. exact H.
Defined.
