(* ===== verification/Consul.v ===== *)
(** * The Consul state provider

    Models worker/environment/state/consul.py and [parse_duration] of
    worker/utils.py, over a Consul agent given by its HTTP API. *)

From Stdlib Require Import Qring.
From S2P Require Import Prelude PyVal State.

(** ** Durations *)

(** The digits at the head of a string, and what follows them. *)
Fixpoint span_digits (l : list ascii) : list ascii * list ascii :=
  match l with
  | c :: l' => if is_digit c then let '(a, b) := span_digits l' in (c :: a, b) else ([], l)
  | [] => ([], [])
  end.

(** [\d+(?:\.\d+)?] at the head of a string: the number and what follows. *)
(* worker/utils.py:33-33 parse_duration *)
Definition match_number (l : list ascii) : option (Q * list ascii) :=
  let '(a, l1) := span_digits l in
  match a with
  | [] => None
  | _ =>
      let whole := digits_value 0 a in
      match l1 with
      | "."%char :: l2 =>
          match span_digits l2 with
          | ([], _) => Some (inject_Z whole, l1)
          | (b, l3) => Some (inject_Z (digits_value whole b) * pow10 (- Z.of_nat (length b)), l3)%Q
          end
      | _ => Some (inject_Z whole, l1)
      end
  end.

(** The units, in nanoseconds; the two bytes of [µ] are the UTF-8 ones. *)
(* worker/utils.py:21-29 parse_duration *)
Definition multipliers : list (string * Z) :=
  [("ns", 1); ("us", 1000);
   (String (Ascii.ascii_of_nat 194) (String (Ascii.ascii_of_nat 181) "s"), 1000);
   ("ms", 1000000); ("s", 1000000000); ("m", 60 * 1000000000); ("h", 3600 * 1000000000)].

(* worker/utils.py:33-33 parse_duration *)
Definition is_unit_char (c : ascii) : bool :=
  let n := Ascii.nat_of_ascii c in
  bool_decide ((65 ≤ n ∧ n ≤ 90) ∨ (97 ≤ n ∧ n ≤ 122) ∨ n = 194 ∨ n = 181)%nat.

(** [return_seconds] gives seconds as a float, otherwise whole nanoseconds. *)
(* worker/utils.py:5-44 parse_duration *)
Definition parse_duration (duration_str default_unit : string) (return_seconds : bool)
    : res val :=
  if negb (dmem default_unit multipliers) then Raise ValueError
  else match match_number (chars (strip duration_str)) with
       | None => Raise ValueError
       | Some (value, unit) =>
           if negb (forallb is_unit_char unit) then Raise ValueError
           else
             let unit := match unit with [] => default_unit | _ => of_chars unit end in
             match dget unit multipliers with
             | None => Raise ValueError
             | Some k =>
                 let ns := (value * inject_Z k)%Q in
                 Ok (if return_seconds then VFloat (Fin (ns / inject_Z 1000000000)%Q)
                     else VInt (Z.quot (Qnum ns) (Zpos (Qden ns))))
             end
       end.

(** ** The agent *)

(** One HTTP request: the status and the JSON body of the response; a transport
    error is raised as [ClientError], a time-out as [TimeoutError]. *)
Class ConsulServer (db : Type) := {
  http : string -> string -> list (string * val) -> val -> M db (Z * val)
}.

(* worker/environment/state/consul.py:27-39 ConsulStateProvider.__init__ *)
Record consul (db : Type) := {
  agent : db;
  client_open : bool;
  client_session : option val;
  client_session_expires_at : option Q;
  (** the clock [time.time()] reads *)
  now : Q
}.
Arguments agent {db}. Arguments client_open {db}. Arguments client_session {db}.
Arguments client_session_expires_at {db}. Arguments now {db}.

Section consul.
Context {db : Type} `{ConsulServer db}.
Context (raw_prefix : string).
Context (json_dumps : val -> string) (json_loads : string -> option val)
        (b64decode : string -> string).

Abbreviation consul := (consul db).

Definition set_agent (d : db) (s : consul) : consul :=
  {| agent := d; client_open := client_open s; client_session := client_session s;
     client_session_expires_at := client_session_expires_at s; now := now s |}.
Definition set_open (b : bool) (s : consul) : consul :=
  {| agent := agent s; client_open := b; client_session := client_session s;
     client_session_expires_at := client_session_expires_at s; now := now s |}.
Definition set_session (cs : option val) (e : option Q) (s : consul) : consul :=
  {| agent := agent s; client_open := client_open s; client_session := cs;
     client_session_expires_at := e; now := now s |}.

(* worker/environment/state/consul.py:35-35 ConsulStateProvider.__init__ *)
Definition prefix : string := if bool_decide (raw_prefix = "") then "" else raw_prefix +:+ "/".
(* worker/environment/state/consul.py:39-39 ConsulStateProvider.__init__ *)
Definition session_expiry : Z := 600.

(** *** Requests *)

(* worker/environment/state/consul.py:43-54 ConsulStateProvider._get_client *)
Definition get_client : M consul unit := modify (set_open true).
(* worker/environment/state/consul.py:56-59 ConsulStateProvider._reset_client *)
Definition reset_client : M consul unit := modify (set_open false).

Definition send (method url : string) (params : list (string * val)) (body : val)
    : M consul (Z * val) := fun s =>
  let '(d, r) := http method url params body (agent s) in (set_agent d s, r).

(* worker/environment/state/consul.py:61-69 ConsulStateProvider._request *)
Definition request (method url : string) (params : list (string * val)) (body : val)
    : M consul (Z * val) :=
  get_client;;
  try_except (send method url params body)
    (fun e => match e with
              | ClientError | TimeoutError =>
                  Some (reset_client;; get_client;; send method url params body)
              | _ => None
              end).

(** [response.raise_for_status()] *)
Definition raise_for_status (status : Z) : M consul unit :=
  if bool_decide (400 ≤ status) then raise (HTTPException status "") else mret tt.

(* worker/environment/state/consul.py:97-110 ConsulStateProvider._kv_get *)
Definition kv_get (key : string) (params : list (string * val)) : M consul val :=
  r ← request "GET" ("/v1/kv/" +:+ key) params VNone;
  if bool_decide (r.1 = 404) then mret VNone
  else
    raise_for_status r.1;;
    mret (match r.2 with
          | VList [VDict d] => VDict d
          | VList (x :: l) => VList (x :: l)
          | _ => VNone
          end).

(* worker/environment/state/consul.py:112-117 ConsulStateProvider._kv_put *)
Definition kv_put (key content : string) (params : list (string * val)) : M consul bool :=
  r ← request "PUT" ("/v1/kv/" +:+ key) params (VStr content);
  raise_for_status r.1;;
  mret (match r.2 with VBool true => true | _ => false end).

(* worker/environment/state/consul.py:119-123 ConsulStateProvider._kv_delete *)
Definition kv_delete (key : string) (params : list (string * val)) : M consul unit :=
  r ← request "DELETE" ("/v1/kv/" +:+ key) params VNone;
  raise_for_status r.1.

(* worker/environment/state/consul.py:125-131 ConsulStateProvider._session_create *)
Definition session_create (payload : val) : M consul val :=
  r ← request "PUT" "/v1/session/create" [] payload;
  raise_for_status r.1;;
  match r.2 with
  | VDict d => lift_res (match dget "ID" d with Some v => Ok v | None => Raise KeyError end)
  | _ => raise TypeError
  end.

Definition str_val (v : val) : string := match v with VStr s => s | _ => json_dumps v end.

(* worker/environment/state/consul.py:133-143 ConsulStateProvider._session_renew *)
Definition session_renew (session_id : val) : M consul (option val) :=
  r ← request "PUT" ("/v1/session/renew/" +:+ str_val session_id) [] VNone;
  if bool_decide (r.1 = 404) then mret None
  else
    raise_for_status r.1;;
    match r.2 with
    | VList (x :: _) =>
        match x with
        | VDict d =>
            match dget "TTL" d with
            | Some ttl => v ← lift_res (parse_duration (str_val ttl) "s" true); mret (Some v)
            | None => raise KeyError
            end
        | _ => raise TypeError
        end
    | _ => mret None
    end.

(* worker/environment/state/consul.py:145-149 ConsulStateProvider._session_delete *)
Definition session_delete (session_id : string) : M consul unit :=
  r ← request "PUT" ("/v1/session/destroy/" +:+ session_id) [] VNone;
  raise_for_status r.1.

(** [{'LockDelay': ..., 'Name': ..., 'Behavior': 'delete', 'TTL': ...}] *)
Definition session_payload (delay name : string) (ttl : Z) : val :=
  VDict [("LockDelay", VStr delay); ("Name", VStr (prefix +:+ name));
         ("Behavior", VStr "delete"); ("TTL", VStr (str_Z ttl +:+ "s"))].

Definition remaining_time (s : consul) : Q :=
  match client_session s, client_session_expires_at s with
  | Some _, Some e => (e - now s)%Q
  | _, _ => 0%Q
  end.

Definition create_client_session (timeout : Z) : M consul val :=
  id ← session_create (session_payload "2s" "client" (Z.max 10 timeout));
  modify (fun s => set_session (Some id) (Some (now s + inject_Z (Z.max 10 timeout))%Q) s);;
  mret id.

(** The recursive call of the source comes after [client_session] is reset, so
    it takes the first branch; [time.time()] does not move within a call. *)
(* worker/environment/state/consul.py:71-95 ConsulStateProvider._get_client_session *)
Definition get_client_session (timeout : Z) : M consul val :=
  remaining ← gets remaining_time;
  if Qle_bool remaining 0 then create_client_session timeout
  else
    cs ← gets client_session;
    let id := default VNone cs in
    if negb (Qle_bool (inject_Z (timeout - 2)) remaining) then
      expiry ← session_renew id;
      match expiry with
      | None => modify (set_session None None);; create_client_session timeout
      | Some (VFloat (Fin e)) =>
          modify (fun s => set_session (client_session s) (Some (now s + e)%Q) s);; mret id
      | Some _ => raise TypeError
      end
    else mret id.

(** *** Keys *)

(* worker/environment/state/consul.py:268-269 ConsulStateProvider._lock_key *)
Definition lock_key (lock_name : string) : string := prefix +:+ "lock/" +:+ lock_name.
(* worker/environment/state/consul.py:271-272 ConsulStateProvider._container_key_prefix *)
Definition container_key_prefix (c : string) : string := prefix +:+ "container/" +:+ c +:+ "/".
(* worker/environment/state/consul.py:274-275 ConsulStateProvider._container_allocation_key_prefix *)
Definition container_allocation_key_prefix (c : string) : string :=
  container_key_prefix c +:+ "allocation/".
(* worker/environment/state/consul.py:277-278 ConsulStateProvider._container_allocation_key *)
Definition container_allocation_key (c s : string) : string :=
  container_allocation_key_prefix c +:+ s.
(* worker/environment/state/consul.py:280-281 ConsulStateProvider._container_uses_key *)
Definition container_uses_key (c : string) : string := prefix +:+ "container-uses/" +:+ c.
(* worker/environment/state/consul.py:283-284 ConsulStateProvider._session_key *)
Definition session_key (s : string) : string := prefix +:+ "session/" +:+ s.

(** *** The provider *)

(* worker/environment/state/consul.py:153-159 ConsulStateProvider.acquire_lock *)
Definition consul_acquire_lock (lock_name : string) (client_id : option string) (timeout : Z)
    : M consul bool :=
  session_id ← match client_id with
               | None => get_client_session timeout
               | Some c => mret (VStr c)
               end;
  kv_put (lock_key lock_name) "1" [("acquire", session_id)].

(* worker/environment/state/consul.py:161-169 ConsulStateProvider.release_lock *)
Definition consul_release_lock (lock_name : string) (client_id : option string) : M consul unit :=
  session_id ← match client_id with
               | None => gets client_session
               | Some c => mret (Some (VStr c))
               end;
  match session_id with
  | None => mret tt
  | Some session_id => _ ← kv_put (lock_key lock_name) "0" [("release", session_id)]; mret tt
  end.

(** [int(base64.b64decode(meta['Value'] or b'0').decode())] *)
(* worker/environment/state/consul.py:189-189 ConsulStateProvider.allocate_container *)
Definition meta_value (d : list (string * val)) : res Z :=
  match dget "Value" d with
  | None => Raise KeyError
  | Some (VStr v) =>
      match py_int (b64decode (if bool_decide (v = "") then "0" else v)) with
      | Some n => Ok n
      | None => Raise ValueError
      end
  | Some VNone => match py_int (b64decode "0") with Some n => Ok n | None => Raise ValueError end
  | Some _ => Raise TypeError
  end.

(* worker/environment/state/consul.py:179-195 ConsulStateProvider.allocate_container *)
Fixpoint increment_loop (attempts : nat) (uses_key : string) : M consul unit :=
  match attempts with
  | O => mret tt
  | S attempts =>
      meta ← kv_get uses_key [];
      ok ← match meta with
           | VDict d =>
               if truthy meta then
                 current ← lift_res (meta_value d);
                 index ← lift_res (match dget "ModifyIndex" d with
                                   | Some i => Ok i | None => Raise KeyError end);
                 kv_put uses_key (str_Z (current + 1)) [("cas", index)]
               else kv_put uses_key "1" [("cas", VInt 0)]
           | _ => if truthy meta then raise TypeError
                  else kv_put uses_key "1" [("cas", VInt 0)]
           end;
      if (ok : bool) then mret tt else increment_loop attempts uses_key
  end.

(* worker/environment/state/consul.py:173-195 ConsulStateProvider.allocate_container *)
Definition consul_allocate_container (c s : string) : M consul unit :=
  ok ← kv_put (container_allocation_key c s) "1" [("acquire", VStr s)];
  if negb ok
  then raise (RuntimeError ("failed to allocate container " +:+ c +:+ " for session " +:+ s))
  else increment_loop 16 (container_uses_key c).

(* worker/environment/state/consul.py:203-206 ConsulStateProvider.container_current_uses *)
Definition consul_container_current_uses (c : string) : M consul Z :=
  keys ← kv_get (container_allocation_key_prefix c) [("keys", VBool true)];
  mret (match keys with
        | VList l => Z.of_nat (length l)
        | VDict d => Z.of_nat (length d)
        | _ => 0
        end).

(* worker/environment/state/consul.py:200-201 ConsulStateProvider.container_is_allocated *)
Definition consul_container_is_allocated (c : string) : M consul bool :=
  n ← consul_container_current_uses c; mret (bool_decide (0 < n)).

(* worker/environment/state/consul.py:208-212 ConsulStateProvider.container_total_uses *)
Definition consul_container_total_uses (c : string) : M consul Z :=
  meta ← kv_get (container_uses_key c) [];
  match meta with
  | VDict (x :: d) => lift_res (meta_value (x :: d))
  | VList (_ :: _) => raise TypeError
  | _ => mret 0
  end.

(** What iterating over [metas] yields: the entries of a list, the keys of a
    dictionary. *)
Definition iterate (v : val) : list val :=
  match v with VList l => l | VDict d => VStr <$> dkeys d | _ => [] end.

(* worker/environment/state/consul.py:214-222 ConsulStateProvider.containers_total_uses_gte *)
Definition consul_containers_total_uses_gte (threshold : Z) : M consul (list string) :=
  metas ← kv_get (prefix +:+ "container-uses/") [("recurse", VBool true)];
  lift_res
    ((fix go metas : res (list string) :=
        match metas with
        | [] => Ok []
        | VDict d :: metas =>
            match dget "Key" d with
            | Some (VStr key) =>
                value ← meta_value d;
                rest ← go metas;
                mret (if bool_decide (threshold ≤ value)
                      then default "" (last (split_on "/" key)) :: rest else rest)
            | Some _ => Raise AttributeError
            | None => Raise KeyError
            end
        | _ :: _ => Raise TypeError
        end) (iterate metas)).

(* worker/environment/state/consul.py:224-228 ConsulStateProvider.release_container *)
Definition consul_release_container (c s : string) : M consul unit :=
  let key := container_allocation_key c s in
  released ← kv_put key "0" [("release", VStr s)];
  if (released : bool) then kv_delete key [] else mret tt.

(* worker/environment/state/consul.py:230-232 ConsulStateProvider.remove_container *)
Definition consul_remove_container (c : string) : M consul unit :=
  kv_delete (container_key_prefix c) [("recurse", VBool true)];;
  kv_delete (container_uses_key c) [].

(* worker/environment/state/consul.py:236-242 ConsulStateProvider.generate_session_id *)
Definition consul_generate_session_id : M consul val :=
  session_create (session_payload "0s" "session" session_expiry).

(* worker/environment/state/consul.py:244-246 ConsulStateProvider.store_session *)
Definition consul_store_session (s : string) (data : val) : M consul unit :=
  _ ← kv_put (session_key s) (json_dumps data) [("acquire", VStr s)]; mret tt.

(* worker/environment/state/consul.py:248-255 ConsulStateProvider.get_session *)
Definition consul_get_session (s : string) : M consul (option val) :=
  meta ← kv_get (session_key s) [];
  match meta with
  | VDict (x :: d) =>
      match dget "Value" (x :: d) with
      | Some (VStr v) => mret (json_loads (b64decode v))
      | Some _ => raise TypeError
      | None => raise KeyError
      end
  | VList (_ :: _) => raise TypeError
  | _ => mret None
  end.

(* worker/environment/state/consul.py:257-261 ConsulStateProvider *)
Definition ConsulStateProvider : StateProvider consul := {|
  acquire_lock := consul_acquire_lock;
  release_lock := consul_release_lock;
  allocate_container := consul_allocate_container;
  renew_container _ _ := mret tt;
  container_is_allocated := consul_container_is_allocated;
  container_current_uses := consul_container_current_uses;
  container_total_uses := consul_container_total_uses;
  containers_total_uses_gte := consul_containers_total_uses_gte;
  release_container := consul_release_container;
  remove_container := consul_remove_container;
  store_session := consul_store_session;
  renew_session s := _ ← session_renew (VStr s); mret tt;
  get_session := consul_get_session;
  delete_session s := session_delete s
|}.
End consul.

(** ** Correctness *)

Lemma span_digits_app l r :
  Forall (fun c => is_digit c = true) l ->
  match r with c :: _ => is_digit c = false | [] => True end ->
  span_digits (l ++ r) = (l, r).
Proof.
  intros Hl Hr. induction Hl as [|c l Hc _ IH]; simpl.
  - destruct r as [|c r]; [done|]. simpl. by rewrite Hr.
  - by rewrite Hc, IH.
Qed.

(** A decimal number followed by a unit parses to that many nanoseconds of the
    unit. *)
Theorem parse_duration_roundtrip (n : Z) (unit default_unit : string) (k : Z) :
  0 <= n -> (unit, k) ∈ multipliers -> dmem default_unit multipliers = true ->
  parse_duration (str_Z n +:+ unit) default_unit false = Ok (VInt (n * k)).
Proof.
  intros Hn Hu Hd. unfold parse_duration. rewrite Hd.
  destruct (str_Z_chars n Hn) as (l & Hl & Hdig & Hne & Hv).
  assert (exists u us, chars unit = u :: us ∧ is_digit u = false ∧ bool_decide (u = "."%char) = false ∧
    (forall c, last (u :: us) = Some c -> is_space c = false) ∧
    forallb is_unit_char (u :: us) = true ∧ dget unit multipliers = Some k)
    as (u & us & Hus & Hnd & Hdot & Hsp & Huc & Hg).
  { repeat (apply elem_of_cons in Hu as [Hu|Hu];
      [injection Hu as -> ->; do 2 eexists; split; [reflexivity|];
       split_and!; try reflexivity; by intros c [= <-]|]).
    by apply elem_of_nil in Hu. }
  assert (chars (strip (str_Z n +:+ unit)) = l ++ u :: us) as ->.
  { apply strip_id_ends; [by rewrite chars_app, Hl, Hus|..].
    - destruct l as [|c l]; [done|]. apply Forall_cons in Hdig as [Hc _].
      intros c' [= <-]. by apply digit_not_space.
    - intros c. rewrite last_app. destruct (last (u :: us)) as [c'|] eqn:E;
        [|by apply last_None in E]. intros [= <-]. by apply Hsp. }
  unfold match_number. rewrite span_digits_app by (done || by simpl).
  destruct l as [|c0 l0] eqn:El; [done|]. rewrite <- El in *. clear El c0 l0.
  assert ((match u :: us with
     | "."%char :: l2 =>
          match span_digits l2 with
          | ([], _) => Some (inject_Z (digits_value 0 l), u :: us)
          | (b, l3) => Some (inject_Z (digits_value (digits_value 0 l) b) * pow10 (- Z.of_nat (length b)), l3)%Q
          end
     | _ => Some (inject_Z (digits_value 0 l), u :: us)
     end) = Some (inject_Z (digits_value 0 l), u :: us)) as ->.
  { apply bool_decide_eq_false in Hdot. by repeat case_match. }
  assert (String u (of_chars us) = unit) as Hof.
  { change (of_chars (u :: us) = unit). rewrite <- Hus.
    apply String.string_of_list_ascii_of_string. }
  rewrite Huc. cbn [negb]. cbv zeta iota.
  change (of_chars (u :: us)) with (String u (of_chars us)).
  rewrite Hof, Hg, Hv. simpl. by rewrite Z.quot_1_r.
Qed.

Section proofs.
Context {db : Type} `{ConsulServer db}.
Context (raw_prefix : string) (json_dumps : val -> string)
        (b64decode : string -> string).

Lemma request_ok method url params body (s : consul db) d r :
  http method url params body (agent s) = (d, Ok r) ->
  request method url params body s = (set_agent d (set_open true s), Ok r).
Proof.
  intros Hh. unfold request, get_client. rewrite bind_modify. unfold try_except, send.
  simpl. by rewrite Hh.
Qed.

(** When exactly one container has a use counter, containers_total_uses_gte
    raises TypeError: the recursive read returns the entry itself instead of a list
    of one. *)
Theorem total_uses_gte_one_container (threshold : Z) (s : consul db) d
    (e : string * val) (entry : list (string * val)) :
  http "GET" ("/v1/kv/" +:+ prefix raw_prefix +:+ "container-uses/") [("recurse", VBool true)]
    VNone (agent s) = (d, Ok (200, VList [VDict (e :: entry)])) ->
  (consul_containers_total_uses_gte raw_prefix b64decode threshold s).2 = Raise TypeError.
Proof.
  intros Hh. unfold consul_containers_total_uses_gte, kv_get.
  erewrite M_bind_run; [|erewrite M_bind_run by (apply request_ok, Hh); reflexivity]. done.
Qed.

(** The Consul session get_client_session returns is the cached one and its
    recorded expiry is in the future, whether it was reused, renewed or created. *)
Theorem client_session_is_live (timeout : Z) (s s' : consul db) (id : val) :
  0 < timeout ->
  (forall sid s1 s2 v, session_renew json_dumps sid s1 = (s2, Ok (Some v)) ->
     exists t, v = VFloat (Fin t) ∧ (0 < t)%Q) ->
  get_client_session raw_prefix json_dumps timeout s = (s', Ok id) ->
  client_session s' = Some id ∧
  exists e, client_session_expires_at s' = Some e ∧ (now s' < e)%Q.
Proof.
  intros Ht Hrenew.
  assert (forall s1, create_client_session raw_prefix timeout s1 = (s', Ok id) ->
    client_session s' = Some id ∧
    exists e, client_session_expires_at s' = Some e ∧ (now s' < e)%Q) as Hcreate.
  { intros s1 (i & s2 & _ & H2)%M_bind_ok. unfold modify in H2. cbv [mbind M_bind mret M_ret] in H2.
    simplify_eq. simpl. split; [done|]. eexists. split; [done|].
    rewrite <- (Qplus_0_r (now s2)) at 1. apply Qplus_lt_r. unfold Qlt. simpl. lia. }
  unfold get_client_session. rewrite bind_gets.
  destruct (Qle_bool (remaining_time s) 0) eqn:Er; [apply Hcreate|].
  rewrite bind_gets. unfold remaining_time in Er.
  destruct (client_session s) as [cs|] eqn:Ecs; [|done].
  destruct (client_session_expires_at s) as [e|] eqn:Ee; [|done]. simpl.
  assert (now s < e)%Q as Hlive.
  { apply Qnot_le_lt. intros Hle. rewrite <- not_true_iff_false in Er. apply Er.
    apply Qle_bool_iff. apply (Qplus_le_l _ _ (now s)). ring_simplify. exact Hle. }
  destruct (negb _).
  - intros (r & s1 & H1 & H2)%M_bind_ok. destruct r as [v|].
    + destruct (Hrenew _ _ _ _ H1) as (t & -> & Hpos).
      cbv [mbind M_bind modify mret M_ret] in H2. simplify_eq. simpl.
      assert (client_session s1 = Some id) as Hid.
      { revert H1. unfold session_renew. intros (x & s2 & Hq & H3)%M_bind_ok.
        assert (client_session s2 = client_session s) as Hs2.
        { revert Hq. unfold request, try_except, send, get_client, reset_client.
          cbv [mbind M_bind modify]. intros. repeat (case_match; simplify_eq/=); done. }
        revert H3. unfold raise_for_status. cbv [mbind M_bind lift_res mret M_ret raise].
        intros. repeat (case_match; simplify_eq/=); congruence. }
      split; [done|]. eexists. split; [done|].
      rewrite <- (Qplus_0_r (now s1)) at 1. by apply Qplus_lt_r.
    + cbv [mbind M_bind modify] in H2. by eapply Hcreate.
  - intros [= <- <-]. split; [done|]. by exists e.
Qed.
End proofs.

(** ** Concrete inputs *)

Lemma parse_duration_roundtrip_witness :
  parse_duration (str_Z 15 +:+ "s") "s" false = Ok (VInt 15000000000).
Proof.
  apply (parse_duration_roundtrip 15 "s" "s" 1000000000); [lia| |reflexivity].
  do 4 right. left.
Defined.

(** An agent with one counter and one session. *)
#[local] Instance demo_agent : ConsulServer unit := {|
  http _ url _ _ := fun d =>
    (d, Ok (if starts_with "/v1/session/create" url then (200, VDict [("ID", VStr "sess")])
            else if starts_with "/v1/kv/" url
            then (200, VList [VDict [("Key", VStr "p/container-uses/c"); ("Value", VStr "3")]])
            else (404, VNone)))
|}.
Definition demo_consul : consul unit :=
  {| agent := tt; client_open := false; client_session := None;
     client_session_expires_at := None; now := 100%Q |}.

Lemma total_uses_gte_one_container_witness :
  (consul_containers_total_uses_gte "p" id 1 demo_consul).2 = Raise TypeError.
Proof.
  apply (total_uses_gte_one_container "p" id 1 demo_consul tt ("Key", VStr "p/container-uses/c")
    [("Value", VStr "3")]).
  reflexivity.
Defined.

Lemma client_session_is_live_witness :
  exists s', get_client_session "p" (fun _ => "") 10 demo_consul = (s', Ok (VStr "sess")) ∧
    client_session s' = Some (VStr "sess").
Proof.
  eexists. split; [reflexivity|].
  eapply (client_session_is_live "p" (fun _ => "") 10 demo_consul); [lia| |reflexivity].
  intros sid s1 s2 v H. unfold session_renew in H. cbv [mbind M_bind] in H.
  unfold request, try_except, send, get_client in H. cbv [mbind M_bind modify] in H.
  simpl in H. discriminate H.
Defined.
