(* ===== verification/Allocation.v ===== *)
(** * Allocation of environments to sessions

    The part the Docker and the Kubernetes controllers share, written once over
    a state provider ([StateProvider]) and a driver ([Driver]): [start_session],
    [renew_session], [end_session] of worker/environment/docker.py and k8s.py,
    with the defaults of worker/environment/_delegation.py. *)

From S2P Require Import Prelude PyVal State.

(** ** The task's configuration *)

(** [get_service_port]: a port, or a list of ports. *)
(* worker/environment/_delegation.py:27-32 EnvironmentDelegation.get_service_port *)
Inductive service_port : Type :=
| NoPort
| OnePort (p : Z)
| Ports (l : list Z).

(* worker/environment/_delegation.py:11-25 EnvironmentDelegation *)
Record delegation := {
  get_name : string;
  get_subtypes : list string;
  get_service_port : string -> service_port;
  get_concurrency_limit : string -> Z;
  get_reuse_limit : string -> Z;
  has_homepage : bool;
  get_homepage_subtype : string;
  get_homepage_envs : list (string * string) -> list (string * string)
}.

(* worker/environment/_delegation.py:143-148 EnvironmentDelegation.get_concurrency_limit *)
Definition default_concurrency_limit (is_exclusive : bool) : Z := if is_exclusive then 1 else 0.
(* worker/environment/_delegation.py:150-155 EnvironmentDelegation.get_reuse_limit *)
Definition default_reuse_limit (is_exclusive supports_reuse : bool) : Z :=
  if is_exclusive || negb supports_reuse then 1 else 0.

(** ** Drivers *)

(** What a controller does with its back end: [env] is a container or a pod. *)
Class Driver (D env : Type) := {
  env_id : env -> string;
  create_env : string -> list (string * string) -> bool -> M D env;
  identify_envs : list string -> M D (list (string * list env));
  wait_for_health : list env -> M D unit;
  env_url : env -> string -> M D string
}.

Record world (S D : Type) := { st : S; drv : D }.
Arguments st {S D}. Arguments drv {S D}.

Section allocation.
Context {S D env : Type} `{StateProvider S} `{Driver D env}.
Context (dg : delegation).
(** [self.state.generate_session_id()] *)
Context (generate_session_id : M S string).
(** [random.shuffle] *)
Context (shuffle : list env -> list env).
(** Attempts of the lock, rounds of the allocation loop. *)
Context (lock_fuel : nat).

Abbreviation world := (world S D).

Definition on_state {A} (m : M S A) : M world A := fun w =>
  let '(s, r) := m (st w) in ({| st := s; drv := drv w |}, r).
Definition on_driver {A} (m : M D A) : M world A := fun w =>
  let '(d, r) := m (drv w) in ({| st := st w; drv := d |}, r).

(** *** The critical section *)

(** The first candidate below both limits; a limit of 0 is no limit. *)
(* worker/environment/docker.py:162-168 DockerEnvironmentController.start_session *)
Fixpoint select_env (usage_limit concurrency_limit : Z) (l : list env) : M S (option env) :=
  match l with
  | [] => mret None
  | e :: l =>
      worn ← (if bool_decide (0 < usage_limit)
              then n ← container_total_uses (env_id e); mret (bool_decide (usage_limit ≤ n))
              else mret false);
      if (worn : bool) then select_env usage_limit concurrency_limit l
      else
        full ← (if bool_decide (0 < concurrency_limit)
                then n ← container_current_uses (env_id e);
                     mret (bool_decide (concurrency_limit ≤ n))
                else mret false);
        if (full : bool) then select_env usage_limit concurrency_limit l
        else mret (Some e)
  end.

(* worker/environment/docker.py:161-172 DockerEnvironmentController.start_session *)
Definition pick (session_id : string) (usage_limit concurrency_limit : Z) (l : list env)
    : M S (option env) :=
  selected ← select_env usage_limit concurrency_limit l;
  match selected with
  | Some e => allocate_container (env_id e) session_id;; mret (Some e)
  | None => mret None
  end.

(** *** Sessions *)

Definition lock_name (subtype : string) : string := "allocation:" +:+ subtype.

(** The [while True] of [start_session]: the environment, and the list of
    candidates it has grown. *)
(* worker/environment/docker.py:158-178 DockerEnvironmentController.start_session *)
Fixpoint allocate_shared (fuel : nat) (session_id subtype : string) (existing : list env)
    : M world (env * list env) :=
  match fuel with
  | O => raise RecursionLimit
  | Datatypes.S fuel =>
      selected ← on_state (with_lock lock_fuel (lock_name subtype) (Some session_id) 10
        (pick session_id (get_reuse_limit dg subtype) (get_concurrency_limit dg subtype) existing));
      match selected with
      | Some e => mret (e, existing)
      | None =>
          e ← on_driver (create_env subtype [] false);
          allocate_shared fuel session_id subtype (existing ++ [e])
      end
  end.

(** The allocations so far: by subtype, and those that are exclusive. *)
Definition allocated : Type := list (string * env) * list (string * env).

(** [usage_limit == 1 or (usage_limit != 0 and not immutable)] *)
(* worker/environment/docker.py:136-144 DockerEnvironmentController.start_session *)
Definition is_exclusive (immutable : bool) (subtype : string) : bool :=
  let usage_limit := get_reuse_limit dg subtype in
  bool_decide (usage_limit = 1) || (bool_decide (usage_limit ≠ 0) && negb immutable).

(* worker/environment/docker.py:135-144 DockerEnvironmentController.start_session *)
Fixpoint allocate_exclusive (session_id : string) (l : list string) (a : allocated)
    : M world allocated :=
  match l with
  | [] => mret a
  | subtype :: l =>
      e ← on_driver (create_env subtype [] true);
      on_state (allocate_container (env_id e) session_id);;
      allocate_exclusive session_id l (dset subtype e a.1, dset subtype e a.2)
  end.

(* worker/environment/docker.py:150-178 DockerEnvironmentController.start_session *)
Fixpoint allocate_all_shared (fuel : nat) (session_id : string)
    (candidates : list (string * list env)) (l : list string) (a : allocated)
    : M world allocated :=
  match l with
  | [] => mret a
  | subtype :: l =>
      r ← allocate_shared fuel session_id subtype (shuffle (dget_or subtype [] candidates));
      let candidates := if dmem subtype candidates then dset subtype r.2 candidates
                        else candidates in
      allocate_all_shared fuel session_id candidates l (dset subtype r.1 a.1, a.2)
  end.

Definition urls_of (a : list (string * env)) : M world (list (string * string)) :=
  map_m (fun se => u ← on_driver (env_url se.2 se.1); mret (se.1, u)) a.

(* worker/environment/docker.py:180-190 DockerEnvironmentController.start_session *)
Definition allocate_homepage (session_id : string) (a : allocated) : M world allocated :=
  if has_homepage dg then
    site_urls ← urls_of a.1;
    let subtype := get_homepage_subtype dg in
    e ← on_driver (create_env subtype (get_homepage_envs dg site_urls) true);
    on_state (allocate_container (env_id e) session_id);;
    mret (dset subtype e a.1, dset subtype e a.2)
  else mret a.

(** The stored session, under the keys of the driver. *)
(* worker/environment/docker.py:193-202 DockerEnvironmentController.start_session *)
Definition session_data (ids exclusives : string) (a : allocated) : val :=
  VDict [(ids, VDict (prod_map id (fun e => VStr (env_id e)) <$> a.1));
         (exclusives, VList ((fun se => VStr (env_id se.2)) <$> a.2))].

(* worker/environment/docker.py:124-219 DockerEnvironmentController.start_session *)
Definition start_session_with (ids exclusives : string) (fuel : nat)
    (subtypes : list string) (immutable : bool)
    : M world (string * list (string * string) * list (string * string)) :=
  if negb (forallb (fun t => bool_decide (t ∈ get_subtypes dg)) subtypes)
  then raise AssertionError
  else
    session_id ← on_state generate_session_id;
    let exclusive := filter (fun t => is_exclusive immutable t = true) subtypes in
    let shared := filter (fun t => is_exclusive immutable t = false) subtypes in
    a ← allocate_exclusive session_id exclusive ([], []);
    candidates ← (match shared with
                  | [] => mret []
                  | _ => on_driver (identify_envs shared)
                  end);
    a ← allocate_all_shared fuel session_id candidates shared a;
    a ← allocate_homepage session_id a;
    on_state (store_session session_id (session_data ids exclusives a));;
    on_driver (wait_for_health (a.1).*2);;
    urls ← urls_of a.1;
    mret (session_id, prod_map id env_id <$> a.1, urls).

(** The containers of a stored session. *)
Definition stored_ids (ids : string) (session : val) : list (string * string) :=
  match vget ids session with
  | Some (VDict d) => omap (fun kv => match kv.2 with VStr s => Some (kv.1, s) | _ => None end) d
  | _ => []
  end.
Definition stored_exclusives (exclusives : string) (session : val) : list string :=
  match vget exclusives session with
  | Some (VList l) => omap (fun v => match v with VStr s => Some s | _ => None end) l
  | _ => []
  end.

(* worker/environment/docker.py:221-226 DockerEnvironmentController.renew_session *)
Definition renew_session_with (ids : string) (session_id : string) : M world unit :=
  on_state (renew_session session_id);;
  session ← on_state (get_session session_id);
  match session with
  | Some data =>
      if truthy data
      then for_each (stored_ids ids data)
             (fun kv => on_state (renew_container kv.2 session_id))
      else mret tt
  | None => mret tt
  end.

(** [delete_exclusive] is what the driver does with an exclusive container. *)
(* worker/environment/docker.py:228-248 DockerEnvironmentController.end_session *)
Definition end_session_with (ids exclusives : string) (delete_exclusive : string -> M world unit)
    (session_id : string) : M world unit :=
  session ← on_state (get_session session_id);
  match session with
  | Some data =>
      if truthy data then
        let exclusive := stored_exclusives exclusives data in
        for_each (filter (fun kv => kv.2 ∉ exclusive) (stored_ids ids data))
          (fun kv => on_state (with_lock lock_fuel (lock_name kv.1) (Some session_id) 10
                                 (release_container kv.2 session_id)));;
        for_each exclusive delete_exclusive
      else mret tt
  | None => mret tt
  end;;
  on_state (delete_session session_id).
End allocation.

(** ** Correctness, against the interface of the state provider *)
Section proofs.
Context {S D env : Type} `{Implements S R valid} `{Driver D env}.
Context (dg : delegation).

Ltac use_spec q HR :=
  let s' := fresh "s'" in let Hp := fresh "Hp" in
  destruct (perform_spec q _ _ ltac:(eassumption) HR) as (s' & Hp & ?);
  simpl in Hp; apply M_bind_ok in Hp as (? & ? & ? & Hp);
  cbv [mret M_ret] in Hp; simplify_eq/=; eauto.

Lemma run_total_uses c s sp :
  valid (ContainerTotalUses c) -> R s sp ->
  exists s', container_total_uses c s = (s', Ok (uses c sp)) ∧ R s' sp.
Proof. intros Hv HR. use_spec (ContainerTotalUses c) HR. Qed.

Lemma run_current_uses c s sp :
  valid (ContainerCurrentUses c) -> R s sp ->
  exists s', container_current_uses c s = (s', Ok (Z.of_nat (size (users c sp)))) ∧ R s' sp.
Proof. intros Hv HR. use_spec (ContainerCurrentUses c) HR. Qed.

Lemma run_allocate c t s sp :
  valid (AllocateContainer c t) -> R s sp ->
  exists s', allocate_container c t s = (s', Ok tt) ∧
             R s' (spec_step (AllocateContainer c t) sp).1.
Proof. intros Hv HR. use_spec (AllocateContainer c t) HR. destruct x. eauto. Qed.

Lemma run_release c t s sp :
  valid (ReleaseContainer c t) -> R s sp ->
  exists s', release_container c t s = (s', Ok tt) ∧
             R s' (spec_step (ReleaseContainer c t) sp).1.
Proof. intros Hv HR. use_spec (ReleaseContainer c t) HR. destruct x. eauto. Qed.

Lemma run_get_session t s sp :
  valid (GetSession t) -> R s sp ->
  exists s', get_session t s = (s', Ok (s_sessions sp !! t)) ∧ R s' sp.
Proof. intros Hv HR. use_spec (GetSession t) HR. Qed.

Lemma run_delete_session t s sp :
  valid (DeleteSession t) -> R s sp ->
  exists s', delete_session t s = (s', Ok tt) ∧ R s' (spec_step (DeleteSession t) sp).1.
Proof. intros Hv HR. use_spec (DeleteSession t) HR. destruct x. eauto. Qed.

(** *** The limits *)

Definition valid_env (session_id : string) (e : env) : Prop :=
  valid (ContainerTotalUses (env_id e)) ∧ valid (ContainerCurrentUses (env_id e)) ∧
  valid (AllocateContainer (env_id e) session_id).

(** A container that may take one more session. *)
Definition available (ul cl : Z) (sp : spec) (c : string) : Prop :=
  (0 < ul -> uses c sp < ul) ∧ (0 < cl -> Z.of_nat (size (users c sp)) < cl).

Definition within_limits (ul cl : string -> Z) (sp : spec) : Prop :=
  forall c, (0 < ul c -> uses c sp ≤ ul c) ∧
            (0 < cl c -> Z.of_nat (size (users c sp)) ≤ cl c).

Lemma select_env_spec ul cl l s sp sid :
  Forall (valid_env sid) l -> R s sp ->
  exists s' r, select_env ul cl l s = (s', Ok r) ∧ R s' sp ∧
    match r with
    | Some e => e ∈ l ∧ available ul cl sp (env_id e)
    | None => forall e, e ∈ l -> ¬ available ul cl sp (env_id e)
    end.
Proof.
  revert s. induction l as [|e l IH]; intros s Hv HR.
  { exists s, None. split_and!; [done|done|]. intros e Hin. by apply elem_of_nil in Hin. }
  apply Forall_cons in Hv as [(Hv1 & Hv2 & _) Hv]. cbn [select_env].
  assert (forall s1, R s1 sp -> ¬ available ul cl sp (env_id e) ->
    exists s' r, select_env ul cl l s1 = (s', Ok r) ∧ R s' sp ∧
    match r with
    | Some e' => e' ∈ e :: l ∧ available ul cl sp (env_id e')
    | None => forall e', e' ∈ e :: l -> ¬ available ul cl sp (env_id e')
    end) as Hskip.
  { intros s1 HR1 Hna. destruct (IH s1 Hv HR1) as (s' & r & Hr & HR' & Hcase).
    exists s', r. split_and!; [done|done|]. destruct r as [e'|].
    - destruct Hcase. split; [by right|done].
    - intros e' [->|Hin]%elem_of_cons; auto. }
  assert (exists s1, (if bool_decide (0 < ul)
     then n ← container_total_uses (env_id e); mret (bool_decide (ul ≤ n))
     else mret false) s = (s1, Ok (bool_decide (0 < ul ∧ ul ≤ uses (env_id e) sp))) ∧ R s1 sp)
    as (s1 & Hw & HR1).
  { destruct (decide (0 < ul)) as [Hlt|Hle].
    - rewrite bool_decide_eq_true_2 by done.
      destruct (run_total_uses (env_id e) s sp Hv1 HR) as (s1 & He1 & HR1).
      exists s1. split; [|done]. erewrite M_bind_run by exact He1. unfold mret, M_ret.
      do 2 f_equal. apply bool_decide_ext. tauto.
    - rewrite bool_decide_eq_false_2 by done. exists s. split; [|done]. unfold mret, M_ret.
      do 2 f_equal. symmetry. apply bool_decide_eq_false_2. tauto. }
  erewrite M_bind_run by exact Hw. clear Hw.
  destruct (decide (0 < ul ∧ ul ≤ uses (env_id e) sp)) as [Hworn|Hworn];
    [rewrite bool_decide_eq_true_2 by done|rewrite bool_decide_eq_false_2 by done].
  { apply Hskip; [done|]. unfold available. intros [Ha _]. specialize (Ha (proj1 Hworn)). lia. }
  assert (exists s2, (if bool_decide (0 < cl)
     then n ← container_current_uses (env_id e); mret (bool_decide (cl ≤ n))
     else mret false) s1 =
     (s2, Ok (bool_decide (0 < cl ∧ cl ≤ Z.of_nat (size (users (env_id e) sp))))) ∧ R s2 sp)
    as (s2 & Hf & HR2).
  { destruct (decide (0 < cl)) as [Hlt|Hle].
    - rewrite bool_decide_eq_true_2 by done.
      destruct (run_current_uses (env_id e) s1 sp Hv2 HR1) as (s2 & He1 & HR2).
      exists s2. split; [|done]. erewrite M_bind_run by exact He1. unfold mret, M_ret.
      do 2 f_equal. apply bool_decide_ext. tauto.
    - rewrite bool_decide_eq_false_2 by done. exists s1. split; [|done]. unfold mret, M_ret.
      do 2 f_equal. symmetry. apply bool_decide_eq_false_2. tauto. }
  erewrite M_bind_run by exact Hf. clear Hf.
  destruct (decide (0 < cl ∧ cl ≤ Z.of_nat (size (users (env_id e) sp)))) as [Hfull|Hfull];
    [rewrite bool_decide_eq_true_2 by done|rewrite bool_decide_eq_false_2 by done].
  { apply Hskip; [done|]. unfold available. intros [_ Ha]. specialize (Ha (proj1 Hfull)). lia. }
  exists s2, (Some e). split_and!; [done|done|by left|]. unfold available. lia.
Qed.

Lemma size_add (t : string) (X : gset string) : (size ({[t]} ∪ X) <= 1 + size X)%nat.
Proof.
  rewrite size_union_alt, size_singleton.
  pose proof (subseteq_size (X ∖ {[t]}) X ltac:(set_solver)). lia.
Qed.

Lemma allocate_within ul cl sp c sid :
  within_limits ul cl sp -> available (ul c) (cl c) sp c ->
  within_limits ul cl (spec_step (AllocateContainer c sid) sp).1.
Proof.
  intros Hw [Ha1 Ha2] c'. destruct (Hw c') as [Hc1 Hc2].
  unfold uses, users in *. simpl. unfold uses, users. rewrite !lookup_insert.
  destruct (decide (c = c')) as [->|Hne]; [|by split]. simpl. split; intros Hlt.
  - specialize (Ha1 Hlt). lia.
  - specialize (Ha2 Hlt). pose proof (size_add sid (default ∅ (s_alloc sp !! c'))). lia.
Qed.

(** C13: over any state provider that implements the specification, the critical
    section of start_session never lets a container exceed its reuse limit or its
    concurrency limit: it allocates the session to a listed container that was below
    both, and returns none exactly when no listed container is, changing nothing. *)
Theorem pick_respects_limits (session_id : string) (ul cl : string -> Z) (subtype_ul subtype_cl : Z)
    (l : list env) (s : S) (sp : spec) :
  Forall (valid_env session_id) l ->
  Forall (fun e => ul (env_id e) = subtype_ul ∧ cl (env_id e) = subtype_cl) l ->
  R s sp -> within_limits ul cl sp ->
  exists s' r sp', pick session_id subtype_ul subtype_cl l s = (s', Ok r) ∧ R s' sp' ∧
    within_limits ul cl sp' ∧
    match r with
    | Some e => e ∈ l ∧ available subtype_ul subtype_cl sp (env_id e) ∧
                sp' = (spec_step (AllocateContainer (env_id e) session_id) sp).1
    | None => sp' = sp ∧ forall e, e ∈ l -> ¬ available subtype_ul subtype_cl sp (env_id e)
    end.
Proof.
  intros Hv Hlim HR Hw. unfold pick.
  destruct (select_env_spec subtype_ul subtype_cl l s sp session_id Hv HR)
    as (s1 & r & Hsel & HR1 & Hcase).
  erewrite M_bind_run by exact Hsel. destruct r as [e|].
  - destruct Hcase as [Hin Ha].
    rewrite Forall_forall in Hv, Hlim. destruct (Hv e Hin) as (_ & _ & Hva).
    destruct (Hlim e Hin) as [Hul Hcl].
    destruct (run_allocate (env_id e) session_id s1 sp Hva HR1) as (s2 & He2 & HR2).
    exists s2, (Some e). eexists. split; [|split; [exact HR2|split; [|done]]].
    + by erewrite M_bind_run by exact He2.
    + apply allocate_within; [done|]. by rewrite Hul, Hcl.
  - exists s1, None, sp. by split_and!.
Qed.

(** *** The allocation loop *)

(** The lock is free and works: both operations succeed and leave what the
    specification records alone. *)
Context (lock_fuel : nat).
Hypothesis lock_ok : forall name client timeout s sp, R s sp ->
  (exists s', acquire_lock name client timeout s = (s', Ok true) ∧ R s' sp) ∧
  (exists s', release_lock name client s = (s', Ok tt) ∧ R s' sp).

Lemma with_lock_run {A} name client (m : M S A) s sp :
  (0 < lock_fuel)%nat -> R s sp ->
  (forall s1, R s1 sp -> exists s2 a sp2, m s1 = (s2, Ok a) ∧ R s2 sp2) ->
  exists s' s1 s2 a, with_lock lock_fuel name client 10 m s = (s', Ok a) ∧
    R s1 sp ∧ m s1 = (s2, Ok a) ∧ forall sp2, R s2 sp2 -> R s' sp2.
Proof.
  intros Hf HR Hm. destruct lock_fuel as [|n]; [lia|]. unfold with_lock. cbn [acquire_loop].
  destruct (proj1 (lock_ok name client 10 s sp HR)) as (s1 & Ha & HR1).
  destruct (Hm s1 HR1) as (s2 & a & sp2 & Hr & HR2).
  destruct (proj2 (lock_ok name client 10 s2 sp2 HR2)) as (s3 & Hrel & _).
  exists s3, s1, s2, a. split_and!; [|done|done|].
  - erewrite M_bind_run by (erewrite M_bind_run by exact Ha; reflexivity).
    unfold finally. rewrite Hr. by rewrite Hrel.
  - intros sp3 HR3. destruct (proj2 (lock_ok name client 10 s2 sp3 HR3)) as (s4 & Hrel' & HR4).
    congruence.
Qed.

(** One round of the loop: the critical section under its lock. *)
Lemma locked_pick session_id subtype ul cl l s sp :
  (0 < lock_fuel)%nat -> Forall (valid_env session_id) l -> R s sp ->
  exists s' r, with_lock lock_fuel (lock_name subtype) (Some session_id) 10
      (pick session_id ul cl l) s = (s', Ok r) ∧
  match r with
  | Some e => available ul cl sp (env_id e) ∧
              R s' (spec_step (AllocateContainer (env_id e) session_id) sp).1
  | None => R s' sp ∧ forall e, e ∈ l -> ¬ available ul cl sp (env_id e)
  end.
Proof.
  intros Hf Hv HR.
  assert (forall s2, R s2 sp -> exists s3 r, pick session_id ul cl l s2 = (s3, Ok r) ∧
    match r with
    | Some e => available ul cl sp (env_id e) ∧
                R s3 (spec_step (AllocateContainer (env_id e) session_id) sp).1
    | None => R s3 sp ∧ forall e, e ∈ l -> ¬ available ul cl sp (env_id e)
    end) as Hpick.
  { intros s2 HR2. unfold pick.
    destruct (select_env_spec ul cl l s2 sp session_id Hv HR2) as (s3 & r & Hsel & HR3 & Hcase).
    erewrite M_bind_run by exact Hsel. destruct r as [e|]; [|by exists s3, None].
    destruct Hcase as [Hin Ha]. rewrite Forall_forall in Hv.
    destruct (run_allocate (env_id e) session_id s3 sp) as (s4 & Hal & HR4);
      [by apply (Hv e Hin)|done|].
    exists s4, (Some e). erewrite M_bind_run by exact Hal. done. }
  destruct (with_lock_run (lock_name subtype) (Some session_id) (pick session_id ul cl l) s sp
    Hf HR) as (s' & s2 & s3 & r & Hw & HR2 & Hp & Hkeep).
  { intros s2 HR2. destruct (Hpick s2 HR2) as (s3 & r & Hp & Hcase).
    exists s3, r. destruct r; destruct Hcase; eauto. }
  exists s', r. split; [done|]. destruct (Hpick s2 HR2) as (s4 & r' & Hp' & Hcase).
  rewrite Hp in Hp'. injection Hp' as <- <-. destruct r; destruct Hcase; auto.
Qed.

(** The while True of start_session ends after at most two rounds when creating
    an environment succeeds with one nobody has used: the session ends up allocated,
    once, to an environment that was available, under the lock of its subtype. *)
Theorem allocate_shared_terminates (session_id subtype : string) (l : list env)
    (w : world S D) (sp : spec) :
  (0 < lock_fuel)%nat ->
  Forall (valid_env session_id) l -> R (st w) sp ->
  (forall d, exists d' e, create_env subtype [] false d = (d', Ok e) ∧ valid_env session_id e ∧
     uses (env_id e) sp = 0 ∧ users (env_id e) sp = ∅) ->
  exists w' e l' sp', allocate_shared dg lock_fuel 2 session_id subtype l w = (w', Ok (e, l')) ∧
    R (st w') sp' ∧ sp' = (spec_step (AllocateContainer (env_id e) session_id) sp).1 ∧
    session_id ∈ users (env_id e) sp' ∧
    available (get_reuse_limit dg subtype) (get_concurrency_limit dg subtype) sp (env_id e).
Proof.
  intros Hf Hv HR Hcreate.
  set (ul := get_reuse_limit dg subtype). set (cl := get_concurrency_limit dg subtype).
  pose proof (fun l1 s1 => locked_pick session_id subtype ul cl l1 s1 sp Hf) as Hround.
  assert (forall c, session_id ∈ users c (spec_step (AllocateContainer c session_id) sp).1) as Hmem
    by (intros c; rewrite users_allocate; set_solver).
  cbn [allocate_shared]. fold ul cl.
  destruct (Hround l (st w) Hv HR) as (s1 & r & Hr & Hcase). destruct r as [e|].
  - destruct Hcase as [Ha HR1]. do 4 eexists.
    split; [erewrite M_bind_run by (unfold on_state; rewrite Hr; reflexivity); reflexivity|].
    simpl. by split_and!.
  - destruct Hcase as [HR1 _].
    destruct (Hcreate (drv w)) as (d1 & e & Hc & Hve & Hu & Hus).
    destruct (Hround (l ++ [e]) s1) as (s2 & r & Hr2 & Hcase);
      [apply Forall_app; split; [done|by apply Forall_singleton]|done|].
    assert (available ul cl sp (env_id e)) as Hav.
    { unfold available. rewrite Hu, Hus, size_empty. lia. }
    destruct r as [e'|].
    2:{ destruct Hcase as [_ Hnone]. destruct (Hnone e); [|done]. apply elem_of_app. right. left. }
    destruct Hcase as [Ha HR2]. do 4 eexists. split.
    { erewrite M_bind_run by (unfold on_state; rewrite Hr; reflexivity). simpl.
      erewrite M_bind_run by (unfold on_driver; simpl; rewrite Hc; reflexivity).
      erewrite M_bind_run by (unfold on_state; simpl; rewrite Hr2; reflexivity). reflexivity. }
    simpl. by split_and!.
Qed.

(** *** The end of a session *)

Lemma for_each_spec {A} (f : A -> M (world S D) unit) (q : A -> request) (l : list A) w sp :
  (forall x w sp, x ∈ l -> R (st w) sp ->
     exists w', f x w = (w', Ok tt) ∧ R (st w') (spec_step (q x) sp).1) ->
  R (st w) sp ->
  exists w', for_each l f w = (w', Ok tt) ∧ R (st w') (spec_run (q <$> l) sp).
Proof.
  revert w sp. induction l as [|x l IH]; intros w sp Hf HR; [by exists w|].
  destruct (Hf x w sp ltac:(left) HR) as (w1 & Hx & HR1). cbn [for_each].
  erewrite M_bind_run by exact Hx. apply IH; [|done].
  intros y w2 sp2 Hy. apply Hf. by right.
Qed.

Lemma stored_ids_data ids exclusives (a : allocated) :
  stored_ids ids (session_data ids exclusives a) = prod_map id env_id <$> a.1.
Proof.
  unfold stored_ids, session_data. simpl. rewrite decide_True by done.
  induction a.1 as [|[t e] l IH]; [done|]. exact (f_equal (cons _) IH).
Qed.

Lemma stored_exclusives_data ids exclusives (a : allocated) :
  ids ≠ exclusives ->
  stored_exclusives exclusives (session_data ids exclusives a) = (fun te => env_id te.2) <$> a.2.
Proof.
  intros Hne. unfold stored_exclusives, session_data. simpl.
  rewrite decide_False, decide_True by done.
  induction a.2 as [|[t e] l IH]; [done|]. exact (f_equal (cons _) IH).
Qed.

Lemma release_all_spec c t l sp :
  (c ∈ l ∨ t ∉ users c sp) ->
  t ∉ users c (spec_run ((fun c => ReleaseContainer c t) <$> l) sp).
Proof.
  revert sp. induction l as [|c' l IH]; intros sp Hin.
  { destruct Hin as [Hin|]; [by apply elem_of_nil in Hin|done]. }
  simpl. apply IH. unfold users. simpl. rewrite lookup_insert.
  destruct (decide (c' = c)) as [->|Hne]; [right; set_solver|].
  destruct Hin as [[->|?]%elem_of_cons|]; [done|by left|by right].
Qed.

Lemma remove_all_spec c t l sp :
  (c ∈ l ∨ t ∉ users c sp) -> t ∉ users c (spec_run (RemoveContainer <$> l) sp).
Proof.
  revert sp. induction l as [|c' l IH]; intros sp Hin.
  { destruct Hin as [Hin|]; [by apply elem_of_nil in Hin|done]. }
  simpl. apply IH. unfold users. simpl. rewrite lookup_delete.
  destruct (decide (c' = c)) as [->|Hne]; [right; set_solver|].
  destruct Hin as [[->|?]%elem_of_cons|]; [done|by left|by right].
Qed.

(** The requests [end_session] amounts to. *)
Definition end_requests (session_id : string) (a : @allocated env) : list request :=
  let exclusive := (fun te => env_id te.2) <$> a.2 in
  ((fun c => ReleaseContainer c session_id) <$>
     (filter (fun kv => kv.2 ∉ exclusive) (prod_map id env_id <$> a.1)).*2) ++
  (RemoveContainer <$> exclusive) ++ [DeleteSession session_id].

(** Releasing the shared containers one by one, each under its lock. *)
Lemma release_shared session_id (l : list (string * string)) (w : world S D) sp :
  (0 < lock_fuel)%nat ->
  Forall (fun kv => valid (ReleaseContainer kv.2 session_id)) l -> R (st w) sp ->
  exists w', for_each l (fun kv => on_state (with_lock lock_fuel (lock_name kv.1)
      (Some session_id) 10 (release_container kv.2 session_id))) w = (w', Ok tt) ∧
    R (st w') (spec_run ((fun kv => ReleaseContainer kv.2 session_id) <$> l) sp).
Proof.
  intros Hf Hv HR. apply for_each_spec; [|done]. intros [t c] w3 sp3 Hin HR3. simpl.
  rewrite Forall_forall in Hv. specialize (Hv _ Hin). simpl in Hv.
  destruct (with_lock_run (lock_name t) (Some session_id) (release_container c session_id)
    (st w3) sp3 Hf HR3) as (s' & s4 & s5 & [] & Hw & HR4 & Hrel & Hkeep).
  { intros s4 HR4. destruct (run_release c session_id s4 sp3 Hv HR4) as (s5 & Hr5 & HR5).
    by exists s5, tt, (spec_step (ReleaseContainer c session_id) sp3).1. }
  eexists. split; [unfold on_state; rewrite Hw; reflexivity|]. simpl. apply Hkeep.
  destruct (run_release c session_id s4 sp3 Hv HR4) as (s6 & Hr6 & HR6).
  rewrite Hrel in Hr6. injection Hr6 as <-. exact HR6.
Qed.

End proofs.

(** *** What no cleaning may touch *)
Section safety.
Context {S D : Type} `{Implements S R (fun _ => True)}.
Context (sp0 : spec) (sound : D -> Prop).

Definition unused (c : string) : Prop := users c sp0 = ∅.

(** The driver is sound, and every container in use in [sp0] has the users and
    uses it had. *)
Definition kept (w : world S D) : Prop :=
  sound (drv w) ∧ exists sp, R (st w) sp ∧
    forall c, ¬ unused c -> users c sp = users c sp0 ∧ uses c sp = uses c sp0.

Lemma keeps_on_driver {A} (Q : A -> Prop) (m : M D A) :
  keeps sound Q m -> keeps kept Q (on_driver m).
Proof.
  intros Hm w [Hi Hs]. destruct (Hm _ Hi) as [Hp Hq]. unfold on_driver.
  by destruct (m (drv w)) as [x r].
Qed.

Lemma keeps_pure {A} (a : A) : keeps kept (fun _ => True) (on_state (mret a)).
Proof. intros [s x] Hw. by split. Qed.

Lemma keeps_is_allocated c :
  keeps kept (fun b => b = false -> unused c) (on_state (container_is_allocated c)).
Proof.
  intros w (Hi & sp & HR & Hsp).
  destruct (perform_spec (ContainerIsAllocated c) (st w) sp I HR) as (s' & Hp & HR').
  simpl in Hp. apply M_bind_ok in Hp as (b & s1 & Hb & Hp). cbv [mret M_ret] in Hp.
  simplify_eq. unfold on_state. rewrite Hb. simpl. split; [by split; [|exists sp]|].
  intros b' [= <-] Hf%bool_decide_eq_false. apply dec_stable. intros Hu.
  apply Hf. rewrite (proj1 (Hsp c Hu)). exact Hu.
Qed.

Lemma keeps_uses c (f : Z -> bool) :
  keeps kept (fun _ => True) (on_state (n ← container_total_uses c; mret (f n))).
Proof.
  intros w (Hi & sp & HR & Hsp).
  destruct (run_total_uses c (st w) sp I HR) as (s' & Hp & HR').
  unfold on_state. erewrite M_bind_run by exact Hp.
  simpl. split; [by split; [|exists sp]|done].
Qed.

Lemma keeps_remove c : unused c -> keeps kept (fun _ => True) (on_state (remove_container c)).
Proof.
  intros Hu w (Hi & sp & HR & Hsp).
  destruct (perform_spec (RemoveContainer c) (st w) sp I HR) as (s' & Hp & HR').
  simpl in Hp. apply M_bind_ok in Hp as (b & s1 & Hb & Hp). cbv [mret M_ret] in Hp.
  simplify_eq. unfold on_state. rewrite Hb. simpl. split; [|done]. split; [done|].
  eexists. split; [exact HR'|]. intros c' Hc. unfold users, uses; simpl.
  rewrite !lookup_delete_ne by (intros ->; done). by apply Hsp.
Qed.
End safety.

(** ** Concrete inputs: the in-memory provider and a driver that counts *)

#[local] Instance demo_driver : Driver nat string := {|
  env_id := id;
  create_env _ _ _ := fun n => (S n, Ok ("c" +:+ pretty n));
  identify_envs l := mret ((fun t => (t, [])) <$> l);
  wait_for_health _ := mret tt;
  env_url e _ := mret ("http://" +:+ e)
|}.

Definition demo_delegation : delegation := {|
  get_name := "task"; get_subtypes := ["web"]; get_service_port _ := NoPort;
  get_concurrency_limit _ := 1; get_reuse_limit _ := 3;
  has_homepage := false; get_homepage_subtype := ""; get_homepage_envs l := l
|}.

Example demo_start :
  (start_session_with demo_delegation (mret "s") id 1 "containers" "exclusive_containers" 2 ["web"] true
     {| st := new_local; drv := 0%nat |}).2 =
  Ok ("s", [("web", "c0")], [("web", "http://c0")]).
Proof. vm_compute. reflexivity. Qed.

Lemma demo_valid (l : list string) : Forall (valid_env (D := nat) (valid := fun _ => True) "s") l.
Proof. apply Forall_true. intros e. repeat split. Qed.

Lemma demo_within : within_limits (fun _ => 3) (fun _ => 1) new_spec.
Proof. intros c. split; vm_compute; intros _; discriminate. Qed.

Lemma pick_respects_limits_witness :
  exists s' r, pick "s" 3 1 ["c0"] new_local = (s', Ok r) ∧ r = Some "c0".
Proof.
  destruct (pick_respects_limits (R := local_rel) (valid := fun _ => True) "s"
    (fun _ => 3) (fun _ => 1) 3 1 ["c0"] new_local new_spec (demo_valid _)
    ltac:(by repeat constructor) local_rel_new demo_within)
    as (s' & r & sp' & H & _).
  exists s', r. split; [exact H|]. vm_compute in H. by injection H as _ <-.
Defined.

Lemma local_lock_ok name client timeout s sp :
  local_rel s sp ->
  (exists s', acquire_lock name client timeout s = (s', Ok true) ∧ local_rel s' sp) ∧
  (exists s', release_lock name client s = (s', Ok tt) ∧ local_rel s' sp).
Proof. intros HR. split; by exists s. Qed.

Lemma allocate_shared_terminates_witness :
  exists w' e l', allocate_shared demo_delegation 1 2 "s" "web" []
    {| st := new_local; drv := 0%nat |} = (w', Ok (e, l')).
Proof.
  destruct (allocate_shared_terminates (R := local_rel) (valid := fun _ => True)
    demo_delegation 1 local_lock_ok "s" "web" []
    {| st := new_local; drv := 0%nat |} new_spec ltac:(lia) (demo_valid []) local_rel_new)
    as (w' & e & l' & sp' & H & _).
  - intros d. do 2 eexists. split; [reflexivity|]. repeat split.
  - exists w', e, l'. exact H.
Defined.

Definition demo_allocated : @allocated string := ([("web", "c0")], []).
Definition demo_opening : list request :=
  [AllocateContainer "c0" "s";
   StoreSession "s" (session_data "containers" "exclusive_containers" demo_allocated)].

