(* ===== verification/Docker.v ===== *)
(** * The Docker environment controller

    Models worker/environment/docker.py over the Docker API given by its
    operations: the retried calls, creation, deletion, health, cleaning and
    URLs; sessions are those of [Allocation]. *)

From S2P Require Import Prelude PyVal State Allocation.

(** ** Labels and the API *)

(* worker/environment/_const.py:3-8 LABEL_MANAGED_BY *)
Definition LABEL_MANAGED_BY : string := "agentrl.managed-by".
Definition LABEL_MANAGED_BY_VALUE : string := "agentrl".
Definition LABEL_TASK_NAME : string := "agentrl.task-name".
Definition LABEL_SUBTYPE_NAME : string := "agentrl.subtype-name".
Definition LABEL_DEPENDS_ON : string := "agentrl.depends-on".
Definition LABEL_EXCLUSIVE : string := "agentrl.exclusive".

(** A container as the API shows it: its labels, the IP address in each network,
    the entries of [Config.Env]. *)
Record container := {
  c_id : string;
  c_labels : list (string * string);
  c_networks : list (string * string);
  c_env : list string
}.

(** The calls of [aiodocker]; they raise [DockerError], [ClientError] or
    [TimeoutError]. *)
Class DockerApi (d : Type) := {
  api_list : val -> M d (list container);
  api_show : string -> M d container;
  api_create : val -> string -> M d container;
  api_start : string -> M d unit;
  api_delete : string -> M d unit;
  api_pull : string -> M d unit
}.

(* worker/environment/docker.py:45-70 DockerEnvironmentController.__init__ *)
Record docker (d : Type) := {
  daemon : d;
  client_open : bool;
  shells : gset string;
  uuids : nat
}.
Arguments daemon {d}. Arguments client_open {d}. Arguments shells {d}. Arguments uuids {d}.

Section docker.
Context {d : Type} `{DockerApi d}.
Context (dg : delegation) (network_name : string).
(** [delegation.create_docker_container], [get_container_images], [uuid4().hex[:8]] *)
Context (create_docker_container : val -> string -> res val)
        (get_container_images : string -> option string)
        (uuid_hex : nat -> string).

Abbreviation docker := (docker d).

Definition set_daemon (x : d) (s : docker) : docker :=
  {| daemon := x; client_open := client_open s; shells := shells s; uuids := uuids s |}.
Definition on_daemon {A} (m : M d A) : M docker A := fun s =>
  let '(x, r) := m (daemon s) in (set_daemon x s, r).

(* worker/environment/docker.py:72-78 DockerEnvironmentController._get_client *)
Definition get_client : M docker unit :=
  modify (fun s => {| daemon := daemon s; client_open := true; shells := shells s; uuids := uuids s |}).
(* worker/environment/docker.py:80-92 DockerEnvironmentController._reset_client *)
Definition reset_client : M docker unit :=
  modify (fun s => {| daemon := daemon s; client_open := false; shells := ∅; uuids := uuids s |}).

(* worker/environment/docker.py:70-70 DockerEnvironmentController.__init__ *)
Definition retryable_docker_statuses : list Z := [500; 502; 503; 504; 900].

(** [left] attempts are left, this one included. *)
(* worker/environment/docker.py:100-121 DockerEnvironmentController._docker_call *)
Fixpoint call_loop {A} (left : nat) (operation : M d A) : M docker A :=
  match left with
  | O => raise RecursionLimit
  | S left' =>
      get_client;;
      try_except (on_daemon operation)
        (fun e => match e with
                  | DockerError status =>
                      if bool_decide (status ∈ retryable_docker_statuses) && bool_decide (left' ≠ 0%nat)
                      then Some (reset_client;; call_loop left' operation) else None
                  | ClientError | TimeoutError =>
                      if bool_decide (left' ≠ 0%nat)
                      then Some (reset_client;; call_loop left' operation) else None
                  | _ => None
                  end)
  end.
(* worker/environment/docker.py:94-121 DockerEnvironmentController._docker_call *)
Definition docker_call {A} (retry : bool) (operation : M d A) : M docker A :=
  call_loop (if retry then 2 else 1) operation.

(* worker/environment/docker.py:123-130 DockerEnvironmentController._load_container *)
Definition load_container (id : string) : M docker container := docker_call true (api_show id).

(** *** Listing *)

Definition label (k v : string) : val := VStr (k +:+ "=" +:+ v).
Definition filters (labels : list val) (rest : list (string * val)) : val :=
  VDict ([("label", VList labels)] ++ rest ++ [("network", VList [VStr network_name])]).
Definition managed : list val :=
  [label LABEL_MANAGED_BY LABEL_MANAGED_BY_VALUE; label LABEL_TASK_NAME (get_name dg)].

(* worker/environment/docker.py:344-361 DockerEnvironmentController._identify_containers *)
Definition identify_containers (subtypes : list string)
    : M docker (list (string * list container)) :=
  map_m (fun subtype =>
    l ← docker_call true (api_list (filters
          (managed ++ [label LABEL_SUBTYPE_NAME subtype; label LABEL_EXCLUSIVE "false"])
          [("status", VList [VStr "running"]);
           ("health", VList [VStr "starting"; VStr "healthy"; VStr "none"])]));
    mret (subtype, l))
    (match subtypes with [] => get_subtypes dg | _ => subtypes end).

(** [fuel] bounds the polls. *)
(* worker/environment/docker.py:363-388 DockerEnvironmentController._wait_for_health *)
Fixpoint wait_for_containers (fuel : nat) (ids : list string) : M docker unit :=
  match fuel with
  | O => raise RecursionLimit
  | S fuel =>
      not_started ← docker_call true (api_list (VDict
        [("id", VList (VStr <$> ids)); ("status", VList [VStr "created"]);
         ("network", VList [VStr network_name])]));
      match not_started with
      | _ :: _ => wait_for_containers fuel ids
      | [] =>
          unhealthy ← docker_call true (api_list (VDict
            [("id", VList (VStr <$> ids)); ("health", VList [VStr "starting"; VStr "unhealthy"]);
             ("network", VList [VStr network_name])]));
          match unhealthy with
          | [] => mret tt
          | _ => wait_for_containers fuel ids
          end
      end
  end.

(** *** Creation *)

Definition fresh_name (subtype : string) : M docker string :=
  n ← gets uuids;
  modify (fun s => {| daemon := daemon s; client_open := client_open s; shells := shells s;
                      uuids := S n |});;
  mret (lower (replace_char "_" "-" subtype) +:+ "-" +:+ uuid_hex n).

(* worker/environment/docker.py:401-415 DockerEnvironmentController.create_container *)
Definition base_attrs (name subtype : string) (exclusive : bool) : val :=
  VDict [("Name", VStr name); ("Env", VDict []);
         ("Labels", VDict
            [(LABEL_MANAGED_BY, VStr LABEL_MANAGED_BY_VALUE); (LABEL_TASK_NAME, VStr (get_name dg));
             (LABEL_SUBTYPE_NAME, VStr subtype);
             (LABEL_EXCLUSIVE, VStr (lower (str_bool exclusive)))]);
         ("HostConfig", VDict
            [("AutoRemove", VBool true); ("Init", VBool true); ("NetworkMode", VStr network_name)])].

(** An entry of the environment, [f'{k}={v}']. *)
(* worker/environment/docker.py:427-430 DockerEnvironmentController.create_container *)
Definition env_entry (kv : string * string) : string := kv.1 +:+ "=" +:+ kv.2.

Definition env_of (v : option val) : res (list (string * string)) :=
  match v with
  | Some (VDict d) =>
      Ok (omap (fun kv => match kv.2 with VStr s => Some (kv.1, s) | _ => None end) d)
  | Some _ => Raise TypeError
  | None => Raise KeyError
  end.

(** What is sent to the API: the attributes of the delegation with an image, the
    extra environment variables and the list of entries. *)
(* worker/environment/docker.py:417-433 DockerEnvironmentController.create_container *)
Definition final_attrs (attrs : val) (subtype : string) (extra_envs : list (string * string))
    : res (list (string * val)) :=
  match attrs with
  | VDict d =>
      d ← (if dmem "Image" d then Ok d
           else match get_container_images subtype with
                | Some image => Ok (dset "Image" (VStr image) d)
                | None => Raise KeyError
                end);
      env ← env_of (dget "Env" d);
      Ok (dset "Env" (VList ((fun kv => VStr (env_entry kv)) <$> dupdate env extra_envs)) d)
  | _ => Raise TypeError
  end.

(* worker/environment/docker.py:390-468 DockerEnvironmentController.create_container *)
Definition create_container (subtype : string) (extra_envs : list (string * string))
    (exclusive : bool) : M docker container :=
  name ← fresh_name subtype;
  attrs ← lift_res (create_docker_container (base_attrs name subtype exclusive) subtype);
  attrs ← lift_res (final_attrs attrs subtype extra_envs);
  let name := match dget "Name" attrs with Some (VStr n) => n | _ => name end in
  let attrs := ddel "Name" attrs in
  let create := docker_call false (api_create (VDict attrs) name) in
  c ← try_except create
        (fun e => match e with
                  | DockerError 404 =>
                      let image := match dget "Image" attrs with Some (VStr i) => i | _ => "" end in
                      Some (try_except (docker_call true (api_pull image))
                              (fun e' => match e' with
                                         | TimeoutError => Some (raise e)
                                         | _ => None
                                         end);;
                            create)
                  | _ => None
                  end);
  on_daemon (api_start (c_id c));;
  on_daemon (api_show (c_id c)).

(** *** URLs and variables *)

(** [f'{port}'] of a port or of a list of ports. *)
Definition str_port (p : service_port) : string :=
  match p with
  | NoPort => "None"
  | OnePort n => str_Z n
  | Ports l => "[" +:+ join ", " (str_Z <$> l) +:+ "]"
  end.

(* worker/environment/docker.py:577-595 DockerEnvironmentController.get_container_url *)
Definition container_url (c : container) (subtype : string) : res string :=
  match dget network_name (c_networks c) with
  | None => Raise KeyError
  | Some ip =>
      match get_service_port dg subtype with
      | NoPort | OnePort 0 | Ports [] => Ok ip
      | OnePort 80 => Ok ("http://" +:+ ip)
      | p => Ok ("http://" +:+ ip +:+ ":" +:+ str_port p)
      end
  end.

(** The URL of a container given by its id, which is loaded first. *)
(* worker/environment/docker.py:586-587 DockerEnvironmentController.get_container_url *)
Definition url_of_id (id subtype : string) : M docker string :=
  c ← load_container id; lift_res (container_url c subtype).

(* worker/environment/docker.py:324-329 DockerEnvironmentController.get_env_variables *)
Fixpoint parse_env (l : list string) (acc : list (string * string)) : res (list (string * string)) :=
  match l with
  | [] => Ok acc
  | e :: l => match split_first "=" e with
              | Some (k, v) => parse_env l (dset k v acc)
              | None => Raise ValueError
              end
  end.

(* worker/environment/docker.py:316-329 DockerEnvironmentController.get_env_variables *)
Definition get_env_variables (id : string) : M docker (list (string * string)) :=
  c ← load_container id; lift_res (parse_env (c_env c) []).

(** *** The driver of the allocation *)

#[export] Instance docker_driver (health_fuel : nat) : Driver docker container := {|
  env_id := c_id;
  create_env := create_container;
  identify_envs := identify_containers;
  wait_for_health l := wait_for_containers health_fuel (c_id <$> l);
  env_url c subtype := lift_res (container_url c subtype)
|}.

(** *** Deletion and cleaning *)

Section with_state.
Context {S : Type} `{StateProvider S}.

Abbreviation world := (world S docker).

(** The containers a label names, without blanks and empty names. *)
(* worker/environment/docker.py:508-512 DockerEnvironmentController.delete_container *)
Definition dependencies (labels : list (string * string)) : list string :=
  match dget LABEL_DEPENDS_ON labels with
  | None => []
  | Some s => filter (fun n => n ≠ "") (strip <$> split_on "," s)
  end.

Definition pop_shell (id : string) : M docker unit :=
  modify (fun s => {| daemon := daemon s; client_open := client_open s;
                      shells := shells s ∖ {[id]}; uuids := uuids s |}).

(** A container given by its id is loaded, and deleted without labels when it
    cannot be; [fuel] bounds the depth of the dependencies. *)
(* worker/environment/docker.py:481-527 DockerEnvironmentController.delete_container *)
Fixpoint delete_container (fuel : nat) (c : container + string) : M world unit :=
  match fuel with
  | O => raise RecursionLimit
  | Datatypes.S fuel =>
      obj ← match c with
            | inl c => mret (Some c)
            | inr id => on_driver (try_except (c ← load_container id; mret (Some c))
                          (fun e => match e with DockerError _ => Some (mret None) | _ => None end))
            end;
      let id := match obj, c with
                | Some c, _ => c_id c
                | None, inr id => id
                | None, inl c => c_id c
                end in
      on_driver (pop_shell id);;
      for_each (match obj with Some c => dependencies (c_labels c) | None => [] end)
        (fun dep => delete_container fuel (inr dep));;
      on_driver (try_except (docker_call false (api_delete id))
        (fun e => match e with DockerError _ | ClientError => Some (mret tt) | _ => None end));;
      on_state (remove_container id)
  end.

(** [for container in containers: if allocated: continue; ...; delete] *)
Definition clean_list (fuel : nat) (keep : container -> M S bool) (l : list container)
    : M world unit :=
  for_each l (fun c =>
    allocated ← on_state (container_is_allocated (c_id c));
    if (allocated : bool) then mret tt
    else k ← on_state (keep c);
         if (k : bool) then mret tt else delete_container fuel (inl c)).

(* worker/environment/docker.py:529-575 DockerEnvironmentController._clean_containers *)
Definition clean_containers (fuel : nat) : M world unit :=
  exclusive ← on_driver (docker_call true (api_list (filters
    (managed ++ [label LABEL_EXCLUSIVE "true"]) [])));
  clean_list fuel (fun _ => mret false) exclusive;;
  unhealthy ← on_driver (docker_call true (api_list (filters
    (managed ++ [label LABEL_EXCLUSIVE "false"]) [("health", VList [VStr "unhealthy"])])));
  clean_list fuel (fun _ => mret false) unhealthy;;
  by_subtype ← on_driver (identify_containers []);
  for_each by_subtype (fun sl =>
    let usage_limit := get_reuse_limit dg sl.1 in
    if bool_decide (usage_limit = 0) then mret tt
    else clean_list fuel
           (fun c => n ← container_total_uses (c_id c); mret (bool_decide (n < usage_limit))) sl.2).

(** One turn of the background task. *)
(* worker/environment/docker.py:331-342 DockerEnvironmentController.background_task *)
Definition background_turn (fuel : nat) : M world unit :=
  let log_exceptions := fun e : exn => if is_Exception e then Some (mret tt) else None in
  try_except
    (got ← on_state (acquire_lock "background" None 120);
     if (got : bool) then
       try_except (clean_containers fuel) log_exceptions;;
       on_state (release_lock "background" None)
     else mret tt) log_exceptions.

(* worker/environment/docker.py:132-219 DockerEnvironmentController.start_session *)
Definition start_session (generate_session_id : M S string)
    (shuffle : list container -> list container) (lock_fuel health_fuel fuel : nat)
    (subtypes : list string) (immutable : bool)
    : M world (string * list (string * string) * list (string * string)) :=
  start_session_with (H0 := docker_driver health_fuel) dg generate_session_id shuffle lock_fuel
    "containers" "exclusive_containers" fuel subtypes immutable.

(* worker/environment/docker.py:221-226 DockerEnvironmentController.renew_session *)
Definition renew_session (session_id : string) : M world unit :=
  renew_session_with "containers" session_id.

(* worker/environment/docker.py:228-248 DockerEnvironmentController.end_session *)
Definition end_session (lock_fuel fuel : nat) (session_id : string) : M world unit :=
  end_session_with lock_fuel "containers" "exclusive_containers"
    (fun c => delete_container fuel (inr c)) session_id.
End with_state.
End docker.

(** ** Proofs *)

Section call_proofs.
Context {d : Type} `{DockerApi d}.

(** The failures [_docker_call] answers with a new client. *)
Definition transient (e : exn) : bool :=
  match e with
  | DockerError status => bool_decide (status ∈ retryable_docker_statuses)
  | ClientError | TimeoutError => true
  | _ => false
  end.

Definition connected (open : bool) (sh : gset string) (x : d) (s : docker d) : docker d :=
  {| daemon := x; client_open := open; shells := sh; uuids := uuids s |}.

Lemma call_once {A} (op : M d A) (s : docker d) :
  call_loop 1 op s =
    let '(x, r) := op (daemon s) in (connected true (shells s) x s, r).
Proof.
  cbn [call_loop]. unfold get_client. rewrite bind_modify. unfold try_except, on_daemon.
  simpl. destruct (op (daemon s)) as [x [a|e]]; [done|].
  destruct e; try done. unfold set_daemon; simpl. by rewrite andb_false_r.
Qed.

(** A Docker call runs the operation once; a transport error or a status among
    500, 502, 503, 504 and 900 makes it run once more, on a new client with the
    shells forgotten, and that second outcome is final; any other exception is
    raised at once, and so is every one when retrying is off. *)
Theorem docker_call_correct {A} (retry : bool) (op : M d A) (s : docker d) :
  docker_call retry op s =
    match op (daemon s) with
    | (x, Raise e) =>
        if retry && transient e
        then let '(x', r) := op x in (connected true ∅ x' s, r)
        else (connected true (shells s) x s, Raise e)
    | (x, Ok a) => (connected true (shells s) x s, Ok a)
    end.
Proof.
  unfold docker_call. destruct retry.
  2:{ rewrite call_once. by destruct (op (daemon s)) as [x [a|e]]. }
  change (call_loop 2 op) with
    (get_client;; try_except (on_daemon op) (fun e => match e with
       | DockerError status =>
           if bool_decide (status ∈ retryable_docker_statuses) && bool_decide (1%nat ≠ 0%nat)
           then Some (reset_client;; call_loop 1 op) else None
       | ClientError | TimeoutError =>
           if bool_decide (1%nat ≠ 0%nat) then Some (reset_client;; call_loop 1 op) else None
       | _ => None
       end)).
  unfold get_client. rewrite bind_modify. unfold try_except, on_daemon at 1; simpl.
  destruct (op (daemon s)) as [x [a|e]]; [done|]. simpl.
  assert (forall s', (reset_client;; call_loop 1 op) s' =
    let '(x', r) := op (daemon s') in (connected true ∅ x' s', r)) as Hr.
  { intros s'. unfold reset_client. rewrite bind_modify, call_once. done. }
  destruct e; try done;
    [|exact (Hr _)|exact (Hr _)].
  change (bool_decide (1%nat ≠ 0%nat)) with true. rewrite andb_true_r. unfold transient.
  destruct (bool_decide (status ∈ retryable_docker_statuses)); [exact (Hr _)|done].
Qed.

End call_proofs.

(** *** Cleaning never touches a container in use *)

Section clean_proofs.
Context {S d : Type} `{Implements S R (fun _ => True)} `{DockerApi d}.
Context (dg : delegation) (network_name : string).
Context (sp0 : spec) (Inv : d -> Prop).

Definition deps_unused (c : container) : Prop :=
  forall dep, dep ∈ dependencies (c_labels c) -> unused sp0 dep.

(** The API keeps [Inv] when it reads and when it deletes an unused container;
    the containers it shows depend on unused containers only. *)
Hypothesis Hlist : forall f, keeps Inv (Forall deps_unused) (api_list f).
Hypothesis Hshow : forall id, keeps Inv (fun c => deps_unused c ∧ c_id c = id) (api_show id).
Hypothesis Hdelete : forall id, unused sp0 id -> keeps Inv (fun _ => True) (api_delete id).

Abbreviation world := (world S (docker d)).

Definition sound (x : docker d) : Prop := Inv (daemon x).
Abbreviation kept := (kept (R := R) sp0 sound).

Lemma keeps_call {A} (Q : A -> Prop) retry (op : M d A) :
  keeps Inv Q op -> keeps sound Q (docker_call retry op).
Proof.
  intros Hop s Hi. rewrite docker_call_correct. unfold sound in *.
  destruct (Hop _ Hi) as [Hp Hq]. destruct (op (daemon s)) as [x [a|e]]; simpl in *; [by eauto|].
  destruct (retry && transient e); [|done].
  destruct (Hop _ Hp) as [Hp2 Hq2]. by destruct (op x) as [x' r].
Qed.

Lemma keeps_load id :
  keeps kept (fun o => from_option (fun c => deps_unused c ∧ c_id c = id) True o)
    (on_driver (try_except (c ← load_container id; mret (Some c))
       (fun e => match e with DockerError _ => Some (mret None) | _ => None end))).
Proof.
  apply keeps_on_driver, keeps_try.
  - eapply keeps_bind; [apply keeps_call, Hshow|]. intros c Hc. by apply keeps_ret.
  - intros e k He. destruct e; simplify_eq. by apply keeps_ret.
Qed.

Lemma keeps_api_delete id :
  unused sp0 id ->
  keeps kept (fun _ => True) (on_driver (try_except (docker_call false (api_delete id))
    (fun e => match e with DockerError _ | ClientError => Some (mret tt) | _ => None end))).
Proof.
  intros Hu. apply keeps_on_driver, keeps_try.
  - by apply keeps_call, Hdelete.
  - intros e k He. destruct e; simplify_eq; by apply keeps_ret.
Qed.

Lemma keeps_delete fuel c :
  match c with inl c => deps_unused c ∧ unused sp0 (c_id c) | inr id => unused sp0 id end ->
  keeps kept (fun _ => True) (delete_container fuel c).
Proof.
  revert c. induction fuel as [|fuel IH]; intros c Hc; [by apply keeps_raise|].
  cbn [delete_container].
  eapply (keeps_bind _ (fun obj => from_option (fun c' => deps_unused c' ∧ unused sp0 (c_id c')) 
     (match c with inl _ => False | inr _ => True end) obj)).
  { destruct c as [c|id]; [by apply keeps_ret|].
    eapply keeps_weaken; [apply keeps_load|]. intros [c|]; [|done]. intros [Hd He]. simpl. by rewrite He. }
  intros obj Hobj.
  assert (unused sp0 (match obj, c with Some c, _ => c_id c | None, inr id => id | None, inl c => c_id c end))
    as Hid by (destruct obj as [c'|], c as [c|i]; simpl in *; naive_solver).
  eapply (keeps_bind _ (fun _ => True)); [by apply keeps_on_driver, keeps_modify|]. intros _ _.
  eapply keeps_bind; [|intros _ _; eapply keeps_bind;
    [by apply keeps_api_delete|intros _ _; by apply keeps_remove]].
  apply keeps_for_each. intros dep Hdep. apply IH.
  destruct obj as [c'|]; [by apply Hobj|by apply elem_of_nil in Hdep].
Qed.

Lemma keeps_clean_list fuel keep l :
  Forall deps_unused l ->
  (forall c, keeps kept (fun _ => True) (on_state (keep c))) ->
  keeps kept (fun _ => True) (clean_list fuel keep l).
Proof.
  intros Hl Hk. apply keeps_for_each. intros c Hc.
  eapply keeps_bind; [apply keeps_is_allocated|]. intros [] Ha; [by apply keeps_ret|].
  eapply keeps_bind; [apply Hk|]. intros [] _; [by apply keeps_ret|].
  apply keeps_delete. rewrite Forall_forall in Hl. auto.
Qed.

Lemma keeps_list f : keeps kept (Forall deps_unused) (on_driver (docker_call true (api_list f))).
Proof. apply keeps_on_driver, keeps_call, Hlist. Qed.

Lemma keeps_identify l :
  keeps kept (Forall (fun sl : string * list container => Forall deps_unused sl.2))
    (on_driver (identify_containers dg network_name l)).
Proof.
  apply keeps_on_driver, keeps_map_m. intros t _.
  eapply keeps_bind; [apply keeps_call, Hlist|]. intros l' Hl'. by apply keeps_ret.
Qed.

(** C15: one round of cleaning, however it ends, neither deletes from the Docker
    daemon nor from the shared state a container that is in use: the users and the
    use count of every such container stay, and every invariant of the daemon that
    deletions of unused containers keep is kept, as long as nothing depends on a
    container in use. *)
Theorem clean_containers_safe (fuel : nat) (w : world) :
  R (st w) sp0 -> Inv (daemon (drv w)) ->
  let w' := (clean_containers dg network_name fuel w).1 in
  Inv (daemon (drv w')) ∧ exists sp, R (st w') sp ∧
    forall c, users c sp0 ≠ ∅ -> users c sp = users c sp0 ∧ uses c sp = uses c sp0.
Proof.
  intros HR HI. change (kept (clean_containers dg network_name fuel w).1).
  enough (keeps kept (fun _ => True) (clean_containers dg network_name fuel)) as Hk
    by (apply Hk; split; eauto).
  eapply keeps_bind; [apply keeps_list|]. intros l Hl.
  eapply keeps_bind; [by apply keeps_clean_list; [|intros _; apply keeps_pure]|]. intros _ _.
  eapply keeps_bind; [apply keeps_list|]. intros l2 Hl2.
  eapply keeps_bind; [by apply keeps_clean_list; [|intros _; apply keeps_pure]|]. intros _ _.
  eapply keeps_bind; [apply keeps_identify|]. intros bs Hbs. rewrite Forall_forall in Hbs.
  apply keeps_for_each. intros sl Hsl. cbv zeta. case_bool_decide; [by apply keeps_ret|].
  apply keeps_clean_list; [by apply Hbs|]. intros c.
  apply keeps_uses.
Qed.
End clean_proofs.

(** *** Environment variables *)

(** The variables [create_container] sends, read back by [get_env_variables]. *)
Definition wire_env (attrs : list (string * val)) : list string :=
  match dget "Env" attrs with
  | Some (VList l) => omap (fun v => match v with VStr s => Some s | _ => None end) l
  | _ => []
  end.

Lemma split_first_entry k v :
  no_char "=" k -> split_first "=" (k +:+ "=" +:+ v) = Some (k, v).
Proof.
  induction k as [|c k IH]; intros Hk; [done|]. unfold no_char in Hk.
  change (chars (String c k)) with (c :: chars k) in Hk.
  apply not_elem_of_cons in Hk as [Hc Hk].
  change (String c k +:+ "=" +:+ v) with (String c (k +:+ "=" +:+ v)). cbn [split_first].
  rewrite bool_decide_eq_false_2 by congruence. by rewrite IH.
Qed.

Lemma dset_fresh {V} (k : string) (v : V) d : k ∉ dkeys d -> dset k v d = d ++ [(k, v)].
Proof.
  induction d as [|[k' v'] d IH]; intros Hk; [done|]. simpl.
  apply not_elem_of_cons in Hk as [Hk1 Hk2]. rewrite decide_False by done. by rewrite IH.
Qed.

Lemma parse_env_entries env acc :
  Forall (fun kv => no_char "=" kv.1) env -> NoDup (dkeys (acc ++ env)) ->
  parse_env (env_entry <$> env) acc = Ok (acc ++ env).
Proof.
  revert acc. induction env as [|[k v] env IH]; intros acc Hk Hnd; [by rewrite app_nil_r|].
  apply Forall_cons in Hk as [Hk1 Hk]. cbn [fmap list_fmap parse_env].
  unfold env_entry at 1. cbn [fst snd]. rewrite split_first_entry by done.
  assert (k ∉ dkeys acc) as Hf.
  { unfold dkeys in *. rewrite fmap_app in Hnd. apply NoDup_app in Hnd as (_ & Hd & _).
    intros Hin. apply (Hd k Hin). left. }
  rewrite dset_fresh by done. change (list_fmap _ _ env_entry env) with (env_entry <$> env).
  rewrite IH; rewrite <- ?(assoc_L (++)); done.
Qed.

Lemma dupdate_wf {V} (d e : list (string * V)) : dict_wf d -> dict_wf (dupdate d e).
Proof. revert d. unfold dupdate. induction e; simpl; auto with agentrl. Qed.

Lemma dkeys_dupdate {V} (k : string) (d e : list (string * V)) :
  k ∈ dkeys (dupdate d e) -> k ∈ dkeys d ∨ k ∈ dkeys e.
Proof.
  revert d. unfold dupdate. induction e as [|[k' v'] e IH]; simpl; intros d Hk; [by left|].
  destruct (IH _ Hk) as [Hk'|Hk']; [|by right; right].
  rewrite dkeys_dset in Hk'. case_decide; [by left|].
  apply elem_of_app in Hk' as [?|Hx]; [by left|]. apply list_elem_of_singleton in Hx as ->.
  by right; left.
Qed.

Lemma env_of_dict env : env_of (Some (VDict (prod_map id VStr <$> env))) = Ok env.
Proof.
  simpl. f_equal. induction env as [|[k v] env IH]; [done|]. exact (f_equal (cons (k, v)) IH).
Qed.

(** The environment a container is created with is read back by
    get_env_variables: the delegation's variables updated with the extra ones,
    values with '=' included, and no attribute but Env and Image changes. *)
Theorem env_roundtrip (images : string -> option string) (attrs : list (string * val))
    (env envs : list (string * string)) (subtype : string) (out : list (string * val)) :
  final_attrs images (VDict attrs) subtype envs = Ok out ->
  dget "Env" attrs = Some (VDict (prod_map id VStr <$> env)) ->
  dict_wf env -> Forall (no_char "=") (dkeys env) -> Forall (no_char "=") (dkeys envs) ->
  parse_env (wire_env out) [] = Ok (dupdate env envs) ∧
  forall k, k ≠ "Env" -> k ≠ "Image" -> dget k out = dget k attrs.
Proof.
  intros Hout Henv Hwf Hk1 Hk2. unfold final_attrs in Hout.
  assert (exists a, (if dmem "Image" attrs then Ok attrs
    else match images subtype with Some image => Ok (dset "Image" (VStr image) attrs)
         | None => Raise KeyError end) = Ok a ∧ dget "Env" a = dget "Env" attrs ∧
    forall k, k ≠ "Image" -> dget k a = dget k attrs) as (a & Ha & Hae & Hother).
  { destruct (dmem "Image" attrs); [by eexists|].
    destruct (images subtype) as [i|]; [|done]. eexists. split_and!; [done| |].
    - by rewrite dget_dset_ne.
    - intros k Hk. by rewrite dget_dset_ne. }
  rewrite Ha in Hout. unfold mbind, res_bind in Hout.
  rewrite Hae, Henv, env_of_dict in Hout. injection Hout as <-. split.
  - unfold wire_env. rewrite dget_dset_eq.
    assert (forall l : list (string * string),
      omap (fun v => match v with VStr s => Some s | _ => None end)
        ((fun kv => VStr (env_entry kv)) <$> l) = env_entry <$> l) as ->.
    { intros l. induction l as [|kv l IH]; [done|]. exact (f_equal (cons _) IH). }
    rewrite parse_env_entries; [done| |by apply (dupdate_wf env envs)].
    rewrite Forall_forall. intros kv Hin.
    assert (kv.1 ∈ dkeys (dupdate env envs)) as Hin' by (by apply list_elem_of_fmap_2).
    rewrite Forall_forall in Hk1, Hk2. apply dkeys_dupdate in Hin' as [?|?]; auto.
  - intros k He Hi. rewrite dget_dset_ne by done. auto.
Qed.

(** *** URLs *)

(** A list of ports ends up in the URL as it prints. *)
Theorem url_of_port_list (dg : delegation) (network : string) (c : container)
    (subtype ip : string) (p q : Z) (l : list Z) :
  get_service_port dg subtype = Ports (p :: q :: l) ->
  dget network (c_networks c) = Some ip ->
  container_url dg network c subtype =
    Ok ("http://" +:+ ip +:+ ":[" +:+ join ", " (str_Z <$> (p :: q :: l)) +:+ "]").
Proof. intros Hp Hip. unfold container_url. rewrite Hip, Hp. done. Qed.

(** ** Concrete inputs *)

(** A daemon that lists every container it has. *)
#[local] Instance demo_api : DockerApi (list container) := {|
  api_list _ := fun x => (x, Ok x);
  api_show id := fun x => (x, match list_find (fun c => c_id c = id) x with
                              | Some (_, c) => Ok c
                              | None => Raise (DockerError 404)
                              end);
  api_create _ name := fun x =>
    let c := {| c_id := name; c_labels := []; c_networks := []; c_env := [] |} in (x ++ [c], Ok c);
  api_start _ := mret tt;
  api_delete id := fun x => (filter (fun c => c_id c ≠ id) x, Ok tt);
  api_pull _ := mret tt
|}.

Definition demo_container (id : string) : container :=
  {| c_id := id; c_labels := []; c_networks := []; c_env := [] |}.
Definition demo_docker : docker (list container) :=
  {| daemon := demo_container <$> ["c1"; "c2"]; client_open := false; shells := ∅; uuids := 0 |}.
Definition demo_used : list request := [AllocateContainer "c1" "s"].

(** An unused container is deleted, one in use is not. *)
Example demo_clean :
  (daemon (drv (clean_containers demo_delegation "net" 3
     {| st := final demo_used new_local; drv := demo_docker |}).1)) = [demo_container "c1"].
Proof. vm_compute. reflexivity. Qed.

Definition demo_inv (x : list container) : Prop :=
  Forall (fun c => c_labels c = []) x ∧ "c1" ∈ c_id <$> x.

Lemma demo_deps sp c : c_labels c = [] -> deps_unused sp c.
Proof. intros Hc dep Hd. rewrite Hc in Hd. by apply elem_of_nil in Hd. Qed.

Lemma demo_list sp f : keeps demo_inv (Forall (deps_unused sp)) (api_list f).
Proof.
  intros x [Hx Hi]. split; [done|]. intros a [= <-]. eapply Forall_impl; [exact Hx|].
  intros c. apply demo_deps.
Qed.

Lemma demo_show sp id :
  keeps demo_inv (fun c => deps_unused sp c ∧ c_id c = id) (api_show id).
Proof.
  intros x [Hx Hi]. split; [done|]. simpl. intros c Hc.
  destruct (list_find _ x) as [[i c']|] eqn:E; simplify_eq.
  apply list_find_Some in E as (Hl & He & _). split; [|done]. apply demo_deps.
  rewrite Forall_lookup in Hx. eauto.
Qed.

Lemma demo_delete id :
  unused (spec_run demo_used new_spec) id -> keeps demo_inv (fun _ => True) (api_delete id).
Proof.
  intros Hu x [Hx Hi]. split; [|done]. simpl. split.
  - rewrite Forall_forall in *. intros c [_ Hc]%list_elem_of_filter. auto.
  - apply list_elem_of_fmap in Hi as (c & Hc & Hin). apply list_elem_of_fmap. exists c. split; [done|].
    apply list_elem_of_filter. split; [|done]. intros Heq. rewrite <- Hc in Heq. subst id.
    exact (bool_decide_eq_true_1 _ (eq_refl : bool_decide (users "c1" (spec_run demo_used new_spec) ≠ ∅) = true) Hu).
Qed.

Lemma clean_containers_safe_witness :
  "c1" ∈ c_id <$> daemon (drv (clean_containers demo_delegation "net" 3
     {| st := final demo_used new_local; drv := demo_docker |}).1).
Proof.
  apply (clean_containers_safe (R := local_rel) demo_delegation "net"
    (spec_run demo_used new_spec) demo_inv (demo_list _) (demo_show _) demo_delete 3
    {| st := final demo_used new_local; drv := demo_docker |}).
  - apply (implements_final (R := local_rel) (valid := fun _ => True));
      [by repeat constructor|apply local_rel_new].
  - split; [by repeat constructor|]. left.
Defined.

Lemma no_char_single (c a : ascii) : c ≠ a -> no_char c (String a "").
Proof. intros Hne. by apply not_elem_of_cons; split; [|apply not_elem_of_nil]. Qed.

Lemma env_roundtrip_witness :
  parse_env ["A=1"; "B=x=y"] [] = Ok [("A", "1"); ("B", "x=y")].
Proof.
  exact (proj1 (env_roundtrip (fun _ => Some "img")
    [("Env", VDict [("A", VStr "1")])] [("A", "1")] [("B", "x=y")] "web"
    [("Env", VList [VStr "A=1"; VStr "B=x=y"]); ("Image", VStr "img")] eq_refl eq_refl
    ltac:(apply NoDup_singleton)
    ltac:(apply Forall_singleton, no_char_single; discriminate)
    ltac:(apply Forall_singleton, no_char_single; discriminate))).
Defined.
