(* ===== verification/K8s.v ===== *)
(** * The Kubernetes environment controller

    Models worker/environment/k8s.py over the Kubernetes API given by its
    operations: the retried calls, the pod cache and its watch, creation,
    deletion, health, cleaning and URLs; sessions are those of [Allocation].
    A pod the API shows has metadata, as the API promises; an absent list or
    dictionary of the API is the empty one. *)

From S2P Require Import Prelude PyVal State Allocation.

(** ** Labels *)

(* worker/environment/_const.py:10-19 K8S_LABEL_PREFIX *)
Definition K8S_LABEL_PREFIX : string := "agentrl.live/".
Definition K8S_LABEL_ROLE : string := K8S_LABEL_PREFIX +:+ "role".
Definition K8S_LABEL_ROLE_ENVIRONMENT : string := "environment".
Definition K8S_LABEL_TASK_TYPE : string := K8S_LABEL_PREFIX +:+ "task-type".
Definition K8S_LABEL_SUBTYPE_NAME : string := K8S_LABEL_PREFIX +:+ "subtype-name".
Definition K8S_LABEL_EXCLUSIVE : string := K8S_LABEL_PREFIX +:+ "exclusive".
Definition K8S_ANNOTATION_DEPENDS_ON : string := K8S_LABEL_PREFIX +:+ "depends-on".

(** ** Pods *)

(** [waiting] with its reason and message, [terminated] with its reason. *)
Record container_state := {
  waiting : option (option string * option string);
  terminated : option (option string)
}.

Record pod_status := {
  phase : option string;
  pod_ip : option string;
  conditions : list (string * string);
  container_statuses : list (option container_state)
}.

Record pod := {
  p_name : string;
  p_uid : string;
  p_labels : list (string * string);
  p_annotations : list (string * string);
  p_deleting : bool;
  p_version : option string;
  p_status : option pod_status;
  p_env : list (string * list (string * option string))
}.

(** What a pod is created from; [c_rest] and [s_rest] are the fields the
    controller neither reads nor overrides. *)
Record pcontainer := {
  c_name : string;
  c_image : option string;
  c_env : list (string * option string);
  c_ports : list Z;
  c_readiness : option val;
  c_liveness : option val;
  c_rest : val
}.
Record pspec := {
  s_active_deadline : option Z;
  s_containers : list pcontainer;
  s_automount : option bool;
  s_restart_policy : string;
  s_priority_class : option string;
  s_rest : val
}.
Record manifest := {
  m_name : string;
  m_labels : list (string * string);
  m_annotations : list (string * string);
  m_spec : pspec
}.

(** What [create_k8s_pod] may return beside the specification. *)
Record overrides := {
  o_labels : option (list (string * string));
  o_annotations : option (list (string * string))
}.

(** The calls of [kubernetes_asyncio]; they raise [ApiException], [ClientError]
    or [TimeoutError]. *)
Class K8sApi (d : Type) := {
  list_namespaced_pod : string -> M d (list pod * option string);
  read_namespaced_pod : string -> M d pod;
  create_namespaced_pod : manifest -> M d pod;
  patch_owner : string -> pod -> M d unit;
  delete_namespaced_pod : string -> M d unit
}.

Definition pod_table : Type := list (string * list (string * pod)).

(* worker/environment/k8s.py:38-71 K8sEnvironmentController.__init__ *)
Record k8s (d : Type) := {
  server : d;
  client_open : bool;
  ws_open : bool;
  shells : gset string;
  pod_cache : pod_table;
  cache_initialized : bool;
  resource_version : option string;
  watching : bool;
  uuids : nat
}.
Arguments server {d}. Arguments client_open {d}. Arguments ws_open {d}. Arguments shells {d}.
Arguments pod_cache {d}. Arguments cache_initialized {d}. Arguments resource_version {d}.
Arguments watching {d}. Arguments uuids {d}.

Section setters.
Context {d : Type}.
Definition with_server (x : d) (s : k8s d) : k8s d :=
  {| server := x; client_open := client_open s; ws_open := ws_open s; shells := shells s;
     pod_cache := pod_cache s; cache_initialized := cache_initialized s;
     resource_version := resource_version s; watching := watching s; uuids := uuids s |}.
Definition with_clients (c w : bool) (s : k8s d) : k8s d :=
  {| server := server s; client_open := c; ws_open := w; shells := shells s;
     pod_cache := pod_cache s; cache_initialized := cache_initialized s;
     resource_version := resource_version s; watching := watching s; uuids := uuids s |}.
Definition with_shells (X : gset string) (s : k8s d) : k8s d :=
  {| server := server s; client_open := client_open s; ws_open := ws_open s; shells := X;
     pod_cache := pod_cache s; cache_initialized := cache_initialized s;
     resource_version := resource_version s; watching := watching s; uuids := uuids s |}.
Definition with_cache (c : pod_table) (i : bool) (v : option string) (s : k8s d) : k8s d :=
  {| server := server s; client_open := client_open s; ws_open := ws_open s; shells := shells s;
     pod_cache := c; cache_initialized := i;
     resource_version := v; watching := watching s; uuids := uuids s |}.
Definition with_watching (s : k8s d) : k8s d :=
  {| server := server s; client_open := client_open s; ws_open := ws_open s; shells := shells s;
     pod_cache := pod_cache s; cache_initialized := cache_initialized s;
     resource_version := resource_version s; watching := true; uuids := uuids s |}.
Definition next_uuid (s : k8s d) : k8s d :=
  {| server := server s; client_open := client_open s; ws_open := ws_open s; shells := shells s;
     pod_cache := pod_cache s; cache_initialized := cache_initialized s;
     resource_version := resource_version s; watching := watching s; uuids := Datatypes.S (uuids s) |}.
End setters.

(** ** The pod cache *)

(** [labels.get(K8S_LABEL_EXCLUSIVE, '').lower() == 'false'] *)
Definition is_shared (labels : list (string * string)) : bool :=
  bool_decide (lower (dget_or K8S_LABEL_EXCLUSIVE "" labels) = "false").

(* worker/environment/k8s.py:1131-1144 K8sEnvironmentController._record_pod_cache *)
Definition record_pod_cache (p : pod) (c : pod_table) : pod_table :=
  match p_labels p with
  | [] => c
  | labels =>
      if negb (is_shared labels) then c
      else match dget K8S_LABEL_SUBTYPE_NAME labels with
           | None | Some "" => c
           | Some subtype => dset subtype (dset (p_name p) p (dget_or subtype [] c)) c
           end
  end.

(* worker/environment/k8s.py:1146-1161 K8sEnvironmentController._evict_pod_from_cache *)
Definition evict_pod_from_cache (p : pod) (c : pod_table) : pod_table :=
  match dget K8S_LABEL_SUBTYPE_NAME (p_labels p) with
  | None | Some "" => prod_map id (ddel (p_name p)) <$> c
  | Some subtype =>
      match dget subtype c with
      | Some cache => dset subtype (ddel (p_name p) cache) c
      | None => c
      end
  end.

(* worker/environment/k8s.py:1163-1175 K8sEnvironmentController._label_selector *)
Definition label_selector (task_name : string) (exclusive : option bool) (subtype : option string)
    : string :=
  let labels := [(K8S_LABEL_ROLE, K8S_LABEL_ROLE_ENVIRONMENT); (K8S_LABEL_TASK_TYPE, task_name)] in
  let labels := match exclusive with
                | Some b => dset K8S_LABEL_EXCLUSIVE (lower (str_bool b)) labels
                | None => labels
                end in
  let labels := match subtype with
                | None | Some "" => labels
                | Some t => dset K8S_LABEL_SUBTYPE_NAME t labels
                end in
  join "," ((fun kv => kv.1 +:+ "=" +:+ kv.2) <$> labels).

(** An event of the watch. *)
Inductive watch_event : Type :=
| WatchError
| WatchOther
| Bookmark (p : pod)
| Deleted (p : pod)
| Modified (p : pod).

Section k8s.
Context {d : Type} `{K8sApi d}.
Context (dg : delegation).
(** [delegation.get_max_execution_time], [create_k8s_pod],
    [get_container_images], [uuid4().hex[:8]] *)
Context (get_max_execution_time : string -> option Z)
        (create_k8s_pod : pspec -> string -> res (pspec * option overrides))
        (get_container_images : string -> option string)
        (uuid_hex : nat -> string).

Abbreviation k8s := (k8s d).

Definition on_server {A} (m : M d A) : M k8s A := fun s =>
  let '(x, r) := m (server s) in (with_server x s, r).

(** *** Retried calls *)

(* worker/environment/k8s.py:73-88 K8sEnvironmentController._get_client *)
Definition get_client : M k8s unit := modify (fun s => with_clients true (ws_open s) s).
(* worker/environment/k8s.py:90-105 K8sEnvironmentController._get_ws_client *)
Definition get_ws_client : M k8s unit := modify (fun s => with_clients (client_open s) true s).
(* worker/environment/k8s.py:107-114 K8sEnvironmentController._reset_client *)
Definition reset_client : M k8s unit := modify (with_clients false false).
(* worker/environment/k8s.py:116-122 K8sEnvironmentController._reset_ws_client *)
Definition reset_ws_client : M k8s unit := modify (fun s => with_clients (client_open s) false s).

(* worker/environment/k8s.py:69-69 K8sEnvironmentController.__init__ *)
Definition retryable_statuses : list Z := [0; 500; 502; 503; 504].

(** Both loops differ in the client they open and reset; [left] attempts are
    left, this one included. *)
(* worker/environment/k8s.py:128-149 K8sEnvironmentController._api_call *)
Fixpoint call_loop {A} (open reset : M k8s unit) (left : nat) (operation : M d A) : M k8s A :=
  match left with
  | O => raise RecursionLimit
  | S left' =>
      open;;
      try_except (on_server operation)
        (fun e => match e with
                  | ApiException status =>
                      if bool_decide (status ∈ retryable_statuses) && bool_decide (left' ≠ 0%nat)
                      then Some (reset;; call_loop open reset left' operation) else None
                  | ClientError | TimeoutError =>
                      if bool_decide (left' ≠ 0%nat)
                      then Some (reset;; call_loop open reset left' operation) else None
                  | _ => None
                  end)
  end.
(* worker/environment/k8s.py:124-149 K8sEnvironmentController._api_call *)
Definition api_call {A} (retry : bool) (operation : M d A) : M k8s A :=
  call_loop get_client reset_client (if retry then 2 else 1) operation.
(* worker/environment/k8s.py:166-191 K8sEnvironmentController._ws_call *)
Definition ws_call {A} (retry : bool) (operation : M d A) : M k8s A :=
  call_loop get_ws_client reset_ws_client (if retry then 2 else 1) operation.
(* worker/environment/k8s.py:151-164 K8sEnvironmentController._api *)
Definition api {A} (retry use_ws : bool) (operation : M d A) : M k8s A :=
  if use_ws then ws_call retry operation else api_call retry operation.

(** *** Filling the cache *)

Definition on_cache (f : pod_table -> pod_table) : M k8s unit :=
  modify (fun s => with_cache (f (pod_cache s)) (cache_initialized s) (resource_version s) s).

(* worker/environment/k8s.py:1116-1129 K8sEnvironmentController._refresh_pod_cache *)
Definition refresh_pod_cache : M k8s unit :=
  response ← api true false (list_namespaced_pod (label_selector (get_name dg) (Some false) None));
  modify (fun s => with_cache (foldl (fun c p => record_pod_cache p c) [] response.1)
                     true response.2 s).

(** One event of the watch; [true] leaves the stream. *)
(* worker/environment/k8s.py:1072-1093 K8sEnvironmentController._watch_pods *)
Definition handle_event (e : watch_event) : M k8s bool :=
  let version p := modify (fun s =>
    with_cache (pod_cache s) (cache_initialized s)
      (match p_version p with None | Some "" => resource_version s | v => v end) s) in
  match e with
  | WatchError => modify (fun s => with_cache (pod_cache s) false None s);; mret true
  | WatchOther => mret false
  | Bookmark p => version p;; mret false
  | Deleted p => version p;; on_cache (evict_pod_from_cache p);; mret false
  | Modified p => version p;; on_cache (record_pod_cache p);; mret false
  end.

Fixpoint handle_stream (l : list watch_event) : M k8s bool :=
  match l with
  | [] => mret false
  | e :: l => stop ← handle_event e; if (stop : bool) then mret true else handle_stream l
  end.

(** One turn of the watch: what the stream delivered and how it ended; the
    backoff for the next turn, none when the watch is cancelled. *)
(* worker/environment/k8s.py:1053-1114 K8sEnvironmentController._watch_pods *)
Definition watch_turn (events : list watch_event) (ended : option exn) (backoff : Z)
    : M k8s (option Z) :=
  let again := mret (Some (Z.min (backoff * 2) 30)) in
  try_except
    (get_client;;
     i ← gets cache_initialized;
     (if (i : bool) then mret tt else refresh_pod_cache);;
     stopped ← handle_stream events;
     match ended with
     | Some e => if (stopped : bool) then mret (Some 1) else raise e
     | None => mret (Some 1)
     end)
    (fun e => match e with
              | CancelledError => Some (mret None)
              | ApiException status =>
                  Some ((if bool_decide (status = 410)
                         then modify (fun s => with_cache (pod_cache s) false None s)
                         else mret tt);;
                        reset_client;; again)
              | _ => if is_Exception e then Some (reset_client;; again) else None
              end).

(** *** Listing *)

Definition phase_of (s : option pod_status) : string :=
  lower (match s with Some s => default "" (phase s) | None => "" end).

(* worker/environment/k8s.py:874-898 K8sEnvironmentController._identify_pods *)
Definition usable (p : pod) : bool :=
  negb (p_deleting p) && is_shared (p_labels p) &&
  negb (bool_decide (phase_of (p_status p) ∈ ["failed"; "unknown"; "succeeded"])).

(* worker/environment/k8s.py:865-898 K8sEnvironmentController._identify_pods *)
Definition identify_pods (subtypes : list string) : M k8s (list (string * list pod)) :=
  i ← gets cache_initialized;
  (if (i : bool) then mret tt
   else refresh_pod_cache;; modify with_watching);;
  cache ← gets pod_cache;
  mret ((fun t => (t, filter (fun p => usable p = true) (dvalues (dget_or t [] cache)))) <$>
          match subtypes with [] => get_subtypes dg | _ => subtypes end).

(** *** Health *)

(** What a pod says: go on with the next one, having something to wait for or
    not; wait, without looking at the others; fail. *)
Inductive health : Type :=
| GoOn (wait_needed : bool)
| Wait
| Unhealthy (reason : string).

Definition failure_reasons : list string :=
  ["CrashLoopBackOff"; "ErrImagePull"; "ImagePullBackOff"; "RunContainerError"].

Definition or_str (o : option string) (s : string) : string :=
  match o with None | Some "" => s | Some m => m end.

(* worker/environment/k8s.py:1015-1036 K8sEnvironmentController._wait_for_health *)
Fixpoint container_health (wait_needed : bool) (l : list (option container_state)) : health :=
  match l with
  | [] => GoOn wait_needed
  | None :: l => container_health wait_needed l
  | Some st :: l =>
      match waiting st with
      | Some (reason, message) =>
          let reason := strip (default "" reason) in
          if bool_decide (reason ∈ failure_reasons)
          then Unhealthy (or_str message reason) else Wait
      | None =>
          match terminated st with
          | Some (Some r) =>
              if bool_decide (r ≠ "" ∧ r ≠ "Completed") then Unhealthy r
              else container_health wait_needed l
          | _ => container_health wait_needed l
          end
      end
  end.

(** A pod on its way out, or at its end, is not waited for. *)
(* worker/environment/k8s.py:988-1036 K8sEnvironmentController._wait_for_health *)
Definition pod_health (p : pod) : health :=
  if p_deleting p then GoOn false
  else
    let ph := phase_of (p_status p) in
    if bool_decide (ph ∈ ["failed"; "succeeded"]) then GoOn false
    else if bool_decide (ph ∈ ["pending"; "unknown"; ""]) then Wait
    else match p_status p with
         | None => Wait
         | Some s =>
             match container_statuses s with
             | [] => Wait
             | l => container_health (bool_decide (("Ready", "False") ∈ conditions s)) l
             end
         end.

(** One pass over the pods, [true] when there is something to wait for. *)
(* worker/environment/k8s.py:974-1036 K8sEnvironmentController._wait_for_health *)
Fixpoint health_pass (names : list string) (wait_needed : bool) : M k8s bool :=
  match names with
  | [] => mret wait_needed
  | name :: names =>
      found ← try_except (p ← api true false (read_namespaced_pod name); mret (Some p))
        (fun e => match e with ApiException 404 => Some (mret None) | _ => None end);
      match found with
      | None => mret true
      | Some p =>
          match pod_health p with
          | GoOn b => health_pass names (wait_needed || b)
          | Wait => mret true
          | Unhealthy reason =>
              raise (RuntimeError ("Pod " +:+ name +:+ " failed health check: " +:+ reason))
          end
      end
  end.

(** [fuel] bounds the polls. *)
(* worker/environment/k8s.py:955-1039 K8sEnvironmentController._wait_for_health *)
Fixpoint wait_for_pods (fuel : nat) (names : list string) : M k8s unit :=
  match names, fuel with
  | [], _ => mret tt
  | _, O => raise RecursionLimit
  | _, S fuel =>
      wait_needed ← health_pass names false;
      if (wait_needed : bool) then wait_for_pods fuel names else mret tt
  end.

(** *** Creation *)

(* worker/environment/k8s.py:637-668 K8sEnvironmentController.create_pod *)
Definition base_container (subtype : string) : pcontainer := {|
  c_name := "main"; c_image := None; c_env := [];
  c_ports := match get_service_port dg subtype with
             | NoPort | OnePort 0 => []
             | OnePort p => [p]
             | Ports l => l
             end;
  c_readiness := None; c_liveness := None;
  c_rest := VDict
    [("image_pull_policy", VStr "IfNotPresent");
     ("requests", VDict [("cpu", VStr "500m"); ("memory", VStr "500Mi")]);
     ("limits", VDict [("cpu", VStr "1000m"); ("memory", VStr "1Gi");
                       ("ephemeral-storage", VStr "10Gi")])]
|}.

(* worker/environment/k8s.py:670-676 K8sEnvironmentController.create_pod *)
Definition base_spec (subtype : string) (exclusive : bool) : pspec := {|
  s_active_deadline := if exclusive then get_max_execution_time subtype else None;
  s_containers := [base_container subtype];
  s_automount := None; s_restart_policy := "Never"; s_priority_class := None;
  s_rest := VDict [("node_selector", VDict []); ("termination_grace_period_seconds", VInt 0)]
|}.

Definition with_probes (r l : option val) (c : pcontainer) : pcontainer :=
  {| c_name := c_name c; c_image := c_image c; c_env := c_env c; c_ports := c_ports c;
     c_readiness := r; c_liveness := l; c_rest := c_rest c |}.
Definition with_image_env (i : option string) (e : list (string * option string)) (c : pcontainer)
    : pcontainer :=
  {| c_name := c_name c; c_image := i; c_env := e; c_ports := c_ports c;
     c_readiness := c_readiness c; c_liveness := c_liveness c; c_rest := c_rest c |}.

(** A liveness probe alone becomes the readiness probe. *)
(* worker/environment/k8s.py:694-697 K8sEnvironmentController.create_pod *)
Definition fix_probes (c : pcontainer) : pcontainer :=
  match c_readiness c, c_liveness c with
  | None, Some l => with_probes (Some l) None c
  | _, _ => c
  end.

(** The named variables of a list, the later of two with a name in the place of
    the first. *)
(* worker/environment/k8s.py:708-716 K8sEnvironmentController.create_pod *)
Definition merge_env (l : list (string * option string)) (extra : list (string * string))
    : list (string * option string) :=
  match extra with
  | [] => l
  | _ => dupdate (dupdate [] (filter (fun kv => kv.1 ≠ "") l)) (prod_map id Some <$> extra)
  end.

(* worker/environment/k8s.py:704-716 K8sEnvironmentController.create_pod *)
Definition fill_container (subtype : string) (extra : list (string * string)) (c : pcontainer)
    : res pcontainer :=
  image ← (match c_image c with
           | None | Some "" => match get_container_images subtype with
                               | Some i => Ok (Some i)
                               | None => Raise KeyError
                               end
           | i => Ok i
           end);
  Ok (with_image_env image (merge_env (c_env c) extra) c).

(** [next((c for c in l if c.name == 'main'), l[0])], updated in place. *)
(* worker/environment/k8s.py:699-716 K8sEnvironmentController.create_pod *)
Definition fill_primary (subtype : string) (extra : list (string * string))
    (l : list pcontainer) : res (list pcontainer) :=
  let i := match list_find (fun c => c_name c = "main") l with
           | Some (i, _) => i
           | None => 0%nat
           end in
  match l !! i with
  | None => Raise AttributeError
  | Some c => c' ← fill_container subtype extra c; Ok (<[i := c']> l)
  end.

(* worker/environment/k8s.py:678-716 K8sEnvironmentController.create_pod *)
Definition final_spec (spec : pspec) (subtype : string) (extra : list (string * string))
    : res pspec :=
  l ← fill_primary subtype extra (fix_probes <$> s_containers spec);
  Ok {| s_active_deadline := s_active_deadline spec; s_containers := l;
        s_automount := Some false; s_restart_policy := "Never";
        s_priority_class := Some "agentrl-environment"; s_rest := s_rest spec |}.

(* worker/environment/k8s.py:718-737 K8sEnvironmentController.create_pod *)
Definition pod_manifest (name subtype : string) (exclusive : bool) (o : option overrides)
    (spec : pspec) : manifest := {|
  m_name := name;
  m_labels :=
    dupdate [(K8S_LABEL_ROLE, K8S_LABEL_ROLE_ENVIRONMENT); (K8S_LABEL_TASK_TYPE, get_name dg);
             (K8S_LABEL_SUBTYPE_NAME, subtype);
             (K8S_LABEL_EXCLUSIVE, lower (str_bool exclusive))]
      (default [] (o ≫= o_labels));
  m_annotations := dupdate [] (default [] (o ≫= o_annotations));
  m_spec := spec
|}.

(** The names the annotation gives, the empty one when there is none. *)
(* worker/environment/k8s.py:744-745 K8sEnvironmentController.create_pod *)
Definition depends_on (p : pod) : list string :=
  match p_annotations p with
  | [] => []
  | a => split_on "," (dget_or K8S_ANNOTATION_DEPENDS_ON "" a)
  end.

(** The task [post_create_pod] runs on its own and is not part of the model. *)
(* worker/environment/k8s.py:625-771 K8sEnvironmentController.create_pod *)
Definition create_pod (subtype : string) (extra_envs : list (string * string)) (exclusive : bool)
    : M k8s pod :=
  n ← gets uuids;
  modify next_uuid;;
  let pod_name := lower (replace_char "_" "-" subtype) +:+ "-" +:+ uuid_hex n in
  result ← lift_res (create_k8s_pod (base_spec subtype exclusive) subtype);
  spec ← lift_res (final_spec result.1 subtype extra_envs);
  p ← api false false
        (create_namespaced_pod (pod_manifest pod_name subtype exclusive result.2 spec));
  for_each (depends_on p) (fun dep =>
    try_except (api true false (patch_owner dep p))
      (fun e => match e with ApiException _ => Some (mret tt) | _ => None end));;
  on_cache (record_pod_cache p);;
  mret p.

(** *** URLs and variables *)

Definition str_opt (o : option string) : string := default "None" o.
Definition str_port (p : service_port) : string :=
  match p with
  | NoPort => "None"
  | OnePort n => str_Z n
  | Ports l => "[" +:+ join ", " (str_Z <$> l) +:+ "]"
  end.

(** [None] is a pod without an address and a task without a port. *)
(* worker/environment/k8s.py:819-854 K8sEnvironmentController.get_pod_url *)
Definition get_pod_url (p : pod + string) (subtype : string) : M k8s (option string) :=
  p ← match p with
      | inl p =>
          match p_status p ≫= pod_ip with
          | None | Some "" =>
              if bool_decide (p_name p = "") then mret p
              else api true false (read_namespaced_pod (p_name p))
          | _ => mret p
          end
      | inr name => api true false (read_namespaced_pod name)
      end;
  let ip := p_status p ≫= pod_ip in
  match get_service_port dg subtype with
  | NoPort | OnePort 0 | Ports [] => mret ip
  | OnePort 80 => mret (Some ("http://" +:+ str_opt ip))
  | port => mret (Some ("http://" +:+ str_opt ip +:+ ":" +:+ str_port port))
  end.

(** The variables with a value, those of the main container over the others. *)
(* worker/environment/k8s.py:593-610 K8sEnvironmentController.get_env_variables *)
Definition env_variables (l : list (string * list (string * option string)))
    : list (string * string) :=
  let direct (c : string * list (string * option string)) :=
    omap (fun kv => v ← kv.2; Some (kv.1, v)) c.2 in
  let envs := foldl (fun acc c => dupdate acc (direct c)) [] l in
  match list_find (fun c => c.1 = "main") l with
  | Some (_, c) => dupdate envs (direct c)
  | None => envs
  end.

(* worker/environment/k8s.py:577-610 K8sEnvironmentController.get_env_variables *)
Definition get_env_variables (id : string) : M k8s (list (string * string)) :=
  p ← api true false (read_namespaced_pod id); mret (env_variables (p_env p)).

(** *** The driver of the allocation *)

#[export] Instance k8s_driver (health_fuel : nat) : Driver k8s pod := {|
  env_id := p_name;
  create_env := create_pod;
  identify_envs := identify_pods;
  wait_for_health l := wait_for_pods health_fuel (filter (fun n => n ≠ "") (p_name <$> l));
  env_url p subtype := u ← get_pod_url (inl p) subtype; mret (str_opt u)
|}.

(** *** Deletion and cleaning *)

Section with_state.
Context {S : Type} `{StateProvider S}.

Abbreviation world := (world S k8s).

(** A pod that cannot be deleted stays in the cache and in the shared state. *)
(* worker/environment/k8s.py:784-817 K8sEnvironmentController.delete_pod *)
Definition delete_pod (p : pod) : M world unit :=
  on_driver (modify (fun s => with_shells (shells s ∖ {[p_name p]}) s));;
  deleted ← on_driver (try_except
    (api true false (delete_namespaced_pod (p_name p));; mret true)
    (fun e => if is_Exception e then Some (mret false) else None));
  if (deleted : bool) then
    on_driver (on_cache (evict_pod_from_cache p));;
    on_state (remove_container (p_name p))
  else mret tt.

(** What is wrong with a shared pod nobody uses. *)
(* worker/environment/k8s.py:920-938 K8sEnvironmentController._clean_pods *)
Definition broken (p : pod) : bool :=
  p_deleting p ||
  match p_status p with
  | None => false
  | Some s =>
      bool_decide (lower (default "" (phase s)) ∈ [""; "failed"; "unknown"; "succeeded"]) ||
      existsb (fun st => match st with
                         | None => false
                         | Some st => match waiting st, terminated st with
                                      | None, None => false
                                      | _, _ => true
                                      end
                         end) (container_statuses s)
  end.

Definition clean_list (doomed : pod -> M S bool) (l : list pod) : M world unit :=
  for_each l (fun p =>
    allocated ← on_state (container_is_allocated (p_name p));
    if (allocated : bool) then mret tt
    else b ← on_state (doomed p);
         if (b : bool) then delete_pod p else mret tt).

(* worker/environment/k8s.py:900-953 K8sEnvironmentController._clean_pods *)
Definition clean_pods : M world unit :=
  exclusive ← on_driver (api true false
    (list_namespaced_pod (label_selector (get_name dg) (Some true) None)));
  clean_list (fun _ => mret true) exclusive.1;;
  shared ← on_driver (api true false
    (list_namespaced_pod (label_selector (get_name dg) (Some false) None)));
  clean_list (fun p => mret (broken p)) shared.1;;
  by_subtype ← on_driver (identify_pods []);
  for_each by_subtype (fun sl =>
    let usage_limit := get_reuse_limit dg sl.1 in
    if bool_decide (usage_limit = 0) then mret tt
    else clean_list
           (fun p => n ← container_total_uses (p_name p);
                     mret (negb (bool_decide (n < usage_limit)))) sl.2).

(** One turn of the background task. *)
(* worker/environment/k8s.py:612-623 K8sEnvironmentController.background_task *)
Definition background_turn : M world unit :=
  let log_exceptions := fun e : exn => if is_Exception e then Some (mret tt) else None in
  try_except
    (got ← on_state (acquire_lock "background" None 120);
     if (got : bool) then
       try_except clean_pods log_exceptions;;
       on_state (release_lock "background" None)
     else mret tt) log_exceptions.

(* worker/environment/k8s.py:193-290 K8sEnvironmentController.start_session *)
Definition start_session (generate_session_id : M S string) (shuffle : list pod -> list pod)
    (lock_fuel health_fuel fuel : nat) (subtypes : list string) (immutable : bool)
    : M world (string * list (string * string) * list (string * string)) :=
  start_session_with (H0 := k8s_driver health_fuel) dg generate_session_id shuffle lock_fuel
    "pods" "exclusive_pods" fuel subtypes immutable.

(* worker/environment/k8s.py:292-297 K8sEnvironmentController.renew_session *)
Definition renew_session (session_id : string) : M world unit :=
  renew_session_with "pods" session_id.

(** An exclusive pod that cannot be read is skipped. *)
(* worker/environment/k8s.py:316-328 K8sEnvironmentController.end_session *)
Definition delete_exclusive (pod_id : string) : M world unit :=
  p ← on_driver (try_except (p ← api true false (read_namespaced_pod pod_id); mret (Some p))
        (fun e => match e with ApiException _ => Some (mret None) | _ => None end));
  match p with
  | Some p => delete_pod p
  | None => mret tt
  end.

(* worker/environment/k8s.py:299-330 K8sEnvironmentController.end_session *)
Definition end_session (lock_fuel : nat) (session_id : string) : M world unit :=
  end_session_with lock_fuel "pods" "exclusive_pods" delete_exclusive session_id.
End with_state.
End k8s.

(** ** Calls *)

Lemma api_ok {d : Type} {A} (op : M d A) retry (s : k8s d) x a :
  op (server s) = (x, Ok a) ->
  api retry false op s = (with_server x (with_clients true (ws_open s) s), Ok a).
Proof.
  intros Hop. unfold api, api_call. destruct retry; cbn [call_loop]; unfold get_client;
    rewrite bind_modify; unfold try_except, on_server; simpl; by rewrite Hop.
Qed.

(** ** The cache is the list replayed with the watch *)

Definition subtype_label (p : pod) : option string :=
  match dget K8S_LABEL_SUBTYPE_NAME (p_labels p) with None | Some "" => None | t => t end.

(** The subtype under which a pod is cached. *)
Definition visible (p : pod) : option string :=
  if is_shared (p_labels p) then subtype_label p else None.

Definition cached (t n : string) (c : pod_table) : option pod := dget n (dget_or t [] c).

Definition table_wf (c : pod_table) : Prop := dict_wf c ∧ Forall (fun tc => dict_wf tc.2) c.

(** The pods the server has, by name. *)
Definition pods_after (e : watch_event) (T : gmap string pod) : gmap string pod :=
  match e with
  | Deleted p => delete (p_name p) T
  | Modified p => <[p_name p := p]> T
  | _ => T
  end.

Definition listed (l : list pod) : gmap string pod :=
  foldl (fun T p => <[p_name p := p]> T) ∅ l.

Record mirrors (c : pod_table) (T : gmap string pod) : Prop := {
  mi_wf : table_wf c;
  mi_get t n : cached t n c =
    (p ← T !! n; if decide (visible p = Some t) then Some p else None)
}.

Lemma table_wf_get t c : table_wf c -> dict_wf (dget_or t [] c).
Proof.
  intros [_ Hf]. unfold dget_or. destruct (dget t c) as [x|] eqn:E; [|constructor].
  apply dget_in in E. rewrite Forall_forall in Hf. exact (Hf _ E).
Qed.

Lemma Forall_dset {V} (P : V -> Prop) (k : string) v (c : list (string * V)) :
  P v -> Forall (fun kv => P kv.2) c -> Forall (fun kv => P kv.2) (dset k v c).
Proof.
  intros Hv. induction c as [|[k' v'] c IH]; simpl; intros Hc; [by apply Forall_singleton|].
  apply Forall_cons in Hc as [H1 H2]. destruct (decide _); constructor; auto.
Qed.

Lemma table_wf_dset t x c : table_wf c -> dict_wf x -> table_wf (dset t x c).
Proof. intros [H1 H2] Hx. split; [by apply dset_wf|by apply (Forall_dset dict_wf)]. Qed.

Lemma cached_dset t t' n x c :
  cached t n (dset t' x c) = if decide (t = t') then dget n x else cached t n c.
Proof. unfold cached, dget_or. rewrite dget_dset. by destruct (decide (t = t')). Qed.

Lemma dget_fmap {V W} (f : V -> W) (k : string) (c : list (string * V)) :
  dget k (prod_map id f <$> c) = f <$> dget k c.
Proof.
  induction c as [|[k' v'] c IH]; [done|]. simpl. destruct (decide (k = k')); [done|]. apply IH.
Qed.

Lemma record_mirrors p c T :
  (forall q, T !! p_name p = Some q -> visible q = visible p) ->
  mirrors c T -> mirrors (record_pod_cache p c) (<[p_name p := p]> T).
Proof.
  intros Hsame [Hwf Hget].
  assert (record_pod_cache p c = match visible p with
    | Some t => dset t (dset (p_name p) p (dget_or t [] c)) c | None => c end) as ->.
  { unfold record_pod_cache, visible, subtype_label. destruct (p_labels p) as [|x l]; [done|].
    destruct (is_shared (x :: l)); [|done]. simpl negb. cbv iota.
    destruct (dget K8S_LABEL_SUBTYPE_NAME (x :: l)) as [[|a s]|]; done. }
  destruct (visible p) as [t|] eqn:Hv.
  - split.
    { apply table_wf_dset; [done|]. by apply dset_wf, table_wf_get. }
    intros t' n. rewrite cached_dset, lookup_insert. case_decide as Ht.
    + subst t'. rewrite dget_dset. case_decide as Hn.
      * subst n. rewrite decide_True by done. simpl. by rewrite Hv, decide_True.
      * rewrite decide_False by congruence. apply Hget.
    + rewrite Hget. case_decide as Hn; [|done]. subst n. simpl. rewrite Hv.
      rewrite decide_False by congruence.
      destruct (T !! p_name p) as [q|] eqn:Eq; [|done]. simpl. rewrite (Hsame q eq_refl).
      by rewrite decide_False by congruence.
  - split; [done|]. intros t n. rewrite Hget, lookup_insert. case_decide as Hn; [|done].
    subst n. simpl. rewrite Hv. destruct (T !! p_name p) as [q|] eqn:Eq; [|done].
    simpl. by rewrite (Hsame q eq_refl).
Qed.

Lemma evict_get p c :
  table_wf c -> table_wf (evict_pod_from_cache p c) ∧
  forall t n, cached t n (evict_pod_from_cache p c) =
    if decide (n = p_name p ∧ (subtype_label p = None ∨ subtype_label p = Some t)) then None else cached t n c.
Proof.
  intros Hwf. unfold evict_pod_from_cache.
  assert (table_wf (prod_map id (ddel (p_name p)) <$> c) ∧
    forall t n, cached t n (prod_map id (ddel (p_name p)) <$> c) =
      if decide (n = p_name p) then None else cached t n c) as [Hall1 Hall2].
  { split.
    - destruct Hwf as [H1 H2]. split.
      + unfold dict_wf, dkeys in *. rewrite <- list_fmap_compose.
        erewrite list_fmap_ext; [exact H1|]. by intros ? [].
      + apply Forall_fmap. eapply Forall_impl; [exact H2|]. intros [t x] Hx. by apply ddel_wf.
    - intros t n. unfold cached, dget_or. rewrite dget_fmap.
      pose proof (table_wf_get t c Hwf) as Ht. unfold dget_or in Ht.
      destruct (dget t c) as [x|]; simpl; [|by case_decide]. rewrite dget_ddel by done.
      by case_decide. }
  unfold subtype_label. destruct (dget K8S_LABEL_SUBTYPE_NAME (p_labels p)) as [[|a s]|].
  1,3: split; [exact Hall1|]; intros t n; rewrite Hall2; repeat case_decide; naive_solver.
  set (t' := String a s). destruct (dget t' c) as [x|] eqn:E.
  - assert (dict_wf x) as Hx.
    { pose proof (table_wf_get t' c Hwf) as Ht. unfold dget_or in Ht. by rewrite E in Ht. }
    split; [apply table_wf_dset; [done|by apply ddel_wf]|].
    intros t n. rewrite cached_dset. case_decide as Ht.
    + subst t. rewrite dget_ddel by done. unfold cached, dget_or. rewrite E.
      repeat case_decide; naive_solver.
    + rewrite decide_False by naive_solver. done.
  - split; [done|]. intros t n. case_decide as Hn; [|done]. destruct Hn as [_ [|[= <-]]]; [done|].
    unfold cached, dget_or. by rewrite E.
Qed.

Lemma evict_mirrors p c T :
  (forall q, T !! p_name p = Some q -> visible q = visible p) ->
  mirrors c T -> mirrors (evict_pod_from_cache p c) (delete (p_name p) T).
Proof.
  intros Hsame [Hwf Hget]. destruct (evict_get p c Hwf) as [Hwf' Hget'].
  split; [done|]. intros t n. rewrite Hget', lookup_delete.
  destruct (decide (p_name p = n)) as [<-|Hne]; [|rewrite decide_False by naive_solver; apply Hget].
  case_decide as Hd; [done|]. rewrite Hget.
  destruct (T !! p_name p) as [q|] eqn:Eq; [|done]. simpl. rewrite (Hsame q eq_refl).
  rewrite decide_False; [done|]. unfold visible. destruct (is_shared _); naive_solver.
Qed.

Section mirror_proofs.
Context {d : Type} `{K8sApi d}.
Context (dg : delegation).

(** The labels of a pod do not change while its name is in use. *)
Definition event_pod (e : watch_event) : option pod :=
  match e with Bookmark p | Deleted p | Modified p => Some p | _ => None end.
Context (label_of : string -> option string).
Definition labelled (p : pod) : Prop := visible p = label_of (p_name p).
Definition all_labelled (T : gmap string pod) : Prop :=
  forall n p, T !! n = Some p -> visible p = label_of n.

Lemma insert_labelled p T :
  labelled p -> all_labelled T -> all_labelled (<[p_name p := p]> T).
Proof.
  intros Hp HT n q. rewrite lookup_insert. case_decide; [|by apply HT].
  intros [= <-]. by subst.
Qed.

Lemma delete_labelled n T : all_labelled T -> all_labelled (delete n T).
Proof. intros HT m q. rewrite lookup_delete. case_decide; [done|]. apply HT. Qed.

Lemma listed_mirrors l :
  Forall labelled l ->
  mirrors (foldl (fun c p => record_pod_cache p c) [] l) (listed l) ∧ all_labelled (listed l).
Proof.
  intros Hl. unfold listed.
  assert (forall c T, mirrors c T -> all_labelled T ->
    mirrors (foldl (fun c p => record_pod_cache p c) c l)
            (foldl (fun T p => <[p_name p := p]> T) T l) ∧
    all_labelled (foldl (fun T p => <[p_name p := p]> T) T l)) as Hgen.
  { induction l as [|p l IH]; intros c T Hm HT; [done|]. simpl.
    apply Forall_cons in Hl as [Hp Hl]. apply IH; [done| |by apply insert_labelled].
    apply record_mirrors; [|done]. intros q Hq. rewrite Hp. by apply HT. }
  apply Hgen; [|by intros n p; rewrite lookup_empty].
  split; [by split; constructor|]. intros t n. by rewrite lookup_empty.
Qed.

Lemma event_mirrors e (s : k8s d) T :
  e ≠ WatchError -> from_option labelled True (event_pod e) ->
  mirrors (pod_cache s) T -> all_labelled T ->
  exists s', handle_event e s = (s', Ok false) ∧ mirrors (pod_cache s') (pods_after e T) ∧
    all_labelled (pods_after e T) ∧ cache_initialized s' = cache_initialized s.
Proof.
  intros Hne Hl Hm HT.
  assert (forall p, labelled p -> forall q, T !! p_name p = Some q -> visible q = visible p) as Hs.
  { intros p Hp q Hq. rewrite Hp. by apply HT. }
  destruct e; [done|by eexists|by eexists|..]; simpl in Hl; eexists; (split; [done|]); simpl.
  - split_and!; [by apply evict_mirrors; auto|by apply delete_labelled|done].
  - split_and!; [by apply record_mirrors; auto|by apply insert_labelled|done].
Qed.

(** C19: after a refresh and any watch stream without an error, the pod cache holds
    exactly the shared pods the server has, each under its subtype and in its latest
    version, as long as a name keeps its labels. *)
Theorem pod_cache_mirrors (s : k8s d) (x : d) (l : list pod) (v : option string)
    (events : list watch_event) :
  list_namespaced_pod (label_selector (get_name dg) (Some false) None) (server s) = (x, Ok (l, v)) ->
  Forall labelled l -> WatchError ∉ events ->
  Forall (fun e => from_option labelled True (event_pod e)) events ->
  exists s', (refresh_pod_cache dg;; handle_stream events) s = (s', Ok false) ∧
    cache_initialized s' = true ∧
    forall t n, cached t n (pod_cache s') =
      (p ← foldl (fun T e => pods_after e T) (listed l) events !! n;
       if decide (visible p = Some t) then Some p else None).
Proof.
  intros Hlist Hl Hne Hev.
  destruct (listed_mirrors l Hl) as [Hm HT].
  set (s1 := with_cache (foldl (fun c p => record_pod_cache p c) [] l) true v
               (with_server x (with_clients true (ws_open s) s))).
  assert (refresh_pod_cache dg s = (s1, Ok tt)) as Hr.
  { unfold refresh_pod_cache. by erewrite M_bind_run by (by apply api_ok). }
  erewrite M_bind_run by exact Hr.
  assert (cache_initialized s1 = true) as Hi by done. change (foldl _ [] l) with (pod_cache s1) in Hm.
  clearbody s1. clear Hr Hlist. revert s1 Hm HT Hi. generalize (listed l). clear Hl l.
  induction events as [|e events IH]; intros T s1 Hm HT Hi.
  { exists s1. split_and!; [done|done|]. apply Hm. }
  apply Forall_cons in Hev as [He Hev]. apply not_elem_of_cons in Hne as [Hne1 Hne].
  destruct (event_mirrors e s1 T ltac:(congruence) He Hm HT) as (s2 & Hr & Hm2 & HT2 & Hi2).
  cbn [handle_stream]. erewrite M_bind_run by exact Hr. cbv iota. simpl foldl.
  apply IH; [done|done|done|done|congruence].
Qed.
End mirror_proofs.

(** ** Cleaning never touches a pod in use *)

Section clean_proofs.
Context {S d : Type} `{Implements S R (fun _ => True)} `{K8sApi d}.
Context (dg : delegation).
Context (sp0 : spec) (Inv : d -> Prop).

(** The API keeps [Inv] when it lists and when it deletes an unused pod. *)
Hypothesis Hlist : forall f, keeps Inv (fun _ => True) (list_namespaced_pod f).
Hypothesis Hdelete : forall n, unused sp0 n -> keeps Inv (fun _ => True) (delete_namespaced_pod n).

Abbreviation world := (world S (k8s d)).

Definition sound (x : k8s d) : Prop := Inv (server x).
Abbreviation kept := (kept (R := R) sp0 sound).

Lemma keeps_api {A} (Q : A -> Prop) retry ws (op : M d A) :
  keeps Inv Q op -> keeps sound Q (api retry ws op).
Proof.
  intros Hop.
  assert (forall open reset : M (k8s d) unit, keeps sound (fun _ => True) open ->
    keeps sound (fun _ => True) reset -> forall n, keeps sound Q (call_loop open reset n op)) as Hl.
  { intros open reset Ho Hr n. induction n as [|n IH]; [apply keeps_raise|]. cbn [call_loop].
    eapply keeps_bind; [exact Ho|]. intros _ _. apply keeps_try.
    - intros s Hs. unfold on_server. destruct (Hop _ Hs) as [Hp Hq].
      by destruct (op (server s)) as [x r].
    - assert (keeps sound Q (reset;; call_loop open reset n op)) as Hre
        by (eapply keeps_bind; [exact Hr|by intros _ _]).
      intros e k He. destruct e; try done; case_match; by simplify_eq. }
  unfold api, ws_call, api_call. destruct ws; apply Hl; by apply keeps_modify.
Qed.

Lemma keeps_delete_pod p :
  unused sp0 (p_name p) -> keeps kept (fun _ => True) (delete_pod p).
Proof.
  intros Hu. eapply (keeps_bind _ (fun _ => True)); [by apply keeps_on_driver, keeps_modify|].
  intros _ _. eapply (keeps_bind _ (fun _ => True)).
  - apply keeps_on_driver, keeps_try.
    + eapply keeps_bind; [by apply keeps_api, Hdelete|]. intros _ _. by apply keeps_ret.
    + intros e k He. destruct (is_Exception e); simplify_eq. by apply keeps_ret.
  - intros [] _; [|by apply keeps_ret].
    eapply (keeps_bind _ (fun _ => True)); [by apply keeps_on_driver, keeps_modify|].
    intros _ _. by apply keeps_remove.
Qed.

Lemma keeps_clean_pod_list doomed l :
  (forall p, keeps kept (fun _ => True) (on_state (doomed p))) ->
  keeps kept (fun _ => True) (clean_list doomed l).
Proof.
  intros Hk. apply keeps_for_each. intros p _.
  eapply keeps_bind; [apply keeps_is_allocated|]. intros [] Ha; [by apply keeps_ret|].
  eapply keeps_bind; [apply Hk|]. intros [] _; [|by apply keeps_ret].
  by apply keeps_delete_pod, Ha.
Qed.

Lemma keeps_list_pods f retry ws :
  keeps kept (fun _ => True) (on_driver (api retry ws (list_namespaced_pod f))).
Proof. apply keeps_on_driver, keeps_api, Hlist. Qed.

Lemma keeps_identify_pods l : keeps kept (fun _ => True) (on_driver (identify_pods dg l)).
Proof.
  apply keeps_on_driver. eapply (keeps_bind _ (fun _ => True)); [by apply keeps_gets|].
  intros i _. eapply (keeps_bind _ (fun _ => True)).
  - destruct i; [by apply keeps_ret|].
    eapply (keeps_bind _ (fun _ => True)); [|by intros _ _; apply keeps_modify].
    eapply keeps_bind; [apply keeps_api, Hlist|]. intros r _. by apply keeps_modify.
  - intros _ _. eapply (keeps_bind _ (fun _ => True)); [by apply keeps_gets|].
    intros c _. by apply keeps_ret.
Qed.

(** One round of cleaning, however it ends, leaves every pod in use on the
    server and its users and use count in the shared state. *)
Theorem clean_pods_safe (w : world) :
  R (st w) sp0 -> Inv (server (drv w)) ->
  let w' := (clean_pods dg w).1 in
  Inv (server (drv w')) ∧ exists sp, R (st w') sp ∧
    forall c, users c sp0 ≠ ∅ -> users c sp = users c sp0 ∧ uses c sp = uses c sp0.
Proof.
  intros HR HI. change (kept (clean_pods dg w).1).
  enough (keeps kept (fun _ => True) (clean_pods dg)) as Hk by (apply Hk; split; eauto).
  eapply keeps_bind; [apply keeps_list_pods|]. intros l _.
  eapply keeps_bind; [by apply keeps_clean_pod_list; intros p; apply keeps_pure|]. intros _ _.
  eapply keeps_bind; [apply keeps_list_pods|]. intros l2 _.
  eapply keeps_bind; [by apply keeps_clean_pod_list; intros p; apply keeps_pure|]. intros _ _.
  eapply keeps_bind; [apply keeps_identify_pods|]. intros bs _.
  apply keeps_for_each. intros sl _. cbv zeta. case_bool_decide; [by apply keeps_ret|].
  apply keeps_clean_pod_list. intros p. apply keeps_uses.
Qed.
End clean_proofs.

(** ** Health *)

Definition container_fine (o : option container_state) : Prop :=
  match o with
  | None => True
  | Some st => waiting st = None ∧
               match terminated st with
               | Some (Some r) => r = "" ∨ r = "Completed"
               | _ => True
               end
  end.

(** Running, not reported unready, with container statuses and none of them
    waiting or ended with an error. *)
Definition running_well (p : pod) : Prop :=
  phase_of (p_status p) ∉ ["failed"; "succeeded"; "pending"; "unknown"; ""] ∧
  exists s, p_status p = Some s ∧ ("Ready", "False") ∉ conditions s ∧
    container_statuses s ≠ [] ∧ Forall container_fine (container_statuses s).

(** Gone or at its end, whatever it ended with. *)
Definition over (p : pod) : Prop :=
  p_deleting p = true ∨ phase_of (p_status p) ∈ ["failed"; "succeeded"].

Lemma container_health_iff b l :
  container_health b l = GoOn false <-> b = false ∧ Forall container_fine l.
Proof.
  induction l as [|[st|] l IH]; cbn [container_health].
  - split; [intros [= ->]; split; [done|constructor]|intros [-> _]; done].
  - destruct (waiting st) as [[r m]|] eqn:Ew.
    { split; [by case_bool_decide|]. intros [_ [[Hw _] _]%Forall_cons]. by rewrite Ew in Hw. }
    destruct (terminated st) as [[r|]|] eqn:Et; [case_bool_decide as Hr| |];
      rewrite ?IH, Forall_cons; unfold container_fine; rewrite Ew, Et; try naive_solver.
    assert (r = "" ∨ r = "Completed") by (destruct (decide (r = "")), (decide (r = "Completed")); tauto).
    naive_solver.
  - rewrite IH, Forall_cons. naive_solver.
Qed.

Lemma pod_health_iff p : pod_health p = GoOn false <-> over p ∨ running_well p.
Proof.
  unfold pod_health, over, running_well. destruct (p_deleting p); [naive_solver|].
  case_bool_decide as Hf; [naive_solver|]. case_bool_decide as Hw.
  { split; [done|]. intros [[|]|[Hn _]]; [done|done|]. set_solver. }
  destruct (p_status p) as [s|] eqn:Es; [|split; [done|naive_solver]].
  assert (phase_of (Some s) ∉ ["failed"; "succeeded"; "pending"; "unknown"; ""]) as Hph
    by set_solver.
  destruct (container_statuses s) as [|c l] eqn:Ec; [split; [done|naive_solver]|].
  rewrite container_health_iff, bool_decide_eq_false. split.
  - intros [H1 H2]. right. split; [done|]. exists s. by rewrite Ec.
  - intros [[|]|[_ (s' & [= <-] & H1 & _ & H2)]]; [done|done|]. by rewrite Ec in H2.
Qed.

Section health_proofs.
Context {d : Type} `{K8sApi d}.
(** A server on which nothing changes while it is polled. *)
Context (pods : string -> pod).
Hypothesis Hread : forall n x, read_namespaced_pod n x = (x, Ok (pods n)).

Lemma health_pass_static names (s : k8s d) b :
  exists s' r, health_pass names b s = (s', r) ∧
    (r = Ok false <-> b = false ∧ Forall (fun n => over (pods n) ∨ running_well (pods n)) names).
Proof.
  revert s b. induction names as [|n names IH]; intros s b; cbn [health_pass].
  { do 2 eexists. split; [done|]. split; [by intros [= ->]|by intros [-> _]]. }
  erewrite M_bind_run.
  2:{ unfold try_except. erewrite M_bind_run by (apply api_ok, Hread). reflexivity. }
  pose proof (pod_health_iff (pods n)) as Hn. destruct (pod_health (pods n)) as [w| |r] eqn:Eh; cbv beta iota;
    rewrite ?Eh.
  - destruct (IH (with_server (server s) (with_clients true (ws_open s) s)) (b || w))
      as (s' & r & Hp & Hr).
    exists s', r. split; [exact Hp|]. rewrite Hr, orb_false_iff, Forall_cons, <- Hn. naive_solver.
  - do 2 eexists. split; [done|]. rewrite Forall_cons, <- Hn. naive_solver.
  - do 2 eexists. split; [done|]. rewrite Forall_cons, <- Hn. naive_solver.
Qed.

(** On a server where nothing changes, waiting for pods returns exactly when
    every pod is running with all its containers well, or is being deleted or has
    ended: a pod that failed counts as one to use. *)
Theorem wait_for_health_spec (fuel : nat) (names : list string) (s : k8s d) :
  (wait_for_pods (Datatypes.S fuel) names s).2 = Ok tt <->
  Forall (fun n => over (pods n) ∨ running_well (pods n)) names.
Proof.
  assert (forall fuel s, (wait_for_pods fuel names s).2 = Ok tt ->
    Forall (fun n => over (pods n) ∨ running_well (pods n)) names) as Honly.
  { clear s fuel. intros fuel. induction fuel as [|fuel IH]; intros s; destruct names as [|n l];
      try by constructor.
    cbn [wait_for_pods]. set (ns := n :: l) in *.
    destruct (health_pass_static ns s false) as (s' & r & Hp & Hr).
    unfold mbind, M_bind. rewrite Hp. destruct r as [[]|e]; [by apply IH| |done].
    intros _. by apply Hr. }
  split; [apply Honly|]. destruct names as [|n l]; [done|]. intros Hall.
  cbn [wait_for_pods]. set (ns := n :: l) in *.
  destruct (health_pass_static ns s false) as (s' & r & Hp & Hr).
  rewrite (proj2 Hr (conj eq_refl Hall)) in Hp. by erewrite M_bind_run by exact Hp.
Qed.
End health_proofs.

(** ** Concrete inputs *)

Definition demo_pod (name ph : string) : pod := {|
  p_name := name; p_uid := ""; p_annotations := []; p_deleting := false; p_version := Some "7";
  p_labels := [(K8S_LABEL_SUBTYPE_NAME, "web"); (K8S_LABEL_EXCLUSIVE, "false")];
  p_status := Some {| phase := Some ph; pod_ip := Some "10.0.0.1"; conditions := [];
                      container_statuses := [Some {| waiting := None; terminated := None |}] |};
  p_env := []
|}.

(** A server that lists every pod it has and knows every name. *)
#[local] Instance demo_api : K8sApi (list pod) := {|
  list_namespaced_pod _ := fun x => (x, Ok (x, Some "7"));
  read_namespaced_pod n := fun x => (x, Ok (demo_pod n "Running"));
  create_namespaced_pod m := fun x =>
    let p := demo_pod (m_name m) "Pending" in (x ++ [p], Ok p);
  patch_owner _ _ := mret tt;
  delete_namespaced_pod n := fun x => (filter (fun p => p_name p ≠ n) x, Ok tt)
|}.

Definition demo_k8s (l : list pod) : k8s (list pod) := {|
  server := l; client_open := false; ws_open := false; shells := ∅; pod_cache := [];
  cache_initialized := false; resource_version := None; watching := false; uuids := 0
|}.

Lemma pod_cache_mirrors_witness :
  exists s', (refresh_pod_cache demo_delegation;;
     handle_stream [Modified (demo_pod "p2" "Running"); Deleted (demo_pod "p1" "Running")])
    (demo_k8s [demo_pod "p1" "Running"]) = (s', Ok false) ∧
  cached "web" "p1" (pod_cache s') = None ∧
  cached "web" "p2" (pod_cache s') = Some (demo_pod "p2" "Running").
Proof.
  destruct (pod_cache_mirrors demo_delegation (fun _ => Some "web")
    (demo_k8s [demo_pod "p1" "Running"]) [demo_pod "p1" "Running"] [demo_pod "p1" "Running"]
    (Some "7") [Modified (demo_pod "p2" "Running"); Deleted (demo_pod "p1" "Running")])
    as (s' & H & _ & Hc).
  - reflexivity.
  - by repeat constructor.
  - apply not_elem_of_cons. split; [done|]. apply not_elem_of_cons.
    split; [done|apply not_elem_of_nil].
  - by repeat constructor.
  - exists s'. split; [exact H|]. split; rewrite Hc; vm_compute; reflexivity.
Defined.

Definition demo_used : list request := [AllocateContainer "p1" "s"].

(** An ended pod nobody uses is deleted, one in use is not. *)
Example demo_clean_pods :
  p_name <$> server (drv (clean_pods demo_delegation
     {| st := final demo_used new_local;
        drv := demo_k8s [demo_pod "p1" "Failed"; demo_pod "p2" "Failed"] |}).1) = ["p1"].
Proof. vm_compute. reflexivity. Qed.

Lemma demo_delete_pod n :
  unused (spec_run demo_used new_spec) n ->
  keeps (fun x => "p1" ∈ p_name <$> x) (fun _ => True) (delete_namespaced_pod n).
Proof.
  intros Hu x Hi. split; [|done]. simpl.
  apply list_elem_of_fmap in Hi as (c & Hc & Hin). apply list_elem_of_fmap. exists c. split; [done|].
  apply list_elem_of_filter. split; [|done]. intros Heq. rewrite <- Hc in Heq. subst n.
  exact (bool_decide_eq_true_1 _
    (eq_refl : bool_decide (users "p1" (spec_run demo_used new_spec) ≠ ∅) = true) Hu).
Qed.

Lemma clean_pods_safe_witness :
  "p1" ∈ p_name <$> server (drv (clean_pods demo_delegation
     {| st := final demo_used new_local;
        drv := demo_k8s [demo_pod "p1" "Failed"; demo_pod "p2" "Failed"] |}).1).
Proof.
  apply (clean_pods_safe (R := local_rel) demo_delegation (spec_run demo_used new_spec)
    (fun x => "p1" ∈ p_name <$> x)) with (w := {| st := final demo_used new_local;
        drv := demo_k8s [demo_pod "p1" "Failed"; demo_pod "p2" "Failed"] |}).
  - intros f x Hx. by split.
  - exact demo_delete_pod.
  - apply (implements_final (R := local_rel) (valid := fun _ => True));
      [by repeat constructor|apply local_rel_new].
  - left.
Defined.

Lemma wait_for_health_spec_witness :
  (wait_for_pods 1 ["p1"] (demo_k8s [])).2 = Ok tt.
Proof.
  apply (wait_for_health_spec (d := list pod) (fun n => demo_pod n "Running")
    (fun n (x : list pod) => eq_refl : @read_namespaced_pod _ demo_api n x = _) 0 ["p1"]).
  apply Forall_singleton. apply pod_health_iff. reflexivity.
Defined.

(** Without the annotation, a pod with annotations asks for the owner of the pod
    named by the empty string. *)
Lemma depends_on_nobody p k v :
  p_annotations p = [(k, v)] -> k ≠ K8S_ANNOTATION_DEPENDS_ON -> depends_on p = [""].
Proof.
  intros Ha Hk. unfold depends_on. rewrite Ha. unfold dget_or. simpl.
  by rewrite decide_False by congruence.
Qed.
