(* ===== verification/Shell.v ===== *)
(** * Commands and shells inside environments

    Models what the environment controllers make of the frames a container
    sends: [execute_command], [create_shell] and [execute_shell] of
    worker/environment/docker.py and k8s.py, and [SHELL_PROMPT_RE].  Bytes are
    integers; the streams are the lists of what arrives on them. *)

From S2P Require Import Prelude PyVal.

Abbreviation bytes := (list Z).

(** ** The prompt *)

(** [.+] followed by [k]: one or more bytes other than a newline. *)
Fixpoint plus_then (k : bytes -> bool) (l : bytes) : bool :=
  match l with
  | [] => false
  | c :: l => negb (bool_decide (c = 10)) && (k l || plus_then k l)
  end.

Definition lit_then (c : Z) (k : bytes -> bool) (l : bytes) : bool :=
  match l with
  | x :: l => bool_decide (x = c) && k l
  | [] => false
  end.

Definition one_of_then (cs : list Z) (k : bytes -> bool) (l : bytes) : bool :=
  match l with
  | x :: l => bool_decide (x ∈ cs) && k l
  | [] => false
  end.

Fixpoint search (re : bytes -> bool) (l : bytes) : bool :=
  re l || match l with [] => false | _ :: l => search re l end.

(** [re.compile(b'\x1b.+@.+[#|$] ')] *)
(* worker/environment/_const.py:21-21 SHELL_PROMPT_RE *)
Definition prompt_re : bytes -> bool :=
  lit_then 27 (plus_then (lit_then 64 (plus_then
    (one_of_then [35; 124; 36] (lit_then 32 (fun _ => true)))))).
Definition has_prompt (l : bytes) : bool := search prompt_re l.

(** ** Docker streams *)

(** [exec_.start(...)], [read_out]: the number of the stream and its bytes. *)
(* worker/environment/docker.py:257-271 DockerEnvironmentController.execute_command *)
Fixpoint docker_output (l : list (Z * bytes)) (out err : bytes) : bytes * bytes :=
  match l with
  | [] => (out, err)
  | (s, data) :: l =>
      if bool_decide (s = 1) then docker_output l (out ++ data) err
      else if bool_decide (s = 2) then docker_output l out (err ++ data)
      else docker_output l out err
  end.

(** What the stream of a shell has delivered and nobody has read; [closed] when
    it then ends. *)
Record stream := { unread : list bytes; closed : bool }.
Abbreviation streams := (gmap string stream).

(** Reads up to a prompt: the frames read, the frames left. When nothing is left
    an ended stream ends the loop and an open one times out. *)
Fixpoint read_frames (l : list bytes) : list bytes * list bytes * bool :=
  match l with
  | [] => ([], [], false)
  | m :: l =>
      if has_prompt m then ([m], l, true)
      else let '(r, rest, found) := read_frames l in (m :: r, rest, found)
  end.

Definition set_stream (id : string) (s : stream) : M streams unit := modify <[id := s]>.

(** [opened] is what the new shell delivers. *)
(* worker/environment/docker.py:273-291 DockerEnvironmentController.create_shell *)
Definition docker_create_shell (environment_id : string) (opened : res stream)
    : M streams unit :=
  s ← lift_res opened;
  let '(_, rest, found) := read_frames (unread s) in
  set_stream environment_id {| unread := rest; closed := closed s |};;
  if found || closed s then mret tt else raise TimeoutError.

(** [reply] is what arrives between the command and the timeout. *)
(* worker/environment/docker.py:293-314 DockerEnvironmentController.execute_shell *)
Definition docker_execute_shell (environment_id : string) (opened : res stream)
    (reply : list bytes) : M streams bytes :=
  known ← gets (fun m => m !! environment_id);
  match known with
  | Some _ => mret tt
  | None => docker_create_shell environment_id opened
  end;;
  s ← gets (fun m => m !! environment_id);
  match s with
  | None => raise KeyError
  | Some s =>
      let '(r, rest, found) := read_frames (unread s ++ reply) in
      set_stream environment_id {| unread := rest; closed := closed s |};;
      if found || closed s then mret (mjoin (drop 1 r)) else raise TimeoutError
  end.

(** ** Kubernetes websockets *)

Inductive ws_message : Type :=
| WsClose
| WsError
| WsData (raw : bytes)
| WsOther.

Section k8s.
(** The channel numbers and [parse_error_data] of [kubernetes_asyncio]; the
    latter with the decoding of its argument. *)
Context (STDOUT_CHANNEL STDERR_CHANNEL ERROR_CHANNEL : Z)
        (parse_error_data : bytes -> res Z).

(** Exit code, standard output and error when the stream ends. *)
(* worker/environment/k8s.py:358-385 K8sEnvironmentController.execute_command *)
Fixpoint consume (l : list ws_message) (exit_code : Z) (out err : bytes)
    : res (Z * bytes * bytes) :=
  match l with
  | [] | WsClose :: _ => Ok (exit_code, out, err)
  | WsError :: _ => Raise (RuntimeError "exec websocket error")
  | WsOther :: l | WsData [] :: l => consume l exit_code out err
  | WsData (channel :: payload) :: l =>
      if bool_decide (channel = STDOUT_CHANNEL) then consume l exit_code (out ++ payload) err
      else if bool_decide (channel = STDERR_CHANNEL) then consume l exit_code out (err ++ payload)
      else if bool_decide (channel = ERROR_CHANNEL) then
        match parse_error_data payload with
        | Ok code => Ok (code, out, err)
        | Raise e => if is_Exception e then Ok (1, out, err) else Raise e
        end
      else consume l exit_code out err
  end.

(* worker/environment/k8s.py:332-388 K8sEnvironmentController.execute_command *)
Definition execute_command (l : list ws_message) : res (Z * bytes * bytes) := consume l 0 [] [].

(** [shell exited with code ...] *)
Definition shell_exited (payload : bytes) : exn :=
  match parse_error_data payload with
  | Ok code => RuntimeError ("shell exited with code " +:+ str_Z code)
  | Raise e => e
  end.

(** The end of the list is the timeout of 5 seconds around the call: that of each
    [receive] is longer. *)
(* worker/environment/k8s.py:427-449 K8sEnvironmentController.create_shell *)
Fixpoint wait_for_prompt (l : list ws_message) : res (list ws_message) :=
  match l with
  | [] => Raise TimeoutError
  | WsClose :: _ => Raise (RuntimeError "shell closed before prompt was ready")
  | WsError :: _ => Raise (RuntimeError "shell websocket error")
  | WsOther :: l | WsData [] :: l => wait_for_prompt l
  | WsData (channel :: payload) :: l =>
      if bool_decide (channel = ERROR_CHANNEL) then Raise (shell_exited payload)
      else if bool_decide (channel = STDOUT_CHANNEL ∨ channel = STDERR_CHANNEL)
      then if has_prompt payload then Ok l else wait_for_prompt l
      else wait_for_prompt l
  end.

(** The data, and the messages that are left. [ended] is raised when no more
    arrive: the [RuntimeError] of a [receive] that times out, or the timeout of
    the whole command. *)
(* worker/environment/k8s.py:522-556 K8sEnvironmentController.execute_shell *)
Fixpoint read_until_prompt (ended : exn) (l : list ws_message) (data : bytes)
    (ignored_first_chunk : bool) : res (bytes * list ws_message) :=
  match l with
  | [] => Raise ended
  | WsClose :: _ => Raise (RuntimeError "shell connection closed")
  | WsError :: _ => Raise (RuntimeError "shell websocket error")
  | WsOther :: l | WsData [] :: l => read_until_prompt ended l data ignored_first_chunk
  | WsData (channel :: chunk) :: l =>
      if bool_decide (channel = ERROR_CHANNEL) then Raise (shell_exited chunk)
      else if negb (bool_decide (channel = STDOUT_CHANNEL ∨ channel = STDERR_CHANNEL))
      then read_until_prompt ended l data ignored_first_chunk
      else if ignored_first_chunk then
        if has_prompt chunk then Ok (data ++ chunk, l)
        else read_until_prompt ended l (data ++ chunk) ignored_first_chunk
      else read_until_prompt ended l data true
  end.

(** A shell: whether its socket is closed, and what it has delivered. *)
Record shell := { ws_closed : bool; ws_unread : list ws_message }.
Abbreviation shells := (gmap string shell).

(** [opened]: the messages of the new socket, or why there is none. *)
(* worker/environment/k8s.py:390-484 K8sEnvironmentController.create_shell *)
Definition create_shell (environment_id : string) (opened : res (list ws_message))
    : M shells unit :=
  existing ← gets (fun m => m !! environment_id);
  match existing with
  | Some s => if ws_closed s then modify (delete environment_id) else mret tt
  | None => mret tt
  end;;
  match existing with
  | Some {| ws_closed := false |} => mret tt
  | _ =>
      l ← lift_res opened;
      rest ← lift_res (wait_for_prompt l);
      modify <[environment_id := {| ws_closed := false; ws_unread := rest |}]>
  end.

(** [sent] is the outcome of sending the command, [reply] what then arrives. *)
(* worker/environment/k8s.py:486-575 K8sEnvironmentController.execute_shell *)
Definition execute_shell (environment_id : string) (opened : res (list ws_message))
    (sent : res unit) (reply : list ws_message) (ended : exn) : M shells bytes :=
  let drop_shell (e : exn) : option (M shells bytes) :=
    if is_Exception e then Some (modify (delete environment_id);; raise e) else None in
  session ← gets (fun m => m !! environment_id);
  match session with
  | Some {| ws_closed := false |} => mret tt
  | _ => create_shell environment_id opened
  end;;
  session ← gets (fun m => m !! environment_id);
  match session with
  | None => raise (RuntimeError "failed to initialize shell session")
  | Some s =>
      try_except
        (lift_res sent;;
         r ← lift_res (read_until_prompt ended (ws_unread s ++ reply) [] false);
         modify <[environment_id := {| ws_closed := ws_closed s; ws_unread := r.2 |}]>;;
         mret r.1)
        drop_shell
  end.

(** ** Proofs *)

(** The bytes a message shows on a terminal. *)
Definition terminal (m : ws_message) : option bytes :=
  match m with
  | WsData (channel :: chunk) =>
      if bool_decide (channel = ERROR_CHANNEL) then None
      else if bool_decide (channel = STDOUT_CHANNEL ∨ channel = STDERR_CHANNEL) then Some chunk
      else None
  | _ => None
  end.

(** Messages that neither end nor break the stream. *)
Definition ordinary (m : ws_message) : Prop :=
  match m with
  | WsClose | WsError => False
  | WsData (channel :: _) => channel ≠ ERROR_CHANNEL
  | _ => True
  end.

Definition chunks (l : list ws_message) : list bytes := omap terminal l.

Lemma chunks_cons m l :
  chunks (m :: l) = match terminal m with Some c => c :: chunks l | None => chunks l end.
Proof. done. Qed.

Lemma read_rest ended l data :
  Forall ordinary l ->
  let '(r, rest, found) := read_frames (chunks l) in
  if found then exists l', read_until_prompt ended l data true = Ok (data ++ mjoin r, l') ∧ chunks l' = rest
  else read_until_prompt ended l data true = Raise ended.
Proof.
  revert data. induction l as [|m l IH]; intros data Hl; [done|].
  apply Forall_cons in Hl as [Hm Hl]. rewrite chunks_cons.
  destruct m as [| |[|c chunk]|]; [done|done|by apply IH| |by apply IH].
  simpl in Hm. cbn [read_until_prompt]. unfold terminal. rewrite bool_decide_eq_false_2 by done.
  destruct (bool_decide (c = STDOUT_CHANNEL ∨ c = STDERR_CHANNEL)); [|by apply IH].
  cbn [negb read_frames]. destruct (has_prompt chunk).
  - exists l. split; [|done]. simpl. by rewrite app_nil_r.
  - specialize (IH (data ++ chunk) Hl). destruct (read_frames (chunks l)) as [[r rest] []]; [|done].
    destruct IH as (l' & H1 & H2). exists l'. split; [|done]. rewrite H1. simpl.
    by rewrite <- (assoc_L (++)).
Qed.

Lemma read_all ended l :
  Forall ordinary l ->
  let '(r, rest, found) := read_frames (drop 1 (chunks l)) in
  if found then exists l', read_until_prompt ended l [] false = Ok (mjoin r, l') ∧ chunks l' = rest
  else read_until_prompt ended l [] false = Raise ended.
Proof.
  induction l as [|m l IH]; intros Hl; [done|].
  apply Forall_cons in Hl as [Hm Hl]. rewrite chunks_cons.
  destruct m as [| |[|c chunk]|]; [done|done|by apply IH| |by apply IH].
  simpl in Hm. cbn [read_until_prompt]. unfold terminal. rewrite bool_decide_eq_false_2 by done.
  destruct (bool_decide (c = STDOUT_CHANNEL ∨ c = STDERR_CHANNEL)); [|by apply IH].
  cbn [negb drop]. rewrite drop_0. by apply (read_rest ended l []).
Qed.

(** On an open shell whose stream neither breaks nor ends, execute_shell
    returns the terminal output after its first chunk up to the first chunk with a
    prompt and leaves the rest unread; without such a chunk it fails and forgets the
    shell. *)
Theorem execute_shell_output (id : string) (opened : res (list ws_message)) (m : shells)
    (unread reply : list ws_message) (ended : exn) :
  is_Exception ended = true ->
  m !! id = Some {| ws_closed := false; ws_unread := unread |} ->
  Forall ordinary (unread ++ reply) ->
  let '(r, rest, found) := read_frames (drop 1 (chunks (unread ++ reply))) in
  exists m', execute_shell id opened (Ok tt) reply ended m =
      (m', if found then Ok (mjoin r) else Raise ended) ∧
    if found then exists l, m' !! id = Some {| ws_closed := false; ws_unread := l |} ∧
                            chunks l = rest
    else m' !! id = None.
Proof.
  intros He Hm Ho. pose proof (read_all ended _ Ho) as Hr.
  destruct (read_frames (drop 1 (chunks (unread ++ reply)))) as [[r rest] found].
  unfold execute_shell. rewrite bind_gets, Hm.
  rewrite bind_ret, bind_gets, Hm. unfold try_except. rewrite bind_lift, bind_lift. simpl.
  destruct found.
  - destruct Hr as (l' & -> & Hl).
    exists (<[id := {| ws_closed := false; ws_unread := l' |}]> m). split; [done|].
    exists l'. split; [by rewrite lookup_insert_eq|done].
  - rewrite Hr, He. exists (delete id m). split; [done|]. by rewrite lookup_delete_eq.
Qed.

(** What [execute_command] returns: both outputs in order, and the code the
    error channel gave. *)
Definition output_of (channel : Z) (l : list ws_message) : bytes :=
  mjoin (omap (fun m => match m with
                        | WsData (c :: payload) =>
                            if bool_decide (c = channel) then Some payload else None
                        | _ => None
                        end) l).

Lemma consume_spec l l' code exit out err payload :
  STDOUT_CHANNEL ≠ STDERR_CHANNEL -> ERROR_CHANNEL ≠ STDOUT_CHANNEL ->
  ERROR_CHANNEL ≠ STDERR_CHANNEL ->
  Forall ordinary l -> parse_error_data payload = Ok code ->
  consume (l ++ WsData (ERROR_CHANNEL :: payload) :: l') exit out err =
    Ok (code, out ++ output_of STDOUT_CHANNEL l, err ++ output_of STDERR_CHANNEL l).
Proof.
  intros H1 H2 H3 Hl Hp. revert out err. unfold output_of.
  induction l as [|m l IH]; intros out err.
  { simpl. rewrite !bool_decide_eq_false_2, bool_decide_eq_true_2, Hp by done.
    by rewrite !app_nil_r. }
  apply Forall_cons in Hl as [Hm Hl]. specialize (IH Hl).
  destruct m as [| |[|c chunk]|]; [done|done|apply IH| |apply IH].
  simpl in Hm. cbn [app consume omap list_omap].
  destruct (decide (c = STDOUT_CHANNEL)) as [->|Ho].
  { rewrite bool_decide_eq_true_2, bool_decide_eq_false_2 by done. rewrite IH.
    simpl. by rewrite <- (assoc_L (++)). }
  rewrite bool_decide_eq_false_2 by done.
  destruct (decide (c = STDERR_CHANNEL)) as [->|He].
  { rewrite bool_decide_eq_true_2 by done. rewrite IH. simpl. by rewrite <- (assoc_L (++)). }
  rewrite !bool_decide_eq_false_2 by done. apply IH.
Qed.
End k8s.

(** *** The shell of a Docker container after a timeout *)

Lemma read_frames_app l l' :
  (forall m, m ∈ l -> has_prompt m = false) ->
  read_frames (l ++ l') = let '(r, rest, found) := read_frames l' in (l ++ r, rest, found).
Proof.
  induction l as [|m l IH]; intros Hl; simpl.
  { by destruct (read_frames l') as [[r rest] found]. }
  rewrite (Hl m) by left. rewrite IH by (intros; apply Hl; by right).
  by destruct (read_frames l') as [[r rest] found].
Qed.

Lemma read_frames_found l p l' :
  (forall m, m ∈ l -> has_prompt m = false) -> has_prompt p = true ->
  read_frames (l ++ p :: l') = (l ++ [p], l', true).
Proof. intros Hl Hp. rewrite read_frames_app by done. simpl. by rewrite Hp. Qed.

Lemma join_snoc (l : list bytes) (x : bytes) : mjoin (l ++ [x]) = mjoin l ++ x.
Proof. rewrite join_app. simpl. by rewrite app_nil_r. Qed.

(** A Docker shell outlives the timeout of a command: the next command on it
    returns the late output of the one before, and leaves its own for the command
    after it. *)
Theorem late_output_is_returned (id : string) (opened : res stream) (m : streams)
    (unread0 reply : list bytes) (echo : bytes) (late : list bytes) (prompt : bytes)
    (own : list bytes) :
  m !! id = Some {| unread := unread0; closed := false |} ->
  (forall x, x ∈ unread0 ++ reply -> has_prompt x = false) ->
  (forall x, x ∈ echo :: late -> has_prompt x = false) -> has_prompt prompt = true ->
  exists m1, docker_execute_shell id opened reply m = (m1, Raise TimeoutError) ∧
  exists m2, docker_execute_shell id opened (echo :: late ++ prompt :: own) m1 =
               (m2, Ok (mjoin late ++ prompt)) ∧
    m2 !! id = Some {| unread := own; closed := false |}.
Proof.
  intros Hm Hr Hl Hp. unfold docker_execute_shell.
  assert (read_frames (unread0 ++ reply) = (unread0 ++ reply, [], false)) as Hfr.
  { pose proof (read_frames_app (unread0 ++ reply) [] Hr) as H. rewrite app_nil_r in H.
    rewrite H. simpl. by rewrite app_nil_r. }
  eexists. split.
  { rewrite bind_gets, Hm, bind_ret, bind_gets, Hm. cbn [unread closed]. rewrite Hfr.
    unfold set_stream. rewrite bind_modify. reflexivity. }
  eexists. split.
  { rewrite bind_gets, lookup_insert_eq, bind_ret, bind_gets, lookup_insert_eq.
    cbn [unread closed]. rewrite app_nil_l.
    change (echo :: late ++ prompt :: own) with ((echo :: late) ++ prompt :: own).
    rewrite read_frames_found by done.
    unfold set_stream. rewrite bind_modify, <- join_snoc. reflexivity. }
  by rewrite lookup_insert_eq.
Qed.

(** ** Concrete inputs *)

Definition ascii_bytes (s : string) : bytes := (fun c => Z.of_nat (Ascii.nat_of_ascii c)) <$> chars s.

(** An escape, a prompt and a blank at its end. *)
Definition demo_prompt : bytes := 27 :: ascii_bytes "[1mroot@box:~# ".

Example demo_has_prompt :
  has_prompt demo_prompt = true ∧ has_prompt (ascii_bytes "ls") = false ∧
  has_prompt (27 :: ascii_bytes "a@b") = false.
Proof. by vm_compute. Qed.

Lemma execute_shell_output_witness :
  exists m', execute_shell 1 2 3 (fun _ => Ok 0) "p" (Ok []) (Ok tt)
    [WsData (1 :: ascii_bytes "ls"); WsData (1 :: ascii_bytes "a"); WsData (1 :: demo_prompt)]
    TimeoutError {["p" := {| ws_closed := false; ws_unread := [] |}]} =
  (m', Ok (ascii_bytes "a" ++ demo_prompt)).
Proof.
  destruct (execute_shell_output 1 2 3 (fun _ => Ok 0) "p" (Ok [])
    {["p" := {| ws_closed := false; ws_unread := [] |}]} []
    [WsData (1 :: ascii_bytes "ls"); WsData (1 :: ascii_bytes "a"); WsData (1 :: demo_prompt)]
    TimeoutError eq_refl (lookup_singleton_eq _ _) ltac:(repeat (constructor; [discriminate|]); constructor)) as (m' & H & _).
  exists m'. exact H.
Defined.

Lemma late_output_is_returned_witness :
  exists m1 m2, docker_execute_shell "c" (Raise TimeoutError) [ascii_bytes "sleep 60"]
      {["c" := {| unread := []; closed := false |}]} = (m1, Raise TimeoutError) ∧
    docker_execute_shell "c" (Raise TimeoutError)
      [ascii_bytes "x"; ascii_bytes "late"; demo_prompt; ascii_bytes "whoami"; demo_prompt] m1 =
      (m2, Ok (ascii_bytes "late" ++ demo_prompt)).
Proof.
  destruct (late_output_is_returned "c" (Raise TimeoutError)
    {["c" := {| unread := []; closed := false |}]} [] [ascii_bytes "sleep 60"]
    (ascii_bytes "x") [ascii_bytes "late"] demo_prompt [ascii_bytes "whoami"; demo_prompt]
    (lookup_singleton_eq _ _)) as (m1 & H1 & m2 & H2 & _).
  - intros x Hx. apply elem_of_cons in Hx as [->|Hx]; [done|by apply elem_of_nil in Hx].
  - intros x Hx. apply elem_of_cons in Hx as [->|Hx]; [done|].
    apply elem_of_cons in Hx as [->|Hx]; [done|by apply elem_of_nil in Hx].
  - done.
  - exists m1, m2. split; [exact H1|exact H2].
Defined.
