(* ===== verification/Buffer.v ===== *)
(** * The rollout buffer

    Models trainer/components/buffer.py as tasks of an event loop that wait on
    two [asyncio.Event]s; [multiple] is positive, a waiting call is not
    cancelled. *)

From S2P Require Import Prelude PyVal.

Section buffer.
(** An item and its [item['group_id']]. *)
Context {item : Type} (group_id : item -> string).
Context (max_size group_size : nat).

(* trainer/components/buffer.py:9-9 Buffer.__init__ *)
Definition strict_group : bool := bool_decide (1 < group_size)%nat.

(** The calls that have not returned. *)
Inductive call : Type :=
| Adding (i : item)
| Getting (minimum multiple : nat).

Definition is_getting (c : call) : bool := match c with Getting _ _ => true | Adding _ => false end.

(** A call suspended in [wait()]; [woken] when the event has been set since. *)
Record waiter := { w_task : nat; w_call : call; woken : bool }.

(* trainer/components/buffer.py:7-14 Buffer.__init__ *)
Record buffer := {
  groups : list (string * list item);
  queue : list item;
  put_signal : bool;
  get_signal : bool;
  waiting : list waiter;
  delivered : list (list item)
}.

Definition new_buffer : buffer := {|
  groups := []; queue := []; put_signal := false; get_signal := false;
  waiting := []; delivered := []
|}.

Definition with_store (g : list (string * list item)) (q : list item) (s : buffer) : buffer :=
  {| groups := g; queue := q; put_signal := put_signal s; get_signal := get_signal s;
     waiting := waiting s; delivered := delivered s |}.
Definition with_waiting (l : list waiter) (s : buffer) : buffer :=
  {| groups := groups s; queue := queue s; put_signal := put_signal s; get_signal := get_signal s;
     waiting := l; delivered := delivered s |}.
Definition deliver (l : list item) (s : buffer) : buffer :=
  {| groups := groups s; queue := queue s; put_signal := put_signal s; get_signal := get_signal s;
     waiting := waiting s; delivered := delivered s ++ [l] |}.

(** [event.clear()] and [event.set()], of [put_signal] when [getting], of
    [get_signal] otherwise: the event the calls of that kind wait for. *)
Definition clear_signal (getting : bool) (s : buffer) : buffer :=
  {| groups := groups s; queue := queue s;
     put_signal := if getting then false else put_signal s;
     get_signal := if getting then get_signal s else false;
     waiting := waiting s; delivered := delivered s |}.
Definition set_signal (getting : bool) (s : buffer) : buffer :=
  {| groups := groups s; queue := queue s;
     put_signal := if getting then true else put_signal s;
     get_signal := if getting then get_signal s else true;
     waiting := (fun w => if bool_decide (is_getting (w_call w) = getting)
                          then {| w_task := w_task w; w_call := w_call w; woken := true |}
                          else w) <$> waiting s;
     delivered := delivered s |}.
Definition signal (getting : bool) (s : buffer) : bool :=
  if getting then put_signal s else get_signal s.

(** What [add] does once there is room. *)
(* trainer/components/buffer.py:20-31 Buffer.add *)
Definition do_add (i : item) (s : buffer) : buffer :=
  if strict_group then
    let g := dget_or (group_id i) [] (groups s) ++ [i] in
    if bool_decide (group_size ≤ length g)%nat
    then set_signal true (with_store (ddel (group_id i) (groups s)) (queue s ++ g) s)
    else with_store (dset (group_id i) g (groups s)) (queue s) s
  else set_signal true (with_store (groups s) (queue s ++ [i]) s).

(* trainer/components/buffer.py:33-35 Buffer.get *)
Definition unit_size (multiple : nat) : nat :=
  if strict_group then Nat.lcm group_size multiple else multiple.

(* trainer/components/buffer.py:37-37 Buffer.get *)
Definition available (multiple : nat) (s : buffer) : nat :=
  (length (queue s) / unit_size multiple * unit_size multiple)%nat.

(** Whether the call has to wait; what it does when it has not. *)
Definition blocked (c : call) (s : buffer) : bool :=
  match c with
  | Adding _ => bool_decide (max_size ≤ length (queue s))%nat
  | Getting minimum multiple => bool_decide (available multiple s < minimum)%nat
  end.

(* trainer/components/buffer.py:38-41 Buffer.get *)
Definition complete (c : call) (s : buffer) : buffer :=
  match c with
  | Adding i => do_add i s
  | Getting minimum multiple =>
      let length := available multiple s in
      deliver (take length (queue s))
        (set_signal false (with_store (groups s) (drop length (queue s)) s))
  end.

(** The loop of a call up to its next suspension: [wait()] returns at once when
    the event is set, and the event is cleared afterwards. *)
(* trainer/components/buffer.py:16-43 Buffer.add *)
Definition attempt (t : nat) (c : call) (s : buffer) : buffer :=
  if negb (blocked c s) then complete c s
  else
    let s := if signal (is_getting c) s then clear_signal (is_getting c) s else s in
    with_waiting (waiting s ++ [{| w_task := t; w_call := c; woken := false |}]) s.

Inductive event : Type :=
| Call (t : nat) (c : call)
| Resume (t : nat).

(** A call is made, or a woken one resumes: it clears the event and loops. *)
(* trainer/components/buffer.py:16-43 Buffer.get *)
Definition step (s : buffer) (e : event) : buffer :=
  match e with
  | Call t c =>
      if existsb (fun w => bool_decide (w_task w = t)) (waiting s) then s else attempt t c s
  | Resume t =>
      match list_find (fun w => w_task w = t ∧ woken w = true) (waiting s) with
      | Some (i, w) =>
          attempt t (w_call w)
            (clear_signal (is_getting (w_call w)) (with_waiting (delete i (waiting s)) s))
      | None => s
      end
  end.

Definition runs (l : list event) : buffer := run step new_buffer l.

(** ** Invariants *)

(** Items added so far: those of calls that are not waiting any more. *)
Fixpoint called (l : list event) (s : buffer) : list item :=
  match l with
  | [] => []
  | e :: l =>
      match e with
      | Call t (Adding i) =>
          if existsb (fun w => bool_decide (w_task w = t)) (waiting s) then [] else [i]
      | _ => []
      end ++ called l (step s e)
  end.

Definition adding (l : list waiter) : list item :=
  omap (fun w => match w_call w with Adding i => Some i | _ => None end) l.

Definition stored (s : buffer) : list item :=
  mjoin (delivered s) ++ queue s ++ mjoin ((groups s).*2) ++ adding (waiting s).

(** A list cut into complete groups. *)
Inductive whole : list item -> Prop :=
| whole_nil : whole []
| whole_cons g l k : length g = group_size -> Forall (fun i => group_id i = k) g ->
    whole l -> whole (g ++ l).

Definition grouped (l : list item) : Prop := strict_group = true -> whole l.

Record ok (s : buffer) : Prop := {
  ok_wf : dict_wf (groups s);
  ok_groups : Forall (fun kg => Forall (fun i => group_id i = kg.1) kg.2 ∧
                                (length kg.2 < group_size)%nat) (groups s);
  ok_queue : grouped (queue s);
  ok_delivered : Forall grouped (delivered s);
  ok_waiting : Forall (fun w => woken w = false -> blocked (w_call w) s = true) (waiting s)
}.

(** *** Whole groups *)

Lemma whole_app l1 l2 : whole l1 -> whole l2 -> whole (l1 ++ l2).
Proof.
  induction 1 as [|g l k Hg Hk _ IH]; intros H2; [done|].
  rewrite <- (assoc_L (++)). econstructor; eauto.
Qed.

Lemma whole_split n l :
  whole l -> whole (take (n * group_size) l) ∧ whole (drop (n * group_size) l).
Proof.
  intros Hl. revert n. induction Hl as [|g l k Hg Hk Hl IH]; intros n.
  { rewrite take_nil, drop_nil. split; constructor. }
  destruct n as [|n]; [rewrite take_0, drop_0; split; [constructor|by econstructor; eauto]|].
  destruct (IH n) as [H1 H2].
  rewrite take_app_ge, drop_app_ge by lia.
  assert ((S n * group_size - length g)%nat = (n * group_size)%nat) as -> by lia.
  split; [by econstructor; eauto|done].
Qed.

Lemma unit_size_groups multiple :
  strict_group = true -> exists m, unit_size multiple = (m * group_size)%nat.
Proof.
  intros Hs. unfold unit_size. rewrite Hs.
  destruct (Nat.divide_lcm_l group_size multiple) as [m Hm]. by exists m.
Qed.

Lemma available_groups multiple s :
  strict_group = true -> exists m, available multiple s = (m * group_size)%nat.
Proof.
  intros Hs. destruct (unit_size_groups multiple Hs) as [m Hm]. unfold available.
  rewrite Hm. eexists. by rewrite Nat.mul_assoc.
Qed.

Lemma grouped_app l1 l2 : grouped l1 -> grouped l2 -> grouped (l1 ++ l2).
Proof. intros H1 H2 Hs. apply whole_app; auto. Qed.

(** *** What blocks a call *)

Lemma blocked_grows c (s s' : buffer) :
  (length (queue s) ≤ length (queue s'))%nat -> is_getting c = false ->
  blocked c s = true -> blocked c s' = true.
Proof.
  intros Hq Hc. destruct c; [|done]. simpl. rewrite !bool_decide_eq_true. lia.
Qed.

Lemma blocked_shrinks c (s s' : buffer) :
  (length (queue s') ≤ length (queue s))%nat -> is_getting c = true ->
  blocked c s = true -> blocked c s' = true.
Proof.
  intros Hq Hc. destruct c as [|mi mu]; [done|]. simpl. rewrite !bool_decide_eq_true.
  unfold available. intros Hb.
  assert (length (queue s') / unit_size mu * unit_size mu ≤
          length (queue s) / unit_size mu * unit_size mu)%nat; [|lia].
  apply Nat.mul_le_mono_r. destruct (decide (unit_size mu = 0%nat)) as [->|]; [done|].
  by apply Nat.Div0.div_le_mono.
Qed.

Lemma blocked_same c (s s' : buffer) :
  queue s' = queue s -> blocked c s' = blocked c s.
Proof. intros Hq. destruct c; simpl; unfold available; by rewrite Hq. Qed.

Definition waiters_ok (s : buffer) : Prop :=
  Forall (fun w => woken w = false -> blocked (w_call w) s = true) (waiting s).

(** Setting an event wakes every call of its kind; the others must stay
    blocked. *)
Lemma set_signal_waiters getting (s s' : buffer) :
  waiting s' = waiting s ->
  (forall c, is_getting c ≠ getting -> blocked c s = true -> blocked c s' = true) ->
  waiters_ok s -> waiters_ok (set_signal getting s').
Proof.
  intros Hw Hb Hok. unfold waiters_ok. simpl. rewrite Hw. apply Forall_fmap.
  eapply Forall_impl; [exact Hok|]. intros w Hbw. simpl. case_bool_decide as Hk; [done|].
  intros Hf. rewrite (blocked_same _ s') by done. by apply Hb, Hbw.
Qed.

Lemma waiters_ok_same (s s' : buffer) :
  waiting s' = waiting s -> queue s' = queue s -> waiters_ok s -> waiters_ok s'.
Proof.
  intros Hw Hq Hok. unfold waiters_ok. rewrite Hw. eapply Forall_impl; [exact Hok|].
  intros w H Hf. rewrite (blocked_same _ s) by done. auto.
Qed.

(** *** Each operation keeps the invariant *)

Lemma Forall_dset_keyed {V} (P : string * V -> Prop) (k : string) v (c : list (string * V)) :
  P (k, v) -> Forall P c -> Forall P (dset k v c).
Proof.
  intros Hv. induction c as [|[k' v'] c IH]; simpl; intros Hc; [by apply Forall_singleton|].
  apply Forall_cons in Hc as [H1 H2]. destruct (decide (k = k')) as [<-|]; constructor; auto.
Qed.

Lemma Forall_ddel {V} (P : string * V -> Prop) (k : string) (c : list (string * V)) :
  Forall P c -> Forall P (ddel k c).
Proof.
  induction c as [|[k' v'] c IH]; simpl; intros Hc; [done|].
  apply Forall_cons in Hc as [H1 H2]. destruct (decide (k = k')); [done|constructor; auto].
Qed.

Lemma group_ok s k :
  ok s -> strict_group = true ->
  Forall (fun i => group_id i = k) (dget_or k [] (groups s)) ∧
  (length (dget_or k [] (groups s)) < group_size)%nat.
Proof.
  intros [_ Hg _ _ _] Hs. unfold dget_or. destruct (dget k (groups s)) as [g|] eqn:E.
  - apply dget_in in E. rewrite Forall_forall in Hg. exact (Hg _ E).
  - apply bool_decide_eq_true in Hs. split; [constructor|simpl; lia].
Qed.

Lemma do_add_ok i s : ok s -> ok (do_add i s).
Proof.
  intros Hok. pose proof Hok as [Hwf Hg Hq Hd Hw]. unfold do_add.
  destruct strict_group eqn:Hs.
  - destruct (group_ok s (group_id i) Hok Hs) as [Hsame Hlen].
    set (g := dget_or (group_id i) [] (groups s) ++ [i]).
    assert (length g = S (length (dget_or (group_id i) [] (groups s)))) as Hl
      by (unfold g; rewrite length_app; simpl; lia).
    assert (Forall (fun j => group_id j = group_id i) g) as Hgs
      by (apply Forall_app; split; [done|by apply Forall_singleton]).
    case_bool_decide as Hfull.
    + split; simpl; [by apply ddel_wf|by apply Forall_ddel| |done|].
      * apply grouped_app; [done|]. intros _. rewrite <- (app_nil_r g).
        econstructor; [lia|exact Hgs|constructor].
      * apply (set_signal_waiters true s); [done| |done]. intros c Hc. apply blocked_grows.
        { simpl. rewrite length_app. lia. }
        by destruct (is_getting c).
    + split; simpl; [by apply dset_wf| |done|done|
        exact (waiters_ok_same s (with_store (dset (group_id i) g (groups s)) (queue s) s)
                 eq_refl eq_refl Hw)].
      apply Forall_dset_keyed; [split; [done|simpl in *; lia]|done].
  - assert (forall l, grouped l) as Hall by (intros l H; congruence).
    split; simpl; [done|done|done|done|].
    apply (set_signal_waiters true s); [done| |done]. intros c Hc. apply blocked_grows.
    { simpl. rewrite length_app. lia. }
    by destruct (is_getting c).
Qed.

Lemma complete_ok c s : ok s -> ok (complete c s).
Proof.
  destruct c as [i|mi mu]; [apply do_add_ok|]. intros [Hwf Hg Hq Hd Hw].
  assert (grouped (take (available mu s) (queue s)) ∧ grouped (drop (available mu s) (queue s)))
    as [H1 H2].
  { split; intros Hs; destruct (available_groups mu s Hs) as [m Hm]; rewrite Hm;
      apply (whole_split m (queue s) (Hq Hs)). }
  split; simpl; [done|done|done|by apply Forall_app; split; [|apply Forall_singleton]|].
  apply (set_signal_waiters false s); [done| |done]. intros c Hc. apply blocked_shrinks.
  { simpl. rewrite length_drop. lia. }
  by destruct (is_getting c).
Qed.

Lemma ok_waiting_change (s s' : buffer) :
  groups s' = groups s -> queue s' = queue s -> delivered s' = delivered s ->
  waiters_ok s' -> ok s -> ok s'.
Proof. intros Hg Hq Hd Hw [H1 H2 H3 H4 H5]. split; rewrite ?Hg, ?Hq, ?Hd; done. Qed.

Lemma attempt_ok t c s : ok s -> ok (attempt t c s).
Proof.
  intros Hok. unfold attempt. destruct (blocked c s) eqn:Hb; [|by apply complete_ok].
  assert (forall s', groups s' = groups s -> queue s' = queue s -> delivered s' = delivered s ->
    waiting s' = waiting s ->
    ok (with_waiting (waiting s' ++ [{| w_task := t; w_call := c; woken := false |}]) s')) as Hk.
  { intros s' Hg Hq Hd Hw. apply (ok_waiting_change s); [done..| |done].
    unfold waiters_ok. simpl. rewrite Hw. apply Forall_app. split.
    - eapply Forall_impl; [apply Hok|]. intros w H Hf. rewrite (blocked_same _ s) by done. auto.
    - apply Forall_singleton. intros _. simpl. by rewrite (blocked_same _ s). }
  simpl. destruct (signal (is_getting c) s); by apply Hk.
Qed.

Lemma Forall_delete_lookup {X} (P : X -> Prop) l i : Forall P l -> Forall P (delete i l).
Proof.
  intros Hl. rewrite delete_take_drop. apply Forall_app. split;
    [by apply Forall_take|by apply Forall_drop].
Qed.

Lemma buffer_step_ok s e : ok s -> ok (step s e).
Proof.
  intros Hok. destruct e as [t c|t]; simpl.
  - destruct (existsb _ _); [done|by apply attempt_ok].
  - destruct (list_find _ _) as [[i w]|]; [|done]. apply attempt_ok.
    apply (ok_waiting_change s); [done..| |done].
    unfold waiters_ok. simpl. apply Forall_delete_lookup. eapply Forall_impl; [apply Hok|].
    intros w' H Hf. rewrite (blocked_same _ s) by done. auto.
Qed.

Lemma runs_ok l : ok (runs l).
Proof.
  unfold runs. apply run_invariant; [|intros; by apply buffer_step_ok].
  split; simpl; [constructor|constructor|intros _; constructor|constructor|constructor].
Qed.
(** *** Nothing is lost or duplicated *)

Lemma mjoin_ddel (k : string) (g : list (string * list item)) :
  mjoin g.*2 ≡ₚ dget_or k [] g ++ mjoin (ddel k g).*2.
Proof.
  unfold dget_or. induction g as [|[k' v] g IH]; simpl; [done|].
  destruct (decide (k = k')); [done|]. simpl. rewrite IH.
  rewrite !(assoc_L (++)). by rewrite (Permutation_app_comm v).
Qed.

Lemma mjoin_dset (k : string) v (g : list (string * list item)) :
  dget_or k [] g ++ mjoin (dset k v g).*2 ≡ₚ v ++ mjoin g.*2.
Proof.
  unfold dget_or. induction g as [|[k' v'] g IH]; simpl; [by rewrite !app_nil_r|].
  destruct (decide (k = k')); simpl.
  - by rewrite !(assoc_L (++)), (Permutation_app_comm v).
  - rewrite (Permutation_app_swap_app _ v' _), IH. by rewrite (Permutation_app_swap_app v v' _).
Qed.

Definition call_items (c : call) : list item :=
  match c with Adding i => [i] | Getting _ _ => [] end.

Lemma adding_app l1 l2 : adding (l1 ++ l2) = adding l1 ++ adding l2.
Proof. apply omap_app. Qed.

Lemma adding_set getting (s : buffer) : adding (waiting (set_signal getting s)) = adding (waiting s).
Proof.
  simpl. unfold adding. induction (waiting s) as [|w l IH]; [done|].
  cbn [fmap list_fmap omap list_omap]. rewrite <- IH. by case_bool_decide.
Qed.

Lemma stored_set getting s : stored (set_signal getting s) = stored s.
Proof. unfold stored. by rewrite adding_set. Qed.

Lemma do_add_stored i s : stored (do_add i s) ≡ₚ stored s ++ [i].
Proof.
  unfold do_add. set (g := dget_or (group_id i) [] (groups s)).
  destruct strict_group; [case_bool_decide|]; rewrite ?stored_set; unfold stored; simpl.
  - rewrite (mjoin_ddel (group_id i) (groups s)). fold g. solve_Permutation.
  - pose proof (mjoin_dset (group_id i) (g ++ [i]) (groups s)) as Hp. fold g in Hp.
    rewrite <- (assoc_L (++)) in Hp. apply (Permutation_app_inv_l g) in Hp.
    rewrite Hp. solve_Permutation.
  - solve_Permutation.
Qed.

Lemma attempt_stored t c s : stored (attempt t c s) ≡ₚ stored s ++ call_items c.
Proof.
  unfold attempt. destruct (blocked c s).
  - simpl. assert (forall s' : buffer, delivered s' = delivered s -> queue s' = queue s ->
      groups s' = groups s -> waiting s' = waiting s ->
      stored (with_waiting (waiting s' ++ [{| w_task := t; w_call := c; woken := false |}]) s')
        ≡ₚ stored s ++ call_items c) as Hk.
    { intros s' H1 H2 H3 H4. unfold stored; simpl. rewrite adding_app, H1, H2, H3, H4.
      rewrite !(assoc_L (++)). by destruct c. }
    destruct (signal (is_getting c) s); by apply Hk.
  - simpl. destruct c as [i|mi mu]; [apply do_add_stored|].
    simpl. unfold stored, deliver. cbn [delivered queue groups waiting].
    rewrite adding_set. simpl. rewrite join_app. simpl.
    rewrite !app_nil_r, <- !(assoc_L (++)). by rewrite (assoc_L (++) (take _ _)), take_drop.
Qed.

Lemma step_stored s e : stored (step s e) ≡ₚ stored s ++ called [e] s.
Proof.
  destruct e as [t c|t]; simpl.
  - rewrite app_nil_r. destruct (existsb _ _); [destruct c; by rewrite app_nil_r|].
    rewrite attempt_stored. by destruct c.
  - rewrite app_nil_r. destruct (list_find _ _) as [[i w]|] eqn:E; [|done].
    rewrite attempt_stored. apply list_find_Some in E as (Hi & _ & _).
    assert (adding (waiting s) ≡ₚ adding (delete i (waiting s)) ++ call_items (w_call w)) as Hp.
    { apply take_drop_middle in Hi. rewrite <- Hi at 1. rewrite delete_take_drop, !adding_app.
      change (w :: drop (S i) (waiting s)) with ([w] ++ drop (S i) (waiting s)).
      rewrite adding_app. unfold adding at 2; simpl. destruct (w_call w); simpl; solve_Permutation. }
    unfold stored; simpl. rewrite Hp. solve_Permutation.
Qed.

Lemma runs_stored l : stored (runs l) ≡ₚ called l new_buffer.
Proof.
  assert (forall s, stored (run step s l) ≡ₚ stored s ++ called l s) as Hgen; [|apply Hgen].
  induction l as [|e l IH]; intros s; simpl; [by rewrite app_nil_r|].
  change (called (e :: l) s) with (called [e] s ++ called l (step s e)) in *.
  rewrite IH, step_stored. cbn [called]. rewrite app_nil_r. by rewrite <- (assoc_L (++)).
Qed.

(** C20: in every interleaving of calls and wake-ups the items delivered, queued,
    grouped and waiting to be added are together exactly the items added; with
    groups, the queue and every delivery consist of whole groups, and what is kept
    aside are incomplete ones. *)
Theorem buffer_keeps_groups (l : list event) :
  let s := runs l in
  mjoin (delivered s) ++ queue s ++ mjoin (groups s).*2 ++ adding (waiting s)
    ≡ₚ called l new_buffer ∧
  (strict_group = true -> Forall whole (delivered s) ∧ whole (queue s) ∧
     Forall (fun kg => Forall (fun i => group_id i = kg.1) kg.2 ∧
                       (length kg.2 < group_size)%nat) (groups s)).
Proof.
  simpl. split; [apply runs_stored|]. intros Hs. destruct (runs_ok l) as [_ Hg Hq Hd _].
  split_and!; [|by apply Hq|done]. eapply Forall_impl; [exact Hd|]. intros x Hx. by apply Hx.
Qed.

(** No wake-up is lost: a call that waits and has not been woken waits for good
    reason, an addition for room in a full queue, a retrieval for items that are not
    there. *)
Theorem buffer_no_lost_wakeup (l : list event) :
  let s := runs l in
  Forall (fun w => woken w = false ->
    match w_call w with
    | Adding _ => (max_size ≤ length (queue s))%nat
    | Getting minimum multiple => (available multiple s < minimum)%nat
    end) (waiting s).
Proof.
  simpl. destruct (runs_ok l) as [_ _ _ _ Hw]. eapply Forall_impl; [exact Hw|].
  intros w H Hf. specialize (H Hf). destruct (w_call w); simpl in H; by apply bool_decide_eq_true in H.
Qed.
End buffer.
