(* ===== verification/TaskManager.v ===== *)
(** * Task managers of the trainer

    Models trainer/components/task_manager.py: the local manager, whose workers
    are tasks of one event loop, and the distributed one, whose workers are Ray
    tasks.  Both feed items from a bounded queue through a function to the
    rollout buffer and count what is pending.  Every stretch between two
    suspensions is one event; a worker waits in the queue's [get] or in the
    buffer's [add]. *)

From S2P Require Import Prelude PyVal Buffer.

Inductive kind : Type := Local | Distributed.

Section manager.
Context {item result : Type} (group_id : item -> string) (update : item -> result -> item).
Context (k : kind) (max_queue_size max_buffer_size buffer_group_size num_workers : nat).

#[local] Abbreviation buf_step := (Buffer.step group_id max_buffer_size buffer_group_size).

(** A worker that was created, waits in [queue.get], runs the task function,
    waits in [buffer.add], or has returned. *)
Inductive worker : Type :=
| Created
| AtGet
| Running (i : item)
| InAdd
| Exited.

(** The items in the queue, those whose [put] waits for room, the workers, the
    buffer, [_pending_count], [_stop_signal] and [_started]; then what has
    happened: the items a full queue refused, the failed ones, and the results
    that [get] has returned. *)
(* trainer/components/task_manager.py:34-42 LocalTaskManager.__init__ *)
Record manager := {
  m_queue : list item;
  putters : list item;
  workers : list worker;
  buf : buffer (item := item);
  pending_count : Z;
  stop_signal : bool;
  started : bool;
  refused : list item;
  failed : list item;
  got : list (list item)
}.

Definition new_manager : manager := {|
  m_queue := []; putters := []; workers := []; buf := new_buffer; pending_count := 0;
  stop_signal := false; started := false; refused := []; failed := []; got := []
|}.

Definition with_queue (q : list item) (s : manager) : manager :=
  {| m_queue := q; putters := putters s; workers := workers s; buf := buf s;
     pending_count := pending_count s; stop_signal := stop_signal s; started := started s;
     refused := refused s; failed := failed s; got := got s |}.
Definition with_putters (l : list item) (s : manager) : manager :=
  {| m_queue := m_queue s; putters := l; workers := workers s; buf := buf s;
     pending_count := pending_count s; stop_signal := stop_signal s; started := started s;
     refused := refused s; failed := failed s; got := got s |}.
Definition with_workers (l : list worker) (s : manager) : manager :=
  {| m_queue := m_queue s; putters := putters s; workers := l; buf := buf s;
     pending_count := pending_count s; stop_signal := stop_signal s; started := started s;
     refused := refused s; failed := failed s; got := got s |}.
Definition with_buf (b : buffer) (s : manager) : manager :=
  {| m_queue := m_queue s; putters := putters s; workers := workers s; buf := b;
     pending_count := pending_count s; stop_signal := stop_signal s; started := started s;
     refused := refused s; failed := failed s; got := got s |}.
Definition with_pending (n : Z) (s : manager) : manager :=
  {| m_queue := m_queue s; putters := putters s; workers := workers s; buf := buf s;
     pending_count := n; stop_signal := stop_signal s; started := started s;
     refused := refused s; failed := failed s; got := got s |}.
Definition with_flags (stop_signal started : bool) (s : manager) : manager :=
  {| m_queue := m_queue s; putters := putters s; workers := workers s; buf := buf s;
     pending_count := pending_count s; stop_signal := stop_signal; started := started;
     refused := refused s; failed := failed s; got := got s |}.
Definition with_history (refused failed : list item) (got : list (list item)) (s : manager) : manager :=
  {| m_queue := m_queue s; putters := putters s; workers := workers s; buf := buf s;
     pending_count := pending_count s; stop_signal := stop_signal s; started := started s;
     refused := refused; failed := failed; got := got |}.

Definition set_worker (w : nat) (x : worker) (s : manager) : manager :=
  with_workers (<[w := x]> (workers s)) s.

(** [queue.full()] of a queue with a maximal size; zero is no maximum. *)
Definition full (s : manager) : bool :=
  bool_decide (0 < max_queue_size ∧ max_queue_size ≤ length (m_queue s))%nat.

(** A call of the buffer that has not returned. *)
Definition waits (id : nat) (b : buffer (item := item)) : bool :=
  existsb (fun w => bool_decide (w_task w = id)) (waiting b).

(** The numbers of the calls a worker, [get] and [get_all] make. *)
Definition add_id (w : nat) : nat := 3 * w.
Definition get_id (t : nat) : nat := 3 * t + 1.
Definition get_all_id (t : nat) : nat := 3 * t + 2.

(** ** Workers *)

(** The worker takes an item or waits for one. *)
(* trainer/components/task_manager.py:46-46 LocalTaskManager._worker *)
Definition take_item (w : nat) (s : manager) : manager :=
  match m_queue s with
  | i :: q => set_worker w (Running i) (with_queue q s)
  | [] => set_worker w AtGet s
  end.

(** The head of the loop: a distributed worker never stops. *)
(* trainer/components/task_manager.py:45-46 LocalTaskManager._worker *)
Definition loop_top (w : nat) (s : manager) : manager :=
  match k with
  | Local => if stop_signal s then set_worker w Exited s else take_item w s
  | Distributed => take_item w s
  end.

(** Only a local worker counts what it has finished. *)
Definition count_down (s : manager) : manager :=
  match k with Local => with_pending (pending_count s - 1) s | Distributed => s end.

(** After a step of the worker's [buffer.add]. *)
(* trainer/components/task_manager.py:57-58 LocalTaskManager._worker *)
Definition after_add (w : nat) (b : buffer) (s : manager) : manager :=
  let s := with_buf b s in
  if waits (add_id w) b then set_worker w InAdd s else loop_top w (count_down s).

Inductive outcome : Type :=
| Failed
| NoResult
| Result (r : result).

(** The task function has ended. *)
(* trainer/components/task_manager.py:47-58 LocalTaskManager._worker *)
Definition task_done (w : nat) (i : item) (o : outcome) (s : manager) : manager :=
  match o with
  | Failed | NoResult =>
      loop_top w (count_down (with_history (refused s) (failed s ++ [i]) (got s) s))
  | Result r =>
      after_add w (buf_step (buf s) (Call (add_id w) (Adding (update i r)))) s
  end.

(** A worker runs on from where it waits. *)
(* trainer/components/task_manager.py:105-124 distributed_worker *)
Definition wake (w : nat) (s : manager) : manager :=
  match workers s !! w with
  | Some Created => loop_top w s
  | Some AtGet => take_item w s
  | Some InAdd => after_add w (buf_step (buf s) (Resume (add_id w))) s
  | _ => s
  end.

(** ** Calls *)

(* trainer/components/task_manager.py:60-70 LocalTaskManager.start *)
Definition start (s : manager) : manager :=
  if started s then s
  else with_flags (match k with Local => false | Distributed => stop_signal s end) true
         (with_workers (workers s ++ replicate num_workers Created) s).

(* trainer/components/task_manager.py:72-74 LocalTaskManager.put *)
Definition put (i : item) (s : manager) : manager :=
  let s := with_pending (pending_count s + 1) s in
  if full s then with_putters (putters s ++ [i]) s else with_queue (m_queue s ++ [i]) s.

(** [put_nowait] of a full queue raises [QueueFull]; Ray's [put] waits. *)
(* trainer/components/task_manager.py:76-78 LocalTaskManager.put_nowait *)
Definition put_nowait (i : item) (s : manager) : manager :=
  match k with
  | Local =>
      let s := with_pending (pending_count s + 1) s in
      if full s then with_history (refused s ++ [i]) (failed s) (got s) s
      else with_queue (m_queue s ++ [i]) s
  | Distributed => put i s
  end.

(** A [put] that waits looks again whether there is room. *)
Definition admit_put (n : nat) (s : manager) : manager :=
  match putters s !! n with
  | Some i =>
      if full s then s
      else with_queue (m_queue s ++ [i]) (with_putters (delete n (putters s)) s)
  | None => s
  end.

(* trainer/components/task_manager.py:80-83 LocalTaskManager.get *)
Definition after_get (t : nat) (b : buffer) (s : manager) : manager :=
  let s := with_buf b s in
  if waits (get_id t) b then s
  else
    let results := default [] (last (delivered b)) in
    with_pending (pending_count s - Z.of_nat (length results))
      (with_history (refused s) (failed s) (got s ++ [results]) s).

(** Only the distributed manager resets the count. *)
(* trainer/components/task_manager.py:169-172 DistributedTaskManager.get_all *)
Definition after_get_all (t : nat) (b : buffer) (s : manager) : manager :=
  let s := with_buf b s in
  if waits (get_all_id t) b then s
  else match k with Local => s | Distributed => with_pending 0 s end.

(** A negative minimum is one of zero. *)
(* trainer/components/task_manager.py:92-94 LocalTaskManager.get_all *)
Definition get_all (t : nat) (s : manager) : manager :=
  if waits (get_all_id t) (buf s) then s
  else after_get_all t
         (buf_step (buf s) (Call (get_all_id t) (Getting (Z.to_nat (pending_count s)) 1))) s.

(* trainer/components/task_manager.py:80-83 LocalTaskManager.get *)
Definition get_items (t minimum multiple : nat) (s : manager) : manager :=
  if waits (get_id t) (buf s) then s
  else after_get t (buf_step (buf s) (Call (get_id t) (Getting minimum multiple))) s.

(* trainer/components/task_manager.py:85-86 LocalTaskManager.stop *)
Definition stop (s : manager) : manager :=
  match k with Local => with_flags true (started s) s | Distributed => with_flags (stop_signal s) false s end.

(** [stop] returns once every worker has. *)
(* trainer/components/task_manager.py:87-90 LocalTaskManager.stop *)
Definition stop_returns (s : manager) : manager :=
  match k with
  | Local =>
      if stop_signal s && forallb (fun w => match w with Exited => true | _ => false end) (workers s)
      then with_flags (stop_signal s) false (with_workers [] s) else s
  | Distributed => s
  end.

Inductive event : Type :=
| Put (i : item)
| PutNowait (i : item)
| AdmitPut (n : nat)
| Wake (w : nat)
| TaskDone (w : nat) (o : outcome)
| Get (t minimum multiple : nat)
| GetResume (t : nat)
| GetAll (t : nat)
| GetAllResume (t : nat)
| Start
| Stop
| StopReturns.

(* trainer/components/task_manager.py:24-102 LocalTaskManager *)
Definition mstep (s : manager) (e : event) : manager :=
  match e with
  | Put i => put i s
  | PutNowait i => put_nowait i s
  | AdmitPut n => admit_put n s
  | Wake w => wake w s
  | TaskDone w o => match workers s !! w with Some (Running i) => task_done w i o s | _ => s end
  | Get t mi mu => get_items t mi mu s
  | GetResume t =>
      if waits (get_id t) (buf s) then after_get t (buf_step (buf s) (Resume (get_id t))) s else s
  | GetAll t => get_all t s
  | GetAllResume t =>
      if waits (get_all_id t) (buf s)
      then after_get_all t (buf_step (buf s) (Resume (get_all_id t))) s else s
  | Start => start s
  | Stop => stop s
  | StopReturns => stop_returns s
  end.

Definition mruns (l : list event) : manager := run mstep new_manager l.

(** ** The count *)

(** The items in the queue, waiting for room in it, and with the workers;
    [a] is 1 to count those that wait for room in the buffer too. *)
Definition weight (a : nat) (w : worker) : nat :=
  match w with Running _ => 1 | InAdd => a | _ => 0 end.
Definition flight (a : nat) (s : manager) : nat :=
  length (m_queue s) + length (putters s) + list_sum (weight a <$> workers s).

Lemma list_sum_insert (f : worker -> nat) w x y l :
  l !! w = Some y -> (list_sum (f <$> <[w := x]> l) + f y = list_sum (f <$> l) + f x)%nat.
Proof.
  revert w. induction l as [|z l IH]; intros [|w] H; simplify_eq/=; [lia|].
  specialize (IH _ H). lia.
Qed.

(** *** Steps of the buffer *)

Definition pairs (b : buffer (item := item)) : list (nat * call (item := item)) :=
  (fun x => (w_task x, w_call x)) <$> waiting b.
Definition out (c : call (item := item)) (b : buffer (item := item)) : list (list item) :=
  match c with
  | Adding _ => []
  | Getting _ multiple => [take (available buffer_group_size multiple b) (Buffer.queue b)]
  end.
#[local] Abbreviation is_blocked := (blocked max_buffer_size buffer_group_size).

Lemma waits_pairs id b : waits id b = true ↔ id ∈ (pairs b).*1.
Proof.
  unfold waits, pairs. induction (waiting b) as [|x l IH]; simpl.
  - split; [done|by intros ?%elem_of_nil].
  - rewrite orb_true_iff, IH, bool_decide_eq_true, elem_of_cons. naive_solver.
Qed.

Lemma pairs_set getting (b : buffer (item := item)) : pairs (set_signal getting b) = pairs b.
Proof.
  unfold pairs. simpl. rewrite <- list_fmap_compose. apply list_fmap_ext. intros i x _. simpl.
  by case_bool_decide.
Qed.

Lemma complete_pairs c b : pairs (complete group_id buffer_group_size c b) = pairs b.
Proof.
  destruct c as [i|mi mu]; simpl.
  - unfold do_add. by repeat case_match; rewrite ?pairs_set.
  - unfold pairs, deliver. simpl. apply (pairs_set false).
Qed.

Lemma complete_delivered c b :
  delivered (complete group_id buffer_group_size c b) = delivered b ++ out c b.
Proof.
  destruct c as [i|mi mu]; simpl; [|done]. unfold do_add. rewrite app_nil_r. by repeat case_match.
Qed.

Lemma attempt_spec id c b :
  let b' := attempt group_id max_buffer_size buffer_group_size id c b in
  pairs b' = pairs b ++ (if is_blocked c b then [(id, c)] else []) ∧
  delivered b' = delivered b ++ (if is_blocked c b then [] else out c b).
Proof.
  simpl. unfold attempt. destruct (is_blocked c b); simpl.
  - rewrite app_nil_r. unfold pairs.
    destruct (signal (is_getting c) b); simpl; by rewrite fmap_app.
  - by rewrite complete_pairs, complete_delivered, app_nil_r.
Qed.

Lemma call_spec id c b : waits id b = false ->
  let b' := buf_step b (Call id c) in
  pairs b' = pairs b ++ (if is_blocked c b then [(id, c)] else []) ∧
  delivered b' = delivered b ++ (if is_blocked c b then [] else out c b).
Proof. intros Hw. simpl. unfold waits in Hw. rewrite Hw. apply attempt_spec. Qed.

Lemma resume_spec id b :
  let b' := buf_step b (Resume id) in
  b' = b ∨ exists i c, pairs b !! i = Some (id, c) ∧
    pairs b' = delete i (pairs b) ++ (if is_blocked c b then [(id, c)] else []) ∧
    delivered b' = delivered b ++ (if is_blocked c b then [] else out c b).
Proof.
  simpl. destruct (list_find _ (waiting b)) as [[i w]|] eqn:E; [right|by left].
  apply list_find_Some in E as (Hi & [Ht _] & _). exists i, (w_call w).
  destruct (attempt_spec id (w_call w)
    (clear_signal (is_getting (w_call w)) (Buffer.with_waiting (delete i (waiting b)) b))) as [Hp Hd].
  split_and!.
  - unfold pairs. by rewrite list_lookup_fmap, Hi, <- Ht.
  - rewrite Hp. f_equal. unfold pairs. simpl. by rewrite list_fmap_delete.
  - rewrite Hd. simpl. by destruct (w_call w).
Qed.

(** Items in the buffer that have not been delivered. *)
Definition live (b : buffer (item := item)) : nat :=
  length (Buffer.queue b) + length (mjoin (groups b).*2) + length (adding (waiting b)).

Lemma live_stored b : length (stored b) = (length (mjoin (delivered b)) + live b)%nat.
Proof. unfold stored, live. rewrite !length_app. lia. Qed.

Lemma live_call id c b : waits id b = false ->
  let b' := buf_step b (Call id c) in
  (live b' + length (mjoin (if is_blocked c b then [] else out c b)) =
   live b + length (call_items c))%nat.
Proof.
  intros Hw b'. destruct (call_spec id c b Hw) as [_ Hd]. fold b' in Hd.
  pose proof (step_stored group_id max_buffer_size buffer_group_size b (Call id c)) as Hs.
  apply Permutation_length in Hs. fold b' in Hs. rewrite length_app, !live_stored, Hd in Hs.
  cbn [called] in Hs. unfold waits in Hw.
  rewrite join_app, length_app in Hs.
  destruct c as [i|mi mu]; rewrite ?Hw in Hs; simpl in *; lia.
Qed.

Lemma live_resume id b :
  let b' := buf_step b (Resume id) in
  (live b' + length (mjoin (delivered b')) = live b + length (mjoin (delivered b)))%nat.
Proof.
  intros b'. pose proof (step_stored group_id max_buffer_size buffer_group_size b (Resume id)) as Hs.
  apply Permutation_length in Hs. fold b' in Hs. rewrite length_app, !live_stored in Hs.
  simpl in Hs. lia.
Qed.

(** *** Steps of the manager *)

(** Nothing but the queue and the workers has changed. *)
Definition frame (s s' : manager) : Prop :=
  putters s' = putters s ∧ buf s' = buf s ∧ pending_count s' = pending_count s ∧
  refused s' = refused s ∧ failed s' = failed s ∧ got s' = got s.

Lemma take_item_spec w x s : workers s !! w = Some x ->
  let s' := take_item w s in
  frame s s' ∧ (forall a, (flight a s' + weight a x = flight a s)%nat) ∧
  exists y, workers s' = <[w := y]> (workers s) ∧ y ≠ InAdd.
Proof.
  intros Hx. unfold take_item. destruct (m_queue s) as [|i q] eqn:Hq; simpl.
  - split; [done|]. split; [|by exists AtGet]. intros a. unfold flight. simpl.
    pose proof (list_sum_insert (weight a) w AtGet x _ Hx) as Hs. simpl in Hs. lia.
  - split; [done|]. split; [|by exists (Running i)]. intros a. unfold flight. simpl.
    pose proof (list_sum_insert (weight a) w (Running i) x _ Hx) as Hs. simpl in Hs. rewrite Hq. simpl. lia.
Qed.

Lemma loop_top_spec w x s : workers s !! w = Some x ->
  let s' := loop_top w s in
  frame s s' ∧ (forall a, (flight a s' + weight a x = flight a s)%nat) ∧
  exists y, workers s' = <[w := y]> (workers s) ∧ y ≠ InAdd.
Proof.
  intros Hx. unfold loop_top. destruct k; [|by apply take_item_spec].
  destruct (stop_signal s); [|by apply take_item_spec]. simpl.
  split; [done|]. split; [|by exists Exited]. intros a. unfold flight. simpl.
  pose proof (list_sum_insert (weight a) w Exited x _ Hx) as Hs. simpl in Hs. lia.
Qed.

Lemma count_down_flight a s : flight a (count_down s) = flight a s.
Proof. unfold count_down. by destruct k. Qed.

(** What [get] has returned so far, in items. *)
Definition taken (s : manager) : Z := Z.of_nat (length (mjoin (got s))).
Definition counted (s : manager) : Prop :=
  pending_count s = Z.of_nat (flight 1 s) + Z.of_nat (length (refused s)) - taken s.

Lemma counted_frame s s' n : counted s -> frame s s' ->
  (flight 1 s' + n = flight 1 s)%nat -> counted (with_pending (pending_count s' - Z.of_nat n) s').
Proof.
  unfold counted, taken. intros Hc (H1 & H2 & H3 & H4 & H5 & H6) Hf. simpl.
  change (flight 1 (with_pending _ s')) with (flight 1 s'). rewrite H3, H4, H6. lia.
Qed.

(** A local worker that ends an item counts it. *)
Lemma counted_finish w x s s0 :
  k = Local -> workers s0 !! w = Some x -> weight 1 x = 1%nat -> counted s ->
  flight 1 s0 = flight 1 s -> pending_count s0 = pending_count s -> refused s0 = refused s ->
  got s0 = got s -> counted (loop_top w (count_down s0)).
Proof.
  intros Hk Hx Hw Hc Hf Hp Hr Hg. unfold count_down. rewrite Hk.
  destruct (loop_top_spec w x (with_pending (pending_count s0 - 1) s0) Hx)
    as ((_ & _ & H3 & H4 & _ & H6) & Hfl & _). specialize (Hfl 1%nat).
  unfold counted, taken in *. rewrite H3, H4, H6. simpl.
  change (flight 1 (with_pending _ s0)) with (flight 1 s0) in Hfl. rewrite Hp in *.
  rewrite Hr, Hg. lia.
Qed.

Lemma counted_after_add w x b s :
  k = Local -> workers s !! w = Some x -> weight 1 x = 1%nat -> counted s ->
  counted (after_add w b s).
Proof.
  intros Hk Hx Hw Hc. unfold after_add. destruct (waits (add_id w) b).
  - unfold counted, taken, flight in *. simpl.
    pose proof (list_sum_insert (weight 1) w InAdd x _ Hx) as Hs. simpl in Hs. lia.
  - by eapply (counted_finish w x s).
Qed.

Lemma counted_step s e : k = Local -> counted s -> counted (mstep s e).
Proof.
  intros Hk Hc. destruct e as [i|i|n|w|w o|t mi mu|t|t|t| | |]; simpl.
  - unfold put, counted, taken, flight in *. case_match; simpl; rewrite length_app; simpl; lia.
  - unfold put_nowait. rewrite Hk. unfold counted, taken, flight in *.
    case_match; simpl; rewrite length_app; simpl; lia.
  - unfold admit_put. destruct (putters s !! n) as [i|] eqn:Hn; [|done]. case_match; [done|].
    unfold counted, taken, flight in *. simpl.
    rewrite length_app, length_delete by (by eexists). simpl. apply lookup_lt_Some in Hn. lia.
  - unfold wake. destruct (workers s !! w) as [x|] eqn:Hx; [|done].
    destruct x; try done.
    + destruct (loop_top_spec w _ s Hx) as ((_ & _ & H3 & H4 & _ & H6) & Hf & _).
      specialize (Hf 1%nat). unfold counted, taken in *. rewrite H3, H4, H6. simpl in Hf. lia.
    + destruct (take_item_spec w _ s Hx) as ((_ & _ & H3 & H4 & _ & H6) & Hf & _).
      specialize (Hf 1%nat). unfold counted, taken in *. rewrite H3, H4, H6. simpl in Hf. lia.
    + by eapply counted_after_add.
  - destruct (workers s !! w) as [x|] eqn:Hx; [|done]. destruct x as [| |i| |]; try done.
    unfold task_done. destruct o as [| |r]; [..|by eapply counted_after_add];
      by eapply (counted_finish w _ s).
  - unfold get_items, after_get. case_match; [done|]. case_match; [done|].
    unfold counted, taken in *. simpl. rewrite join_app, length_app. simpl.
    rewrite app_nil_r. change (flight 1 _) with (flight 1 s). lia.
  - case_match; [|done]. unfold after_get. case_match; [done|].
    unfold counted, taken in *. simpl. rewrite join_app, length_app. simpl.
    rewrite app_nil_r. change (flight 1 _) with (flight 1 s). lia.
  - unfold get_all, after_get_all. rewrite Hk. by repeat case_match.
  - unfold after_get_all. rewrite Hk. by repeat case_match.
  - unfold start. rewrite Hk. case_match; [done|]. unfold counted, taken, flight in *. simpl.
    rewrite fmap_app, fmap_replicate, list_sum_app. simpl.
    assert (list_sum (replicate num_workers 0%nat) = 0%nat) as ->; [|lia].
    clear. by induction num_workers.
  - unfold stop. by rewrite Hk.
  - unfold stop_returns. rewrite Hk. case_match; [|done].
    match goal with H : _ && _ = true |- _ => apply andb_true_iff in H as [_ Hall] end.
    unfold counted, taken, flight in *. simpl.
    assert (list_sum (weight 1 <$> workers s) = 0%nat); [|lia].
    clear Hc. induction (workers s) as [|x l IH]; [done|]. simpl in *.
    apply andb_true_iff in Hall as [Hx Hl]. specialize (IH Hl). by destruct x.
Qed.

(** C27: in every interleaving the local manager's count is what is queued, waits
    for room or is with a worker, plus what a full queue refused, minus everything
    get has returned: an item that was got is counted down twice. *)
Theorem local_pending l :
  k = Local ->
  let s := mruns l in
  pending_count s =
    Z.of_nat (length (m_queue s) + length (putters s)
              + list_sum ((fun w => match w with Running _ | InAdd => 1%nat | _ => 0%nat end) <$> workers s))
    + Z.of_nat (length (refused s)) - Z.of_nat (length (mjoin (got s))).
Proof.
  intros Hk. assert (Hc : counted (mruns l)).
  { unfold mruns. apply run_invariant; [done|]. intros. by apply counted_step. }
  exact Hc.
Qed.

(** ** Calls of the buffer that wait *)

(** One call per number; the numbers of [add] are the multiples of three. *)
Definition buf_ok (b : buffer (item := item)) : Prop :=
  NoDup (pairs b).*1 ∧
  forall id c, (id, c) ∈ pairs b -> is_getting c = negb (bool_decide (id mod 3 = 0)%nat).

Lemma elem_of_delete {A} (x : A) i (l : list A) : x ∈ delete i l -> x ∈ l.
Proof.
  rewrite delete_take_drop, elem_of_app. intros [H|H]; apply list_elem_of_lookup in H as [j Hj];
    [rewrite lookup_take_Some in Hj; destruct Hj|rewrite lookup_drop in Hj];
    by eapply list_elem_of_lookup_2.
Qed.

Lemma waits_false id b : waits id b = false ↔ id ∉ (pairs b).*1.
Proof. rewrite <- waits_pairs. by destruct (waits id b). Qed.

Lemma waits_call id' id c b : waits id b = false ->
  waits id' (buf_step b (Call id c)) = true -> waits id' b = true ∨ id' = id.
Proof.
  intros Hw. rewrite !waits_pairs. destruct (call_spec id c b Hw) as [-> _].
  rewrite fmap_app, elem_of_app. intros [H|H]; [by left|].
  destruct (is_blocked c b); [|by apply elem_of_nil in H].
  apply list_elem_of_singleton in H. by right.
Qed.

Lemma fst_delete i (l : list (nat * call (item := item))) : (delete i l).*1 = delete i l.*1.
Proof. apply list_fmap_delete. Qed.

Lemma waits_resume id' id b : waits id' (buf_step b (Resume id)) = true -> waits id' b = true.
Proof.
  rewrite !waits_pairs.
  destruct (resume_spec id b) as [->|(i & c & Hi & -> & _)]; [done|].
  assert (Hin : id ∈ (pairs b).*1).
  { apply list_elem_of_fmap. exists (id, c). split; [done|by eapply list_elem_of_lookup_2]. }
  rewrite fmap_app, fst_delete, elem_of_app. intros [H|H].
  - by eapply elem_of_delete.
  - destruct (is_blocked c b); [|by apply elem_of_nil in H].
    by apply list_elem_of_singleton in H as ->.
Qed.

Lemma NoDup_delete_lookup {A} (l : list A) i x : NoDup l -> l !! i = Some x ->
  NoDup (delete i l) ∧ x ∉ delete i l.
Proof.
  intros Hn Hi. rewrite delete_take_drop. rewrite <- (take_drop_middle l i x Hi) in Hn.
  apply NoDup_app in Hn as (H1 & H2 & [H3 H4]%NoDup_cons). split.
  - apply NoDup_app. split_and!; [done| |done]. intros y Hy Hy'. apply (H2 y Hy). by right.
  - rewrite elem_of_app. intros [Hx|Hx]; [|done]. apply (H2 x Hx). left.
Qed.

Lemma buf_ok_call id c b : buf_ok b -> waits id b = false ->
  is_getting c = negb (bool_decide (id mod 3 = 0)%nat) -> buf_ok (buf_step b (Call id c)).
Proof.
  intros [Hn Hk] Hw Hc. destruct (call_spec id c b Hw) as [Hp _]. unfold buf_ok. rewrite Hp.
  apply waits_false in Hw. destruct (is_blocked c b); rewrite ?app_nil_r; [|done]. split.
  - rewrite fmap_app. apply NoDup_app. split_and!; [done| |apply NoDup_singleton].
    intros x Hx ->%list_elem_of_singleton. done.
  - intros id' c' [H|H]%elem_of_app; [by apply Hk|].
    apply list_elem_of_singleton in H as [= -> ->]. done.
Qed.

Lemma buf_ok_resume id b : buf_ok b -> buf_ok (buf_step b (Resume id)).
Proof.
  intros [Hn Hk]. unfold buf_ok.
  destruct (resume_spec id b) as [->|(i & c & Hi & -> & _)]; [done|].
  assert (Hi' : (pairs b).*1 !! i = Some id) by (by rewrite list_lookup_fmap, Hi).
  destruct (NoDup_delete_lookup _ _ _ Hn Hi') as [Hd Hni]. rewrite <- fst_delete in *.
  assert (Hin : forall id' c', (id', c') ∈ delete i (pairs b) -> (id', c') ∈ pairs b).
  { intros id' c'. apply elem_of_delete. }
  destruct (is_blocked c b); rewrite ?app_nil_r; split.
  - rewrite fmap_app. apply NoDup_app. split_and!; [done| |apply NoDup_singleton].
    intros x Hx ->%list_elem_of_singleton. done.
  - intros id' c' [H|H]%elem_of_app; [by apply Hk, Hin|].
    apply list_elem_of_singleton in H as [= -> ->]. eapply Hk, list_elem_of_lookup_2, Hi.
  - done.
  - intros id' c' H. by apply Hk, Hin.
Qed.

(** What a call that is made, or one that resumes, does: it waits on, or it
    returns and what it takes has left the buffer. *)
Definition served (id items : nat) (b b' : buffer (item := item)) : Prop :=
  (waits id b' = true ∧ live b' = (live b + items)%nat ∧ delivered b' = delivered b) ∨
  (waits id b' = false ∧ exists r, (if bool_decide (id mod 3 = 0)%nat then r = [] else exists x, r = [x]) ∧
     (live b' + length (mjoin r) = live b + items)%nat ∧ delivered b' = delivered b ++ r).

Lemma out_kind id c b : is_getting c = negb (bool_decide (id mod 3 = 0)%nat) ->
  if bool_decide (id mod 3 = 0)%nat then out c b = [] else exists x, out c b = [x].
Proof. case_bool_decide; destruct c; simpl; try done; eauto. Qed.

Lemma served_call id c b : buf_ok b -> waits id b = false ->
  is_getting c = negb (bool_decide (id mod 3 = 0)%nat) ->
  served id (length (call_items c)) b (buf_step b (Call id c)).
Proof.
  intros Hb Hw Hc. destruct (call_spec id c b Hw) as [Hp Hd].
  pose proof (live_call id c b Hw) as Hl. cbv zeta in Hl. apply waits_false in Hw as Hw'.
  destruct (is_blocked c b); [left|right].
  - split_and!; [|change (length (mjoin (@nil (list item)))) with 0%nat in Hl; lia|by rewrite Hd, app_nil_r].
    rewrite waits_pairs, Hp, fmap_app. apply elem_of_app. right. left.
  - split; [rewrite waits_false, Hp, app_nil_r; done|]. exists (out c b).
    split_and!; [by apply out_kind|done..].
Qed.

Lemma served_resume id b : buf_ok b -> waits id b = true ∨ (id mod 3 = 0)%nat ->
  served id 0 b (buf_step b (Resume id)).
Proof.
  intros [Hn Hk] Hw. pose proof (live_resume id b) as Hl. cbv zeta in Hl.
  destruct (resume_spec id b) as [Hb|(i & c & Hi & Hp & Hd)].
  { rewrite Hb. destruct (waits id b) eqn:E; [left; by rewrite Nat.add_0_r|right].
    destruct Hw as [|Hw]; [congruence|]. split; [done|]. exists [].
    rewrite bool_decide_true by done. split_and!; [done|simpl; lia|by rewrite app_nil_r]. }
  rewrite Hd, join_app, length_app in Hl. destruct (is_blocked c b); [left|right].
  - split_and!; [|change (length (mjoin (@nil (list item)))) with 0%nat in Hl; lia|by rewrite Hd, app_nil_r].
    rewrite waits_pairs, Hp, fmap_app. apply elem_of_app. right. left.
  - split.
    + rewrite waits_false, Hp, app_nil_r, fst_delete.
      apply (NoDup_delete_lookup _ i id Hn). by rewrite list_lookup_fmap, Hi.
    + exists (out c b). split_and!; [eapply out_kind, Hk, list_elem_of_lookup_2, Hi|lia|done].
Qed.

(** A worker that waits in [add] knows it. *)
Definition linked (s : manager) : Prop :=
  buf_ok (buf s) ∧ forall w, waits (add_id w) (buf s) = true -> workers s !! w = Some InAdd.

Lemma add_id_mod w : bool_decide (add_id w mod 3 = 0)%nat = true.
Proof. apply bool_decide_eq_true. unfold add_id. rewrite Nat.mul_comm. by apply Nat.Div0.mod_mul. Qed.
Lemma get_id_mod t : bool_decide (get_id t mod 3 = 0)%nat = false.
Proof.
  apply bool_decide_eq_false. unfold get_id. rewrite Nat.add_comm, Nat.mul_comm, Nat.Div0.mod_add. done.
Qed.
Lemma get_all_id_mod t : bool_decide (get_all_id t mod 3 = 0)%nat = false.
Proof.
  apply bool_decide_eq_false. unfold get_all_id. rewrite Nat.add_comm, Nat.mul_comm, Nat.Div0.mod_add. done.
Qed.

Lemma add_id_inj w w' : add_id w = add_id w' -> w = w'.
Proof. unfold add_id. lia. Qed.

Lemma linked_worker w x y s s' :
  linked s -> workers s !! w = Some x -> x ≠ InAdd -> buf s' = buf s ->
  workers s' = <[w := y]> (workers s) -> linked s'.
Proof.
  intros [Hb Hl] Hx Hne Hbuf Hw. split; [by rewrite Hbuf|]. intros w' Hw'. rewrite Hbuf in Hw'.
  specialize (Hl w' Hw'). rewrite Hw. destruct (decide (w' = w)) as [->|]; [congruence|].
  by rewrite list_lookup_insert_ne.
Qed.

Lemma linked_grows s s' l :
  linked s -> buf s' = buf s -> workers s' = workers s ++ l -> linked s'.
Proof.
  intros [Hb Hl] Hbuf Hw. unfold linked. rewrite Hbuf. split; [done|]. intros w Hw'. rewrite Hw.
  by apply lookup_app_l_Some, Hl.
Qed.

(** ** What a step moves

    [n] items have entered, [d] have left with a call of the buffer and [f]
    have failed; [counts] says the same of the count of pending items. *)
Definition load (s : manager) : nat := flight 0 s + live (buf s).
Definition moves (n d f : nat) (s s' : manager) : Prop :=
  (load s' + d + f = load s + n)%nat ∧ length (failed s') = (length (failed s) + f)%nat.
Definition counts (n d : nat) (s s' : manager) : Prop :=
  k = Distributed -> pending_count s' = pending_count s + Z.of_nat n - Z.of_nat d.
(** A step keeps the workers linked; [e] tells whether items may enter and
    whether the count is kept. *)
Definition step_ok (enters keeps_count : bool) (s s' : manager) : Prop :=
  linked s' ∧ exists n d f, moves n d f s s' ∧ (enters = false -> n = 0%nat) ∧
    (keeps_count = true -> counts n d s s').

Lemma step_ok_same enters keeps s : linked s -> step_ok enters keeps s s.
Proof.
  intros Hl. split; [done|]. exists 0%nat, 0%nat, 0%nat. unfold moves, counts. split_and!; [lia|lia|done|].
  intros _ _. lia.
Qed.

(** The end of a worker's item, or its start: the loop goes on. *)
Lemma step_loop w x s s0 f :
  linked s -> workers s !! w = Some x -> x ≠ InAdd -> weight 0 x = f ->
  workers s0 = workers s -> m_queue s0 = m_queue s -> putters s0 = putters s -> buf s0 = buf s ->
  length (failed s0) = (length (failed s) + f)%nat ->
  (k = Distributed -> pending_count s0 = pending_count s) ->
  step_ok false true s (loop_top w s0).
Proof.
  intros Hl Hx Hne Hf Hw Hq Hp Hb Hfail Hpc.
  destruct (loop_top_spec w x s0) as ((H1 & H2 & H3 & H4 & H5 & H6) & Hfl & y & Hy & _);
    [by rewrite Hw|].
  split.
  - eapply (linked_worker w x y s); [done..|by rewrite H2|by rewrite Hy, Hw].
  - exists 0%nat, 0%nat, f. specialize (Hfl 0%nat). unfold moves, counts, load, flight in *.
    rewrite H2, Hb, H3, H5. rewrite Hw, Hq, Hp in Hfl. split_and!; [lia|lia|done|].
    intros _ Hk. rewrite (Hpc Hk). lia.
Qed.

Lemma step_add w x n s b' :
  linked s -> workers s !! w = Some x -> weight 0 x = n -> buf_ok b' ->
  (forall w', waits (add_id w') b' = true -> waits (add_id w') (buf s) = true ∨ w' = w) ->
  served (add_id w) n (buf s) b' ->
  step_ok false true s (after_add w b' s).
Proof.
  intros [Hbok Hl] Hx Hn Hb' Hwaits Hserved. unfold after_add.
  destruct Hserved as [(Hw & Hlive & Hd)|(Hw & r & Hr & Hlive & Hd)]; rewrite Hw.
  - split.
    + split; [done|]. intros w' Hw'. simpl. destruct (decide (w' = w)) as [->|Hne].
      * apply list_lookup_insert_eq. by eapply lookup_lt_Some.
      * rewrite list_lookup_insert_ne by done. apply Hl. by destruct (Hwaits w' Hw').
    + exists 0%nat, 0%nat, 0%nat. unfold moves, counts, load, flight. simpl.
      pose proof (list_sum_insert (weight 0) w InAdd x _ Hx) as Hs. simpl in Hs.
      split_and!; [lia|lia|done|]. intros _ _. lia.
  - rewrite add_id_mod in Hr. subst r.
    change (length (mjoin (@nil (list item)))) with 0%nat in Hlive.
    destruct (loop_top_spec w x (count_down (with_buf b' s)))
      as ((H1 & H2 & H3 & H4 & H5 & H6) & Hfl & y & Hy & _); [by unfold count_down; destruct k|].
    assert (Hbuf : buf (count_down (with_buf b' s)) = b') by (unfold count_down; by destruct k).
    split.
    + split; [by rewrite H2, Hbuf|]. rewrite H2, Hbuf, Hy. intros w' Hw'.
      destruct (decide (w' = w)) as [->|Hne]; [congruence|].
      rewrite list_lookup_insert_ne by done.
      assert (Hlw : workers s !! w' = Some InAdd) by (apply Hl; by destruct (Hwaits w' Hw')).
      unfold count_down. by destruct k.
    + exists 0%nat, 0%nat, 0%nat. specialize (Hfl 0%nat). rewrite count_down_flight in Hfl.
      unfold moves, counts, load. rewrite H2, Hbuf, H5.
      change (flight 0 (with_buf b' s)) with (flight 0 s) in Hfl.
      split_and!; [lia|unfold count_down; destruct k; simpl; lia|done|].
      intros _ Hk. rewrite H3. unfold count_down. rewrite Hk. simpl. lia.
Qed.

Lemma step_get t s b' :
  linked s -> buf_ok b' ->
  (forall w, waits (add_id w) b' = true -> waits (add_id w) (buf s) = true) ->
  served (get_id t) 0 (buf s) b' -> step_ok false true s (after_get t b' s).
Proof.
  intros [Hbok Hl] Hb' Hwaits Hserved. unfold after_get.
  destruct Hserved as [(Hw & Hlive & Hd)|(Hw & r & Hr & Hlive & Hd)]; rewrite Hw;
    (split; [split; [done|]; simpl; auto|]).
  - exists 0%nat, 0%nat, 0%nat. unfold moves, counts, load. simpl.
    change (flight 0 (with_buf b' s)) with (flight 0 s). split_and!; [lia|lia|done|]. intros; lia.
  - rewrite get_id_mod in Hr. destruct Hr as [x ->].
    rewrite Hd, last_app. simpl. simpl in Hlive. rewrite app_nil_r in Hlive.
    exists 0%nat, (length x), 0%nat.
    unfold moves, counts, load. simpl.
    change (flight 0 (with_pending _ _)) with (flight 0 s). split_and!; [lia|lia|done|].
    intros _ _. lia.
Qed.

Lemma step_get_all t s b' :
  linked s -> buf_ok b' ->
  (forall w, waits (add_id w) b' = true -> waits (add_id w) (buf s) = true) ->
  served (get_all_id t) 0 (buf s) b' -> step_ok false false s (after_get_all t b' s).
Proof.
  intros [Hbok Hl] Hb' Hwaits Hserved. unfold after_get_all.
  assert (Hx : exists d, (live b' + d = live (buf s))%nat).
  { destruct Hserved as [(_ & Hlive & _)|(_ & c & _ & Hlive & _)]; [exists 0%nat; lia|].
    eexists. rewrite Nat.add_0_r in Hlive. exact Hlive. }
  destruct Hx as [d Hd].
  assert (Hm : forall s', buf s' = b' -> m_queue s' = m_queue s -> putters s' = putters s ->
    workers s' = workers s -> failed s' = failed s -> step_ok false false s s').
  { intros s' H1 H2 H3 H4 H5. split; [unfold linked; rewrite H1, H4; auto|].
    exists 0%nat, d, 0%nat. unfold moves, load, flight. rewrite H1, H2, H3, H4, H5.
    split_and!; [lia|lia|done|done]. }
  case_match; [by apply Hm|]. by destruct k; apply Hm.
Qed.

Lemma step_ok_weaken enters keeps s s' : step_ok false true s s' -> step_ok enters keeps s s'.
Proof.
  intros [Hl (n & d & f & Hm & Hn & Hc)]. split; [done|]. exists n, d, f. split_and!; auto.
Qed.

Lemma linked_same s s' : linked s -> buf s' = buf s -> workers s' = workers s -> linked s'.
Proof. intros Hl Hb Hw. eapply (linked_grows s s' []); [done|done|]. by rewrite app_nil_r. Qed.

Lemma step_enters n s s' keeps :
  linked s -> buf s' = buf s -> workers s' = workers s -> failed s' = failed s ->
  (length (m_queue s') + length (putters s') = length (m_queue s) + length (putters s) + n)%nat ->
  (k = Distributed -> pending_count s' = pending_count s + Z.of_nat n) ->
  step_ok (negb (bool_decide (n = 0%nat))) keeps s s'.
Proof.
  intros Hl Hb Hw Hf Hq Hp. split; [by eapply linked_same|]. exists n, 0%nat, 0%nat.
  unfold moves, counts, load, flight. rewrite Hb, Hw, Hf. split_and!; [lia|lia| |].
  - rewrite negb_false_iff, bool_decide_eq_true. done.
  - intros _ Hk. rewrite (Hp Hk). lia.
Qed.

Definition is_put (e : event) : bool := match e with Put _ | PutNowait _ => true | _ => false end.
Definition is_get_all (e : event) : bool :=
  match e with GetAll _ | GetAllResume _ => true | _ => false end.

Lemma put_ok i s : linked s -> step_ok true true s (put i s).
Proof.
  intros Hl. unfold put. cbv zeta. destruct (full _); apply (step_enters 1); simpl;
    rewrite ?length_app; simpl; done || lia.
Qed.

Lemma put_nowait_ok i s : linked s -> step_ok true true s (put_nowait i s).
Proof.
  intros Hl. unfold put_nowait. destruct k eqn:Hk; [|by apply put_ok].
  cbv zeta. destruct (full _); [|apply (step_enters 1); simpl; rewrite ?length_app; simpl; done || lia].
  split; [by eapply linked_same|]. exists 0%nat, 0%nat, 0%nat. unfold moves, counts, load. simpl.
  change (flight 0 (with_history _ _ _ _)) with (flight 0 s). split_and!; [lia|lia|done|].
  intros _. congruence.
Qed.

Lemma admit_ok n s : linked s -> step_ok false true s (admit_put n s).
Proof.
  intros Hl. unfold admit_put. destruct (putters s !! n) as [i|] eqn:Hn; [|by apply step_ok_same].
  destruct (full s); [by apply step_ok_same|]. apply (step_enters 0); try done; simpl.
  - rewrite length_app, length_delete by (by eexists). simpl. apply lookup_lt_Some in Hn. lia.
  - intros _. lia.
Qed.

Lemma take_item_ok w x s : linked s -> workers s !! w = Some x -> weight 0 x = 0%nat -> x ≠ InAdd ->
  step_ok false true s (take_item w s).
Proof.
  intros Hl Hx Hw Hne.
  destruct (take_item_spec w x s Hx) as ((H1 & H2 & H3 & H4 & H5 & H6) & Hf & y & Hy & _).
  split; [by eapply (linked_worker w x y s)|]. exists 0%nat, 0%nat, 0%nat. specialize (Hf 0%nat).
  unfold moves, counts, load. rewrite H2, H3, H5. split_and!; [lia|lia|done|]. intros _ _. lia.
Qed.

Lemma wake_ok w s : linked s -> step_ok false true s (wake w s).
Proof.
  intros Hl. unfold wake. destruct (workers s !! w) as [x|] eqn:Hx; [|by apply step_ok_same].
  destruct x; try (by apply step_ok_same).
  - eapply (step_loop w _ s s 0); [done..|lia|done].
  - by eapply take_item_ok.
  - destruct Hl as [Hb Hl]. eapply (step_add w InAdd); [by split|done|done|by apply buf_ok_resume| |].
    + intros w' Hw'. left. by eapply waits_resume.
    + apply served_resume; [done|right]. apply (bool_decide_eq_true _), add_id_mod.
Qed.

Lemma task_done_ok w i o s : linked s -> workers s !! w = Some (Running i) ->
  step_ok false true s (task_done w i o s).
Proof.
  intros Hl Hx. unfold task_done.
  assert (Hfail : step_ok false true s
    (loop_top w (count_down (with_history (refused s) (failed s ++ [i]) (got s) s)))).
  { eapply (step_loop w (Running i) s _ 1); try done; unfold count_down; destruct k eqn:Hk; simpl;
      rewrite ?length_app; done. }
  destruct o as [| |r]; [done..|]. destruct Hl as [Hb Hl].
  assert (Hw : waits (add_id w) (buf s) = false).
  { destruct (waits (add_id w) (buf s)) eqn:E; [|done]. apply Hl in E. congruence. }
  eapply (step_add w (Running i)); [by split|done|done| | |].
  - apply buf_ok_call; [done|done|]. by rewrite add_id_mod.
  - intros w' [Hw'| ->%add_id_inj]%waits_call; auto.
  - apply (served_call (add_id w) (Adding (update i r))); [done|done|]. by rewrite add_id_mod.
Qed.

Lemma get_call_waits id c w b : waits id b = false -> bool_decide (id mod 3 = 0)%nat = false ->
  waits (add_id w) (buf_step b (Call id c)) = true -> waits (add_id w) b = true.
Proof.
  intros Hid Hm [H|H]%waits_call; [done| |done]. rewrite <- H, add_id_mod in Hm. done.
Qed.

Lemma get_ok t mi mu s : linked s -> step_ok false true s (get_items t mi mu s).
Proof.
  intros Hl. pose proof Hl as [Hb _]. unfold get_items.
  destruct (waits (get_id t) (buf s)) eqn:Hw; [by apply step_ok_same|].
  apply step_get; [done| | |].
  - apply buf_ok_call; [done..|]. by rewrite get_id_mod.
  - intros w. apply get_call_waits; [done|apply get_id_mod].
  - apply (served_call _ (Getting mi mu)); [done..|]. by rewrite get_id_mod.
Qed.

Lemma get_all_ok t s : linked s -> step_ok false false s (get_all t s).
Proof.
  intros Hl. pose proof Hl as [Hb _]. unfold get_all.
  destruct (waits (get_all_id t) (buf s)) eqn:Hw; [by apply step_ok_same|].
  apply step_get_all; [done| | |].
  - apply buf_ok_call; [done..|]. by rewrite get_all_id_mod.
  - intros w. apply get_call_waits; [done|apply get_all_id_mod].
  - apply (served_call _ (Getting (Z.to_nat (pending_count s)) 1)); [done..|]. by rewrite get_all_id_mod.
Qed.

Lemma start_ok s : linked s -> step_ok false true s (start s).
Proof.
  intros Hl. unfold start. destruct (started s); [by apply step_ok_same|].
  split; [by eapply linked_grows|]. exists 0%nat, 0%nat, 0%nat. unfold moves, counts, load, flight. simpl.
  rewrite fmap_app, fmap_replicate, list_sum_app. simpl.
  assert (list_sum (replicate num_workers 0%nat) = 0%nat) as -> by (clear; by induction num_workers).
  split_and!; [lia|lia|done|]. intros _ _. lia.
Qed.

Lemma stop_ok s : linked s -> step_ok false true s (stop s).
Proof. intros Hl. unfold stop. by destruct k; apply (step_enters 0 s _ true); try done; simpl; lia. Qed.

Lemma stop_returns_ok s : linked s -> step_ok false true s (stop_returns s).
Proof.
  intros Hl. unfold stop_returns. destruct k eqn:Hk; [|by apply step_ok_same].
  destruct (stop_signal s && _) eqn:H; [|by apply step_ok_same]. apply andb_true_iff in H as [_ Hall].
  assert (Hex : forall w x, workers s !! w = Some x -> x = Exited).
  { intros w x Hx%list_elem_of_lookup_2%list_elem_of_In. rewrite forallb_forall in Hall.
    specialize (Hall x Hx). by destruct x. }
  destruct Hl as [Hb Hl]. split.
  - split; [done|]. intros w Hw. specialize (Hex w _ (Hl w Hw)). done.
  - exists 0%nat, 0%nat, 0%nat. unfold moves, counts, load, flight. simpl.
    assert (list_sum (weight 0 <$> workers s) = 0%nat) as ->; [|split_and!; [lia|lia|done|congruence]].
    clear -Hall. induction (workers s) as [|x l IH]; [done|]. simpl in *.
    apply andb_true_iff in Hall as [Hx Hl]. specialize (IH Hl). by destruct x.
Qed.

Lemma mstep_ok s e : linked s -> step_ok (is_put e) (negb (is_get_all e)) s (mstep s e).
Proof.
  intros Hl. destruct e as [i|i|n|w|w o|t mi mu|t|t|t| | |]; simpl.
  - by apply put_ok.
  - by apply put_nowait_ok.
  - by apply admit_ok.
  - by apply wake_ok.
  - destruct (workers s !! w) as [x|] eqn:Hx; [|by apply step_ok_same].
    destruct x; try (by apply step_ok_same). by apply task_done_ok.
  - by apply get_ok.
  - destruct (waits (get_id t) (buf s)) eqn:Hw; [|by apply step_ok_same]. pose proof Hl as [Hb _].
    apply step_get; [done|by apply buf_ok_resume|intros w; apply waits_resume|].
    apply served_resume; [done|by left].
  - by apply get_all_ok.
  - destruct (waits (get_all_id t) (buf s)) eqn:Hw; [|by apply step_ok_same]. pose proof Hl as [Hb _].
    apply step_get_all; [done|by apply buf_ok_resume|intros w; apply waits_resume|].
    apply served_resume; [done|by left].
  - by apply start_ok.
  - by apply stop_ok.
  - by apply stop_returns_ok.
Qed.

(** ** [get_all] after a failure *)

(** At most one call of the buffer is made or resumed. *)
Lemma mstep_buf s e :
  buf (mstep s e) = buf s ∨
  exists id, (is_get_all e = false -> forall t, id ≠ get_all_id t) ∧
    (buf (mstep s e) = buf_step (buf s) (Resume id) ∨
     exists c, buf (mstep s e) = buf_step (buf s) (Call id c)).
Proof.
  assert (Hloop : forall w s, buf (loop_top w s) = buf s).
  { intros w s'. unfold loop_top, take_item. destruct k, (stop_signal s'), (m_queue s'); done. }
  assert (Hadd : forall w b s, buf (after_add w b s) = b).
  { intros w b s'. unfold after_add. destruct (waits _ _); [done|]. rewrite Hloop.
    unfold count_down. by destruct k. }
  assert (Hid : forall w t, add_id w ≠ get_all_id t) by (unfold add_id, get_all_id; lia).
  assert (Hid' : forall t' t, get_id t' ≠ get_all_id t) by (unfold get_id, get_all_id; lia).
  destruct e as [i|i|n|w|w o|t mi mu|t|t|t| | |]; simpl.
  - left. unfold put. cbv zeta. by destruct (full _).
  - left. unfold put_nowait, put. cbv zeta. by destruct k, (full _).
  - left. unfold admit_put. by destruct (putters s !! n), (full s).
  - unfold wake. destruct (workers s !! w) as [[]|]; try by left.
    + left. unfold take_item. by destruct (m_queue s).
    + right. exists (add_id w). split; [by intros _ t|]. left. apply Hadd.
  - destruct (workers s !! w) as [[]|]; try by left. unfold task_done. destruct o.
    1,2: left; rewrite Hloop; unfold count_down; by destruct k.
    right. exists (add_id w). split; [by intros _ t|]. right. eexists. apply Hadd.
  - unfold get_items, after_get. destruct (waits _ (buf s)); [by left|]. right. exists (get_id t).
    split; [by intros _ t'|]. right. eexists. by destruct (waits _ _).
  - unfold after_get. destruct (waits _ (buf s)); [|by left]. right. exists (get_id t).
    split; [by intros _ t'|]. left. by destruct (waits _ _).
  - unfold get_all, after_get_all. destruct (waits _ (buf s)); [by left|]. right. exists (get_all_id t).
    split; [done|]. right. eexists. by destruct (waits _ _), k.
  - unfold after_get_all. destruct (waits _ (buf s)); [|by left]. right. exists (get_all_id t).
    split; [done|]. left. by destruct (waits _ _), k.
  - left. unfold start. by destruct (started s).
  - left. unfold stop. by destruct k.
  - left. unfold stop_returns. destruct k; [|done]. by match goal with |- context [if ?b then _ else _] => destruct b end.
Qed.

Lemma call_waiting id c b : waits id b = true -> buf_step b (Call id c) = b.
Proof. unfold waits. simpl. by intros ->. Qed.

Lemma mstep_no_get_all t s e : is_get_all e = false ->
  waits (get_all_id t) (buf s) = false -> waits (get_all_id t) (buf (mstep s e)) = false.
Proof.
  intros He Hw. destruct (mstep_buf s e) as [->|(id & Hid & [->|[c ->]])]; [done|..];
    apply not_true_is_false; intros Hw'.
  - apply waits_resume in Hw'. congruence.
  - destruct (waits id (buf s)) eqn:E; [rewrite call_waiting in Hw' by done; congruence|].
    apply waits_call in Hw' as [H|H]; [congruence| |done]. by eapply Hid.
Qed.

(** A call whose condition does not hold stays. *)
Lemma pair_resume id c id' b : buf_ok b -> is_blocked c b = true ->
  (id, c) ∈ pairs b -> (id, c) ∈ pairs (buf_step b (Resume id')).
Proof.
  intros [Hn _] Hbl Hin. destruct (resume_spec id' b) as [->|(i & c' & Hi & -> & _)]; [done|].
  apply list_elem_of_lookup in Hin as [j Hj]. apply elem_of_app.
  destruct (decide (j = i)) as [->|Hne].
  - rewrite Hi in Hj. injection Hj as -> ->. right. rewrite Hbl. left.
  - left. rewrite delete_take_drop, elem_of_app. destruct (decide (j < i)%nat).
    + left. apply (list_elem_of_lookup_2 _ j). by rewrite lookup_take_lt.
    + right. apply (list_elem_of_lookup_2 _ (j - S i)). rewrite lookup_drop, <- Hj. f_equal. lia.
Qed.

Lemma pair_call id c id' c' b :
  (id, c) ∈ pairs b -> (id, c) ∈ pairs (buf_step b (Call id' c')).
Proof.
  intros Hin. destruct (waits id' b) eqn:Hw; [by rewrite call_waiting|].
  destruct (call_spec id' c' b Hw) as [-> _]. apply elem_of_app. by left.
Qed.

Lemma blocked_load n s : (load s < n)%nat -> is_blocked (Getting n 1) (buf s) = true.
Proof.
  intros Hn. apply bool_decide_eq_true. unfold available, load, live in *.
  pose proof (Nat.Div0.mul_div_le (length (Buffer.queue (buf s))) (unit_size buffer_group_size 1)). lia.
Qed.

(** The call of [get_all] waits for more than there is. *)
Definition stuck (t n : nat) (s : manager) : Prop :=
  linked s ∧ (get_all_id t, Getting n 1) ∈ pairs (buf s) ∧ (load s < n)%nat.

Lemma stuck_step t n s e : is_put e = false -> stuck t n s -> stuck t n (mstep s e).
Proof.
  intros He (Hl & Hin & Hn). destruct (mstep_ok s e Hl) as [Hl' (m & d & f & [Hm _] & Hm0 & _)].
  split_and!; [done| |specialize (Hm0 He); lia]. pose proof Hl as [Hb _].
  destruct (mstep_buf s e) as [->|(id & _ & [->|[c ->]])]; [done| |by apply pair_call].
  apply pair_resume; [done|by apply blocked_load|done].
Qed.

(** Every pending item is still there, or has failed. *)
Definition balanced (s : manager) : Prop :=
  linked s ∧ (forall t, waits (get_all_id t) (buf s) = false) ∧
  pending_count s = Z.of_nat (load s + length (failed s)).

Lemma balanced_step s e : k = Distributed -> is_get_all e = false -> balanced s -> balanced (mstep s e).
Proof.
  intros Hk He (Hl & Hw & Hp). destruct (mstep_ok s e Hl) as [Hl' (n & d & f & [H1 H2] & _ & Hc)].
  split_and!; [done|intros t; by apply mstep_no_get_all|].
  rewrite He in Hc. rewrite (Hc eq_refl Hk), Hp, H2. lia.
Qed.

Lemma balanced_run l : k = Distributed -> Forall (fun e => is_get_all e = false) l -> balanced (mruns l).
Proof.
  intros Hk Hl. unfold mruns.
  assert (H : balanced new_manager).
  { split_and!; [|done..]. split; [split; [apply NoDup_nil_2|]|done]. by intros id c ?%elem_of_nil. }
  revert H. generalize new_manager. induction Hl as [|e l He _ IH]; intros s Hs; [done|].
  apply IH. by apply balanced_step.
Qed.

Lemma get_all_stuck t s : balanced s -> failed s ≠ [] ->
  stuck t (Z.to_nat (pending_count s)) (mstep s (GetAll t)).
Proof.
  intros (Hl & Hw & Hp) Hf. destruct (mstep_ok s (GetAll t) Hl) as [Hl' (n & d & f & [H1 _] & H2 & _)].
  assert (Hlt : (load s < Z.to_nat (pending_count s))%nat).
  { destruct (failed s); [done|]. simpl in *. lia. }
  split_and!; [done| |specialize (H2 eq_refl); simpl in *; lia].
  simpl. unfold get_all, after_get_all. rewrite Hw.
  destruct (call_spec (get_all_id t) (Getting (Z.to_nat (pending_count s)) 1) (buf s) (Hw t)) as [Hpairs _].
  rewrite (blocked_load _ s Hlt) in Hpairs.
  assert (Hin : (get_all_id t, Getting (Z.to_nat (pending_count s)) 1) ∈
    pairs (buf_step (buf s) (Call (get_all_id t) (Getting (Z.to_nat (pending_count s)) 1)))).
  { rewrite Hpairs. apply elem_of_app. right. left. }
  by destruct (waits _ _), k.
Qed.

(** Once an item has failed in the distributed manager, get_all waits for more
    items than there are: nothing but a new put ever lets it return. *)
Theorem dist_get_all_blocks l t l' :
  k = Distributed -> Forall (fun e => is_get_all e = false) l -> failed (mruns l) ≠ [] ->
  Forall (fun e => is_put e = false) l' ->
  waits (get_all_id t) (buf (run mstep (mruns (l ++ [GetAll t])) l')) = true.
Proof.
  intros Hk Hl Hf Hl'. unfold mruns. rewrite run_app.
  change (run mstep (run mstep new_manager l) [GetAll t]) with (mstep (mruns l) (GetAll t)).
  pose proof (get_all_stuck t _ (balanced_run l Hk Hl) Hf) as Hs.
  revert Hs. generalize (mstep (mruns l) (GetAll t)) (Z.to_nat (pending_count (mruns l))).
  intros s n Hs. enough (stuck t n (run mstep s l')) as (_ & Hin & _).
  { apply waits_pairs, list_elem_of_fmap. by exists (get_all_id t, Getting n 1). }
  clear Hl Hf. revert s Hs. induction Hl' as [|e l' He _ IH]; intros s Hs; [done|].
  apply IH. by apply stuck_step.
Qed.
End manager.

(** ** Runs *)

Module Examples.
#[local] Abbreviation runs k := (mruns (fun _ : nat => "g"%string) Nat.add k 4 4 1 1).

(** An item is run, its result got, and another put: the count is zero while
    the second item runs, and [get_all] returns without it. *)
Definition got_one : list (event (item := nat) (result := nat)) :=
  [Start; Put 1; Wake 0; TaskDone 0 (Result 10); Get 0 1 1; Put 2; Wake 0]%nat.

Example get_all_too_early :
  let s := runs Local (got_one ++ [GetAll 0]) in
  pending_count s = 0%Z ∧ workers s = [Running 2%nat] ∧ delivered (buf s) = [[11%nat]; []].
Proof. by vm_compute. Qed.

(** The distributed manager waits for it. *)
Example get_all_waits :
  let s := runs Distributed (got_one ++ [GetAll 0]) in
  pending_count s = 1%Z ∧ waits (get_all_id 0) (buf s) = true ∧
  delivered (buf (runs Distributed (got_one ++ [GetAll 0; TaskDone 0 (Result 20%nat); GetAllResume 0])))
    = [[11%nat]; [22%nat]].
Proof. by vm_compute. Qed.

(** [stop] does not wake a worker that waits for an item; the next item does. *)
Example stop_waits_for_an_item :
  let s := runs Local [Start; Wake 0; Stop; Wake 0; StopReturns] in
  workers s = [AtGet] ∧ started s = true ∧
  workers (runs Local [Start; Wake 0; Stop; Put 1%nat; Wake 0; TaskDone 0 Failed; StopReturns]) = [].
Proof. by vm_compute. Qed.

Lemma local_pending_witness :
  Local = Local ∧ workers (runs Local got_one) = [Running 2%nat] ∧
  pending_count (runs Local got_one) = (Z.of_nat (0 + 0 + 1) + Z.of_nat 0 - Z.of_nat 1)%Z.
Proof.
  split; [done|]. split; [by vm_compute|].
  etransitivity;
    [apply (local_pending (fun _ : nat => "g"%string) Nat.add Local 4 4 1 1 got_one eq_refl)|].
  by vm_compute.
Defined.

Definition one_failed : list (event (item := nat) (result := nat)) :=
  [Start; Put 1; Put 2; Wake 0; TaskDone 0 NoResult; TaskDone 0 (Result 20)]%nat.

Lemma dist_get_all_blocks_witness :
  failed (runs Distributed one_failed) = [1%nat] ∧ length (Buffer.queue (buf (runs Distributed one_failed))) = 1%nat ∧
  waits (get_all_id 5) (buf (run (mstep (fun _ => "g"%string) Nat.add Distributed 4 4 1 1)
    (runs Distributed (one_failed ++ [GetAll 5])) [Wake 0; GetAllResume 5; Start])) = true.
Proof.
  split; [by vm_compute|]. split; [by vm_compute|].
  apply dist_get_all_blocks; [done| |by vm_compute|];
    repeat first [apply Forall_cons; split; [done|] | apply Forall_nil; done].
Defined.
End Examples.
