(* ===== verification/Rollout.v ===== *)
(** * The agent loop of the trainer

    Models trainer/agentic/loops.py over the functions it is given (start, generate,
    observe, end), the tokenizer's chat template and the tool-call parser, and the
    data sets and iterators of trainer/agentic/data_provider.py and
    trainer/utils/utils.py. *)

From S2P Require Import Prelude PyVal.

(** [l[:n]] *)
Definition slice_to {A} (n : Z) (l : list A) : list A :=
  if bool_decide (0 ≤ n) then take (Z.to_nat n) l
  else take (Z.to_nat (Z.of_nat (length l) + n)) l.

(** A metric or a reward: an exact number. *)
Abbreviation metrics := (list (string * Q)).

(* trainer/agentic/loops.py:25-32 collect_metrics *)
Definition collect_metrics (src tgt : metrics) : metrics :=
  foldl (fun tgt kv =>
    if bool_decide (kv.1 = "score") then tgt
    else match dget kv.1 tgt with
         | None => dset kv.1 kv.2 tgt
         | Some x => dset kv.1 (x + kv.2)%Q tgt
         end) tgt src.

(** What [start_fn] and [obs_fn] return. *)
Record start := { st_messages : list val; st_tools : list val; st_sid : val; st_metrics : metrics }.
Record observation := {
  ob_messages : list val;
  ob_finish : bool;
  ob_reward : Q;
  ob_status : string;
  ob_metrics : metrics
}.
(** What [parse_non_stream] finds: index, name and parameters of each call. *)
Record tool_call := { tool_index : Z; tool_name : string; tool_parameters : string }.

Record rollout := {
  seq_len : Z;
  loss_tokens : Z;
  input_ids : list Z;
  r_loss_mask : list Z;
  position_ids : list Z;
  rollout_log_prob : list Q;
  reward : Q;
  token_level_rewards : Q;
  r_metrics : metrics;
  r_history : list val
}.

Section loop.
Context {W : Type}.
Context (start_fn : M W start)
        (gen_fn : list Z -> M W (string * list (Q * Z)))
        (obs_fn : val -> val -> M W observation)
        (end_fn : val -> bool -> M W unit)
        (apply_chat_template : list val -> list val -> bool -> res (list Z))
        (new_parser : list val -> res unit)
        (parse_non_stream : list val -> string -> res (string * list tool_call)).
Context (max_turns : nat) (max_length : Z) (incomplete_punishment : Q).

(** The variables the loop carries. *)
Record state := {
  ids : list Z;
  loss_mask : list Z;
  log_probs : list Q;
  history : list val;
  l_done : bool;
  l_reward : Q;
  l_status : string;
  obs_metrics : metrics
}.

(** A failing parser is as good as none. *)
(* trainer/agentic/loops.py:77-100 openai_chat_agent_loop *)
Definition assistant_message (tools : list val) (text : string) : res val :=
  match tools with
  | [] => Ok (VDict [("role", VStr "assistant"); ("content", VStr text)])
  | _ =>
      _ ← new_parser tools;
      let '(normal_text, infos) := match parse_non_stream tools text with
                                   | Ok r => r
                                   | Raise _ => (text, [])
                                   end in
      Ok (VDict
        [("role", VStr "assistant"); ("content", VStr normal_text);
         ("tool_calls", VList ((fun c => VDict
            [("id", VStr (str_Z (tool_index c)));
             ("function", VDict [("name", VStr (tool_name c));
                                 ("arguments", VStr (tool_parameters c))])]) <$> infos))])
  end.

(** One turn; [true] leaves the loop. *)
(* trainer/agentic/loops.py:68-128 openai_chat_agent_loop *)
Definition turn (tools : list val) (sid : val) (s : state) : M W (state * bool) :=
  r ← gen_fn (ids s);
  let new_ids := (snd <$> r.2) in
  let new_log_probs := (fst <$> r.2) in
  message ← lift_res (assistant_message tools r.1);
  let history1 := history s ++ [message] in
  obs ← obs_fn message sid;
  last ← lift_res (apply_chat_template history1 tools false);
  let history2 := history1 ++ ob_messages obs in
  now ← lift_res (apply_chat_template history2 tools true);
  let diff := drop (length last) now in
  let ids2 := ids s ++ new_ids ++ diff in
  mret ({| ids := ids2;
           loss_mask := loss_mask s ++ replicate (length new_ids) 1 ++ replicate (length diff) 0;
           log_probs := log_probs s ++ new_log_probs ++ replicate (length diff) 0%Q;
           history := history2;
           l_done := ob_finish obs; l_reward := ob_reward obs; l_status := ob_status obs;
           obs_metrics := collect_metrics (ob_metrics obs) (obs_metrics s) |},
        ob_finish obs || bool_decide (max_length ≤ Z.of_nat (length ids2))).

(* trainer/agentic/loops.py:67-128 openai_chat_agent_loop *)
Fixpoint interact (n : nat) (tools : list val) (sid : val) (s : state) : M W state :=
  match n with
  | O => mret s
  | S n => r ← turn tools sid s; if (r.2 : bool) then mret r.1 else interact n tools sid r.1
  end.

(* trainer/agentic/loops.py:135-155 openai_chat_agent_loop *)
Definition package (s : state) : rollout :=
  let r := if bool_decide (l_status s = "completed") then l_reward s else incomplete_punishment in
  let metrics := dset "pass_rate" (if Qeq_bool (l_reward s) 1 then 1%Q else 0%Q) (obs_metrics s) in
  {| seq_len := Z.of_nat (length (slice_to max_length (ids s)));
     loss_tokens := foldr Z.add 0 (slice_to max_length (loss_mask s));
     input_ids := slice_to max_length (ids s);
     r_loss_mask := slice_to max_length (loss_mask s);
     position_ids := seqZ 0 (Z.min max_length (Z.of_nat (length (ids s))));
     rollout_log_prob := slice_to max_length (log_probs s);
     reward := r;
     token_level_rewards := r;
     r_metrics := metrics;
     r_history := history s |}.

(* trainer/agentic/loops.py:35-155 openai_chat_agent_loop *)
Definition openai_chat_agent_loop : M W rollout :=
  st ← start_fn;
  prompt ← lift_res (apply_chat_template (st_messages st) (st_tools st) true);
  s ← interact max_turns (st_tools st) (st_sid st)
        {| ids := prompt; loss_mask := replicate (length prompt) 0;
           log_probs := replicate (length prompt) 0%Q; history := st_messages st;
           l_done := false; l_reward := 0%Q; l_status := "";
           obs_metrics := collect_metrics (st_metrics st) [] |};
  end_fn (st_sid st) (l_done s);;
  assert_ (bool_decide (length (ids s) = length (loss_mask s) ∧
                        length (loss_mask s) = length (log_probs s)));;
  mret (package s).

(** [None] when a [RuntimeError] or every attempt has failed. *)
(* trainer/agentic/loops.py:158-195 retry_openai_chat_agent_loop *)
Fixpoint retry_openai_chat_agent_loop (max_retries : nat) : M W (option rollout) :=
  match max_retries with
  | O => mret None
  | S n =>
      try_except (r ← openai_chat_agent_loop; mret (Some r))
        (fun e => match e with
                  | RuntimeError _ | NotImplementedError | RecursionLimit => Some (mret None)
                  | _ => if is_Exception e then Some (retry_openai_chat_agent_loop n) else None
                  end)
  end.

(** ** Proofs *)

(** A turn of the conversation: the tokens generated with their log
    probabilities, then the tokens of what the environment answered. *)
Record exchange := { generated : list (Q * Z); observed : list Z }.

Definition exchange_ids (x : exchange) : list Z := (snd <$> generated x) ++ observed x.
Definition exchange_mask (x : exchange) : list Z :=
  replicate (length (generated x)) 1 ++ replicate (length (observed x)) 0.
Definition exchange_log_probs (x : exchange) : list Q :=
  (fst <$> generated x) ++ replicate (length (observed x)) 0%Q.

(** The three lists a prompt and the exchanges make. *)
Definition all_ids (prompt : list Z) (l : list exchange) : list Z :=
  prompt ++ mjoin (exchange_ids <$> l).
Definition all_mask (prompt : list Z) (l : list exchange) : list Z :=
  replicate (length prompt) 0 ++ mjoin (exchange_mask <$> l).
Definition all_log_probs (prompt : list Z) (l : list exchange) : list Q :=
  replicate (length prompt) 0%Q ++ mjoin (exchange_log_probs <$> l).

Definition matches (prompt : list Z) (l : list exchange) (s : state) : Prop :=
  ids s = all_ids prompt l ∧ loss_mask s = all_mask prompt l ∧
  log_probs s = all_log_probs prompt l.

Lemma mjoin_snoc {A} (l : list (list A)) x : mjoin (l ++ [x]) = mjoin l ++ x.
Proof. rewrite join_app. simpl. by rewrite app_nil_r. Qed.

Lemma exchange_lengths x :
  length (exchange_ids x) = length (exchange_mask x) ∧
  length (exchange_mask x) = length (exchange_log_probs x).
Proof.
  unfold exchange_ids, exchange_mask, exchange_log_probs.
  rewrite !length_app, !length_replicate, !length_fmap. done.
Qed.

Lemma all_lengths prompt l :
  length (all_ids prompt l) = length (all_mask prompt l) ∧
  length (all_mask prompt l) = length (all_log_probs prompt l).
Proof.
  unfold all_ids, all_mask, all_log_probs. rewrite !length_app, !length_replicate.
  induction l as [|x l IH]; simpl; [done|]. rewrite !length_app.
  destruct (exchange_lengths x). unfold fmap in IH. lia.
Qed.

Lemma turn_matches tools sid prompt l s w w' s' b :
  matches prompt l s -> turn tools sid s w = (w', Ok (s', b)) ->
  exists x, matches prompt (l ++ [x]) s' ∧
    (b = false -> Z.of_nat (length (ids s')) < max_length).
Proof.
  intros (Hi & Hm & Hp) Ht. unfold turn in Ht.
  apply M_bind_ok in Ht as (r & w1 & _ & Ht). cbv zeta in Ht.
  apply M_bind_ok in Ht as (m & w2 & _ & Ht).
  apply M_bind_ok in Ht as (ob & w3 & _ & Ht).
  apply M_bind_ok in Ht as (last & w4 & _ & Ht).
  apply M_bind_ok in Ht as (now & w5 & _ & Ht).
  injection Ht as <- <- <-.
  exists {| generated := r.2; observed := drop (length last) now |}. split.
  - unfold matches, all_ids, all_mask, all_log_probs; cbn [ids loss_mask log_probs].
    rewrite !fmap_app, Hi, Hm, Hp. simpl. rewrite !mjoin_snoc. split_and!.
    + unfold all_ids. by rewrite <- (assoc_L (++)).
    + unfold all_mask. rewrite <- (assoc_L (++)). unfold exchange_mask at 2. simpl.
      by rewrite length_fmap.
    + unfold all_log_probs. by rewrite <- (assoc_L (++)).
  - cbn [ids]. rewrite orb_false_iff, bool_decide_eq_false. lia.
Qed.

Lemma interact_matches n tools sid prompt l s w w' s' :
  matches prompt l s -> interact n tools sid s w = (w', Ok s') ->
  exists l', matches prompt (l ++ l') s' ∧ (length l' ≤ n)%nat ∧
    (l' = [] ∧ s' = s ∨ exists l0 x, l' = l0 ++ [x] ∧
       (l0 ≠ [] -> Z.of_nat (length (all_ids prompt (l ++ l0))) < max_length)).
Proof.
  revert l s w. induction n as [|n IH]; intros l s w Hm Hr; cbn [interact] in Hr.
  { injection Hr as <- <-. exists []. rewrite app_nil_r. split_and!; [done|done|by left]. }
  apply M_bind_ok in Hr as ([s1 b] & w1 & Ht & Hr).
  destruct (turn_matches _ _ _ _ _ _ _ _ _ Hm Ht) as (x & Hm1 & Hb). simpl in Hr.
  destruct b.
  - injection Hr as <- <-. exists [x]. split_and!; [done|simpl; lia|].
    right. by exists [], x.
  - destruct (IH _ _ _ Hm1 Hr) as (l' & Hm' & Hlen & Hcase).
    exists (x :: l'). rewrite <- (assoc_L (++)) in Hm'. split_and!; [done|simpl; lia|].
    right. specialize (Hb eq_refl). rewrite (proj1 Hm1) in Hb.
    destruct Hcase as [[-> _]|(l0 & y & -> & Hl0)].
    + by exists [], x.
    + exists (x :: l0), y. split; [done|]. intros _.
      destruct l0 as [|z l0]; [done|]. rewrite <- (assoc_L (++)) in Hl0. by apply Hl0.
Qed.

Lemma slice_length {A} n (l : list A) :
  0 ≤ n -> Z.of_nat (length (slice_to n l)) = Z.min n (Z.of_nat (length l)).
Proof. intros Hn. unfold slice_to. rewrite bool_decide_eq_true_2 by done. rewrite length_take. lia. Qed.

End loop.

(** ** Data *)

(* trainer/agentic/data_provider.py:10-23 AgenticDataset *)
Record agentic_dataset := { indices : list val; ds_name : string }.
(* trainer/agentic/data_provider.py:18-23 AgenticDataset.__getitem__ *)
Definition dataset_item (d : agentic_dataset) (item : nat) : res val :=
  match indices d !! item with
  | Some i => Ok (VDict [("index", i); ("name", VStr (ds_name d));
                         ("data_source", VStr (ds_name d))])
  | None => Raise IndexError
  end.

Section balanced.
Context {A : Type}.

(* trainer/agentic/data_provider.py:27-32 BalancedDataset.__init__ *)
Definition total_length (datasets : list (list A)) : nat :=
  foldr Nat.lcm 1%nat (length <$> datasets).

(* trainer/agentic/data_provider.py:34-37 BalancedDataset.__getitem__ *)
Definition balanced_item (datasets : list (list A)) (item : nat) : res A :=
  match datasets with
  | [] => Raise ZeroDivisionError
  | _ =>
      let k := length datasets in
      match datasets !! (item mod k)%nat with
      | Some (x :: d) =>
          match (x :: d) !! (item / k mod length (x :: d))%nat with
          | Some a => Ok a
          | None => Raise IndexError
          end
      | _ => Raise ZeroDivisionError
      end
  end.

(** Of two data sets of the same length, an index below the total length never
    reaches the second half. *)
Lemma balanced_first_half (d1 d2 : list A) (n i : nat) :
  length d1 = n -> length d2 = n -> (i < total_length [d1; d2])%nat ->
  exists j, (2 * j < n)%nat ∧
    balanced_item [d1; d2] i =
      match (if Nat.eqb (i mod 2) 0 then d1 else d2) !! j with
      | Some a => Ok a | None => Raise IndexError end.
Proof.
  intros H1 H2 Hi. unfold total_length in Hi. cbn [fmap list_fmap foldr] in Hi.
  rewrite Nat.lcm_1_r, H1, H2, Nat.lcm_diag in Hi.
  exists (i / 2)%nat. pose proof (Nat.div_mod i 2 ltac:(lia)) as Hdm.
  pose proof (Nat.mod_upper_bound i 2 ltac:(lia)) as Hm.
  split; [lia|]. unfold balanced_item. cbn [length].
  assert ((i / 2) mod n = i / 2)%nat as Hs by (apply Nat.mod_small; lia).
  destruct (i mod 2)%nat as [|[|]] eqn:Em; [| |lia]; cbn [lookup list_lookup Nat.eqb].
  - destruct d1 as [|x d]; [simpl in H1; lia|]. cbn [length] in H1. by rewrite H1, Hs.
  - destruct d2 as [|x d]; [simpl in H2; lia|]. cbn [length] in H2. by rewrite H2, Hs.
Qed.

(** One pass over the iterators: what it yields, and the iterators afterwards
    unless one of them was exhausted. *)
(* trainer/utils/utils.py:202-203 interleave *)
Fixpoint interleave_round (its : list (list A)) : list A * option (list (list A)) :=
  match its with
  | [] => ([], Some [])
  | [] :: _ => ([], None)
  | (x :: it) :: its =>
      let '(l, rest) := interleave_round its in (x :: l, (fun its => it :: its) <$> rest)
  end.

(** A [StopIteration] inside a generator is a [RuntimeError]; [fuel] bounds the
    rounds. *)
(* trainer/utils/utils.py:199-203 interleave *)
Fixpoint interleave (fuel : nat) (its : list (list A)) : list A * option exn :=
  match its, fuel with
  | [], _ => ([], None)
  | _, O => ([], Some RecursionLimit)
  | _, S fuel =>
      match interleave_round its with
      | (l, Some its) => let '(l', e) := interleave fuel its in (l ++ l', e)
      | (l, None) => (l, Some (RuntimeError "generator raised StopIteration"))
      end
  end.

Lemma round_shrinks its l its' x rest :
  interleave_round its = (l, Some its') -> its = x :: rest ->
  exists y, head its' = Some y ∧ S (length y) = length x.
Proof.
  intros Hr ->. simpl in Hr. destruct x as [|a x]; [done|].
  destruct (interleave_round rest) as [l0 [r|]]; [|done]. simpl in Hr. simplify_eq. by exists x.
Qed.

(** Interleaving one or more iterators always ends in the error. *)
Lemma interleave_never_ends_normally (it : list A) (its : list (list A)) :
  (interleave (S (length it)) (it :: its)).2 = Some (RuntimeError "generator raised StopIteration").
Proof.
  remember (length it) as n eqn:Hn. revert it its Hn. induction n as [|n IH]; intros it its Hn.
  { destruct it; [done|done]. }
  destruct it as [|a it]; [done|]. simpl in Hn. injection Hn as Hn.
  change (interleave (S (S n)) ((a :: it) :: its)) with
    (match interleave_round ((a :: it) :: its) with
     | (l, Some its) => let '(l', e) := interleave (S n) its in (l ++ l', e)
     | (l, None) => (l, Some (RuntimeError "generator raised StopIteration"))
     end).
  cbn [interleave_round]. destruct (interleave_round its) as [l [r|]]; [|done].
  simpl fmap. specialize (IH it r Hn).
  change ((fun its0 : list (list A) => it :: its0) <$> Some r) with (Some (it :: r)). cbv beta iota.
  by destruct (interleave (S n) (it :: r)) as [l' e].
Qed.
End balanced.

(** Every item becomes [n] copies with one group and a name of their own each;
    [uuid] gives the names in the order they are drawn. *)
(* trainer/utils/utils.py:190-196 repeat *)
Fixpoint repeat_items (uuid : nat -> string) (next : nat) (n : nat)
    (items : list (list (string * val))) : list (list (string * val)) :=
  match items with
  | [] => []
  | d :: items =>
      let d := dset "group_id" (VStr (uuid next)) d in
      ((fun k => dset "uid" (VStr (uuid (next + 1 + k)%nat)) d) <$> seq 0 n) ++
      repeat_items uuid (next + 1 + n) n items
  end.

(* trainer/utils/utils.py:14-30 append_to_dict *)
Definition append_to_dict {V} (data : list (string * list V)) (new_data : list (string * V))
    : list (string * list V) :=
  foldl (fun d kv => dset kv.1 (dget_or kv.1 [] d ++ [kv.2]) d) data new_data.

(* trainer/utils/utils.py:46-48 append_with_prefix *)
Definition append_with_prefix {V} (data : list (string * V)) (prefix : string)
    (new_data : list (string * V)) : list (string * V) :=
  foldl (fun d kv => dset (prefix +:+ kv.1) kv.2 d) data new_data.

(** ** Concrete inputs *)

Definition demo_observation (finish : bool) : observation := {|
  ob_messages := [VStr "obs"]; ob_finish := finish; ob_reward := 1%Q;
  ob_status := "completed"; ob_metrics := [("client_observation_times", 1%Q)]
|}.

(** Two turns over a template of one token per message. *)
Definition demo_loop : M nat rollout :=
  openai_chat_agent_loop
    (mret {| st_messages := [VStr "task"]; st_tools := []; st_sid := VStr "7"; st_metrics := [] |})
    (fun _ => mret ("ok", [(1%Q, 5); (1%Q, 6)]))
    (fun _ _ n => (S n, Ok (demo_observation (bool_decide (n = 1%nat)))))
    (fun _ _ => mret tt)
    (fun h _ gen => Ok ((fun _ => 9) <$> h))
    (fun _ => Ok tt) (fun _ s => Ok (s, [])) 5 7 0%Q.

Example demo_rollout :
  match (demo_loop 0%nat).2 with
  | Ok r => input_ids r = [9; 5; 6; 9; 5; 6; 9] ∧ r_loss_mask r = [0; 1; 1; 0; 1; 1; 0] ∧
            loss_tokens r = 4 ∧ seq_len r = 7
  | Raise _ => False
  end.
Proof. vm_compute. done. Qed.

