(* ===== verification/ChatApi.v ===== *)
(** * The controller as the trainer uses it

    Models trainer/agentic/tasks.py, the requests that start, continue and end an
    episode, and openai_chat_task of trainer/components/task_manager.py, which
    gives them to the agent loop of Rollout.  The state is the list of the requests
    that were made; [server] answers the last of them.  The pauses between
    attempts are left out. *)

From S2P Require Import Prelude PyVal Rollout.

(** ** Requests *)

Record request := { api : string; session_header : option val; payload : val }.

(** A response; reading its body as JSON may raise. *)
Record response := { status : Z; headers : list (string * string); json : res val }.

Abbreviation log := (list request).

(** What the loop takes out of the answer to a start and to a message; what is not there
    raises [KeyError]. *)
Definition pop (k : string) (d : list (string * val)) : res val :=
  match dget k d with Some v => Ok v | None => Raise KeyError end.
Definition as_dict (v : val) : res (list (string * val)) :=
  match v with VDict d => Ok d | _ => Raise AttributeError end.
Definition as_list (v : val) : res (list val) :=
  match v with VList l => Ok l | VNone => Ok [] | _ => Raise TypeError end.
Definition as_number (v : val) : res Q :=
  match v with
  | VInt z => Ok (inject_Z z)
  | VBool b => Ok (if b then 1%Q else 0%Q)
  | VFloat (Fin q) => Ok q
  | _ => Raise TypeError
  end.
Definition as_metrics (v : val) : res metrics :=
  d ← as_dict v; map_r (fun kv => q ← as_number kv.2; Ok (kv.1, q)) d.

Definition read_start (d : list (string * val)) : res start :=
  history ← pop "messages" d; history ← as_list history;
  tools ← pop "tools" d; tools ← as_list tools;
  sid ← pop "sid" d;
  m ← as_metrics (dget_or "metrics" (VDict []) d);
  Ok {| st_messages := history; st_tools := tools; st_sid := sid; st_metrics := m |}.

Definition read_observation (d : list (string * val)) : res observation :=
  messages ← pop "messages" d; messages ← as_list messages;
  finish ← pop "finish" d;
  reward ← pop "reward" d; reward ← as_number reward;
  status ← pop "status" d;
  m ← as_metrics (dget_or "metrics" (VDict []) d);
  Ok {| ob_messages := messages; ob_finish := truthy finish; ob_reward := reward;
        ob_status := match status with VStr s => s | _ => "" end; ob_metrics := m |}.

Section api.
(** The answer to the last request, which may fail. *)
Context (server : log -> res response).
(** [str(sid)] *)
Context (str_of : val -> string).

Definition post (r : request) : M log response := fun l => (l ++ [r], server (l ++ [r])).

(** ** Starting a sample *)

Definition start_request (index name : val) : request :=
  {| api := "/start_sample"; session_header := None; payload := VDict [("index", index); ("name", name)] |}.

(* trainer/agentic/tasks.py:18-28 openai_chat_start *)
Definition start_attempt (index name : val) : M log (list (string * val)) :=
  response ← post (start_request index name);
  ret ← lift_res (json response);
  (if bool_decide (400 <= status response) then raise (HTTPStatusError (status response)) else mret tt);;
  sid ← lift_res (match dget "session_id" (headers response) with Some s => Ok s | None => Raise KeyError end);
  ret ← lift_res (match ret with VDict d => Ok (dset "sid" (VStr sid) d) | _ => Raise TypeError end);
  messages ← lift_res (pop "messages" ret);
  (if truthy messages then mret tt else raise AssertionError);;
  mret ret.

Fixpoint start_loop (max_retries : nat) (index name : val) : M log (list (string * val)) :=
  match max_retries with
  | O => raise NotImplementedError
  | S n =>
      try_except (start_attempt index name)
        (fun e => if is_Exception e then
                    Some (match n with O => raise e | S _ => start_loop n index name end)
                  else None)
  end.

(* trainer/agentic/tasks.py:9-36 openai_chat_start *)
Definition openai_chat_start (index name : val) : M log (list (string * val)) := start_loop 5 index name.

(** ** Continuing and ending it *)

Definition interact_request (sid message : val) : request :=
  {| api := "/interact"; session_header := Some (VStr (str_of sid)); payload := VDict [("messages", VList [message])] |}.

(* trainer/agentic/tasks.py:39-48 openai_chat_obs *)
Definition openai_chat_obs (message sid : val) : M log (list (string * val)) :=
  response ← post (interact_request sid message);
  (if bool_decide (status response = 200) then mret tt else raise AssertionError);;
  ret ← lift_res (json response);
  ret ← lift_res (as_dict ret);
  metrics ← lift_res (match dget_or "metrics" (VDict []) ret with VDict d => Ok d | _ => Raise TypeError end);
  mret (dset "metrics" (VDict (dupdate metrics [("client_observation_times", VInt 1)])) ret).

Definition cancel_request (sid : val) : request :=
  {| api := "/cancel"; session_header := Some sid; payload := VDict [] |}.

(* trainer/agentic/tasks.py:51-60 openai_chat_end *)
Definition openai_chat_end (sid : val) (done : bool) : M log unit :=
  if done then mret tt
  else try_except (post (cancel_request sid);; mret tt) (fun e => if is_Exception e then Some (mret tt) else None).

(** ** The task of the trainer *)

Context (generate : log -> list Z -> res (string * list (Q * Z)))
        (apply_chat_template : list val -> list val -> bool -> res (list Z))
        (new_parser : list val -> res unit)
        (parse_non_stream : list val -> string -> res (string * list tool_call)).

(** What is read of the configuration. *)
Record task_config := {
  loop_start_args : list string;
  max_turns : nat;
  max_total_len : Z;
  incomplete_punishment : option Q;
  max_retries : option nat
}.

(** [start_fn] is called with the fields of the item that are named; anything but the two
    it has raises [TypeError]. *)
Definition start_fn (start_args : list (string * val)) : M log start :=
  '(index, name) ← lift_res (match dget "index" start_args, dget "name" start_args with
                              | Some i, Some n => if bool_decide (Forall (fun k => k = "index" \/ k = "name") start_args.*1)
                                                  then Ok (i, n) else Raise TypeError
                              | _, _ => Raise TypeError
                              end);
  d ← openai_chat_start index name;
  lift_res (read_start d).

Definition obs_fn (message sid : val) : M log observation :=
  d ← openai_chat_obs message sid; lift_res (read_observation d).

(* trainer/components/task_manager.py:187-213 openai_chat_task *)
Definition openai_chat_task (config : task_config) (item : list (string * val)) : M log (option rollout) :=
  let item := filter (fun kv => kv.1 ∈ loop_start_args config) item in
  retry_openai_chat_agent_loop (start_fn item) (fun ids l => (l, generate l ids)) obs_fn openai_chat_end
    apply_chat_template new_parser parse_non_stream
    (max_turns config) (max_total_len config - 10) (default 0%Q (incomplete_punishment config))
    (default 10%nat (max_retries config)).

(** ** Proofs: starting *)

Section start.
Context (index name : val).
#[local] Abbreviation starts k := (replicate k (start_request index name)).

Lemma post_run r l : post r l = (l ++ [r], server (l ++ [r])).
Proof. done. Qed.

(** An attempt makes one request. *)
Lemma start_attempt_log l : (start_attempt index name l).1 = l ++ [start_request index name].
Proof.
  unfold start_attempt. unfold mbind at 1, M_bind at 1. rewrite post_run.
  destruct (server _) as [r|e]; [|done]. rewrite bind_lift. destruct (json r) as [v|]; [|done].
  case_bool_decide; [done|]. unfold mbind at 1, M_bind at 1, mret at 1, M_ret at 1. rewrite bind_lift.
  destruct (dget _ _); [|done]. rewrite bind_lift. destruct v; try done. rewrite bind_lift. destruct (pop _ _) as [m|]; [|done].
  by destruct (truthy m).
Qed.

(** The answers decide how many attempts are made, and the last one gives the result. *)
Definition started (l : log) (k : nat) (r : res (list (string * val))) : Prop :=
  (forall i, (S i < k)%nat -> exists e, (start_attempt index name (l ++ starts i)).2 = Raise e ∧ is_Exception e = true) ∧
  (start_attempt index name (l ++ starts (k - 1))).2 = r.

Lemma start_loop_spec n l : (0 < n)%nat -> exists k, (1 <= k <= n)%nat ∧
  (start_loop n index name l).1 = l ++ starts k ∧ started l k (start_loop n index name l).2 ∧
  ((k < n)%nat -> forall e, (start_loop n index name l).2 = Raise e -> is_Exception e = false).
Proof.
  revert l. induction n as [|n IH]; intros l Hn; [lia|]. cbn [start_loop]. unfold try_except.
  pose proof (start_attempt_log l) as Hlog. destruct (start_attempt index name l) as [l1 r] eqn:E. cbn [fst] in Hlog. subst l1.
  assert (Hone : started l 1 r) by (split; [lia|]; by rewrite app_nil_r, E).
  destruct r as [d|e].
  - exists 1%nat. split; [lia|]. split; [done|]. split; [done|]. by intros _ e [= ].
  - destruct (is_Exception e) eqn:He.
    + destruct n as [|n]; [exists 1%nat; split; [lia|]; split; [done|]; split; [done|lia]|].
      destruct (IH (l ++ [start_request index name]) ltac:(lia)) as (k & Hk & H1 & [H2 H3] & H4).
      exists (S k). split; [lia|]. split; [rewrite H1; by rewrite <- app_assoc|]. split; [|intros; apply H4; [lia|done]].
      split.
      * intros [|i] Hi; [exists e; by rewrite app_nil_r, E|]. destruct (H2 i ltac:(lia)) as (e' & H' & He'). exists e'.
        split; [|done]. by rewrite <- app_assoc in H'.
      * rewrite <- H3. replace (S k - 1)%nat with (S (k - 1)) by lia. by rewrite <- app_assoc.
    + exists 1%nat. split; [lia|]. split; [done|]. split; [done|]. by intros _ e' [= <-].
Qed.
End start.

(** ** Proofs: the requests of an episode *)

(** What one run of the agent loop asks for: attempts to start, messages to the session
    and maybe its end. *)
Record episode := { attempts : nat; e_sid : val; talks : list val; cancelled : bool }.

Section requests.
Context (index name : val).
Definition requests (e : episode) : log :=
  replicate (attempts e) (start_request index name) ++ (interact_request (e_sid e) <$> talks e) ++
  (if cancelled e then [cancel_request (e_sid e)] else []).

(** The session of an episode is the one the last attempt to start it has opened. *)
Definition opened (l : log) (e : episode) : Prop :=
  exists r s, server (l ++ replicate (attempts e) (start_request index name)) = Ok r ∧
    dget "session_id" (headers r) = Some s ∧ e_sid e = VStr s.

(** An answer that ends the session. *)
Definition finishes (r : res response) : Prop :=
  exists a d v, r = Ok a ∧ json a = Ok (VDict d) ∧ dget "finish" d = Some v ∧ truthy v = true.

Definition bounded (turns : nat) (l : log) (e : episode) : Prop :=
  (attempts e <= 5)%nat ∧ (length (talks e) <= turns)%nat ∧ (talks e ≠ [] \/ cancelled e = true -> opened l e).
End requests.

Lemma obs_fn_log m sid l : (obs_fn m sid l).1 = l ++ [interact_request sid m].
Proof.
  unfold obs_fn, openai_chat_obs. unfold mbind at 1 2, M_bind at 1 2. rewrite post_run.
  destruct (server _) as [r|e]; [|done]. case_bool_decide; [|done].
  unfold mbind at 1, M_bind at 1, mret at 1, M_ret at 1. rewrite bind_lift.
  destruct (json r) as [v|]; [|done]. rewrite bind_lift. destruct (as_dict v) as [d|]; [|done].
  rewrite bind_lift. by destruct (dget_or _ _ d).
Qed.

Lemma obs_fn_finish m sid l l' o : obs_fn m sid l = (l', Ok o) -> ob_finish o = true ->
  l' = l ++ [interact_request sid m] ∧ finishes (server l').
Proof.
  intros H Hf. pose proof (obs_fn_log m sid l) as Hl. rewrite H in Hl. cbn [fst] in Hl. subst l'. split; [done|].
  unfold obs_fn in H. apply M_bind_ok in H as (d & l1 & H & Hd). unfold openai_chat_obs in H.
  apply M_bind_ok in H as (r & l2 & Hr & H). rewrite post_run in Hr. injection Hr as <- Hr.
  apply M_bind_ok in H as (u & l3 & _ & H). apply M_bind_ok in H as (v & l4 & Hj & H).
  apply M_bind_ok in H as (d0 & l5 & Hd0 & H). apply M_bind_ok in H as (m0 & l6 & _ & H). injection H as <- <-.
  injection Hj as _ Hj. injection Hd0 as _ Hd0. destruct v as [| | | | | |dv]; try done. injection Hd0 as ->.
  injection Hd as _ Hd. unfold read_observation in Hd. unfold pop in Hd. rewrite !dget_dset_ne in Hd by done.
  exists r, d0. destruct (dget "messages" d0) as [mm|]; [|done]. cbn in Hd. destruct (as_list mm); [|done]. cbn in Hd.
  destruct (dget "finish" d0) as [fv|]; [|done]. exists fv. split; [done|]. split; [done|]. split; [done|]. cbn in Hd.
  destruct (dget "reward" d0) as [rv|]; [|done]. cbn in Hd. destruct (as_number rv); [|done]. cbn in Hd.
  destruct (dget "status" d0) as [sv|]; [|done]. cbn in Hd. destruct (as_metrics _); [|done]. injection Hd as <-. exact Hf.
Qed.

#[local] Abbreviation gen_fn := (fun ids l => (l, generate l ids)).
#[local] Abbreviation the_turn := (turn gen_fn obs_fn apply_chat_template new_parser parse_non_stream).
#[local] Abbreviation the_interact := (interact gen_fn obs_fn apply_chat_template new_parser parse_non_stream).

(** A turn sends at most one message; when it ends the session, the answer says so. *)
Lemma turn_log len tools sid s l l' r : the_turn len tools sid s l = (l', r) ->
  exists ms, l' = l ++ (interact_request sid <$> ms) ∧ (length ms <= 1)%nat ∧
    forall s' b, r = Ok (s', b) -> l_done s' = true -> b = true ∧ finishes (server l').
Proof.
  intros H. unfold turn in H. unfold mbind at 1, M_bind at 1 in H. destruct (generate l (ids s)) as [g|e].
  2:{ injection H as <- <-. exists []. rewrite app_nil_r. split; [done|]. split; [simpl; lia|]. by intros ? ? [= ]. }
  cbv zeta in H. rewrite bind_lift in H. destruct (assistant_message _ _ _ _) as [m|e].
  2:{ injection H as <- <-. exists []. rewrite app_nil_r. split; [done|]. split; [simpl; lia|]. by intros ? ? [= ]. }
  exists [m]. destruct (obs_fn m sid l) as [l1 [o|e]] eqn:Eo.
  2:{ pose proof (obs_fn_log m sid l) as Hl. rewrite Eo in Hl. unfold mbind at 1, M_bind at 1 in H. rewrite Eo in H.
      injection H as <- <-. split; [exact Hl|]. split; [simpl; lia|]. by intros ? ? [= ]. }
  pose proof (obs_fn_log m sid l) as Hl. rewrite Eo in Hl. cbn [fst] in Hl.
  erewrite M_bind_run in H by exact Eo. rewrite bind_lift in H.
  assert (Hend : forall e, (l1, Raise e) = (l', r) -> l' = l ++ (interact_request sid <$> [m]) ∧ (length [m] <= 1)%nat ∧
    forall s' b, r = Ok (s', b) -> l_done s' = true -> b = true ∧ finishes (server l')).
  { intros e [= <- <-]. split; [done|]. split; [simpl; lia|]. by intros ? ? [= ]. }
  destruct (apply_chat_template _ tools false) as [last|e]; [|by apply (Hend e)].
  rewrite bind_lift in H. destruct (apply_chat_template _ tools true) as [now|e]; [|by apply (Hend e)].
  injection H as <- <-. split; [done|]. split; [simpl; lia|]. intros s' b [= <- <-]. cbn [l_done]. intros Hf. split; [by rewrite Hf|].
  by apply (obs_fn_finish m sid l l1 o).
Qed.

Lemma interact_log len n tools sid s l l' r : the_interact len n tools sid s l = (l', r) ->
  exists ms, l' = l ++ (interact_request sid <$> ms) ∧ (length ms <= n)%nat ∧
    forall s', r = Ok s' -> l_done s = false -> l_done s' = true -> finishes (server l').
Proof.
  revert s l. induction n as [|n IH]; intros s l H; cbn [interact] in H.
  - injection H as <- <-. exists []. rewrite app_nil_r. split; [done|]. split; [done|]. intros s' [= <-]. congruence.
  - destruct (the_turn len tools sid s l) as [l1 [[s1 b]|e]] eqn:E.
    + destruct (turn_log _ _ _ _ _ _ _ E) as (ms & -> & Hms & Hd). erewrite M_bind_run in H by exact E. cbn [fst snd] in H.
      destruct b.
      * injection H as <- <-. exists ms. split; [done|]. split; [lia|]. intros s' [= <-] _ H. by eapply Hd.
      * destruct (IH _ _ H) as (ms' & -> & Hms' & Hd'). exists (ms ++ ms'). rewrite fmap_app, app_assoc. split; [done|].
        split; [rewrite length_app; lia|]. intros s' Hr _. apply Hd'; [done|]. destruct (l_done s1) eqn:Es; [|done].
        by destruct (Hd s1 false eq_refl Es).
    + destruct (turn_log _ _ _ _ _ _ _ E) as (ms & Hl & Hms & _). unfold mbind, M_bind in H. rewrite E in H.
      injection H as <- <-. exists ms. split; [done|]. split; [lia|]. by intros s' [= ].
Qed.

(** The attempt that works gives the session of its answer. *)
Lemma start_attempt_session index name l d : (start_attempt index name l).2 = Ok d ->
  exists r s, server (l ++ [start_request index name]) = Ok r ∧ dget "session_id" (headers r) = Some s ∧ dget "sid" d = Some (VStr s).
Proof.
  destruct (start_attempt index name l) as [l' r0] eqn:H. cbn [snd]. intros ->. unfold start_attempt in H.
  apply M_bind_ok in H as (r & l2 & Hr & H). rewrite post_run in Hr. injection Hr as <- Hr.
  apply M_bind_ok in H as (v & l3 & _ & H). apply M_bind_ok in H as (u & l4 & _ & H).
  apply M_bind_ok in H as (s & l5 & Hs & H). apply M_bind_ok in H as (d' & l6 & Hd & H).
  apply M_bind_ok in H as (m & l7 & _ & H). apply M_bind_ok in H as (u' & l8 & _ & H). injection H as _ <-.
  injection Hs as _ Hs. injection Hd as _ Hd. exists r, s. split; [done|]. destruct (dget "session_id" (headers r)) as [s'|]; [|done].
  injection Hs as ->. split; [done|]. destruct v; try done. injection Hd as <-. apply dget_dset_eq.
Qed.

Lemma read_start_sid d st : read_start d = Ok st -> dget "sid" d = Some (st_sid st).
Proof.
  unfold read_start, pop. destruct (dget "messages" d); [|done]. cbn. destruct (as_list _); [|done]. cbn.
  destruct (dget "tools" d); [|done]. cbn. destruct (as_list _); [|done]. cbn. destruct (dget "sid" d); [|done]. cbn.
  destruct (as_metrics _); [|done]. by intros [= <-].
Qed.

Section item.
Context (item : list (string * val)).
#[local] Abbreviation index := (dget_or "index" VNone item).
#[local] Abbreviation name := (dget_or "name" VNone item).
#[local] Abbreviation starts k := (replicate k (start_request index name)).

Lemma start_fn_log l l' r : start_fn item l = (l', r) -> exists k, (k <= 5)%nat ∧ l' = l ++ starts k ∧
  forall st, r = Ok st -> exists a s, server l' = Ok a ∧ dget "session_id" (headers a) = Some s ∧ st_sid st = VStr s.
Proof.
  intros H. unfold start_fn in H. rewrite bind_lift in H.
  assert (Hnone : forall e, (l, Raise e) = (l', r) -> exists k, (k <= 5)%nat ∧ l' = l ++ starts k ∧
    forall st, r = Ok st -> exists a s, server l' = Ok a ∧ dget "session_id" (headers a) = Some s ∧ st_sid st = VStr s).
  { intros e [= <- <-]. exists 0%nat. rewrite app_nil_r. split; [lia|]. split; [done|]. by intros st [= ]. }
  destruct (dget "index" item) as [i|] eqn:Ei; [|by apply (Hnone TypeError)].
  destruct (dget "name" item) as [n|] eqn:En; [|by apply (Hnone TypeError)].
  destruct (bool_decide _); [|by apply (Hnone TypeError)]. clear Hnone.
  assert (dget_or "index" VNone item = i) as Hi by (unfold dget_or; by rewrite Ei).
  assert (dget_or "name" VNone item = n) as Hn by (unfold dget_or; by rewrite En). rewrite Hi, Hn.
  destruct (start_loop_spec i n 5 l ltac:(lia)) as (k & Hk & H1 & [_ H2] & _).
  unfold openai_chat_start in H. destruct (start_loop 5 i n l) as [l1 [d|e]] eqn:E; cbn [fst snd] in *.
  - erewrite M_bind_run in H by exact E. injection H as -> <-. exists k. split; [lia|]. split; [done|].
    intros st Hst. destruct (start_attempt_session i n _ d H2) as (a & s & Ha & Hs & Hd). exists a, s.
    rewrite <- app_assoc, <- (replicate_cons_app (k - 1)) in Ha. change (_ :: replicate (k - 1) _) with (replicate (S (k - 1)) (start_request i n)) in Ha.
    replace (S (k - 1)) with k in Ha by lia. rewrite <- H1 in Ha.
    split; [done|]. split; [done|]. apply read_start_sid in Hst. congruence.
  - unfold mbind, M_bind in H. rewrite E in H. injection H as <- <-. exists k. split; [lia|]. split; [done|]. by intros st [= ].
Qed.

Lemma end_log sid done l l' r : openai_chat_end sid done l = (l', r) ->
  l' = l ++ (if done then [] else [cancel_request sid]) ∧ forall e, r = Raise e -> is_Exception e = false.
Proof.
  unfold openai_chat_end. destruct done; [intros [= <- <-]; rewrite app_nil_r; split; [done|]; by intros e [= ]|].
  unfold try_except, mbind, M_bind. rewrite post_run. destruct (server _) as [a|e].
  - intros [= <- <-]. split; [done|]. by intros e [= ].
  - destruct (is_Exception e) eqn:He; intros [= <- <-]; (split; [done|]).
    + by intros e' [= ].
    + by intros e' [= <-].
Qed.

(** One run of the loop is an episode; it ends its session, or hears of its end, when it
    returns, and otherwise neither. *)
Lemma loop_log turns len pun l l' r :
  openai_chat_agent_loop (start_fn item) gen_fn obs_fn openai_chat_end apply_chat_template new_parser parse_non_stream turns len pun l
    = (l', r) ->
  exists e, l' = l ++ requests index name e ∧ bounded index name turns l e ∧
    match r with
    | Ok _ => cancelled e = true \/ finishes (server l')
    | Raise ex => cancelled e = false \/ is_Exception ex = false
    end.
Proof.
  intros H. unfold openai_chat_agent_loop in H. destruct (start_fn item l) as [l1 r1] eqn:Es.
  destruct (start_fn_log _ _ _ Es) as (k & Hk & -> & Hsid).
  assert (Hstop : forall ex, (l ++ starts k, Raise ex) = (l', r) -> exists e, l' = l ++ requests index name e ∧
    bounded index name turns l e ∧ match r with
      | Ok _ => cancelled e = true \/ finishes (server l') | Raise ex => cancelled e = false \/ is_Exception ex = false end).
  { intros ex [= <- <-]. exists {| attempts := k; e_sid := VNone; talks := []; cancelled := false |}.
    unfold requests. cbn. rewrite app_nil_r. split; [done|]. split; [|by left]. split; [done|]. split; [simpl; lia|]. by intros [?|?]. }
  destruct r1 as [st|ex]; [|unfold mbind, M_bind in H; rewrite Es in H; by apply (Hstop ex)].
  erewrite M_bind_run in H by exact Es. rewrite bind_lift in H.
  destruct (apply_chat_template _ _ true) as [prompt|ex]; [|by apply (Hstop ex)]. clear Hstop.
  destruct (Hsid st eq_refl) as (a & s & Ha & Hs & Hst).
  match type of H with (?m ≫= _) ?w = _ => destruct (m w) as [l2 r2] eqn:Ei end.
  destruct (interact_log _ _ _ _ _ _ _ _ Ei) as (ms & -> & Hms & Hd).
  assert (Hop : forall c, bounded index name turns l {| attempts := k; e_sid := st_sid st; talks := ms; cancelled := c |}).
  { intros c. split; [done|]. split; [done|]. intros _. exists a, s. by rewrite <- Hst. }
  destruct r2 as [s2|ex].
  2:{ unfold mbind, M_bind in H. rewrite Ei in H. injection H as <- <-.
      exists {| attempts := k; e_sid := st_sid st; talks := ms; cancelled := false |}.
      unfold requests. cbn. rewrite app_nil_r, <- app_assoc. split; [done|]. split; [done|by left]. }
  assert (Hfull : length (ids s2) = length (loss_mask s2) ∧ length (loss_mask s2) = length (log_probs s2)).
  { eapply (interact_matches _ _ _ _ _ _ _ _ _ prompt []) in Ei as (x & (H1 & H2 & H3) & _ & _).
    - destruct (all_lengths prompt ([] ++ x)) as [L1 L2]. by rewrite H1, H2, H3.
    - unfold matches, all_ids, all_mask, all_log_probs. simpl. by rewrite !app_nil_r. }
  erewrite M_bind_run in H by exact Ei. set (l2 := (l ++ starts k) ++ (interact_request (st_sid st) <$> ms)) in *.
  assert (Hlog : l2 ++ (if l_done s2 then [] else [cancel_request (st_sid st)])
    = l ++ requests index name {| attempts := k; e_sid := st_sid st; talks := ms; cancelled := negb (l_done s2) |}).
  { unfold requests, l2. cbn. rewrite <- !app_assoc. by destruct (l_done s2). }
  exists {| attempts := k; e_sid := st_sid st; talks := ms; cancelled := negb (l_done s2) |}.
  destruct (openai_chat_end (st_sid st) (l_done s2) l2) as [l3 r3] eqn:Ee.
  destruct (end_log _ _ _ _ _ Ee) as [-> Hex]. rewrite <- Hlog. destruct r3 as [[]|ex].
  - erewrite M_bind_run in H by exact Ee. unfold assert_ in H. rewrite (bool_decide_true _ Hfull) in H. injection H as <- <-.
    split; [done|]. split; [done|]. cbn. destruct (l_done s2) eqn:Ed; [right; rewrite app_nil_r; by apply (Hd s2)|by left].
  - unfold mbind, M_bind in H. rewrite Ee in H. injection H as <- <-. split; [done|]. split; [done|]. right. by apply Hex.
Qed.

(** A failed episode comes before the others. *)
Definition played (n turns : nat) (l l' : log) (r : res (option rollout)) (es : list episode) : Prop :=
  l' = l ++ mjoin (requests index name <$> es) ∧ (length es <= n)%nat ∧
  (forall es1 e es2, es = es1 ++ e :: es2 ->
     bounded index name turns (l ++ mjoin (requests index name <$> es1)) e ∧ (es2 ≠ [] -> cancelled e = false)) ∧
  match r with
  | Ok (Some _) => exists es1 e, es = es1 ++ [e] ∧ (cancelled e = true \/ finishes (server l'))
  | Ok None => Forall (fun e => cancelled e = false) es
  | Raise ex => is_Exception ex = false
  end.

Lemma played_last n turns l e r : bounded index name turns l e ->
  match r with
  | Ok (Some _) => cancelled e = true \/ finishes (server (l ++ requests index name e))
  | Ok None => cancelled e = false
  | Raise ex => is_Exception ex = false
  end -> played (S n) turns l (l ++ requests index name e) r [e].
Proof.
  intros Hb Hr. split; [simpl; by rewrite app_nil_r|]. split; [simpl; lia|]. split.
  - intros es1 x es2 E. destruct es1 as [|y es1]; [|by destruct es1]. injection E as <- <-. simpl. by rewrite app_nil_r.
  - destruct r as [[x|]|ex]; [by exists [], e|by constructor|done].
Qed.

Lemma played_cons n turns l e l' r es : bounded index name turns l e -> cancelled e = false ->
  played n turns (l ++ requests index name e) l' r es -> played (S n) turns l l' r (e :: es).
Proof.
  intros Hb Hc (Hl & Hn & Hes & Hr). split; [rewrite Hl; simpl; by rewrite app_assoc|]. split; [simpl; lia|]. split.
  - intros [|y es1] x es2 E; injection E as -> E; [simpl; by rewrite app_nil_r|].
    simpl. rewrite app_assoc. by apply Hes.
  - destruct r as [[x|]|ex]; [|by constructor|done]. destruct Hr as (es1 & x' & -> & H). by exists (e :: es1), x'.
Qed.

Lemma retry_log n turns len pun l l' r :
  retry_openai_chat_agent_loop (start_fn item) gen_fn obs_fn openai_chat_end apply_chat_template new_parser parse_non_stream
    turns len pun n l = (l', r) -> exists es, played n turns l l' r es.
Proof.
  revert l. induction n as [|n IH]; intros l H; cbn [retry_openai_chat_agent_loop] in H.
  - injection H as <- <-. exists []. split; [simpl; by rewrite app_nil_r|]. split; [done|]. split; [by intros [|? ?] ? ?|constructor].
  - destruct (openai_chat_agent_loop (start_fn item) gen_fn obs_fn openai_chat_end apply_chat_template new_parser parse_non_stream
      turns len pun l) as [l1 r1] eqn:E.
    destruct (loop_log _ _ _ _ _ _ E) as (e & -> & Hb & He). unfold try_except in H. unfold mbind at 1, M_bind at 1 in H. rewrite E in H.
    destruct r1 as [x|ex]; [injection H as <- <-; exists [e]; by apply played_last|].
    assert (Hstop : is_Exception ex = true -> (l ++ requests index name e, Ok None) = (l', r) -> exists es, played (S n) turns l l' r es).
    { intros Hx [= <- <-]. exists [e]. apply played_last; [done|]. destruct He as [He|He]; congruence. }
    assert (Hgo : is_Exception ex = true -> retry_openai_chat_agent_loop (start_fn item) gen_fn obs_fn openai_chat_end
        apply_chat_template new_parser parse_non_stream turns len pun n (l ++ requests index name e) = (l', r) -> exists es, played (S n) turns l l' r es).
    { intros Hx Hr. destruct (IH _ Hr) as [es Hes]. exists (e :: es). apply played_cons; [done| |done]. destruct He; congruence. }
    assert (Hout : is_Exception ex = false -> (l ++ requests index name e, Raise ex) = (l', r) -> exists es, played (S n) turns l l' r es).
    { intros Hx [= <- <-]. exists [e]. by apply played_last. }
    destruct ex; (by apply Hstop) || (by apply Hgo) || (by apply Hout).
Qed.
End item.

(** C35: whatever the controller and the model do, the requests of an item are those
    of at most max_retries episodes, one after the other, each within its tries to
    start and its turns; one that was cancelled is the last, a rollout comes from
    the last, whose session is cancelled unless the server finished it, and only
    what is not an Exception leaves the task. *)
Theorem episodes_of_task (config : task_config) (item : list (string * val)) (l l' : log) (r : res (option rollout)) :
  openai_chat_task config item l = (l', r) ->
  let args := filter (fun kv => kv.1 ∈ loop_start_args config) item in
  let all := requests (dget_or "index" VNone args) (dget_or "name" VNone args) in
  exists es, l' = l ++ mjoin (all <$> es) ∧ (length es <= default 10%nat (max_retries config))%nat ∧
    (forall es1 e es2, es = es1 ++ e :: es2 ->
       bounded (dget_or "index" VNone args) (dget_or "name" VNone args) (max_turns config) (l ++ mjoin (all <$> es1)) e ∧
       (es2 ≠ [] -> cancelled e = false)) ∧
    match r with
    | Ok (Some _) => exists es1 e, es = es1 ++ [e] ∧ (cancelled e = true \/ finishes (server l'))
    | Ok None => Forall (fun e => cancelled e = false) es
    | Raise ex => is_Exception ex = false
    end.
Proof. intros H args all. by apply retry_log in H. Qed.
End api.

Module Examples.
#[local] Open Scope string_scope.

(** A controller whose first session breaks at its first message. *)
Definition answers (l : log) : res response :=
  match last l with
  | Some r =>
      if bool_decide (api r = "/start_sample") then
        let n := Z.of_nat (length (filter (fun r => api r = "/start_sample") l)) in
        Ok {| status := 200; headers := [("session_id", str_Z n)];
              json := Ok (VDict [("messages", VList [VStr "task"]); ("tools", VList [])]) |}
      else if bool_decide (api r = "/interact") && match session_header r with Some v => is_str "1" v | None => false end then
        Ok {| status := 500; headers := []; json := Raise ValueError |}
      else
        Ok {| status := 200; headers := [];
              json := Ok (VDict [("messages", VList []); ("finish", VBool false); ("reward", VInt 0); ("status", VStr "running")]) |}
  | None => Raise ClientError
  end.
Definition config : task_config :=
  {| loop_start_args := ["index"; "name"]; max_turns := 2; max_total_len := 1000; incomplete_punishment := None; max_retries := None |}.
Definition item : list (string * val) := [("index", VInt 3); ("name", VStr "os"); ("uid", VStr "u")].
Definition show (v : val) : string := match v with VStr s => s | _ => "" end.
Definition says (l : log) (ids : list Z) : res (string * list (Q * Z)) := Ok ("ok", [(0%Q, 5)]).
Definition template (h tools : list val) (gen : bool) : res (list Z) := Ok ((fun _ => 9) <$> h).
Definition no_parser (tools : list val) : res unit := Ok tt.
Definition no_calls (tools : list val) (s : string) : res (string * list tool_call) := Ok (s, []).
#[local] Abbreviation task := (openai_chat_task answers show says template no_parser no_calls config item).

(** The first session is never cancelled. *)
Example first_session_stays : (fun r => (api r, session_header r)) <$> (task []).1 =
  [("/start_sample", None); ("/interact", Some (VStr "1"));
   ("/start_sample", None); ("/interact", Some (VStr "2")); ("/interact", Some (VStr "2")); ("/cancel", Some (VStr "2"))].
Proof. by vm_compute. Qed.

(** The fields the loop is started with. *)
Example item_args : filter (fun kv => kv.1 ∈ loop_start_args config) item = [("index", VInt 3); ("name", VStr "os")].
Proof. by vm_compute. Qed.

Lemma episodes_of_task_witness : exists l r es, task [] = (l, r) /\ l = mjoin (requests show (VInt 3) (VStr "os") <$> es) /\
  (length es <= 10)%nat.
Proof.
  pose proof (episodes_of_task answers show says template no_parser no_calls config item [] (task []).1 (task []).2
    (surjective_pairing (task []))) as H.
  cbv zeta in H. rewrite item_args in H. destruct H as (es & Hl & Hn & _).
  exists (task []).1, (task []).2, es. split; [apply surjective_pairing|]. split; [exact Hl|exact Hn].
Defined.
End Examples.
