(* ===== verification/Advantage.v ===== *)
(** * Advantages and losses

    Models trainer/algorithms/core_algos.py and advantage.py, with the masked
    means of trainer/utils/torch_functional.py, over exact rational numbers: a
    tensor of shape (bs, response_length) is the list of its rows, and a division
    by zero, which torch answers with inf or nan, gives 0.  [std], [rsqrt], [exp],
    [topk], [pow] and [multinomial] of torch are arguments. *)

From Stdlib Require Export Qreduction Field Lqa Qcanon.
From S2P Require Import Prelude PyVal.

Declare Scope tensor_scope.
Delimit Scope tensor_scope with T.

Abbreviation row := (list Qc).
Abbreviation tensor := (list (list Qc)).

#[local] Open Scope Qc_scope.

(** ** Tensor operations *)

Definition qc (p : Z) (q : positive) : Qc := Q2Qc (p # q).
Definition of_nat (n : nat) : Qc := qc (Z.of_nat n) 1.

Definition sum (l : row) : Qc := foldr Qcplus 0 l.
Definition total (m : tensor) : Qc := sum (sum <$> m).
Definition mean (l : row) : Qc := sum l / of_nat (length l).

Definition Qcmax (a b : Qc) : Qc := if Qclt_le_dec a b then b else a.
Definition Qcmin (a b : Qc) : Qc := if Qclt_le_dec b a then b else a.
Definition clamp (lo hi x : Qc) : Qc := Qcmin (Qcmax x lo) hi.
Definition Qcltb (a b : Qc) : bool := if Qclt_le_dec a b then true else false.
Definition indicator (b : bool) : Qc := if b then 1 else 0.

Definition zip_rows (f : Qc -> Qc -> Qc) : row -> row -> row := zip_with f.
Definition zip_tensors (f : Qc -> Qc -> Qc) : tensor -> tensor -> tensor := zip_with (zip_with f).
Definition map_tensor (f : Qc -> Qc) (m : tensor) : tensor := fmap (M := list) f <$> m.

(** ** Masked statistics *)

(* trainer/utils/torch_functional.py:137-152 masked_mean *)
Definition masked_mean (values mask : tensor) : Qc :=
  total (zip_tensors Qcmult values mask) / Qcmax (total mask) (qc 1 100000000).

(* trainer/utils/torch_functional.py:155-170 masked_var *)
Definition masked_var (values mask : tensor) (unbiased : bool) : res Qc :=
  let m := masked_mean values mask in
  let variance := masked_mean (map_tensor (fun x => (x - m) * (x - m)) values) mask in
  if unbiased then
    let mask_sum := total mask in
    if decide (mask_sum = 0) then Raise ValueError
    else if decide (mask_sum = 1) then Raise ValueError
    else Ok (variance * (mask_sum / (mask_sum - 1)))
  else Ok variance.

Section algorithms.
(** [torch.rsqrt], [scores.std()], [torch.exp], the indices of [torch.topk(_, 2)] *)
Context (rsqrt : Qc -> Qc) (std : row -> Qc) (exp : Qc -> Qc) (topk2 : row -> nat * nat).

(* trainer/utils/torch_functional.py:173-190 masked_whiten *)
Definition masked_whiten (values mask : tensor) (shift_mean : bool) : res tensor :=
  var ← masked_var values mask true;
  let m := masked_mean values mask in
  Ok (map_tensor (fun x => (x - m) * rsqrt (var + qc 1 100000000) +
                           if shift_mean then 0 else m) values).

(** ** The controllers of the KL coefficient *)

(* trainer/algorithms/core_algos.py:27-45 AdaptiveKLController *)
Inductive kl_controller : Type :=
| AdaptiveKLController (value target horizon : Qc)
| FixedKLController (value : Qc).

(* trainer/algorithms/core_algos.py:38-52 AdaptiveKLController.update *)
Definition update (c : kl_controller) (current_kl n_steps : Qc) : kl_controller :=
  match c with
  | AdaptiveKLController value target horizon =>
      let proportional_error := clamp (qc (-1) 5) (qc 1 5) (current_kl / target - 1) in
      AdaptiveKLController (value * (1 + proportional_error * n_steps / horizon)) target horizon
  | FixedKLController value => FixedKLController value
  end.

(* trainer/algorithms/core_algos.py:55-62 get_kl_controller *)
Definition get_kl_controller (type : string) (kl_coef target_kl horizon : Qc)
    : res kl_controller :=
  if bool_decide (type = "fixed") then Ok (FixedKLController kl_coef)
  else if bool_decide (type = "adaptive") then
    if Qcltb 0 horizon then Ok (AdaptiveKLController kl_coef target_kl horizon)
    else Raise AssertionError
  else Raise NotImplementedError.

(** ** Advantages of a batch *)

(** The loop from the last token to the first, on one row: the advantages from
    [t] on, and [lastgaelam]. *)
(* trainer/algorithms/core_algos.py:94-103 compute_gae_advantage_return *)
Fixpoint gae_row (gamma lam : Qc) (rewards values : row) : row * Qc :=
  match rewards, values with
  | r :: rewards, v :: values =>
      let '(rest, last) := gae_row gamma lam rewards values in
      let nextvalue := match values with v' :: _ => v' | [] => 0 end in
      let delta := r + gamma * nextvalue - v in
      let adv := delta + gamma * lam * last in
      (adv :: rest, adv)
  | _, _ => ([], 0)
  end.

(* trainer/algorithms/core_algos.py:65-107 compute_gae_advantage_return *)
Definition compute_gae_advantage_return (rewards values mask : tensor) (gamma lam : Qc)
    : res (tensor * tensor) :=
  let advantages := zip_with (fun r v => (gae_row gamma lam r v).1) rewards values in
  let returns := zip_tensors Qcplus advantages values in
  advantages ← masked_whiten advantages mask true;
  Ok (advantages, returns).

(* trainer/algorithms/core_algos.py:253-261 compute_reinforce_plus_plus_outcome_advantage *)
Fixpoint reinforce_row (gamma : Qc) (rewards mask : row) : row * Qc :=
  match rewards, mask with
  | r :: rewards, m :: mask =>
      let '(rest, running) := reinforce_row gamma rewards mask in
      let running := r + gamma * running in
      (running :: rest, running * m)
  | _, _ => ([], 0)
  end.

(* trainer/algorithms/core_algos.py:230-266 compute_reinforce_plus_plus_outcome_advantage *)
Definition compute_reinforce_plus_plus_outcome_advantage (rewards mask : tensor) (gamma : Qc)
    : res (tensor * tensor) :=
  let returns := zip_with (fun r m => (reinforce_row gamma r m).1) rewards mask in
  advantages ← masked_whiten returns mask true;
  Ok (zip_tensors Qcmult advantages mask, returns).

(** [x.flip(-1).cumsum(-1).flip(-1)] on a row. *)
Fixpoint suffix_sums (l : row) : row :=
  match l with
  | [] => []
  | x :: l' => (x + sum l') :: suffix_sums l'
  end.

(* trainer/algorithms/core_algos.py:267-296 compute_remax_outcome_advantage *)
Definition compute_remax_outcome_advantage (rewards : tensor) (baselines : row) (mask : tensor)
    : tensor * tensor :=
  let returns := suffix_sums <$> zip_tensors Qcmult rewards mask in
  (zip_with (fun ret bm => zip_rows (fun x m => x - bm.1 * m) ret bm.2)
     returns (zip_with pair baselines mask), returns).

(** ** Advantages of a group *)

(** [adv[i] * loss_mask[i]] *)
(* trainer/algorithms/core_algos.py:138-138 compute_grpo_outcome_advantage *)
Definition scale_masks (adv : row) (masks : list tensor) : list tensor :=
  zip_with (fun a m => map_tensor (Qcmult a) m) adv masks.

Definition scores (rewards : list tensor) : row := total <$> rewards.

(* trainer/algorithms/core_algos.py:111-140 compute_grpo_outcome_advantage *)
Definition grpo_scores (s : row) (norm_adv_by_std : bool) : row :=
  let '(m, d) := match s with [_] => (0, 1) | _ => (mean s, std s) end in
  if norm_adv_by_std then (fun x => (x - m) / (d + qc 1 1000000)) <$> s
  else (fun x => x - m) <$> s.
(* trainer/algorithms/core_algos.py:111-140 compute_grpo_outcome_advantage *)
Definition compute_grpo_outcome_advantage (rewards masks : list tensor) (norm_adv_by_std : bool)
    : res (list tensor) :=
  Ok (scale_masks (grpo_scores (scores rewards) norm_adv_by_std) masks).

(* trainer/algorithms/core_algos.py:143-171 compute_grpo_passk_outcome_advantage *)
Definition compute_grpo_passk_outcome_advantage (rewards masks : list tensor)
    (norm_adv_by_std : bool) : res (list tensor) :=
  let s := scores rewards in
  if bool_decide (length s < 2)%nat then Raise ValueError
  else
    let '(i, j) := topk2 s in
    let advantage := nth i s 0 - nth j s 0 in
    let advantage := if norm_adv_by_std then advantage / (std s + qc 1 1000000) else advantage in
    Ok (imap (fun k m =>
          map_tensor (fun x => if bool_decide (k = i) then advantage * x else 0) m) masks).

(* trainer/algorithms/core_algos.py:202-227 compute_rloo_outcome_advantage *)
Definition rloo_scores (s : row) : row :=
  let m := match s with [_] => 0 | _ => mean s end in
  let n := of_nat (length s) in
  if bool_decide (1 < length s)%nat
  then (fun x => x * n / (n - 1) - m * n / (n - 1)) <$> s
  else s.
(* trainer/algorithms/core_algos.py:202-227 compute_rloo_outcome_advantage *)
Definition compute_rloo_outcome_advantage (rewards masks : list tensor) : res (list tensor) :=
  Ok (scale_masks (rloo_scores (scores rewards)) masks).

(** ** Advantages over a stack of masks

    The masks of a group, each of shape [(rows, length)], are stacked to three
    dimensions; a tensor of shape [(n, length)] is broadcast against every mask of the
    stack, a single row standing for as many as the other has. *)

Definition stack (masks : list tensor) : res (list tensor) :=
  match masks with
  | [] => Raise (RuntimeError "stack expects a non-empty TensorList")
  | m :: _ =>
      if forallb (fun m' => bool_decide (length <$> m' = length <$> m)) masks then Ok masks
      else Raise (RuntimeError "stack expects each tensor to be equal size")
  end.

Definition spread {A} (d : nat) (l : list A) : list A :=
  match l with [x] => replicate d x | _ => l end.

Definition broadcast (f : Qc -> Qc -> Qc) (values mask : tensor) : res tensor :=
  let d := if bool_decide (length values = 1%nat) then length mask else length values in
  if bool_decide (length mask = 1%nat ∨ length mask = d)
  then Ok (zip_tensors f (spread d values) (spread d mask))
  else Raise (RuntimeError "the sizes of the tensors must match").

Definition stacked_total (masks : list tensor) : Qc := sum (total <$> masks).

(* trainer/utils/torch_functional.py:137-152 masked_mean *)
Definition stacked_mean (values : tensor) (masks : list tensor) : res Qc :=
  products ← mapM (broadcast Qcmult values) masks;
  Ok (stacked_total products / Qcmax (stacked_total masks) (qc 1 100000000)).

(* trainer/utils/torch_functional.py:155-170 masked_var *)
Definition stacked_var (values : tensor) (masks : list tensor) : res Qc :=
  m ← stacked_mean values masks;
  variance ← stacked_mean (map_tensor (fun x => (x - m) * (x - m)) values) masks;
  let mask_sum := stacked_total masks in
  if decide (mask_sum = 0) then Raise ValueError
  else if decide (mask_sum = 1) then Raise ValueError
  else Ok (variance * (mask_sum / (mask_sum - 1))).

(* trainer/utils/torch_functional.py:173-190 masked_whiten *)
Definition stacked_whiten (values : tensor) (masks : list tensor) : res tensor :=
  m ← stacked_mean values masks;
  var ← stacked_var values masks;
  Ok (map_tensor (fun x => (x - m) * rsqrt (var + qc 1 100000000)) values).

(* trainer/algorithms/core_algos.py:174-199 compute_reinforce_plus_plus_baseline_outcome_advantage *)
Definition compute_reinforce_plus_plus_baseline_outcome_advantage (rewards masks : list tensor)
    : res (list tensor) :=
  match masks, rewards with
  | [], _ => Raise IndexError
  | _, [] => Raise (RuntimeError "stack expects a non-empty TensorList")
  | m :: _, _ =>
      let response_length := length (default [] (head m)) in
      let s := scores rewards in
      let mean := match s with [_] => 0 | _ => mean s end in
      let adv := (fun x => replicate response_length (x - mean)) <$> s in
      stacked ← stack masks;
      whitened ← stacked_whiten adv stacked;
      adv ← mapM (broadcast Qcmult whitened) stacked;
      if bool_decide (length adv < length rewards)%nat then Raise IndexError
      else Ok (take (length rewards) adv)
  end.

(** ** Losses *)

(* trainer/algorithms/core_algos.py:299-301 compute_rewards *)
Definition compute_rewards (scores old_log_prob ref_log_prob : tensor) (kl_ratio : Qc) : tensor :=
  zip_tensors (fun s kl => s - kl * kl_ratio) scores
    (zip_tensors Qcminus old_log_prob ref_log_prob).

(* trainer/algorithms/core_algos.py:304-337 agg_loss *)
Definition agg_loss (loss_mat mask : tensor) (mode : string) : res Qc :=
  let token_sums := sum <$> zip_tensors Qcmult loss_mat mask in
  if bool_decide (mode = "token-mean") then Ok (masked_mean loss_mat mask)
  else if bool_decide (mode = "seq-mean-token-sum") then Ok (mean token_sums)
  else if bool_decide (mode = "seq-mean-token-mean") then
    Ok (mean (zip_with Qcdiv token_sums (sum <$> mask)))
  else if bool_decide (mode = "seq-mean-token-sum-norm") then
    Ok (sum token_sums / of_nat (length (default [] (head mask))))
  else Raise ValueError.

(** The loss of a token with the advantage [a] and the probability ratio [r];
    what it is clipped to above and below. *)
(* trainer/algorithms/core_algos.py:385-399 compute_policy_loss *)
Definition token_loss (low high c a r : Qc) : Qc * Qc * Qc :=
  let pg_losses1 := - a * r in
  let pg_losses2 := - a * clamp (1 - low) (1 + high) r in
  let clip_pg_losses1 := Qcmax pg_losses1 pg_losses2 in
  let clipped := indicator (Qcltb pg_losses1 pg_losses2) in
  let pg_losses3 := - a * c in
  let clip_pg_losses2 := Qcmin pg_losses3 clip_pg_losses1 in
  let clipped_lower := indicator (Qcltb pg_losses3 clip_pg_losses1) * indicator (Qcltb a 0) in
  (if Qcltb a 0 then clip_pg_losses2 else clip_pg_losses1, clipped, clipped_lower).

(** The loss, the share of clipped tokens, the KL estimate, the share clipped
    below; the option of a range falls back to [cliprange]. *)
(* trainer/algorithms/core_algos.py:340-401 compute_policy_loss *)
Definition compute_policy_loss (old_log_prob log_prob advantages mask : tensor)
    (cliprange : Qc) (cliprange_low cliprange_high : option Qc) (clip_ratio_c : Qc)
    (mode : string) : res (Qc * Qc * Qc * Qc) :=
  if negb (Qcltb 1 clip_ratio_c) then Raise AssertionError
  else
    let negative_approx_kl := zip_tensors Qcminus log_prob old_log_prob in
    let ratio := map_tensor exp negative_approx_kl in
    let ppo_kl := masked_mean (map_tensor Qcopp negative_approx_kl) mask in
    let token := token_loss (default cliprange cliprange_low) (default cliprange cliprange_high)
                            clip_ratio_c in
    let losses := zip_tensors (fun a r => (token a r).1.1) advantages ratio in
    let clipped := zip_tensors (fun a r => (token a r).1.2) advantages ratio in
    let lower := zip_tensors (fun a r => (token a r).2) advantages ratio in
    pg_loss ← agg_loss losses mask mode;
    Ok (pg_loss, masked_mean clipped mask, ppo_kl, masked_mean lower mask).

(* trainer/utils/torch_functional.py:116-122 clip_by_value *)
Definition clip_by_value (x lo hi : Qc) : Qc := Qcmax (Qcmin x hi) lo.

(* trainer/algorithms/core_algos.py:421-453 compute_value_loss *)
Definition compute_value_loss (vpreds returns values mask : tensor) (cliprange_value : Qc)
    (mode : string) : res (Qc * Qc) :=
  let vpredclipped := zip_tensors (fun p v =>
    clip_by_value p (v - cliprange_value) (v + cliprange_value)) vpreds values in
  let square p r := (p - r) * (p - r) in
  let losses1 := zip_tensors square vpreds returns in
  let losses2 := zip_tensors square vpredclipped returns in
  vf_loss ← agg_loss (zip_tensors Qcmax losses1 losses2) mask mode;
  Ok (vf_loss, masked_mean (zip_tensors (fun l2 l1 => indicator (Qcltb l1 l2)) losses2 losses1) mask).

(* trainer/algorithms/core_algos.py:456-489 kl_penalty *)
Definition kl_penalty (logprob ref_logprob : tensor) (kind : string) : res tensor :=
  let diff := zip_tensors Qcminus logprob ref_logprob in
  if bool_decide (kind ∈ ["kl"; "k1"]) then Ok diff
  else if bool_decide (kind = "abs") then Ok (map_tensor (fun x => Qcmax x (- x)) diff)
  else if bool_decide (kind ∈ ["mse"; "k2"]) then Ok (map_tensor (fun x => qc 1 2 * (x * x)) diff)
  else if bool_decide (kind ∈ ["low_var_kl"; "k3"]) then
    Ok (map_tensor (fun x => clamp (qc (-10) 1) (qc 10 1) (exp (- x) - - x - 1)) diff)
  else Raise NotImplementedError.

(* trainer/algorithms/core_algos.py:508-522 compute_pf_ppo_reweight_data *)
Definition compute_weights (pow : Qc -> Qc -> Qc) (s : row) (reweight_method : string)
    (weight_pow : Qc) : res row :=
  let extremes :=
    match s with
    | [] => Raise (RuntimeError "max of no elements")
    | x :: s' => Ok (foldr Qcmax x s', foldr Qcmin x s')
    end in
  if bool_decide (reweight_method = "pow")
  then Ok ((fun x => pow (Qcmax x (- x)) weight_pow) <$> s)
  else if bool_decide (reweight_method = "max_min") then
    '(max_score, min_score) ← extremes;
    Ok ((fun x => indicator (bool_decide (x = max_score ∨ x = min_score))) <$> s)
  else if bool_decide (reweight_method = "max_random") then
    '(max_score, _) ← extremes;
    Ok ((fun x => if bool_decide (x = max_score) then qc 2 5 else qc 1 10) <$> s)
  else Raise ValueError.

(** A batch: its tensors, the arrays and lists beside them, and what else comes with it. *)
Inductive meta : Type :=
| MList (l : list val)
| MValue (v : val).

Record data_proto := {
  batch : list (string * tensor);
  non_tensor_batch : list (string * list val);
  meta_info : list (string * meta)
}.

(** [x[idx]] and [[x[i] for i in idx]] *)
Definition pick {A} (idx : list nat) (l : list A) : res (list A) :=
  mapM (fun i => match l !! i with Some x => Ok x | None => Raise IndexError end) idx.

Definition map_values {A B} (f : A -> res B) : list (string * A) -> res (list (string * B)) :=
  mapM (fun kv => v ← f kv.2; Ok (kv.1, v)).

(** [torch.multinomial(weights, n, replacement=True)] is an argument. *)
(* trainer/algorithms/core_algos.py:492-555 compute_pf_ppo_reweight_data *)
Definition compute_pf_ppo_reweight_data (pow : Qc -> Qc -> Qc)
    (multinomial : row -> nat -> res (list nat))
    (data : data_proto) (reweight_method : string) (weight_pow : Qc) : res data_proto :=
  match dget "token_level_scores" (batch data) with
  | None => Raise KeyError
  | Some token_level_scores =>
      let s := sum <$> token_level_scores in
      weights ← compute_weights pow s reweight_method weight_pow;
      let weights := (fun w => Qcmax (w + qc 1 100000000) (qc 1 100000000)) <$> weights in
      let batch_size := length s in
      sample_indices ← multinomial weights batch_size;
      resampled_batch ← map_values (pick sample_indices) (batch data);
      resampled_non_tensor_batch ← map_values (pick sample_indices) (non_tensor_batch data);
      resampled_meta_info ← map_values (fun v =>
        match v with
        | MList l => if bool_decide (length l = batch_size)
                     then l ← pick sample_indices l; Ok (MList l) else Ok (MList l)
        | MValue v => Ok (MValue v)
        end) (meta_info data);
      Ok {| batch := resampled_batch; non_tensor_batch := resampled_non_tensor_batch;
            meta_info := resampled_meta_info |}
  end.

(** ** The dispatch *)

(* trainer/algorithms/advantage.py:7-16 AdvantageEstimator *)
Inductive AdvantageEstimator : Type :=
| GAE
| GRPO
| REINFORCE_PLUS_PLUS
| REINFORCE_PLUS_PLUS_BASELINE
| REMAX
| RLOO
| GRPO_PASSK.

(** An item, its tensors with a row per sequence as the agent loop makes them. *)
Record item := {
  token_level_rewards : tensor;
  loss_mask : tensor;
  values : tensor;
  reward_baselines : row;
  group_id : string
}.

Definition result : Type := tensor * tensor.

(* trainer/algorithms/advantage.py:50-56 compute_advantage *)
Definition is_group_algo (e : AdvantageEstimator) : bool :=
  match e with
  | GRPO | GRPO_PASSK | REINFORCE_PLUS_PLUS_BASELINE | RLOO => true
  | _ => false
  end.

(* trainer/algorithms/advantage.py:67-87 compute_advantage *)
Definition group_advantage (e : AdvantageEstimator) (norm : bool) (rewards masks : list tensor)
    : res (list tensor) :=
  match e with
  | GRPO => compute_grpo_outcome_advantage rewards masks norm
  | GRPO_PASSK => compute_grpo_passk_outcome_advantage rewards masks norm
  | REINFORCE_PLUS_PLUS_BASELINE =>
      compute_reinforce_plus_plus_baseline_outcome_advantage rewards masks
  | RLOO => compute_rloo_outcome_advantage rewards masks
  | _ => Raise NotImplementedError
  end.

(* trainer/algorithms/advantage.py:96-117 compute_advantage *)
Definition item_advantage (e : AdvantageEstimator) (gamma lam : Qc) (i : item) : res result :=
  match e with
  | GAE => compute_gae_advantage_return (token_level_rewards i) (values i) (loss_mask i) gamma lam
  | REINFORCE_PLUS_PLUS =>
      compute_reinforce_plus_plus_outcome_advantage (token_level_rewards i) (loss_mask i) gamma
  | REMAX => Ok (compute_remax_outcome_advantage (token_level_rewards i) (reward_baselines i)
                   (loss_mask i))
  | _ => Raise NotImplementedError
  end.

(** The groups in the order their first items come in, each item with its
    index. *)
(* trainer/algorithms/advantage.py:62-64 compute_advantage *)
Definition group_items (data : list item) : list (string * list (nat * item)) :=
  foldl (fun d ki => dset (group_id ki.2) (dget_or (group_id ki.2) [] d ++ [ki]) d) []
    (imap pair data).

(** [ret[idx] = ...] for the items of a group. *)
(* trainer/algorithms/advantage.py:65-92 compute_advantage *)
Fixpoint advance_groups (e : AdvantageEstimator) (norm : bool)
    (groups : list (string * list (nat * item))) (ret : list (option result))
    : res (list (option result)) :=
  match groups with
  | [] => Ok ret
  | (_, g) :: groups =>
      advs ← group_advantage e norm ((fun ki => token_level_rewards ki.2) <$> g)
                                    ((fun ki => loss_mask ki.2) <$> g);
      advance_groups e norm groups
        (foldl (fun ret ka => <[ka.1 := Some (ka.2, ka.2)]> ret) ret (zip g.*1 advs))
  end.

(* trainer/algorithms/advantage.py:94-121 compute_advantage *)
Fixpoint append_items (e : AdvantageEstimator) (gamma lam : Qc) (data : list item)
    (ret : list (option result)) : res (list (option result)) :=
  match data with
  | [] => Ok ret
  | i :: data => r ← item_advantage e gamma lam i; append_items e gamma lam data (ret ++ [Some r])
  end.

(* trainer/algorithms/advantage.py:19-122 compute_advantage *)
Definition compute_advantage (data : list item) (e : AdvantageEstimator) (gamma lam : Qc)
    (norm_adv_by_std_in_grpo : bool) : res (list (option result)) :=
  let ret := replicate (length data) None in
  if is_group_algo e then advance_groups e norm_adv_by_std_in_grpo (group_items data) ret
  else append_items e gamma lam data ret.
End algorithms.

(** ** Proofs: the advantage estimators *)

Lemma of_nat_S n : of_nat (S n) = of_nat n + 1.
Proof.
  unfold of_nat, qc. rewrite Nat2Z.inj_succ. generalize (Z.of_nat n). intros z.
  apply Qc_is_canon. unfold Qcplus. cbn [this Q2Qc]. rewrite !Qred_correct.
  unfold Qeq, Qplus. cbn [Qnum Qden this Q2Qc]. simpl. lia.
Qed.

Lemma of_nat_pos n : (0 < n)%nat -> 0 < of_nat n.
Proof.
  intros Hn. unfold of_nat, qc, Qclt. cbn [this Q2Qc]. rewrite !Qred_correct.
  unfold Qlt; cbn [Qnum Qden]. lia.
Qed.

Lemma of_nat_ne n : (0 < n)%nat -> of_nat n ≠ 0.
Proof. intros Hn H. apply of_nat_pos in Hn. rewrite H in Hn. by apply Qclt_not_eq in Hn. Qed.

(** Each score against the mean of the others. *)
Lemma rloo_scores_lookup s i x :
  (1 < length s)%nat -> s !! i = Some x ->
  rloo_scores s !! i = Some (x - (sum s - x) / of_nat (length s - 1)).
Proof.
  intros Hl Hi. unfold rloo_scores.
  assert (match s with [_] => 0 | _ => mean s end = mean s) as -> by (destruct s as [|? []]; simpl in *; [done|lia|done]).
  rewrite bool_decide_eq_true_2 by done. rewrite list_lookup_fmap, Hi. simpl. f_equal.
  unfold mean. assert (of_nat (length s) = of_nat (length s - 1) + 1) as Hn
    by (rewrite <- of_nat_S; f_equal; lia).
  pose proof (of_nat_ne (length s - 1) ltac:(lia)) as H1.
  pose proof (of_nat_ne (length s) ltac:(lia)) as H2. rewrite Hn in *.
  revert H1 H2. generalize (of_nat (length s - 1)) as m. intros m H1 H2.
  assert (m + 1 - 1 = m) as -> by ring. field. done.
Qed.

(** [Σ k^i d_i] *)
Definition discounted (k : Qc) (l : row) : Qc := foldr (fun x acc => x + k * acc) 0 l.

Lemma discounted_sum k l :
  discounted k l = sum (imap (fun i x => k ^ i * x) l).
Proof.
  unfold discounted.
  assert (forall p, p * foldr (fun x acc => x + k * acc) 0 l = sum (imap (fun i x => p * k ^ i * x) l))
    as Hgen.
  { induction l as [|x l IH]; intros p; simpl; [ring|].
    assert (sum (imap ((fun i y => p * k ^ i * y) ∘ S) l) = sum (imap (fun i y => (p * k) * k ^ i * y) l))
      as ->.
    { f_equal. apply imap_ext. intros i y _. unfold compose. simpl. ring. }
    rewrite <- IH. ring. }
  specialize (Hgen 1). rewrite Qcmult_1_l in Hgen. rewrite Hgen. f_equal.
  apply imap_ext. intros i x _. by rewrite Qcmult_1_l.
Qed.

(** The temporal differences of a row; the value after the last token is 0. *)
Fixpoint deltas (gamma : Qc) (rewards values : row) : row :=
  match rewards, values with
  | r :: rewards, v :: values => (r + gamma * default 0 (head values) - v) :: deltas gamma rewards values
  | _, _ => []
  end.

Lemma gae_row_spec gamma lam rewards values :
  length rewards = length values ->
  (gae_row gamma lam rewards values).2 = discounted (gamma * lam) (deltas gamma rewards values) ∧
  forall t, (t < length rewards)%nat -> (gae_row gamma lam rewards values).1 !! t =
    Some (discounted (gamma * lam) (drop t (deltas gamma rewards values))).
Proof.
  revert values. induction rewards as [|r rewards IH]; intros [|v values] Hl; try done.
  { split; [done|]. simpl. lia. }
  destruct (IH values ltac:(simpl in Hl; lia)) as [IH1 IH2]. cbn [gae_row].
  destruct (gae_row gamma lam rewards values) as [rest last]. simpl in IH1, IH2. subst last.
  assert (match values with v' :: _ => v' | [] => 0 end = default 0 (head values)) as ->
    by (by destruct values).
  split; [done|]. intros [|t] Ht; [done|]. simpl in *. apply IH2. lia.
Qed.

Lemma gae_row_length gamma lam rewards values :
  length rewards = length values -> length (gae_row gamma lam rewards values).1 = length rewards.
Proof.
  revert values. induction rewards as [|r rewards IH]; intros [|v values] Hl; try done.
  cbn [gae_row]. specialize (IH values ltac:(simpl in Hl; lia)).
  destruct (gae_row gamma lam rewards values). simpl in *. lia.
Qed.

(** With [lam = 1] the differences telescope: advantage plus value is the
    discounted sum of the rewards to come. *)
Lemma discounted_deltas gamma rewards values :
  length rewards = length values ->
  discounted gamma (deltas gamma rewards values) =
    discounted gamma rewards - default 0 (head values).
Proof.
  revert values. induction rewards as [|r rewards IH]; intros [|v values] Hl; try done.
  simpl. rewrite IH by (simpl in Hl; lia). ring.
Qed.

Lemma drop_deltas gamma t rewards values :
  drop t (deltas gamma rewards values) = deltas gamma (drop t rewards) (drop t values).
Proof.
  revert rewards values. induction t as [|t IH]; intros [|r rewards] [|v values]; simpl; try done.
  - by destruct (drop t rewards).
Qed.

Lemma head_drop_lookup {A} (l : list A) t : head (drop t l) = l !! t.
Proof. revert t. induction l as [|x l IH]; intros [|t]; simpl; auto. Qed.

(** C22: the backward loop of GAE computes the sum of the temporal differences to
    come, discounted by gamma times lam; with lam = 1, advantage plus value is the
    discounted sum of the rewards to come. *)
Theorem gae_closed_form (gamma lam : Qc) (rewards values : row) (t : nat) (v : Qc) :
  length rewards = length values -> values !! t = Some v ->
  exists a, (gae_row gamma lam rewards values).1 !! t = Some a ∧
    a = sum (imap (fun l x => (gamma * lam) ^ l * x) (drop t (deltas gamma rewards values))) ∧
    (lam = 1 -> a + v = sum (imap (fun l x => gamma ^ l * x) (drop t rewards))).
Proof.
  intros Hl Hv. pose proof (lookup_lt_Some _ _ _ Hv) as Ht.
  destruct (gae_row_spec gamma lam rewards values Hl) as [_ Hs].
  eexists. split; [apply Hs; lia|]. split; [apply discounted_sum|].
  intros ->. rewrite Qcmult_1_r, <- (discounted_sum gamma), drop_deltas.
  rewrite discounted_deltas by (rewrite !length_drop; lia).
  rewrite head_drop_lookup, Hv.
  simpl. ring.
Qed.

(** The RLOO advantage of a sequence is its score minus the mean score of the
    others in its group, on the tokens of its mask. *)
Theorem rloo_leave_one_out (rewards masks : list tensor) (i : nat) (r m : tensor) :
  (1 < length rewards)%nat -> rewards !! i = Some r -> masks !! i = Some m ->
  exists advs, compute_rloo_outcome_advantage rewards masks = Ok advs ∧
    advs !! i = Some (map_tensor (Qcmult
      (total r - (sum (scores rewards) - total r) / of_nat (length rewards - 1))) m).
Proof.
  intros Hl Hr Hm. eexists. split; [done|]. unfold scale_masks. rewrite lookup_zip_with, Hm.
  assert (length (scores rewards) = length rewards) as Hlen by apply length_fmap.
  rewrite (rloo_scores_lookup (scores rewards) i (total r)); [by rewrite Hlen|lia|].
  unfold scores. by rewrite list_lookup_fmap, Hr.
Qed.

(** ** Proofs: the clipped loss *)

Lemma Qcmax_case a b : (a < b ∧ Qcmax a b = b) ∨ (b <= a ∧ Qcmax a b = a).
Proof. unfold Qcmax. destruct (Qclt_le_dec a b); auto. Qed.
Lemma Qcmin_case a b : (b < a ∧ Qcmin a b = b) ∨ (a <= b ∧ Qcmin a b = a).
Proof. unfold Qcmin. destruct (Qclt_le_dec b a); auto. Qed.

Lemma scale_up a x y : 0 <= a -> x <= y -> a * x <= a * y.
Proof. intros Ha Hx. rewrite !(Qcmult_comm a). by apply Qcmult_le_compat_r. Qed.

Lemma scale_down a x y : 0 <= a -> x <= y -> - a * y <= - a * x.
Proof.
  intros Ha Hx. assert (forall z, - a * z = - (a * z)) as Ho by (intros; ring).
  rewrite !Ho. by apply Qcopp_le_compat, scale_up.
Qed.

Ltac order_cases :=
  repeat match goal with
  | |- context [Qcmax ?a ?b] => destruct (Qcmax_case a b) as [[? ->]|[? ->]]
  | |- context [Qcmin ?a ?b] => destruct (Qcmin_case a b) as [[? ->]|[? ->]]
  | H : context [Qcmax ?a ?b] |- _ =>
      let E := fresh in destruct (Qcmax_case a b) as [[? E]|[? E]]; rewrite E in *; clear E
  | H : context [Qcmin ?a ?b] |- _ =>
      let E := fresh in destruct (Qcmin_case a b) as [[? E]|[? E]]; rewrite E in *; clear E
  end.

Lemma max_scale_up a x y : 0 <= a -> Qcmax (a * x) (a * y) = a * Qcmax x y.
Proof.
  intros Ha. order_cases; try done.
  - apply Qcle_antisym; [by apply scale_up|by apply Qclt_le_weak].
  - apply Qcle_antisym; [by apply scale_up, Qclt_le_weak|done].
Qed.

Lemma min_scale_up a x y : 0 <= a -> Qcmin (a * x) (a * y) = a * Qcmin x y.
Proof.
  intros Ha. order_cases; try done.
  - apply Qcle_antisym; [by apply Qclt_le_weak|by apply scale_up].
  - apply Qcle_antisym; [done|by apply scale_up, Qclt_le_weak].
Qed.

Lemma max_scale_down a x y : 0 <= a -> Qcmax (- a * x) (- a * y) = - a * Qcmin x y.
Proof.
  intros Ha. order_cases; try done.
  - apply Qcle_antisym; [by apply scale_down|by apply Qclt_le_weak].
  - apply Qcle_antisym; [by apply scale_down, Qclt_le_weak|done].
Qed.

Ltac q_order := try apply Qcle_antisym; unfold Qclt, Qcle in *; lra.

Lemma min_clamp lo hi x : lo <= hi -> Qcmin x (clamp lo hi x) = Qcmin x hi.
Proof. intros Hl. unfold clamp. order_cases; try done; q_order. Qed.

Lemma max_clamp lo hi x : lo <= hi -> Qcmax x (clamp lo hi x) = Qcmax x lo.
Proof. intros Hl. unfold clamp. order_cases; try done; q_order. Qed.

(** The dual-clip loss of a token is -A min(r, 1+high) for an advantage A >= 0
    and -A min(c, max(r, 1-low)) for A < 0. *)
Theorem token_loss_reference (low high c a r : Qc) :
  0 <= low -> 0 <= high -> 1 < c ->
  (token_loss low high c a r).1.1 =
    if Qcltb a 0 then - a * Qcmin c (Qcmax r (1 - low)) else - a * Qcmin r (1 + high).
Proof.
  intros Hlow Hhigh Hc. unfold token_loss; cbn [fst snd].
  assert (1 - low <= 1 + high) as Hle.
  { apply (Qcplus_le_compat 1 1 (- low) high); [apply Qcle_refl|].
    apply Qcle_trans with 0; [|done]. apply (Qcopp_le_compat 0 low) in Hlow.
    by replace (- 0) with 0 in Hlow by ring. }
  unfold Qcltb at 1 2. destruct (Qclt_le_dec a 0) as [Ha|Ha].
  - assert (0 <= - a) as Hn.
    { apply Qclt_le_weak, (Qcopp_le_compat a 0) in Ha. by replace (- 0) with 0 in Ha by ring. }
    by rewrite max_scale_up, max_clamp, min_scale_up.
  - by rewrite max_scale_down, min_clamp.
Qed.

(** ** Proofs: sums *)

Lemma sum_nil : sum [] = 0.
Proof. done. Qed.
Lemma sum_cons x l : sum (x :: l) = x + sum l.
Proof. done. Qed.
Lemma sum_scale c (l : row) : sum (Qcmult c <$> l) = c * sum l.
Proof. induction l as [|x l IH]; rewrite ?fmap_nil, ?fmap_cons, ?sum_nil, ?sum_cons, ?IH; ring. Qed.
Lemma sum_scaled (c : Qc) (l : row) : sum ((fun x => x * c) <$> l) = sum l * c.
Proof. induction l as [|x l IH]; rewrite ?fmap_nil, ?fmap_cons, ?sum_nil, ?sum_cons, ?IH; ring. Qed.
Lemma sum_shift (c : Qc) (l : row) : sum ((fun x => x - c) <$> l) = sum l - of_nat (length l) * c.
Proof.
  induction l as [|x l IH]; rewrite ?fmap_nil, ?fmap_cons, ?sum_nil, ?sum_cons; cbn [length].
  - replace (of_nat 0) with 0 by (by apply Qc_is_canon). ring.
  - rewrite of_nat_S, IH. ring.
Qed.
Lemma sum_app l k : sum (l ++ k) = sum l + sum k.
Proof. induction l as [|x l IH]; simpl; [ring|]. unfold sum in *. simpl. rewrite IH. ring. Qed.
Lemma sum_join (l : list row) : sum (sum <$> l) = sum (mjoin l).
Proof.
  induction l as [|r l IH]; [done|]. change (sum r + sum (sum <$> l) = sum (r ++ mjoin l)). by rewrite IH, sum_app.
Qed.
Lemma of_nat_add n m : of_nat (n + m) = of_nat n + of_nat m.
Proof.
  induction n as [|n IH]; simpl; [by replace (of_nat 0) with 0 by (by apply Qc_is_canon); rewrite Qcplus_0_l|].
  rewrite !of_nat_S, IH. ring.
Qed.
Lemma sum_perm (l k : row) : l ≡ₚ k -> sum l = sum k.
Proof. induction 1; rewrite ?sum_cons; [done|congruence|ring|congruence]. Qed.
#[export] Instance sum_proper : Proper (Permutation ==> eq) sum.
Proof. exact sum_perm. Qed.

(** ** Proofs: REINFORCE++ with a baseline *)

Section baseline.
Context (rsqrt : Qc -> Qc).

Lemma total_rows (f : Qc -> row) (v : row) : total (f <$> v) = sum ((fun x => sum (f x)) <$> v).
Proof. unfold total. by rewrite <- list_fmap_compose. Qed.

(** Against a mask of one row, each row of the values meets that row. *)
Lemma broadcast_row (L : nat) (v m : row) : (1 < length v)%nat -> length m = L ->
  broadcast Qcmult (replicate L <$> v) [m] = Ok ((fun x => Qcmult x <$> m) <$> v).
Proof.
  intros Hv <-. unfold broadcast. cbv zeta. rewrite length_fmap, (bool_decide_eq_false_2 (length v = 1%nat)) by lia.
  rewrite bool_decide_eq_true_2 by (by left). f_equal. unfold zip_tensors.
  assert (spread (length v) (replicate (length m) <$> v) = replicate (length m) <$> v) as ->
    by (destruct v as [|? []]; simpl in Hv; try lia; done).
  simpl. rewrite zip_with_replicate_r_eq by by rewrite length_fmap.
  rewrite <- list_fmap_compose. apply list_fmap_ext. intros _ x _. unfold compose.
  unfold flip. by rewrite zip_with_replicate_l.
Qed.

Lemma mapM_rows {B} (g : tensor -> res B) (h : row -> B) (l : list row) :
  Forall (fun m => g [m] = Ok (h m)) l -> mapM g ((fun m => [m]) <$> l) = Ok (h <$> l).
Proof.
  induction 1 as [|m l Hm _ IH]; [done|].
  change (mapM g ((fun m => [m]) <$> m :: l)) with (x ← g [m]; k ← mapM g ((fun m => [m]) <$> l); mret (x :: k)).
  by rewrite Hm, IH.
Qed.

Lemma stacked_total_rows (l : list row) : stacked_total ((fun m => [m]) <$> l) = sum (sum <$> l).
Proof.
  unfold stacked_total. rewrite <- list_fmap_compose. f_equal. apply list_fmap_ext. intros _ m _.
  unfold compose, total, sum. simpl. ring.
Qed.

Variables (L : nat) (rows : list row).
Hypothesis rows_length : Forall (fun m => length m = L) rows.

Abbreviation masks := ((fun m => [m]) <$> rows).
Abbreviation mask_sum := (sum (sum <$> rows)).

Lemma stacked_mean_rows (v : row) : (1 < length v)%nat -> 1 < mask_sum ->
  stacked_mean (replicate L <$> v) masks = Ok (sum v).
Proof.
  intros Hv Hm. unfold stacked_mean.
  rewrite (mapM_rows _ (fun m => (fun x => Qcmult x <$> m) <$> v))
    by (eapply Forall_impl; [exact rows_length|]; intros m Hl; by apply broadcast_row).
  cbn [mbind res_bind]. rewrite stacked_total_rows.
  assert (0 < mask_sum) as Hpos by (eapply Qclt_trans; [|exact Hm]; by vm_compute).
  assert (Qcmax mask_sum (qc 1 100000000) = mask_sum) as ->.
  { destruct (Qcmax_case mask_sum (qc 1 100000000)) as [[H ->]|[_ ->]]; [|done]. exfalso.
    eapply Qclt_not_le; [exact (Qclt_trans _ _ _ Hm H)|]. by vm_compute. }
  assert (stacked_total ((fun m => (fun x => Qcmult x <$> m) <$> v) <$> rows) = sum v * mask_sum) as ->.
  { unfold stacked_total. rewrite <- list_fmap_compose, <- sum_scale, <- list_fmap_compose. f_equal.
    apply list_fmap_ext. intros _ m _. unfold compose. rewrite total_rows, <- sum_scaled. f_equal.
    apply list_fmap_ext. intros _ x _. apply sum_scale. }
  f_equal. field. intros H. rewrite H in Hpos. by apply Qclt_not_eq in Hpos.
Qed.

Lemma map_rows (f : Qc -> Qc) (v : row) : map_tensor f (replicate L <$> v) = replicate L <$> (f <$> v).
Proof. unfold map_tensor. rewrite <- !list_fmap_compose. apply list_fmap_ext. intros _ x _. apply fmap_replicate. Qed.

Lemma stacked_whiten_rows (v : row) : (1 < length v)%nat -> 1 < mask_sum -> sum v = 0 ->
  stacked_whiten rsqrt (replicate L <$> v) masks = Ok (replicate L <$> ((fun x =>
    x * rsqrt (sum ((fun x => x * x) <$> v) * (mask_sum / (mask_sum - 1)) + qc 1 100000000)) <$> v)).
Proof.
  intros Hv Hm H0. unfold stacked_whiten, stacked_var. rewrite stacked_mean_rows by done. rewrite H0.
  cbn [mbind res_bind]. rewrite map_rows, stacked_mean_rows by (by rewrite ?length_fmap).
  cbn [mbind res_bind]. rewrite stacked_total_rows.
  destruct (decide (mask_sum = 0)) as [E|_]; [rewrite E in Hm; by vm_compute in Hm|].
  destruct (decide (mask_sum = 1)) as [E|_]; [rewrite E in Hm; by vm_compute in Hm|].
  cbn [mbind res_bind]. rewrite map_rows. f_equal. f_equal. apply list_fmap_ext. intros _ x _.
  assert ((fun x => (x - 0) * (x - 0)) <$> v = (fun x => x * x) <$> v) as ->.
  { apply list_fmap_ext. intros _ y _. ring. }
  ring.
Qed.

Lemma stack_rows : rows ≠ [] -> stack masks = Ok masks.
Proof.
  intros Hne. assert (forall m', m' ∈ masks -> length <$> m' = [L]) as Hall.
  { intros m' (r & -> & Hr)%list_elem_of_fmap. simpl. f_equal. exact (proj1 (Forall_forall _ _) rows_length r Hr). }
  unfold stack. destruct masks as [|m l] eqn:E; [by destruct rows|].
  assert (forallb (fun m' => bool_decide (length <$> m' = length <$> m)) (m :: l) = true) as ->; [|done].
  apply forallb_forall. intros m' Hin%list_elem_of_In. apply bool_decide_eq_true_2.
  by rewrite (Hall m'), (Hall m) by (done || left).
Qed.
End baseline.

(** Over masks of one row, as the agent loop makes them, every sample of a group of two or more
    gets a row for each sample of the group, where one is meant; and what the centred scores are
    divided by is the root of the sum of their squares, not of the mean. *)
Theorem baseline_advantages (rsqrt : Qc -> Qc) (rewards : list tensor) (rows : list row) (L : nat) :
  (1 < length rewards)%nat -> length rows = length rewards -> Forall (fun m => length m = L) rows ->
  1 < sum (sum <$> rows) ->
  let s := scores rewards in
  let centred : row := (fun x => x - mean s) <$> s in
  let n := sum (sum <$> rows) in
  let whitened : row :=
    (fun x => x * rsqrt (sum ((fun x => x * x) <$> centred) * (n / (n - 1)) + qc 1 100000000)) <$> centred in
  compute_reinforce_plus_plus_baseline_outcome_advantage rsqrt rewards ((fun m => [m]) <$> rows) =
    Ok ((fun m : row => (fun x => Qcmult x <$> m) <$> whitened) <$> rows).
Proof.
  intros Hr Hlen HL Hn. cbv zeta. unfold compute_reinforce_plus_plus_baseline_outcome_advantage.
  destruct rows as [|m0 rows']; [simpl in Hlen; lia|]. set (rows := m0 :: rows') in *.
  change ((fun m => [m]) <$> rows) with ([m0] :: ((fun m => [m]) <$> rows')) at 1. cbv iota.
  destruct rewards as [|r0 rewards']; [simpl in Hr; lia|]. set (rewards := r0 :: rewards') in *.
  set (s := scores rewards). assert (length s = length rewards) as Hs by apply length_fmap.
  assert (match s with [_] => 0 | _ => mean s end = mean s) as ->
    by (destruct s as [|? []]; simpl in *; [done|lia|done]).
  change (default [] (head [m0])) with m0. rewrite (Forall_inv HL). rewrite (stack_rows L) by done. cbn [mbind res_bind].
  set (c := (fun x => x - mean s) <$> s).
  assert ((fun x => replicate L (x - mean s)) <$> s = replicate L <$> c) as ->
    by (unfold c; by rewrite <- list_fmap_compose).
  assert (length c = length rewards) as Hc by (unfold c; by rewrite length_fmap).
  assert (sum c = 0) as H0.
  { unfold c. rewrite sum_shift. unfold mean. field. apply of_nat_ne. lia. }
  rewrite stacked_whiten_rows by (done || lia). cbn [mbind res_bind].
  erewrite mapM_rows; [|eapply Forall_impl; [exact HL|]; intros m Hl; apply broadcast_row; [rewrite length_fmap; lia|exact Hl]].
  cbn [mbind res_bind]. rewrite bool_decide_eq_false_2 by (rewrite length_fmap; lia).
  f_equal. apply take_ge. rewrite length_fmap. lia.
Qed.

(** ** Proofs: the reweighted batch *)

Lemma pick_spec {A} (idx : list nat) (l l' : list A) : pick idx l = Ok l' ->
  length l' = length idx ∧ forall k i, idx !! k = Some i -> l' !! k = l !! i.
Proof.
  revert l'. induction idx as [|j idx IH]; intros l' H; [by injection H as <-|].
  unfold pick in H. cbn [mapM] in H. destruct (l !! j) as [x|] eqn:E; [|done]. cbn [mbind res_bind] in H.
  fold (pick idx l) in H. destruct (pick idx l) as [r|] eqn:E2; [|done]. injection H as <-.
  destruct (IH r eq_refl) as [Hl Hk]. split; [simpl; lia|].
  intros [|k] i Hi; simpl in Hi; [injection Hi as <-; by rewrite E|by apply Hk].
Qed.

Lemma map_values_spec {A B} (f : A -> res B) d d' k v : map_values f d = Ok d' -> dget k d = Some v ->
  exists v', f v = Ok v' ∧ dget k d' = Some v'.
Proof.
  revert d'. induction d as [|[k0 v0] d IH]; intros d' H Hk; [done|].
  unfold map_values in H. cbn [mapM] in H. cbn [fst snd] in H. destruct (f v0) as [w|] eqn:E; [|done].
  cbn [mbind res_bind] in H. fold (map_values f d) in H. destruct (map_values f d) as [r|] eqn:E2; [|done].
  injection H as <-. simpl in Hk |- *. case_decide; [|by apply IH]. injection Hk as <-. by exists w.
Qed.

(** Whatever is drawn, the columns of the resampled batch stay aligned: row [k] of every one is
    the row drawn at [k]; a list beside them follows when it has an entry per row, else it stays. *)
Theorem resampled_aligned pow multinomial data data' method p : compute_pf_ppo_reweight_data pow multinomial data method p = Ok data' ->
  exists n idx w, multinomial w n = Ok idx ∧ length w = n ∧ (exists t, dget "token_level_scores" (batch data) = Some t ∧ length t = n) ∧
    (forall key t, dget key (batch data) = Some t -> exists t', dget key (batch data') = Some t' ∧
      length t' = length idx ∧ forall k i, idx !! k = Some i -> t' !! k = t !! i) ∧
    (forall key l, dget key (meta_info data) = Some (MList l) -> exists l', dget key (meta_info data') = Some (MList l') ∧
      if decide (length l = n) then forall k i, idx !! k = Some i -> l' !! k = l !! i else l' = l).
Proof.
  unfold compute_pf_ppo_reweight_data. destruct (dget "token_level_scores" (batch data)) as [t0|] eqn:E0; [|done].
  destruct (compute_weights pow (sum <$> t0) method p) as [w|] eqn:Ew; [|done]. cbn [mbind res_bind].
  set (n := length (sum <$> t0)). set (w' := _ <$> w). intros H.
  destruct (multinomial w' n) as [idx|] eqn:Ei; [|done]. cbn [mbind res_bind] in H.
  destruct (map_values (pick idx) (batch data)) as [b|] eqn:Eb; [|done]. cbn [mbind res_bind] in H.
  destruct (map_values (pick idx) (non_tensor_batch data)) as [nb|]; [|done]. cbn [mbind res_bind] in H.
  destruct (map_values _ (meta_info data)) as [m|] eqn:Em in H; [|done]. injection H as <-. cbn [batch meta_info].
  assert (length w' = n) as Hw.
  { unfold w', n. rewrite length_fmap. revert Ew. unfold compute_weights.
    destruct (sum <$> t0) as [|x s'] eqn:Es; repeat case_bool_decide; intros [= <-]; simpl; by rewrite ?length_fmap. }
  exists n, idx, w'. split_and!; [done|done|exists t0; split; [done|by unfold n; rewrite length_fmap]| |].
  - intros key t Ht. destruct (map_values_spec _ _ _ _ _ Eb Ht) as (t' & H1 & H2). exists t'. split; [done|].
    by apply pick_spec.
  - intros key l Hl. destruct (map_values_spec _ _ _ _ _ Em Hl) as (v & H1 & H2). cbv beta iota in H1.
    case_bool_decide as Hn.
    + destruct (pick idx l) as [l'|] eqn:El; [|done]. injection H1 as <-. exists l'. split; [done|].
      rewrite decide_True by done. by apply pick_spec.
    + injection H1 as <-. exists l. split; [done|]. by rewrite decide_False.
Qed.

(** ** Proofs: the dispatch *)

Section dispatch.
Context (rsqrt : Qc -> Qc) (std : row -> Qc) (topk2 : row -> nat * nat).

Abbreviation group_advantage := (group_advantage rsqrt std topk2).
Abbreviation compute_advantage := (compute_advantage rsqrt std topk2).

(** The members of a group, with their indices. *)
Definition members (k : string) (l : list (nat * item)) : list (nat * item) :=
  filter (fun ki => group_id ki.2 = k) l.

Definition groups_of (l : list (nat * item)) : list (string * list (nat * item)) :=
  foldl (fun d ki => dset (group_id ki.2) (dget_or (group_id ki.2) [] d ++ [ki]) d) [] l.

Lemma groups_of_spec l :
  dict_wf (groups_of l) ∧ (forall k g, dget k (groups_of l) = Some g -> g = members k l) ∧
  forall ki, ki ∈ l -> is_Some (dget (group_id ki.2) (groups_of l)).
Proof.
  unfold groups_of. induction l as [|[i it] l IH] using rev_ind.
  { split; [constructor|]. split; [done|]. by intros ki ?%elem_of_nil. }
  rewrite foldl_app. destruct IH as (Hwf & Hg & Hin). cbn [foldl].
  set (d := foldl _ [] l) in *. split_and!.
  - by apply dset_wf.
  - intros k g. rewrite dget_dset. unfold members. rewrite filter_app.
    case_decide as Hk.
    + intros [= <-]. subst k. cbn [snd].
      assert (dget_or (group_id it) [] d = members (group_id it) l) as ->.
      { unfold dget_or. destruct (dget (group_id it) d) as [x|] eqn:E; [by apply Hg|].
        destruct (members (group_id it) l) as [|ki m] eqn:F; [done|].
        assert (ki ∈ members (group_id it) l) as Hm by (rewrite F; left).
        apply list_elem_of_filter in Hm as [Heq Hm]. destruct (Hin _ Hm) as [x Hx].
        rewrite Heq in Hx. congruence. }
      rewrite filter_cons_True by done. by rewrite filter_nil.
    + intros Hd. rewrite filter_cons_False by (simpl in *; congruence).
      rewrite filter_nil, app_nil_r. by apply Hg.
  - intros ki Hki. rewrite dget_dset. case_decide; [by eexists|].
    apply elem_of_app in Hki as [Hki|Hki]; [by apply Hin|].
    apply list_elem_of_singleton in Hki as ->. by simpl in *.
Qed.
Lemma members_incl k l : members k l ⊆ l.
Proof. intros x Hx. by apply list_elem_of_filter in Hx as [_ Hx]. Qed.

(** Writing the advantages of a group. *)
Definition write_group (ret : list (option result)) (idxs : list nat) (advs : list tensor)
    : list (option result) :=
  foldl (fun ret ka => <[ka.1 := Some (ka.2, ka.2)]> ret) ret (zip idxs advs).

Lemma write_group_length ret idxs advs : length (write_group ret idxs advs) = length ret.
Proof.
  unfold write_group. revert ret. induction (zip idxs advs) as [|ka l IH]; intros ret; [done|].
  simpl. rewrite IH. apply length_insert.
Qed.

Lemma write_group_other ret idxs advs i :
  i ∉ idxs -> write_group ret idxs advs !! i = ret !! i.
Proof.
  unfold write_group. revert ret advs. induction idxs as [|j idxs IH]; intros ret [|a advs] Hi; try done.
  apply not_elem_of_cons in Hi as [Hj Hi]. simpl. rewrite IH by done. by rewrite list_lookup_insert_ne.
Qed.

Lemma write_group_at ret idxs advs k i a :
  NoDup idxs -> (i < length ret)%nat -> idxs !! k = Some i -> advs !! k = Some a ->
  write_group ret idxs advs !! i = Some (Some (a, a)).
Proof.
  revert ret advs k. induction idxs as [|j idxs IH]; intros ret [|b advs] [|k] Hnd Hl Hi Ha; try done.
  - simpl in Hi, Ha. simplify_eq. apply NoDup_cons in Hnd as [Hni _].
    change (write_group (<[i := Some (a, a)]> ret) idxs advs !! i = Some (Some (a, a))).
    rewrite write_group_other by done. by rewrite list_lookup_insert_eq.
  - apply NoDup_cons in Hnd as [_ Hnd].
    change (write_group (<[j := Some (b, b)]> ret) idxs advs !! i = Some (Some (a, a))).
    apply (IH _ _ k); [done|by rewrite length_insert|done|done].
Qed.

Lemma advance_groups_spec e norm groups ret out :
  advance_groups rsqrt std topk2 e norm groups ret = Ok out ->
  length out = length ret ∧
  (forall i, (forall k g, (k, g) ∈ groups -> i ∉ g.*1) -> out !! i = ret !! i) ∧
  (forall n k g, groups !! n = Some (k, g) ->
     (forall m k' g' j, groups !! m = Some (k', g') -> m ≠ n -> j ∈ g.*1 -> j ∉ g'.*1) ->
     exists advs, group_advantage e norm ((fun ki => token_level_rewards ki.2) <$> g)
                    ((fun ki => loss_mask ki.2) <$> g) = Ok advs ∧
       forall p i a, NoDup g.*1 -> (i < length ret)%nat -> g.*1 !! p = Some i -> advs !! p = Some a ->
         out !! i = Some (Some (a, a))).
Proof.
  revert ret. induction groups as [|[k0 g0] groups IH]; intros ret Hout.
  { injection Hout as <-. split_and!; done. }
  cbn [advance_groups] in Hout.
  destruct (group_advantage e norm ((fun ki => token_level_rewards ki.2) <$> g0)
             ((fun ki => loss_mask ki.2) <$> g0)) as [advs0|ex] eqn:E; [|done].
  unfold mbind, res_bind in Hout.
  change (foldl _ ret (zip g0.*1 advs0)) with (write_group ret g0.*1 advs0) in Hout.
  destruct (IH _ Hout) as (Hlen & Hother & Hg). rewrite write_group_length in Hlen.
  split_and!; [done| |].
  - intros i Hi. rewrite Hother; [|intros k g Hin; apply (Hi k g); by right].
    apply write_group_other. apply (Hi k0 g0). left.
  - intros [|n] k g Hn Hdis.
    + simpl in Hn. simplify_eq. exists advs0. split; [done|]. intros p i a Hnd Hi Hp Ha.
      rewrite Hother; [by apply (write_group_at _ _ _ p)|].
      intros k' g' Hin. apply list_elem_of_lookup in Hin as [m Hm].
      apply (Hdis (S m) k' g' i); [done|done|]. by apply list_elem_of_lookup_2 in Hp.
    + simpl in Hn. destruct (Hg n k g Hn) as (advs & Ha & Hw).
      { intros m k' g' j Hm Hne. apply (Hdis (S m) k' g' j); [done|lia]. }
      exists advs. split; [done|]. intros p i a Hnd Hi. apply Hw; [done|by rewrite write_group_length].
Qed.

(** The group algorithms return as many results as items, and the result at an
    item's place is what the algorithm gives that item within the items of its
    group, taken in order. *)
Theorem group_advantages (data : list item) (e : AdvantageEstimator) (gamma lam : Qc)
    (norm : bool) (out : list (option result)) (i : nat) (it : item) :
  is_group_algo e = true -> compute_advantage data e gamma lam norm = Ok out ->
  data !! i = Some it ->
  length out = length data ∧
  let g := filter (fun ki => group_id ki.2 = group_id it) (imap pair data) in
  exists advs, group_advantage e norm ((fun ki => token_level_rewards ki.2) <$> g)
                 ((fun ki => loss_mask ki.2) <$> g) = Ok advs ∧
    forall p a, g !! p = Some (i, it) -> advs !! p = Some a -> out !! i = Some (Some (a, a)).
Proof.
  intros He Hout Hi. unfold compute_advantage in Hout. rewrite He in Hout.
  apply advance_groups_spec in Hout as (Hlen & _ & Hg). rewrite length_replicate in Hlen.
  split; [done|]. cbv zeta. set (l := imap pair data) in *.
  destruct (groups_of_spec l) as (Hwf & Hmem & Hex).
  assert ((i, it) ∈ l) as Hin.
  { apply list_elem_of_lookup. exists i. unfold l. by rewrite list_lookup_imap, Hi. }
  destruct (Hex _ Hin) as [g Hd]. simpl in Hd. pose proof (Hmem _ _ Hd) as ->.
  pose proof (dget_in _ _ _ Hd) as Hgi. apply list_elem_of_lookup in Hgi as [n Hn].
  assert (forall j x y, (j, x) ∈ l -> (j, y) ∈ l -> x = y) as Hfun.
  { intros j x y Hx Hy. apply list_elem_of_lookup in Hx as [a Ha].
    apply list_elem_of_lookup in Hy as [b Hb]. unfold l in *.
    rewrite list_lookup_imap in Ha, Hb. apply fmap_Some in Ha as (x' & Ha & Hax).
    apply fmap_Some in Hb as (y' & Hb & Hby). simplify_eq. congruence. }
  assert (NoDup l.*1) as Hnd.
  { unfold l. assert ((imap pair data).*1 = seq 0 (length data)) as ->; [|apply NoDup_seq].
    apply list_eq. intros j. rewrite list_lookup_fmap, list_lookup_imap.
    destruct (data !! j) as [x|] eqn:Ej; simpl.
    - rewrite lookup_seq_lt; [done|by eapply lookup_lt_Some].
    - rewrite lookup_seq_ge; [done|by apply lookup_ge_None]. }
  destruct (Hg n _ _ Hn) as (advs & Ha & Hw).
  { intros m k' g' j Hm Hne Hj Hj'.
    assert (dget k' (groups_of l) = Some g') as Hd' by (apply in_dget; [done|by eapply list_elem_of_lookup_2]).
    pose proof (Hmem _ _ Hd') as ->.
    apply list_elem_of_fmap in Hj as ([j1 x] & -> & Hx). apply list_elem_of_fmap in Hj' as ([j2 y] & Heq & Hy).
    simpl in Heq. subst j2. apply list_elem_of_filter in Hx as [Hkx Hx].
    apply list_elem_of_filter in Hy as [Hky Hy]. simpl in *.
    rewrite (Hfun _ _ _ Hx Hy) in Hkx. assert (k' = group_id it) as -> by congruence.
    unfold dict_wf, dkeys in Hwf.
    assert ((groups_of l).*1 !! n = Some (group_id it)) as H1 by (by rewrite list_lookup_fmap, Hn).
    assert ((groups_of l).*1 !! m = Some (group_id it)) as H2
      by (change (group_items data) with (groups_of l) in Hm; by rewrite list_lookup_fmap, Hm).
    apply Hne. exact (NoDup_lookup _ _ _ _ Hwf H2 H1). }
  exists advs. split; [exact Ha|]. intros p a Hp Hpa. apply (Hw p i a).
  - eapply sublist_NoDup; [exact Hnd|]. apply fmap_sublist, sublist_filter.
  - rewrite length_replicate. by eapply lookup_lt_Some.
  - rewrite list_lookup_fmap. unfold members. by rewrite Hp.
  - done.
Qed.

Lemma append_items_spec e gamma lam data ret out :
  append_items rsqrt e gamma lam data ret = Ok out ->
  exists l, out = ret ++ l ∧ length l = length data.
Proof.
  revert ret. induction data as [|it data IH]; intros ret Hout.
  { injection Hout as <-. exists []. by rewrite app_nil_r. }
  cbn [append_items] in Hout. destruct (item_advantage rsqrt e gamma lam it) as [r|]; [|done].
  unfold mbind, res_bind in Hout. destruct (IH _ Hout) as (l & -> & Hl).
  exists (Some r :: l). rewrite <- (assoc_L (++)). split; [done|]. simpl. lia.
Qed.

(** For the per-item algorithms the result is twice as long as the data, and
    its first half is None. *)
Theorem item_advantages_twice_as_long (data : list item) (e : AdvantageEstimator)
    (gamma lam : Qc) (norm : bool) (out : list (option result)) :
  is_group_algo e = false -> compute_advantage data e gamma lam norm = Ok out ->
  length out = (2 * length data)%nat ∧ take (length data) out = replicate (length data) None.
Proof.
  intros He Hout. unfold compute_advantage in Hout. rewrite He in Hout.
  apply append_items_spec in Hout as (l & -> & Hl). rewrite length_app, length_replicate.
  split; [lia|]. rewrite take_app_le by (rewrite length_replicate; lia).
  apply take_ge. by rewrite length_replicate.
Qed.
End dispatch.

(** ** Concrete inputs *)

Lemma gae_closed_form_witness :
  exists a, (gae_row 1 1 [0; 1] [qc 1 2; qc 1 4]).1 !! 0%nat = Some a ∧
    a + qc 1 2 = sum (imap (fun l x => 1 ^ l * x) [0; 1]).
Proof.
  destruct (gae_closed_form 1 1 [0; 1] [qc 1 2; qc 1 4] 0 (qc 1 2) eq_refl eq_refl)
    as (a & Ha & _ & Hr).
  exists a. split; [exact Ha|exact (Hr eq_refl)].
Defined.

Lemma rloo_leave_one_out_witness :
  exists advs, compute_rloo_outcome_advantage [[[1]]; [[0]]] [[[0; 1]]; [[1]]] = Ok advs ∧
    advs !! 0%nat = Some (map_tensor (Qcmult (1 + 0 + 0 - (1 + 0 + 0 + (0 + 0 + 0 + 0) - (1 + 0 + 0)) / of_nat 1))
                            [[0; 1]]).
Proof.
  destruct (rloo_leave_one_out [[[1]]; [[0]]] [[[0; 1]]; [[1]]] 0 [[1]] [[0; 1]]
    ltac:(simpl; lia) eq_refl eq_refl) as (advs & H1 & H2).
  exists advs. split; [exact H1|exact H2].
Defined.

Lemma token_loss_reference_witness :
  (token_loss (qc 1 5) (qc 1 5) (qc 3 1) 1 (qc 2 1)).1.1 = - (1) * Qcmin (qc 2 1) (1 + qc 1 5).
Proof.
  exact (token_loss_reference (qc 1 5) (qc 1 5) (qc 3 1) 1 (qc 2 1)
    ltac:(vm_compute; discriminate) ltac:(vm_compute; discriminate) ltac:(vm_compute; reflexivity)).
Defined.

Definition demo_item (g : string) (r : Qc) : item := {|
  token_level_rewards := [[r]]; loss_mask := [[0; 1]]; values := [[0]];
  reward_baselines := [0]; group_id := g
|}.

Lemma group_advantages_witness :
  exists out, compute_advantage id (fun _ => 1) (fun _ => (0, 1)%nat)
    [demo_item "a" 1; demo_item "b" 0; demo_item "a" 0] RLOO 1 1 true = Ok out ∧
    length out = 3%nat.
Proof.
  eexists. split; [reflexivity|].
  apply (group_advantages id (fun _ => 1) (fun _ => (0, 1)%nat)
    [demo_item "a" 1; demo_item "b" 0; demo_item "a" 0] RLOO 1 1 true _ 1 (demo_item "b" 0)
    eq_refl eq_refl eq_refl).
Defined.

Lemma item_advantages_twice_as_long_witness :
  exists out, compute_advantage id (fun _ => 1) (fun _ => (0, 1)%nat)
    [demo_item "a" 1] REMAX 1 1 true = Ok out ∧ length out = 2%nat.
Proof.
  eexists. split; [reflexivity|].
  apply (item_advantages_twice_as_long id (fun _ => 1) (fun _ => (0, 1)%nat)
    [demo_item "a" 1] REMAX 1 1 true _ eq_refl eq_refl).
Defined.

(** Of a group of two, every sample gets a row for each of them. *)
Example rows_of_both :
  match compute_reinforce_plus_plus_baseline_outcome_advantage (fun _ => 1) [[[1; 0]]; [[0; 0]]] [[[1; 1]]; [[0; 1]]] with
  | Ok advs => map (map (map this)) advs = ([[[1 # 2; 1 # 2]; [-1 # 2; -1 # 2]]; [[0; 1 # 2]; [0; -1 # 2]]])%Q
  | Raise _ => False
  end.
Proof. by vm_compute. Qed.

(** Masks of different lengths, which responses have, cannot be stacked. *)
Example lengths_differ : compute_reinforce_plus_plus_baseline_outcome_advantage (fun _ => 1) [[[1]]; [[0; 0]]] [[[1]]; [[0; 1]]] =
  Raise (RuntimeError "stack expects each tensor to be equal size").
Proof. by vm_compute. Qed.

Lemma baseline_advantages_witness :
  exists w : row, map this w = [1 # 2; -1 # 2]%Q ∧
    compute_reinforce_plus_plus_baseline_outcome_advantage (fun _ => 1) [[[1; 0]]; [[0; 0]]] [[[1; 1]]; [[0; 1]]] =
      Ok ((fun m : row => (fun x => Qcmult x <$> m) <$> w) <$> [[1; 1]; [0; 1]]).
Proof.
  refine (ex_intro _ _ (conj _ (baseline_advantages (fun _ => 1) [[[1; 0]]; [[0; 0]]] [[1; 1]; [0; 1]] 2 _ _ _ _))).
  - by vm_compute.
  - simpl; lia.
  - reflexivity.
  - by repeat constructor.
  - by vm_compute.
Defined.
