(* ===== verification/Sequences.v ===== *)
(** * Sequences of tokens

    Models the parts of trainer/utils/torch_functional.py that pad, cut, unpad
    and mask batches of token sequences and that read log-probabilities from
    logits.  A batch is the list of its rows, whose width is that of the first
    one; numbers are exact.  [logsumexp] of torch and the functions of flash-attn
    are arguments. *)

From S2P Require Import Prelude PyVal Advantage.

#[local] Open Scope Z_scope.

(** ** Slices *)

Definition bound (n i : Z) : nat := Z.to_nat (if bool_decide (i < 0) then i + n else i).

(** [l[lo:hi]] *)
Definition slice {A} (lo hi : option Z) (l : list A) : list A :=
  let n := Z.of_nat (length l) in
  let a := from_option (bound n) 0%nat lo in
  let b := from_option (bound n) (length l) hi in
  take (b - a) (drop a l).

Definition width {A} (t : list (list A)) : Z := Z.of_nat (length (default [] (head t))).

Definition sumZ (l : list Z) : Z := foldr Z.add 0 l.
Fixpoint cumsum (acc : Z) (l : list Z) : list Z :=
  match l with
  | [] => []
  | x :: l => (acc + x) :: cumsum (acc + x) l
  end.

(** [torch.int32] *)
Definition int32 (z : Z) : Z := (z + 2 ^ 31) mod 2 ^ 32 - 2 ^ 31.

(** ** Padding and truncation *)

(* trainer/utils/torch_functional.py:193-213 get_response_mask *)
Definition get_response_mask (eos_token : list Z) (response_id : list Z) : list Z :=
  let eos_mask := (fun t => if bool_decide (t ∈ eos_token) then 1 else 0) <$> response_id in
  (fun d => if bool_decide (d = 0) then 1 else 0) <$> zip_with Z.sub (cumsum 0 eos_mask) eos_mask.

(* trainer/utils/torch_functional.py:299-307 pad_2d_list_to_length *)
Definition pad_2d_list_to_length {A} (response : list (list A)) (pad_token_id : A) (max_length : option Z)
    : res (list (list A)) :=
  match response with
  | [] => Raise ValueError
  | _ =>
      let response_length := foldr Z.max 0 ((fun l => Z.of_nat (length l)) <$> response) in
      let target_length := match max_length with
                           | Some m => if bool_decide (response_length < m) then m else response_length
                           | None => response_length
                           end in
      Ok ((fun l => l ++ replicate (Z.to_nat (target_length - Z.of_nat (length l))) pad_token_id) <$> response)
  end.

(* trainer/utils/torch_functional.py:310-320 pad_sequence_to_length *)
Definition pad_sequence_to_length {A} (tensors : list (list A)) (max_seq_len : Z) (pad_token_id : A)
    (left_pad : bool) : list (list A) :=
  if bool_decide (max_seq_len <= width tensors) then tensors
  else
    let padding := replicate (Z.to_nat (max_seq_len - width tensors)) pad_token_id in
    (fun l => if left_pad then padding ++ l else l ++ padding) <$> tensors.

(** The columns that are kept of a row that is too long. *)
(* trainer/utils/torch_functional.py:351-365 postprocess_data *)
Definition truncated {A} (truncation : string) (max_length : Z) (l : list A) : res (list A) :=
  if bool_decide (truncation = "left") then Ok (slice (Some (- max_length)) None l)
  else if bool_decide (truncation = "right") then Ok (slice None (Some max_length) l)
  else if bool_decide (truncation = "middle") then
    let left_half := max_length / 2 in
    let right_half := max_length - left_half in
    Ok (slice None (Some left_half) l ++ slice (Some (- right_half)) None l)
  else Raise NotImplementedError.

(* trainer/utils/torch_functional.py:323-369 postprocess_data *)
Definition postprocess_data (input_ids attention_mask : list (list Z)) (max_length pad_token_id : Z)
    (left_pad : bool) (truncation : string) : res (list (list Z) * list (list Z)) :=
  if negb (bool_decide (truncation ∈ ["left"; "right"; "middle"; "error"])) then Raise AssertionError
  else
    let sequence_length := width input_ids in
    if bool_decide (sequence_length < max_length) then
      Ok (pad_sequence_to_length input_ids max_length pad_token_id left_pad,
          pad_sequence_to_length attention_mask max_length 0 left_pad)
    else if bool_decide (max_length < sequence_length) then
      input_ids ← mapM (truncated truncation max_length) input_ids;
      attention_mask ← mapM (truncated truncation max_length) attention_mask;
      Ok (input_ids, attention_mask)
    else Ok (input_ids, attention_mask).

(* trainer/utils/torch_functional.py:372-390 tokenize_and_postprocess_data *)
Definition tokenize_and_postprocess_data (tokenizer : string -> list (list Z) * list (list Z))
    (prompt : string) (max_length pad_token_id : Z) (left_pad : bool) (truncation : string) :=
  let '(input_ids, attention_mask) := tokenizer prompt in
  postprocess_data input_ids attention_mask max_length pad_token_id left_pad truncation.

(* trainer/utils/torch_functional.py:393-405 remove_pad_token *)
Definition remove_pad_token (input_ids attention_mask : list (list Z)) : list (list Z) :=
  zip_with (fun ids mask => slice (Some (Z.of_nat (length ids) - sumZ mask)) None ids) input_ids attention_mask.

(** [torch.nonzero(m)] *)
Fixpoint nonzero (i : nat) (m : list Z) : list nat :=
  match m with
  | [] => []
  | x :: m => if bool_decide (x = 0) then nonzero (S i) m else i :: nonzero (S i) m
  end.

(** The indices of the tokens, where the rows begin and end among them, and the
    length of the longest row. *)
(* trainer/utils/torch_functional.py:607-616 get_unpad_data *)
Definition get_unpad_data (attention_mask : list (list Z)) : res (list nat * list Z * Z) :=
  let seqlens_in_batch := (fun m => int32 (sumZ m)) <$> attention_mask in
  match seqlens_in_batch with
  | [] => Raise (RuntimeError "max of no elements")
  | n :: l => Ok (nonzero 0 (mjoin attention_mask), 0 :: (int32 <$> cumsum 0 seqlens_in_batch), foldr Z.max n l)
  end.

(** ** Log-probabilities *)

Section logprobs.
Context (logsumexp : row -> Qc) (exp : Qc -> Qc).

(** [cross_entropy_loss] of flash-attn; the losses and the z-losses. *)
Context (cross_entropy_loss : list row -> list Z -> res (list Qc * list Qc)).

(* trainer/utils/torch_functional.py:40-52 gather_from_labels *)
Definition gather_from_labels (data : row) (label : Z) : res Qc :=
  match (if bool_decide (0 <= label) then data !! Z.to_nat label else None) with
  | Some x => Ok x
  | None => Raise (RuntimeError "index out of bounds")
  end.

Definition log_softmax (data : row) : row := (fun x => (x - logsumexp data)%Qc) <$> data.

(* trainer/utils/torch_functional.py:84-87 logprobs_from_logits_flash_attn *)
Definition logprobs_from_logits_flash_attn (logits : list row) (labels : list Z) : res (list Qc) :=
  output ← cross_entropy_loss logits labels;
  Ok (Qcopp <$> fst output : list Qc).

(* trainer/utils/torch_functional.py:90-93 logprobs_from_logits_naive *)
Definition logprobs_from_logits_naive (logits : list row) (labels : list Z) : res (list Qc) :=
  mapM (fun p => gather_from_labels (log_softmax p.1) p.2) (zip logits labels).

(** Logits and labels of one shape. *)
(* trainer/utils/torch_functional.py:96-113 logprobs_from_logits_v2 *)
Definition logprobs_from_logits_v2 (float32 : bool) (logits : list row) (labels : list Z) : res (list Qc) :=
  if float32 then
    logits_labels ← mapM (fun p => gather_from_labels p.1 p.2) (zip logits labels);
    Ok (zip_with Qcminus logits_labels (logsumexp <$> logits))
  else mapM (fun p => gather_from_labels (log_softmax p.1) p.2) (zip logits labels).

(** Cut a list into rows as long as those of [shape]. *)
Fixpoint view {A B} (shape : list (list B)) (l : list A) : list (list A) :=
  match shape with
  | [] => []
  | r :: shape => take (length r) l :: view shape (drop (length r) l)
  end.

(** Of one row of positions, and of a batch. *)
(* trainer/utils/torch_functional.py:72-81 logprobs_from_logits *)
Definition logprobs_from_logits (flash_attn float32 : bool) (logits : list row) (labels : list Z) : res (list Qc) :=
  if flash_attn then logprobs_from_logits_flash_attn logits labels
  else logprobs_from_logits_v2 float32 logits labels.
(* trainer/utils/torch_functional.py:55-81 logprobs_from_logits *)
Definition logprobs_from_logits_batch (flash_attn float32 : bool) (logits : list (list row))
    (labels : list (list Z)) : res (list (list Qc)) :=
  if flash_attn then
    output ← logprobs_from_logits_flash_attn (mjoin logits) (mjoin labels);
    Ok (view logits output)
  else mapM (fun p => logprobs_from_logits_v2 float32 p.1 p.2) (zip logits labels).

(* trainer/utils/torch_functional.py:125-129 entropy_from_logits *)
Definition entropy_from_logits (logits : row) : Qc :=
  let pd := exp <$> log_softmax logits in
  (logsumexp logits - sum (zip_with Qcmult pd logits))%Qc.

(** The positions [[-response_length - 1, -1)] predict the last
    [response_length] tokens. *)
(* trainer/utils/torch_functional.py:408-421 log_probs_from_logits_response *)
Definition log_probs_from_logits_response (flash_attn float32 : bool) (input_ids : list (list Z))
    (logits : list (list row)) (response_length : Z) : res (list (list Qc)) :=
  let response_logits := slice (Some (- response_length - 1)) (Some (-1)) <$> logits in
  let response := slice (Some (- response_length)) None <$> input_ids in
  logprobs_from_logits_batch flash_attn float32 response_logits response.

(** [torch.roll(l, shifts=-1)] *)
Definition roll_left {A} (l : list A) : list A := drop 1 l ++ take 1 l.

(** [unpad_input] and [pad_input] of flash-attn. *)
Context (unpad_input : list (list Z) -> list (list Z) -> list Z * list nat).
Context (pad_input : list Qc -> list nat -> nat -> nat -> list (list Qc)).

(* trainer/utils/torch_functional.py:449-472 log_probs_from_logits_all_rmpad *)
Definition log_probs_from_logits_all_rmpad (flash_attn float32 : bool) (input_ids_rmpad : list Z)
    (logits_rmpad : list row) (indices : list nat) (batch_size seqlen : nat) (response_length : Z)
    : res (list (list Qc)) :=
  let input_ids_rmpad_rolled := roll_left input_ids_rmpad in
  full_log_probs_rmpad ← logprobs_from_logits flash_attn float32 logits_rmpad input_ids_rmpad_rolled;
  let full_output := pad_input full_log_probs_rmpad indices batch_size seqlen in
  Ok (slice (Some (- response_length - 1)) (Some (-1)) <$> full_output).

(* trainer/utils/torch_functional.py:424-446 log_probs_from_logits_response_rmpad *)
Definition log_probs_from_logits_response_rmpad (flash_attn float32 : bool) (input_ids attention_mask : list (list Z))
    (logits_rmpad : list row) (response_length : Z) : res (list (list Qc)) :=
  let batch_size := length input_ids in
  let seqlen := Z.to_nat (width input_ids) in
  let '(input_ids_rmpad, indices) := unpad_input input_ids attention_mask in
  let input_ids_rmpad_rolled := roll_left input_ids_rmpad in
  full_log_probs_rmpad ← logprobs_from_logits flash_attn float32 logits_rmpad input_ids_rmpad_rolled;
  let full_output := pad_input full_log_probs_rmpad indices batch_size seqlen in
  Ok (slice (Some (- response_length - 1)) (Some (-1)) <$> full_output).

(* trainer/utils/torch_functional.py:475-483 post_process_logits *)
Definition post_process_logits (logits : list row) (temperature : Qc) : list row :=
  if decide (temperature = qc 1 1) then logits else map_tensor (fun x => (x / temperature)%Qc) logits.
End logprobs.

(** ** Response masks *)

Lemma mask_after acc (eos ids : list Z) : 0 < acc ->
  (fun d => if bool_decide (d = 0) then 1 else 0) <$>
    zip_with Z.sub (cumsum acc ((fun t => if bool_decide (t ∈ eos) then 1 else 0) <$> ids))
      ((fun t => if bool_decide (t ∈ eos) then 1 else 0) <$> ids)
  = replicate (length ids) 0.
Proof.
  revert acc. induction ids as [|t ids IH]; intros acc Hacc; [done|]. simpl.
  rewrite (bool_decide_false (acc + _ - _ = 0)) by (case_bool_decide; lia). f_equal. apply IH. case_bool_decide; lia.
Qed.

(** The mask of a response is one up to the first token that ends it, that one
    included, and zero from there on. *)
Theorem response_mask_prefix (eos_token response_id : list Z) :
  get_response_mask eos_token response_id =
  match list_find (fun t => t ∈ eos_token) response_id with
  | Some (i, _) => replicate (S i) 1 ++ replicate (length response_id - S i) 0
  | None => replicate (length response_id) 1
  end.
Proof.
  unfold get_response_mask. induction response_id as [|t ids IH]; [done|].
  cbn [fmap list_fmap cumsum zip_with]. rewrite bool_decide_true by lia. simpl.
  case_bool_decide as Ht.
  - rewrite decide_True by done. simpl. f_equal. rewrite Nat.sub_0_r. by apply (mask_after 1).
  - rewrite decide_False by done. etransitivity; [apply (f_equal (cons 1)), IH|].
    by destruct (list_find _ ids) as [[i x]|].
Qed.

(** ** Rows without their padding *)

Definition count (m : list Z) : nat := length (filter (fun x => x ≠ 0) m).
(** The elements where the mask is not zero. *)
Fixpoint select {A} (m : list Z) (l : list A) : list A :=
  match m, l with
  | x :: m, y :: l => if bool_decide (x = 0) then select m l else y :: select m l
  | _, _ => []
  end.

Lemma length_nonzero i m : length (nonzero i m) = count m.
Proof.
  unfold count. revert i. induction m as [|x m IH]; intros i; [done|]. simpl. rewrite filter_cons.
  case_bool_decide; [rewrite decide_False by auto|rewrite decide_True by auto]; simpl; by rewrite IH.
Qed.

Lemma length_select {A} m (l : list A) : length l = length m -> length (select m l) = count m.
Proof.
  unfold count. revert l. induction m as [|x m IH]; intros [|y l] Hl; try done. simpl. rewrite filter_cons.
  case_bool_decide; [rewrite decide_False by auto|rewrite decide_True by auto]; simpl; rewrite IH; auto.
Qed.

(** Where the index [f] is among the indices. *)
Lemma nonzero_lookup m f x i : m !! f = Some x -> x ≠ 0 -> nonzero i m !! count (take f m) = Some (i + f)%nat.
Proof.
  unfold count. revert f i. induction m as [|y m IH]; intros [|f] i Hf Hx; try done; simpl in *.
  - injection Hf as ->. rewrite bool_decide_false by done. simpl. by rewrite Nat.add_0_r.
  - rewrite filter_cons. case_bool_decide; [rewrite decide_False by auto|rewrite decide_True by auto]; simpl;
      rewrite (IH f) by done; by rewrite Nat.add_succ_r.
Qed.

Lemma select_lookup {A} m (l : list A) f x : length l = length m -> m !! f = Some x -> x ≠ 0 ->
  select m l !! count (take f m) = l !! f.
Proof.
  unfold count. revert l f. induction m as [|y m IH]; intros [|z l] [|f] Hl Hf Hx; try done; simpl in *.
  - injection Hf as ->. by rewrite bool_decide_false.
  - rewrite filter_cons. case_bool_decide; [rewrite decide_False by auto|rewrite decide_True by auto]; simpl;
      apply IH; auto.
Qed.

Lemma nonzero_elem m i k : k ∈ nonzero i m -> exists f x, k = (i + f)%nat /\ m !! f = Some x /\ x ≠ 0.
Proof.
  revert i. induction m as [|y m IH]; intros i; simpl; [by intros ?%elem_of_nil|].
  assert (Hrec : k ∈ nonzero (S i) m -> exists f x, k = (i + f)%nat /\ (y :: m) !! f = Some x /\ x ≠ 0).
  { intros (f & x & -> & ? & ?)%IH. exists (S f), x. split; [lia|done]. }
  case_bool_decide; [done|]. intros [->|Hk]%elem_of_cons; [|auto]. exists 0%nat, y. split; [lia|done].
Qed.

Lemma NoDup_nonzero i m : NoDup (nonzero i m).
Proof.
  revert i. induction m as [|y m IH]; intros i; simpl; [constructor|]. case_bool_decide; [done|].
  constructor; [|done]. intros (f & ? & ? & _)%nonzero_elem. lia.
Qed.

Lemma count_take_S m f x : m !! f = Some x -> x ≠ 0 -> count (take (S f) m) = S (count (take f m)).
Proof.
  intros Hf Hx. rewrite (take_S_r _ _ _ Hf). unfold count. rewrite filter_app, length_app.
  rewrite filter_cons, decide_True by done. simpl. lia.
Qed.

Lemma roll_left_lookup {A} (l : list A) k x : l !! S k = Some x -> roll_left l !! k = Some x.
Proof.
  intros H. unfold roll_left. rewrite lookup_app_l; [by rewrite lookup_drop|].
  apply lookup_lt_Some in H. rewrite length_drop. lia.
Qed.

Lemma roll_left_length {A} (l : list A) : length (roll_left l) = length l.
Proof. unfold roll_left. rewrite length_app, length_drop, length_take. lia. Qed.

Lemma roll_left_Forall {A} (P : A -> Prop) l : Forall P l -> Forall P (roll_left l).
Proof. intros H. unfold roll_left. apply Forall_app. split; [by apply Forall_drop|by apply Forall_take]. Qed.

Lemma select_Forall {A} (P : A -> Prop) m l : Forall P l -> Forall P (select m l).
Proof.
  intros H. revert m. induction H as [|x l Hx _ IH]; intros [|y m]; simpl; try constructor.
  case_bool_decide; [apply IH|by constructor].
Qed.

Lemma mjoin_length {A B} (l : list (list A)) (k : list (list B)) :
  Forall2 (fun r r' => length r = length r') l k -> length (mjoin l) = length (mjoin k).
Proof. induction 1 as [|r r' l k Hr _ IH]; [done|]. simpl. rewrite !length_app. lia. Qed.

Lemma mjoin_size {A} s (l : list (list A)) :
  Forall (fun r => length r = s) l -> length (mjoin l) = (length l * s)%nat.
Proof. induction 1 as [|r l Hr _ IH]; [done|]. simpl. rewrite length_app. lia. Qed.

Lemma rows_Forall2 {A B} s (l : list (list A)) (k : list (list B)) : length l = length k ->
  Forall (fun r => length r = s) l -> Forall (fun r => length r = s) k ->
  Forall2 (fun r r' => length r = length r') l k.
Proof.
  intros Hl H. revert k Hl. induction H as [|r l Hr _ IH]; intros [|r' k] Hl Hk; try done.
  apply Forall_cons in Hk as [Hr' Hk]. constructor; [congruence|]. apply IH; [by injection Hl|done].
Qed.

Lemma mjoin_lookup {A} s (l : list (list A)) i j r : Forall (fun r => length r = s) l -> (j < s)%nat ->
  l !! i = Some r -> mjoin l !! (i * s + j)%nat = r !! j.
Proof.
  intros Hl Hj Hi. pose proof (Forall_lookup_1 _ _ _ _ Hl Hi) as Hr. simpl in Hr.
  destruct (lookup_lt_is_Some_2 r j ltac:(lia)) as [x Hx]. rewrite Hx.
  apply join_lookup_Some_same_length'; [done|done|eauto].
Qed.

(** The last [R] positions but one, and the last [R]. *)
Lemma slice_before {A} (r : list A) R j : (R < length r)%nat -> (j < R)%nat ->
  slice (Some (- Z.of_nat R - 1)) (Some (-1)) r !! j = r !! (length r - R - 1 + j)%nat.
Proof.
  intros HR Hj. unfold slice, bound. simpl. rewrite !bool_decide_true by lia.
  rewrite lookup_take_lt by lia. rewrite lookup_drop. f_equal. lia.
Qed.
Lemma slice_before_length {A} (r : list A) R : (R < length r)%nat ->
  length (slice (Some (- Z.of_nat R - 1)) (Some (-1)) r) = R.
Proof.
  intros HR. unfold slice, bound. simpl. rewrite !bool_decide_true by lia. rewrite length_take, length_drop. lia.
Qed.
Lemma slice_last {A} (r : list A) R : (0 < R)%nat ->
  slice (Some (- Z.of_nat R)) None r = drop (length r - R) r.
Proof.
  intros HR. unfold slice, bound. simpl. rewrite bool_decide_true by lia.
  rewrite take_ge by (rewrite length_drop; lia). f_equal. lia.
Qed.

(** ** Log-probabilities with and without padding *)

Section unpadded.
Context (logsumexp : row -> Qc).
Context (cross_entropy_loss : list row -> list Z -> res (list Qc * list Qc)).
Context (unpad_input : list (list Z) -> list (list Z) -> list Z * list nat).
Context (pad_input : list Qc -> list nat -> nat -> nat -> list (list Qc)).

(** What the documentation of flash-attn says: the loss of a label is minus its
    log-probability; unpadding takes the elements under the mask with their
    indices; padding puts the elements at their indices and zero elsewhere. *)
Definition valid_label (logits : row) (label : Z) : Prop := 0 <= label < Z.of_nat (length logits).
Definition token_logprob (logits : row) (label : Z) : Qc :=
  (default 0 (logits !! Z.to_nat label) - logsumexp logits)%Qc.
Context (cross_entropy_spec : forall logits labels, Forall2 valid_label logits labels ->
  exists z, cross_entropy_loss logits labels = Ok (zip_with (fun l y => (- token_logprob l y)%Qc) logits labels, z)).
Context (unpad_spec : forall x m, unpad_input x m = (select (mjoin m) (mjoin x), nonzero 0 (mjoin m))).
Context (pad_spec : forall h idx b s, length h = length idx -> NoDup idx -> Forall (fun k => (k < b * s)%nat) idx ->
  length (pad_input h idx b s) = b /\
  forall i j, (i < b)%nat -> (j < s)%nat -> exists r, pad_input h idx b s !! i = Some r /\ length r = s /\
    (forall k x, idx !! k = Some (i * s + j)%nat -> h !! k = Some x -> r !! j = Some x) /\
    ((i * s + j)%nat ∉ idx -> r !! j = Some 0%Qc)).

Lemma gather_valid logits label : valid_label logits label ->
  gather_from_labels logits label = Ok (default 0%Qc (logits !! Z.to_nat label)).
Proof.
  intros [H0 H1]. unfold gather_from_labels. rewrite bool_decide_true by done.
  destruct (logits !! Z.to_nat label) eqn:E; [done|]. apply lookup_ge_None in E. lia.
Qed.

Lemma gather_log_softmax logits label : valid_label logits label ->
  gather_from_labels (log_softmax logsumexp logits) label = Ok (token_logprob logits label).
Proof.
  intros H. rewrite gather_valid; [|unfold valid_label, log_softmax; by rewrite length_fmap].
  unfold token_logprob, log_softmax. rewrite list_lookup_fmap. destruct H as [H0 H1].
  destruct (logits !! Z.to_nat label) eqn:E; [done|]. apply lookup_ge_None in E. lia.
Qed.

Lemma mapM_zip {A B C} (P : A -> B -> Prop) (f : A * B -> res C) (g : A -> B -> C) l k :
  (forall x y, P x y -> f (x, y) = Ok (g x y)) -> Forall2 P l k -> mapM f (zip l k) = Ok (zip_with g l k).
Proof.
  intros Hf. induction 1 as [|x y l k Hxy _ IH]; [done|].
  change (mapM f (zip (x :: l) (y :: k))) with (y' ← f (x, y); k' ← mapM f (zip l k); mret (y' :: k')).
  rewrite (Hf _ _ Hxy). simpl. by rewrite IH.
Qed.

Lemma v2_valid f32 logits labels : Forall2 valid_label logits labels ->
  logprobs_from_logits_v2 logsumexp f32 logits labels = Ok (zip_with token_logprob logits labels).
Proof.
  intros H. unfold logprobs_from_logits_v2. destruct f32.
  - rewrite (mapM_zip valid_label _ (fun l y => default 0%Qc (l !! Z.to_nat y))); [|by intros; apply gather_valid|done].
    simpl. f_equal. clear -H. induction H as [|l y logits labels _ _ IH]; [done|]. simpl. f_equal. exact IH.
  - apply (mapM_zip valid_label); [|done]. intros. by apply gather_log_softmax.
Qed.

(** The three ways to compute them agree. *)
Lemma logprobs_valid flash f32 logits labels : Forall2 valid_label logits labels ->
  logprobs_from_logits logsumexp cross_entropy_loss flash f32 logits labels
  = Ok (zip_with token_logprob logits labels).
Proof.
  intros H. unfold logprobs_from_logits. destruct flash; [|by apply v2_valid].
  unfold logprobs_from_logits_flash_attn. destruct (cross_entropy_spec _ _ H) as [z ->]. simpl. f_equal.
  clear. revert labels. induction logits as [|l logits IH]; intros [|y labels]; try done. simpl.
  rewrite Qcopp_involutive. f_equal. apply IH.
Qed.

Lemma view_zip {A B C} (g : A -> B -> C) l k : Forall2 (fun r r' => length r = length r') l k ->
  view l (zip_with g (mjoin l) (mjoin k)) = zip_with (zip_with g) l k.
Proof.
  induction 1 as [|r r' l k Hl _ IH]; [done|]. simpl.
  rewrite zip_with_app by done.
  assert (Hz : length (zip_with g r r') = length r) by (rewrite length_zip_with; lia).
  rewrite take_app_length' by done. rewrite drop_app_length' by done. by rewrite IH.
Qed.

Lemma batch_valid flash f32 logits labels : Forall2 (Forall2 valid_label) logits labels ->
  logprobs_from_logits_batch logsumexp cross_entropy_loss flash f32 logits labels
  = Ok (zip_with (zip_with token_logprob) logits labels).
Proof.
  intros H. unfold logprobs_from_logits_batch. destruct flash.
  - assert (Hj : Forall2 valid_label (mjoin logits) (mjoin labels)).
    { clear -H. induction H as [|r r' l k Hr _ IH]; [constructor|]. simpl. by apply Forall2_app. }
    pose proof (logprobs_valid true true _ _ Hj) as E. unfold logprobs_from_logits in E. rewrite E. simpl. f_equal.
    apply view_zip. clear -H. induction H as [|r r' l k Hr _ IH]; constructor; [by eapply Forall2_length|done].
  - apply (mapM_zip (Forall2 valid_label)); [|done]. intros. by apply v2_valid.
Qed.

(** A batch of the shape [(b, s)] with logits over [V] words. *)
Record batch_ok (ids mask : list (list Z)) (logits : list (list row)) (s V : nat) : Prop := {
  ids_rows : Forall (fun r => length r = s) ids;
  mask_rows : Forall (fun r => length r = s) mask;
  logits_rows : Forall (fun r => length r = s) logits;
  words : Forall (Forall (fun l : row => length l = V)) logits;
  labels : Forall (Forall (fun y => 0 <= y < Z.of_nat V)) ids;
  mask_size : length mask = length ids;
  logits_size : length logits = length ids
}.

Lemma valid_rows (V : nat) (logits : list row) labels : Forall (fun l : row => length l = V) logits ->
  Forall (fun y => 0 <= y < Z.of_nat V) labels -> length logits = length labels ->
  Forall2 valid_label logits labels.
Proof.
  intros H. revert labels. induction H as [|l logits Hl _ IH]; intros [|y labels] Hy Hn; try done.
  apply Forall_cons in Hy as [Hy Hys]. constructor; [unfold valid_label; by rewrite Hl|].
  apply IH; [done|by injection Hn].
Qed.

(** The log-probabilities of all tokens without padding. *)
Lemma full_log_probs flash f32 ids mask logits s V : batch_ok ids mask logits s V ->
  logprobs_from_logits logsumexp cross_entropy_loss flash f32
    (select (mjoin mask) (mjoin logits)) (roll_left (select (mjoin mask) (mjoin ids)))
  = Ok (zip_with token_logprob (select (mjoin mask) (mjoin logits)) (roll_left (select (mjoin mask) (mjoin ids)))).
Proof.
  intros [H1 H2 H3 H4 H5 H6 H7]. apply logprobs_valid, (valid_rows V).
  - by apply select_Forall, Forall_join.
  - by apply roll_left_Forall, select_Forall, Forall_join.
  - rewrite roll_left_length, !length_select; [done|..]; apply mjoin_length, (rows_Forall2 s); congruence.
Qed.

(** The position [p] of the row [i] after padding again. *)
Lemma padded_at ids mask logits s V i p m l y : batch_ok ids mask logits s V ->
  mask !! i = Some m -> (S p < s)%nat ->
  logits !! i ≫= (.!! p) = Some l -> ids !! i ≫= (.!! S p) = Some y ->
  let full := zip_with token_logprob (select (mjoin mask) (mjoin logits))
    (roll_left (select (mjoin mask) (mjoin ids))) in
  exists r, pad_input full (nonzero 0 (mjoin mask)) (length ids) s !! i = Some r /\ length r = s /\
    (m !! p ≠ Some 0 -> m !! S p ≠ Some 0 -> r !! p = Some (token_logprob l y)) /\
    (m !! p = Some 0 -> r !! p = Some 0%Qc).
Proof.
  intros Hb Hm Hp Hl Hy full. destruct Hb as [H1 H2 H3 H4 H5 H6 H7].
  assert (HI : length (mjoin ids) = length (mjoin mask)) by (apply mjoin_length, (rows_Forall2 s); congruence).
  assert (HL : length (mjoin logits) = length (mjoin mask)) by (apply mjoin_length, (rows_Forall2 s); congruence).
  destruct (ids !! i) as [ri|] eqn:Hi; [|done]. destruct (logits !! i) as [rl|] eqn:Hri; [|done]. simpl in Hl, Hy.
  assert (Hat : forall q, (q < s)%nat -> exists x, m !! q = Some x /\ mjoin mask !! (i * s + q)%nat = Some x).
  { intros q Hq. pose proof (Forall_lookup_1 _ _ _ _ H2 Hm) as Hms. simpl in Hms.
    destruct (lookup_lt_is_Some_2 m q ltac:(lia)) as [x Hx]. exists x. split; [done|].
    by rewrite (mjoin_lookup s mask i q m). }
  destruct (pad_spec full (nonzero 0 (mjoin mask)) (length ids) s) as [Hn Hpad].
  - unfold full. rewrite length_zip_with, roll_left_length, !length_select, length_nonzero by done. lia.
  - apply NoDup_nonzero.
  - apply Forall_forall. intros k (f & x & -> & Hf & _)%nonzero_elem. apply lookup_lt_Some in Hf.
    rewrite (mjoin_size s) in Hf by done. simpl. lia.
  - apply lookup_lt_Some in Hi as Hib. destruct (Hpad i p Hib ltac:(lia)) as (r & Hr & Hs & Hin & Hout).
    exists r. split; [done|]. split; [done|]. split.
    + intros Hx Hx'. destruct (Hat p ltac:(lia)) as (x & Ex & Fx). destruct (Hat (S p) Hp) as (x' & Ex' & Fx').
      assert (x ≠ 0) by congruence. assert (x' ≠ 0) by congruence.
      apply (Hin (count (take (i * s + p) (mjoin mask)))).
      { by rewrite (nonzero_lookup _ _ x). }
      unfold full. apply lookup_zip_with_Some. exists l, y. split; [done|]. split.
      { rewrite (select_lookup _ _ _ x) by done. rewrite (mjoin_lookup s logits i p rl); [done|done|lia|done]. }
      apply roll_left_lookup. rewrite <- (count_take_S _ _ x) by done.
      replace (S (i * s + p)) with (i * s + S p)%nat by lia.
      rewrite (select_lookup _ _ _ x') by done. by rewrite (mjoin_lookup s ids i (S p) ri).
    + intros Hx. apply Hout. intros (f & x & Hf & Ef & Hne)%nonzero_elem. simpl in Hf. subst f.
      destruct (Hat p ltac:(lia)) as (x0 & Ex & Fx). congruence.
Qed.

(** The batch computed directly. *)
Lemma response_at flash f32 ids mask logits s V R : batch_ok ids mask logits s V -> (0 < R < s)%nat ->
  exists out, log_probs_from_logits_response logsumexp cross_entropy_loss flash f32 ids logits (Z.of_nat R) = Ok out /\
  forall i j l y, (j < R)%nat -> logits !! i ≫= (.!! (s - R - 1 + j)%nat) = Some l ->
    ids !! i ≫= (.!! S (s - R - 1 + j)%nat) = Some y -> out !! i ≫= (.!! j) = Some (token_logprob l y).
Proof.
  intros [H1 H2 H3 H4 H5 H6 H7] HR. unfold log_probs_from_logits_response.
  rewrite batch_valid.
  - eexists. split; [done|]. intros i j l y Hj Hl Hy.
    destruct (ids !! i) as [ri|] eqn:Hi; [|done]. destruct (logits !! i) as [rl|] eqn:Hri; [|done]. simpl in Hl, Hy.
    pose proof (Forall_lookup_1 _ _ _ _ H1 Hi) as L1. pose proof (Forall_lookup_1 _ _ _ _ H3 Hri) as L2. simpl in L1, L2.
    rewrite lookup_zip_with, !list_lookup_fmap, Hi, Hri. simpl. rewrite lookup_zip_with.
    rewrite slice_before by lia. rewrite L2, Hl. simpl. rewrite slice_last by lia. rewrite lookup_drop.
    replace (length ri - R + j)%nat with (S (s - R - 1 + j)) by lia. by rewrite Hy.
  - clear H2 H6. revert logits H3 H4 H7. induction H1 as [|ri ids Hi _ IH]; intros [|rl logits] H3 H4 H7; try done.
    apply Forall_cons in H3 as [Hl H3], H4 as [Hw H4], H5 as [Hy H5]. simpl.
    constructor; [|apply IH; [done|done|done|by injection H7]].
    apply (valid_rows V).
    + unfold slice. by apply Forall_take, Forall_drop.
    + unfold slice. by apply Forall_take, Forall_drop.
    + rewrite slice_before_length by lia. rewrite slice_last by lia. rewrite length_drop. lia.
Qed.

(** C32: computed without padding, the log-probabilities of a response are those
    computed with it wherever a token and the one before it are under the mask, and
    zero where the one before is padding, with flash-attn or without and for both
    number formats. *)
Theorem rmpad_log_probs flash f32 ids mask logits s V R :
  batch_ok ids mask logits s V -> ids ≠ [] -> (0 < R < s)%nat ->
  exists out out',
    log_probs_from_logits_response_rmpad logsumexp cross_entropy_loss unpad_input pad_input flash f32
      ids mask (select (mjoin mask) (mjoin logits)) (Z.of_nat R) = Ok out /\
    log_probs_from_logits_response logsumexp cross_entropy_loss flash f32 ids logits (Z.of_nat R) = Ok out' /\
    forall i j m, (j < R)%nat -> mask !! i = Some m -> let p := (s - R - 1 + j)%nat in
      (m !! p ≠ Some 0 -> m !! S p ≠ Some 0 ->
         out !! i ≫= (.!! j) = out' !! i ≫= (.!! j) /\ is_Some (out' !! i ≫= (.!! j))) /\
      (m !! p = Some 0 -> out !! i ≫= (.!! j) = Some 0%Qc).
Proof.
  intros Hb Hne HR. destruct (response_at flash f32 _ _ _ _ _ R Hb HR) as (out' & Hout' & Hat').
  unfold log_probs_from_logits_response_rmpad. rewrite unpad_spec. rewrite (full_log_probs flash f32 _ _ _ _ _ Hb). simpl.
  do 2 eexists. split; [done|]. split; [done|]. intros i j m Hj Hm. set (p := (s - R - 1 + j)%nat).
  assert (exists l, logits !! i ≫= (.!! p) = Some l) as [l Hl].
  { destruct (lookup_lt_is_Some_2 logits i) as [rl Hrl]; [rewrite (logits_size _ _ _ _ _ Hb), <- (mask_size _ _ _ _ _ Hb); by eapply lookup_lt_Some|].
    rewrite Hrl. pose proof (Forall_lookup_1 _ _ _ _ (logits_rows _ _ _ _ _ Hb) Hrl) as L. simpl in *.
    apply lookup_lt_is_Some_2. lia. }
  assert (exists y, ids !! i ≫= (.!! S p) = Some y) as [y Hy].
  { destruct (lookup_lt_is_Some_2 ids i) as [rl Hrl]; [rewrite <- (mask_size _ _ _ _ _ Hb); by eapply lookup_lt_Some|].
    rewrite Hrl. pose proof (Forall_lookup_1 _ _ _ _ (ids_rows _ _ _ _ _ Hb) Hrl) as L. simpl in *.
    apply lookup_lt_is_Some_2. lia. }
  assert (width ids = Z.of_nat s) as ->.
  { destruct ids as [|r ids]; [done|]. unfold width. simpl. f_equal. by apply ids_rows, Forall_cons in Hb as [Hb _]. }
  rewrite Nat2Z.id.
  destruct (padded_at _ _ _ _ _ i p m l y Hb Hm ltac:(lia) Hl Hy) as (r & Hr & Hs & Hin & Hz).
  rewrite list_lookup_fmap, Hr. simpl. rewrite slice_before by lia. rewrite Hs. fold p.
  rewrite (Hat' i j l y Hj Hl Hy). eauto.
Qed.
End unpadded.

(** ** What padding and truncation keep *)

(** The tokens of a row that are kept. *)
Definition kept {A} (truncation : string) (max : nat) (l : list A) : list A :=
  let n := length l in
  if decide (n <= max)%nat then l
  else if decide (truncation = "left") then drop (n - max) l
  else if decide (truncation = "right") then take max l
  else take (max / 2) l ++ drop (n - (max - max / 2)) l.

Lemma slice_first {A} (l : list A) n : slice None (Some (Z.of_nat n)) l = take n l.
Proof. unfold slice, bound. simpl. rewrite bool_decide_false by lia. by rewrite Nat.sub_0_r, Nat2Z.id, drop_0. Qed.

Lemma truncated_kept {A} truncation max (l : list A) : (0 < max < length l)%nat ->
  truncation ∈ ["left"; "right"; "middle"] ->
  truncated truncation (Z.of_nat max) l = Ok (kept truncation max l) /\ length (kept truncation max l) = max.
Proof.
  intros Hm Ht. unfold truncated, kept. rewrite decide_False by lia.
  assert (max / 2 < max)%nat by (apply Nat.div_lt; lia).
  assert (Hh : Z.of_nat max / 2 = Z.of_nat (max / 2)) by (by rewrite Nat2Z.inj_div).
  remember (max / 2)%nat as h eqn:Eh. rewrite Hh.
  rewrite !elem_of_cons, elem_of_nil in Ht. destruct Ht as [->|[->|[->|[]]]]; simpl.
  - rewrite slice_last by lia. rewrite length_drop. split; [done|lia].
  - rewrite slice_first, length_take. split; [done|lia].
  - replace (Z.of_nat max - Z.of_nat h) with (Z.of_nat (max - h)) by lia.
    rewrite slice_first, slice_last by lia. rewrite length_app, length_take, length_drop. split; [done|lia].
Qed.

Lemma mapM_Forall {A B} (f : A -> res B) (g : A -> B) l : Forall (fun x => f x = Ok (g x)) l ->
  mapM f l = Ok (g <$> l).
Proof.
  induction 1 as [|x l Hx _ IH]; [done|].
  change (mapM f (x :: l)) with (y ← f x; k ← mapM f l; mret (y :: k)). rewrite Hx. simpl. by rewrite IH.
Qed.

Lemma sumZ_ones n : sumZ (replicate n 1) = Z.of_nat n.
Proof. induction n as [|n IH]; [done|]. change (1 + sumZ (replicate n 1) = Z.of_nat (S n)). lia. Qed.
Lemma sumZ_zeros n l : sumZ (replicate n 0 ++ l) = sumZ l.
Proof. by induction n. Qed.

Lemma width_rows {A} s (t : list (list A)) : Forall (fun r => length r = s) t -> t ≠ [] -> width t = Z.of_nat s.
Proof. destruct t as [|r t]; [done|]. intros [H _]%Forall_cons _. unfold width. simpl. by rewrite H. Qed.

(** A row without padding loses nothing. *)
Lemma remove_full (l : list Z) k : length l = k -> slice (Some (Z.of_nat (length l) - sumZ (replicate k 1))) None l = l.
Proof.
  intros <-. rewrite sumZ_ones, Z.sub_diag. unfold slice, bound. simpl. rewrite drop_0. by rewrite Nat.sub_0_r, firstn_all.
Qed.
Lemma remove_padded (l : list Z) p n : 
  slice (Some (Z.of_nat (length (replicate n p ++ l)) - sumZ (replicate n 0 ++ replicate (length l) 1))) None
    (replicate n p ++ l) = l.
Proof.
  rewrite sumZ_zeros, sumZ_ones, length_app, length_replicate. unfold slice, bound. simpl.
  rewrite bool_decide_false by lia. rewrite drop_app_length' by (rewrite length_replicate; lia).
  rewrite length_app, length_replicate. apply take_ge. lia.
Qed.

(** A row is padded, cut, or left as it is. *)
Lemma shorter_rows s max pad ids : Forall (fun r => length r = s) ids -> (s < max)%nat ->
  let ids' := (fun l => replicate (max - s) pad ++ l) <$> ids in
  let mask' := (fun l => replicate (max - s) 0 ++ l) <$> ((fun _ => replicate s 1) <$> ids) in
  Forall (fun r => length r = max) ids' /\ Forall (fun r => length r = max) mask' /\
  remove_pad_token ids' mask' = ids.
Proof.
  intros Hr Hs. simpl. unfold remove_pad_token. induction Hr as [|r ids Hl _ (I1 & I2 & I3)]; [by repeat constructor|].
  simpl. split; [|split].
  - constructor; [rewrite length_app, length_replicate; lia|done].
  - constructor; [rewrite length_app, !length_replicate; lia|done].
  - f_equal; [|apply I3]. rewrite <- Hl. apply remove_padded.
Qed.

Lemma full_rows max ids : Forall (fun r => length r = max) ids ->
  remove_pad_token ids ((fun _ => replicate max 1) <$> ids) = ids.
Proof.
  intros Hr. unfold remove_pad_token. induction Hr as [|r ids Hl _ IH]; [done|]. simpl.
  f_equal; [by apply remove_full|apply IH].
Qed.

Lemma kept_ones truncation s max : (max < s)%nat -> kept truncation max (replicate s 1) = replicate max 1.
Proof.
  intros Hs. unfold kept. rewrite length_replicate, decide_False by lia.
  assert (max / 2 <= max)%nat by (apply Nat.Div0.div_le_upper_bound; lia).
  repeat case_decide; rewrite ?drop_replicate, ?take_replicate, <- ?replicate_add; f_equal; lia.
Qed.

(** A batch padded on the left or cut to a length has exactly that length, and
    removing the padding gives the tokens back, or those the truncation keeps; a
    batch that is too long raises only when the truncation is error. *)
Theorem postprocess_keeps ids s max pad truncation :
  Forall (fun r => length r = s) ids -> ids ≠ [] -> (0 < max)%nat ->
  truncation ∈ ["left"; "right"; "middle"; "error"] ->
  let result := postprocess_data ids ((fun _ => replicate s 1) <$> ids) (Z.of_nat max) pad true truncation in
  if decide (truncation = "error" /\ (max < s)%nat) then result = Raise NotImplementedError
  else exists ids' mask', result = Ok (ids', mask') /\
    Forall (fun r => length r = max) ids' /\ Forall (fun r => length r = max) mask' /\
    remove_pad_token ids' mask' = kept truncation max <$> ids.
Proof.
  intros Hr Hne Hm Ht result. subst result. unfold postprocess_data. rewrite bool_decide_true by done. cbn [negb].
  assert (Hones : Forall (fun r => length r = s) ((fun _ => replicate s 1) <$> ids))
    by (apply Forall_fmap, Forall_true; intros; apply length_replicate).
  assert (Hw : width ((fun _ => replicate s 1) <$> ids) = Z.of_nat s) by (apply width_rows; [done|by destruct ids]).
  assert (Hw' : width ids = Z.of_nat s) by by apply width_rows.
  rewrite Hw'.
  assert (Hk : (s <= max)%nat -> kept truncation max <$> ids = ids).
  { intros Hs. clear -Hr Hs. induction Hr as [|r ids Hl _ IH]; [done|]. simpl. f_equal; [|apply IH].
    unfold kept. by rewrite decide_True by lia. }
  destruct (lt_eq_lt_dec s max) as [[Hs| ->]|Hs].
  - rewrite decide_False by lia. rewrite bool_decide_true by lia. do 2 eexists. split; [done|].
    unfold pad_sequence_to_length. rewrite Hw, Hw', bool_decide_false by lia.
    replace (Z.to_nat (Z.of_nat max - Z.of_nat s)) with (max - s)%nat by lia.
    rewrite Hk by lia. by apply shorter_rows.
  - rewrite decide_False by lia. rewrite !bool_decide_false by lia. do 2 eexists. split; [done|].
    rewrite Hk by lia. split; [done|]. split; [done|]. by apply full_rows.
  - rewrite bool_decide_false, bool_decide_true by lia. destruct (decide (truncation = "error")) as [->|He].
    { rewrite decide_True by done. by destruct Hr. }
    rewrite decide_False by tauto.
    assert (Ht' : truncation ∈ ["left"; "right"; "middle"]) by (rewrite !elem_of_cons in *; tauto).
    rewrite !(mapM_Forall _ (kept truncation max)).
    + simpl. do 2 eexists. split; [done|]. rewrite <- list_fmap_compose.
      assert (Hlen : Forall (fun r => length r = max) (kept truncation max <$> ids)).
      { apply Forall_fmap, (Forall_impl _ _ _ Hr). intros r Hl. apply truncated_kept; [lia|done]. }
      split; [done|].
      rewrite (list_fmap_ext _ (fun _ => replicate max 1)) by (intros; simpl; by apply kept_ones).
      split; [apply Forall_fmap, Forall_true; intros; apply length_replicate|].
      pose proof (full_rows max _ Hlen) as E. by rewrite <- list_fmap_compose in E.
    + apply (Forall_impl _ _ _ Hr). intros r Hl. apply truncated_kept; [lia|done].
    + apply Forall_fmap, Forall_true. intros r. apply truncated_kept; [rewrite length_replicate; lia|done].
Qed.

(** ** Rows in the unpadded batch *)

Lemma foldr_max_ge (l : list Z) n x : x ∈ n :: l -> x <= foldr Z.max n l.
Proof.
  induction l as [|y l IH]; simpl; intros H; [apply list_elem_of_singleton in H; lia|].
  rewrite !elem_of_cons in H. destruct H as [->|[->|H]]; [|lia|].
  - specialize (IH ltac:(left)). lia.
  - specialize (IH ltac:(by right)). lia.
Qed.

Lemma foldr_max_in (l : list Z) n : foldr Z.max n l ∈ n :: l.
Proof.
  induction l as [|y l IH]; simpl; [left|]. rewrite !elem_of_cons in *.
  destruct (Z.max_dec y (foldr Z.max n l)) as [->| ->]; [auto|]. destruct IH as [->|IH]; auto.
Qed.

Definition binary (m : list Z) : Prop := Forall (fun x => x = 0 \/ x = 1) m.

Lemma sumZ_count m : binary m -> sumZ m = Z.of_nat (count m).
Proof.
  unfold count. induction 1 as [|x m Hx _ IH]; [done|]. change (x + sumZ m = Z.of_nat (length (filter (fun x => x ≠ 0) (x :: m)))).
  rewrite filter_cons, IH. destruct Hx as [->| ->]; simpl; lia.
Qed.

Lemma select_app {A} m1 m2 (l1 l2 : list A) : length l1 = length m1 ->
  select (m1 ++ m2) (l1 ++ l2) = select m1 l1 ++ select m2 l2.
Proof.
  revert l1. induction m1 as [|x m1 IH]; intros [|y l1] Hl; try done. simpl.
  case_bool_decide; [|simpl; f_equal]; apply IH; auto.
Qed.

Lemma cumsum_lookup acc l i x : cumsum acc l !! i = Some x -> x = acc + sumZ (take (S i) l).
Proof.
  revert acc i. induction l as [|y l IH]; intros acc [|i]; simpl; [done|done|intros [= <-]; lia|].
  intros ->%IH. change (acc + y + sumZ (take (S i) l) = acc + (y + sumZ (take (S i) l))). lia.
Qed.

Lemma count_app m1 m2 : count (m1 ++ m2) = (count m1 + count m2)%nat.
Proof. unfold count. by rewrite filter_app, length_app. Qed.
Lemma count_le m : (count m <= length m)%nat.
Proof. apply length_filter. Qed.

Lemma sumZ_counts (l : list (list Z)) : sumZ ((fun m => Z.of_nat (count m)) <$> l) = Z.of_nat (count (mjoin l)).
Proof.
  induction l as [|m l IH]; [done|]. change (Z.of_nat (count m) + sumZ ((fun m => Z.of_nat (count m)) <$> l) = Z.of_nat (count (m ++ mjoin l))).
  rewrite IH, count_app. lia.
Qed.

Lemma count_take_le (l : list (list Z)) i : (count (mjoin (take i l)) <= length (mjoin l))%nat.
Proof.
  rewrite <- (take_drop i l) at 2. rewrite join_app, length_app. pose proof (count_le (mjoin (take i l))). lia.
Qed.

Lemma int32_small z : 0 <= z < 2 ^ 31 -> int32 z = z.
Proof. intros H. unfold int32. rewrite Z.mod_small by lia. lia. Qed.

Lemma seqlens (mask : list (list Z)) : Forall binary mask -> Z.of_nat (length (mjoin mask)) < 2 ^ 31 ->
  (fun m => int32 (sumZ m)) <$> mask = (fun m => Z.of_nat (count m)) <$> mask.
Proof.
  induction 1 as [|m mask Hm _ IH]; [done|]. simpl. rewrite length_app. intros Hl. f_equal; [|apply IH; lia].
  rewrite sumZ_count by done. apply int32_small. pose proof (count_le m). lia.
Qed.

Lemma cu_seqlens_lookup (mask : list (list Z)) i : Z.of_nat (length (mjoin mask)) < 2 ^ 31 -> (i <= length mask)%nat ->
  (0 :: (int32 <$> cumsum 0 ((fun m => Z.of_nat (count m)) <$> mask))) !! i = Some (Z.of_nat (count (mjoin (take i mask)))).
Proof.
  intros Hl Hi. destruct i as [|i]; [done|]. simpl. rewrite list_lookup_fmap.
  destruct (lookup_lt_is_Some_2 (cumsum 0 ((fun m => Z.of_nat (count m)) <$> mask)) i) as [x Hx].
  { assert (forall acc l, length (cumsum acc l) = length l) as -> by (intros acc l; revert acc; by induction l; intros; simpl; f_equal).
    rewrite length_fmap. lia. }
  rewrite Hx. apply cumsum_lookup in Hx as ->. simpl. f_equal. rewrite <- fmap_take, sumZ_counts, Z.add_0_l.
  apply int32_small. pose proof (count_take_le mask (S i)). lia.
Qed.


Lemma indices_select {A} (pre : list A) m l : length l = length m ->
  (fun k => (pre ++ l) !! k) <$> nonzero (length pre) m = Some <$> select m l.
Proof.
  revert pre l. induction m as [|x m IH]; intros pre [|y l] Hl; try done. simpl.
  assert (Hrec : (fun k => (pre ++ y :: l) !! k) <$> nonzero (S (length pre)) m = Some <$> select m l).
  { specialize (IH (pre ++ [y]) l ltac:(auto)). rewrite length_app, Nat.add_1_r in IH. by rewrite <- app_assoc in IH. }
  case_bool_decide; [done|]. simpl. f_equal; [by rewrite list_lookup_middle|done].
Qed.

Lemma slice_nat {A} (l : list A) a b : slice (Some (Z.of_nat a)) (Some (Z.of_nat b)) l = take (b - a) (drop a l).
Proof. unfold slice, bound. simpl. rewrite !bool_decide_false by lia. by rewrite !Nat2Z.id. Qed.

Lemma mjoin_middle {A} (l : list (list A)) i r : l !! i = Some r ->
  mjoin l = mjoin (take i l) ++ r ++ mjoin (drop (S i) l).
Proof. intros H. rewrite <- (take_drop_middle _ _ _ H) at 1. by rewrite join_app. Qed.

Lemma slice_rows {A} s (mask : list (list Z)) (t : list (list A)) i m r :
  Forall (fun m => length m = s) mask -> Forall (fun r => length r = s) t -> length t = length mask ->
  mask !! i = Some m -> t !! i = Some r ->
  slice (Some (Z.of_nat (count (mjoin (take i mask))))) (Some (Z.of_nat (count (mjoin (take (S i) mask)))))
    (select (mjoin mask) (mjoin t)) = select m r.
Proof.
  intros Hm Hr Ht Hi Hi'. rewrite slice_nat, (take_S_r _ _ _ Hi), join_app, count_app. simpl. rewrite app_nil_r.
  rewrite (mjoin_middle _ _ _ Hi), (mjoin_middle _ _ _ Hi').
  pose proof (Forall_lookup_1 _ _ _ _ Hm Hi) as L1. pose proof (Forall_lookup_1 _ _ _ _ Hr Hi') as L2. simpl in L1, L2.
  assert (L3 : length (mjoin (take i t)) = length (mjoin (take i mask))).
  { apply mjoin_length, (rows_Forall2 s); [rewrite !length_take; lia|by apply Forall_take..]. }
  rewrite select_app by done. rewrite select_app by congruence.
  rewrite drop_app_length' by (by rewrite length_select).
  replace (_ + count m - _)%nat with (count m) by lia. apply take_app_length'. rewrite length_select; congruence.
Qed.

(** The indices select the tokens under the mask, two consecutive entries of
    the sums delimit the tokens of a row among them, and the largest length is that
    of a row. *)
Theorem unpad_data_rows {A} (mask : list (list Z)) (t : list (list A)) s :
  Forall binary mask -> mask ≠ [] -> Z.of_nat (length (mjoin mask)) < 2 ^ 31 ->
  Forall (fun m => length m = s) mask -> Forall (fun r => length r = s) t -> length t = length mask ->
  exists indices cu_seqlens max_seqlen, get_unpad_data mask = Ok (indices, cu_seqlens, max_seqlen) /\
    (fun k => mjoin t !! k) <$> indices = Some <$> select (mjoin mask) (mjoin t) /\
    (forall i m r, mask !! i = Some m -> t !! i = Some r -> exists a b,
       cu_seqlens !! i = Some a /\ cu_seqlens !! S i = Some b /\ b - a <= max_seqlen /\
       slice (Some a) (Some b) (select (mjoin mask) (mjoin t)) = select m r) /\
    exists i a b, cu_seqlens !! i = Some a /\ cu_seqlens !! S i = Some b /\ b - a = max_seqlen.
Proof.
  intros Hb Hne Hl Hm Hr Ht.
  assert (Hcu : forall i m, mask !! i = Some m -> let cu := 0 :: (int32 <$> cumsum 0 ((fun m => Z.of_nat (count m)) <$> mask)) in
    cu !! i = Some (Z.of_nat (count (mjoin (take i mask)))) /\ cu !! S i = Some (Z.of_nat (count (mjoin (take (S i) mask)))) /\
    Z.of_nat (count (mjoin (take (S i) mask))) - Z.of_nat (count (mjoin (take i mask))) = Z.of_nat (count m)).
  { intros i m Hi cu. pose proof (lookup_lt_Some _ _ _ Hi). unfold cu. rewrite !cu_seqlens_lookup by (done || lia).
    split; [done|]. split; [done|]. rewrite (take_S_r _ _ _ Hi), join_app, count_app. simpl. rewrite app_nil_r. lia. }
  assert (Hmem : forall x, x ∈ (fun m => Z.of_nat (count m)) <$> mask <-> exists i m, mask !! i = Some m /\ x = Z.of_nat (count m)).
  { intros x. rewrite list_elem_of_fmap. setoid_rewrite list_elem_of_lookup. naive_solver. }
  unfold get_unpad_data. rewrite seqlens by done.
  destruct ((fun m => Z.of_nat (count m)) <$> mask) as [|n l] eqn:E; [by destruct mask|].
  do 3 eexists. split; [done|]. split; [|split].
  - apply (indices_select []). apply mjoin_length, (rows_Forall2 s); done.
  - intros i m r Hi Hi'. destruct (Hcu i m Hi) as (H1 & H2 & H3). do 2 eexists. split; [done|]. split; [done|].
    rewrite H3. split; [|by apply (slice_rows s _ _ i)]. apply foldr_max_ge, Hmem. eauto.
  - destruct (proj1 (Hmem _) (foldr_max_in l n)) as (i & m & Hi & ->). destruct (Hcu i m Hi) as (H1 & H2 & H3). eauto 10.
Qed.

Module Examples.
(** The example of the documentation. *)
Example response_mask : get_response_mask [1; 2] [20; 10; 34; 1; 0; 0; 0] = [1; 1; 1; 1; 0; 0; 0].
Proof. reflexivity. Qed.
(** With a length of 0 a cut on the left keeps everything. *)
Example left_zero : truncated "left" 0 [1; 2; 3] = Ok [1; 2; 3].
Proof. reflexivity. Qed.
(** Without the padding on the left the wrong tokens are taken for padding. *)
Example right_padded : remove_pad_token [[7; 8; 0]] [[1; 1; 0]] = [[8; 0]].
Proof. reflexivity. Qed.

Definition lse (l : row) : Qc := sum l.
Definition losses (logits : list row) (labels : list Z) : res (list Qc * list Qc) :=
  Ok (zip_with (fun l y => (- token_logprob lse l y)%Qc) logits labels, []).
Definition unpad (x m : list (list Z)) : list Z * list nat := (select (mjoin m) (mjoin x), nonzero 0 (mjoin m)).
Definition pad (h : list Qc) (idx : list nat) (b s : nat) : list (list Qc) :=
  (fun i => (fun j => match list_find (fun k => k = (i * s + j)%nat) idx with
                      | Some (k, _) => default (Q2Qc 0) (h !! k)
                      | None => Q2Qc 0
                      end) <$> seq 0 s) <$> seq 0 b.

Lemma pad_spec h idx b s : length h = length idx -> NoDup idx -> Forall (fun k => (k < b * s)%nat) idx ->
  length (pad h idx b s) = b /\
  forall i j, (i < b)%nat -> (j < s)%nat -> exists r, pad h idx b s !! i = Some r /\ length r = s /\
    (forall k x, idx !! k = Some (i * s + j)%nat -> h !! k = Some x -> r !! j = Some x) /\
    ((i * s + j)%nat ∉ idx -> r !! j = Some 0%Qc).
Proof.
  intros Hl Hn _. unfold pad. split; [by rewrite length_fmap, length_seq|]. intros i j Hi Hj.
  rewrite list_lookup_fmap, lookup_seq_lt by done. simpl. eexists. split; [done|].
  split; [by rewrite length_fmap, length_seq|]. rewrite list_lookup_fmap, lookup_seq_lt by done. simpl. split.
  - intros k x Hk Hx. destruct (list_find _ idx) as [[k' y]|] eqn:E.
    + apply list_find_Some in E as (E & -> & _). rewrite (NoDup_lookup _ _ _ _ Hn E Hk), Hx. done.
    + by eapply list_find_None, Forall_lookup_1 in E; [|done].
  - intros Hk. destruct (list_find _ idx) as [[k' y]|] eqn:E; [|done].
    apply list_find_Some in E as (E & -> & _). by apply list_elem_of_lookup_2 in E.
Qed.

Definition one_word : row := [qc 1 2; qc 1 3].
Definition ids : list (list Z) := [[0; 1; 1]; [1; 0; 1]].
Definition mask : list (list Z) := [[0; 1; 1]; [1; 1; 0]].
Definition logits : list (list row) := replicate 2 (replicate 3 one_word).

Lemma rmpad_log_probs_witness :
  batch_ok ids mask logits 3 2 /\ exists out,
    log_probs_from_logits_response_rmpad lse losses unpad pad true true ids mask
      (select (mjoin mask) (mjoin logits)) 2 = Ok out /\ out !! 0%nat ≫= (.!! 0%nat) = Some 0%Qc.
Proof.
  assert (Hb : batch_ok ids mask logits 3 2) by (by repeat constructor).
  split; [done|].
  destruct (rmpad_log_probs lse losses unpad pad ltac:(by intros; eexists) ltac:(done) pad_spec
              true true ids mask logits 3 2 2 Hb ltac:(done) ltac:(lia)) as (out & out' & H1 & H2 & H3).
  exists out. split; [done|]. apply (H3 0%nat 0%nat [0; 1; 1]); [lia|done|done].
Defined.

Lemma postprocess_keeps_witness : exists ids' mask',
  postprocess_data [[5; 6]; [7; 8]] [[1; 1]; [1; 1]] 3 0 true "error" = Ok (ids', mask') /\
  remove_pad_token ids' mask' = [[5; 6]; [7; 8]].
Proof.
  pose proof (postprocess_keeps [[5; 6]; [7; 8]] 2 3 0 "error" ltac:(by repeat constructor) ltac:(done) ltac:(lia)
    ltac:(by repeat constructor)) as H.
  rewrite decide_False in H by (intros [_ ?]; lia).
  destruct H as (ids' & mask' & H1 & _ & _ & H2). by exists ids', mask'.
Defined.

Lemma unpad_data_rows_witness : exists indices cu_seqlens max_seqlen,
  get_unpad_data [[0; 1; 1]; [1; 0; 0]] = Ok (indices, cu_seqlens, max_seqlen).
Proof.
  destruct (unpad_data_rows [[0; 1; 1]; [1; 0; 0]] ids 3) as (i & c & m & H & _);
    [unfold binary; repeat first [apply Forall_nil; done | apply Forall_cons; split | lia]|done|done|by repeat constructor|by repeat constructor|done|].
  by exists i, c, m.
Defined.
End Examples.
