(* ===== verification/Schedules.v ===== *)
(** * Learning rates and attention masks

    Models the schedules and the attention masks of
    trainer/utils/torch_functional.py over exact numbers.  [cospi x] stands for
    [math.cos(math.pi * x)]; a schedule is the function of the step that
    [LambdaLR] is given. *)

From S2P Require Import Prelude PyVal Advantage.

#[local] Open Scope Qc_scope.

Definition ofZ (z : Z) : Qc := qc z 1.
(** [int(x)] *)
Definition trunc (x : Qc) : Z := Z.quot (Qnum (this x)) (Zpos (Qden (this x))).

(** ** Schedules *)

Section schedules.
Context (cospi : Qc -> Qc).

(* trainer/utils/torch_functional.py:525-530 get_cosine_schedule_with_warmup *)
Definition cosine_lambda (num_warmup_steps num_training_steps : Z) (min_lr_ratio num_cycles : Qc)
    (current_step : Z) : Qc :=
  let coef := (1 - min_lr_ratio) * qc 1 2 in
  let intercept := (1 + min_lr_ratio) * qc 1 2 in
  if bool_decide (current_step < num_warmup_steps)%Z then
    min_lr_ratio + (1 - min_lr_ratio) * (ofZ current_step / ofZ (Z.max 1 num_warmup_steps))
  else
    let progress := ofZ (current_step - num_warmup_steps) / ofZ (Z.max 1 (num_training_steps - num_warmup_steps)) in
    let x := cospi (num_cycles * ofZ 2 * progress) in
    Qcmax min_lr_ratio (x * coef + intercept).

(* trainer/utils/torch_functional.py:491-532 get_cosine_schedule_with_warmup *)
Definition get_cosine_schedule_with_warmup (num_warmup_steps num_training_steps : Z) (min_lr_ratio : option Qc)
    (num_cycles : Qc) : res (Z -> Qc) :=
  let min_lr_ratio := default 0 min_lr_ratio in
  if Qcltb min_lr_ratio 0 || Qcltb 1 min_lr_ratio then Raise AssertionError
  else Ok (cosine_lambda num_warmup_steps num_training_steps min_lr_ratio num_cycles).

(* trainer/utils/torch_functional.py:535-557 get_constant_schedule_with_warmup *)
Definition get_constant_schedule_with_warmup (num_warmup_steps current_step : Z) : Qc :=
  if bool_decide (current_step < num_warmup_steps)%Z then ofZ current_step / Qcmax 1 (ofZ num_warmup_steps) else 1.

(* trainer/utils/torch_functional.py:619-671 get_wsd_schedule_with_warmup *)
Definition get_wsd_schedule_with_warmup (num_warmup_steps num_training_steps : Z) (min_lr_ratio num_cycles
    stable_ratio : Qc) (current_step : Z) : Qc :=
  let remaining_steps := Z.max 0 (num_training_steps - num_warmup_steps) in
  let num_stable_steps := trunc (ofZ remaining_steps * stable_ratio) in
  let num_decay_steps := (remaining_steps - num_stable_steps)%Z in
  if bool_decide (current_step < num_warmup_steps)%Z then ofZ current_step / ofZ (Z.max 1 num_warmup_steps)
  else if bool_decide (current_step < num_warmup_steps + num_stable_steps)%Z then 1
  else if bool_decide (current_step < num_training_steps)%Z then
    let progress := ofZ (current_step - num_warmup_steps - num_stable_steps) / ofZ (Z.max 1 num_decay_steps) in
    let value := Qcmax 0 (qc 1 2 * (1 + cospi (num_cycles * ofZ 2 * progress))) in
    (1 - min_lr_ratio) * value + min_lr_ratio
  else min_lr_ratio.
End schedules.

(** ** Attention masks *)

Section masks.
(** [torch.finfo(dtype).min] *)
Context (finfo_min : Qc).

(** The same matrix for every sequence of the batch. *)
(* trainer/utils/torch_functional.py:580-589 _make_causal_mask *)
Definition _make_causal_mask (tgt_len : nat) : tensor :=
  (fun i => (fun j => if bool_decide (j < i + 1)%nat then 0 else finfo_min) <$> seq 0 tgt_len) <$> seq 0 tgt_len.

(* trainer/utils/torch_functional.py:593-604 _expand_mask *)
Definition _expand_mask (mask : tensor) (tgt_len : nat) : list tensor :=
  (fun m : row =>
     let inverted_mask := (fun x => 1 - x) <$> m in
     replicate tgt_len ((fun x => if decide (x = 0) then x else finfo_min) <$> inverted_mask)) <$> mask.

(** [None] when there is neither mask; a batch of [bsz] sequences. *)
(* trainer/utils/torch_functional.py:560-576 prepare_decoder_attention_mask *)
Definition prepare_decoder_attention_mask (attention_mask : option tensor) (bsz tgt_len : nat)
    : option (list tensor) :=
  let combined_attention_mask :=
    if bool_decide (1 < tgt_len)%nat then Some (replicate bsz (_make_causal_mask tgt_len)) else None in
  match attention_mask with
  | None => combined_attention_mask
  | Some attention_mask =>
      let expanded_attn_mask := _expand_mask attention_mask tgt_len in
      match combined_attention_mask with
      | None => Some expanded_attn_mask
      | Some combined => Some (zip_with (zip_tensors Qcplus) expanded_attn_mask combined)
      end
  end.
End masks.

(** ** Proofs: schedules *)

Lemma Qcmax_ge_l a b : a <= Qcmax a b.
Proof. destruct (Qcmax_case a b) as [[H ->]|[H ->]]; [by apply Qclt_le_weak|apply Qcle_refl]. Qed.
Lemma Qcmax_ge_r a b : b <= Qcmax a b.
Proof. destruct (Qcmax_case a b) as [[H ->]|[H ->]]; [apply Qcle_refl|done]. Qed.
Lemma Qcmax_lub a b c : a <= c -> b <= c -> Qcmax a b <= c.
Proof. intros Ha Hb. destruct (Qcmax_case a b) as [[H ->]|[H ->]]; done. Qed.
Lemma Qcmax_r a b : a <= b -> Qcmax a b = b.
Proof. intros H. destruct (Qcmax_case a b) as [[_ ->]|[H' ->]]; [done|]. by apply Qcle_antisym. Qed.

Lemma ofZ_le a b : (a <= b)%Z -> ofZ a <= ofZ b.
Proof. intros H. unfold ofZ, qc, Qcle. cbn [this Q2Qc]. rewrite !Qred_correct. unfold Qle. cbn. lia. Qed.
Lemma ofZ_pos a : (0 < a)%Z -> 0 < ofZ a.
Proof. intros H. unfold ofZ, qc, Qclt. cbn [this Q2Qc]. rewrite !Qred_correct. unfold Qlt. cbn. lia. Qed.

Lemma Qcltb_false a b : b <= a -> Qcltb a b = false.
Proof. intros H. unfold Qcltb. destruct (Qclt_le_dec a b) as [H'|]; [|done]. by apply Qclt_not_le in H'. Qed.

(** Linear arithmetic over [Qc]. *)
Ltac qc_lra :=
  first [apply Qc_is_canon | idtac];
  unfold Qcle, Qclt, Qcminus, Qcopp, Qcplus, Qcmult in *; cbn [this Q2Qc] in *;
  repeat rewrite Qred_correct in *; lra.

(** A step over the number of steps. *)
Lemma ratio_bounds a b : (0 <= a <= b)%Z -> (0 < b)%Z -> 0 <= ofZ a / ofZ b /\ ofZ a / ofZ b <= 1.
Proof.
  intros [Ha Hab] Hb. pose proof (ofZ_pos b Hb) as Hp. apply ofZ_le in Ha, Hab. apply Qcinv_pos in Hp as Hi.
  assert (ofZ b <> 0) by (intros E; rewrite E in Hp; by apply Qclt_not_eq in Hp).
  unfold Qcdiv. split.
  - replace 0 with (0 * / ofZ b) by ring. apply Qcmult_le_compat_r; [done|by apply Qclt_le_weak].
  - replace 1 with (ofZ b * / ofZ b) by (by rewrite Qcmult_inv_r).
    apply Qcmult_le_compat_r; [done|by apply Qclt_le_weak].
Qed.

(** Between [m] and 1, at the share [x] of the way. *)
Lemma between m x : 0 <= m -> m <= 1 -> 0 <= x -> x <= 1 -> m <= m + (1 - m) * x /\ m + (1 - m) * x <= 1.
Proof.
  intros H0 H1 Hx Hx'. assert (Hm : 0 <= 1 - m) by qc_lra.
  pose proof (scale_up _ _ _ Hm Hx) as L. pose proof (scale_up _ _ _ Hm Hx') as U. split; qc_lra.
Qed.

Lemma half_way x : -(1) <= x -> x <= 1 -> 0 <= qc 1 2 * (1 + x) /\ qc 1 2 * (1 + x) <= 1.
Proof.
  intros H0 H1. assert (Hh : 0 <= qc 1 2) by done.
  assert (E0 : 0 <= 1 + x) by qc_lra. assert (E1 : 1 + x <= ofZ 2).
  { replace (ofZ 2) with (1 + 1) by (by apply Qc_is_canon). qc_lra. }
  apply (scale_up _ _ _ Hh) in E0, E1. rewrite Qcmult_0_r in E0.
  replace (qc 1 2 * ofZ 2) with 1 in E1 by (by apply Qc_is_canon). done.
Qed.

Lemma halves m x : x * ((1 - m) * qc 1 2) + (1 + m) * qc 1 2 = m + (1 - m) * (qc 1 2 * (1 + x)).
Proof.
  assert (Ht : qc 1 2 + qc 1 2 = 1) by (by apply Qc_is_canon).
  replace (m + (1 - m) * (qc 1 2 * (1 + x))) with (m * (qc 1 2 + qc 1 2) + (1 - m) * (qc 1 2 * (1 + x))) by (rewrite Ht; ring).
  ring.
Qed.

Section bounds.
Context (cospi : Qc -> Qc) (cospi_bounds : forall x, -(1) <= cospi x /\ cospi x <= 1).

Lemma decayed m x : 0 <= m -> m <= 1 ->
  m <= m + (1 - m) * (qc 1 2 * (1 + cospi x)) /\ m + (1 - m) * (qc 1 2 * (1 + cospi x)) <= 1.
Proof.
  intros H0 H1. destruct (cospi_bounds x) as [B0 B1]. destruct (half_way _ B0 B1). by apply between.
Qed.

(** Both clamps of the schedules do nothing. *)
Lemma cosine_value m x : 0 <= m -> m <= 1 ->
  Qcmax m (cospi x * ((1 - m) * qc 1 2) + (1 + m) * qc 1 2) = m + (1 - m) * (qc 1 2 * (1 + cospi x)) /\
  Qcmax 0 (qc 1 2 * (1 + cospi x)) = qc 1 2 * (1 + cospi x).
Proof.
  intros H0 H1. destruct (cospi_bounds x) as [B0 B1]. destruct (half_way _ B0 B1) as [C0 C1].
  rewrite halves. split; [|by apply Qcmax_r]. by apply Qcmax_r, decayed.
Qed.

(** With a rate between 0 and 1 at the end, every schedule stays between 0 and
    1, and after the warm-up not below that rate. *)
Theorem schedule_bounds warmup total m cycles stable step :
  (0 <= step)%Z -> 0 <= m -> m <= 1 ->
  (exists f, get_cosine_schedule_with_warmup cospi warmup total (Some m) cycles = Ok f /\ m <= f step /\ f step <= 1) /\
  (0 <= get_constant_schedule_with_warmup warmup step /\ get_constant_schedule_with_warmup warmup step <= 1) /\
  let lr := get_wsd_schedule_with_warmup cospi warmup total m cycles stable step in
  0 <= lr /\ lr <= 1 /\ ((warmup <= step)%Z -> m <= lr).
Proof.
  intros Hs H0 H1. split; [|split].
  - eexists. unfold get_cosine_schedule_with_warmup. simpl. rewrite !Qcltb_false by done. split; [done|].
    unfold cosine_lambda. case_bool_decide as Hw.
    + destruct (ratio_bounds step (Z.max 1 warmup)); [lia|lia|]. by apply between.
    + rewrite (proj1 (cosine_value m _ H0 H1)). by apply decayed.
  - unfold get_constant_schedule_with_warmup. case_bool_decide as Hw; [|done].
    rewrite (Qcmax_r 1) by (apply (ofZ_le 1); lia). apply ratio_bounds; lia.
  - intros lr. unfold lr, get_wsd_schedule_with_warmup. case_bool_decide as Hw.
    { destruct (ratio_bounds step (Z.max 1 warmup)); [lia|lia|]. split; [done|]. split; [done|lia]. }
    case_bool_decide; [done|]. case_bool_decide; [|done].
    rewrite (proj2 (cosine_value m _ H0 H1)). rewrite Qcplus_comm.
    match goal with |- context [cospi ?x] => destruct (decayed m x H0 H1) end.
    split; [by eapply Qcle_trans|done].
Qed.

(** Without a stable phase the warm-up-stable-decay schedule is the cosine
    schedule between the warm-up and the end; in the warm-up it starts from 0 and
    not from the lowest rate, and after the end it stays at the lowest rate. *)
Theorem wsd_is_cosine warmup total m cycles step : 0 <= m -> m <= 1 ->
  exists f, get_cosine_schedule_with_warmup cospi warmup total (Some m) cycles = Ok f /\
  let lr := get_wsd_schedule_with_warmup cospi warmup total m cycles 0 step in
  ((step < warmup)%Z -> f step = m + (1 - m) * lr) /\
  ((warmup <= step < total)%Z -> f step = lr) /\
  ((warmup <= step)%Z -> (total <= step)%Z -> lr = m).
Proof.
  intros H0 H1. eexists. unfold get_cosine_schedule_with_warmup. simpl. rewrite !Qcltb_false by done. split; [done|].
  assert (Ht : forall z, trunc (ofZ z * 0) = 0%Z) by (intros z; by rewrite Qcmult_0_r).
  unfold get_wsd_schedule_with_warmup, cosine_lambda. rewrite Ht. split; [|split].
  - intros Hw. by rewrite !bool_decide_true by done.
  - intros Hw. rewrite bool_decide_false, (bool_decide_false (step < warmup + 0)%Z), bool_decide_true by lia.
    rewrite !(proj1 (cosine_value m _ H0 H1)), !(proj2 (cosine_value m _ H0 H1)).
    replace (Z.max 1 (Z.max 0 (total - warmup) - 0)) with (Z.max 1 (total - warmup)) by lia. rewrite Z.sub_0_r. ring.
  - intros Hw Ht'. by rewrite !bool_decide_false by lia.
Qed.
End bounds.

(** ** Proofs: attention masks *)

(** A position attends to exactly the earlier ones and itself that the mask
    keeps. *)
Theorem attention_positions finfo_min mask bsz tgt_len b i j x :
  finfo_min < 0 -> length mask = bsz -> (1 < tgt_len)%nat -> (i < tgt_len)%nat -> (j < tgt_len)%nat ->
  mask !! b ≫= (.!! j) = Some x ->
  exists m v, prepare_decoder_attention_mask finfo_min (Some mask) bsz tgt_len = Some m /\
    m !! b ≫= (fun t => t !! i ≫= (.!! j)) = Some v /\ (v = 0 <-> (j <= i)%nat /\ x = 1) /\ v <= 0.
Proof.
  intros Hm Hb Ht Hi Hj Hx. unfold prepare_decoder_attention_mask. rewrite bool_decide_true by done.
  do 2 eexists. split; [done|]. destruct (mask !! b) as [r|] eqn:Hr; [|done]. simpl in Hx.
  apply lookup_lt_Some in Hr as Hbl.
  rewrite lookup_zip_with. unfold _expand_mask. rewrite list_lookup_fmap, Hr. simpl.
  rewrite lookup_replicate_2 by lia. simpl. unfold zip_tensors. rewrite lookup_zip_with.
  rewrite lookup_replicate_2 by done. simpl. unfold _make_causal_mask.
  rewrite list_lookup_fmap, lookup_seq_lt by done. simpl. rewrite lookup_zip_with, !list_lookup_fmap, Hx. simpl.
  rewrite lookup_seq_lt by done. simpl. split; [done|].
  assert (Hne : finfo_min <> 0) by (intros E; by apply Qclt_not_eq in Hm).
  assert (Hs : finfo_min + finfo_min < 0) by qc_lra.
  destruct (decide (1 - x = 0)) as [E|E]; case_bool_decide as Hij.
  - rewrite E. replace (0 + 0) with 0 by ring. split; [|done]. split; [|done]. intros _. split; [lia|].
    replace x with (1 - (1 - x)) by ring. rewrite E. ring.
  - rewrite E, Qcplus_0_l. split; [|by apply Qclt_le_weak]. split; [done|]. intros [? _]. lia.
  - rewrite Qcplus_0_r. split; [|by apply Qclt_le_weak]. split; [done|]. intros [_ ->]. destruct E. ring.
  - split; [|by apply Qclt_le_weak]. split; [intros E'; by rewrite E' in Hs|]. intros [_ ->]. destruct E. ring.
Qed.

Module Examples.
Definition cospi (x : Qc) : Qc := if decide (x = 0) then 1 else if decide (x = 1) then - (1) else 0.
Lemma cospi_bounds x : -(1) <= cospi x /\ cospi x <= 1.
Proof. unfold cospi. repeat case_decide; done. Qed.

Lemma schedule_bounds_witness :
  exists f, get_cosine_schedule_with_warmup cospi 2 6 (Some (qc 1 10)) (qc 1 2) = Ok f /\ qc 1 10 <= f 1%Z.
Proof.
  destruct (schedule_bounds cospi cospi_bounds 2 6 (qc 1 10) (qc 1 2) (qc 9 10) 1 ltac:(lia) ltac:(done) ltac:(done))
    as [(f & H1 & H2 & _) _]. by exists f.
Defined.

Lemma wsd_is_cosine_witness :
  exists f, get_cosine_schedule_with_warmup cospi 2 6 (Some (qc 1 10)) (qc 1 2) = Ok f /\
    f 4%Z = get_wsd_schedule_with_warmup cospi 2 6 (qc 1 10) (qc 1 2) 0 4.
Proof.
  destruct (wsd_is_cosine cospi cospi_bounds 2 6 (qc 1 10) (qc 1 2) 4 ltac:(done) ltac:(done)) as (f & H1 & _ & H2 & _).
  exists f. split; [done|]. apply H2. lia.
Defined.

Lemma attention_positions_witness :
  exists m v, prepare_decoder_attention_mask (- (1)) (Some [[0; 1]]) 1 2 = Some m /\
    m !! 0%nat ≫= (fun t => t !! 1%nat ≫= (.!! 1%nat)) = Some v /\ v = 0.
Proof.
  destruct (attention_positions (- (1)) [[0; 1]] 1 2 0 1 1 1) as (m & v & H1 & H2 & H3 & _); [done|done|lia|lia|lia|done|].
  exists m, v. split; [done|]. split; [done|]. apply H3. split; [lia|done].
Defined.

(** After the end of the training the cosine schedule rises again, up to the
    full rate; the other one stays at its minimum. *)
Example cosine_rises : cosine_lambda (fun x => if decide (x = ofZ 2) then 1 else 0) 0 4 0 (qc 1 2) 8 = 1.
Proof. by apply Qc_is_canon. Qed.
Example wsd_stays : get_wsd_schedule_with_warmup cospi 0 4 0 (qc 1 2) 0 8 = 0.
Proof. by apply Qc_is_canon. Qed.
End Examples.
