(* ===== verification/Losses.v ===== *)
(** * Losses over model outputs, metrics and distributed statistics

    Models trainer/algorithms/loss_funcs.py and metrics.py and the distributed
    means of trainer/utils/torch_functional.py, over exact numbers: the mean of
    nothing, which numpy answers with nan, is 0.  [exp], [logsumexp], [sqrt],
    the standard deviations and the cross entropies of torch and flash-attn are
    arguments; a collective operation is a function of what the ranks give. *)

From S2P Require Import Prelude PyVal Advantage Sequences.

#[local] Open Scope Qc_scope.

(** [torch.roll(t, shifts=1)] of a row *)
Definition roll_right {A} (l : list A) : list A := drop (length l - 1) l ++ take (length l - 1) l.

(** A missing key. *)
Definition required {A} (x : option A) : res A := match x with Some x => Ok x | None => Raise KeyError end.

(** ** Loss functions *)

Record model_inputs := {
  input_ids : list (list Z);
  loss_mask : option tensor;
  rollout_log_prob : option tensor;
  advantages : option tensor;
  ref_log_prob : option tensor
}.

(** The options; [None] for one that is not given. *)
Record config := {
  temperature : option Qc;
  clip_ratio : option Qc;
  clip_ratio_low : option Qc;
  clip_ratio_high : option Qc;
  clip_ratio_c : option Qc;
  entropy_coef : option Qc;
  loss_agg_mode : option string;
  use_kl_loss : bool;
  kl_loss_type : option string;
  kl_loss_coef : option Qc
}.

Section losses.
Context (exp : Qc -> Qc) (logsumexp : row -> Qc).
Context (flash_loss : list row -> list Z -> res (list Qc * list Qc)) (flash_attn float32 : bool).

Definition divided (t : Qc) (logits : list (list row)) : list (list row) :=
  fmap (M := list) (fmap (M := list) (fun x => x / t)) <$> logits.
Definition shape {A} (t : list (list A)) : list nat := length <$> t.

(** What is reported with a loss. *)
Record metric := {
  m_pg_loss : Qc;
  m_entropy_loss : Qc;
  m_pg_clipfrac : Qc;
  m_ppo_kl : Qc;
  m_pg_clipfrac_lower : Qc;
  m_kl : option (Qc * Qc)
}.

(** The log-probability of every token given those before it, and the entropy at
    its position; the first column is that of the last logits. *)
(* trainer/algorithms/loss_funcs.py:11-26 ppo_loss *)
Definition token_log_probs (ids : list (list Z)) (logits : list (list row)) (t : Qc) : res (tensor * tensor) :=
  let input_ids_rolled := roll_left <$> ids in
  let logits := divided t logits in
  if negb (bool_decide (shape input_ids_rolled = shape logits)) then Raise AssertionError
  else
    log_prob ← logprobs_from_logits_batch logsumexp flash_loss flash_attn float32 logits input_ids_rolled;
    let entropy := fmap (M := list) (entropy_from_logits logsumexp exp) <$> logits in
    Ok ((roll_right (A := Qc) <$> log_prob, roll_right (A := Qc) <$> entropy) : tensor * tensor).

(** The KL term of the loss, with what is reported of it. *)
(* trainer/algorithms/loss_funcs.py:64-79 ppo_loss *)
Definition kl_term (inputs : model_inputs) (c : config) (log_prob mask : tensor) (policy_loss : Qc)
    : res (Qc * option (Qc * Qc)) :=
  if use_kl_loss c then
    ref ← required (ref_log_prob inputs);
    kld ← kl_penalty exp log_prob ref (default "low_var_kl" (kl_loss_type c));
    kl_loss ← agg_loss kld mask (default "token-mean" (loss_agg_mode c));
    kl_coef ← required (kl_loss_coef c);
    Ok (policy_loss + kl_loss * kl_coef, Some (kl_loss, kl_coef))
  else Ok (policy_loss, None).

(* trainer/algorithms/loss_funcs.py:7-81 ppo_loss *)
Definition ppo_loss (inputs : model_inputs) (logits : list (list row)) (c : config) : res (Qc * metric) :=
  mask ← required (loss_mask inputs);
  old_log_prob ← required (rollout_log_prob inputs);
  adv ← required (advantages inputs);
  if negb (bool_decide (Forall (fun r : row => head r = Some 0) mask)) then Raise AssertionError
  else
    t ← required (temperature c);
    lp ← token_log_probs (input_ids inputs) logits t;
    let log_prob := lp.1 in
    let clip := default (qc 2 10) (clip_ratio c) in
    let mode := default "token-mean" (loss_agg_mode c) in
    coef ← required (entropy_coef c);
    pg ← compute_policy_loss exp old_log_prob log_prob adv mask clip
           (Some (default clip (clip_ratio_low c))) (Some (default clip (clip_ratio_high c)))
           (default (of_nat 3) (clip_ratio_c c)) mode;
    let '(pg_loss, pg_clipfrac, ppo_kl, pg_clipfrac_lower) := pg in
    entropy_loss ← agg_loss lp.2 mask mode;
    let policy_loss := if decide (coef = 0) then pg_loss else pg_loss - entropy_loss * coef in
    out ← kl_term inputs c log_prob mask policy_loss;
    Ok (out.1, {| m_pg_loss := pg_loss; m_entropy_loss := entropy_loss; m_pg_clipfrac := pg_clipfrac;
                  m_ppo_kl := ppo_kl; m_pg_clipfrac_lower := pg_clipfrac_lower; m_kl := out.2 |}).

(* trainer/algorithms/loss_funcs.py:84-97 log_prob_loss *)
Definition log_prob_loss (inputs : model_inputs) (logits : list (list row)) (c : config) : res (Qc * tensor) :=
  let input_ids_rolled := roll_left <$> input_ids inputs in
  t ← required (temperature c);
  let logits := divided t logits in
  if negb (bool_decide (shape input_ids_rolled = shape logits)) then Raise AssertionError
  else
    log_prob ← logprobs_from_logits_batch logsumexp flash_loss flash_attn float32 logits input_ids_rolled;
    let log_prob : tensor := roll_right (A := Qc) <$> log_prob in
    if negb (bool_decide (shape log_prob = shape (input_ids inputs))) then Raise AssertionError
    else Ok (1, log_prob).

(** [torch.nn.functional.cross_entropy] ignores the label -100. *)
Context (cross_entropy : list row -> list Z -> Qc).

(* trainer/algorithms/loss_funcs.py:100-109 cross_entropy_loss *)
Definition cross_entropy_loss (inputs : model_inputs) (logits : list (list row)) : res Qc :=
  mask ← required (loss_mask inputs);
  let labels := zip_with (zip_with (fun (y : Z) (m : Qc) => if decide (m = 0) then (-100)%Z else y))
                  (drop 1 <$> input_ids inputs) (drop 1 <$> mask) in
  Ok (cross_entropy (mjoin ((fun r => take (length r - 1) r) <$> logits)) (mjoin labels)).
End losses.

(** ** Distributed statistics *)

Section distributed.
Context (sqrt : Qc -> Qc).

(** [torch.max] and [torch.min], which refuse a tensor without elements. *)
Definition max_of (l : row) : res Qc :=
  match l with [] => Raise (RuntimeError "no elements") | x :: l => Ok (foldr Qcmax x l) end.
Definition min_of (l : row) : res Qc :=
  match l with [] => Raise (RuntimeError "no elements") | x :: l => Ok (foldr Qcmin x l) end.

(** What every rank returns, from the tensors of the ranks. *)
(* trainer/utils/torch_functional.py:687-727 distributed_mean_max_min_std *)
Definition distributed_mean_max_min_std (local_tensors : list row) (compute_max compute_min compute_std : bool)
    : res (Qc * option Qc * option Qc * option Qc) :=
  let global_sum := sum (sum <$> local_tensors) in
  let global_num := sum ((fun t => of_nat (length t)) <$> local_tensors) in
  let global_mean := global_sum / global_num in
  local_max ← (if compute_max then maxs ← mapM max_of local_tensors; m ← max_of maxs; Ok (Some m) else Ok None);
  local_min ← (if compute_min then mins ← mapM min_of local_tensors; m ← min_of mins; Ok (Some m) else Ok None);
  let global_std :=
    if compute_std then
      let square_diff := sum ((fun t => sum ((fun x => (x - global_mean) * (x - global_mean)) <$> t)) <$> local_tensors) in
      Some (sqrt (square_diff / (global_num - 1)))
    else None in
  Ok (global_mean, local_max, local_min, global_std).

(* trainer/utils/torch_functional.py:730-749 distributed_masked_mean *)
Definition distributed_masked_mean (local_tensors local_masks : list row) : Qc :=
  let masked := zip_tensors Qcmult local_tensors local_masks in
  sum (sum <$> masked) / sum (sum <$> local_masks).

(** The statistics of one tensor. *)
Definition reference (all : row) : res (Qc * option Qc * option Qc * option Qc) :=
  hi ← max_of all;
  lo ← min_of all;
  let m := mean all in
  Ok (m, Some hi, Some lo,
      Some (sqrt (sum ((fun x => (x - m) * (x - m)) <$> all) / (of_nat (length all) - 1)))).
End distributed.

(** ** Metrics *)

Section metrics.
(** The standard deviations of torch and of numpy. *)
Context (std np_std : row -> Qc).

(** The reward of an item and the group it is of. *)
Record scored := { group_id : string; reward : Qc }.

(** The scores of every group, in the order of the first items. *)
(* trainer/algorithms/metrics.py:10-18 calc_batch_rl_metrics *)
Definition grouped (items : list scored) : list (string * row) :=
  foldl (fun d i => dset (group_id i) (dget_or (group_id i) [] d ++ [reward i]) d) [] items.

(** The number of different scores. *)
Definition distinct (l : row) : nat := length (remove_dups l).
Definition best (l : row) : Qc := match l with [] => 0 | x :: l => foldr Qcmax x l end.

Record rl_metrics := {
  average_reward : Qc;
  BoN_reward : Qc;
  average_margin : Qc;
  num_uids : nat;
  effective_uids : Qc;
  all_1_uids : Qc;
  all_leq0_uids : Qc;
  average_repeat : Qc
}.

(* trainer/algorithms/metrics.py:9-28 calc_batch_rl_metrics *)
Definition calc_batch_rl_metrics (items : list scored) : rl_metrics :=
  let grouped_scores := dvalues (grouped items) in
  let share (p : row -> bool) := mean ((fun l => indicator (p l)) <$> grouped_scores) in
  {| average_reward := mean (mean <$> grouped_scores);
     BoN_reward := mean (best <$> grouped_scores);
     average_margin := mean ((fun l => best l - sum l / of_nat (length l)) <$> grouped_scores);
     num_uids := length grouped_scores;
     effective_uids := share (fun l => bool_decide (1 < distinct l)%nat);
     all_1_uids := share (fun l => bool_decide (distinct l = 1%nat /\ head l = Some 1));
     all_leq0_uids := share (fun l => bool_decide (distinct l = 1%nat) && negb (Qcltb 0 (default 0 (head l))));
     average_repeat := mean ((fun l => of_nat (length l)) <$> grouped_scores) |}.

(** The advantages of the tokens with a loss; their mean, standard deviation,
    largest and smallest. *)
(* trainer/algorithms/metrics.py:30-43 calc_adv_metrics *)
Definition calc_adv_metrics (items : list (row * row)) : res (Qc * Qc * Qc * Qc) :=
  let all_adv := mjoin ((fun i => (fun p => p.1) <$> filter (fun p => p.2 ≠ 0) (zip i.1 i.2)) <$> items) in
  match items with
  | [] => Raise (RuntimeError "expected a non-empty list of tensors")
  | _ => hi ← max_of all_adv; lo ← min_of all_adv; Ok (mean all_adv, std all_adv, hi, lo)
  end.

(* trainer/algorithms/metrics.py:45-51 calc_metrics *)
Definition calc_metrics (items : list (option (list (string * Qc)))) : list (string * Qc) :=
  let metric_by_keys :=
    foldl (fun d i => foldl (fun d kv => dset kv.1 (dget_or kv.1 [] d ++ [kv.2]) d) d (default [] i)) [] items in
  (fun kv => (kv.1, mean kv.2)) <$> metric_by_keys.

(** The number of items, then the sum, the largest, the smallest, the deviation
    and the mean of the lengths. *)
(* trainer/algorithms/metrics.py:54-63 calc_data_metrics *)
Definition calc_data_metrics (seq_lens : row) : res (nat * Qc * Qc * Qc * Qc * Qc) :=
  match seq_lens with
  | [] => Raise ValueError
  | x :: l => Ok (length seq_lens, sum seq_lens, foldr Qcmax x l, foldr Qcmin x l, np_std seq_lens,
                  sum seq_lens / of_nat (length seq_lens))
  end.
End metrics.

(** ** Proofs: distributed statistics *)

Lemma sum_lengths (l : list row) : sum ((fun t => of_nat (length t)) <$> l) = of_nat (length (mjoin l)).
Proof.
  induction l as [|r l IH]; [done|].
  change (of_nat (length r) + sum ((fun t => of_nat (length t)) <$> l) = of_nat (length (r ++ mjoin l))).
  by rewrite IH, length_app, of_nat_add.
Qed.

Lemma sum_map_rows (f : Qc -> Qc) (l : list row) : sum ((fun t => sum (f <$> t)) <$> l) = sum (f <$> mjoin l).
Proof.
  induction l as [|r l IH]; [done|].
  change (sum (f <$> r) + sum ((fun t => sum (f <$> t)) <$> l) = sum (f <$> (r ++ mjoin l))).
  by rewrite IH, fmap_app, sum_app.
Qed.

(** The largest and the smallest of rows, row by row. *)
Section extremes.
Context (f : Qc -> Qc -> Qc) `{!Assoc (=) f, !Comm (=) f}.

Lemma foldr_start x y l : f x (foldr f y l) = f y (foldr f x l).
Proof.
  induction l as [|z l IH]; simpl; [apply comm, _|].
  rewrite (assoc f x z), (comm f x z), <- (assoc f z x), IH. by rewrite !(assoc f), (comm f z).
Qed.
Lemma foldr_app_start x y l k : foldr f x (l ++ y :: k) = f (foldr f x l) (foldr f y k).
Proof. induction l as [|z l IH]; simpl; [apply foldr_start|]. by rewrite IH, (assoc f). Qed.

Lemma foldr_rows (g : row -> res Qc) (Hg : forall x l, g (x :: l) = Ok (foldr f x l)) (l : list row) :
  Forall (fun r => r ≠ []) l -> l ≠ [] -> exists ms m, mapM g l = Ok ms /\ g ms = Ok m /\ g (mjoin l) = Ok m.
Proof.
  intros H. induction H as [|r l Hr Hl IH]; [done|]. intros _. destruct r as [|x r]; [done|].
  change (mapM g ((x :: r) :: l)) with (y ← g (x :: r); k ← mapM g l; mret (y :: k)). rewrite Hg. simpl.
  destruct l as [|r' l].
  { do 2 eexists. split; [done|]. rewrite app_nil_r, !Hg. done. }
  destruct (IH ltac:(done)) as (ms & m & H1 & H2 & H3). rewrite H1. simpl. do 2 eexists. split; [done|]. rewrite !Hg.
  split; [done|]. f_equal. destruct r' as [|y r']; [by apply Forall_inv in Hl|].
  change (mapM g ((y :: r') :: l)) with (y ← g (y :: r'); k ← mapM g l; mret (y :: k)) in H1. rewrite Hg in H1. simpl in H1.
  destruct (mapM g l) as [k|]; [|done]. injection H1 as <-. simpl in H3. rewrite Hg in H2, H3.
  injection H2 as E2. injection H3 as E3. simpl. rewrite foldr_app_start, E3, <- E2. apply foldr_start.
Qed.
End extremes.

#[export] Instance Qcmax_comm : Comm (=) Qcmax.
Proof. intros a b. order_cases; try done; q_order. Qed.
#[export] Instance Qcmax_assoc : Assoc (=) Qcmax.
Proof. intros a b c. order_cases; try done; q_order. Qed.
#[export] Instance Qcmin_comm : Comm (=) Qcmin.
Proof. intros a b. order_cases; try done; q_order. Qed.
#[export] Instance Qcmin_assoc : Assoc (=) Qcmin.
Proof. intros a b c. order_cases; try done; q_order. Qed.

(** What every rank computes by collective operations is the statistics of all
    their elements together. *)
Theorem distributed_is_global sqrt (ranks : list row) : Forall (fun r => r ≠ []) ranks -> ranks ≠ [] ->
  distributed_mean_max_min_std sqrt ranks true true true = reference sqrt (mjoin ranks) /\
  is_ok (reference sqrt (mjoin ranks)) = true.
Proof.
  intros Hr Hne. unfold distributed_mean_max_min_std, reference.
  destruct (foldr_rows Qcmax max_of ltac:(done) ranks Hr Hne) as (his & hi & -> & H1 & ->).
  destruct (foldr_rows Qcmin min_of ltac:(done) ranks Hr Hne) as (los & lo & -> & H2 & ->).
  cbn [mbind res_bind]. rewrite H1, H2. cbn [mbind res_bind]. rewrite sum_join, sum_lengths. fold (mean (mjoin ranks)).
  by rewrite sum_map_rows.
Qed.

(** ** Proofs: metrics *)

Lemma mean_fmap_le {A} (f g : A -> Qc) l : (forall x, x ∈ l -> f x <= g x) -> mean (f <$> l) <= mean (g <$> l).
Proof.
  intros H. unfold mean. rewrite !length_fmap. unfold Qcdiv. apply Qcmult_le_compat_r.
  - induction l as [|x l IH]; [apply Qcle_refl|]. change (f x + sum (f <$> l) <= g x + sum (g <$> l)).
    apply Qcplus_le_compat; [apply H; left|apply IH; intros; apply H; by right].
  - destruct l as [|x l]; [done|]. apply Qclt_le_weak, Qcinv_pos, of_nat_pos. simpl. lia.
Qed.

Lemma mean_fmap_plus {A} (f g : A -> Qc) l : mean ((fun x => f x + g x) <$> l) = mean (f <$> l) + mean (g <$> l).
Proof.
  unfold mean. rewrite !length_fmap.
  assert (sum ((fun x => f x + g x) <$> l) = sum (f <$> l) + sum (g <$> l)) as ->.
  { induction l as [|x l IH]; [done|].
    change (f x + g x + sum ((fun x => f x + g x) <$> l) = f x + sum (f <$> l) + (g x + sum (g <$> l))). rewrite IH. ring. }
  unfold Qcdiv. ring.
Qed.

Lemma mean_const {A} c (l : list A) : l ≠ [] -> mean ((fun _ => c) <$> l) = c.
Proof.
  intros Hl. unfold mean. rewrite length_fmap.
  assert (sum ((fun _ => c) <$> l) = c * of_nat (length l)) as ->.
  { clear Hl. induction l as [|x l IH]; [simpl; replace (of_nat 0) with 0 by (by apply Qc_is_canon); by rewrite Qcmult_0_r|].
    change (c + sum ((fun _ => c) <$> l) = c * of_nat (S (length l))). rewrite IH, of_nat_S. ring. }
  unfold Qcdiv. rewrite <- Qcmult_assoc, Qcmult_inv_r, Qcmult_1_r; [done|]. apply of_nat_ne. destruct l; simpl; [done|lia].
Qed.

Lemma best_ge (l : row) x : x ∈ l -> x <= best l.
Proof.
  destruct l as [|y l]; [by intros ?%elem_of_nil|]. simpl. induction l as [|z l IH]; simpl.
  - by intros ->%list_elem_of_singleton.
  - rewrite !elem_of_cons. intros [->|[->|H]].
    + eapply Qcle_trans; [apply IH; left|]. order_cases; q_order.
    + order_cases; q_order.
    + eapply Qcle_trans; [apply IH; by right|]. order_cases; q_order.
Qed.

Lemma mean_le_best (l : row) : l ≠ [] -> mean l <= best l.
Proof.
  intros Hl. rewrite <- (mean_const (best l) l) by done. rewrite <- (list_fmap_id l) at 1.
  apply mean_fmap_le. intros x Hx. by apply best_ge.
Qed.

(** The items are in the groups, and no group is empty. *)
Lemma grouped_push k x (d : list (string * row)) : Forall (fun l => l ≠ []) (dvalues d) ->
  let d' := dset k (dget_or k [] d ++ [x]) d in
  Forall (fun l => l ≠ []) (dvalues d') /\ length (mjoin (dvalues d')) = S (length (mjoin (dvalues d))).
Proof.
  unfold dget_or. induction d as [|[k' v] d IH]; intros H; simpl; [split; [by repeat constructor|done]|].
  apply Forall_cons in H as [Hv H]. case_decide; simpl.
  - split; [constructor; [by destruct v|done]|]. rewrite !length_app. simpl. lia.
  - destruct (IH H) as [I1 I2]. split; [by constructor|]. simpl in I2. unfold dvalues in *. rewrite !length_app, I2. simpl. lia.
Qed.

Lemma grouped_spec items : Forall (fun l => l ≠ []) (dvalues (grouped items)) /\
  length (mjoin (dvalues (grouped items))) = length items.
Proof.
  unfold grouped. induction items as [|i items [IH1 IH2]] using rev_ind; [done|]. rewrite foldl_app. simpl.
  destruct (grouped_push (group_id i) (reward i) _ IH1) as [I1 I2]. split; [done|].
  rewrite I2, IH2, length_app. simpl. lia.
Qed.

(** The margin of a batch is the difference of its best-of-N and average reward
    and not negative, the groups hold every item once, and the shares of groups
    with different scores, all ones and none positive are disjoint. *)
Theorem batch_metrics_bounds items : items ≠ [] ->
  let m := calc_batch_rl_metrics items in
  average_margin m = BoN_reward m - average_reward m /\ average_reward m <= BoN_reward m /\
  average_repeat m * of_nat (num_uids m) = of_nat (length items) /\
  0 <= effective_uids m /\ 0 <= all_1_uids m /\ 0 <= all_leq0_uids m /\
  effective_uids m + all_1_uids m + all_leq0_uids m <= 1.
Proof.
  intros Hne m. destruct (grouped_spec items) as [Hg Hn].
  assert (Hg0 : dvalues (grouped items) ≠ []).
  { intros E. rewrite E in Hn. by destruct items. }
  subst m. unfold calc_batch_rl_metrics. simpl. set (l := dvalues (grouped items)) in *.
  assert (Hshare : forall p : row -> bool, 0 <= mean ((fun l => indicator (p l)) <$> l)).
  { intros p. rewrite <- (mean_const 0 l) by done. apply mean_fmap_le. intros x _. by destruct (p x). }
  split; [|split; [|split; [|split; [apply Hshare|split; [apply Hshare|split; [apply Hshare|]]]]]].
  - assert (E : mean (best <$> l) = mean ((fun l => best l - sum l / of_nat (length l)) <$> l) + mean (mean <$> l)).
    { rewrite <- mean_fmap_plus. f_equal. apply list_fmap_ext. intros _ x _. unfold mean. ring. }
    rewrite E. ring.
  - apply mean_fmap_le. intros x Hx. apply mean_le_best. by eapply Forall_forall in Hg.
  - unfold mean. rewrite length_fmap, sum_lengths, Hn. unfold Qcdiv.
    rewrite <- Qcmult_assoc, (Qcmult_comm (/ _)), Qcmult_inv_r, Qcmult_1_r; [done|].
    apply of_nat_ne. destruct l; simpl; [done|lia].
  - rewrite <- !mean_fmap_plus. apply (Qcle_trans _ (mean ((fun _ => 1) <$> l))); [|by rewrite mean_const].
    apply mean_fmap_le. intros x _.
    destruct (decide (1 < distinct x)%nat) as [H1|H1].
    + rewrite (bool_decide_true (1 < distinct x)%nat) by done.
      rewrite (bool_decide_false (distinct x = 1%nat /\ _)) by lia.
      rewrite (bool_decide_false (distinct x = 1%nat)) by lia. done.
    + rewrite (bool_decide_false (1 < distinct x)%nat) by done.
      destruct (decide (distinct x = 1%nat)) as [H2|H2].
      * rewrite (bool_decide_true (distinct x = 1%nat)) by done. case_bool_decide as H3; simpl.
        { destruct H3 as [_ ->]. done. }
        by destruct (negb _).
      * rewrite (bool_decide_false (distinct x = 1%nat)) by done. rewrite bool_decide_false by tauto. done.
Qed.

(** ** Proofs: the loss functions *)

(** Rows that differ in their first element at most. *)
Definition same_tail (r r' : row) : Prop := length r = length r' /\ drop 1 r = drop 1 r'.
Definition same_tails : tensor -> tensor -> Prop := Forall2 same_tail.

#[export] Instance same_tail_refl : Reflexive same_tail.
Proof. intros r. done. Qed.
#[export] Instance same_tails_refl : Reflexive same_tails.
Proof. intros t. unfold same_tails. reflexivity. Qed.

Lemma same_tail_zip (f : Qc -> Qc -> Qc) r1 r1' r2 r2' : same_tail r1 r1' -> same_tail r2 r2' ->
  same_tail (zip_with f r1 r2) (zip_with f r1' r2').
Proof.
  intros [L1 H1] [L2 H2]. split; [rewrite !length_zip_with; congruence|].
  destruct r1, r1', r2, r2'; try done; simpl in *; rewrite ?drop_0 in *; congruence.
Qed.
Lemma same_tails_zip (f : Qc -> Qc -> Qc) t1 t1' t2 t2' : same_tails t1 t1' -> same_tails t2 t2' ->
  same_tails (zip_tensors f t1 t2) (zip_tensors f t1' t2').
Proof.
  intros H. revert t2 t2'. unfold same_tails in *. induction H as [|r r' t t' Hr _ IH]; [constructor|].
  intros ?? [|s s' t2 t2' Hs H2]; simpl; constructor; [by apply same_tail_zip|by apply IH].
Qed.
Lemma same_tails_map (f : Qc -> Qc) t t' : same_tails t t' -> same_tails (map_tensor f t) (map_tensor f t').
Proof.
  intros H. apply Forall2_fmap. apply (Forall2_impl _ _ _ _ H). intros r r' [L1 H1]. split; [by rewrite !length_fmap|].
  by rewrite <- !fmap_drop, H1.
Qed.
Create HintDb losses.
#[export] Hint Resolve same_tails_zip same_tails_map : losses.
#[export] Hint Extern 1 (same_tails ?t ?t) => reflexivity : losses.

(** Under a mask without the first column nothing of it is seen. *)
Definition first_masked (mask : tensor) : Prop := Forall (fun r : row => head r = Some 0) mask.

Lemma masked_same t t' mask : first_masked mask -> same_tails t t' ->
  zip_tensors Qcmult t mask = zip_tensors Qcmult t' mask.
Proof.
  intros Hm H. revert mask Hm. induction H as [|r r' t t' [L H1] _ IH]; [done|]. intros [|m mask] Hm; [done|].
  apply Forall_cons in Hm as [Hm Hms]. simpl. f_equal; [|by apply IH].
  destruct r as [|x r], r' as [|x' r'], m as [|y m]; try done. simpl in *. injection Hm as ->. rewrite !drop_0 in H1.
  rewrite H1. f_equal. ring.
Qed.
Lemma masked_mean_same t t' mask : first_masked mask -> same_tails t t' -> masked_mean t mask = masked_mean t' mask.
Proof. intros Hm H. unfold masked_mean. by rewrite (masked_same t t'). Qed.
Lemma agg_loss_same t t' mask mode : first_masked mask -> same_tails t t' -> agg_loss t mask mode = agg_loss t' mask mode.
Proof. intros Hm H. unfold agg_loss. by rewrite (masked_same t t'), (masked_mean_same t t'). Qed.

Lemma policy_loss_same exp old lp lp' adv mask clip low high c mode : first_masked mask -> same_tails lp lp' ->
  compute_policy_loss exp old lp adv mask clip low high c mode
  = compute_policy_loss exp old lp' adv mask clip low high c mode.
Proof.
  intros Hm H. unfold compute_policy_loss. destruct (negb _); [done|].
  assert (Hr : same_tails (map_tensor exp (zip_tensors Qcminus lp old)) (map_tensor exp (zip_tensors Qcminus lp' old)))
    by auto with losses.
  assert (Hz : forall f, same_tails (zip_tensors f adv (map_tensor exp (zip_tensors Qcminus lp old)))
                                (zip_tensors f adv (map_tensor exp (zip_tensors Qcminus lp' old)))) by auto with losses.
  rewrite !(agg_loss_same _ _ mask mode Hm (Hz _)), !(masked_mean_same _ _ mask Hm (Hz _)).
  by rewrite (masked_mean_same (map_tensor Qcopp (zip_tensors Qcminus lp old))
                (map_tensor Qcopp (zip_tensors Qcminus lp' old))) by auto with losses.
Qed.

Lemma kl_penalty_same exp lp lp' ref kind : same_tails lp lp' ->
  match kl_penalty exp lp ref kind, kl_penalty exp lp' ref kind with
  | Ok k, Ok k' => same_tails k k'
  | Raise e, Raise e' => e = e'
  | _, _ => False
  end.
Proof.
  intros H. unfold kl_penalty. assert (Hd : same_tails (zip_tensors Qcminus lp ref) (zip_tensors Qcminus lp' ref)) by auto with losses.
  repeat case_bool_decide; auto with losses.
Qed.

Lemma roll_right_length {A} (r : list A) : length (roll_right r) = length r.
Proof. unfold roll_right. rewrite length_app, length_drop, length_take. lia. Qed.
Lemma roll_right_lookup {A} (r : list A) k : (S k < length r)%nat -> roll_right r !! S k = r !! k.
Proof.
  intros H. unfold roll_right. rewrite lookup_app_r by (rewrite length_drop; lia).
  rewrite length_drop, lookup_take_lt by lia. f_equal. lia.
Qed.
Lemma roll_right_same (r r' : row) : length r = length r' ->
  take (length r - 1) r = take (length r' - 1) r' -> same_tail (roll_right r) (roll_right r').
Proof.
  intros Hl Ht. split; [by rewrite !roll_right_length|]. unfold roll_right.
  rewrite !skipn_app, !length_drop, Ht, Hl. f_equal. rewrite !drop_drop.
  rewrite !drop_ge; [done|lia..].
Qed.

Section losses_facts.
Context (exp : Qc -> Qc) (logsumexp : row -> Qc).
Context (flash_loss : list row -> list Z -> res (list Qc * list Qc)) (flash_attn float32 : bool).
(** As in Sequences: the loss of a valid label is minus its log-probability. *)
Context (flash_spec : forall logits labels, Forall2 valid_label logits labels ->
  exists z, flash_loss logits labels = Ok (zip_with (fun l y => - token_logprob logsumexp l y) logits labels, z)).

#[local] Abbreviation token_log_probs := (token_log_probs exp logsumexp flash_loss flash_attn float32).
#[local] Abbreviation ppo_loss := (ppo_loss exp logsumexp flash_loss flash_attn float32).

(** Token numbers and logits of one shape over [V] words. *)
Record outputs_ok (ids : list (list Z)) (logits : list (list row)) (V : nat) : Prop := {
  same_shape : shape ids = shape logits;
  logit_words : Forall (Forall (fun l : row => length l = V)) logits;
  id_range : Forall (Forall (fun y => (0 <= y < Z.of_nat V)%Z)) ids
}.

Lemma outputs_valid ids logits V t : outputs_ok ids logits V ->
  Forall2 (Forall2 valid_label) (divided t logits) (roll_left <$> ids).
Proof.
  intros [H1 H2 H3]. unfold shape in H1. revert logits H1 H2. induction H3 as [|r ids Hr _ IH]; intros [|l logits] H1 H2; try done.
  apply Forall_cons in H2 as [Hl H2]. injection H1 as H1 H1'. unfold divided. simpl.
  constructor; [|by apply IH]. apply (valid_rows V).
  - apply Forall_fmap. apply (Forall_impl _ _ _ Hl). intros x Hx. simpl. by rewrite length_fmap.
  - by apply roll_left_Forall.
  - by rewrite length_fmap, roll_left_length.
Qed.

Lemma shape_ok ids logits V t : outputs_ok ids logits V ->
  bool_decide (shape (roll_left (A := Z) <$> ids) = shape (divided t logits)) = true.
Proof.
  intros [H1 _ _]. apply bool_decide_true. unfold shape, divided in *. rewrite <- !list_fmap_compose.
  transitivity (length <$> ids); [apply list_fmap_ext; intros; simpl; apply roll_left_length|].
  rewrite H1. apply list_fmap_ext. intros. simpl. by rewrite length_fmap.
Qed.

Lemma shape_zip {A B C} (g : A -> B -> C) t t' : shape t = shape t' -> shape (zip_with (zip_with g) t t') = shape t.
Proof.
  unfold shape. revert t'. induction t as [|r t IH]; intros [|r' t'] H; try done. injection H as H H'. simpl.
  f_equal; [rewrite length_zip_with; lia|by apply IH].
Qed.
Lemma shape_map {A B} (g : list A -> list B) t : (forall r, length (g r) = length r) -> shape (g <$> t) = shape t.
Proof. intros H. unfold shape. rewrite <- list_fmap_compose. apply list_fmap_ext. intros. apply H. Qed.
Lemma shape_row {A B} (t : list (list A)) (t' : list (list B)) i r : shape t = shape t' -> t !! i = Some r ->
  exists r', t' !! i = Some r' /\ length r' = length r.
Proof.
  intros H Hi. assert (E : shape t !! i = Some (length r)) by (unfold shape; by rewrite list_lookup_fmap, Hi).
  rewrite H in E. unfold shape in E. rewrite list_lookup_fmap in E. destruct (t' !! i) as [r'|]; [|done].
  injection E as E. eauto.
Qed.

(** The log-probability reported at a position is that of the token there given
    the logits at the position before. *)
Theorem log_prob_loss_shifts inputs logits c V temp : outputs_ok (input_ids inputs) logits V ->
  temperature c = Some temp ->
  exists out, log_prob_loss logsumexp flash_loss flash_attn float32 inputs logits c = Ok (1, out) /\
    shape out = shape (input_ids inputs) /\
    forall i j r (l : row) y, input_ids inputs !! i = Some r -> r !! S j = Some y -> logits !! i ≫= (.!! j) = Some l ->
      out !! i ≫= (.!! S j) = Some (token_logprob logsumexp ((fun x => x / temp) <$> l) y).
Proof.
  intros Hok Ht. unfold log_prob_loss. rewrite Ht. cbn [required mbind res_bind]. rewrite (shape_ok _ _ V) by done.
  cbn [negb]. rewrite (batch_valid logsumexp flash_loss flash_spec) by (by eapply outputs_valid). cbn [mbind res_bind].
  pose proof (shape_ok _ _ _ temp Hok) as Hs. apply bool_decide_eq_true in Hs.
  assert (Hout : shape (roll_right (A := Qc) <$> zip_with (zip_with (token_logprob logsumexp)) (divided temp logits)
    (roll_left <$> input_ids inputs)) = shape (input_ids inputs)).
  { rewrite shape_map by apply roll_right_length. rewrite shape_zip by done. rewrite <- Hs.
    apply shape_map, roll_left_length. }
  rewrite bool_decide_true by done. cbn [negb]. eexists. split; [done|]. split; [done|].
  intros i j r l y Hr Hy Hl. destruct (shape_row _ _ _ _ (same_shape _ _ _ Hok) Hr) as (rl & Hrl & Hlen).
  rewrite Hrl in Hl. simpl in Hl. unfold divided. rewrite list_lookup_fmap, lookup_zip_with, !list_lookup_fmap, Hrl, Hr.
  simpl. apply lookup_lt_Some in Hy as Hj.
  rewrite roll_right_lookup by (rewrite length_zip_with, length_fmap, roll_left_length; lia).
  by rewrite lookup_zip_with, list_lookup_fmap, Hl, (roll_left_lookup _ _ _ Hy).
Qed.

(** Rows that agree but for their last element, and outputs that do. *)
Definition same_init {A} (r r' : list A) : Prop :=
  length r = length r' /\ take (length r - 1) r = take (length r' - 1) r'.
Definition same_but_last {A} : list (list A) -> list (list A) -> Prop := Forall2 same_init.

Lemma rolled_same t t' : same_but_last t t' -> same_tails (roll_right (A := Qc) <$> t) (roll_right (A := Qc) <$> t').
Proof. intros H. apply Forall2_fmap. apply (Forall2_impl _ _ _ _ H). intros r r' [L E]. by apply roll_right_same. Qed.

Lemma same_init_map {A B} (f : A -> B) r r' : same_init r r' -> same_init (f <$> r) (f <$> r').
Proof. intros [L E]. split; [by rewrite !length_fmap|]. by rewrite !length_fmap, <- !fmap_take, E. Qed.
Lemma same_but_last_map {A B} (f : A -> B) t t' :
  same_but_last t t' -> same_but_last (fmap (M := list) f <$> t) (fmap (M := list) f <$> t').
Proof. intros H. apply Forall2_fmap. apply (Forall2_impl _ _ _ _ H). intros. by apply same_init_map. Qed.

Lemma same_but_last_zip {A B C} (f : A -> B -> C) t t' k : same_but_last t t' -> shape t = shape k ->
  same_but_last (zip_with (zip_with f) t k) (zip_with (zip_with f) t' k).
Proof.
  unfold shape. intros H. revert k. induction H as [|r r' t t' [L E] _ IH]; intros [|y k] Hk; try done; [constructor|].
  injection Hk as Hy Hk. simpl. constructor; [|by apply IH].
  split; [rewrite !length_zip_with; lia|]. rewrite !length_zip_with, <- Hy, <- L, !Nat.min_id, !zip_with_take.
  rewrite <- L in E. by rewrite E.
Qed.

Lemma token_log_probs_same ids logits logits' V t : outputs_ok ids logits V -> outputs_ok ids logits' V ->
  same_but_last logits logits' ->
  exists o o', token_log_probs ids logits t = Ok o /\ token_log_probs ids logits' t = Ok o' /\
    same_tails o.1 o'.1 /\ same_tails o.2 o'.2.
Proof.
  intros Hok Hok' Hsame. unfold Losses.token_log_probs. rewrite !(shape_ok _ _ V) by done. cbn [negb].
  rewrite !(batch_valid logsumexp flash_loss flash_spec) by (by eapply outputs_valid). cbn [mbind res_bind].
  assert (Hd : same_but_last (divided t logits) (divided t logits')) by (by apply same_but_last_map).
  do 2 eexists. split; [done|]. split; [done|]. split.
  - apply rolled_same, same_but_last_zip; [done|]. symmetry. eapply bool_decide_eq_true, shape_ok, Hok.
  - by apply rolled_same, same_but_last_map.
Qed.

(** Whatever the options, the loss, its metrics and its errors do not depend on
    the logits behind the last token, which the shift moves to the first column. *)
Theorem ppo_loss_ignores_last inputs c logits logits' V :
  outputs_ok (input_ids inputs) logits V -> outputs_ok (input_ids inputs) logits' V ->
  same_but_last logits logits' -> ppo_loss inputs logits c = ppo_loss inputs logits' c.
Proof.
  intros Hok Hok' Hsame. unfold Losses.ppo_loss.
  destruct (loss_mask inputs) as [mask|]; [|done]. destruct (rollout_log_prob inputs) as [old|]; [|done].
  destruct (advantages inputs) as [adv|]; [|done]. cbn [required mbind res_bind].
  destruct (bool_decide _) eqn:Hm; [|done]. apply bool_decide_eq_true in Hm. cbn [negb].
  destruct (temperature c) as [t|]; [|done]. cbn [required mbind res_bind].
  destruct (token_log_probs_same _ _ _ _ t Hok Hok' Hsame) as ([lp en] & [lp' en'] & -> & -> & Hl & He). simpl in Hl, He.
  cbn [mbind res_bind fst snd]. destruct (entropy_coef c) as [coef|]; [|done]. cbn [required mbind res_bind].
  rewrite (policy_loss_same exp old lp lp') by done. destruct (compute_policy_loss _ _ _ _ _ _ _ _ _ _) as [[[[pg cf] kl] cl]|]; [|done].
  cbn [mbind res_bind]. rewrite (agg_loss_same en en') by done. destruct (agg_loss _ _ _); [|done]. cbn [mbind res_bind].
  unfold kl_term. destruct (use_kl_loss c); [|done]. destruct (ref_log_prob inputs) as [ref|]; [|done]. cbn [required mbind res_bind].
  pose proof (kl_penalty_same exp lp lp' ref (default "low_var_kl" (kl_loss_type c)) Hl) as Hk.
  destruct (kl_penalty _ lp _ _) as [k|], (kl_penalty _ lp' _ _) as [k'|]; try done; [|by rewrite Hk].
  cbn [mbind res_bind]. by rewrite (agg_loss_same k k').
Qed.
End losses_facts.

Module Examples.
Definition lse (l : row) : Qc := sum l.
Definition flash (logits : list row) (labels : list Z) : res (list Qc * list Qc) :=
  Ok (zip_with (fun l y => - token_logprob lse l y) logits labels, []).
Definition inputs : model_inputs :=
  {| input_ids := [[1%Z; 0%Z; 1%Z]]; loss_mask := Some [[0; 1; 1]]; rollout_log_prob := Some [[0; 0; 0]];
     advantages := Some [[0; 1; - (1)]]; ref_log_prob := None |}.
Definition options : config :=
  {| temperature := Some 1; clip_ratio := None; clip_ratio_low := None; clip_ratio_high := None; clip_ratio_c := None;
     entropy_coef := Some 0; loss_agg_mode := None; use_kl_loss := false; kl_loss_type := None; kl_loss_coef := None |}.
Definition logits (last : Qc) : list (list row) := [[[0; 1]; [1; 1]; [0; last]]].
Definition exp1 (x : Qc) : Qc := 1 + x.

Lemma logits_ok last : outputs_ok (input_ids inputs) (logits last) 2.
Proof. by repeat constructor. Qed.

Lemma log_prob_loss_shifts_witness :
  exists out, log_prob_loss lse flash true true inputs (logits 0) options = Ok (1, out) /\
    out !! 0%nat ≫= (.!! 1%nat) = Some (token_logprob lse [0 / 1; 1 / 1] 0).
Proof.
  destruct (log_prob_loss_shifts lse flash true true ltac:(by intros; eexists) inputs (logits 0) options 2 1
    (logits_ok 0) eq_refl) as (out & H1 & _ & H2).
  exists out. split; [done|]. by apply (H2 0%nat 0%nat [1%Z; 0%Z; 1%Z] [0; 1]).
Defined.

Lemma ppo_loss_ignores_last_witness :
  ppo_loss exp1 lse flash true true inputs (logits 0) options = ppo_loss exp1 lse flash true true inputs (logits 1) options /\
  is_ok (ppo_loss exp1 lse flash true true inputs (logits 0) options) = true.
Proof.
  split; [|by vm_compute].
  apply (ppo_loss_ignores_last exp1 lse flash true true ltac:(by intros; eexists) inputs options (logits 0) (logits 1) 2);
    [apply logits_ok|apply logits_ok|by repeat constructor].
Defined.

Lemma distributed_is_global_witness :
  distributed_mean_max_min_std id [[1; 0]; [1]] true true true = reference id [1; 0; 1].
Proof. apply (distributed_is_global id [[1; 0]; [1]]); [by repeat constructor|done]. Defined.

Definition a_group : list scored := [{| group_id := "a"; reward := 1 |}; {| group_id := "b"; reward := 0 |};
                                     {| group_id := "a"; reward := 0 |}].
Lemma batch_metrics_bounds_witness : average_reward (calc_batch_rl_metrics a_group) <= BoN_reward (calc_batch_rl_metrics a_group).
Proof. apply (batch_metrics_bounds a_group). done. Defined.
Example half_effective : effective_uids (calc_batch_rl_metrics a_group) = qc 1 2.
Proof. by apply Qc_is_canon. Qed.
End Examples.
