(* ===== verification/Nccl.v ===== *)
(** * Sending parameters from the trainer to the rollout workers

    Models trainer/components/nccl_tensor_comm.py: the broadcasts of the sender as
    a list of messages, and the receiver that reads them. *)

From S2P Require Import Prelude PyVal.

(** A parameter: its name, its size in bytes, its contents. *)
Record param := { key : string; bytes : Z; content : val }.

(** A broadcast object or tensor. *)
Inductive message : Type :=
| Descriptions (d : list (string * Z))
| Tensor (v : val)
| Done (b : bool).

(* trainer/components/nccl_tensor_comm.py:13-18 send_buffer *)
Definition send_buffer (buffer : list param) : list message :=
  Descriptions (foldl (fun d p => dset (key p) (bytes p) d) [] buffer) ::
  ((fun p => Tensor (content p)) <$> buffer).

(* trainer/components/nccl_tensor_comm.py:26-29 receive_buffer *)
Fixpoint receive_tensors (d : list (string * Z)) (l : list message)
    : res (list param * list message) :=
  match d with
  | [] => Ok ([], l)
  | (k, n) :: d =>
      match l with
      | Tensor v :: l =>
          r ← receive_tensors d l;
          Ok ({| key := k; bytes := n; content := v |} :: r.1, r.2)
      | _ => Raise TypeError
      end
  end.

(** A broadcast of another kind than the one awaited is an error of the
    protocol. *)
(* trainer/components/nccl_tensor_comm.py:21-30 receive_buffer *)
Definition receive_buffer (l : list message) : res (list param * list message) :=
  match l with
  | Descriptions d :: l => receive_tensors d l
  | _ => Raise TypeError
  end.

Section transfer.
Context (bucket_size : Z).

(** The loop of the first rank, with the parameters that are left. *)
(* trainer/components/nccl_tensor_comm.py:47-76 NCCLTensorSender.send *)
Fixpoint send_loop (params : list param) (buffer : list param) (size : Z) : list message :=
  match params with
  | [] => send_buffer buffer ++ [Done true]
  | p :: params =>
      let size := size + bytes p in
      if bool_decide (bucket_size ≤ size)
      then send_buffer buffer ++ [Done false] ++ send_loop params [] 0
      else send_loop params (buffer ++ [p]) size
  end.
(* trainer/components/nccl_tensor_comm.py:47-76 NCCLTensorSender.send *)
Definition send (params : list param) : list message := send_loop params [] 0.

(** The buffers [update_params] is called with, in order; [fuel] bounds the
    rounds. *)
(* trainer/components/nccl_tensor_comm.py:92-106 NCCLTensorReceiver.async_receive *)
Fixpoint receive (fuel : nat) (l : list message) : res (list (list param)) :=
  match fuel with
  | O => Raise RecursionLimit
  | S fuel =>
      r ← receive_buffer l;
      match r.2 with
      | Done true :: _ => Ok [r.1]
      | Done false :: l => rest ← receive fuel l; Ok (r.1 :: rest)
      | _ => Raise TypeError
      end
  end.

(** ** Proofs *)

Definition describe (p : param) : string * Z := (key p, bytes p).

Lemma descriptions_of buffer :
  NoDup (key <$> buffer) ->
  foldl (fun d p => dset (key p) (bytes p) d) [] buffer = describe <$> buffer.
Proof.
  intros Hnd.
  assert (forall d, NoDup (dkeys d ++ (key <$> buffer)) ->
    foldl (fun d p => dset (key p) (bytes p) d) d buffer = d ++ (describe <$> buffer)) as Hgen;
    [|by apply (Hgen [])].
  induction buffer as [|p buffer IH]; intros d Hd; [by rewrite app_nil_r|].
  apply NoDup_cons in Hnd as [_ Hnd]. cbn [foldl].
  assert (key p ∉ dkeys d) as Hp.
  { apply NoDup_app in Hd as (_ & Hd & _). intros Hin. apply (Hd _ Hin). left. }
  assert (dset (key p) (bytes p) d = d ++ [describe p]) as ->.
  { clear -Hp. induction d as [|[k v] d IH]; [done|]. apply not_elem_of_cons in Hp as [H1 H2].
    simpl in *. rewrite decide_False by done. by rewrite IH. }
  rewrite IH; [by rewrite <- (assoc_L (++))|done|].
  unfold dkeys in *. rewrite fmap_app, <- (assoc_L (++)). exact Hd.
Qed.

Lemma receive_tensors_spec buffer l :
  receive_tensors (describe <$> buffer) (((fun p => Tensor (content p)) <$> buffer) ++ l) =
    Ok (buffer, l).
Proof.
  induction buffer as [|p buffer IH]; [done|].
  change (receive_tensors (describe <$> (p :: buffer))
    (((fun p => Tensor (content p)) <$> (p :: buffer)) ++ l)) with
    (r ← receive_tensors (describe <$> buffer) (((fun p => Tensor (content p)) <$> buffer) ++ l);
     Ok ({| key := key p; bytes := bytes p; content := content p |} :: r.1, r.2)).
  rewrite IH. by destruct p.
Qed.

Lemma receive_send_buffer buffer l :
  NoDup (key <$> buffer) -> receive_buffer (send_buffer buffer ++ l) = Ok (buffer, l).
Proof.
  intros Hnd. unfold send_buffer. simpl. rewrite descriptions_of by done.
  apply receive_tensors_spec.
Qed.

Definition size_of (l : list param) : Z := foldr (fun p n => bytes p + n) 0 l.

Lemma send_loop_received params buffer size :
  NoDup (key <$> (buffer ++ params)) -> Forall (fun p => 0 ≤ bytes p) params ->
  exists bufs, (forall fuel, (length params < fuel)%nat ->
      receive fuel (send_loop params buffer size) = Ok bufs) ∧
    mjoin bufs `sublist_of` buffer ++ params ∧
    (mjoin bufs = buffer ++ params <-> params = [] ∨ size + size_of params < bucket_size).
Proof.
  revert buffer size. induction params as [|p params IH]; intros buffer size Hnd Hpos.
  { rewrite app_nil_r in *. exists [buffer]. split_and!.
    - intros [|fuel] Hf; [simpl in Hf; lia|]. cbn [receive send_loop].
      by rewrite receive_send_buffer.
    - simpl. by rewrite app_nil_r.
    - simpl. rewrite app_nil_r. naive_solver. }
  apply Forall_cons in Hpos as [Hp Hpos]. cbn [send_loop].
  assert (0 ≤ size_of params) as Hs.
  { clear -Hpos. induction Hpos; simpl; lia. }
  case_bool_decide as Hfull.
  - rewrite fmap_app in Hnd. apply NoDup_app in Hnd as (Hnd1 & _ & Hnd2).
    apply NoDup_cons in Hnd2 as [_ Hnd2].
    destruct (IH [] 0 Hnd2 Hpos) as (bufs & Hr & Hsub & _).
    exists (buffer :: bufs). split_and!.
    + intros [|fuel] Hf; [simpl in Hf; lia|]. cbn [receive].
      rewrite receive_send_buffer by done. cbn. rewrite Hr by (simpl in Hf; lia). done.
    + cbn [mjoin list_join]. apply sublist_app; [done|]. by apply sublist_cons.
    + split; [|intros [|Hlt]; [done|simpl in Hlt; lia]].
      intros Heq. exfalso. apply (f_equal length) in Heq. apply sublist_length in Hsub.
      change (mjoin (buffer :: bufs)) with (buffer ++ mjoin bufs) in Heq.
      rewrite !length_app in Heq. simpl in *. lia.
  - destruct (IH (buffer ++ [p]) (size + bytes p)) as (bufs & Hr & Hsub & Hiff);
      [by rewrite <- (assoc_L (++))|done|].
    rewrite <- (assoc_L (++)) in Hsub, Hiff. exists bufs. split_and!; [|done|].
    + intros fuel Hf. apply Hr. simpl in Hf. lia.
    + rewrite Hiff. simpl. split; [|intros [|]; [done|right; lia]].
      intros [->|Hlt]; right; simpl; lia.
Qed.

(** The receiver reads the sender's broadcasts to their end without error and
    gets parameters in their order; it gets all of them exactly when together they
    stay below the bucket size. *)
Theorem transfer_complete_iff (params : list param) :
  NoDup (key <$> params) -> Forall (fun p => 0 ≤ bytes p) params ->
  exists bufs, receive (S (length params)) (send params) = Ok bufs ∧
    mjoin bufs `sublist_of` params ∧
    (mjoin bufs = params <-> params = [] ∨ size_of params < bucket_size).
Proof.
  intros Hnd Hpos. destruct (send_loop_received params [] 0 Hnd Hpos) as (bufs & Hr & Hsub & Hiff).
  exists bufs. split_and!; [apply Hr; lia|done|]. by rewrite Z.add_0_l in Hiff.
Qed.
End transfer.

Definition demo_params : list param :=
  [{| key := "a"; bytes := 4; content := VInt 1 |}; {| key := "b"; bytes := 4; content := VInt 2 |};
   {| key := "c"; bytes := 1; content := VInt 3 |}].

(** The parameter that fills the bucket is not sent. *)
Example demo_lost :
  match receive 4 (send 8 demo_params) with
  | Ok l => key <$> mjoin l = ["a"; "c"]
  | Raise _ => False
  end.
Proof. vm_compute. reflexivity. Qed.

Lemma transfer_complete_iff_witness :
  exists bufs, receive 4 (send 100 demo_params) = Ok bufs ∧ mjoin bufs = demo_params.
Proof.
  destruct (transfer_complete_iff 100 demo_params) as (bufs & H1 & _ & H2).
  - exact (bool_decide_eq_true_1 (NoDup ["a"; "b"; "c"]) eq_refl).
  - repeat (constructor; [simpl; lia|]). constructor.
  - exists bufs. split; [exact H1|]. apply H2. right. vm_compute. reflexivity.
Defined.
