(* ===== verification/Workflow.v ===== *)
(** * The evaluator's workflow of one sample

    Models eval/session/workflow.py, controller.py and types.py: an HTTP client of
    the controller, and the workflow that starts a session, lets a model and the
    environment talk, and completes or cancels it.  The requests and the model
    are arguments; the task that renews a session while the model thinks is part
    of the model's query. *)

From S2P Require Import Prelude PyVal.

(** ** Types *)

(* eval/session/types.py:18-33 SampleStatus *)
Inductive SampleStatus : Type :=
| UNKNOWN
| RUNNING
| COMPLETED
| VALIDATION_FAILED
| INVALID_ACTION
| TASK_LIMIT_REACHED
| TASK_ERROR
| CANCELLED
| MODEL_ERROR
| SERVER_ERROR
| WORKFLOW_ERROR.

#[export] Instance SampleStatus_eq_dec : EqDecision SampleStatus.
Proof. solve_decision. Defined.

(* eval/session/types.py:35-46 SampleStatus.is_completed *)
Definition is_completed (s : SampleStatus) : bool :=
  bool_decide (s ∈ [UNKNOWN; COMPLETED; VALIDATION_FAILED; INVALID_ACTION; TASK_LIMIT_REACHED]).
(* eval/session/types.py:48-58 SampleStatus.is_client_error *)
Definition is_client_error (s : SampleStatus) : bool :=
  bool_decide (s ∈ [CANCELLED; MODEL_ERROR; SERVER_ERROR; WORKFLOW_ERROR]).

(** A message, and a tool, is a dictionary. *)
Definition message := list (string * val).

(* eval/session/types.py:61-72 InteractResponse *)
Record InteractResponse := {
  finish : option bool;
  reward : option Q;
  status : option SampleStatus;
  messages : option (list message);
  tools : option (list message);
  metrics : option (list (string * val));
  result : option val
}.

(* eval/session/types.py:74-85 InteractResponse.messages_not_empty *)
Definition messages_not_empty (r : InteractResponse) : res InteractResponse :=
  match finish r with
  | Some true =>
      Ok (match status r with
          | Some _ => r
          | None => {| finish := finish r; reward := reward r; status := Some UNKNOWN;
                       messages := messages r; tools := tools r; metrics := metrics r;
                       result := result r |}
          end)
  | _ => match messages r with
         | None | Some [] => Raise ValueError
         | Some _ => Ok r
         end
  end.

(** The index of a custom task is -1. *)
Definition custom_index (index : val) : bool :=
  match index with VInt n => bool_decide (n = -1) | _ => false end.

(* eval/session/types.py:88-93 RunSpec *)
Record RunSpec := {
  sp_model : string;
  sp_run : Z;
  sp_task : string;
  sp_index : val;
  sp_custom_params : list (string * val)
}.

(** A slice of messages of one role, or a message of a model. *)
Inductive message_record : Type :=
| Slice (l : list message)
| FromModel (v : val).

(* eval/session/types.py:102-116 RunResult *)
Record RunResult := {
  r_spec : RunSpec;
  r_session_id : option Z;
  r_status : SampleStatus;
  r_reward : option Q;
  r_score : option val;
  r_metrics : option (list (string * val));
  r_result : option val;
  r_task_trace : option val;
  r_raw_trace : list message_record
}.

(** ** The client of the controller *)

(** A response: its status, the header session_id, the body as a response. *)
Record http_response := { code : Z; header_sid : option Z; body : InteractResponse }.

Section workflow.
Context {W : Type}.
(** [client.post(path, headers session_id, json)] *)
Context (post : string -> option Z -> val -> M W http_response).

(** [response.raise_for_status()], whose exception [_raise_for_status] replaces. *)
(* eval/session/controller.py:101-106 ControllerClient._raise_for_status *)
Definition raise_for_status (r : http_response) : res unit :=
  let raised : res unit :=
    if bool_decide (200 ≤ code r ∧ code r < 300) then Ok tt else Raise (HTTPStatusError (code r)) in
  match raised with
  | Ok _ => Ok tt
  | Raise e => if is_Exception e then Raise (RuntimeError "controller request failed") else Raise e
  end.

(* eval/session/controller.py:49-73 ControllerClient.start_sample *)
Definition controller_start (spec : RunSpec) : M W (Z * InteractResponse) :=
  let index := sp_index spec in
  request ← (match sp_custom_params spec return M W (val * val) with
             | [] => if custom_index index then raise AssertionError
                     else mret (index, VNone)
             | custom =>
                 mret (VInt (-1), VDict (if custom_index index then custom
                                         else dset "index" index custom))
             end);
  response ← post "start_sample" None
    (VDict [("name", VStr (sp_task spec)); ("index", request.1); ("custom_task", request.2)]);
  lift_res (raise_for_status response);;
  session_id ← (match header_sid response return M W Z with
                | Some n => mret n | None => raise KeyError end);
  r ← lift_res (messages_not_empty (body response));
  mret (session_id, r).

(* eval/session/controller.py:75-83 ControllerClient.interact *)
Definition controller_interact (session_id : Z) (l : list message) : M W InteractResponse :=
  response ← post "interact" (Some session_id) (VDict [("messages", VList (VDict <$> l))]);
  lift_res (raise_for_status response);;
  lift_res (messages_not_empty (body response)).

(* eval/session/controller.py:90-94 ControllerClient.cancel *)
Definition controller_cancel (session_id : Z) : M W unit :=
  _ ← post "cancel" (Some session_id) VNone; mret tt.

(** ** The workflow *)

(** [model.query(...)] of a model picked among [models], and
    [MessageRecord.convert_all(_, to='openai_chat_completion_input')], the
    callback of a started session, the validation of a score by the model
    [RunResult], and [str(e)]. *)
Context (query : list message_record -> list message -> M W (list message_record))
        (convert_all : list message_record -> res (list message))
        (started : Z -> M W unit)
        (validate_score : option val -> res (option val))
        (str_exn : exn -> string)
        (start_sample_only : bool) (spec : RunSpec).

(* eval/session/workflow.py:45-49 SampleWorkflow.__init__ *)
Record workflow := {
  world : W;
  session_id : option Z;
  history : list message_record;
  wf_tools : list message
}.

Definition with_session (s : option Z) (w : workflow) : workflow :=
  {| world := world w; session_id := s; history := history w; wf_tools := wf_tools w |}.
Definition with_history (h : list message_record) (w : workflow) : workflow :=
  {| world := world w; session_id := session_id w; history := h; wf_tools := wf_tools w |}.
Definition with_tools (t : list message) (w : workflow) : workflow :=
  {| world := world w; session_id := session_id w; history := history w; wf_tools := t |}.
Definition outside {A} (m : M W A) : M workflow A := fun w =>
  let '(x, r) := m (world w) in
  ({| world := x; session_id := session_id w; history := history w; wf_tools := wf_tools w |}, r).

(** [message['role'] == r1 or message['role'] == r2] *)
Definition role_in (r1 r2 : string) (m : message) : bool :=
  match dget "role" m with
  | Some (VStr r) => bool_decide (r = r1 ∨ r = r2)
  | _ => false
  end.

(** The variables of [_set_messages]: [own_history] is the list [history], and
    [None] while that is the list of the workflow itself. *)
Record slicing := {
  self_messages : list message_record;
  own_history : option (list message_record);
  current_slice : list message
}.

Definition sl_history (s : slicing) : list message_record :=
  default (self_messages s) (own_history s).

(* eval/session/workflow.py:206-208 SampleWorkflow._set_messages *)
Definition sl_append (r : message_record) (s : slicing) : slicing :=
  match own_history s with
  | None => {| self_messages := self_messages s ++ [r]; own_history := None;
               current_slice := current_slice s |}
  | Some h => {| self_messages := self_messages s; own_history := Some (h ++ [r]);
                 current_slice := current_slice s |}
  end.

Definition sl_set (h : option (list message_record)) (l : list message) (s : slicing) : slicing :=
  {| self_messages := self_messages s; own_history := h; current_slice := l |}.

(* eval/session/workflow.py:206-207 SampleWorkflow._set_messages *)
Definition sl_flush (s : slicing) : slicing :=
  match current_slice s with [] => s | l => sl_append (Slice l) s end.

(* eval/session/workflow.py:195-213 SampleWorkflow._set_messages *)
Definition slice_message (m : message) : M slicing unit :=
  match dget "role" m with
  | None => raise KeyError
  | Some _ =>
      if role_in "system" "developer" m then modify (sl_set (Some [Slice [m]]) [])
      else if role_in "assistant" "tool" m then
        modify sl_flush;; modify (sl_append (Slice [m]));;
        modify (fun s => sl_set (own_history s) [] s)
      else modify (fun s => sl_set (own_history s) (current_slice s ++ [m]) s)
  end.

(* eval/session/workflow.py:185-222 SampleWorkflow._set_messages *)
Definition set_messages (l : option (list message)) : M workflow unit := fun w =>
  match l with
  | None => (w, Raise TypeError)
  | Some l =>
      let start := {| self_messages := history w;
                      own_history := match history w with [] => Some [] | _ => None end;
                      current_slice := [] |} in
      match for_each l slice_message start with
      | (s, Ok _) => (with_history (sl_history (sl_flush s)) w, Ok tt)
      | (s, Raise e) => (with_history (self_messages s) w, Raise e)
      end
  end.

(* eval/session/workflow.py:224-232 SampleWorkflow._set_tools *)
Definition set_tools (l : option (list message)) : M workflow unit :=
  match l with
  | None | Some [] => mret tt
  | Some l => modify (with_tools l)
  end.

(* eval/session/workflow.py:234-253 SampleWorkflow._server_complete *)
Definition server_complete (r : InteractResponse) : M workflow RunResult :=
  w ← get;
  let m := default [] (metrics r) in
  let rest := ddel "trace" (ddel "score" m) in
  score ← lift_res (validate_score (dget "score" m));
  match status r return M workflow RunResult with
  | None => raise ValueError
  | Some s =>
      mret {| r_spec := spec; r_session_id := session_id w; r_status := s; r_reward := reward r;
              r_score := score; r_metrics := (fun _ => rest) <$> metrics r;
              r_result := result r; r_task_trace := dget "trace" m; r_raw_trace := history w |}
  end.

(* eval/session/workflow.py:255-269 SampleWorkflow._client_complete *)
Definition client_complete (s : SampleStatus) (message : string) : M workflow RunResult :=
  w ← get;
  mret {| r_spec := spec; r_session_id := session_id w; r_status := s; r_reward := None;
          r_score := None; r_metrics := None; r_result := Some (VStr message);
          r_task_trace := None; r_raw_trace := history w |}.

(* eval/session/workflow.py:168-175 SampleWorkflow.cancel *)
Definition cancel : M workflow unit :=
  w ← get;
  match session_id w return M workflow unit with
  | None => mret tt
  | Some s =>
      try_except (outside (controller_cancel s))
        (fun e => if is_Exception e then Some (mret tt) else None);;
      modify (with_session None)
  end.

Definition except_Exception {A} (m : M workflow A) (h : exn -> M workflow A) : M workflow A :=
  try_except m (fun e => if is_Exception e then Some (h e) else None).

(** [left] tries are left, this one included. *)
(* eval/session/workflow.py:79-96 SampleWorkflow._run *)
Fixpoint start_with_retry (left : nat) : M workflow InteractResponse :=
  match left with
  | O => raise (RuntimeError "unreachable code reached")
  | S left' =>
      try_except
        (r ← outside (controller_start spec);
         modify (with_session (Some r.1));; mret r.2)
        (fun e => match e return option (M workflow InteractResponse) with
                  | HTTPStatusError _ =>
                      if bool_decide (left' = 0%nat) then None else Some (start_with_retry left')
                  | _ => None
                  end)
  end.

(** One round of the interaction: the result, or the next response. *)
(* eval/session/workflow.py:117-166 SampleWorkflow._run *)
Definition interact_round (response : InteractResponse) : M workflow (RunResult + InteractResponse) :=
  set_tools (tools response);;
  set_messages (messages response);;
  if default false (finish response) then r ← server_complete response; mret (inl r)
  else
    w ← get;
    queried ← (except_Exception
      (l ← outside (query (history w) (wf_tools w));
       assert_ (match l with [] => false | _ => true end);; mret (inr l))
      (fun e => r ← client_complete MODEL_ERROR (str_exn e); mret (inl r))
      : M workflow (RunResult + list message_record));
    match queried return M workflow (RunResult + InteractResponse) with
    | inl r => mret (inl r)
    | inr l =>
        modify (fun w => with_history (history w ++ l) w);;
        except_Exception
          (w ← get;
           sent ← lift_res (convert_all l);
           response ← (match session_id w return M workflow InteractResponse with
                       | Some s => outside (controller_interact s sent)
                       | None => raise TypeError
                       end);
           mret (inr response))
          (fun e => r ← client_complete SERVER_ERROR (str_exn e); mret (inl r))
    end.

(** [fuel] bounds the rounds. *)
(* eval/session/workflow.py:116-166 SampleWorkflow._run *)
Fixpoint interact_loop (fuel : nat) (response : InteractResponse) : M workflow RunResult :=
  match fuel with
  | O => raise RecursionLimit
  | S fuel =>
      r ← interact_round response;
      match r return M workflow RunResult with
      | inl r => mret r
      | inr response => interact_loop fuel response
      end
  end.

(* eval/session/workflow.py:76-166 SampleWorkflow._run *)
Definition run_sample (fuel : nat) : M workflow RunResult :=
  started_with ← (except_Exception (r ← start_with_retry 10; mret (inr r))
    (fun e => r ← client_complete SERVER_ERROR (str_exn e); mret (inl r))
    : M workflow (RunResult + InteractResponse));
  match started_with return M workflow RunResult with
  | inl r => mret r
  | inr response =>
      w ← get;
      (match session_id w return M workflow unit with
       | Some s => outside (started s)
       | None => raise TypeError
       end);;
      if start_sample_only then
        cancel;;
        server_complete {| finish := Some true; reward := Some 1%Q; status := Some COMPLETED;
                           messages := messages response; tools := tools response;
                           metrics := metrics response; result := result response |}
      else interact_loop fuel response
  end.

(** Running out of rounds is not an exception of the code, so it is not
    caught. *)
(* eval/session/workflow.py:54-60 SampleWorkflow.__call__ *)
Definition attempt (fuel : nat) : M workflow RunResult :=
  try_except (run_sample fuel)
    (fun e => if is_Exception e && bool_decide (e ≠ RecursionLimit)
              then Some (client_complete WORKFLOW_ERROR (str_exn e)) else None).

(* eval/session/workflow.py:51-72 SampleWorkflow.__call__ *)
Definition call (fuel : nat) : M workflow RunResult := fun w =>
  let '(w', r) := attempt fuel w in
  let cancelling := match r with Ok r => is_client_error (r_status r) | Raise _ => true end in
  if cancelling then
    match cancel w' with
    | (w'', Ok _) => (w'', r)
    | (w'', Raise e) => (w'', Raise e)
    end
  else (w', r).

(** ** Slices *)

Definition own_slice (m : message) : bool :=
  role_in "system" "developer" m || role_in "assistant" "tool" m.

(** What the slices of a list of messages should be: a message of the system,
    the assistant or a tool alone, and the runs of the others. *)
Fixpoint groups (l : list message) : list (list message) :=
  match l with
  | [] => []
  | m :: l =>
      match groups l with
      | (m' :: g) :: gs =>
          if own_slice m || own_slice m' then [m] :: (m' :: g) :: gs else (m :: m' :: g) :: gs
      | gs => [m] :: gs
      end
  end.

(** The messages from the last system message on. *)
Fixpoint since_system (l : list message) : option (list message) :=
  match l with
  | [] => None
  | m :: l' =>
      match since_system l' with
      | Some s => Some s
      | None => if role_in "system" "developer" m then Some (m :: l') else None
      end
  end.

Lemma groups_concat l : concat (groups l) = l.
Proof.
  induction l as [|m l IH]; [done|]. simpl.
  destruct (groups l) as [|[|m' g] gs] eqn:E; simpl in *; [by subst|by f_equal|].
  case_match; simpl; by rewrite IH.
Qed.

Lemma groups_own m l : own_slice m = true -> groups (m :: l) = [m] :: groups l.
Proof. intros Hm. simpl. rewrite Hm. by destruct (groups l) as [|[|] ?]. Qed.

Lemma groups_cons m c :
  exists g gs, groups (m :: c) = (m :: g) :: gs.
Proof. simpl. destruct (groups c) as [|[|] ?]; [eauto..|]. case_match; eauto. Qed.

Definition open_slice (c : list message) : list (list message) :=
  match c with [] => [] | _ => [c] end.

Lemma groups_open c l :
  Forall (fun m => own_slice m = false) c ->
  match l with [] => True | m :: _ => own_slice m = true end ->
  groups (c ++ l) = open_slice c ++ groups l.
Proof.
  intros Hc Hl. induction Hc as [|m c Hm Hc IH]; [done|]. simpl.
  rewrite IH. destruct Hc as [|m' c Hm' Hc]; simpl.
  - destruct l as [|m' l]; [done|]. destruct (groups_cons m' l) as (g & gs & ->).
    by rewrite Hl, orb_true_r.
  - by rewrite Hm, Hm'.
Qed.

Lemma sl_flush_history s :
  sl_history (sl_flush s) = sl_history s ++ (Slice <$> open_slice (current_slice s)).
Proof.
  destruct s as [h [o|] [|m c]]; unfold sl_flush, sl_append, sl_history; simpl;
    by rewrite ?app_nil_r.
Qed.
Lemma sl_append_history r s : sl_history (sl_append r s) = sl_history s ++ [r].
Proof. by destruct s as [h [o|] c]. Qed.

Lemma slice_message_run m s :
  is_Some (dget "role" m) ->
  Forall (fun m => own_slice m = false) (current_slice s) ->
  exists s', slice_message m s = (s', Ok tt) /\
    Forall (fun m => own_slice m = false) (current_slice s') /\
    if role_in "system" "developer" m
    then sl_history s' = [Slice [m]] /\ current_slice s' = []
    else if own_slice m
    then sl_history s' = sl_history s ++ (Slice <$> open_slice (current_slice s)) ++ [Slice [m]]
         /\ current_slice s' = []
    else sl_history s' = sl_history s /\ current_slice s' = current_slice s ++ [m].
Proof.
  intros [r Hr] Hc. unfold slice_message, own_slice. rewrite Hr.
  destruct (role_in "system" "developer" m) eqn:Hs; [by eexists|].
  destruct (role_in "assistant" "tool" m) eqn:Ha; eexists; (split; [done|]); simpl.
  - split; [constructor|]. split; [|done].
    change (sl_history (sl_append (Slice [m]) (sl_flush s)) =
      sl_history s ++ (Slice <$> open_slice (current_slice s)) ++ [Slice [m]]).
    by rewrite sl_append_history, sl_flush_history, <- app_assoc.
  - split; [|done]. apply Forall_app. split; [done|]. constructor; [|done].
    unfold own_slice. by rewrite Hs, Ha.
Qed.

Lemma slices_run l s :
  Forall (fun m => is_Some (dget "role" m)) l ->
  Forall (fun m => own_slice m = false) (current_slice s) ->
  exists s', for_each l slice_message s = (s', Ok tt) /\
    sl_history (sl_flush s') =
      match since_system l with
      | Some suffix => Slice <$> groups suffix
      | None => sl_history s ++ (Slice <$> groups (current_slice s ++ l))
      end.
Proof.
  intros Hl. revert s. induction Hl as [|m l Hm Hl IH]; intros s Hc.
  { exists s. split; [done|]. rewrite sl_flush_history. simpl.
    by rewrite groups_open, app_nil_r by done. }
  destruct (slice_message_run m s Hm Hc) as (s1 & H1 & Hc1 & Hs1).
  destruct (IH s1 Hc1) as (s2 & H2 & Hs2). exists s2.
  split; [rewrite <- H2; by apply (M_bind_run _ (fun _ => for_each l slice_message) s s1 tt)|].
  rewrite Hs2. simpl. destruct (since_system l) as [x|] eqn:E; [done|].
  destruct (role_in "system" "developer" m) eqn:Hsys.
  { destruct Hs1 as [-> ->]. rewrite groups_own by (unfold own_slice; by rewrite Hsys). done. }
  destruct (own_slice m) eqn:Ho; destruct Hs1 as [-> ->].
  - rewrite (groups_open _ (m :: l)), groups_own, fmap_app, <- !app_assoc by done. done.
  - by rewrite <- app_assoc.
Qed.


(** ** The end of a workflow *)

(** A result names the session the workflow has at that moment. *)
Definition names_session (m : M workflow RunResult) : Prop :=
  forall w w1 r, m w = (w1, Ok r) -> r_session_id r = session_id w1.

Lemma names_bind {A} (m : M workflow A) f :
  (forall a, names_session (f a)) -> names_session (m ≫= f).
Proof. intros Hf w w1 r (a & w2 & _ & H)%M_bind_ok. by eapply Hf. Qed.

Lemma names_raise e : names_session (raise e).
Proof. by intros w w1 r [=]. Qed.

Lemma names_server_complete r : names_session (server_complete r).
Proof.
  intros w w1 x (w2 & w3 & [= -> ->] & (sc & w4 & [= <- _] & H)%M_bind_ok)%M_bind_ok.
  destruct (status r); simplify_eq/=. by injection H as <- <-.
Qed.

Lemma names_client_complete s m : names_session (client_complete s m).
Proof. intros w w1 r [= <- <-]. done. Qed.

Lemma names_try m h :
  names_session m -> (forall e k, h e = Some k -> names_session k) ->
  names_session (try_except m h).
Proof.
  intros Hm Hh w w1 r. unfold try_except. destruct (m w) as [w2 [a|e]] eqn:E.
  - intros [= <- <-]. by eapply Hm.
  - destruct (h e) eqn:He; [by apply (Hh e)|done].
Qed.

(** As [names_session], for a computation that may go on instead. *)
Definition names_left {B} (m : M workflow (RunResult + B)) : Prop :=
  forall w w1 r, m w = (w1, Ok (inl r)) -> r_session_id r = session_id w1.

Lemma left_bind {A B} (m : M workflow A) (f : A -> M workflow (RunResult + B)) :
  (forall a, names_left (f a)) -> names_left (m ≫= f).
Proof. intros Hf w w1 r (a & w2 & _ & H)%M_bind_ok. by eapply Hf. Qed.

Lemma left_of {B} m : names_session m -> names_left (B := B) (r ← m; mret (inl r)).
Proof. intros Hm w w1 r (a & w2 & H & [= <- <-])%M_bind_ok. by eapply Hm. Qed.

Lemma left_inr {B} (b : B) : names_left (mret (inr b)).
Proof. by intros w w1 r [=]. Qed.

Lemma left_inr_bind {A B} (m : M workflow A) (f : A -> B) :
  names_left (r ← m; mret (inr (f r))).
Proof. by intros w w1 r (a & w2 & _ & [=])%M_bind_ok. Qed.

Lemma left_raise {B} e : names_left (B := B) (raise e).
Proof. by intros w w1 r [=]. Qed.

Lemma left_except {B} (m : M workflow (RunResult + B)) h :
  names_left m -> (forall e, names_left (h e)) -> names_left (except_Exception m h).
Proof.
  intros Hm Hh w w1 r. unfold except_Exception, try_except.
  destruct (m w) as [w2 [a|e]] eqn:E.
  - intros [= <- ->]. by eapply Hm.
  - destruct (is_Exception e); [by apply Hh|done].
Qed.

(** A step that ends in a result or goes on. *)
Lemma left_continue {B} (m : M workflow (RunResult + B)) (k : B -> M workflow RunResult) :
  names_left m -> (forall b, names_session (k b)) ->
  names_session (x ← m; match x with inl r => mret r | inr b => k b end).
Proof.
  intros Hm Hk w w1 r ([y|b] & w2 & H & H')%M_bind_ok; [|by eapply Hk].
  injection H' as <- <-. by eapply Hm.
Qed.

Lemma left_left {B C} (m : M workflow (RunResult + B)) (k : B -> M workflow (RunResult + C)) :
  names_left m -> (forall b, names_left (k b)) ->
  names_left (x ← m; match x with inl r => mret (inl r) | inr b => k b end).
Proof.
  intros Hm Hk w w1 r ([y|b] & w2 & H & H')%M_bind_ok; [|by eapply Hk].
  injection H' as <- <-. by eapply Hm.
Qed.

Lemma left_interact_round response : names_left (interact_round response).
Proof.
  apply left_bind; intros _. apply left_bind; intros _.
  case_match; [apply left_of, names_server_complete|].
  apply left_bind; intros w. apply left_left.
  - apply left_except; [|intros; apply left_of, names_client_complete].
    apply left_bind; intros l. apply left_bind; intros _. apply left_inr.
  - intros l. apply left_bind; intros _.
    apply left_except; [|intros; apply left_of, names_client_complete].
    apply left_bind; intros w1. apply left_bind; intros sent. apply left_inr_bind.
Qed.

Lemma names_interact_loop fuel response : names_session (interact_loop fuel response).
Proof.
  revert response. induction fuel as [|fuel IH]; intros response; [apply names_raise|].
  apply (left_continue (interact_round response) (interact_loop fuel)); [|done].
  apply left_interact_round.
Qed.

Lemma names_run_sample fuel : names_session (run_sample fuel).
Proof.
  unfold run_sample. apply left_continue.
  - apply left_except; [apply left_inr_bind|]. intros e. apply left_of, names_client_complete.
  - intros response. apply names_bind; intros w. apply names_bind; intros _.
    case_match; [|apply names_interact_loop].
    apply names_bind; intros _. apply names_server_complete.
Qed.

Lemma cancel_run w :
  match cancel w with
  | (w', Ok _) => session_id w' = None /\
      forall s, session_id w = Some s -> world w' = (post "cancel" (Some s) VNone (world w)).1
  | (_, Raise e) => is_Exception e = false
  end.
Proof.
  unfold cancel. rewrite (M_bind_run get _ w w w) by done.
  destruct (session_id w) as [s|] eqn:Hs; [|done].
  rewrite bind_try. unfold outside, controller_cancel, mbind, M_bind.
  destruct (post "cancel" (Some s) VNone (world w)) as [x [a|e]] eqn:E; simpl.
  - split; [done|]. intros ? [= <-]. by rewrite E.
  - destruct (is_Exception e) eqn:He; [|done]. simpl.
    split; [done|]. intros ? [= <-]. by rewrite E.
Qed.

Lemma names_attempt fuel : names_session (attempt fuel).
Proof.
  apply names_try; [apply names_run_sample|]. intros e k H.
  case_match; simplify_eq. apply names_client_complete.
Qed.

Lemma attempt_raise fuel w w' e :
  attempt fuel w = (w', Raise e) -> e = RecursionLimit \/ is_Exception e = false.
Proof.
  unfold attempt, try_except. destruct (run_sample fuel w) as [w1 [r|e']]; [done|].
  destruct (is_Exception e') eqn:E; simpl; [|by intros [= -> ->]; right].
  destruct (decide (e' = RecursionLimit)) as [->|Hne].
  - rewrite bool_decide_false by tauto. intros [= -> <-]. by left.
  - by rewrite bool_decide_true.
Qed.

(** C11: whatever the controller and the model do, a workflow raises no Exception:
    it returns a result, and when that is a client error its session is forgotten
    and, if the result names one, the last request was the cancellation of that
    session; otherwise the session stays the one the result names. *)
Theorem call_settles fuel w :
  match call fuel w with
  | (w', Ok r) =>
      if is_client_error (r_status r)
      then session_id w' = None /\
           forall s, r_session_id r = Some s ->
             exists x, world w' = (post "cancel" (Some s) VNone x).1
      else session_id w' = r_session_id r
  | (_, Raise e) => e = RecursionLimit \/ is_Exception e = false
  end.
Proof.
  unfold call. pose proof (names_attempt fuel w) as Hn. pose proof (attempt_raise fuel w) as He.
  destruct (attempt fuel w) as [w1 [r|e]].
  - destruct (is_client_error (r_status r)) eqn:Hc; [|by rewrite Hc, (Hn w1 r)].
    pose proof (cancel_run w1) as Hk. destruct (cancel w1) as [w2 [[]|e]]; [|by right].
    rewrite Hc. split; [apply Hk|]. intros s Hs. exists (world w1). apply Hk.
    by rewrite <- Hs, (Hn w1 r).
  - specialize (He w1 e eq_refl). pose proof (cancel_run w1) as Hk.
    destruct (cancel w1) as [w2 [[]|e2]]; [done|by right].
Qed.

(** ** Starting a sample *)

Definition not_status_error (e : exn) : Prop :=
  match e with HTTPStatusError _ => False | _ => True end.

(** Requests do not raise the error of a status on their own: only
    [raise_for_status] does. *)
Definition requests_no_status_error : Prop :=
  forall path sid v, safe (fun _ => True) not_status_error (post path sid v).

Lemma raise_for_status_safe r e : raise_for_status r = Raise e -> not_status_error e.
Proof. unfold raise_for_status. case_bool_decide; simpl; by intros [= <-]. Qed.

Lemma messages_not_empty_safe r e : messages_not_empty r = Raise e -> not_status_error e.
Proof.
  unfold messages_not_empty. intros H. destruct (finish r) as [[]|]; simplify_eq/=;
    destruct (messages r) as [[]|]; by simplify_eq/=.
Qed.

Lemma controller_start_safe :
  requests_no_status_error ->
  safe (fun _ => True) not_status_error (controller_start spec).
Proof.
  intros Hp. unfold controller_start. apply safe_bind; [by repeat case_match|].
  intros request. apply safe_bind; [apply Hp|]. intros response.
  apply safe_bind; [apply safe_lift, raise_for_status_safe|]. intros _.
  apply safe_bind; [by case_match|]. intros sid.
  apply safe_bind; [apply safe_lift, messages_not_empty_safe|]. by intros.
Qed.

Lemma start_once n w x s response :
  controller_start spec (world w) = (x, Ok (s, response)) ->
  start_with_retry (S n) w =
    ({| world := x; session_id := Some s; history := history w; wf_tools := wf_tools w |},
     Ok response).
Proof. intros H. simpl. unfold try_except, outside, mbind, M_bind. by rewrite H. Qed.

(** As long as a request itself raises no HTTPStatusError, the loop of ten
    tries to start a sample makes exactly one: the client of the controller turns
    the error of a status into RuntimeError, which the loop does not catch. *)
Theorem start_not_retried n w :
  requests_no_status_error ->
  start_with_retry (S n) w =
    match controller_start spec (world w) with
    | (x, Ok (s, response)) =>
        ({| world := x; session_id := Some s; history := history w; wf_tools := wf_tools w |},
         Ok response)
    | (x, Raise e) =>
        ({| world := x; session_id := session_id w; history := history w;
            wf_tools := wf_tools w |}, Raise e)
    end.
Proof.
  intros Hp. destruct (controller_start_safe Hp (world w) I) as [_ He].
  destruct (controller_start spec (world w)) as [x [[s r]|e]] eqn:E; [by apply start_once|].
  simpl in *. unfold try_except, outside, mbind, M_bind. rewrite E. by destruct e.
Qed.

Lemma run_sample_started fuel w x y s response :
  start_sample_only = false ->
  controller_start spec (world w) = (x, Ok (s, response)) ->
  started s x = (y, Ok tt) ->
  run_sample fuel w =
    interact_loop fuel response
      {| world := y; session_id := Some s; history := history w; wf_tools := wf_tools w |}.
Proof.
  intros Ho Hs Hst. pose proof (start_once 9 w x s response Hs) as Hrun.
  unfold run_sample, except_Exception.
  rewrite bind_try, (M_bind_run _ _ _ _ _ Hrun). simpl.
  unfold outside, mbind, M_bind. simpl. by rewrite Hst, Ho.
Qed.

(** A finished response without messages: its status and its reward are lost. *)
Lemma finished_without_messages fuel w x y z s response ack :
  start_sample_only = false ->
  controller_start spec (world w) = (x, Ok (s, response)) ->
  started s x = (y, Ok tt) ->
  post "cancel" (Some s) VNone y = (z, Ok ack) ->
  finish response = Some true -> messages response = None ->
  exists r, (call (S fuel) w).2 = Ok r /\
    r_status r = WORKFLOW_ERROR /\ r_reward r = None /\ r_result r = Some (VStr (str_exn TypeError)).
Proof.
  intros Ho Hs Hst Hc Hf Hm.
  assert (Hrun : exists t, run_sample (S fuel) w =
    ({| world := y; session_id := Some s; history := history w; wf_tools := t |}, Raise TypeError)).
  { rewrite (run_sample_started _ _ _ _ _ _ Ho Hs Hst). simpl. unfold interact_round.
    exists (match tools response with Some (t :: l) => t :: l | _ => wf_tools w end).
    rewrite Hm. unfold mbind, M_bind. by destruct (tools response) as [[|]|]. }
  destruct Hrun as [t Hrun]. unfold call, attempt, try_except. rewrite Hrun. simpl.
  unfold cancel, outside, controller_cancel, try_except, mbind, M_bind. simpl. rewrite Hc.
  by eexists.
Qed.
End workflow.

(** ** Examples *)

Module Examples.
(** A controller that starts session 7 with one user message, finishes the
    session at the first interaction with the given messages and acknowledges
    everything else; it logs the paths. *)
Definition msg (role text : string) : message :=
  [("role", VStr role); ("content", VStr text)].

Definition response (fin : bool) (l : option (list message)) : InteractResponse :=
  {| finish := Some fin; reward := Some (1 # 2)%Q; status := if fin then Some COMPLETED else None;
     messages := l; tools := None; metrics := Some [("score", VInt 3); ("steps", VInt 1)];
     result := None |}.

Definition http (code : Z) (r : InteractResponse) : http_response :=
  {| code := code; header_sid := Some 7; body := r |}.

Definition post (last : option (list message)) (path : string) (sid : option Z) (v : val)
    : M (list string) http_response := fun log =>
  (log ++ [path],
   Ok (if bool_decide (path = "start_sample")
       then http 200 (response false (Some [msg "system" "play"; msg "user" "a"; msg "user" "b"]))
       else if bool_decide (path = "interact") then http 200 (response true last)
       else http 204 (response true None))).

Definition query (h : list message_record) (t : list message)
    : M (list string) (list message_record) :=
  fun log => (log ++ ["model"], Ok [FromModel (VStr "move")]).
Definition convert_all (l : list message_record) : res (list message) :=
  Ok (map (fun _ => msg "assistant" "move") l).
Definition started (s : Z) : M (list string) unit := mret tt.
Definition spec : RunSpec :=
  {| sp_model := "m"; sp_run := 0; sp_task := "t"; sp_index := VInt 4; sp_custom_params := [] |}.
Definition fresh : workflow (W := list string) :=
  {| world := []; session_id := None; history := []; wf_tools := [] |}.
Definition run_call (last : option (list message)) :=
  call (post last) query convert_all started (fun s => Ok s) (fun _ => "error") false spec 5 fresh.

(** The dialogue in slices, the score taken out of the metrics; the session is
    not cancelled. *)
Example call_completes :
  exists r, run_call (Some [msg "tool" "won"]) =
    ({| world := ["start_sample"; "model"; "interact"]; session_id := Some 7;
        history := [Slice [msg "system" "play"]; Slice [msg "user" "a"; msg "user" "b"];
                    FromModel (VStr "move"); Slice [msg "tool" "won"]];
        wf_tools := [] |}, Ok r) /\
    r_status r = COMPLETED /\ r_session_id r = Some 7 /\ r_score r = Some (VInt 3) /\
    r_metrics r = Some [("steps", VInt 1)] /\
    length (r_raw_trace r) = 4%nat.
Proof. eexists. split; [vm_compute; reflexivity|]. by repeat split. Qed.

Example call_loses_result :
  exists w r, run_call None = (w, Ok r) /\ r_status r = WORKFLOW_ERROR /\
    r_session_id r = Some 7 /\ session_id w = None /\
    world w = ["start_sample"; "model"; "interact"; "cancel"].
Proof. do 2 eexists. split; [vm_compute; reflexivity|]. by repeat split. Qed.

(** A run that only starts samples cancels the session before it makes the
    result, which then names no session. *)
Example start_only_names_no_session :
  exists w r,
    call (post None) query convert_all started (fun s => Ok s) (fun _ => "error") true spec 5 fresh
      = (w, Ok r) /\ r_status r = COMPLETED /\ r_session_id r = None.
Proof. do 2 eexists. split; [vm_compute; reflexivity|]. by repeat split. Qed.

Lemma post_no_status_error last : requests_no_status_error (post last).
Proof. by intros path sid v log. Qed.


(** A request whose status is 503 is not tried again. *)
Definition post_fail (path : string) (sid : option Z) (v : val) : M (list string) http_response :=
  fun log => (log ++ [path], Ok (http 503 (response false None))).

Lemma start_not_retried_witness :
  start_with_retry post_fail spec 10 fresh =
  ({| world := ["start_sample"]; session_id := None; history := []; wf_tools := [] |},
   Raise (RuntimeError "controller request failed")).
Proof. apply (start_not_retried post_fail spec 9 fresh). by intros path sid v log. Defined.
End Examples.
