(* ===== verification/Convert.v ===== *)
(** * Conversion of messages and tools

    Models eval/convert/_base.py, messages.py and tools.py: the records of
    messages and of tools in the formats of OpenAI's chat completions, OpenAI's
    responses and Anthropic's messages, and the methods that convert between
    them.  A message is a Python value, read the way the code reads it, so a
    missing key raises [KeyError], [get] on something that is no dictionary
    [AttributeError], and so on.  JSON text, the formatting of a value in an
    f-string and the dump of a model object are arguments. *)

From S2P Require Import Prelude PyVal.

(** [json.loads] of a string, [json.dumps] and [str]. *)
Class Json := {
  loads : string -> res val;
  dumps : val -> res string;
  str_of : val -> string
}.

Definition text_part (type : string) (text : val) : val :=
  VDict [("type", VStr type); ("text", text)].

Section convert.
Context `{Json}.

(** [json.loads(v)] *)
Definition loads_v (v : val) : res val :=
  match v with VStr s => loads s | _ => Raise TypeError end.

(** [v or d] *)
Definition or_val (v d : val) : val := if truthy v then v else d.

(** [part.get('type') == 'text' and part.get('text')] *)
Definition is_text_part (part : val) : res bool :=
  t ← vget_or "type" VNone part;
  x ← vget_or "text" VNone part;
  Ok (is_str "text" t && truthy x).

(** [part.get('type') == 'image_url' and part.get('image_url', {}).get('url')],
    which does not look at the image of a part of another type. *)
Definition is_image_part (part : val) : res bool :=
  t ← vget_or "type" VNone part;
  if is_str "image_url" t then
    image ← vget_or "image_url" (VDict []) part;
    url ← vget_or "url" VNone image;
    Ok (truthy url)
  else Ok false.

(** ** From chat completions to responses *)

(* eval/convert/messages.py:78-88 OpenAIChatCompletionInputMessageRecord.to_openai_response_input *)
Definition response_part (part : val) : res (list val) :=
  t ← is_text_part part;
  if (t : bool) then
    text ← vsub "text" part;
    Ok [text_part "input_text" text]
  else
    i ← is_image_part part;
    if (i : bool) then
      image ← vsub "image_url" part;
      url ← vsub "url" image;
      detail ← vget_or "detail" (VStr "auto") image;
      Ok [VDict [("type", VStr "input_image"); ("image_url", url); ("detail", detail)]]
    else Ok [].

(** The same loop builds the output of a tool and the content of a message. *)
(* eval/convert/messages.py:69-114 OpenAIChatCompletionInputMessageRecord.to_openai_response_input *)
Definition response_parts (content : val) : res (list val) :=
  match content with
  | VStr _ => Ok [text_part "input_text" content]
  | _ => match iterable content with
         | Some l => flat_m response_part l
         | None => Ok []
         end
  end.

(** [part['type'] = part['type'].replace('input_', 'output_')], for the two
    types of a part. *)
(* eval/convert/messages.py:115-117 OpenAIChatCompletionInputMessageRecord.to_openai_response_input *)
Definition output_part (part : val) : val :=
  match part with
  | VDict d =>
      match dget "type" d with
      | Some t =>
          if is_str "input_text" t then VDict (dset "type" (VStr "output_text") d)
          else if is_str "input_image" t then VDict (dset "type" (VStr "output_image") d)
          else part
      | None => part
      end
  | _ => part
  end.

(* eval/convert/messages.py:126-131 OpenAIChatCompletionInputMessageRecord.to_openai_response_input *)
Definition response_call (tool_call : val) : res val :=
  id ← vget_or "id" VNone tool_call;
  f ← vget_or "function" (VDict []) tool_call;
  name ← vget_or "name" (VStr "") f;
  arguments ← vget_or "arguments" VNone f;
  Ok (VDict [("type", VStr "function_call"); ("call_id", id); ("name", name);
             ("arguments", or_val arguments (VStr "{}"))]).

(* eval/convert/messages.py:66-133 OpenAIChatCompletionInputMessageRecord.to_openai_response_input *)
Definition response_items (message : val) : res (list val) :=
  role ← vsub "role" message;
  content ← vsub "content" message;
  parts ← response_parts content;
  if is_str "tool" role then
    call_id ← vsub "tool_call_id" message;
    Ok [VDict [("type", VStr "function_call_output"); ("call_id", call_id);
               ("output", VList parts)]]
  else
    let parts := if is_str "assistant" role then output_part <$> parts else parts in
    let item := VDict [("content", VList parts); ("role", role); ("type", VStr "message")] in
    calls ← vget_or "tool_calls" VNone message;
    if truthy calls then
      calls ← iterate calls;
      calls ← map_r response_call calls;
      Ok (item :: calls)
    else Ok [item].

(* eval/convert/messages.py:63-135 OpenAIChatCompletionInputMessageRecord.to_openai_response_input *)
Definition chat_to_response (content : list val) : res (list val) :=
  flat_m response_items content.

(** ** From chat completions to Anthropic's messages *)

Definition media_types : list string := ["image/jpeg"; "image/png"; "image/gif"; "image/webp"].

(* eval/convert/messages.py:167-186 OpenAIChatCompletionInputMessageRecord.to_anthropic_message_input *)
Definition image_block (url : val) : res val :=
  data ← vstartswith "data:" url;
  if (data : bool) then
    match url with
    | VStr s =>
        let media_type := drop_str 5 (match split_first ";" s with Some (a, _) => a | None => s end) in
        if bool_decide (media_type ∈ media_types) then
          match split_first "," s with
          | Some (_, data) =>
              Ok (VDict [("type", VStr "image");
                         ("source", VDict [("type", VStr "base64"); ("media_type", VStr media_type);
                                           ("data", VStr data)])])
          | None => Raise IndexError
          end
        else Raise ConversionError
    | _ => Raise AttributeError
    end
  else Ok (VDict [("type", VStr "image");
                  ("source", VDict [("type", VStr "url"); ("url", url)])]).

(* eval/convert/messages.py:161-186 OpenAIChatCompletionInputMessageRecord.to_anthropic_message_input *)
Definition anthropic_part (part : val) : res (list val) :=
  t ← is_text_part part;
  if (t : bool) then
    text ← vsub "text" part;
    Ok [text_part "text" text]
  else
    i ← is_image_part part;
    if (i : bool) then
      image ← vsub "image_url" part;
      url ← vsub "url" image;
      block ← image_block url;
      Ok [block]
    else Ok [].

(** The same loop builds the content of a tool's result and the blocks of a
    message. *)
(* eval/convert/messages.py:153-225 OpenAIChatCompletionInputMessageRecord.to_anthropic_message_input *)
Definition anthropic_parts (content : val) : res (list val) :=
  match content with
  | VStr _ => Ok [text_part "text" content]
  | _ => match iterable content with
         | Some l => flat_m anthropic_part l
         | None => Ok []
         end
  end.

(* eval/convert/messages.py:227-233 OpenAIChatCompletionInputMessageRecord.to_anthropic_message_input *)
Definition tool_use (tool_call : val) : res val :=
  id ← vget_or "id" VNone tool_call;
  f ← vget_or "function" (VDict []) tool_call;
  name ← vget_or "name" VNone f;
  arguments ← vget_or "arguments" VNone f;
  input ← loads_v (or_val arguments (VStr "{}"));
  Ok (VDict [("type", VStr "tool_use"); ("id", id); ("name", name); ("input", input)]).

(* eval/convert/messages.py:151-233 OpenAIChatCompletionInputMessageRecord.to_anthropic_message_input *)
Definition anthropic_blocks (role message : val) : res (list val) :=
  content ← vsub "content" message;
  parts ← anthropic_parts content;
  if is_str "tool" role then
    id ← vsub "tool_call_id" message;
    Ok [VDict [("type", VStr "tool_result"); ("tool_use_id", id); ("content", VList parts)]]
  else
    calls ← vget_or "tool_calls" VNone message;
    if truthy calls then
      calls ← iterate calls;
      uses ← map_r tool_use calls;
      Ok (parts ++ uses)
    else Ok parts.

(** The loop over the messages, from the role of those before: the role in the
    end and the blocks. *)
(* eval/convert/messages.py:140-233 OpenAIChatCompletionInputMessageRecord.to_anthropic_message_input *)
Fixpoint anthropic_loop (anthropic_role : option string) (content : list val)
    : res (option string * list val) :=
  match content with
  | [] => Ok (anthropic_role, [])
  | message :: rest =>
      role ← vsub "role" message;
      if is_str "system" role || is_str "developer" role then Raise ConversionError
      else
        let new_role := if is_str "assistant" role then "assistant" else "user" in
        if match anthropic_role with
           | None => true
           | Some r => bool_decide (r = new_role)
           end then
          blocks ← anthropic_blocks role message;
          r ← anthropic_loop (Some new_role) rest;
          Ok (r.1, blocks ++ r.2)
        else Raise ConversionError
  end.

(* eval/convert/messages.py:137-241 OpenAIChatCompletionInputMessageRecord.to_anthropic_message_input *)
Definition chat_to_anthropic (content : list val) : res val :=
  r ← anthropic_loop None content;
  match r with
  | (None, _) | (_, []) => Raise ConversionError
  | (Some role, blocks) =>
      Ok (VDict [("role", VStr role); ("content", VList blocks)])
  end.

(* eval/convert/messages.py:256-260 OpenAIChatCompletionInputMessageRecord.to_anthropic_message_system *)
Definition system_part (part : val) : res (list val) :=
  match part with
  | VDict d =>
      if truthy (dget_or "text" VNone d) then
        text ← vsub "text" part;
        Ok [text_part "text" text]
      else Ok []
  | _ => Ok []
  end.

(* eval/convert/messages.py:247-260 OpenAIChatCompletionInputMessageRecord.to_anthropic_message_system *)
Definition system_blocks (message : val) : res (list val) :=
  role ← vsub "role" message;
  if is_str "system" role || is_str "developer" role then
    content ← vsub "content" message;
    match content with
    | VStr _ => Ok [text_part "text" content]
    | _ => match iterable content with
           | Some l => flat_m system_part l
           | None => Ok []
           end
    end
  else Ok [].

(* eval/convert/messages.py:243-264 OpenAIChatCompletionInputMessageRecord.to_anthropic_message_system *)
Definition chat_to_system (content : list val) : res (list val) :=
  result ← flat_m system_blocks content;
  match result with [] => Raise ConversionError | _ => Ok result end.
(** ** From responses to chat completions *)

(** [t == 'input_text' or t == 'output_text' and part.get('text')]: an input
    text is taken even when it is empty. *)
(* eval/convert/messages.py:301-313 OpenAIResponseInputMessageRecord.to_openai_chat_completion_input *)
Definition chat_part (part : val) : res (list val) :=
  t ← vget_or "type" VNone part;
  x ← vget_or "text" VNone part;
  if is_str "input_text" t || is_str "output_text" t && truthy x then
    text ← vsub "text" part;
    Ok [text_part "text" text]
  else
    url ← vget_or "image_url" VNone part;
    if is_str "input_image" t && truthy url then
      detail ← vget_or "detail" (VStr "auto") part;
      Ok [VDict [("type", VStr "image_url");
                 ("image_url", VDict [("url", url); ("detail", detail)])]]
    else Ok [].

(** One text part alone becomes its text. *)
(* eval/convert/messages.py:315-317 OpenAIResponseInputMessageRecord.to_openai_chat_completion_input *)
Definition flatten_parts (parts : list val) : val :=
  match parts with
  | [VDict d] =>
      match dget "type" d, dget "text" d with
      | Some t, Some text => if is_str "text" t then text else VList parts
      | _, _ => VList parts
      end
  | _ => VList parts
  end.

(* eval/convert/messages.py:296-317 OpenAIResponseInputMessageRecord.to_openai_chat_completion_input *)
Definition chat_content (content : val) : res val :=
  match content with
  | VStr _ => Ok content
  | _ => match iterable content with
         | Some l => parts ← flat_m chat_part l; Ok (flatten_parts parts)
         | None => Ok (VList [])
         end
  end.

(** The calls of [pending], which is empty or holds the key tool_calls. *)
Definition pending_items (pending : option (list val)) : list (string * val) :=
  match pending with Some calls => [("tool_calls", VList calls)] | None => [] end.

(** One round: the messages it appends and the calls pending after it. *)
(* eval/convert/messages.py:294-344 OpenAIResponseInputMessageRecord.to_openai_chat_completion_input *)
Definition chat_round (pending : option (list val)) (message : val)
    : res (list (list (string * val)) * option (list val)) :=
  t ← vsub "type" message;
  if is_str "message" t then
    content ← vsub "content" message;
    parts ← chat_content content;
    role ← vsub "role" message;
    Ok ([dupdate [("role", role); ("content", parts)] (pending_items pending)], None)
  else if is_str "function_call_output" t then
    content ← vsub "output" message;
    parts ← chat_content content;
    call_id ← vsub "call_id" message;
    Ok ([[("role", VStr "tool"); ("tool_call_id", call_id); ("content", parts)]], pending)
  else if is_str "function_call" t then
    call_id ← vsub "call_id" message;
    name ← vsub "name" message;
    arguments ← vsub "arguments" message;
    let call := VDict [("id", call_id); ("type", VStr "function");
                       ("function", VDict [("name", name); ("arguments", arguments)])] in
    Ok ([], Some (default [] pending ++ [call]))
  else Ok ([], pending).

(* eval/convert/messages.py:293-344 OpenAIResponseInputMessageRecord.to_openai_chat_completion_input *)
Fixpoint chat_loop (pending : option (list val)) (content : list val)
    : res (list (list (string * val)) * option (list val)) :=
  match content with
  | [] => Ok ([], pending)
  | message :: rest =>
      r ← chat_round pending message;
      r' ← chat_loop r.2 rest;
      Ok (r.1 ++ r'.1, r'.2)
  end.

(** The calls still pending go to the last message, or to a new one after a
    tool's. *)
(* eval/convert/messages.py:346-354 OpenAIResponseInputMessageRecord.to_openai_chat_completion_input *)
Definition attach_pending (result : list (list (string * val))) (pending : option (list val))
    : res (list (list (string * val))) :=
  match pending with
  | None => Ok result
  | Some _ =>
      let items := pending_items pending in
      let alone := [dupdate [("role", VStr "assistant"); ("content", VStr "")] items] in
      match last result with
      | None => Ok (result ++ alone)
      | Some m =>
          role ← vsub "role" (VDict m);
          if is_str "tool" role then Ok (result ++ alone)
          else Ok (take (length result - 1) result ++ [dupdate m items])
      end
  end.

(* eval/convert/messages.py:289-356 OpenAIResponseInputMessageRecord.to_openai_chat_completion_input *)
Definition response_to_chat (content : list val) : res (list val) :=
  r ← chat_loop None content;
  result ← attach_pending r.1 r.2;
  Ok (map VDict result).

(** ** From Anthropic's messages to chat completions *)

(* eval/convert/messages.py:438-455 AnthropicMessageInputMessageRecord.to_openai_chat_completion_input *)
Definition source_part (source : val) : res (list val) :=
  t ← vsub "type" source;
  if is_str "base64" t then
    media_type ← vsub "media_type" source;
    data ← vsub "data" source;
    Ok [VDict [("type", VStr "image_url");
               ("image_url", VDict [("url", VStr ("data:" +:+ str_of media_type +:+ ";base64,"
                                                  +:+ str_of data));
                                    ("detail", VStr "auto")])]]
  else if is_str "url" t then
    url ← vsub "url" source;
    Ok [VDict [("type", VStr "image_url");
               ("image_url", VDict [("url", url); ("detail", VStr "auto")])]]
  else Ok [].

(** The texts and images of a message and of a tool's result. *)
(* eval/convert/messages.py:396-419 AnthropicMessageInputMessageRecord.to_openai_chat_completion_input *)
Definition block_parts (block : val) : res (list val) :=
  t ← vsub "type" block;
  if is_str "text" t then
    text ← vsub "text" block;
    Ok [text_part "text" text]
  else if is_str "image" t then
    source ← vsub "source" block;
    source_part source
  else Ok [].

(** The tool messages, the parts and the calls one block gives. *)
(* eval/convert/messages.py:393-464 AnthropicMessageInputMessageRecord.to_openai_chat_completion_input *)
Definition chat_block (content block : val) : res (list val * list val * list val) :=
  t ← vsub "type" block;
  if is_str "tool_result" t then
    inner ← vsub "content" block;
    inner ← iterate inner;
    parts ← flat_m block_parts inner;
    id ← vsub "tool_use_id" block;
    Ok ([VDict [("role", VStr "tool"); ("tool_call_id", id); ("content", flatten_parts parts)]],
        [], [])
  else if is_str "text" t || is_str "image" t then
    parts ← block_parts block; Ok ([], parts, [])
  else
    role ← vsub "role" content;
    if is_str "assistant" role && is_str "tool_use" t then
      id ← vsub "id" block;
      name ← vsub "name" block;
      input ← vsub "input" block;
      arguments ← dumps input;
      Ok ([], [], [VDict [("id", id); ("type", VStr "function");
                          ("function", VDict [("name", name); ("arguments", VStr arguments)])]])
    else Ok ([], [], []).

(* eval/convert/messages.py:392-464 AnthropicMessageInputMessageRecord.to_openai_chat_completion_input *)
Fixpoint chat_blocks (content : val) (blocks : list val) : res (list val * list val * list val) :=
  match blocks with
  | [] => Ok ([], [], [])
  | block :: rest =>
      '(tools, parts, calls) ← chat_block content block;
      '(tools', parts', calls') ← chat_blocks content rest;
      Ok (tools ++ tools', parts ++ parts', calls ++ calls')
  end.

(* eval/convert/messages.py:387-482 AnthropicMessageInputMessageRecord.to_openai_chat_completion_input *)
Definition anthropic_to_chat (content : val) : res (list val) :=
  blocks ← vsub "content" content;
  blocks ← iterate blocks;
  '(tools, parts, calls) ← chat_blocks content blocks;
  let parts := flatten_parts parts in
  role ← vsub "role" content;
  if is_str "assistant" role then
    let shown := if truthy parts || negb (truthy (VList calls)) then parts else VNone in
    Ok (tools ++ [VDict [("role", VStr "assistant"); ("content", shown);
                         ("tool_calls", VList calls)]])
  else Ok (tools ++ [VDict [("role", VStr "user"); ("content", parts)]]).

(** ** Anthropic's system message *)

(* eval/convert/messages.py:521-531 AnthropicMessageSystemMessageRecord.to_openai_chat_completion_input *)
Definition system_to_chat (content : list val) : res (list val) :=
  parts ← map_r (fun block => text ← vsub "text" block; Ok (text_part "text" text)) content;
  Ok [VDict [("role", VStr "system"); ("content", VList parts)]].

(* eval/convert/messages.py:533-544 AnthropicMessageSystemMessageRecord.to_openai_response_input *)
Definition system_to_response (content : list val) : res (list val) :=
  parts ← map_r (fun block => text ← vsub "text" block; Ok (text_part "input_text" text)) content;
  Ok [VDict [("type", VStr "message"); ("role", VStr "system"); ("content", VList parts)]].
End convert.

(** ** Records *)

(** The objects of the vendors' libraries: the dump of one, and the blocks and
    the role of an Anthropic message. *)
Class Models (Obj : Type) := {
  model_dump : Obj -> val;
  obj_content : Obj -> list Obj;
  obj_role : Obj -> val
}.

(** The classes of records; an output record holds objects. *)
(* eval/convert/messages.py:45-57 MessageRecord *)
Inductive MessageRecord (Obj : Type) : Type :=
| ChatInput (content : list val)
| ChatOutput (content : list Obj)
| ResponseInput (content : list val)
| ResponseOutput (content : list Obj)
| AnthropicInput (content : val)
| AnthropicOutput (content : Obj)
| AnthropicSystem (content : list val).
Arguments ChatInput {Obj} _.
Arguments ChatOutput {Obj} _.
Arguments ResponseInput {Obj} _.
Arguments ResponseOutput {Obj} _.
Arguments AnthropicInput {Obj} _.
Arguments AnthropicOutput {Obj} _.
Arguments AnthropicSystem {Obj} _.

(** The names of the methods, [to_] with the name of a format. *)
Inductive target : Type :=
| OpenaiChatCompletionInput
| OpenaiResponseInput
| AnthropicMessageInput
| AnthropicMessageSystem.

Definition target_name (t : target) : string :=
  match t with
  | OpenaiChatCompletionInput => "to_openai_chat_completion_input"
  | OpenaiResponseInput => "to_openai_response_input"
  | AnthropicMessageInput => "to_anthropic_message_input"
  | AnthropicMessageSystem => "to_anthropic_message_system"
  end.

Section records.
Context `{Json} {Obj : Type} `{Models Obj}.

Definition as_list (r : res (list val)) : res val := l ← r; Ok (VList l).

(* eval/convert/messages.py:270-271 OpenAIChatCompletionOutputMessageRecord.to_openai_chat_completion_input *)
Definition dumped (content : list Obj) : list val := model_dump <$> content.

(* eval/convert/messages.py:502-511 AnthropicMessageOutputMessageRecord.to_anthropic_message_input *)
Definition output_to_input (content : Obj) : val :=
  VDict [("content", VList (dumped (obj_content content))); ("role", obj_role content)].

(* eval/convert/messages.py:60-63 OpenAIChatCompletionInputMessageRecord *)
Definition convert_chat (content : list val) (to : target) : res val :=
  match to with
  | OpenaiChatCompletionInput => Ok (VList content)
  | OpenaiResponseInput => as_list (chat_to_response content)
  | AnthropicMessageInput => chat_to_anthropic content
  | AnthropicMessageSystem => as_list (chat_to_system content)
  end.

(* eval/convert/messages.py:358-362 OpenAIResponseInputMessageRecord *)
Definition convert_response (content : list val) (to : target) : res val :=
  match to with
  | OpenaiChatCompletionInput => as_list (response_to_chat content)
  | OpenaiResponseInput => Ok (VList content)
  | AnthropicMessageInput => Raise NotImplementedError
  | AnthropicMessageSystem => Raise NotImplementedError
  end.

(* eval/convert/messages.py:484-488 AnthropicMessageInputMessageRecord *)
Definition convert_anthropic (content : val) (to : target) : res val :=
  match to with
  | OpenaiChatCompletionInput => as_list (anthropic_to_chat content)
  | OpenaiResponseInput => Raise NotImplementedError
  | AnthropicMessageInput => Ok content
  | AnthropicMessageSystem => Raise ConversionError
  end.

(* eval/convert/messages.py:546-547 AnthropicMessageSystemMessageRecord *)
Definition convert_system (content : list val) (to : target) : res val :=
  match to with
  | OpenaiChatCompletionInput => as_list (system_to_chat content)
  | OpenaiResponseInput => as_list (system_to_response content)
  | AnthropicMessageInput => Raise ConversionError
  | AnthropicMessageSystem => Ok (VList content)
  end.

(** The method of a record: those of an output record go through the input
    record of its dump. *)
(* eval/convert/messages.py:267-283 OpenAIChatCompletionOutputMessageRecord *)
Definition convert (r : MessageRecord Obj) (to : target) : res val :=
  match r with
  | ChatInput content => convert_chat content to
  | ChatOutput content => convert_chat (dumped content) to
  | ResponseInput content => convert_response content to
  | ResponseOutput content => convert_response (dumped content) to
  | AnthropicInput content => convert_anthropic content to
  | AnthropicOutput content => convert_anthropic (output_to_input content) to
  | AnthropicSystem content => convert_system content to
  end.

(** [getattr(item, f'to_{to.replace("-", "_").lower()}')] *)
(* eval/convert/_base.py:48-51 Convertible.convert_all *)
Definition method_of (to : string) : res target :=
  let name := "to_" +:+ lower (replace_char "-" "_" to) in
  match list_find (fun t => target_name t = name)
          [OpenaiChatCompletionInput; OpenaiResponseInput; AnthropicMessageInput;
           AnthropicMessageSystem] with
  | Some (_, t) => Ok t
  | None => Raise AttributeError
  end.

Definition extend (flatten : bool) (result : list val) (converted : val) : list val :=
  match converted with
  | VList l => if flatten then result ++ l else result ++ [converted]
  | _ => result ++ [converted]
  end.

(* eval/convert/_base.py:47-60 Convertible.convert_all *)
Fixpoint convert_loop (items : list (MessageRecord Obj)) (to : string)
    (flatten ignore_errors : bool) (result : list val) : res (list val) :=
  match items with
  | [] => Ok result
  | item :: items =>
      match t ← method_of to; convert item t with
      | Ok converted => convert_loop items to flatten ignore_errors (extend flatten result converted)
      | Raise ConversionError =>
          if ignore_errors then convert_loop items to flatten ignore_errors result
          else Raise ConversionError
      | Raise e => Raise e
      end
  end.

(* eval/convert/_base.py:39-60 Convertible.convert_all *)
Definition convert_all (items : list (MessageRecord Obj)) (to : string)
    (flatten ignore_errors : bool) : res (list val) :=
  match items with
  | [] => Ok []
  | _ => convert_loop items to flatten ignore_errors []
  end.

(** The content of a record as JSON values. *)
(* eval/convert/_base.py:20-21 Convertible.native *)
Definition native (r : MessageRecord Obj) : val :=
  match r with
  | ChatInput content | ResponseInput content | AnthropicSystem content => VList content
  | ChatOutput content | ResponseOutput content => VList (dumped content)
  | AnthropicInput content => content
  | AnthropicOutput content => model_dump content
  end.

(* eval/convert/_base.py:23-37 Convertible.dump_all *)
Definition dump_all (items : list (MessageRecord Obj)) (flatten : bool) : list val :=
  foldl (fun result item => extend flatten result (native item)) [] items.
End records.

(** ** Tools *)

(* eval/convert/tools.py:11-65 FunctionDefinition *)
Inductive FunctionDefinition : Type :=
| ChatTool (content : val)
| ResponseTool (content : val)
| AnthropicTool (content : val).

(** [content.get('description', '')] and the other entries of a tool, from the
    dictionary that holds them. *)
Definition tool_fields (parameters : string) (content : val) : res (val * val * val) :=
  name ← vsub "name" content;
  description ← vget_or "description" (VStr "") content;
  parameters ← vsub parameters content;
  Ok (name, description, parameters).

(* eval/convert/tools.py:45-54 OpenAIResponseFunctionDefinition.to_openai_chat_completion *)
Definition chat_tool (f : val * val * val) : val :=
  let '(name, description, parameters) := f in
  VDict [("type", VStr "function");
         ("function", VDict [("name", name); ("description", description);
                             ("parameters", parameters); ("strict", VBool false)])].

(* eval/convert/tools.py:26-33 OpenAIChatCompletionFunctionDefinition.to_openai_response *)
Definition response_tool (f : val * val * val) : val :=
  let '(name, description, parameters) := f in
  VDict [("name", name); ("parameters", parameters); ("strict", VBool false);
         ("type", VStr "function"); ("description", description)].

(* eval/convert/tools.py:35-41 OpenAIChatCompletionFunctionDefinition.to_anthropic_message *)
Definition anthropic_tool (f : val * val * val) : val :=
  let '(name, description, parameters) := f in
  VDict [("input_schema", parameters); ("name", name); ("description", description);
         ("type", VStr "custom")].

(** The dictionary with the fields of a tool, and the key of its parameters. *)
Definition read_tool (t : FunctionDefinition) : res (val * val * val) :=
  match t with
  | ChatTool content => f ← vsub "function" content; tool_fields "parameters" f
  | ResponseTool content => tool_fields "parameters" content
  | AnthropicTool content => tool_fields "input_schema" content
  end.

(* eval/convert/tools.py:13-80 FunctionDefinition.to_openai_chat_completion *)
Definition to_openai_chat_completion (t : FunctionDefinition) : res val :=
  match t with
  | ChatTool content => Ok content
  | _ => f ← read_tool t; Ok (chat_tool f)
  end.
(* eval/convert/tools.py:16-88 FunctionDefinition.to_openai_response *)
Definition to_openai_response (t : FunctionDefinition) : res val :=
  match t with
  | ResponseTool content => Ok content
  | _ => f ← read_tool t; Ok (response_tool f)
  end.
(* eval/convert/tools.py:19-63 FunctionDefinition.to_anthropic_message *)
Definition to_anthropic_message (t : FunctionDefinition) : res val :=
  match t with
  | AnthropicTool content => Ok content
  | _ => f ← read_tool t; Ok (anthropic_tool f)
  end.

(** ** Types

    What the declared types of the vendors say of a message, and of what the
    conversion to Anthropic's format gives. *)
Section types.
Context `{Json}.

Definition str_entry (k : string) (d : list (string * val)) : Prop :=
  exists s, dget k d = Some (VStr s).
Definition opt_str_entry (k : string) (d : list (string * val)) : Prop :=
  dget k d = None \/ str_entry k d.

(** The URL of an image; a data URL has a comma. *)
Definition url_ok (v : val) : Prop :=
  exists u, v = VStr u /\ (starts_with "data:" u = true -> is_Some (split_first "," u)).
Definition image_ok (v : val) : Prop :=
  exists d u, v = VDict d /\ dget "url" d = Some u /\ url_ok u.

Definition part_ok (p : val) : Prop :=
  exists d, p = VDict d /\ opt_str_entry "text" d /\
    forall v, dget "image_url" d = Some v -> image_ok v.
Definition content_ok (c : val) : Prop :=
  match c with
  | VNone | VStr _ => True
  | VList l => Forall part_ok l
  | _ => False
  end.
Definition call_ok (c : val) : Prop :=
  exists d f a, c = VDict d /\ str_entry "id" d /\ dget "function" d = Some (VDict f) /\
    str_entry "name" f /\ dget "arguments" f = Some (VStr a) /\
    exists v, loads (if bool_decide (a = "") then "{}" else a) = Ok v.

Definition calls_ok (c : option val) : Prop :=
  match c with
  | None | Some VNone => True
  | Some (VList l) => Forall call_ok l
  | _ => False
  end.

Definition chat_ok (m : val) : Prop :=
  exists d c, m = VDict d /\ str_entry "role" d /\ dget "content" d = Some c /\ content_ok c /\
    calls_ok (dget "tool_calls" d) /\
    (dget "role" d = Some (VStr "tool") -> str_entry "tool_call_id" d).

(** A source of an image, and a text or an image. *)
Inductive source_ok : val -> Prop :=
| base64_ok mt data : mt ∈ media_types ->
    source_ok (VDict [("type", VStr "base64"); ("media_type", VStr mt); ("data", VStr data)])
| url_source_ok u : source_ok (VDict [("type", VStr "url"); ("url", VStr u)]).

Inductive shown_ok : val -> Prop :=
| text_ok t : shown_ok (text_part "text" (VStr t))
| image_block_ok src : source_ok src ->
    shown_ok (VDict [("type", VStr "image"); ("source", src)]).

Inductive block_ok : val -> Prop :=
| shown_block_ok b : shown_ok b -> block_ok b
| tool_result_ok id l : Forall shown_ok l ->
    block_ok (VDict [("type", VStr "tool_result"); ("tool_use_id", VStr id); ("content", VList l)])
| tool_use_ok id name input :
    block_ok (VDict [("type", VStr "tool_use"); ("id", VStr id); ("name", VStr name);
                     ("input", input)]).

Definition anthropic_ok (v : val) : Prop :=
  exists role l, v = VDict [("role", VStr role); ("content", VList l)] /\
    (role = "assistant" \/ role = "user") /\ l ≠ [] /\ Forall block_ok l.

#[local] Notation "'typed' P r" := (yields P (eq ConversionError) r)
  (at level 10, P at level 9, r at level 9).

Lemma image_block_typed v : url_ok v -> typed shown_ok (image_block v).
Proof.
  intros (u & -> & Hu). unfold image_block. simpl. destruct (starts_with "data:" u) eqn:E; simpl.
  - case_bool_decide; [|done]. destruct (Hu eq_refl) as [[a b] ->]. by apply image_block_ok, base64_ok.
  - repeat constructor.
Qed.

Lemma anthropic_part_typed p : part_ok p -> typed (Forall shown_ok) (anthropic_part p).
Proof.
  intros (d & -> & Ht & Hi). unfold anthropic_part, is_text_part, is_image_part. simpl.
  unfold dget_or. destruct (is_str "text" _ && truthy _) eqn:E.
  - destruct Ht as [Ht|[t Ht]]; rewrite Ht in *; simpl in *; [by rewrite andb_false_r in E|].
    repeat constructor.
  - destruct (is_str "image_url" _); simpl; [|done].
    destruct (dget "image_url" d) as [v|] eqn:Ev; simpl; [|done].
    destruct (Hi v eq_refl) as (d' & u & -> & Hu & Huok). simpl. unfold dget_or. rewrite Hu. simpl.
    destruct (truthy u); simpl; [|done].
    eapply yields_bind; [by apply image_block_typed|]. intros b Hb. by constructor.
Qed.

Lemma anthropic_parts_typed c : content_ok c -> typed (Forall shown_ok) (anthropic_parts c).
Proof.
  destruct c; simpl; try done; intros Hl; [by repeat constructor|].
  apply yields_flat_m. eapply Forall_impl; [done|]. apply anthropic_part_typed.
Qed.

Lemma tool_use_typed c : call_ok c -> typed block_ok (tool_use c).
Proof.
  intros (d & f & a & -> & [id Hid] & Hf & [name Hn] & Ha & v & Hv).
  unfold tool_use. simpl. unfold dget_or. rewrite Hid, Hf. simpl. unfold dget_or. rewrite Hn, Ha.
  unfold or_val. simpl. case_bool_decide; simpl; rewrite Hv; simpl; apply tool_use_ok.
Qed.

Lemma anthropic_blocks_typed d c role :
  dget "role" d = Some (VStr role) -> dget "content" d = Some c -> content_ok c ->
  calls_ok (dget "tool_calls" d) ->
  (dget "role" d = Some (VStr "tool") -> str_entry "tool_call_id" d) ->
  typed (Forall block_ok) (anthropic_blocks (VStr role) (VDict d)).
Proof.
  intros Hr Hc Hcok Hcalls Hid. unfold anthropic_blocks. cbn [vsub]. rewrite Hc. simpl.
  eapply yields_bind; [by apply anthropic_parts_typed|]. intros parts Hparts.
  case_bool_decide as Htool.
  - subst role. destruct (Hid Hr) as [id ->]. simpl. constructor; [by apply tool_result_ok|done].
  - unfold dget_or. destruct (dget "tool_calls" d) as [calls|]; simpl; [|
      by eapply Forall_impl; [|constructor]].
    destruct calls as [| | | | |l|]; simpl in *; try done; [by eapply Forall_impl; [|apply shown_block_ok]|].
    case_bool_decide; simpl; [by eapply Forall_impl; [|apply shown_block_ok]|].
    eapply yields_bind; [eapply yields_map_r, Forall_impl; [done|apply tool_use_typed]|].
    intros uses Huses. simpl. apply Forall_app. split; [|done].
    by eapply Forall_impl; [|apply shown_block_ok].
Qed.

Lemma anthropic_loop_typed role content :
  Forall chat_ok content -> (forall r, role = Some r -> r = "assistant" \/ r = "user") ->
  typed (fun r => (forall x, r.1 = Some x -> x = "assistant" \/ x = "user") /\ Forall block_ok r.2)
    (anthropic_loop role content).
Proof.
  intros Hl. revert role. induction Hl as [|m l Hm _ IH]; intros role Hrole; [by split|].
  destruct Hm as (d & c & -> & [r Hr] & Hc & Hcok & Hcalls & Hid).
  cbn [anthropic_loop vsub]. rewrite Hr. cbn [mbind res_bind].
  destruct (_ || _); [done|]. destruct (match role with None => _ | Some _ => _ end); [|done].
  eapply yields_bind; [by apply (anthropic_blocks_typed d c r)|]. intros blocks Hb.
  eapply yields_bind; [apply IH|].
  - intros x [= <-]. case_match; auto.
  - intros [r' bs] [H1 H2]. split; [done|]. by apply Forall_app.
Qed.

End types.

(** ** Round trips

    Each relation says which message of one format stands for which of the
    other. *)
Section roundtrip.
Context `{Json} (str_of_str : forall s, str_of (VStr s) = s).

Definition image_part (url detail : val) : val :=
  VDict [("type", VStr "image_url"); ("image_url", VDict [("url", url); ("detail", detail)])].

Inductive same_part : val -> val -> Prop :=
| same_text t : t ≠ "" -> same_part (text_part "text" (VStr t)) (text_part "text" (VStr t))
| same_url u : u ≠ "" -> starts_with "data:" u = false ->
    same_part (image_part (VStr u) (VStr "auto"))
      (VDict [("type", VStr "image"); ("source", VDict [("type", VStr "url"); ("url", VStr u)])])
| same_data mt data : mt ∈ media_types ->
    same_part (image_part (VStr ("data:" +:+ mt +:+ ";base64," +:+ data)) (VStr "auto"))
      (VDict [("type", VStr "image");
              ("source", VDict [("type", VStr "base64"); ("media_type", VStr mt);
                                ("data", VStr data)])]).

(** A list that is not one text alone. *)
Definition no_single_text (l : list val) : Prop :=
  match l with [p] => forall t, p ≠ text_part "text" t | _ => True end.

Inductive same_content : val -> list val -> Prop :=
| same_string s : same_content (VStr s) [text_part "text" (VStr s)]
| same_list l bs : Forall2 same_part l bs -> no_single_text l -> same_content (VList l) bs.

Inductive same_call : val -> val -> Prop :=
| same_tool_use id name a v : a ≠ "" -> loads a = Ok v -> dumps v = Ok a ->
    same_call
      (VDict [("id", id); ("type", VStr "function");
              ("function", VDict [("name", name); ("arguments", VStr a)])])
      (VDict [("type", VStr "tool_use"); ("id", id); ("name", name); ("input", v)]).

(** A chat message, the blocks of the Anthropic message and its role. *)
Inductive same_message : val -> string -> list val -> Prop :=
| same_user c bs : same_content c bs ->
    same_message (VDict [("role", VStr "user"); ("content", c)]) "user" bs
| same_tool id c bs : same_content c bs ->
    same_message (VDict [("role", VStr "tool"); ("tool_call_id", id); ("content", c)]) "user"
      [VDict [("type", VStr "tool_result"); ("tool_use_id", id); ("content", VList bs)]]
| same_assistant c bs calls uses : same_content c bs -> Forall2 same_call calls uses ->
    truthy c = true \/ calls = [] ->
    same_message
      (VDict [("role", VStr "assistant"); ("content", c); ("tool_calls", VList calls)])
      "assistant" (bs ++ uses)
| same_calls calls uses : Forall2 same_call calls uses -> calls ≠ [] ->
    same_message
      (VDict [("role", VStr "assistant"); ("content", VNone); ("tool_calls", VList calls)])
      "assistant" uses.

(** The empty user message that follows the results of tools. *)
Definition trailing (m : val) : list val :=
  match m with
  | VDict d =>
      if match dget "role" d with Some r => is_str "tool" r | None => false end
      then [VDict [("role", VStr "user"); ("content", VList [])]] else []
  | _ => []
  end.

Lemma is_str_nonempty t : t ≠ "" -> truthy (VStr t) = true.
Proof. intros. simpl. by rewrite bool_decide_false. Qed.

Lemma same_part_there p b : same_part p b -> anthropic_part p = Ok [b].
Proof.
  intros [t Ht|u Hu Hd|mt data Hmt]; unfold anthropic_part, is_text_part, is_image_part; simpl.
  - unfold dget_or. simpl. by rewrite bool_decide_false.
  - unfold dget_or. simpl. rewrite (bool_decide_false (u = "")) by done. simpl.
    unfold image_block. simpl. by rewrite Hd.
  - unfold media_types in Hmt. rewrite !elem_of_cons in Hmt.
    destruct Hmt as [->|[->|[->|[->|[]%elem_of_nil]]]]; reflexivity.
Qed.

Lemma same_part_back p b : same_part p b -> block_parts b = Ok [p].
Proof.
  intros [t Ht|u Hu Hd|mt data Hmt]; [done..|]. unfold block_parts, source_part. simpl.
  by rewrite !str_of_str.
Qed.

Lemma flatten_parts_id l : no_single_text l -> Forall (fun p => exists b, same_part p b) l ->
  flatten_parts l = VList l.
Proof.
  destruct l as [|p [|p' l]]; try done; intros Hs Hl.
  - apply Forall_cons in Hl as [[b Hp] _]. revert Hs.
    destruct Hp as [t Ht|u Hu Hd|mt data Hmt]; [|done..].
    intros Hs. exfalso. by apply (Hs (VStr t)).
  - by destruct p.
Qed.

Lemma same_content_there c bs : same_content c bs -> anthropic_parts c = Ok bs.
Proof.
  intros [s|l bs' Hl _]; [done|]. simpl. induction Hl as [|p b l bs' Hp _ IH]; [done|].
  simpl. by rewrite (same_part_there _ _ Hp), IH.
Qed.

Lemma same_content_back c bs : same_content c bs ->
  exists parts, flat_m block_parts bs = Ok parts /\ flatten_parts parts = c /\
    Forall (fun b => exists p, block_parts b = Ok [p] /\
      (vsub "type" b = Ok (VStr "text") \/ vsub "type" b = Ok (VStr "image"))) bs.
Proof.
  intros [s|l bs' Hl Hs].
  - exists [text_part "text" (VStr s)]. split_and!; [done..|].
    constructor; [|done]. exists (text_part "text" (VStr s)). split; [done|by left].
  - exists l. split_and!.
    + clear Hs. induction Hl as [|p b l bs' Hp _ IH]; [done|].
      simpl. by rewrite (same_part_back _ _ Hp), IH.
    + apply flatten_parts_id; [done|]. clear Hs.
      induction Hl; constructor; eauto.
    + clear Hs. induction Hl as [|p b l bs' Hp _ IH]; constructor; [|done].
      exists p. split; [by apply same_part_back|]. destruct Hp; [by left|by right..].
Qed.

Lemma same_calls_there calls uses : Forall2 same_call calls uses -> map_r tool_use calls = Ok uses.
Proof.
  induction 1 as [|c u calls uses [id name a v Ha Hl Hd] _ IH]; [done|].
  simpl. rewrite IH. unfold tool_use. simpl. unfold dget_or. simpl. unfold or_val.
  simpl. rewrite bool_decide_false by done. simpl. by rewrite Hl.
Qed.

Lemma chat_blocks_uses content calls uses :
  vsub "role" content = Ok (VStr "assistant") ->
  Forall2 same_call calls uses -> chat_blocks content uses = Ok ([], [], calls).
Proof.
  intros Hr. induction 1 as [|c u calls uses [id name a v Ha Hl Hd] _ IH]; [done|].
  cbn [chat_blocks]. rewrite IH. unfold chat_block. cbn. rewrite Hr. simpl. by rewrite Hd.
Qed.

Lemma chat_blocks_parts content bs parts rest tools calls :
  Forall (fun b => exists p, block_parts b = Ok [p] /\
    (vsub "type" b = Ok (VStr "text") \/ vsub "type" b = Ok (VStr "image"))) bs ->
  flat_m block_parts bs = Ok parts ->
  chat_blocks content rest = Ok (tools, [], calls) ->
  chat_blocks content (bs ++ rest) = Ok (tools, parts, calls).
Proof.
  intros Hbs. revert parts. induction Hbs as [|b bs (p & Hb & Ht) _ IH]; intros parts Hp Hr.
  { simpl in Hp. by injection Hp as <-. }
  simpl in Hp |- *. rewrite Hb in Hp. simpl in Hp.
  destruct (flat_m block_parts bs) as [ps|]; [|done]. injection Hp as <-.
  rewrite (IH ps eq_refl Hr). unfold chat_block. by destruct Ht as [-> | ->]; simpl; rewrite Hb.
Qed.

Definition anthropic_message (role : string) (blocks : list val) : val :=
  VDict [("role", VStr role); ("content", VList blocks)].

Lemma chat_to_anthropic_one m r role blocks :
  vsub "role" m = Ok (VStr r) -> r ≠ "system" -> r ≠ "developer" ->
  role = (if bool_decide (r = "assistant") then "assistant" else "user") ->
  anthropic_blocks (VStr r) m = Ok blocks -> blocks ≠ [] ->
  chat_to_anthropic [m] = Ok (anthropic_message role blocks).
Proof.
  intros Hr Hs Hd -> Hb Hne. unfold chat_to_anthropic. cbn [anthropic_loop]. rewrite Hr.
  simpl. rewrite !bool_decide_false by done. simpl. rewrite Hb. simpl. rewrite app_nil_r.
  by destruct blocks.
Qed.

Lemma same_there m role blocks :
  same_message m role blocks -> blocks ≠ [] ->
  chat_to_anthropic [m] = Ok (anthropic_message role blocks).
Proof.
  intros [c bs Hc|id c bs Hc|c bs calls uses Hc Hu Ht|calls uses Hu Hn] Hne;
    eapply chat_to_anthropic_one; try done; unfold anthropic_blocks; simpl.
  - by rewrite (same_content_there _ _ Hc).
  - by rewrite (same_content_there _ _ Hc).
  - rewrite (same_content_there _ _ Hc). simpl. unfold dget_or. simpl.
    case_bool_decide as E; simpl.
    + subst. apply Forall2_nil_inv_l in Hu as ->. by rewrite app_nil_r.
    + by rewrite (same_calls_there _ _ Hu).
  - unfold dget_or. simpl. rewrite bool_decide_false by done. simpl.
    by rewrite (same_calls_there _ _ Hu).
Qed.

Lemma same_back m role blocks :
  same_message m role blocks ->
  anthropic_to_chat (anthropic_message role blocks) = Ok (m :: trailing m).
Proof.
  intros [c bs Hc|id c bs Hc|c bs calls uses Hc Hu Ht|calls uses Hu Hn];
    unfold anthropic_to_chat; simpl.
  - destruct (same_content_back _ _ Hc) as (parts & Hp & Hf & Hbs).
    rewrite <- (app_nil_r bs), (chat_blocks_parts _ bs parts [] [] []) by done. simpl. by rewrite Hf.
  - destruct (same_content_back _ _ Hc) as (parts & Hp & Hf & _). unfold chat_block. simpl.
    rewrite Hp. simpl. by rewrite Hf.
  - destruct (same_content_back _ _ Hc) as (parts & Hp & Hf & Hbs).
    rewrite (chat_blocks_parts _ bs parts uses [] calls) by (done || by apply chat_blocks_uses).
    simpl. rewrite Hf.
    destruct Ht as [Ht| ->]; [by rewrite Ht|]. by rewrite orb_true_r.
  - rewrite (chat_blocks_uses _ calls uses) by done. simpl. by rewrite bool_decide_false.
Qed.


(** *** Responses *)

(** A part of a chat message and the part of the response format, [out] for
    the messages of the assistant. *)
Inductive resp_part (out : bool) : val -> val -> Prop :=
| resp_text t : t ≠ "" ->
    resp_part out (text_part "text" (VStr t))
      (text_part (if out then "output_text" else "input_text") (VStr t))
| resp_image u detail : out = false -> truthy u = true ->
    resp_part out (image_part u detail)
      (VDict [("type", VStr "input_image"); ("image_url", u); ("detail", detail)]).

Inductive resp_content (out : bool) : val -> list val -> Prop :=
| resp_string s : s ≠ "" \/ out = false ->
    resp_content out (VStr s) [text_part (if out then "output_text" else "input_text") (VStr s)]
| resp_list l bs : Forall2 (resp_part out) l bs -> no_single_text l ->
    resp_content out (VList l) bs.

Inductive resp_call : val -> val -> Prop :=
| resp_function_call id name a : truthy a = true ->
    resp_call
      (VDict [("id", id); ("type", VStr "function");
              ("function", VDict [("name", name); ("arguments", a)])])
      (VDict [("type", VStr "function_call"); ("call_id", id); ("name", name); ("arguments", a)]).

Definition message_item (role : string) (parts : list val) : val :=
  VDict [("content", VList parts); ("role", VStr role); ("type", VStr "message")].

Inductive resp_message : val -> list val -> Prop :=
| resp_user role c bs : role ≠ "tool" -> resp_content (bool_decide (role = "assistant")) c bs ->
    resp_message (VDict [("role", VStr role); ("content", c)]) [message_item role bs]
| resp_calls role c bs calls items : role ≠ "tool" ->
    resp_content (bool_decide (role = "assistant")) c bs ->
    Forall2 resp_call calls items -> calls ≠ [] ->
    resp_message
      (VDict [("role", VStr role); ("content", c); ("tool_calls", VList calls)])
      (message_item role bs :: items)
| resp_tool id c bs : resp_content false c bs ->
    resp_message (VDict [("role", VStr "tool"); ("tool_call_id", id); ("content", c)])
      [VDict [("type", VStr "function_call_output"); ("call_id", id); ("output", VList bs)]].

Definition shown_as (out : bool) (parts : list val) : list val :=
  if out then output_part <$> parts else parts.

Lemma resp_content_there out c bs : resp_content out c bs ->
  exists parts, response_parts c = Ok parts /\ shown_as out parts = bs.
Proof.
  intros [s _|l bs' Hl _].
  - eexists. split; [done|]. by destruct out.
  - cut (exists parts, flat_m response_part l = Ok parts /\ shown_as out parts = bs'); [done|].
    induction Hl as [|p b l bs' Hp _ IH]; [exists []; by destruct out|].
    destruct IH as (parts & Hparts & Hs). simpl. rewrite Hparts.
    destruct Hp as [t Ht|u detail -> Hu]; unfold response_part, is_text_part, is_image_part; simpl.
    + unfold dget_or. simpl. rewrite bool_decide_false by done. simpl. eexists. split; [done|].
      subst. by destruct out.
    + unfold dget_or. simpl. rewrite Hu. simpl. eexists. split; [done|]. by subst.
Qed.

Lemma resp_content_back out c bs : resp_content out c bs ->
  exists parts, flat_m chat_part bs = Ok parts /\ flatten_parts parts = c.
Proof.
  intros [s Hs|l bs' Hl Hs].
  - exists [text_part "text" (VStr s)]. split; [|done]. unfold chat_part. simpl.
    destruct out; simpl; [|done]. unfold dget_or. simpl.
    destruct Hs as [Hs|]; [|done]. by rewrite bool_decide_false.
  - exists l. split.
    + clear Hs. induction Hl as [|p b l bs' Hp _ IH]; [done|]. simpl. rewrite IH.
      destruct Hp as [t Ht|u detail -> Hu]; unfold chat_part; simpl; unfold dget_or; simpl.
      * destruct out; simpl; by rewrite ?bool_decide_false.
      * by rewrite Hu.
    + destruct Hl as [|p b l bs' Hp [|p' b' l' bs'' _ _]]; try done; [|by destruct p].
      revert Hs.
      destruct Hp as [t Ht|u detail -> Hu]; [|done]. intros Hs. exfalso. by apply (Hs (VStr t)).
Qed.

Lemma resp_calls_there calls items : Forall2 resp_call calls items ->
  map_r response_call calls = Ok items.
Proof.
  induction 1 as [|c i calls items [id name a Ha] _ IH]; [done|].
  simpl. rewrite IH. unfold response_call. simpl. unfold dget_or. simpl. unfold or_val.
  by rewrite Ha.
Qed.

Lemma chat_loop_calls pending calls items : Forall2 resp_call calls items ->
  chat_loop pending items = Ok ([], if decide (calls = []) then pending
                                    else Some (default [] pending ++ calls)).
Proof.
  intros Hl. revert pending. induction Hl as [|c i calls items [id name a Ha] _ IH]; intros pending.
  { done. }
  simpl. rewrite IH. simpl.
  destruct (decide (calls = [])) as [->|]; simpl; by rewrite <- ?app_assoc.
Qed.

Lemma chat_content_list parts bs c :
  flat_m chat_part bs = Ok parts -> flatten_parts parts = c -> chat_content (VList bs) = Ok c.
Proof. intros Hp Hf. simpl. by rewrite Hp; simpl; rewrite Hf. Qed.

Lemma resp_there m items : resp_message m items -> chat_to_response [m] = Ok items.
Proof.
  intros [role c bs Hr Hc|role c bs calls items' Hr Hc Hcalls Hn|id c bs Hc];
    unfold chat_to_response; cbn [flat_m]; unfold response_items; simpl;
    destruct (resp_content_there _ _ _ Hc) as (parts & Hp & Hs); rewrite Hp; simpl.
  - rewrite (bool_decide_false (role = "tool")) by done. unfold dget_or. simpl.
    unfold shown_as in Hs. by rewrite Hs.
  - rewrite (bool_decide_false (role = "tool")) by done. unfold dget_or. simpl.
    rewrite (bool_decide_false (calls = [])) by done. simpl.
    rewrite (resp_calls_there _ _ Hcalls). simpl. rewrite app_nil_r.
    unfold shown_as in Hs. by rewrite Hs.
  - simpl in Hs. by rewrite Hs.
Qed.

Lemma resp_back m items : resp_message m items -> response_to_chat items = Ok [m].
Proof.
  intros [role c bs Hr Hc|role c bs calls items' Hr Hc Hcalls Hn|id c bs Hc];
    unfold response_to_chat; cbn [chat_loop]; unfold chat_round; cbn [vsub];
    destruct (resp_content_back _ _ _ Hc) as (parts & Hp & Hf);
    simpl; rewrite Hp; simpl; rewrite Hf; simpl.
  - done.
  - rewrite (chat_loop_calls None calls items') by done. simpl. rewrite decide_False by done.
    simpl. by rewrite bool_decide_false.
  - done.
Qed.

(** A message in the chat format converts to the items of the responses format
    that say the same, and these back to exactly that message. *)
Theorem response_roundtrip m items :
  resp_message m items ->
  chat_to_response [m] = Ok items /\ response_to_chat items = Ok [m].
Proof. intros Hm. split; [by apply resp_there|by apply resp_back]. Qed.
End roundtrip.

(** Several messages at once: the calls of an assistant message followed by
    another message end up on that message. *)
Example calls_move_to_the_next_message `{Json} :
  let call := VDict [("id", VStr "c"); ("type", VStr "function");
                     ("function", VDict [("name", VStr "f"); ("arguments", VStr "{}")])] in
  let user := VDict [("role", VStr "user"); ("content", VStr "hi")] in
  (items ← chat_to_response
     [VDict [("role", VStr "assistant"); ("content", VStr "a"); ("tool_calls", VList [call])]; user];
   response_to_chat items) =
  Ok [VDict [("role", VStr "assistant"); ("content", VStr "a")];
      VDict [("role", VStr "user"); ("content", VStr "hi"); ("tool_calls", VList [call])]].
Proof. reflexivity. Qed.

(** ** Records and tools *)
Section records_spec.
Context `{Json} {Obj : Type} `{Models Obj}.

Definition run_method (to : string) (r : MessageRecord Obj) : res val :=
  t ← method_of to; convert r t.

Lemma convert_all_nil to flatten ignore :
  convert_all (Obj := Obj) [] to flatten ignore = Ok [].
Proof. done. Qed.

Lemma extend_app flatten a b : extend flatten a b = a ++ extend flatten [] b.
Proof. destruct b; simpl; try done. by destruct flatten. Qed.

Lemma convert_loop_result items to flatten ignore result :
  convert_loop (Obj := Obj) items to flatten ignore result =
    l ← convert_loop items to flatten ignore []; Ok (result ++ l).
Proof.
  revert result. induction items as [|i items IH]; intros result; simpl; [by rewrite app_nil_r|].
  destruct (t ← method_of to; convert i t) as [v|e].
  - rewrite IH, (IH (extend flatten [] v)), extend_app.
    destruct (convert_loop items _ _ _ []); simpl; [|done]. by rewrite app_assoc.
  - destruct e; try done. destruct ignore; [apply IH|done].
Qed.

Lemma convert_all_loop items to flatten ignore :
  convert_all (Obj := Obj) items to flatten ignore = convert_loop items to flatten ignore [].
Proof. by destruct items. Qed.

Lemma convert_all_cons r items to flatten ignore :
  convert_all (r :: items) to flatten ignore =
    match run_method to r with
    | Ok v => l ← convert_all items to flatten ignore; Ok (extend flatten [] v ++ l)
    | Raise ConversionError =>
        if ignore then convert_all items to flatten ignore else Raise ConversionError
    | Raise e => Raise e
    end.
Proof.
  rewrite !convert_all_loop. simpl. fold (run_method to r).
  destruct (run_method to r) as [v|e]; [apply convert_loop_result|]. by destruct e.
Qed.

Definition unconvertible (to : string) (r : MessageRecord Obj) : bool :=
  match run_method to r with Raise ConversionError => true | _ => false end.

(** The conversion of a list is the concatenation of the conversions of its
    items; ignoring errors leaves out those that cannot be converted. *)
Theorem convert_all_correct items to flatten :
  convert_all items to flatten false =
    (l ← map_r (run_method to) items; Ok (l ≫= extend flatten [])) /\
  convert_all items to flatten true =
    convert_all (filter (fun r => unconvertible to r = false) items) to flatten false.
Proof.
  split; induction items as [|r items IH]; try done;
    rewrite convert_all_cons.
  - simpl. destruct (run_method to r) as [v|e]; [|by destruct e]. simpl. rewrite IH.
    by destruct (map_r (run_method to) items).
  - rewrite filter_cons.
    destruct (decide (unconvertible to r = false)) as [Hu|Hu];
      rewrite ?convert_all_cons; unfold unconvertible in Hu;
      destruct (run_method to r) as [v|e]; try destruct e; simpl; try done; by rewrite IH.
Qed.
End records_spec.

(** The kinds of tools, with the conversion to each and the tool of each from
    the three fields. *)
Inductive tool_kind : Type := ChatKind | ResponseKind | AnthropicKind.

Definition make_tool (k : tool_kind) : val -> FunctionDefinition :=
  match k with ChatKind => ChatTool | ResponseKind => ResponseTool | AnthropicKind => AnthropicTool end.
Definition to_kind (k : tool_kind) : FunctionDefinition -> res val :=
  match k with
  | ChatKind => to_openai_chat_completion
  | ResponseKind => to_openai_response
  | AnthropicKind => to_anthropic_message
  end.
Definition render (k : tool_kind) : val * val * val -> val :=
  match k with ChatKind => chat_tool | ResponseKind => response_tool | AnthropicKind => anthropic_tool end.

Lemma read_render k f : read_tool (make_tool k (render k f)) = Ok f.
Proof. by destruct k, f as [[name description] parameters]. Qed.

(** A tool that is read keeps its function through any format. *)
Theorem tools_path_independent t f v j k :
  read_tool t = Ok f -> to_kind j t = Ok v ->
  read_tool (make_tool j v) = Ok f /\
  (j ≠ k -> to_kind k (make_tool j v) = Ok (render k f)).
Proof.
  intros Hf Hv.
  assert (Hread : read_tool (make_tool j v) = Ok f).
  { destruct j, t; simpl in Hv; simplify_eq; try done;
      unfold read_tool in Hf; rewrite Hf in Hv; simplify_eq/=; by destruct f as [[??]?]. }
  split; [done|]. intros Hjk. destruct j, k; try done; simpl in *; by rewrite Hread.
Qed.

(** ** Examples *)
Module Examples.
(** JSON text as far as the examples need it. *)
#[local] Instance json : Json := {|
  loads := fun s => if bool_decide (s = "{}") then Ok (VDict []) else Raise ValueError;
  dumps := fun v => match v with VDict [] => Ok "{}" | _ => Raise TypeError end;
  str_of := fun v => match v with VStr s => s | _ => "" end
|}.

Definition call : val :=
  VDict [("id", VStr "c1"); ("type", VStr "function");
         ("function", VDict [("name", VStr "move"); ("arguments", VStr "{}")])].
Definition use : val :=
  VDict [("type", VStr "tool_use"); ("id", VStr "c1"); ("name", VStr "move"); ("input", VDict [])].
Definition picture : string := "data:image/png;base64,AAAA".
Definition parts : list val :=
  [text_part "text" (VStr "look"); image_part (VStr picture) (VStr "auto")].
Definition assistant : val :=
  VDict [("role", VStr "assistant"); ("content", VList parts); ("tool_calls", VList [call])].
Definition blocks : list val :=
  [text_part "text" (VStr "look");
   VDict [("type", VStr "image");
          ("source", VDict [("type", VStr "base64"); ("media_type", VStr "image/png");
                            ("data", VStr "AAAA")])]].

Lemma parts_same : same_content (VList parts) blocks.
Proof.
  apply same_list; [|done].
  apply Forall2_cons; split; [by apply same_text|].
  apply Forall2_cons; split; [|constructor].
  apply (same_data "image/png" "AAAA"). unfold media_types. set_solver.
Defined.


Lemma response_roundtrip_witness :
  let item := message_item "assistant" [text_part "output_text" (VStr "go")] in
  let fc := VDict [("type", VStr "function_call"); ("call_id", VStr "c1"); ("name", VStr "move");
                   ("arguments", VStr "{}")] in
  let m := VDict [("role", VStr "assistant"); ("content", VStr "go"); ("tool_calls", VList [call])] in
  chat_to_response [m] = Ok [item; fc] /\ response_to_chat [item; fc] = Ok [m].
Proof.
  apply response_roundtrip. apply resp_calls; [done| | |done].
  - apply (resp_string true "go"). by left.
  - apply Forall2_cons; split; [|constructor]. by apply resp_function_call.
Defined.


Lemma tools_path_independent_witness :
  to_anthropic_message (ResponseTool (response_tool (VStr "f", VStr "", VDict []))) =
  Ok (anthropic_tool (VStr "f", VStr "", VDict [])).
Proof.
  refine (proj2 (tools_path_independent
    (ChatTool (VDict [("function", VDict [("name", VStr "f"); ("parameters", VDict [])])]))
    (VStr "f", VStr "", VDict []) (response_tool (VStr "f", VStr "", VDict []))
    ResponseKind AnthropicKind _ _) _); done.
Defined.
End Examples.
