(* ===== verification/DataUrl.v ===== *)
(** * Data URLs

    Models eval/utils/data_url.py: parsing and building of data URLs, and the
    two walks over a value that move the payloads of its data URLs to files and
    back.  Base64 and percent decoding are those of Python's standard library;
    bytes are strings of 8-bit characters.  The hash of a payload and the
    guesses of the module mimetypes are arguments; a directory is a map from the
    names of its files to their bytes. *)

From S2P Require Import Prelude PyVal.

(** ** Base64 *)

Definition alphabet : string :=
  "ABCDEFGHIJKLMNOPQRSTUVWXYZabcdefghijklmnopqrstuvwxyz0123456789+/".

Definition byte (c : ascii) : Z := Z.of_N (N_of_ascii c).
Definition of_byte (n : Z) : ascii := ascii_of_N (Z.to_N n).

Definition b64_char (n : Z) : ascii := default "="%char (chars alphabet !! Z.to_nat n).
Definition b64_val (c : ascii) : option Z :=
  match list_find (fun x => x = c) (chars alphabet) with
  | Some (i, _) => Some (Z.of_nat i)
  | None => None
  end.

Fixpoint b64_encode (l : list ascii) : list ascii :=
  match l with
  | a :: b :: c :: l =>
      b64_char (byte a / 4) :: b64_char (byte a mod 4 * 16 + byte b / 16) ::
      b64_char (byte b mod 16 * 4 + byte c / 64) :: b64_char (byte c mod 64) :: b64_encode l
  | [a; b] =>
      [b64_char (byte a / 4); b64_char (byte a mod 4 * 16 + byte b / 16);
       b64_char (byte b mod 16 * 4); "="%char]
  | [a] => [b64_char (byte a / 4); b64_char (byte a mod 4 * 16); "="%char; "="%char]
  | [] => []
  end.

(** The decoder that is not strict: the place in the quadruple, the bits left
    over and the pads seen; characters outside of the alphabet are skipped and
    what follows the padding is ignored. *)
Fixpoint b64_decode (pos left pads : Z) (l : list ascii) : option (list ascii) :=
  match l with
  | [] => if bool_decide (pos = 0) then Some [] else None
  | c :: l =>
      if bool_decide (c = "="%char) then
        if bool_decide (2 ≤ pos) then
          if bool_decide (4 ≤ pos + (pads + 1)) then Some [] else b64_decode pos left (pads + 1) l
        else b64_decode pos left pads l
      else
        match b64_val c with
        | None => b64_decode pos left pads l
        | Some v =>
            if bool_decide (pos = 0) then b64_decode 1 v 0 l
            else if bool_decide (pos = 1) then
              r ← b64_decode 2 (v mod 16) 0 l; Some (of_byte (left * 4 + v / 16) :: r)
            else if bool_decide (pos = 2) then
              r ← b64_decode 3 (v mod 4) 0 l; Some (of_byte (left * 16 + v / 4) :: r)
            else r ← b64_decode 0 0 0 l; Some (of_byte (left * 64 + v) :: r)
        end
  end.

Definition b64encode (payload : string) : string := of_chars (b64_encode (chars payload)).
Definition b64decode (text : string) : option string := of_chars <$> b64_decode 0 0 0 (chars text).

(** ** Percent decoding *)
Definition hex_val (c : ascii) : option Z :=
  let n := byte c in
  if bool_decide (48 ≤ n ≤ 57) then Some (n - 48)
  else if bool_decide (65 ≤ n ≤ 70) then Some (n - 55)
  else if bool_decide (97 ≤ n ≤ 102) then Some (n - 87)
  else None.

Fixpoint unquote (l : list ascii) : list ascii :=
  match l with
  | "%"%char :: (a :: b :: r) as l' =>
      match hex_val a, hex_val b with
      | Some x, Some y => of_byte (16 * x + y) :: unquote r
      | _, _ => "%"%char :: unquote l'
      end
  | c :: l' => c :: unquote l'
  | [] => []
  end.
Definition unquote_to_bytes (text : string) : string := of_chars (unquote (chars text)).

(** ** Parsing and building *)

Record parsed := { mime : string; params : list string; payload : string; is_base64 : bool }.

Definition names_base64 (p : string) : bool := bool_decide (lower (strip p) = "base64").

(* eval/utils/data_url.py:47-57 DataUrlUtil.parse *)
Definition parse_meta (meta : string) : string * list string :=
  let parts := filter (fun p => p ≠ "") (strip <$> split_on ";" meta) in
  match parts with
  | p :: ps => if bool_decide ("/"%char ∈ chars p) then (lower p, ps) else ("text/plain", parts)
  | [] => ("text/plain", [])
  end.

(* eval/utils/data_url.py:37-65 DataUrlUtil.parse *)
Definition parse (value : val) : option parsed :=
  match value with
  | VStr s =>
      if starts_with "data:" s then
        '(header, data_part) ← split_first "," s;
        let '(mime, params) := parse_meta (drop_str 5 header) in
        let is_base64 := existsb names_base64 params in
        payload ← if is_base64 then b64decode data_part else Some (unquote_to_bytes data_part);
        Some {| mime := mime; params := params; payload := payload; is_base64 := is_base64 |}
      else None
  | _ => None
  end.

(* eval/utils/data_url.py:67-83 DataUrlUtil.build *)
Definition build (mime payload : string) (params : list string) : string :=
  let extras := filter (fun p => names_base64 p = false) params ++ ["base64"] in
  let param_section := join ";" extras in
  let mime := lower mime in
  let header :=
    if bool_decide (mime ≠ "") && bool_decide (param_section ≠ "") then mime +:+ ";" +:+ param_section
    else if bool_decide (mime ≠ "") then mime
    else if bool_decide (param_section ≠ "") then ";" +:+ param_section
    else "" in
  "data:" +:+ header +:+ "," +:+ b64encode payload.

(* eval/utils/data_url.py:85-97 DataUrlUtil.scrub *)
Fixpoint scrub (x : val) : val :=
  match x with
  | VStr s =>
      if starts_with "data:" s
      then VStr ("[" +:+ str_Z (Z.of_nat (String.length s)) +:+ " bytes data url]") else x
  | VDict d => VDict (map (fun kv => (kv.1, scrub kv.2)) d)
  | VList l => VList (map scrub l)
  | _ => x
  end.

(** ** Files *)

(* eval/utils/data_url.py:19-32 _EXT *)
Definition EXT : list (string * string) :=
  [("image/jpeg", ".jpg"); ("image/jpg", ".jpg"); ("image/png", ".png"); ("image/gif", ".gif");
   ("image/webp", ".webp"); ("image/svg+xml", ".svg"); ("application/json", ".json");
   ("text/plain", ".txt"); ("application/pdf", ".pdf"); ("audio/mpeg", ".mp3");
   ("audio/wav", ".wav"); ("video/mp4", ".mp4")].

(** [f'{n:03d}'] *)
Definition zeros (width : nat) (s : string) : string :=
  of_chars (replicate (width - String.length s) "0"%char ++ chars s).
Definition pad3 (n : Z) : string :=
  if bool_decide (n < 0) then "-" +:+ zeros 2 (str_Z (- n)) else zeros 3 (str_Z n).

(** One or more of the characters a file name may end with. *)
Definition name_char (c : ascii) : bool :=
  let n := byte c in
  bool_decide (48 ≤ n ≤ 57) || bool_decide (65 ≤ n ≤ 90) || bool_decide (97 ≤ n ≤ 122)
  || bool_decide (c ∈ ["."%char; "_"%char; "+"%char; "-"%char]).

(** The text before [$], which also matches before a last line feed. *)
Definition chomp (l : list ascii) : list ascii :=
  match last l with
  | Some c => if bool_decide (c = "010"%char) then take (length l - 1) l else l
  | None => l
  end.

Fixpoint span (p : ascii -> bool) (l : list ascii) : list ascii * list ascii :=
  match l with
  | c :: l' => if p c then let '(a, b) := span p l' in (c :: a, b) else ([], l)
  | [] => ([], [])
  end.

(* eval/utils/data_url.py:18-18 _FILENAME_REGEX *)
Definition filename_regex (s : string) : bool :=
  match span is_digit (chomp (chars s)) with
  | (digits, "."%char :: rest) =>
      bool_decide (3 ≤ length digits)%nat && bool_decide (rest ≠ []) && forallb name_char rest
  | _ => false
  end.

Section files.
(** [sha256(payload).hexdigest()], [guess_extension(mime)] and the type
    [guess_file_type('x' + ext)] gives. *)
Context (sha256 : string -> string)
  (guess_extension : string -> option string) (guess_file_type : string -> option string).

(** The files of the directory, the dictionary [seen] and the next number. *)
Record extraction := {
  files : gmap string string;
  seen : list (string * string);
  idx : Z
}.

(** [a or b] for a string or [None] *)
Definition or_str (a : option string) (b : string) : string :=
  match a with Some s => if bool_decide (s = "") then b else s | None => b end.

(* eval/utils/data_url.py:114-116 DataUrlUtil.extract.mime_to_ext *)
Definition mime_to_ext (mime : string) : string :=
  let ext := or_str (dget mime EXT) (or_str (guess_extension mime) ".bin") in
  if bool_decide (ext = ".jpe") then ".jpg" else ext.

(* eval/utils/data_url.py:118-128 DataUrlUtil.extract.ensure_file *)
Definition ensure_file (mime payload : string) : M extraction string := fun s =>
  let h := sha256 payload in
  let found := or_str (dget h (seen s)) "" in
  if bool_decide (found = "") then
    let name := pad3 (idx s) +:+ mime_to_ext mime in
    ({| files := <[name := payload]> (files s); seen := dset h name (seen s); idx := idx s + 1 |},
     Ok name)
  else (s, Ok found).

(* eval/utils/data_url.py:130-142 DataUrlUtil.extract.walk *)
Fixpoint extract_walk (o : val) : M extraction val :=
  match o with
  | VStr _ =>
      match parse o with
      | Some p => name ← ensure_file (mime p) (payload p); mret (VStr name)
      | None => mret o
      end
  | VDict d => d ← map_m (fun kv => x ← extract_walk kv.2; mret (kv.1, x)) d; mret (VDict d)
  | VList l => l ← map_m extract_walk l; mret (VList l)
  | _ => mret o
  end.

(** [seen = _seen or {}]: an empty dictionary of the caller is not the one that
    is filled. *)
(* eval/utils/data_url.py:99-145 DataUrlUtil.extract *)
Definition extract (obj : val) (start_index : Z) (fs : gmap string string)
    (caller_seen : list (string * string))
    : gmap string string * list (string * string) * res (val * Z) :=
  let '(s, r) := extract_walk obj {| files := fs; seen := caller_seen; idx := start_index |} in
  (files s, match caller_seen with [] => [] | _ => seen s end, x ← r; Ok (x, idx s)).

(** The text after the last dot, [None] when there is none. *)
Definition after_dot (name : string) : option string := last (split_on "." name).

(* eval/utils/data_url.py:158-165 DataUrlUtil.rebuild.ext_to_mime *)
Definition ext_to_mime (name : string) : string :=
  let ext := if bool_decide ("."%char ∈ chars name)
             then "." +:+ lower (default "" (after_dot name)) else "" in
  match list_find (fun me => me.2 = ext) EXT with
  | Some (_, (m, _)) => m
  | None => lower (or_str (guess_file_type ext) "application/octet-stream")
  end.

(* eval/utils/data_url.py:167-173 DataUrlUtil.rebuild.to_data_url *)
Definition to_data_url (strict : bool) (fs : gmap string string) (name : string) : res string :=
  match fs !! name with
  | None => if strict then Raise KeyError else Ok name
  | Some bytes => Ok (build (ext_to_mime name) bytes [])
  end.

(* eval/utils/data_url.py:147-188 DataUrlUtil.rebuild *)
Fixpoint rebuild (strict : bool) (fs : gmap string string) (o : val) : res val :=
  match o with
  | VStr s => if filename_regex s then u ← to_data_url strict fs s; Ok (VStr u) else Ok o
  | VDict d => d ← map_r (fun kv => x ← rebuild strict fs kv.2; Ok (kv.1, x)) d; Ok (VDict d)
  | VList l => l ← map_r (rebuild strict fs) l; Ok (VList l)
  | _ => Ok o
  end.
End files.

(** ** Base64 decodes what it encodes *)

Lemma byte_range c : 0 <= byte c < 256.
Proof. unfold byte. pose proof (N_ascii_bounded c). lia. Qed.

Lemma of_byte_byte c : of_byte (byte c) = c.
Proof. unfold of_byte, byte. rewrite N2Z.id. apply ascii_N_embedding. Qed.

Lemma sextets :
  forallb (fun n => bool_decide (b64_val (b64_char (Z.of_nat n)) = Some (Z.of_nat n)) &&
                    bool_decide (b64_char (Z.of_nat n) ≠ "="%char)) (seq 0 64) = true.
Proof. by vm_compute. Qed.

Lemma b64_val_char n : 0 <= n < 64 ->
  b64_val (b64_char n) = Some n ∧ b64_char n ≠ "="%char.
Proof.
  intros Hn. pose proof (proj1 (forallb_forall _ _) sextets (Z.to_nat n)) as H.
  cbv beta in H. rewrite Z2Nat.id, andb_true_iff, !bool_decide_eq_true in H by lia.
  apply H, in_seq. lia.
Qed.

(** One character of the alphabet is read. *)
Lemma b64_decode_char pos left pads n l : 0 <= n < 64 ->
  b64_decode pos left pads (b64_char n :: l) =
    if bool_decide (pos = 0) then b64_decode 1 n 0 l
    else if bool_decide (pos = 1) then
      r ← b64_decode 2 (n mod 16) 0 l; Some (of_byte (left * 4 + n / 16) :: r)
    else if bool_decide (pos = 2) then
      r ← b64_decode 3 (n mod 4) 0 l; Some (of_byte (left * 16 + n / 4) :: r)
    else r ← b64_decode 0 0 0 l; Some (of_byte (left * 64 + n) :: r).
Proof.
  intros Hn. destruct (b64_val_char n Hn) as [Hv Hne]. cbn [b64_decode].
  by rewrite (bool_decide_false (_ = "="%char)), Hv.
Qed.

Ltac sextet := match goal with
  | |- 0 <= byte ?a / 4 < 64 => pose proof (byte_range a)
  | |- 0 <= byte ?a mod _ * _ + byte ?b / _ < 64 => pose proof (byte_range a); pose proof (byte_range b)
  | |- 0 <= byte ?a mod _ * _ < 64 => pose proof (byte_range a)
  | |- 0 <= byte ?a mod 64 < 64 => pose proof (byte_range a)
  end; Z.div_mod_to_equations; lia.

Lemma byte_1 a b : (byte a / 4) * 4 + (byte a mod 4 * 16 + byte b / 16) / 16 = byte a.
Proof. pose proof (byte_range a); pose proof (byte_range b). Z.div_mod_to_equations. lia. Qed.
Lemma byte_2 a b c : (byte a mod 4 * 16 + byte b / 16) mod 16 * 16
  + (byte b mod 16 * 4 + byte c / 64) / 4 = byte b.
Proof.
  pose proof (byte_range a); pose proof (byte_range b); pose proof (byte_range c).
  Z.div_mod_to_equations. lia.
Qed.
Lemma byte_3 b c : (byte b mod 16 * 4 + byte c / 64) mod 4 * 64 + byte c mod 64 = byte c.
Proof. pose proof (byte_range b); pose proof (byte_range c). Z.div_mod_to_equations. lia. Qed.
Lemma byte_1_end a : (byte a / 4) * 4 + (byte a mod 4 * 16) / 16 = byte a.
Proof. pose proof (byte_range a). Z.div_mod_to_equations. lia. Qed.
Lemma byte_2_end a b : (byte a mod 4 * 16 + byte b / 16) mod 16 * 16
  + (byte b mod 16 * 4) / 4 = byte b.
Proof. pose proof (byte_range a); pose proof (byte_range b). Z.div_mod_to_equations. lia. Qed.

Lemma decode_0 left pads n l : 0 <= n < 64 ->
  b64_decode 0 left pads (b64_char n :: l) = b64_decode 1 n 0 l.
Proof. intros. by rewrite b64_decode_char. Qed.
Lemma decode_1 left pads n l : 0 <= n < 64 ->
  b64_decode 1 left pads (b64_char n :: l) =
    r ← b64_decode 2 (n mod 16) 0 l; Some (of_byte (left * 4 + n / 16) :: r).
Proof. intros. by rewrite b64_decode_char. Qed.
Lemma decode_2 left pads n l : 0 <= n < 64 ->
  b64_decode 2 left pads (b64_char n :: l) =
    r ← b64_decode 3 (n mod 4) 0 l; Some (of_byte (left * 16 + n / 4) :: r).
Proof. intros. by rewrite b64_decode_char. Qed.
Lemma decode_3 left pads n l : 0 <= n < 64 ->
  b64_decode 3 left pads (b64_char n :: l) =
    r ← b64_decode 0 0 0 l; Some (of_byte (left * 64 + n) :: r).
Proof. intros. by rewrite b64_decode_char. Qed.

Lemma pads_2 left : b64_decode 2 left 0 ["="%char; "="%char] = Some [].
Proof. done. Qed.
Lemma pads_1 left : b64_decode 3 left 0 ["="%char] = Some [].
Proof. done. Qed.

Lemma b64_decode_encode l : b64_decode 0 0 0 (b64_encode l) = Some l.
Proof.
  induction l as [l IH] using (induction_ltof1 _ length). unfold ltof in IH.
  destruct l as [|a [|b [|c l]]]; [done|..]; cbn [b64_encode].
  - rewrite decode_0, decode_1, pads_2 by sextet. cbn -[Z.div Z.modulo Z.mul Z.add of_byte].
    by rewrite byte_1_end, of_byte_byte.
  - rewrite decode_0, decode_1, decode_2, pads_1 by sextet.
    cbn -[Z.div Z.modulo Z.mul Z.add of_byte].
    by rewrite byte_1, byte_2_end, !of_byte_byte.
  - rewrite decode_0, decode_1, decode_2, decode_3, IH by (sextet || (simpl; lia)).
    cbn -[Z.div Z.modulo Z.mul Z.add of_byte].
    by rewrite byte_1, byte_2, byte_3, !of_byte_byte.
Qed.

Lemma b64_roundtrip payload : b64decode (b64encode payload) = Some payload.
Proof.
  unfold b64decode, b64encode. rewrite chars_of_chars, b64_decode_encode. simpl.
  by rewrite String.string_of_list_ascii_of_string.
Qed.

(** ** What is built is parsed *)

Lemma split_chars_first c a b : c ∉ a -> split_chars c (a ++ c :: b) = a :: split_chars c b.
Proof.
  induction a as [|x a IH]; simpl; [by rewrite bool_decide_true|].
  rewrite not_elem_of_cons. intros [Hx Ha]. rewrite bool_decide_false by congruence.
  by rewrite IH.
Qed.


Lemma split_on_join c l : l ≠ [] -> Forall (no_char c) l ->
  split_on c (join (String c "") l) = l.
Proof.
  intros Hne Hl. unfold split_on.
  induction Hl as [|x l Hx Hl IH]; [done|]. destruct l as [|y l].
  - simpl. rewrite split_chars_none by done. simpl. by rewrite of_chars_chars.
  - change (join (String c "") (x :: y :: l)) with (x +:+ (String c "" +:+ join (String c "") (y :: l))).
    rewrite !chars_app. change (chars (String c "")) with [c]. cbn [app].
    rewrite split_chars_first by done. rewrite fmap_cons, IH, of_chars_chars by done. done.
Qed.

Lemma split_first_app c a b : no_char c a -> split_first c (a +:+ String c b) = Some (a, b).
Proof.
  unfold no_char. induction a as [|x a IH]; simpl; [by rewrite bool_decide_true|].
  intros H. apply not_elem_of_cons in H as [Hx Ha]. rewrite bool_decide_false by congruence.
  by rewrite (IH Ha).
Qed.

Lemma no_char_compute c s : bool_decide (c ∈ chars s) = false -> no_char c s.
Proof. by rewrite bool_decide_eq_false. Qed.

Lemma char_in_compute c s : bool_decide (c ∈ chars s) = true -> c ∈ chars s.
Proof. by rewrite bool_decide_eq_true. Qed.

(** A type or a parameter that a header can hold. *)
Definition clean (s : string) : Prop :=
  no_char "," s ∧ no_char ";" s ∧ strip s = s ∧ s ≠ "".

Lemma no_char_join c d l : c ≠ d -> Forall (no_char c) l -> no_char c (join (String d "") l).
Proof.
  intros Hcd. unfold no_char. induction 1 as [|x l Hx Hl IH]; [by apply not_elem_of_nil|].
  destruct l as [|y l]; [done|].
  change (join (String d "") (x :: y :: l)) with (x +:+ (String d "" +:+ join (String d "") (y :: l))).
  rewrite !chars_app, !not_elem_of_app. split_and!; [done| |done].
  by intros ->%list_elem_of_singleton.
Qed.

Lemma ascii_lower_idem c : ascii_lower (ascii_lower c) = ascii_lower c.
Proof.
  assert (H : forallb (fun n => bool_decide
      (ascii_lower (ascii_lower (ascii_of_nat n)) = ascii_lower (ascii_of_nat n))) (seq 0 256) = true)
    by (by vm_compute).
  rewrite forallb_forall in H. specialize (H (nat_of_ascii c)).
  rewrite ascii_nat_embedding, bool_decide_eq_true in H. apply H, in_seq.
  pose proof (nat_ascii_bounded c). lia.
Qed.

Lemma lower_idem s : lower (lower s) = lower s.
Proof.
  unfold lower. induction s as [|c s IH]; [done|]. simpl. by rewrite ascii_lower_idem, IH.
Qed.

Definition extras (params : list string) : list string :=
  filter (fun p => names_base64 p = false) params ++ ["base64"].

Lemma extras_clean ps : Forall clean ps -> Forall clean (extras ps).
Proof.
  intros H. apply Forall_app. split.
  - rewrite Forall_forall in *. intros x [_ Hx]%list_elem_of_filter. by apply H.
  - constructor; [|constructor]. split_and!; [..|by vm_compute|done];
      by apply no_char_compute.
Qed.

Lemma parse_meta_join m ps :
  clean m -> "/"%char ∈ chars m -> lower m = m -> Forall clean ps ->
  parse_meta (join ";" (m :: ps)) = (m, ps).
Proof.
  intros Hm Hs Hl Hps. unfold parse_meta.
  assert (Hall : Forall clean (m :: ps)) by by constructor.
  rewrite (split_on_join ";" (m :: ps));
    [|done|eapply Forall_impl; [exact Hall|]; by intros x (_ & ? & _)].
  assert (Hstrip : strip <$> (m :: ps) = m :: ps).
  { clear Hm Hs Hl Hps. induction Hall as [|x l (_ & _ & Hx & _) _ IH]; [done|].
    rewrite fmap_cons. congruence. }
  rewrite Hstrip.
  assert (Hf : filter (fun p => p ≠ "") (m :: ps) = m :: ps).
  { clear Hm Hs Hl Hps Hstrip. induction Hall as [|x l (_ & _ & _ & Hx) _ IH]; [done|].
    by rewrite filter_cons_True, IH. }
  rewrite Hf. by rewrite bool_decide_true, Hl.
Qed.

Lemma build_header mime payload ps :
  lower mime ≠ "" ->
  build mime payload ps =
    "data:" +:+ join ";" (lower mime :: extras ps) +:+ String "," (b64encode payload).
Proof.
  intros Hm. unfold build. fold (extras ps). rewrite (bool_decide_true (lower mime ≠ "")) by done.
  assert (Hj : exists e es, extras ps = e :: es).
  { unfold extras. destruct (filter _ ps); eauto. }
  assert (Hne : join ";" (extras ps) ≠ "").
  { unfold extras. clear. induction (filter _ ps) as [|x l IH]; [done|].
    change ((x :: l) ++ ["base64"]) with (x :: (l ++ ["base64"])).
    destruct (l ++ ["base64"]) as [|y l'] eqn:E; [by destruct l|].
    change (join ";" (x :: y :: l')) with (x +:+ (";" +:+ join ";" (y :: l'))).
    by destruct x. }
  rewrite (bool_decide_true (_ ≠ "")) by done. simpl.
  destruct Hj as (e & es & ->).
  change (join ";" (lower mime :: e :: es)) with (lower mime +:+ (";" +:+ join ";" (e :: es))).
  by rewrite !str_app_assoc.
Qed.

Lemma no_char_app c a b : no_char c a -> no_char c b -> no_char c (a +:+ b).
Proof. unfold no_char. rewrite chars_app, not_elem_of_app. done. Qed.

Lemma parse_build_clean mime payload ps :
  clean (lower mime) -> "/"%char ∈ chars (lower mime) -> Forall clean ps ->
  parse (VStr (build mime payload ps)) =
    Some {| mime := lower mime; params := extras ps; payload := payload; is_base64 := true |}.
Proof.
  intros Hm Hs Hps. pose proof (extras_clean _ Hps) as He.
  rewrite build_header by apply Hm. unfold parse. rewrite starts_with_app.
  rewrite <- str_app_assoc, split_first_app.
  2: { apply no_char_app; [by apply no_char_compute|]. apply no_char_join; [done|].
       constructor; [apply Hm|]. eapply Forall_impl; [exact He|]. by intros x (? & _). }
  change 5%nat with (String.length "data:"). cbn [mbind option_bind]. rewrite drop_str_app.
  rewrite parse_meta_join by (done || apply lower_idem).
  assert (Hb : existsb names_base64 (extras ps) = true).
  { unfold extras. rewrite existsb_app. apply orb_true_iff. right. by vm_compute. }
  by rewrite Hb, b64_roundtrip.
Qed.

(** ** Scrubbing *)

(** The property holds of every string of a value, keys apart. *)
Fixpoint all_str (P : string -> Prop) (v : val) : Prop :=
  match v with
  | VStr s => P s
  | VList l => (fix go l := match l with [] => True | x :: l => all_str P x ∧ go l end) l
  | VDict d => (fix go d := match d with [] => True | (_, x) :: d => all_str P x ∧ go d end) d
  | _ => True
  end.

Lemma all_str_list P l : all_str P (VList l) ↔ Forall (all_str P) l.
Proof. induction l as [|x l IH]; [done|]. by rewrite Forall_cons, <- IH. Qed.
Lemma all_str_dict P d : all_str P (VDict d) ↔ Forall (fun kv => all_str P kv.2) d.
Proof. induction d as [|[k x] d IH]; [done|]. by rewrite Forall_cons, <- IH. Qed.

Lemma scrub_no_data x : all_str (fun s => starts_with "data:" s = false) (scrub x).
Proof.
  induction x as [| | | |s|l Hl|d Hd] using val_nested_ind; try done.
  - simpl. destruct (starts_with "data:" s) eqn:E; simpl; done.
  - change (scrub (VList l)) with (VList (scrub <$> l)). apply all_str_list, Forall_fmap. done.
  - change (scrub (VDict d)) with (VDict ((fun kv => (kv.1, scrub kv.2)) <$> d)).
    by apply all_str_dict, Forall_fmap.
Qed.

(** ** Names of files *)

Definition digits_of (s : string) : Prop := Forall (fun c => is_digit c = true) (chars s).

Lemma zeros_chars w s : chars (zeros w s) = replicate (w - String.length s) "0"%char ++ chars s.
Proof. apply chars_of_chars. Qed.

Lemma str_length_chars s : String.length s = length (chars s).
Proof. induction s as [|c s IH]; [done|]. simpl. by rewrite IH. Qed.

Lemma pad3_spec n : 0 <= n ->
  digits_of (pad3 n) ∧ (3 ≤ length (chars (pad3 n)))%nat ∧ digits_value 0 (chars (pad3 n)) = n.
Proof.
  intros Hn. unfold pad3. rewrite bool_decide_false by lia. unfold digits_of.
  rewrite zeros_chars. destruct (str_Z_chars n Hn) as (l & Hl & Hd & Hne & Hv). rewrite Hl.
  split_and!.
  - apply Forall_app. split; [|done]. by apply Forall_replicate.
  - rewrite length_app, length_replicate, str_length_chars, Hl. lia.
  - unfold digits_value in *. rewrite foldl_app.
    assert (Hz : foldl (fun a c => 10 * a + digit_val c) 0
        (replicate (3 - String.length (str_Z n)) "0"%char) = 0).
    { by induction (3 - String.length (str_Z n))%nat. }
    by rewrite Hz.
Qed.

Lemma digits_no_dot s : digits_of s -> no_char "." s.
Proof. unfold digits_of, no_char. rewrite Forall_forall. intros H Hin. by specialize (H _ Hin). Qed.

(** A suffix of a file name. *)
Definition ext_ok (e : string) : Prop :=
  exists r, e = String "." r ∧ r ≠ "" ∧ forallb name_char (chars r) = true.

Lemma file_name_inj i j e1 e2 : 0 <= i -> 0 <= j -> ext_ok e1 -> ext_ok e2 ->
  pad3 i +:+ e1 = pad3 j +:+ e2 -> i = j.
Proof.
  intros Hi Hj (r1 & -> & _) (r2 & -> & _) Heq.
  destruct (pad3_spec i Hi) as (Hd1 & _ & Hv1), (pad3_spec j Hj) as (Hd2 & _ & Hv2).
  apply sep_inj in Heq as [Heq _]; [|by apply digits_no_dot..]. by rewrite <- Hv1, Heq.
Qed.

Lemma span_digits ds r : Forall (fun c => is_digit c = true) ds ->
  span is_digit (ds ++ "."%char :: r) = (ds, "."%char :: r).
Proof. induction 1 as [|c ds Hc _ IH]; [done|]. simpl. by rewrite Hc, IH. Qed.

Lemma file_name_regex i e : 0 <= i -> ext_ok e -> filename_regex (pad3 i +:+ e) = true.
Proof.
  intros Hi (r & -> & Hr & Hn). destruct (pad3_spec i Hi) as (Hd & Hlen & _).
  assert (Hc : chars (pad3 i +:+ String "." r) = chars (pad3 i) ++ "."%char :: chars r)
    by apply chars_app.
  unfold filename_regex. rewrite Hc.
  assert (Hl : exists l c, chars r = l ++ [c] ∧ name_char c = true).
  { destruct (chars r) as [|c0 l0] eqn:E using rev_ind; [by destruct r|].
    rewrite forallb_app in Hn. apply andb_true_iff in Hn as [_ Hn]. simpl in Hn.
    exists l0, c0. split; [done|]. by rewrite andb_true_r in Hn. }
  destruct Hl as (l & c & Hl & Hc0).
  assert (Hchomp : chomp (chars (pad3 i) ++ "."%char :: chars r) = chars (pad3 i) ++ "."%char :: chars r).
  { unfold chomp. rewrite Hl, (app_assoc _ ["."%char] (l ++ [c])), app_assoc, last_snoc.
    rewrite bool_decide_false; [done|]. by intros ->. }
  rewrite Hchomp, span_digits by done.
  rewrite (bool_decide_true (3 ≤ _)%nat), Hn by done. rewrite bool_decide_true; [done|].
  by destruct r.
Qed.

(** ** What is extracted is rebuilt *)

(** The two values differ only in data URLs, which hold the same payloads. *)
Inductive same_payload : val -> val -> Prop :=
| same_url s p s' p' : parse (VStr s) = Some p -> parse (VStr s') = Some p' ->
    payload p = payload p' -> same_payload (VStr s) (VStr s')
| same_atom v : match v with VList _ | VDict _ => False | _ => parse v = None end ->
    same_payload v v
| same_list l l' : Forall2 same_payload l l' -> same_payload (VList l) (VList l')
| same_dict d d' : Forall2 (fun a b => a.1 = b.1 ∧ same_payload a.2 b.2) d d' ->
    same_payload (VDict d) (VDict d').

(** A string that is no data URL and not the name of a file. *)
Definition no_file_name (s : string) : Prop := parse (VStr s) = None -> filename_regex s = false.

Definition mime_ok (m : string) : Prop := lower m = m ∧ clean m ∧ "/"%char ∈ chars m.

Section extraction.
Context (sha256 : string -> string) (guess_extension guess_file_type : string -> option string)
  (strict : bool).
(** Payloads with one hash are one payload; the module mimetypes knows
    extensions and types. *)
Context (sha256_inj : forall p q, sha256 p = sha256 q -> p = q)
  (extensions : forall m e, guess_extension m = Some e -> ext_ok e)
  (types : forall e m, guess_file_type e = Some m -> mime_ok (lower m)).

#[local] Abbreviation walk := (extract_walk sha256 guess_extension).
#[local] Abbreviation back s := (rebuild guess_file_type strict (files s)).

(** Every payload that was seen is in the file that bears its name. *)
Definition inv (s : extraction) : Prop :=
  0 <= idx s ∧ forall p name, dget (sha256 p) (seen s) = Some name ->
    files s !! name = Some p ∧ exists i e, 0 <= i < idx s ∧ ext_ok e ∧ name = pad3 i +:+ e.
Definition le (s s' : extraction) : Prop :=
  idx s <= idx s' ∧
  forall p name, dget (sha256 p) (seen s) = Some name -> dget (sha256 p) (seen s') = Some name.

Lemma le_refl s : le s s.
Proof. by split. Qed.
Lemma le_trans s1 s2 s3 : le s1 s2 -> le s2 s3 -> le s1 s3.
Proof. intros [H1 H2] [H3 H4]. split; [lia|auto]. Qed.

Lemma EXT_ok : Forall (fun me => mime_ok me.1 ∧ ext_ok me.2) EXT.
Proof.
  assert (H : Forall (fun me => bool_decide (lower me.1 = me.1) && bool_decide (strip me.1 = me.1) &&
      bool_decide (me.1 ≠ "") && negb (bool_decide (","%char ∈ chars me.1)) &&
      negb (bool_decide (";"%char ∈ chars me.1)) && bool_decide ("/"%char ∈ chars me.1) &&
      match me.2 with
      | String "." r => bool_decide (r ≠ "") && forallb name_char (chars r)
      | _ => false
      end = true) EXT) by (repeat constructor).
  eapply Forall_impl; [exact H|]. intros [m e] Hb. simpl in *.
  rewrite !andb_true_iff, !negb_true_iff, !bool_decide_eq_true, !bool_decide_eq_false in Hb.
  destruct Hb as ((((((? & ?) & ?) & ?) & ?) & ?) & He). split.
  - split_and!; [done| |done]. by split_and!.
  - destruct e as [|c r]; [done|]. destruct c as [[] [] [] [] [] [] [] []]; try done.
    apply andb_true_iff in He as [Hr Hn]. rewrite bool_decide_eq_true in Hr. by exists r.
Qed.

Lemma mime_to_ext_ok m : ext_ok (mime_to_ext guess_extension m).
Proof.
  unfold mime_to_ext. case_bool_decide; [by exists "jpg"|].
  assert (Hg : ext_ok (or_str (guess_extension m) ".bin")).
  { destruct (guess_extension m) as [e|] eqn:E; simpl; [|by exists "bin"].
    case_bool_decide; [by exists "bin"|by eapply extensions]. }
  destruct (dget m EXT) as [e|] eqn:E; simpl; [|done]. case_bool_decide; [done|].
  apply dget_in in E. pose proof EXT_ok as He. rewrite Forall_forall in He. by apply (He (m, e)).
Qed.

Lemma ext_to_mime_ok name : mime_ok (ext_to_mime guess_file_type name).
Proof.
  unfold ext_to_mime. destruct (list_find _ EXT) as [[i [m e]]|] eqn:E.
  - apply list_find_Some in E as (Hl & _ & _). apply list_elem_of_lookup_2 in Hl.
    pose proof EXT_ok as He. rewrite Forall_forall in He. by apply (He (m, e)).
  - assert (Hd : mime_ok (lower "application/octet-stream")).
    { split_and!; [by vm_compute| |by apply char_in_compute].
      split_and!; [by apply no_char_compute..|by vm_compute|done]. }
    unfold or_str. destruct (guess_file_type _) as [m|] eqn:Em; [|done].
    destruct (bool_decide (m = "")); [done|by eapply types].
Qed.

Lemma ensure_file_spec m p s : inv s ->
  exists s' name, ensure_file sha256 guess_extension m p s = (s', Ok name) ∧ inv s' ∧ le s s' ∧
    dget (sha256 p) (seen s') = Some name.
Proof.
  intros [Hi Hs]. unfold ensure_file. destruct (dget (sha256 p) (seen s)) as [name|] eqn:E; simpl.
  - destruct (Hs p name E) as (_ & i & e & Hlt & He & Hname).
    assert (Hne : name ≠ "").
    { intros ->. destruct (pad3_spec i ltac:(lia)) as (_ & Hl & _).
      destruct (pad3 i); simpl in *; [lia|done]. }
    rewrite !(bool_decide_false (name = "")) by done. exists s, name. by split_and!; [..|apply le_refl|].
  - do 2 eexists. split_and!; [done| | |apply dget_dset_eq].
    + split; simpl; [lia|]. intros q name. rewrite dget_dset. case_decide as Hq.
      * intros [= <-]. apply sha256_inj in Hq as ->. rewrite lookup_insert_eq. split; [done|].
        exists (idx s), (mime_to_ext guess_extension m).
        split_and!; [lia..|apply mime_to_ext_ok|done].
      * intros Hd. destruct (Hs q name Hd) as (Hf & i & e & Hlt & He & ->). split.
        -- rewrite lookup_insert_ne; [done|]. intros Heq.
           apply file_name_inj in Heq; [lia|lia|lia|apply mime_to_ext_ok|done].
        -- exists i, e. split_and!; [lia..|done|done].
    + split; simpl; [lia|]. intros q name Hd. rewrite dget_dset_ne; [done|]. congruence.
Qed.

(** What a step from [a] gives can be taken back from every later state. *)
Definition round {A B C} (g : A -> M extraction B) (h : extraction -> B -> res C)
    (R : A -> C -> Prop) (a : A) : Prop :=
  forall s, inv s -> exists s' b, g a s = (s', Ok b) ∧ inv s' ∧ le s s' ∧
    forall s'', inv s'' -> le s' s'' -> exists c, h s'' b = Ok c ∧ R a c.

Lemma round_list {A B C} (g : A -> M extraction B) (h : extraction -> B -> res C) R l :
  Forall (round g h R) l -> round (map_m g) (fun s => map_r (h s)) (Forall2 R) l.
Proof.
  induction 1 as [|a l Ha _ IH]; intros s Hs.
  { exists s, []. split_and!; [done..|apply le_refl|]. intros. exists []. by split. }
  destruct (Ha s Hs) as (s1 & b & H1 & Hi1 & Hl1 & Hb).
  destruct (IH s1 Hi1) as (s2 & bs & H2 & Hi2 & Hl2 & Hbs).
  exists s2, (b :: bs). simpl. rewrite (M_bind_run _ _ _ _ _ H1), (M_bind_run _ _ _ _ _ H2).
  split_and!; [done..|by eapply le_trans|]. intros s3 Hi3 Hl3.
  destruct (Hb s3 Hi3) as (c & Hc & HR); [by eapply le_trans|].
  destruct (Hbs s3 Hi3 Hl3) as (cs & Hcs & HRs). exists (c :: cs).
  rewrite Hc. simpl. rewrite Hcs. split; [done|by constructor].
Qed.

Lemma round_entry {A B} (g : val -> M extraction A) (h : extraction -> A -> res B) R
    (k : string) (x : val) :
  round g h R x ->
  round (fun kv => y ← g kv.2; mret (kv.1, y)) (fun s kv => y ← h s kv.2; Ok (kv.1, y))
    (fun a b => a.1 = b.1 ∧ R a.2 b.2) (k, x).
Proof.
  intros Hx s Hs. destruct (Hx s Hs) as (s' & b & Hg & Hi & Hl & Hb).
  exists s', (k, b). simpl. rewrite (M_bind_run _ _ _ _ _ Hg). split_and!; [done..|].
  intros s'' Hi' Hl'. destruct (Hb s'' Hi' Hl') as (c & Hc & HR). exists (k, c).
  by rewrite Hc.
Qed.

Lemma url_back s p name : inv s -> dget (sha256 p) (seen s) = Some name ->
  exists u q, back s (VStr name) = Ok (VStr u) ∧ parse (VStr u) = Some q ∧ payload q = p.
Proof.
  intros [_ Hs] Hd. destruct (Hs p name Hd) as (Hf & i & e & Hi & He & ->).
  destruct (ext_to_mime_ok (pad3 i +:+ e)) as (Hlow & Hc & Hslash).
  exists (build (ext_to_mime guess_file_type (pad3 i +:+ e)) p []). eexists. split_and!.
  - simpl. rewrite file_name_regex by (lia || done). unfold to_data_url. by rewrite Hf.
  - apply parse_build_clean; rewrite ?Hlow; done.
  - done.
Qed.

Lemma walk_round o : all_str no_file_name o -> round walk (fun s => back s) same_payload o.
Proof.
  induction o as [| | | |t|l IH|d IH] using val_nested_ind; intros Ho;
    try (intros s Hs; do 2 eexists; split_and!; [done|done|apply le_refl|];
         intros; eexists; split; [done|]; by constructor).
  - intros s Hs. cbn [extract_walk]. destruct (parse (VStr t)) as [p|] eqn:Hp.
    + destruct (ensure_file_spec (mime p) (payload p) s Hs) as (s' & name & He & Hi & Hl & Hd).
      exists s', (VStr name). rewrite (M_bind_run _ _ _ _ _ He). split_and!; [done..|].
      intros s'' Hi' Hl'. destruct (url_back s'' (payload p) name Hi') as (u & q & Hb & Hq & Hpq).
      { by apply Hl'. }
      exists (VStr u). split; [done|]. by eapply same_url.
    + exists s, (VStr t). split_and!; [done..|apply le_refl|]. intros.
      exists (VStr t). split; [|by constructor]. cbn [rebuild]. by rewrite (Ho Hp).
  - intros s Hs. rewrite all_str_list in Ho.
    destruct (round_list walk (fun s => back s) same_payload l) with (s := s)
      as (s' & bs & Hm & Hi & Hl & Hb); [|done|].
    { rewrite Forall_forall in *. intros x Hx. by apply IH, Ho. }
    exists s', (VList bs). cbn [extract_walk]. rewrite (M_bind_run _ _ _ _ _ Hm).
    split_and!; [done..|]. intros s'' Hi' Hl'. destruct (Hb s'' Hi' Hl') as (cs & Hc & HR).
    exists (VList cs). cbn [rebuild]. rewrite Hc. split; [done|by constructor].
  - intros s Hs. rewrite all_str_dict in Ho.
    destruct (round_list (fun kv => x ← walk kv.2; mret (kv.1, x))
        (fun s kv => x ← back s kv.2; Ok (kv.1, x))
        (fun a b => a.1 = b.1 ∧ same_payload a.2 b.2) d) with (s := s)
      as (s' & bs & Hm & Hi & Hl & Hb); [|done|].
    { rewrite Forall_forall in *. intros [k x] Hx.
      apply (round_entry walk (fun s => back s) same_payload k x), (IH (k, x) Hx), (Ho (k, x) Hx). }
    exists s', (VDict bs). cbn [extract_walk]. rewrite (M_bind_run _ _ _ _ _ Hm).
    split_and!; [done..|]. intros s'' Hi' Hl'. destruct (Hb s'' Hi' Hl') as (cs & Hc & HR).
    exists (VDict cs). cbn [rebuild]. rewrite Hc. split; [done|by constructor].
Qed.

End extraction.

(** A data URL built from a media type, bytes and parameters parses back to
    that media type in lower case, these bytes, and the parameters other than
    base64. *)
Theorem parse_build mime payload ps :
  clean (lower mime) -> "/"%char ∈ chars (lower mime) -> Forall clean ps ->
  parse (VStr (build mime payload ps)) =
    Some {| mime := lower mime; params := extras ps; payload := payload; is_base64 := true |}.
Proof. apply parse_build_clean. Qed.

(** ** Examples *)
Module Examples.
Example parse_percent :
  parse (VStr "data:,hi%21") =
    Some {| mime := "text/plain"; params := []; payload := "hi!"; is_base64 := false |}.
Proof. by vm_compute. Qed.

(** Characters outside of the alphabet are skipped, and so is what follows the
    padding. *)
Example decode_lenient : b64decode "aG k=!!zz" = Some "hi".
Proof. by vm_compute. Qed.

Lemma parse_build_witness :
  parse (VStr (build "Image/PNG" "hi" ["charset=x"])) =
    Some {| mime := "image/png"; params := ["charset=x"; "base64"]; payload := "hi";
            is_base64 := true |}.
Proof.
  apply (parse_build "Image/PNG" "hi" ["charset=x"]);
    [|by apply char_in_compute|apply Forall_cons; split; [|by apply Forall_nil]];
    (split_and!; [by apply no_char_compute..|by vm_compute|done]).
Defined.

Definition obj : val :=
  VDict [("a", VStr "data:image/png;base64,AAAA");
         ("b", VList [VStr "data:text/plain,hi%21"; VStr "plain"; VStr "data:image/png;base64,AAAA"])].

Example extract_obj :
  extract (fun p => p) (fun _ => None) obj 1 ∅ [] =
  (<["002.txt" := "hi!"]> (<["001.png" := of_chars (replicate 3 "000"%char)]> ∅), [],
   Ok (VDict [("a", VStr "001.png"); ("b", VList [VStr "002.txt"; VStr "plain"; VStr "001.png"])], 3)).
Proof. by vm_compute. Qed.

End Examples.
