(* ===== verification/EvalUtils.v ===== *)
(** * Names, numbers and token counts of the evaluator

    Models eval/utils/utils.py (the names of models and the display of numbers)
    and eval/session/tokens.py.  The objects a vendor's library returns are
    dictionaries of their attributes. *)

From S2P Require Import Prelude PyVal.

(** ** Names of models *)

(** [sub in s] *)
Definition contains (sub s : string) : bool :=
  match String.index 0 sub s with Some _ => true | None => false end.

Section regexp.
(** The longest run of characters that satisfy [f], and the rest. *)
Fixpoint span (f : ascii -> bool) (l : list ascii) : list ascii * list ascii :=
  match l with
  | [] => ([], [])
  | c :: l' => if f c then let r := span f l' in (c :: r.1, r.2) else ([], l)
  end.
Definition not_slash (c : ascii) : bool := bool_decide (c ≠ "/"%char).
Definition newline : ascii := Ascii.ascii_of_nat 10.
(** [$]: the end, or the line feed before it. *)
Definition at_end (l : list ascii) : bool := bool_decide (l = [] ∨ l = [newline]).

(** [strip_prefix p l]: the rest of a text that starts with [p]. *)
Fixpoint strip_prefix (p l : list ascii) : option (list ascii) :=
  match p, l with
  | [], _ => Some l
  | c :: p, x :: l => if bool_decide (c = x) then strip_prefix p l else None
  | _ :: _, [] => None
  end.

(** [(?:/global_step_(\d+)/?)$], the part that may be missing: giving back a
    digit never helps, for a digit would follow. *)
Definition step_suffix (l : list ascii) : option (list ascii) :=
  rest ← strip_prefix (chars "/global_step_") l;
  let (step, rest) := span is_digit rest in
  let after := match rest with "/"%char :: rest' => rest' | _ => rest end in
  if bool_decide (step ≠ []) && at_end after then Some step else None.

(** [/?([^/]+)(?:/global_step_(\d+)/?)?$] at one position: as the run of other
    characters ends at a slash or at the end, taking less of it never helps. *)
(* eval/utils/utils.py:43-43 normalize_model_name *)
Definition match_name (l : list ascii) : option (list ascii * option (list ascii)) :=
  let l := match l with "/"%char :: l' => l' | _ => l end in
  let (name, rest) := span not_slash l in
  if bool_decide (name = []) then None
  else match step_suffix rest with
       | Some step => Some (name, Some step)
       | None => if at_end rest then Some (name, None) else None
       end.

(** [re.search]: the first position that matches. *)
Fixpoint search_name (l : list ascii) : option (list ascii * option (list ascii)) :=
  match match_name l with
  | Some m => Some m
  | None => match l with [] => None | _ :: l => search_name l end
  end.
End regexp.

(* eval/utils/utils.py:35-52 normalize_model_name *)
Definition normalize_model_name (name : string) (thinking : option bool) : string :=
  let name := lower name in
  let name := match split_first ":" name with Some (_, rest) => rest | None => name end in
  let name := match search_name (chars name) with
              | Some (n, Some step) => of_chars n +:+ "-step" +:+ of_chars step
              | Some (n, None) => of_chars n
              | None => name
              end in
  if default false thinking && negb (contains "thinking" name) then name +:+ "-thinking" else name.

Example normalize_path :
  normalize_model_name "vendor:org/Model-7B/global_step_120/" (Some true) = "model-7b-step120-thinking".
Proof. by vm_compute. Qed.
(** A name that ends in a slash does not match. *)
Example normalize_slash : normalize_model_name "org/model/" None = "org/model/".
Proof. by vm_compute. Qed.

(** ** Display of numbers *)

(** [s.rstrip(c)] *)
Definition rstrip (c : ascii) (s : string) : string :=
  of_chars (reverse (span (fun x => bool_decide (x = c)) (reverse (chars s))).2).

(** [f'{n:.{digits}f}'] of a number that is not negative. *)
Fixpoint pad_left (n : nat) (s : string) : string :=
  match n with
  | O => s
  | S n => pad_left n (if bool_decide (String.length s <= n)%nat then "0" +:+ s else s)
  end.
Definition fixed (digits : nat) (q : Q) : string :=
  let m := round_div (Qnum q * 10 ^ Z.of_nat digits) (Zpos (Qden q)) in
  let whole := str_Z (m / 10 ^ Z.of_nat digits) in
  match digits with
  | O => whole
  | _ => whole +:+ "." +:+ pad_left digits (str_Z (m mod 10 ^ Z.of_nat digits))
  end.

Definition units : list string := [""; "k"; "m"; "b"; "t"].
(** The loop that divides by a thousand while there is a next unit. *)
(* eval/utils/utils.py:16-18 format_number *)
Fixpoint scale (n : Q) (us : list string) : Q * string :=
  match us with
  | u :: ((_ :: _) as rest) => if Qle_bool 1000 n then scale (n / 1000) rest else (n, u)
  | [u] => (n, u)
  | [] => (n, "")
  end.

(* eval/utils/utils.py:7-21 format_number *)
Definition format_number (n : Q) (digits : nat) : string :=
  let negative := negb (Qle_bool 0 n) in
  let n := if negative then Qopp n else n in
  let sign := if negative then "-" else "" in
  if negb (Qle_bool 1000 n) then sign +:+ fixed 0 n
  else let (m, unit) := scale n units in
       sign +:+ rstrip "." (rstrip "0" (fixed digits m)) +:+ unit.

(** ** Token counts *)

(* eval/session/tokens.py:18-27 TokenCounter.__init__ *)
Record TokenCounter := {
  input : Z;
  input_cached : Z;
  input_image : Z;
  output : Z;
  output_thinking : Z
}.
Definition new_counter : TokenCounter :=
  {| input := 0; input_cached := 0; input_image := 0; output := 0; output_thinking := 0 |}.

Inductive count : Type := Input | InputCached | InputImage | Output | OutputThinking.
Definition bump (c : count) (n : Z) (t : TokenCounter) : TokenCounter :=
  let plus (b : bool) (v : Z) := if b then v + n else v in
  {| input := plus match c with Input => true | _ => false end (input t);
     input_cached := plus match c with InputCached => true | _ => false end (input_cached t);
     input_image := plus match c with InputImage => true | _ => false end (input_image t);
     output := plus match c with Output => true | _ => false end (output t);
     output_thinking := plus match c with OutputThinking => true | _ => false end (output_thinking t) |}.

Definition attributes := list (string * val).

(** [usage.k] *)
Definition getattr (k : string) (o : attributes) : res val :=
  match dget k o with Some v => Ok v | None => Raise AttributeError end.
(** [hasattr(o, has) and o.k] *)
Definition attr_if (has k : string) (o : attributes) : res (option val) :=
  if dmem has o then v ← getattr k o; Ok (if truthy v then Some v else None) else Ok None.
Definition attr (k : string) (o : attributes) : res (option val) := attr_if k k o.

(** [self.c += v] *)
Definition plus (c : count) (v : val) : M TokenCounter unit :=
  match v with
  | VInt n => modify (bump c n)
  | _ => raise TypeError
  end.
(** [if hasattr(o, k) and o.k: self.c += o.k], and otherwise what follows. *)
Definition count_attr (c : count) (k : string) (o : attributes) (otherwise : M TokenCounter unit)
    : M TokenCounter unit :=
  v ← lift_res (attr k o);
  match v with Some v => plus c v | None => otherwise end.
Definition skip : M TokenCounter unit := mret tt.
(** The counts in the details of a usage. *)
Definition count_details (cs : list (count * string)) (details : val) : M TokenCounter unit :=
  match details with
  | VDict d => for_each cs (fun ck => count_attr ck.1 ck.2 d skip)
  | _ => mret tt
  end.

(** The event of a new summary is left out. *)
(* eval/session/tokens.py:29-60 TokenCounter.add_from_usage *)
Definition add_from_usage (usage : attributes) : M TokenCounter unit :=
  count_attr Input "input_tokens" usage (count_attr Input "prompt_tokens" usage skip);;
  let input_details := [(InputCached, "cached_tokens"); (InputImage, "image_tokens")] in
  d ← lift_res (attr "prompt_tokens_details" usage);
  (match d with
   | Some d => count_details input_details d
   | None =>
       d ← lift_res (attr_if "input_token_details" "input_tokens_details" usage);
       match d with
       | Some d => count_details input_details d
       | None => count_attr InputCached "cache_read_input_tokens" usage skip
       end
   end);;
  count_attr Output "output_tokens" usage (count_attr Output "completion_tokens" usage skip);;
  let output_details := [(OutputThinking, "reasoning_tokens")] in
  d ← lift_res (attr "completion_tokens_details" usage);
  match d with
  | Some d => count_details output_details d
  | None =>
      d ← lift_res (attr "output_tokens_details" usage);
      match d with
      | Some d => count_details output_details d
      | None => mret tt
      end
  end.

(* eval/session/tokens.py:62-70 TokenCounter.total *)
Definition total (t : TokenCounter) : list (string * Z) :=
  [("input_total", input t); ("input_cached", input_cached t); ("input_image", input_image t);
   ("output_total", output t); ("output_thinking", output_thinking t);
   ("total", input t + output t)].

(* eval/session/tokens.py:72-86 TokenCounter.summary *)
Definition summary (t : TokenCounter) : string :=
  let f n := format_number (inject_Z n) 1 in
  let total := input t + output t in
  f total +:+ " token" +:+ (if bool_decide (total ≠ 1) then "s" else "") +:+
  " used (" +:+ f (input t) +:+ " input" +:+
  (if bool_decide (0 < input_cached t) then ", " +:+ f (input_cached t) +:+ " cached" else "") +:+
  (if bool_decide (0 < input_image t) then ", " +:+ f (input_image t) +:+ " image" else "") +:+
  "; " +:+ f (output t) +:+ " output" +:+
  (if bool_decide (0 < output_thinking t) then ", " +:+ f (output_thinking t) +:+ " thinking" else "") +:+
  ")".

Example summary_example :
  summary {| input := 999950; input_cached := 1234; input_image := 0; output := 50; output_thinking := 0 |}
  = "1m tokens used (1000k input, 1.2k cached; 50 output)".
Proof. by vm_compute. Qed.

(** The details of the responses API are asked for under a name the class does
    not have, so its cached tokens are never counted; those of the chat API are. *)
Example cached_tokens_of_responses :
  let details := VDict [("cached_tokens", VInt 70)] in
  let run u := (add_from_usage u new_counter).1 in
  input_cached (run [("input_tokens", VInt 100); ("input_tokens_details", details);
                     ("output_tokens", VInt 5)]) = 0 ∧
  input_cached (run [("prompt_tokens", VInt 100); ("prompt_tokens_details", details);
                     ("completion_tokens", VInt 5)]) = 70.
Proof. by vm_compute. Qed.
