(* ===== verification/Images.v ===== *)
(** * Images in messages

    Models eval/utils/messages.py: trimming the images of a conversation to the
    last ones, and resizing them.  The Python imaging library is a class of
    operations, which fail by giving nothing. *)

From S2P Require Import Prelude PyVal DataUrl.

(** ** Trimming *)

Definition image_types : list string := ["image"; "image_url"; "input_image"; "output_image"].
(** [v in ('image', 'image_url', 'input_image', 'output_image')] *)
Definition is_image_type (v : val) : bool :=
  match v with VStr s => bool_decide (s ∈ image_types) | _ => false end.

Definition content_keys : list string := ["content"; "input"; "output"].

Section trim.
Context (max_images : Z).

(** [images] is the state. *)
(* eval/utils/messages.py:55-57 trim_images *)
Definition keep_image (block : val) : M Z (list val) :=
  images ← get;
  if bool_decide (images < max_images) then modify (Z.add 1);; mret [block] else mret [].

(** The blocks of a list from the last to the first, and the list they give
    turned back. *)
Fixpoint each_block (f : val -> M Z (list val)) (l : list val) : M Z (list val) :=
  match l with
  | [] => mret []
  | x :: l => a ← f x; b ← each_block f l; mret (a ++ b)
  end.
Definition backwards (f : val -> M Z (list val)) (l : list val) : M Z (list val) :=
  new ← each_block f (reverse l); mret (reverse new).

(* eval/utils/messages.py:43-48 trim_images *)
Definition trim_sub_block (sub_block : val) : M Z (list val) :=
  t ← lift_res (vget_or "type" VNone sub_block);
  if is_image_type t then keep_image sub_block else mret [sub_block].

(* eval/utils/messages.py:38-60 trim_images *)
Definition trim_block (block : val) : M Z (list val) :=
  match block with
  | VDict d =>
      match dget "content" d with
      | Some (VList inner) =>
          new ← backwards trim_sub_block inner;
          mret [VDict (dset "content" (VList new) d)]
      | _ => if is_image_type (dget_or "type" VNone d) then keep_image block else mret [block]
      end
  | _ => mret [block]
  end.

(* eval/utils/messages.py:33-61 trim_images *)
Fixpoint trim_keys (keys : list string) (message : list (string * val))
    : M Z (list (string * val)) :=
  match keys with
  | [] => mret message
  | k :: keys =>
      match dget k message with
      | Some (VList l) =>
          new ← backwards trim_block l; trim_keys keys (dset k (VList new) message)
      | _ => trim_keys keys message
      end
  end.

(* eval/utils/messages.py:31-62 trim_images *)
Definition trim_message (message : val) : M Z (list val) :=
  match message with
  | VDict d => d ← trim_keys content_keys d; mret [VDict d]
  | _ => mret [message]
  end.
End trim.

(* eval/utils/messages.py:23-64 trim_images *)
Definition trim_images (messages : list val) (max_images : Z) : res (list val) :=
  (backwards (trim_message max_images) messages 0).2.

(** ** Sizes *)

Inductive size_mode : Type :=
| SizeMin (n : Z)
| SizeMax (n : Z)
| SizeExact (width height : Z).

(** The three regular expressions; digits are ASCII. *)
(* eval/utils/messages.py:71-100 resize_images *)
Definition parse_size (image_size : string) : res size_mode :=
  let size_spec := strip image_size in
  if bool_decide (size_spec = "") then Raise ValueError
  else
    match span is_digit (chars size_spec) with
    | ([], _) => Raise ValueError
    | (ds, ["+"%char]) =>
        let n := digits_value 0 ds in
        if bool_decide (n ≤ 0) then Raise ValueError else Ok (SizeMin n)
    | (ds, ["-"%char]) =>
        let n := digits_value 0 ds in
        if bool_decide (n ≤ 0) then Raise ValueError else Ok (SizeMax n)
    | (ds, x :: rest) =>
        if bool_decide (x = "x"%char ∨ x = "X"%char) then
          match span is_digit rest with
          | ([], _) => Raise ValueError
          | (es, []) =>
              let width := digits_value 0 ds in
              let height := digits_value 0 es in
              if bool_decide (width ≤ 0 ∨ height ≤ 0) then Raise ValueError
              else Ok (SizeExact width height)
          | _ => Raise ValueError
          end
        else Raise ValueError
    | _ => Raise ValueError
    end.

(** [scale] is [n / current], exact here where the code has a float; it is close
    to 1 when it differs from it by less than a billionth. *)
(* eval/utils/messages.py:115-119 resize_images.compute_target_size *)
Definition scale_size (n current width height : Z) : Z * Z :=
  if bool_decide (Z.abs (n - current) * 10 ^ 9 < current) then (width, height)
  else (Z.max 1 (round_div (width * n) current), Z.max 1 (round_div (height * n) current)).

(* eval/utils/messages.py:104-119 resize_images.compute_target_size *)
Definition compute_target_size (mode : size_mode) (width height : Z) : Z * Z :=
  if bool_decide (width ≤ 0 ∨ height ≤ 0) then (width, height)
  else
    match mode with
    | SizeExact w h => (w, h)
    | SizeMin n => scale_size n (Z.min width height) width height
    | SizeMax n => scale_size n (Z.max width height) width height
    end.

(** The operations on images. *)
Class Pil (Img : Type) := {
  image_open : string -> option Img;
  img_size : Img -> Z * Z;
  img_format : Img -> option string;
  img_mode : Img -> string;
  img_resize : Img -> Z * Z -> option Img;
  img_convert_rgb : Img -> option Img;
  img_save : Img -> string -> bool -> option string
}.

Section resize.
Context {Img : Type} `{Pil Img} (mode : size_mode).

(** [img.format or mime.split('/')[-1] if mime else (img.format or 'PNG')] in
    upper case, JPG as JPEG. *)
(* eval/utils/messages.py:129-132 resize_images.resize_payload *)
Definition format_name (mime : string) (format : option string) : string :=
  let source :=
    if bool_decide (mime = "") then or_str format "PNG"
    else or_str format (default "" (last (split_on "/" mime))) in
  let name := upper source in
  if bool_decide (name = "JPG") then "JPEG" else name.

(* eval/utils/messages.py:121-141 resize_images.resize_payload *)
Definition resize_payload (mime payload : string) : option string :=
  img ← image_open payload;
  let target := compute_target_size mode (img_size img).1 (img_size img).2 in
  if bool_decide (target = img_size img) then None
  else
    resized ← img_resize img target;
    let format_name := format_name mime (img_format img) in
    let jpeg := bool_decide (format_name = "JPEG") in
    resized ← (if jpeg && negb (bool_decide (img_mode resized ∈ ["RGB"; "L"]))
               then img_convert_rgb resized else Some resized);
    img_save resized format_name jpeg.

(** [Some] of the value when the dictionary is handled. *)
(* eval/utils/messages.py:143-163 resize_images.handle_base64_dict *)
Definition handle_base64_dict (value : list (string * val)) : option (list (string * val)) :=
  if is_str "base64" (dget_or "type" VNone value) then
    match dget "media_type" value, dget "data" value with
    | Some (VStr media_type), Some (VStr data_str) =>
        let mime := lower media_type in
        if starts_with "image/" mime then
          match payload ← b64decode data_str; resize_payload mime payload with
          | Some resized => Some (dset "data" (VStr (b64encode resized)) value)
          | None => Some value
          end
        else Some value
    | _, _ => Some value
    end
  else None.

(* eval/utils/messages.py:165-188 resize_images.maybe_resize *)
Fixpoint maybe_resize (value : val) : val :=
  match value with
  | VStr _ =>
      match parse value with
      | Some p =>
          if starts_with "image/" (mime p) then
            match resize_payload (mime p) (payload p) with
            | Some resized => VStr (build (mime p) resized (params p))
            | None => value
            end
          else value
      | None => value
      end
  | VDict d =>
      match handle_base64_dict d with
      | Some updated => VDict updated
      | None => VDict (map (fun kv => (kv.1, maybe_resize kv.2)) d)
      end
  | VList l => VList (map maybe_resize l)
  | _ => value
  end.
End resize.

(* eval/utils/messages.py:67-191 resize_images *)
Definition resize_images {Img} `{Pil Img} (messages : list val) (image_size : string)
    : res (list val) :=
  mode ← parse_size image_size; Ok (map (maybe_resize mode) messages).

(** ** The images that stay

    [lastn k l]: the last [k] elements of [l]. *)
Definition lastn {A} (k : nat) (l : list A) : list A := drop (length l - k) l.

Lemma length_lastn {A} k (l : list A) : length (lastn k l) = (k `min` length l)%nat.
Proof. unfold lastn. rewrite length_drop. lia. Qed.

Lemma lastn_app {A} k (a b : list A) :
  lastn k (a ++ b) = lastn (k - length (lastn k b)) a ++ lastn k b.
Proof.
  rewrite length_lastn. unfold lastn. rewrite length_app, drop_app. f_equal; [|f_equal; lia].
  destruct (decide (k <= length b)%nat).
  - by rewrite !drop_ge by lia.
  - f_equal. lia.
Qed.

(** The images of a block and what is left of it without them. *)
Definition sub_images (b : val) : list val :=
  if is_image_type (default VNone (vget "type" b)) then [b] else [].
Definition sub_rest (b : val) : list val :=
  if is_image_type (default VNone (vget "type" b)) then [] else [b].

Definition block_images (b : val) : list val :=
  match vget "content" b with
  | Some (VList inner) => inner ≫= sub_images
  | _ => sub_images b
  end.
Definition block_rest (b : val) : list val :=
  match b with
  | VDict d =>
      match dget "content" d with
      | Some (VList inner) => [VDict (dset "content" (VList (inner ≫= sub_rest)) d)]
      | _ => sub_rest b
      end
  | _ => [b]
  end.

Definition key_images (d : list (string * val)) (k : string) : list val :=
  match dget k d with Some (VList l) => l ≫= block_images | _ => [] end.
Definition key_rest (k : string) (d : list (string * val)) : list (string * val) :=
  match dget k d with Some (VList l) => dset k (VList (l ≫= block_rest)) d | _ => d end.

(** The last key of a message comes first. *)
Definition message_images (m : val) : list val :=
  match m with VDict d => reverse content_keys ≫= key_images d | _ => [] end.
Definition message_rest (m : val) : list val :=
  match m with VDict d => [VDict (foldl (fun d k => key_rest k d) d content_keys)] | _ => [m] end.

Definition is_dict (v : val) : Prop := exists d, v = VDict d.
(** The blocks inside of a block are dictionaries. *)
Definition inner_ok (b : val) : Prop :=
  forall inner, vget "content" b = Some (VList inner) -> Forall is_dict inner.
Definition trimmable (m : val) : Prop :=
  forall k l, k ∈ content_keys -> vget k m = Some (VList l) -> Forall inner_ok l.

Section trim_spec.
Context (max_images : Z).

(** From [n] images on, [f] keeps the last of the images [I x] there is room
    for, and nothing else of [x] changes. *)
Definition keeps_last {A B} (f : A -> M Z B) (I : A -> list val) (J : B -> list val)
    (same : A -> B -> Prop) (x : A) : Prop :=
  forall n, exists y, f x n = (n + Z.of_nat (length (J y)), Ok y) /\
    J y = lastn (Z.to_nat (max_images - n)) (I x) /\ same x y.

Definition same_rest (R : val -> list val) (x : val) (y : list val) : Prop :=
  (length y <= 1)%nat /\ y ≫= R = R x.

Lemma keep_image_last (I R : val -> list val) x :
  I x = [x] -> R x = [] ->
  keeps_last (keep_image max_images) I (fun y => y ≫= I) (same_rest R) x.
Proof.
  intros HI HR n. unfold keep_image. rewrite (M_bind_run get _ n n n) by done.
  rewrite HI. unfold lastn, same_rest. simpl. case_bool_decide as Hn.
  - exists [x]. simpl. rewrite HI, HR. split_and!; [by rewrite (Z.add_comm n)| |lia|done].
    by replace (1 - Z.to_nat (max_images - n))%nat with 0%nat by lia.
  - exists []. simpl. rewrite HR. split_and!; [by rewrite Z.add_0_r| |lia|done].
    by replace (1 - Z.to_nat (max_images - n))%nat with 1%nat by lia.
Qed.

Lemma keep_other (I R : val -> list val) x :
  I x = [] -> keeps_last (fun x => mret [x]) I (fun y => y ≫= I) (same_rest R) x.
Proof.
  intros HI n. exists [x]. simpl. rewrite HI, app_nil_r. simpl. split; [by rewrite Z.add_0_r|].
  split; [done|]. split; simpl; [lia|by rewrite app_nil_r].
Qed.

Lemma reverse_short {A} (l : list A) : (length l <= 1)%nat -> reverse l = l.
Proof. destruct l as [|x [|]]; simpl; [done..|lia]. Qed.

Lemma each_block_app f a b n :
  each_block f (a ++ b) n = (x ← each_block f a; y ← each_block f b; mret (x ++ y)) n.
Proof.
  revert n. induction a as [|x a IH]; intros n; simpl.
  - unfold mbind, M_bind, mret, M_ret. by destruct (each_block f b n) as [? []].
  - unfold mbind, M_bind, mret, M_ret in *. destruct (f x n) as [n1 [u|e]]; [|done].
    rewrite IH. destruct (each_block f a n1) as [n2 [v|e]]; [|done].
    destruct (each_block f b n2) as [n3 [w|e]]; [|done]. by rewrite app_assoc.
Qed.

Lemma backwards_last f I R l :
  Forall (keeps_last f I (fun y => y ≫= I) (same_rest R)) l ->
  keeps_last (backwards f) (fun l => l ≫= I) (fun y => y ≫= I)
    (fun x y => y ≫= R = x ≫= R) l.
Proof.
  intros Hl. induction l as [|x l IH] using rev_ind; intros n.
  { exists []. simpl. rewrite Z.add_0_r. by split_and!. }
  apply Forall_app in Hl as [Hl Hx]. apply Forall_cons in Hx as [Hx _].
  destruct (Hx n) as (a & Ha & HIa & Hla & HRa).
  destruct (IH Hl (n + Z.of_nat (length (a ≫= I)))) as (b & Hb & HIb & HRb).
  apply M_bind_ok in Hb as (u & n' & Hu & [= -> <-]).
  exists (reverse u ++ a). unfold backwards. rewrite reverse_app. cbn [reverse rev_append app each_block].
  change (reverse [x] ++ reverse l) with (x :: reverse l). cbn [each_block].
  rewrite (M_bind_run _ _ n (n + Z.of_nat (length (a ≫= I)) + Z.of_nat (length (reverse u ≫= I)))
    (a ++ u)).
  2: { rewrite (M_bind_run _ _ _ _ _ Ha), (M_bind_run _ _ _ _ _ Hu). done. }
  rewrite !bind_app, !length_app, !reverse_app, !(reverse_short a) by done.
  split_and!.
  - unfold mret, M_ret. f_equal. lia.
  - cbn [mbind list_bind]. rewrite !app_nil_r.
    rewrite (lastn_app (Z.to_nat (max_images - n))), <- HIa, HIb. f_equal. f_equal. lia.
  - cbn [mbind list_bind]. by rewrite !app_nil_r, HRb, HRa.
Qed.
Lemma keeps_ext {A B} (f g : A -> M Z B) I J same x :
  (forall n, f x n = g x n) -> keeps_last g I J same x -> keeps_last f I J same x.
Proof. intros Hfg Hg n. destruct (Hg n) as (y & Hy). exists y. by rewrite Hfg. Qed.

Definition image_or_other (x : val) : M Z (list val) :=
  if is_image_type (default VNone (vget "type" x)) then keep_image max_images x else mret [x].

Lemma image_or_other_last I R x :
  I x = sub_images x -> (sub_images x = [x] -> R x = []) ->
  keeps_last image_or_other I (fun y => y ≫= I) (same_rest R) x.
Proof.
  unfold sub_images, image_or_other. intros HI HR.
  destruct (is_image_type (default VNone (vget "type" x))) eqn:E.
  - eapply (keeps_ext _ (keep_image max_images)); [intros n; by rewrite E|].
    by apply keep_image_last; [|apply HR].
  - eapply (keeps_ext _ (fun x => mret [x])); [intros n; by rewrite E|]. by apply keep_other.
Qed.

Lemma trim_sub_block_last x : is_dict x ->
  keeps_last (trim_sub_block max_images) sub_images (fun y => y ≫= sub_images)
    (same_rest sub_rest) x.
Proof.
  intros [d ->]. eapply (keeps_ext _ image_or_other); [done|].
  apply image_or_other_last; [done|]. unfold sub_rest, sub_images. by case_match.
Qed.

Lemma trim_block_last x : inner_ok x ->
  keeps_last (trim_block max_images) block_images (fun y => y ≫= block_images)
    (same_rest block_rest) x.
Proof.
  intros Hx. destruct x as [| | | | | |d]; try (by apply keep_other).
  assert (Hor : (forall inner, dget "content" d ≠ Some (VList inner)) ->
    keeps_last (trim_block max_images) block_images (fun y => y ≫= block_images)
      (same_rest block_rest) (VDict d)).
  { intros Hn. eapply (keeps_ext _ image_or_other).
    - intros n. unfold trim_block, image_or_other. simpl. unfold dget_or.
      destruct (dget "content" d) as [[]|]; try done. by destruct (Hn l).
    - apply image_or_other_last.
      + unfold block_images. simpl. destruct (dget "content" d) as [[]|]; try done. by destruct (Hn l).
      + unfold sub_images, block_rest, sub_rest. simpl. case_match; [|done].
        destruct (dget "content" d) as [[]|]; try done. by destruct (Hn l). }
  destruct (dget "content" d) as [[| | | | |inner|]|] eqn:Hc; try (apply Hor; congruence).
  clear Hor. intros n.
  destruct (backwards_last _ _ _ inner
    (Forall_impl _ _ _ (Hx inner Hc) trim_sub_block_last) n) as (new & Hnew & HI & HR).
  exists [VDict (dset "content" (VList new) d)].
  unfold trim_block, same_rest, block_images, block_rest. simpl. rewrite Hc, dget_dset_eq, app_nil_r.
  rewrite (M_bind_run _ _ _ _ _ Hnew). split_and!; [done|done|lia|].
  by rewrite dset_dset, HR.
Qed.

(** *** Messages *)

Lemma key_rest_ne k k' d : k ≠ k' -> dget k (key_rest k' d) = dget k d.
Proof. intros. unfold key_rest. repeat case_match; by rewrite ?dget_dset_ne. Qed.

Lemma key_rest_comm k k' d : key_rest k (key_rest k' d) = key_rest k' (key_rest k d).
Proof.
  destruct (decide (k = k')) as [->|Hne]; [done|]. unfold key_rest at 1 3.
  rewrite !key_rest_ne by done. unfold key_rest.
  destruct (dget k d) as [[]|] eqn:E1; try done;
    destruct (dget k' d) as [[]|] eqn:E2; try done.
  by apply dset_comm.
Qed.

Lemma keys_rest_comm k keys d :
  foldl (fun d k => key_rest k d) (key_rest k d) keys =
  key_rest k (foldl (fun d k => key_rest k d) d keys).
Proof. revert d. induction keys as [|k' keys IH]; intros d; [done|]. simpl. by rewrite key_rest_comm, IH. Qed.

Definition keys_images (keys : list string) (d : list (string * val)) : list val :=
  reverse keys ≫= key_images d.

Lemma keys_images_cons k keys d :
  keys_images (k :: keys) d = keys_images keys d ++ key_images d k.
Proof.
  unfold keys_images. rewrite reverse_cons, bind_app. f_equal. cbn [mbind list_bind].
  by rewrite app_nil_r.
Qed.

Lemma keys_images_ext keys d d' :
  (forall k, k ∈ keys -> dget k d' = dget k d) -> keys_images keys d' = keys_images keys d.
Proof.
  induction keys as [|k keys IH]; intros H; [done|]. rewrite !keys_images_cons, IH.
  - unfold key_images. by rewrite (H k) by left.
  - intros k' Hk'. apply H. by right.
Qed.

(** What [trim_keys] does to the keys it is given, from [n] images on. *)
Definition keys_trimmed (keys : list string) (d : list (string * val)) : Prop :=
  forall n, exists d',
    trim_keys max_images keys d n = (n + Z.of_nat (length (keys_images keys d')), Ok d') /\
    keys_images keys d' = lastn (Z.to_nat (max_images - n)) (keys_images keys d) /\
    foldl (fun d k => key_rest k d) d' keys = foldl (fun d k => key_rest k d) d keys /\
    forall k, k ∉ keys -> dget k d' = dget k d.

Lemma trim_key_list k keys d l :
  k ∉ keys -> dget k d = Some (VList l) -> Forall inner_ok l ->
  (forall new, keys_trimmed keys (dset k (VList new) d)) -> keys_trimmed (k :: keys) d.
Proof.
  intros Hk Hd Hl IH n. cbn [trim_keys]. rewrite Hd.
  destruct (backwards_last _ _ _ l (Forall_impl _ _ _ Hl trim_block_last) n)
    as (new & Hnew & HI & HR).
  rewrite (M_bind_run _ _ _ _ _ Hnew).
  destruct (IH new (n + Z.of_nat (length (new ≫= block_images)))) as (d' & Hd' & HI' & HR' & Hf).
  exists d'. rewrite !keys_images_cons. unfold key_images. rewrite (Hf k Hk), dget_dset_eq, Hd.
  split_and!.
  - rewrite Hd', length_app. f_equal. lia.
  - rewrite lastn_app, <- HI, HI'. f_equal.
    rewrite (keys_images_ext keys d); [f_equal; lia|].
    intros k' Hk'. apply dget_dset_ne. by intros ->.
  - cbn [foldl]. rewrite !keys_rest_comm, HR', <- !keys_rest_comm. f_equal.
    unfold key_rest. by rewrite dget_dset_eq, Hd, dset_dset, HR.
  - intros k' [Hne Hk']%not_elem_of_cons. rewrite Hf by done. by apply dget_dset_ne.
Qed.

Lemma trim_key_other k keys d :
  k ∉ keys -> (forall l, dget k d ≠ Some (VList l)) -> keys_trimmed keys d ->
  keys_trimmed (k :: keys) d.
Proof.
  intros Hk Hd IH n. destruct (IH n) as (d' & Hd' & HI & HR & Hf). exists d'.
  assert (Hki : key_images d' k = [] /\ key_images d k = []).
  { unfold key_images. rewrite (Hf k Hk). destruct (dget k d) as [[]|]; try done. by destruct (Hd l). }
  destruct Hki as [Hk1 Hk2]. rewrite !keys_images_cons, Hk1, Hk2, !app_nil_r.
  assert (Hrest : key_rest k d' = d' /\ key_rest k d = d).
  { unfold key_rest. rewrite (Hf k Hk). destruct (dget k d) as [[]|]; try done. by destruct (Hd l). }
  destruct Hrest as [Hr1 Hr2]. split_and!; [|done| |].
  - rewrite <- Hd'. cbn [trim_keys]. destruct (dget k d) as [[]|]; try done. by destruct (Hd l).
  - cbn [foldl]. by rewrite Hr1, Hr2.
  - intros k' [_ Hk']%not_elem_of_cons. by apply Hf.
Qed.

Lemma trim_keys_last keys d :
  NoDup keys ->
  (forall k l, k ∈ keys -> dget k d = Some (VList l) -> Forall inner_ok l) ->
  keys_trimmed keys d.
Proof.
  intros Hnd. revert d. induction Hnd as [|k keys Hk Hnd IH]; intros d Hok.
  { intros n. exists d. split_and!; [|done..]. simpl. by rewrite Z.add_0_r. }
  destruct (dget k d) as [[| | | | |l|]|] eqn:Hd;
    try (apply trim_key_other; [done|congruence|];
         apply IH; intros k' l' Hk'; apply Hok; by right).
  eapply trim_key_list; [done..| |].
  - eapply Hok; [left|done].
  - intros new. apply IH. intros k' l' Hk'. rewrite dget_dset_ne by (by intros ->).
    apply Hok. by right.
Qed.

Lemma trim_message_last m : trimmable m ->
  keeps_last (trim_message max_images) message_images (fun y => y ≫= message_images)
    (same_rest message_rest) m.
Proof.
  intros Hm. destruct m as [| | | | | |d]; try (by apply keep_other).
  intros n. destruct (trim_keys_last content_keys d) with (n := n) as (d' & Hd & HI & HR & _).
  { unfold content_keys. repeat constructor; set_solver. }
  { intros k l Hk Hl. by apply (Hm k l). }
  exists [VDict d']. unfold trim_message, same_rest. rewrite (M_bind_run _ _ _ _ _ Hd).
  cbn [mbind list_bind]. rewrite !app_nil_r. split_and!; [done|done|simpl; lia|].
  unfold message_rest. by rewrite HR.
Qed.
End trim_spec.

(** Trimming keeps exactly the last max_images images of a conversation, those
    of nested tool results included, in their order, and everything that is not an
    image. *)
Theorem trim_images_last messages max_images :
  Forall trimmable messages ->
  exists kept, trim_images messages max_images = Ok kept /\
    kept ≫= message_images = lastn (Z.to_nat max_images) (messages ≫= message_images) /\
    kept ≫= message_rest = messages ≫= message_rest.
Proof.
  intros Hm.
  destruct (backwards_last max_images _ _ _ messages
    (Forall_impl _ _ _ Hm (trim_message_last max_images)) 0) as (kept & Hk & HI & HR).
  exists kept. unfold trim_images. rewrite Hk, HI, Z.sub_0_r. done.
Qed.

(** ** Sizes *)

(** The sides of an image after scaling: at least one, the chosen side exact
    and the other one as near to the proportion as integers allow. *)
Lemma scale_size_spec n c w h w' h' :
  0 < n -> 0 < c < 10 ^ 9 -> 0 < w -> 0 < h -> scale_size n c w h = (w', h') ->
  1 <= w' /\ 1 <= h' /\ (w = c -> w' = n) /\ (h = c -> h' = n) /\
  (2 * (w * n) - c <= 2 * (w' * c) /\ (w' = 1 \/ 2 * (w' * c) <= 2 * (w * n) + c)) /\
  (2 * (h * n) - c <= 2 * (h' * c) /\ (h' = 1 \/ 2 * (h' * c) <= 2 * (h * n) + c)).
Proof.
  intros Hn Hc Hw Hh. unfold scale_size. case_bool_decide as Hnear.
  - assert (n = c) as -> by lia. intros [= -> ->]. split_and!; [lia..|nia|right; nia|nia|right; nia].
  - intros [= <- <-]. pose proof (round_div_bounds (w * n) c ltac:(lia)) as B1.
    pose proof (round_div_bounds (h * n) c ltac:(lia)) as B2.
    split_and!; [lia|lia| | |nia| |nia|].
    + intros ->. rewrite round_div_exact by lia. lia.
    + intros ->. rewrite round_div_exact by lia. lia.
    + destruct (decide (round_div (w * n) c <= 1)); [left; lia|right]. rewrite Z.max_r by lia. nia.
    + destruct (decide (round_div (h * n) c <= 1)); [left; lia|right]. rewrite Z.max_r by lia. nia.
Qed.

Definition mode_ok (mode : size_mode) : Prop :=
  match mode with
  | SizeMin n | SizeMax n => 0 < n
  | SizeExact w h => 0 < w /\ 0 < h
  end.

Lemma parse_size_ok spec mode : parse_size spec = Ok mode -> mode_ok mode.
Proof.
  unfold parse_size. intros H.
  repeat (case_match; try done); simplify_eq/=;
    rewrite ?bool_decide_eq_false in *; simpl; lia.
Qed.


(** ** What resizing leaves alone *)

Lemma maybe_resize_unopened {Img} `{Pil Img} mode v :
  (forall b, image_open (Img := Img) b = None) -> maybe_resize mode v = v.
Proof.
  intros Ho. assert (Hr : forall m b, resize_payload mode m b = None).
  { intros m b. unfold resize_payload. by rewrite Ho. }
  induction v as [| | | |s|l IH|d IH] using val_nested_ind; try done.
  - cbn [maybe_resize]. destruct (parse (VStr s)) as [p|]; [|done].
    rewrite Hr. by case_match.
  - cbn [maybe_resize]. f_equal. induction IH as [|x l Hx _ IHl]; [done|]. simpl. by rewrite Hx, IHl.
  - cbn [maybe_resize]. destruct (handle_base64_dict mode d) as [d'|] eqn:E.
    + f_equal. unfold handle_base64_dict in E. revert E.
      repeat case_match; intros; simplify_eq; try done.
      match goal with H : _ ≫= _ = Some _ |- _ => revert H end.
      destruct (b64decode _); simpl; [by rewrite Hr|done].
    + f_equal. clear E. induction IH as [|[k x] l Hx _ IHl]; [done|]. simpl in *. by rewrite Hx, IHl.
Qed.

(** ** Examples *)
Module Examples.
Definition image (n : Z) : val := VDict [("type", VStr "image_url"); ("n", VInt n)].
Definition text : val := VDict [("type", VStr "text"); ("text", VStr "t")].
Definition conversation : list val :=
  [VDict [("role", VStr "user"); ("content", VList [image 1; text; image 2])];
   VDict [("role", VStr "tool"); ("content",
     VList [VDict [("type", VStr "tool_result"); ("content", VList [image 3; text])]])]].

Example trim_to_two :
  trim_images conversation 2 =
  Ok [VDict [("role", VStr "user"); ("content", VList [text; image 2])];
      VDict [("role", VStr "tool"); ("content",
        VList [VDict [("type", VStr "tool_result"); ("content", VList [image 3; text])]])]].
Proof. by vm_compute. Qed.

Lemma trim_images_last_witness :
  exists kept, trim_images conversation 2 = Ok kept /\ kept ≫= message_images = [image 2; image 3] /\
    kept ≫= message_rest = conversation ≫= message_rest.
Proof.
  apply (trim_images_last conversation 2).
  repeat (apply Forall_cons; split; [|]); [..|by apply Forall_nil]; intros k l Hk;
    unfold content_keys in Hk; rewrite !elem_of_cons in Hk;
    destruct Hk as [->|[->|[->|[]%elem_of_nil]]]; simpl; intros [= <-];
    repeat (apply Forall_cons; split; [|]); try (by apply Forall_nil); intros inner; simpl;
    intros [= <-]; repeat (apply Forall_cons; split; [by eexists|]); by apply Forall_nil.
Defined.

End Examples.
