(* ===== verification/Store.v ===== *)
(** * Results of the evaluator

    Models the keys and results of eval/session/types.py, eval/session/metric.py
    and eval/store/store.py and list.py.  The table of results is a class: a row
    per key, and an update that replaces the row of a key or adds one. *)

From S2P Require Import Prelude PyVal DataUrl Workflow.

(** ** Keys *)

(** An index is an integer or a string. *)
Definition str_index (i : val) : string :=
  match i with VInt n => str_Z n | VStr s => s | _ => "" end.

(* eval/session/types.py:95-96 RunSpec.task_key *)
Definition task_key (s : RunSpec) : string := sp_task s +:+ ":" +:+ str_index (sp_index s).
(* eval/session/types.py:98-99 RunSpec.run_key *)
Definition run_key (s : RunSpec) : string :=
  sp_model s +:+ ":" +:+ sp_task s +:+ ":" +:+ str_index (sp_index s) +:+ ":" +:+ str_Z (sp_run s).

(* eval/session/types.py:118-125 RunResult.spec *)
Definition spec_of (r : RunResult) : RunSpec :=
  {| sp_model := sp_model (r_spec r); sp_run := sp_run (r_spec r); sp_task := sp_task (r_spec r);
     sp_index := sp_index (r_spec r); sp_custom_params := [] |}.

(** ** Metrics *)

(* eval/session/types.py:128-131 MetricType *)
Inductive MetricType : Type := REWARD | SCORE | SUCCESS_RATE.
(* eval/session/types.py:134-139 MetricResult *)
Inductive MetricResult : Type := SUCCESS | PARTIAL_SUCCESS | FAILURE | UNKNOWN_RESULT | ERROR.

Definition as_float (v : val) : option pyfloat :=
  match v with VInt n => Some (Fin (inject_Z n)) | VFloat x => Some x | _ => None end.
Definition reward_of (r : RunResult) : option pyfloat := Fin <$> r_reward r.
Definition is_value (x : Q) (v : option pyfloat) : bool :=
  match v with Some v => feq v (Fin x) | None => false end.

(* eval/session/metric.py:14-21 Metric.__call__ *)
Definition metric_value (t : MetricType) (r : RunResult) : option pyfloat :=
  match t with
  | REWARD => reward_of r
  | SCORE => r_score r ≫= as_float
  | SUCCESS_RATE =>
      match reward_of r with
      | None => None
      | v => Some (Fin (if is_value 1 v then 1 else 0))
      end
  end.

(* eval/session/metric.py:13-31 Metric.__call__ *)
Definition metric (t : MetricType) (r : RunResult) : option pyfloat * MetricResult :=
  let value := metric_value t r in
  (value,
   if negb (is_completed (r_status r)) then ERROR
   else if is_value 1 value then SUCCESS
   else if is_value 0 value then FAILURE
   else match value with
        | Some v => if flt (Fin 0) v && flt v (Fin 1) then PARTIAL_SUCCESS else UNKNOWN_RESULT
        | None => UNKNOWN_RESULT
        end).

(* eval/session/metric.py:33-38 Metric.all *)
Definition all_metrics (r : RunResult) : list (MetricType * option pyfloat) :=
  (fun t => (t, (metric t r).1)) <$> [REWARD; SCORE; SUCCESS_RATE].

(** ** Rows *)

(* eval/store/store.py:16-35 SCHEMA *)
Record row := {
  w_model : string;
  w_session_id : option Z;
  w_run : Z;
  w_task : string;
  w_index : option Z * option string;
  w_status : SampleStatus;
  w_reward : option pyfloat;
  w_score : option pyfloat;
  w_success_rate : option pyfloat;
  w_metrics : option val;
  w_result : option val;
  w_task_trace : option string;
  w_raw_trace : option string
}.

(** The columns an update matches on. *)
Definition row_key (w : row) : string * Z * string * (option Z * option string) :=
  (w_model w, w_run w, w_task w, w_index w).

(* eval/store/store.py:173-176 ResultStore.record *)
Definition index_struct (i : val) : option Z * option string :=
  (match i with VInt n => Some n | _ => None end, match i with VStr s => Some s | _ => None end).

(** The values of a JSON column are kept as values. *)
(* eval/store/store.py:168-185 ResultStore.record *)
Definition make_row (r : RunResult) (task_trace_path raw_trace_path : option string) : row :=
  let sp := r_spec r in
  {| w_model := sp_model sp; w_session_id := r_session_id r; w_run := sp_run sp;
     w_task := sp_task sp; w_index := index_struct (sp_index sp); w_status := r_status r;
     w_reward := metric_value REWARD r; w_score := metric_value SCORE r;
     w_success_rate := metric_value SUCCESS_RATE r;
     w_metrics := VDict <$> r_metrics r; w_result := r_result r;
     w_task_trace := task_trace_path; w_raw_trace := raw_trace_path |}.

(* eval/store/store.py:105-114 ResultStore.completed *)
Definition row_spec (w : row) : RunSpec :=
  {| sp_model := w_model w; sp_run := w_run w; sp_task := w_task w;
     sp_index := match (w_index w).1 with
                 | Some n => VInt n
                 | None => match (w_index w).2 with Some s => VStr s | None => VNone end
                 end;
     sp_custom_params := [] |}.

(** A reward that is read back. *)
Definition finite (v : option pyfloat) : option Q :=
  match v with Some (Fin q) => Some q | _ => None end.

(* eval/store/store.py:115-130 ResultStore.completed *)
Definition row_result (w : row) : RunResult :=
  {| r_spec := row_spec w; r_session_id := w_session_id w; r_status := w_status w;
     r_reward := finite (w_reward w); r_score := VFloat <$> w_score w; r_metrics := None;
     r_result := None; r_task_trace := None; r_raw_trace := [] |}.

(** ** The store *)

(** A table of rows: polars. *)
Class Frame (F : Type) := {
  frame_empty : F;
  rows : F -> list row;
  (** [update(on=[model, run, task, index], how='full', include_nulls=True)] *)
  frame_update : F -> row -> F
}.

(** The directory of a session: its payload files and its JSON files. *)
Record session_dir := { payloads : gmap string string; json : gmap string val }.
Definition empty_dir : session_dir := {| payloads := ∅; json := ∅ |}.

Section store.
Context {F : Type} `{Frame F}.
Context (sha256 : string -> string) (guess_extension : string -> option string).

(** [results], what [results_path] holds, [_results_last_save], the directories
    below [path] and the names of the files there. *)
(* eval/store/store.py:54-69 ResultStore.__init__ *)
Record ResultStore := {
  results : F;
  saved : option F;
  last_save : Q;
  dirs : gmap string session_dir;
  plain : list string;
  multi_model : bool;
  multi_task : bool
}.

Definition with_results (f : F) (s : ResultStore) : ResultStore :=
  {| results := f; saved := saved s; last_save := last_save s; dirs := dirs s; plain := plain s;
     multi_model := multi_model s; multi_task := multi_task s |}.
Definition with_saved (f : F) (now : Q) (s : ResultStore) : ResultStore :=
  {| results := results s; saved := Some f; last_save := now; dirs := dirs s; plain := plain s;
     multi_model := multi_model s; multi_task := multi_task s |}.
Definition with_dirs (d : gmap string session_dir) (s : ResultStore) : ResultStore :=
  {| results := results s; saved := saved s; last_save := last_save s; dirs := d; plain := plain s;
     multi_model := multi_model s; multi_task := multi_task s |}.

(** A store over a path: whether it is a directory or some other file, and the
    results saved there; results that cannot be read are left aside. *)
(* eval/store/store.py:40-69 ResultStore.__init__ *)
Definition open_store (is_dir exists_ resume multi_model multi_task : bool) (read : option F)
    (d : gmap string session_dir) (plain : list string) : res ResultStore :=
  if negb is_dir && (resume || exists_) then Raise NotADirectoryError
  else Ok {| results := default frame_empty read; saved := read; last_save := 0; dirs := d;
             plain := plain; multi_model := multi_model; multi_task := multi_task |}.

(* eval/store/store.py:74-87 ResultStore.session_path *)
Definition session_path (spec : RunSpec) (session_id : option Z) (ts : Z) (s : ResultStore)
    : res string :=
  let parts := [if multi_model s then Some (sp_model spec) else None;
                if multi_task s then Some (sp_task spec) else None;
                Some (str_index (sp_index spec)); Some (str_Z (sp_run spec));
                str_Z <$> session_id; Some (str_Z ts)] in
  let path := replace_char "/" "_" (join "-" (omap id parts)) in
  if bool_decide (path ∈ plain s) then Raise NotADirectoryError else Ok path.

(* eval/store/store.py:89-132 ResultStore.completed *)
Definition completed (s : ResultStore) : list (string * RunResult) :=
  foldl (fun result w => dset (run_key (row_spec w)) (row_result w) result) []
    (filter (fun w => is_completed (w_status w) = true) (rows (results s))).

(** The trace of messages as the value that is dumped. *)
Definition trace_value (l : list message_record) : val :=
  VList (l ≫= fun m => match m with
                       | Slice l => VDict <$> l
                       | FromModel (VList l) => l
                       | FromModel v => [v]
                       end).

(** One of the two traces: its payloads are moved to files of the session's
    directory, [seen] being the empty dictionary of the caller each time. *)
(* eval/store/store.py:141-163 ResultStore.record *)
Definition extract_trace (file : string) (trace : option val) (next_index : Z) (d : session_dir)
    : res (session_dir * Z) :=
  match trace with
  | None => Ok (d, next_index)
  | Some v =>
      let '(fs, _, r) := extract sha256 guess_extension v next_index (payloads d) [] in
      '(v, n) ← r; Ok ({| payloads := fs; json := <[file := v]> (json d) |}, n)
  end.

(* eval/store/store.py:252-263 ResultStore.save *)
Definition save (force : bool) (now : Q) (s : ResultStore) : ResultStore :=
  if negb force && negb (Qle_bool 10 (now - last_save s)) then s
  else with_saved (results s) now s.

(* eval/store/store.py:134-191 ResultStore.record *)
Definition record (r : RunResult) (ts : Z) (now : Q) : M ResultStore unit := fun s =>
  match (path ← session_path (spec_of r) (r_session_id r) ts s;
         '(d, n) ← extract_trace "task_trace.json" (r_task_trace r) 1
                     (default empty_dir (dirs s !! path));
         '(d, _) ← extract_trace "trace.json" (Some (trace_value (r_raw_trace r))) n d;
         Ok (path, d)) with
  | Raise e => (s, Raise e)
  | Ok (path, d) =>
      let s := with_dirs (<[path := d]> (dirs s)) s in
      let file f := path +:+ "/" +:+ f in
      let w := make_row r (match r_task_trace r with Some _ => Some (file "task_trace.json") | None => None end)
                 (Some (file "trace.json")) in
      (save false now (with_results (frame_update (results s) w) s), Ok tt)
  end.
End store.
Arguments ResultStore F : clear implicits.

(** ** Keys name specs *)

Lemma app_sep_inj_r {A} (c : A) l1 l2 r1 r2 :
  c ∉ r1 -> c ∉ r2 -> l1 ++ c :: r1 = l2 ++ c :: r2 -> l1 = l2 ∧ r1 = r2.
Proof.
  revert l2. induction l1 as [|a l1 IH]; intros [|b l2] H1 H2 Heq; simplify_eq/=; [done|..].
  - by destruct H1; apply elem_of_app; right; left.
  - by destruct H2; apply elem_of_app; right; left.
  - by destruct (IH l2 H1 H2) as [-> ->].
Qed.

Lemma chars_inj s1 s2 : chars s1 = chars s2 -> s1 = s2.
Proof.
  intros H. rewrite <- (String.string_of_list_ascii_of_string s1).
  rewrite <- (String.string_of_list_ascii_of_string s2). by apply (f_equal of_chars) in H.
Qed.

Lemma sep_inj_r c s1 s2 r1 r2 :
  no_char c r1 -> no_char c r2 ->
  s1 +:+ String c r1 = s2 +:+ String c r2 -> s1 = s2 ∧ r1 = r2.
Proof.
  intros H1 H2 Heq%(f_equal chars). rewrite !chars_app in Heq. simpl in Heq.
  apply (app_sep_inj_r c (chars s1) (chars s2) (chars r1) (chars r2)) in Heq as [Hs Hr]; [|done..].
  by split; apply chars_inj.
Qed.

Lemma str_Z_no_colon n : 0 <= n -> no_char ":" (str_Z n).
Proof.
  intros Hn. destruct (str_Z_chars n Hn) as (l & H1 & H2 & _). unfold no_char. rewrite H1.
  intros Hin. rewrite Forall_forall in H2. by specialize (H2 _ Hin).
Qed.

Lemma str_Z_inj n m : str_Z n = str_Z m -> n = m.
Proof. apply (inj pretty). Qed.

(** The names hold no colon, and an index that is a string is not the text of an
    integer. *)
Definition index_ok (i : val) : Prop :=
  match i with VInt _ => True | VStr s => forall n, s ≠ str_Z n | _ => False end.
Definition spec_ok (s : RunSpec) : Prop :=
  no_char ":" (sp_model s) ∧ no_char ":" (sp_task s) ∧ 0 <= sp_run s ∧ index_ok (sp_index s).

Lemma str_index_inj i j : index_ok i -> index_ok j -> str_index i = str_index j -> i = j.
Proof.
  destruct i, j; simpl; try done; intros Hi Hj Heq.
  - by apply str_Z_inj in Heq as ->.
  - by destruct (Hj z).
  - by destruct (Hi z).
  - by subst.
Qed.

Lemma run_key_inj s s' : spec_ok s -> spec_ok s' -> run_key s = run_key s' ->
  sp_model s = sp_model s' ∧ sp_task s = sp_task s' ∧ sp_index s = sp_index s' ∧ sp_run s = sp_run s'.
Proof.
  intros (H1 & H2 & H3 & H4) (H1' & H2' & H3' & H4') Heq. unfold run_key in Heq.
  apply (sep_inj ":") in Heq as [Hm Heq]; [|done..].
  apply (sep_inj ":") in Heq as [Ht Heq]; [|done..].
  apply (sep_inj_r ":") in Heq as [Hi Hr]; [|by apply str_Z_no_colon..].
  apply str_index_inj in Hi; [|done..]. by apply str_Z_inj in Hr.
Qed.

(** Without the conditions keys collide: the index 1 and the index '1'. *)
Example keys_collide :
  let sp i := {| sp_model := "m"; sp_run := 0; sp_task := "t"; sp_index := i; sp_custom_params := [] |} in
  run_key (sp (VInt 1)) = run_key (sp (VStr "1")).
Proof. done. Qed.

(** ** The completed results *)

(** A dictionary built from entries with distinct keys holds those entries. *)
Lemma dict_of_entries {A V} (g : A -> string) (h : A -> V) l :
  NoDup (g <$> l) -> forall d, (forall w, w ∈ l -> g w ∉ dkeys d) ->
  forall k, dget k (foldl (fun d w => dset (g w) (h w) d) d l) =
    match list_find (fun w => g w = k) l with Some (_, w) => Some (h w) | None => dget k d end.
Proof.
  induction l as [|w l IH]; intros Hn d Hd k; [done|]. simpl. apply NoDup_cons in Hn as [Hw Hn].
  rewrite IH; [|done|].
  - rewrite dget_dset. destruct (list_find (fun w => g w = k) l) as [[i x]|] eqn:E; simpl.
    + apply list_find_Some in E as (Hx & Hg & _). case_decide as Hk; [|done].
      destruct Hw. rewrite Hk, <- Hg. by apply list_elem_of_fmap_2, (list_elem_of_lookup_2 _ i).
    + by repeat case_decide; subst.
  - intros x Hx Hin. apply dkeys_elem in Hin. rewrite dget_dset in Hin. case_decide as Hxw.
    + apply Hw. rewrite <- Hxw. by apply list_elem_of_fmap_2.
    + apply dkeys_elem in Hin. apply (Hd x); [by right|done].
Qed.

Lemma dict_of_entries_in {A V} (g : A -> string) (h : A -> V) l w :
  NoDup (g <$> l) -> w ∈ l ->
  dget (g w) (foldl (fun d w => dset (g w) (h w) d) [] l) = Some (h w).
Proof.
  intros Hn Hw. rewrite dict_of_entries by (done || by intros ? _ ?%elem_of_nil).
  destruct (list_find _ l) as [[i x]|] eqn:E.
  - apply list_find_Some in E as (Hx & Hg & _). f_equal. f_equal.
    apply list_elem_of_lookup in Hw as [j Hj].
    assert (i = j) as ->; [|by simplify_eq].
    apply (NoDup_lookup (g <$> l) i j (g w)); [done|by rewrite list_lookup_fmap, Hx; simpl; f_equal|].
    by rewrite list_lookup_fmap, Hj.
  - apply list_find_None in E. rewrite Forall_forall in E. by destruct (E w Hw).
Qed.

Lemma dict_of_entries_None {A V} (g : A -> string) (h : A -> V) l k :
  NoDup (g <$> l) -> k ∉ g <$> l ->
  dget k (foldl (fun d w => dset (g w) (h w) d) [] l) = None.
Proof.
  intros Hn Hk. rewrite dict_of_entries by (done || by intros ? _ ?%elem_of_nil).
  destruct (list_find _ l) as [[i x]|] eqn:E; [|done].
  apply list_find_Some in E as (Hx & <- & _). destruct Hk.
  by apply list_elem_of_fmap_2, (list_elem_of_lookup_2 _ i).
Qed.

Section refinement.
Context {F : Type} `{Frame F}.
Context (sha256 : string -> string) (guess_extension : string -> option string).
(** An update replaces the row of its key, or adds one. *)
Context (frame_empty_rows : rows frame_empty = [])
  (frame_update_rows : forall f w, NoDup (row_key <$> rows f) ->
     rows (frame_update f w) ≡ₚ w :: filter (fun w' => row_key w' ≠ row_key w) (rows f)).

#[local] Abbreviation record := (record sha256 guess_extension).

Definition row_ok (w : row) : Prop :=
  spec_ok (row_spec w) ∧ w_index w = index_struct (sp_index (row_spec w)).
Definition frame_ok (f : F) : Prop := NoDup (row_key <$> rows f) ∧ Forall row_ok (rows f).

Lemma row_keys w w' : row_ok w -> row_ok w' ->
  row_key w = row_key w' ↔ run_key (row_spec w) = run_key (row_spec w').
Proof.
  intros [Hw Hi] [Hw' Hi']. split.
  - unfold row_key. intros [= H1 H2 H3 H4]. unfold run_key, row_spec. simpl. by rewrite H1, H2, H3, H4.
  - intros Heq. apply run_key_inj in Heq as (H1 & H2 & H3 & H4); [|done..].
    unfold row_key. rewrite Hi, Hi', H3. simpl in *. by rewrite H1, H2, H4.
Qed.

Lemma run_keys_NoDup (l : list row) : Forall row_ok l -> NoDup (row_key <$> l) ->
  NoDup ((fun w => run_key (row_spec w)) <$> l).
Proof.
  induction 1 as [|w l Hw Hl IH]; intros Hn; [apply NoDup_nil_2|]. simpl in *. apply NoDup_cons in Hn as [Hni Hn].
  apply NoDup_cons. split; [|by apply IH]. intros (x & Hx & Hin)%list_elem_of_fmap. apply Hni.
  apply list_elem_of_fmap. exists x. split; [|done].
  rewrite Forall_forall in Hl. apply row_keys; auto.
Qed.

Lemma make_row_spec r p q : index_ok (sp_index (r_spec r)) -> row_spec (make_row r p q) = spec_of r.
Proof.
  intros Hi. unfold row_spec, spec_of. simpl. f_equal. by destruct (sp_index (r_spec r)).
Qed.

Lemma make_row_ok r p q : spec_ok (spec_of r) -> row_ok (make_row r p q).
Proof.
  intros Hs. pose proof Hs as (_ & _ & _ & Hi). simpl in Hi. unfold row_ok.
  by rewrite make_row_spec.
Qed.

Definition rekey (w : row) : string := run_key (row_spec w).
Definition done_rows (f : F) : list row := filter (fun w => is_completed (w_status w) = true) (rows f).

Lemma frame_update_ok f w : frame_ok f -> row_ok w -> frame_ok (frame_update f w).
Proof.
  intros [Hn Hf] Hw. pose proof (frame_update_rows f w Hn) as Hp. split.
  - rewrite Hp. simpl. apply NoDup_cons. split.
    + intros (x & Hk & [Hne _]%list_elem_of_filter)%list_elem_of_fmap. done.
    + clear Hp Hf. induction (rows f) as [|x l IH]; [apply NoDup_nil_2|].
      simpl in Hn. apply NoDup_cons in Hn as [Hx Hn]. rewrite filter_cons. case_decide; [|by apply IH].
      simpl. apply NoDup_cons. split; [|by apply IH].
      intros (y & Hy & [_ Hin]%list_elem_of_filter)%list_elem_of_fmap. apply Hx. rewrite Hy.
      by apply list_elem_of_fmap_2.
  - rewrite Hp. constructor; [done|]. rewrite Forall_forall in *.
    intros x [_ Hx]%list_elem_of_filter. by apply Hf.
Qed.

Lemma done_NoDup f : frame_ok f -> NoDup (rekey <$> done_rows f).
Proof.
  intros [Hn Hf]. pose proof (run_keys_NoDup _ Hf Hn) as Hk. unfold done_rows, rekey. clear -Hk.
  induction (rows f) as [|w l IH]; [apply NoDup_nil_2|]. simpl in Hk. apply NoDup_cons in Hk as [Hw Hk].
  rewrite filter_cons. case_decide; [|by apply IH]. simpl. apply NoDup_cons. split; [|by apply IH].
  intros (y & Hy & [_ Hin]%list_elem_of_filter)%list_elem_of_fmap. apply Hw. rewrite Hy.
  apply list_elem_of_fmap. by exists y.
Qed.

(** The result of a row with the key, among the completed ones. *)
Lemma completed_get s k : frame_ok (results s) ->
  forall r, dget k (completed s) = Some r ↔
    exists w, w ∈ rows (results s) ∧ is_completed (w_status w) = true ∧ rekey w = k ∧ row_result w = r.
Proof.
  intros Hf r. unfold completed. fold (done_rows (results s)). pose proof (done_NoDup _ Hf) as Hn.
  split.
  - intros Hd. destruct (decide (k ∈ rekey <$> done_rows (results s))) as [Hin|Hni].
    + apply list_elem_of_fmap in Hin as (w & -> & Hw). exists w.
      rewrite (dict_of_entries_in rekey row_result) in Hd by done.
      apply list_elem_of_filter in Hw as [Hc Hw]. by injection Hd.
    + by rewrite (dict_of_entries_None rekey row_result) in Hd.
  - intros (w & Hw & Hc & <- & <-). apply (dict_of_entries_in rekey row_result); [done|].
    by apply list_elem_of_filter.
Qed.

(** What is left of a result once it is read back. *)
Definition seen_again (r : RunResult) : RunResult :=
  {| r_spec := spec_of r; r_session_id := r_session_id r; r_status := r_status r;
     r_reward := r_reward r; r_score := VFloat <$> (r_score r ≫= as_float); r_metrics := None;
     r_result := None; r_task_trace := None; r_raw_trace := [] |}.

Lemma row_result_make r p q : index_ok (sp_index (r_spec r)) ->
  row_result (make_row r p q) = seen_again r.
Proof.
  intros Hi. unfold row_result, seen_again. rewrite make_row_spec by done. simpl.
  unfold reward_of. by destruct (r_reward r).
Qed.

(** The table is a map from keys to completed results. *)
Definition sim (f : F) (m : gmap string RunResult) : Prop :=
  frame_ok f ∧ forall k r, m !! k = Some r ↔
    exists w, w ∈ rows f ∧ is_completed (w_status w) = true ∧ rekey w = k ∧ row_result w = r.

Definition abstract (m : gmap string RunResult) (r : RunResult) : gmap string RunResult :=
  if is_completed (r_status r) then <[run_key (spec_of r) := seen_again r]> m
  else delete (run_key (spec_of r)) m.

Lemma sim_update f m r p q : sim f m -> spec_ok (spec_of r) ->
  sim (frame_update f (make_row r p q)) (abstract m r).
Proof.
  intros [Hf Hm] Hs. pose proof Hs as (_ & _ & _ & Hi). simpl in Hi.
  pose proof (make_row_ok r p q Hs) as Hw. split; [by apply frame_update_ok|].
  assert (Hk : rekey (make_row r p q) = run_key (spec_of r)) by (unfold rekey; by rewrite make_row_spec).
  assert (Hin : forall w, w ∈ rows (frame_update f (make_row r p q)) ↔
    w = make_row r p q ∨ rekey w ≠ run_key (spec_of r) ∧ w ∈ rows f).
  { intros w. rewrite (frame_update_rows f _ (proj1 Hf)), elem_of_cons, list_elem_of_filter.
    rewrite <- Hk. unfold rekey. destruct Hf as [_ Hf]. rewrite Forall_forall in Hf.
    assert (w ∈ rows f -> row_key w = row_key (make_row r p q) ↔
      run_key (row_spec w) = run_key (row_spec (make_row r p q))) by (intros; apply row_keys; auto).
    naive_solver. }
  intros k r'. setoid_rewrite Hin. unfold abstract. destruct (is_completed (r_status r)) eqn:Hc.
  - rewrite lookup_insert_Some, Hm. split.
    + intros [[<- <-]|(Hne & w & Hw' & Hc' & <- & Hr)].
      * exists (make_row r p q). split_and!; [by left|done|done|by apply row_result_make].
      * exists w. split_and!; auto.
    + intros (w & [->|[Hne Hw']] & Hc' & <- & <-).
      * left. by rewrite row_result_make.
      * right. split; [done|]. by exists w.
  - rewrite lookup_delete_Some, Hm. split.
    + intros (Hne & w & Hw' & Hc' & <- & Hr). exists w. split_and!; auto.
    + intros (w & [->|[Hne Hw']] & Hc' & <- & <-); [simpl in Hc'; congruence|].
      split; [done|]. by exists w.
Qed.

Lemma walk_never_raises o :
  safe (fun _ => True) (fun _ => False) (extract_walk sha256 guess_extension o).
Proof.
  induction o as [| | | |t|l IH|d IH] using val_nested_ind; try apply safe_ret; cbn [extract_walk].
  - destruct (parse (VStr t)) as [x|]; [|apply safe_ret].
    apply safe_bind; [|intros; apply safe_ret]. intros s _. unfold ensure_file. by case_bool_decide.
  - rewrite Forall_forall in IH. apply safe_bind; [by apply safe_map_m|]. intros. apply safe_ret.
  - rewrite Forall_forall in IH. apply safe_bind; [|intros; apply safe_ret]. apply safe_map_m.
    intros [k x] Hx. apply safe_bind; [apply (IH (k, x) Hx)|]. intros. apply safe_ret.
Qed.

Lemma extract_total v n fs :
  exists fs' v' n', extract sha256 guess_extension v n fs [] = (fs', [], Ok (v', n')).
Proof.
  pose proof (walk_never_raises v {| files := fs; seen := []; idx := n |} I) as [_ Hw]. unfold extract.
  destruct (extract_walk _ _ v _) as [s' [v'|e]]; [by do 3 eexists|done].
Qed.

Lemma extract_trace_total file trace n d :
  exists d' n', extract_trace sha256 guess_extension file trace n d = Ok (d', n').
Proof.
  destruct trace as [v|]; [|by do 2 eexists]. simpl.
  destruct (extract_total v n (payloads d)) as (fs & v' & n' & ->). by do 2 eexists.
Qed.

Lemma record_results r ts now s : plain s = [] ->
  exists s' p q, record r ts now s = (s', Ok tt) ∧ plain s' = [] ∧
    results s' = frame_update (results s) (make_row r p q).
Proof.
  intros Hp. unfold Store.record, session_path. rewrite Hp, bool_decide_false by (by intros ?%elem_of_nil).
  simpl. set (path := replace_char _ _ _).
  destruct (extract_trace_total "task_trace.json" (r_task_trace r) 1 (default empty_dir (dirs s !! path)))
    as (d & n & Hd). unfold mbind in Hd |- *. simpl in Hd |- *. rewrite Hd. simpl.
  destruct (extract_total (trace_value (r_raw_trace r)) n (payloads d)) as (fs & v' & n' & ->). simpl.
  do 3 eexists. split; [done|]. unfold save. by case_match.
Qed.

End refinement.

(** ** The traces of a session *)

Section traces.
Context {F : Type} `{Frame F}.
Context (sha256 : string -> string) (guess_extension guess_file_type : string -> option string)
  (strict : bool).
(** As in DataUrl: payloads with one hash are one payload, and the module
    mimetypes knows extensions and types. *)
Context (sha256_inj : forall p q, sha256 p = sha256 q -> p = q)
  (extensions : forall m e, guess_extension m = Some e -> ext_ok e)
  (types : forall e m, guess_file_type e = Some m -> mime_ok (lower m)).

(** A walk leaves the files with smaller numbers alone. *)
Lemma walk_frame i e k f o : 0 <= i < k -> ext_ok e ->
  keeps (fun s => k <= idx s ∧ files s !! (pad3 i +:+ e) = f) (fun _ => True)
    (extract_walk sha256 guess_extension o).
Proof.
  intros Hi He.
  induction o as [| | | |t|l IH|d IH] using val_nested_ind; try (by apply keeps_ret); cbn [extract_walk].
  - destruct (parse (VStr t)) as [p|]; [|by apply keeps_ret].
    apply (keeps_bind _ (fun _ => True)); [|intros; by apply keeps_ret].
    intros s [Hk Hf]. split; [|done].
    unfold ensure_file. case_bool_decide; simpl; [|done]. split; [lia|]. rewrite lookup_insert_ne; [done|].
    intros Heq. apply file_name_inj in Heq; [lia|lia|lia|by apply mime_to_ext_ok|done].
  - rewrite Forall_forall in IH.
    eapply keeps_bind; [by apply keeps_map_m|]. intros; by apply keeps_ret.
  - rewrite Forall_forall in IH. eapply (keeps_bind _ (fun _ => True)); [|intros; by apply keeps_ret].
    eapply keeps_weaken; [apply (keeps_map_m _ (fun _ => True))|done]. intros [k' x] Hx.
    eapply keeps_bind; [apply (IH (k', x) Hx)|]. intros; by apply keeps_ret.
Qed.

#[local] Abbreviation walk := (extract_walk sha256 guess_extension).
#[local] Abbreviation back fs := (rebuild guess_file_type strict fs).

(** What was extracted first is still there after a second extraction that goes
    on with the numbers. *)
Lemma extract_twice o1 o2 start fs :
  0 <= start -> all_str no_file_name o1 -> all_str no_file_name o2 ->
  exists fs1 v1 n fs2 v2 n2 r1 r2,
    extract sha256 guess_extension o1 start fs [] = (fs1, [], Ok (v1, n)) ∧
    extract sha256 guess_extension o2 n fs1 [] = (fs2, [], Ok (v2, n2)) ∧
    back fs2 v1 = Ok r1 ∧ same_payload o1 r1 ∧ back fs2 v2 = Ok r2 ∧ same_payload o2 r2.
Proof.
  intros Hstart H1 H2.
  destruct (walk_round sha256 guess_extension guess_file_type strict sha256_inj extensions types o1 H1
    {| files := fs; seen := []; idx := start |}) as (s1 & v1 & Hw1 & [Hi1 Hs1] & Hle1 & Hb1); [by split|].
  set (s1' := {| files := files s1; seen := []; idx := idx s1 |}).
  destruct (walk_round sha256 guess_extension guess_file_type strict sha256_inj extensions types o2 H2 s1')
    as (s2 & v2 & Hw2 & Hi2 & Hle2 & Hb2); [by split|].
  destruct (Hb2 s2 Hi2 (le_refl _ s2)) as (r2 & Hr2 & Hsame2).
  destruct (Hb1 {| files := files s2; seen := seen s1; idx := idx s2 |}) as (r1 & Hr1 & Hsame1).
  { destruct Hle2 as [Hle2 _]. simpl in Hle2. split; simpl; [lia|]. intros p name Hd.
    destruct (Hs1 p name Hd) as (Hf & i & e & Hi & He & ->). split.
    - destruct (walk_frame i e (idx s1) (Some p) o2 ltac:(lia) He s1') as [[_ Hk] _]; [by split|].
      by rewrite Hw2 in Hk.
    - exists i, e. split_and!; [lia..|done|done]. }
  { split; simpl; [|done]. destruct Hle2 as [Hle2 _]. done. }
  exists (files s1), v1, (idx s1), (files s2), v2, (idx s2), r1, r2. unfold extract.
  rewrite Hw1. fold s1'. rewrite Hw2. done.
Qed.

(** The two traces of a result are extracted into one directory without
    overwriting each other's files: both JSON files rebuild to traces with the
    payloads of the originals. *)
Theorem record_traces r t ts now (s : ResultStore F) :
  plain s = [] -> r_task_trace r = Some t ->
  all_str no_file_name t -> all_str no_file_name (trace_value (r_raw_trace r)) ->
  exists s' path d v1 v2 t1 t2,
    record sha256 guess_extension r ts now s = (s', Ok tt) ∧
    session_path (spec_of r) (r_session_id r) ts s = Ok path ∧ dirs s' !! path = Some d ∧
    json d !! "task_trace.json"%string = Some v1 ∧ json d !! "trace.json"%string = Some v2 ∧
    back (payloads d) v1 = Ok t1 ∧ same_payload t t1 ∧
    back (payloads d) v2 = Ok t2 ∧ same_payload (trace_value (r_raw_trace r)) t2.
Proof.
  intros Hp Ht H1 H2. unfold record, session_path. rewrite Hp, bool_decide_false by (by intros ?%elem_of_nil).
  simpl. set (path := replace_char _ _ _).
  destruct (extract_twice t (trace_value (r_raw_trace r)) 1 (payloads (default empty_dir (dirs s !! path))))
    as (fs1 & v1 & n & fs2 & v2 & n2 & t1 & t2 & He1 & He2 & Hr1 & Hs1 & Hr2 & Hs2); [lia|done..|].
  rewrite Ht. cbn [extract_trace]. rewrite He1. simpl. rewrite He2. simpl.
  do 2 eexists. exists {| payloads := fs2; json := <["trace.json":=v2]> (<["task_trace.json":=v1]>
    (json (default empty_dir (dirs s !! path)))) |}, v1, v2, t1, t2.
  split; [done|]. split; [done|]. split_and!; try done.
  - unfold save. case_match; simpl; by rewrite lookup_insert_eq.
  - simpl. rewrite lookup_insert_ne by done. by rewrite lookup_insert_eq.
  - simpl. by rewrite lookup_insert_eq.
Qed.
End traces.

(** ** Examples *)
Module Examples.
(** A table as a list of rows. *)
#[local] Instance list_frame : Frame (list row) := {
  frame_empty := [];
  rows f := f;
  frame_update f w := w :: filter (fun w' => row_key w' ≠ row_key w) f
}.

Definition new_store : ResultStore (list row) :=
  {| results := []; saved := None; last_save := 0; dirs := ∅; plain := [];
     multi_model := true; multi_task := true |}.
Definition spec (index : val) : RunSpec :=
  {| sp_model := "m"; sp_run := 0; sp_task := "t"; sp_index := index; sp_custom_params := [] |}.
Definition result_of (index : val) (st : SampleStatus) : RunResult :=
  {| r_spec := spec index; r_session_id := Some 7; r_status := st; r_reward := Some 1%Q; r_score := None;
     r_metrics := None; r_result := None; r_task_trace := Some (VStr "data:;base64,aGk=");
     r_raw_trace := [Slice [[("role", VStr "user"); ("content", VStr "data:,yes")]]] |}.

#[local] Abbreviation record := (record (fun p => p) (fun _ => None)).

(** The first run of index 2 failed, the second completed. *)
Definition recorded : list (RunResult * Z * Q) :=
  [(result_of (VInt 2) MODEL_ERROR, 5, 0%Q); (result_of (VInt (-3)) COMPLETED, 6, 1%Q);
   (result_of (VInt 2) COMPLETED, 7, 12%Q)].


Lemma record_traces_witness :
  let r := result_of (VInt 2) COMPLETED in
  exists s' d v1 t1, record r 5 0%Q new_store = (s', Ok tt) ∧
    dirs s' !! "m-t-2-0-7-5"%string = Some d ∧ json d !! "task_trace.json"%string = Some v1 ∧
    rebuild (fun _ => None) true (payloads d) v1 = Ok t1 ∧ same_payload (VStr "data:;base64,aGk=") t1.
Proof.
  intros r.
  destruct (record_traces (F := list row) (fun p => p) (fun _ => None) (fun _ => None) true
    ltac:(done) ltac:(done) ltac:(done) r (VStr "data:;base64,aGk=") 5 0%Q new_store)
    as (s' & path & d & v1 & v2 & t1 & t2 & Hrun & Hpath & Hd & Hv1 & _ & Hr1 & Hs1 & _);
    [done|done|by repeat split; intros; vm_compute|by repeat split; intros; vm_compute|].
  assert (path = "m-t-2-0-7-5") as -> by (vm_compute in Hpath; by injection Hpath as <-).
  by exists s', d, v1, t1.
Defined.
End Examples.
