(* ===== verification/ResultList.v ===== *)
(** * The list of result stores

    Models eval/store/list.py: the names of stores, a prefix and the minute of
    their creation, and the list of those with the prefix, latest first.  The
    local time zone is an argument. *)

From Stdlib Require Import Sorted.
From S2P Require Import Prelude PyVal DataUrl Store.

(** ** Dates *)

Record datetime := { year : Z; month : Z; day : Z; hour : Z; minute : Z }.

Definition leap (y : Z) : bool :=
  bool_decide (y mod 4 = 0) && (negb (bool_decide (y mod 100 = 0)) || bool_decide (y mod 400 = 0)).
Definition days_in_month (y m : Z) : Z :=
  if bool_decide (m = 2) then (if leap y then 29 else 28)
  else if bool_decide (m ∈ [4; 6; 9; 11]) then 30 else 31.
Definition valid_date (d : datetime) : bool :=
  bool_decide (1 <= year d <= 9999) && bool_decide (1 <= month d <= 12) &&
  bool_decide (1 <= day d <= days_in_month (year d) (month d)) &&
  bool_decide (0 <= hour d <= 23) && bool_decide (0 <= minute d <= 59).

(** [strftime('%Y%m%d%H%M')] *)
Definition strftime (d : datetime) : string :=
  str_Z (year d) +:+ zeros 2 (str_Z (month d)) +:+ zeros 2 (str_Z (day d)) +:+
  zeros 2 (str_Z (hour d)) +:+ zeros 2 (str_Z (minute d)).

(** [strptime(s, '%Y%m%d%H%M')] of twelve digits, which the fields share in one
    way only. *)
Definition strptime (l : list ascii) : res datetime :=
  let field from n := digits_value 0 (take n (drop from l)) in
  let d := {| year := field 0 4; month := field 4 2; day := field 6 2; hour := field 8 2;
              minute := field 10 2 |}%nat in
  if valid_date d then Ok d else Raise ValueError.

(** [re.search(r'(\d{12})$', name)] *)
(* eval/store/list.py:55-55 ResultList.list *)
Definition date_suffix (name : string) : option (list ascii) :=
  let l := chomp (chars name) in
  let s := drop (length l - 12) l in
  if bool_decide (length s = 12)%nat && forallb is_digit s then Some s else None.

(** ** The list *)

Record ResultListItem := { name : string; ts : Z }.

(* eval/store/list.py:14-42 ResultList.__init__ *)
Record ResultList := {
  list_multi_model : bool;
  list_multi_task : bool;
  prefix : string
}.

(* eval/store/list.py:26-42 ResultList.__init__ *)
Definition new_list (model task : option string) (view_only : bool) : ResultList :=
  let default_to (d : string) (o : option string) :=
    match o with None => if view_only then None else Some d | o => o end in
  let m := default_to "multi-model"%string model in
  let t := default_to "multi-task"%string task in
  {| list_multi_model := match model with None => true | _ => false end;
     list_multi_task := match task with None => true | _ => false end;
     prefix := match t with
               | None => match m with None => "" | Some m => m +:+ "-" end
               | Some t => default "multi-model"%string m +:+ "-" +:+ t +:+ "-"
               end |}.

(** [sorted(key=ts, reverse=True)] keeps the order of what is equal. *)
Fixpoint insert_desc (x : ResultListItem) (l : list ResultListItem) : list ResultListItem :=
  match l with
  | [] => [x]
  | y :: l' => if bool_decide (ts y <= ts x) then x :: l else y :: insert_desc x l'
  end.
Definition sorted_desc (l : list ResultListItem) : list ResultListItem := foldr insert_desc [] l.

Section result_list.
Context {F : Type} `{Frame F}.
(** [int(dt.timestamp())] in the local time zone; a path of the base directory:
    whether it is a directory, or exists, and the results saved below it. *)
Context (timestamp : datetime -> Z).
Context (is_dir exists_ : string -> bool) (read : string -> option F)
  (dirs_below : string -> gmap string session_dir) (files_below : string -> list string).

(* eval/store/list.py:54-62 ResultList.list *)
Definition item_ts (name : string) : Z :=
  match date_suffix name with
  | Some l => match strptime l with Ok d => timestamp d | Raise _ => 0 end
  | None => 0
  end.

(** The entries of the base directory, [None] when there is none. *)
(* eval/store/list.py:44-65 ResultList.list *)
Definition list_results (base_is_dir : bool) (entries : option (list string)) (s : ResultList)
    : res (list ResultListItem) :=
  match entries with
  | None => Ok []
  | Some entries =>
      if base_is_dir then
        Ok (sorted_desc ((fun n => {| name := n; ts := item_ts n |}) <$>
              filter (fun n => is_dir n && starts_with (prefix s) n = true) entries))
      else Raise NotADirectoryError
  end.

(* eval/store/list.py:75-76 ResultList.path *)
Definition list_path (path : string) (resume : bool) (s : ResultList) : res (ResultStore F) :=
  open_store (is_dir path) (exists_ path) resume (list_multi_model s) (list_multi_task s)
    (read path) (dirs_below path) (files_below path).

(* eval/store/list.py:67-69 ResultList.get *)
Definition list_get (name : string) (s : ResultList) : res (ResultStore F) := list_path name false s.

(* eval/store/list.py:71-73 ResultList.create *)
Definition create (now : datetime) (s : ResultList) : string * res (ResultStore F) :=
  let path := prefix s +:+ strftime now in (path, list_path path false s).

(** ** Latest first *)

Lemma insert_desc_perm x l : insert_desc x l ≡ₚ x :: l.
Proof.
  induction l as [|y l IH]; [done|]. simpl. case_bool_decide; [done|]. rewrite IH. constructor.
Qed.

Lemma sorted_desc_perm l : sorted_desc l ≡ₚ l.
Proof. induction l as [|x l IH]; [done|]. simpl. by rewrite insert_desc_perm, IH. Qed.

Definition newer (x y : ResultListItem) : Prop := ts y <= ts x.

Lemma insert_desc_sorted x l : StronglySorted newer l -> StronglySorted newer (insert_desc x l).
Proof.
  induction 1 as [|y l Hl IH Hy]; [by repeat constructor|]. simpl.
  case_bool_decide as Hyx.
  - constructor; [by constructor|]. constructor; [done|]. eapply Forall_impl; [exact Hy|].
    unfold newer. intros z Hz. simpl in *. lia.
  - constructor; [done|]. rewrite insert_desc_perm. constructor; [unfold newer; lia|done].
Qed.

Lemma sorted_desc_sorted l : StronglySorted newer (sorted_desc l).
Proof. induction l as [|x l IH]; [constructor|]. by apply insert_desc_sorted. Qed.

Lemma insert_desc_stable x l t :
  filter (fun y => ts y = t) (insert_desc x l) = filter (fun y => ts y = t) (x :: l).
Proof.
  induction l as [|y l IH]; [done|]. simpl. case_bool_decide as Hyx; [done|].
  rewrite filter_cons, IH, !filter_cons. repeat case_decide; try done. lia.
Qed.

Lemma sorted_desc_stable l t :
  filter (fun y => ts y = t) (sorted_desc l) = filter (fun y => ts y = t) l.
Proof.
  induction l as [|x l IH]; [done|]. simpl. rewrite insert_desc_stable, !filter_cons, IH. done.
Qed.

(** ** A store that was created is found *)

(** A number written in [w] digits. *)
Definition written (w : nat) (n : Z) (l : list ascii) : Prop :=
  length l = w ∧ Forall (fun c => is_digit c = true) l ∧ digits_value 0 l = n.

Definition written_b (w : nat) (n : Z) (l : list ascii) : bool :=
  bool_decide (length l = w) && forallb is_digit l && bool_decide (digits_value 0 l = n).

Lemma written_spec w n l : written_b w n l = true -> written w n l.
Proof.
  unfold written_b, written. rewrite !andb_true_iff, !bool_decide_eq_true, forallb_forall.
  intros [[H1 H2] H3]. split_and!; [done| |done]. apply Forall_forall. intros c Hc.
  by apply H2, list_elem_of_In.
Qed.

Lemma two_digits n : 0 <= n < 100 -> written 2 n (chars (zeros 2 (str_Z n))).
Proof.
  intros Hn. apply written_spec.
  assert (Hall : forallb (fun k => written_b 2 (Z.of_nat k) (chars (zeros 2 (str_Z (Z.of_nat k))))) (seq 0 100)
    = true) by by vm_compute.
  rewrite forallb_forall in Hall. specialize (Hall (Z.to_nat n)). rewrite Z2Nat.id in Hall by lia.
  apply Hall, in_seq. lia.
Qed.

Lemma four_digits n : 1000 <= n <= 9999 -> written 4 n (chars (str_Z n)).
Proof.
  intros Hn. apply written_spec.
  assert (Hall : forallb (fun k => let k := 1000 + Z.of_nat k in written_b 4 k (chars (str_Z k)))
    (seq 0 (90 * 100)) = true) by by vm_compute.
  rewrite forallb_forall in Hall. specialize (Hall (Z.to_nat (n - 1000))). cbv zeta in Hall.
  replace (1000 + Z.of_nat (Z.to_nat (n - 1000))) with n in Hall by lia.
  apply Hall, in_seq. lia.
Qed.

Lemma strptime_fields a b c d e y mo dy h mi :
  written 4 y a -> written 2 mo b -> written 2 dy c -> written 2 h d -> written 2 mi e ->
  strptime (a ++ b ++ c ++ d ++ e) =
    let t := {| year := y; month := mo; day := dy; hour := h; minute := mi |} in
    if valid_date t then Ok t else Raise ValueError.
Proof.
  intros (H1 & _ & <-) (H2 & _ & <-) (H3 & _ & <-) (H4 & _ & <-) (H5 & _ & <-). unfold strptime.
  do 4 (destruct a as [|? a]; [done|]). destruct a; [|done].
  do 2 (destruct b as [|? b]; [done|]). destruct b; [|done].
  do 2 (destruct c as [|? c]; [done|]). destruct c; [|done].
  do 2 (destruct d as [|? d]; [done|]). destruct d; [|done].
  do 2 (destruct e as [|? e]; [done|]). destruct e; [|done]. done.
Qed.

Lemma date_suffix_app p l : length l = 12%nat -> Forall (fun c => is_digit c = true) l ->
  date_suffix (p +:+ of_chars l) = Some l.
Proof.
  intros Hlen Hd. unfold date_suffix. rewrite chars_app, chars_of_chars.
  assert (Hc : chomp (chars p ++ l) = chars p ++ l).
  { unfold chomp. destruct l as [|x l' _] using rev_ind; [done|]. rewrite app_assoc, last_snoc.
    apply Forall_app in Hd as [_ Hx]. apply Forall_cons in Hx as [Hx _].
    rewrite bool_decide_false; [done|]. intros ->. by vm_compute in Hx. }
  rewrite Hc, length_app, Hlen, Nat.add_sub, drop_app_length, Hlen. rewrite bool_decide_true by done.
  simpl. rewrite (proj2 (forallb_forall _ _)); [done|]. intros x Hx%list_elem_of_In.
  rewrite Forall_forall in Hd. by apply Hd.
Qed.

Lemma strftime_back d p : valid_date d = true -> 1000 <= year d -> item_ts (p +:+ strftime d) = timestamp d.
Proof.
  intros Hv Hy. pose proof Hv as Hv'. unfold valid_date in Hv'.
  rewrite !andb_true_iff, !bool_decide_eq_true in Hv'. destruct Hv' as ((((H1 & H2) & H3) & H4) & H5).
  assert (H31 : days_in_month (year d) (month d) <= 31).
  { unfold days_in_month. repeat case_match; lia. }
  pose proof (four_digits (year d) ltac:(lia)) as W1. pose proof (two_digits (month d) ltac:(lia)) as W2.
  pose proof (two_digits (day d) ltac:(lia)) as W3. pose proof (two_digits (hour d) ltac:(lia)) as W4.
  pose proof (two_digits (minute d) ltac:(lia)) as W5.
  pose proof (strptime_fields _ _ _ _ _ _ _ _ _ _ W1 W2 W3 W4 W5) as Hs.
  rewrite <- (String.string_of_list_ascii_of_string (strftime d)). fold (chars (strftime d)).
  fold (of_chars (chars (strftime d))). unfold item_ts. rewrite date_suffix_app.
  - unfold strftime. rewrite !chars_app, Hs. destruct d; simpl in *. by rewrite Hv.
  - unfold strftime. rewrite !chars_app, !length_app.
    destruct W1 as [-> _], W2 as [-> _], W3 as [-> _], W4 as [-> _], W5 as [-> _]. done.
  - unfold strftime. rewrite !chars_app, !Forall_app.
    destruct W1 as (_ & W1 & _), W2 as (_ & W2 & _), W3 as (_ & W3 & _), W4 as (_ & W4 & _),
      W5 as (_ & W5 & _). done.
Qed.

Lemma items_at (l : list string) t :
  name <$> filter (fun x => ts x = t) ((fun n => {| name := n; ts := item_ts n |}) <$> l) =
    filter (fun n => item_ts n = t) l.
Proof.
  induction l as [|n l IH]; [done|]. rewrite fmap_cons, !filter_cons. cbn [ts].
  case_decide; [|exact IH]. rewrite fmap_cons. by f_equal.
Qed.

(** The store that was just created is in the list, where newer stores come first
    and those of one time keep the order of the directory. *)
Theorem created_store_listed (s : ResultList) now entries :
  valid_date now = true -> 1000 <= year now ->
  let path := (create now s).1 in
  path ∈ entries -> is_dir path = true ->
  exists l, list_results true (Some entries) s = Ok l ∧
    {| name := path; ts := timestamp now |} ∈ l ∧
    StronglySorted (fun x y => ts y <= ts x) l ∧
    (forall t, (name <$> filter (fun x => ts x = t) l) =
       filter (fun n => is_dir n && starts_with (prefix s) n = true ∧ item_ts n = t) entries).
Proof.
  intros Hv Hy path Hin Hdir. simpl. eexists. split; [done|].
  split; [|split; [apply sorted_desc_sorted|]].
  - rewrite sorted_desc_perm. apply list_elem_of_fmap. exists path.
    split; [by unfold path; simpl; rewrite strftime_back|]. apply list_elem_of_filter.
    split; [|done]. rewrite Hdir. apply starts_with_app.
  - intros t. rewrite sorted_desc_stable, items_at, list_filter_filter.
    apply list_filter_iff. intros n. tauto.
Qed.
End result_list.

(** ** Examples *)
Module Examples.
Definition gpt4_os : ResultList := new_list (Some "gpt-4"%string) (Some "os"%string) false.
Definition minutes (d : datetime) : Z :=
  ((((year d * 12 + month d) * 31 + day d) * 24) + hour d) * 60 + minute d.
Definition now : datetime := {| year := 2025; month := 12; day := 31; hour := 23; minute := 5 |}.

(** The prefix of a task is one of the stores of a task whose name goes on with
    a hyphen. *)
Example other_task_listed :
  prefix gpt4_os = "gpt-4-os-" ∧
  (l ← list_results minutes (fun _ => true) true
     (Some ["gpt-4-os-202501010000"; "gpt-4-os-hard-202502010000"; "gpt-4o-os-202501010000"]%string)
     gpt4_os;
   Ok (name <$> (l : list ResultListItem)))
  = Ok ["gpt-4-os-hard-202502010000"; "gpt-4-os-202501010000"]%string.
Proof. by vm_compute. Qed.

#[local] Instance list_frame : Frame (list row) := {
  frame_empty := [];
  rows f := f;
  frame_update f w := w :: filter (fun w' => row_key w' ≠ row_key w) f
}.

Lemma created_store_listed_witness :
  exists l, list_results minutes (fun _ => true) true
      (Some ["gpt-4-os-202501010000"; "gpt-4-os-202512312305"]%string) gpt4_os = Ok l ∧
    {| name := "gpt-4-os-202512312305"; ts := minutes now |} ∈ l.
Proof.
  destruct (created_store_listed minutes (fun _ => true) (fun _ => true) (fun _ => @None (list row))
    (fun _ => ∅) (fun _ => []) gpt4_os now ["gpt-4-os-202501010000"; "gpt-4-os-202512312305"]%string)
    as (l & Hl & Hin & _); [by vm_compute|by vm_compute|right; left|done|].
  exists l. split; [exact Hl|exact Hin].
Defined.
End Examples.
