(* ===== verification/Runner.v ===== *)
(** * The runner of an evaluation

    Models eval/session/runner.py: the names of the models, the specs to run,
    and the workers that run those not completed yet.  The clients of the models,
    the controller's indices and the random order are arguments; the events of
    the display are left out. *)

From Stdlib Require Import Sorted.
From S2P Require Import Prelude PyVal DataUrl Workflow Store EvalUtils.

(** ** Models and specs *)

Section specs.
Context {Client : Type}.
(** [client.get_model_name()], [getattr(client, 'thinking', None)],
    [controller.get_indices(task)] and the [n]-th shuffle. *)
Context (get_model_name : Client -> res string) (thinking : Client -> option bool)
  (get_indices : string -> res (list val))
  (shuffle : nat -> list (string * val) -> list (string * val)).

(** The options that matter here; the set of tasks, and that of indices, in some
    order. *)
(* eval/session/runner.py:31-69 EvaluationRunner.__init__ *)
Record options := {
  models : list Client;
  cross_sample : bool;
  start_sample : bool;
  has_controller : bool;
  runs : option Z;
  tasks : option (list string);
  indices : list val;
  custom_params : list (string * val)
}.

(** [_model_clients] is the state. *)
Definition model_clients := list (string * list Client).

(* eval/session/runner.py:83-95 EvaluationRunner.gather_models *)
Definition name_clients (l : list Client) : res model_clients :=
  names ← map_r get_model_name l;
  Ok (foldl (fun d nc => dset (normalize_model_name nc.1 (thinking nc.2)) [nc.2] d) [] (zip names l)).

(* eval/session/runner.py:75-104 EvaluationRunner.gather_models *)
Definition gather_models (o : options) : M model_clients (list string) :=
  if start_sample o then mret ["start-sample"]
  else match models o with
  | [] => mret []
  | _ =>
      clients ← get;
      (match clients with
       | [] => d ← lift_res (name_clients (models o)); put d
       | _ => mret tt
       end);;
      model_names ← gets dkeys;
      if cross_sample o then
        let joined := join "-" model_names in
        modify (dset joined (models o));; mret [joined]
      else mret model_names
  end.

(** [index == i] of integers and strings *)
Definition same_index (i j : val) : bool :=
  match i, j with
  | VInt n, VInt m => bool_decide (n = m)
  | VStr s, VStr t => bool_decide (s = t)
  | _, _ => false
  end.

(* eval/session/runner.py:119-124 EvaluationRunner.gather_tasks *)
Definition wanted (o : options) (index : val) : bool :=
  negb (same_index index (VInt (-1))) &&
  match indices o with [] => true | l => existsb (same_index index) l end.

Definition task_indices (o : options) (task : string) : res (list (string * val)) :=
  match get_indices task with
  | Ok l => Ok ((fun i => (task, i)) <$> filter (fun i => wanted o i = true) l)
  | Raise e => Raise e
  end.
(* eval/session/runner.py:113-124 EvaluationRunner.gather_tasks *)
Definition all_indices (o : options) (tasks : list string) : res (list (string * val)) :=
  flat_m (task_indices o) tasks.

(* eval/session/runner.py:136-143 EvaluationRunner.gather_tasks *)
Definition make_spec (o : options) (run : Z) (ti : string * val) (model : string) : RunSpec :=
  {| sp_model := model; sp_run := run; sp_task := ti.1; sp_index := ti.2;
     sp_custom_params := custom_params o |}.

(** Every run goes through the indices in a new order, which the next one
    starts from. *)
(* eval/session/runner.py:134-143 EvaluationRunner.gather_tasks *)
Fixpoint run_specs (o : options) (names : list string) (run n : nat) (l : list (string * val))
    : list RunSpec :=
  match n with
  | O => []
  | S n =>
      let l := shuffle run l in
      (ti ← l; make_spec o (Z.of_nat run) ti <$> names) ++ run_specs o names (S run) n l
  end.

(* eval/session/runner.py:106-144 EvaluationRunner.gather_tasks *)
Definition gather_tasks (o : options) : M model_clients (list RunSpec) :=
  match has_controller o, runs o, tasks o with
  | true, Some runs, Some tasks =>
      names ← gather_models o;
      l ← lift_res (all_indices o tasks);
      mret (run_specs o names 0 (Z.to_nat runs) l)
  | _, _, _ => mret []
  end.

(** *** What is gathered *)

Context (shuffle_perm : forall n l, shuffle n l ≡ₚ l).

Lemma bind_ext_perm {A B} (f g : A -> list B) l :
  (forall x, f x ≡ₚ g x) -> l ≫= f ≡ₚ l ≫= g.
Proof. intros Hf. induction l as [|x l IH]; [done|]. simpl. by rewrite Hf, IH. Qed.

Lemma run_specs_perm o names run n l :
  run_specs o names run n l ≡ₚ
    (k ← seq run n; ti ← l; make_spec o (Z.of_nat k) ti <$> names).
Proof.
  revert run l. induction n as [|n IH]; intros run l; [done|]. simpl. apply Permutation_app.
  - by rewrite shuffle_perm.
  - rewrite IH. apply bind_ext_perm. intros k. by rewrite shuffle_perm.
Qed.

Lemma run_specs_from o names run n l sp :
  sp ∈ run_specs o names run n l -> Z.of_nat run <= sp_run sp.
Proof.
  rewrite run_specs_perm, list_elem_of_bind. intros (k & Hsp & Hk).
  apply list_elem_of_bind in Hsp as (ti & Hsp & _). apply list_elem_of_fmap in Hsp as (m & -> & _).
  apply elem_of_seq in Hk. simpl. lia.
Qed.

Lemma run_specs_sorted o names run n l :
  StronglySorted (fun a b => sp_run a <= sp_run b) (run_specs o names run n l).
Proof.
  revert run l. induction n as [|n IH]; intros run l; [constructor|]. simpl.
  assert (Hb : Forall (fun sp => sp_run sp = Z.of_nat run)
    (ti ← shuffle run l; make_spec o (Z.of_nat run) ti <$> names)).
  { apply Forall_forall. intros sp (ti & Hsp & _)%list_elem_of_bind.
    by apply list_elem_of_fmap in Hsp as (m & -> & _). }
  induction Hb as [|sp b Hsp Hb IHb]; [apply IH|]. simpl. constructor; [done|].
  apply Forall_forall. intros sp' [H|H]%elem_of_app.
  - rewrite Forall_forall in Hb. rewrite Hsp, (Hb sp' H). lia.
  - apply run_specs_from in H. lia.
Qed.

Lemma run_specs_NoDup o names n l :
  NoDup names -> NoDup l -> NoDup (run_specs o names 0 n l).
Proof.
  intros Hn Hl. rewrite run_specs_perm. apply NoDup_bind; [| |apply NoDup_seq].
  - intros k k' sp _ _ (ti & H1 & _)%list_elem_of_bind (ti' & H2 & _)%list_elem_of_bind.
    apply list_elem_of_fmap in H1 as (m & -> & _), H2 as (m' & Heq & _). injection Heq. lia.
  - intros k _. apply NoDup_bind; [| |done].
    + intros [t i] [t' i'] sp _ _ H1 H2.
      apply list_elem_of_fmap in H1 as (m & -> & _), H2 as (m' & Heq & _). by injection Heq as _ <- <-.
    + intros ti _. apply NoDup_fmap_2_strong; [|done]. intros m m' _ _ Heq. by injection Heq.
Qed.

(** The specs gathered are exactly the product of runs, wanted indices and
    models, run after run whatever the shuffles do, and their keys are distinct. *)
Theorem gather_tasks_specs o d d' n ts specs :
  has_controller o = true -> runs o = Some n -> tasks o = Some ts ->
  gather_tasks o d = (d', Ok specs) ->
  exists names l,
    gather_models o d = (d', Ok names) ∧ all_indices o ts = Ok l ∧
    specs ≡ₚ (k ← seq 0 (Z.to_nat n); ti ← l; make_spec o (Z.of_nat k) ti <$> names) ∧
    StronglySorted (fun a b => sp_run a <= sp_run b) specs ∧
    (NoDup names -> NoDup l -> Forall spec_ok specs -> NoDup (run_key <$> specs)).
Proof.
  intros Hc Hr Ht. unfold gather_tasks. rewrite Hc, Hr, Ht.
  intros (names & d1 & Hm & Hrest)%M_bind_ok. apply M_bind_ok in Hrest as (l & d2 & Hl & Hs).
  unfold lift_res in Hl. injection Hl as <- Hl. injection Hs as <- <-.
  exists names, l. split_and!; [done|done|apply run_specs_perm|apply run_specs_sorted|].
  intros Hn Hnl Hok. apply NoDup_fmap_2_strong; [|by apply run_specs_NoDup].
  rewrite Forall_forall in Hok. intros sp sp' Hsp Hsp' Hk.
  apply run_key_inj in Hk as (H1 & H2 & H3 & H4); [|by apply Hok..].
  assert (Hcp : forall x, x ∈ run_specs o names 0 (Z.to_nat n) l -> sp_custom_params x = custom_params o).
  { intros x. rewrite run_specs_perm, list_elem_of_bind. intros (k & Hx & _).
    apply list_elem_of_bind in Hx as (ti & Hx & _). by apply list_elem_of_fmap in Hx as (m & -> & _). }
  apply Hcp in Hsp, Hsp'. destruct sp, sp'. simpl in *. congruence.
Qed.

(** *** One name for all models *)

Lemma join_last sep l x : l ≠ [] -> join sep (l ++ [x]) = join sep l +:+ sep +:+ x.
Proof.
  induction l as [|y l IH]; [done|]. intros _. destruct l as [|z l]; [done|].
  change (join sep ((y :: z :: l) ++ [x])) with (y +:+ sep +:+ join sep ((z :: l) ++ [x])).
  rewrite IH by done. change (join sep (y :: z :: l)) with (y +:+ sep +:+ join sep (z :: l)).
  by rewrite !str_app_assoc.
Qed.

Lemma dset_new {V} (k : string) (v : V) d : k ∉ dkeys d -> dset k v d = d ++ [(k, v)].
Proof.
  induction d as [|[k' v'] d IH]; [done|]. unfold dkeys. simpl. intros [Hne Hk]%not_elem_of_cons.
  rewrite decide_False by done. by rewrite IH.
Qed.

(** With cross sampling the joined name is taken for a model a second time. *)
Theorem cross_sample_doubles o d0 :
  start_sample o = false -> cross_sample o = true -> models o ≠ [] ->
  name_clients (models o) = Ok d0 -> d0 ≠ [] -> join "-" (dkeys d0) ∉ dkeys d0 ->
  let joined := join "-" (dkeys d0) in
  exists d1 d2, gather_models o [] = (d1, Ok [joined]) ∧
    gather_models o d1 = (d2, Ok [joined +:+ "-" +:+ joined]).
Proof.
  intros Hs Hc Hm Hn Hne Hj joined. destruct (models o) as [|c l] eqn:Hl; [done|].
  assert (Hk : join "-" (dkeys (dset joined (c :: l) d0)) = joined +:+ "-" +:+ joined).
  { rewrite dset_new by done. unfold dkeys. rewrite fmap_app. apply join_last. by destruct d0. }
  exists (dset joined (c :: l) d0), (dset (joined +:+ "-" +:+ joined) (c :: l) (dset joined (c :: l) d0)).
  unfold gather_models. rewrite Hs, Hc, Hl.
  unfold mbind, M_bind, get, lift_res, gets, put, modify, mret, M_ret. simpl. rewrite Hn. simpl.
  split; [done|]. fold joined. remember (dset joined (c :: l) d0) as d1 eqn:E.
  destruct d1 as [|e d1]; [rewrite dset_new in E by done; by destruct d0|]. simpl. simpl in Hk. by rewrite Hk.
Qed.
End specs.

(** ** Workers *)

Section workers.
Context {F : Type} `{Frame F}.
Context (sha256 : string -> string) (guess_extension : string -> option string).

(** A worker that was created, awaits the workflow of a spec, awaits the lock to
    record a result, has returned, has raised, or was cancelled. *)
Inductive worker : Type :=
| Created
| Running (sp : RunSpec)
| Recording (r : RunResult)
| Exited
| Failed (e : exn)
| Cancelled.

(** [run] gathers the workers, awaits those it has cancelled, or has ended. *)
Inductive main : Type :=
| Gathering
| Cancelling (e : exn)
| Ended (r : res unit).

(** [_specs_queue], the tasks, the store and [run]; then what has happened: the
    results that were recorded, and the specs of workers that were stopped. *)
Record running := {
  specs_queue : list RunSpec;
  workers : list worker;
  store : ResultStore F;
  gather : main;
  recorded : list RunResult;
  lost : list RunSpec
}.

Definition with_worker (w : nat) (x : worker) (s : running) : running :=
  {| specs_queue := specs_queue s; workers := <[w := x]> (workers s); store := store s;
     gather := gather s; recorded := recorded s; lost := lost s |}.
Definition with_queue (q : list RunSpec) (s : running) : running :=
  {| specs_queue := q; workers := workers s; store := store s; gather := gather s;
     recorded := recorded s; lost := lost s |}.
Definition with_record (st : ResultStore F) (l : list RunResult) (s : running) : running :=
  {| specs_queue := specs_queue s; workers := workers s; store := st; gather := gather s;
     recorded := l; lost := lost s |}.
Definition with_main (m : main) (st : ResultStore F) (s : running) : running :=
  {| specs_queue := specs_queue s; workers := workers s; store := st; gather := m;
     recorded := recorded s; lost := lost s |}.
Definition with_lost (l : list RunSpec) (s : running) : running :=
  {| specs_queue := specs_queue s; workers := workers s; store := store s; gather := gather s;
     recorded := recorded s; lost := l |}.

(** The specs whose key is not among the completed ones. *)
(* eval/session/runner.py:202-202 EvaluationRunner.run *)
Definition pending (specs : list RunSpec) (done : list (string * RunResult)) : list RunSpec :=
  filter (fun sp => dmem (run_key sp) done = false) specs.

(* eval/session/runner.py:192-207 EvaluationRunner.run *)
Definition start_workers (specs : list RunSpec) (concurrency : Z) (st : ResultStore F) : running :=
  {| specs_queue := pending specs (completed st); workers := replicate (Z.to_nat concurrency) Created;
     store := st; gather := Gathering; recorded := []; lost := [] |}.

(** The head of the loop: a queue that is not empty gives at once. *)
(* eval/session/runner.py:224-225 EvaluationRunner._worker *)
Definition loop_top (w : nat) (s : running) : running :=
  match specs_queue s with
  | [] => with_worker w Exited s
  | sp :: q => with_worker w (Running sp) (with_queue q s)
  end.

(** The result of a workflow bears the spec it was called with. *)
Definition for_spec (sp : RunSpec) (r : RunResult) : RunResult :=
  {| r_spec := sp; r_session_id := r_session_id r; r_status := r_status r; r_reward := r_reward r;
     r_score := r_score r; r_metrics := r_metrics r; r_result := r_result r;
     r_task_trace := r_task_trace r; r_raw_trace := r_raw_trace r |}.

(* eval/session/runner.py:232-259 EvaluationRunner._run_spec *)
Definition workflow_ended (w : nat) (sp : RunSpec) (o : res RunResult) (s : running) : running :=
  match o with
  | Ok r => with_worker w (Recording (for_spec sp r)) s
  | Raise e => with_worker w (Failed e) (with_lost (sp :: lost s) s)
  end.

(* eval/session/runner.py:223-230 EvaluationRunner._worker *)
Definition record_result (w : nat) (r : RunResult) (ts : Z) (now : Q) (s : running) : running :=
  let '(st, o) := record sha256 guess_extension r ts now (store s) in
  match o with
  | Ok _ => loop_top w (with_record st (recorded s ++ [r]) s)
  | Raise e => with_worker w (Failed e) (with_lost (r_spec r :: lost s) (with_record st (recorded s) s))
  end.

Definition finished (x : worker) : bool :=
  match x with Exited | Failed _ | Cancelled => true | _ => false end.
Definition is_exited (x : worker) : bool := match x with Exited => true | _ => false end.

(** [gather] returns or raises: an [Exception] makes [run] cancel the other
    workers; the results are saved in the end. *)
(* eval/session/runner.py:208-218 EvaluationRunner.run *)
Definition gather_returns (now : Q) (s : running) : running :=
  if forallb is_exited (workers s) then with_main (Ended (Ok tt)) (save true now (store s)) s else s.
(* eval/session/runner.py:208-218 EvaluationRunner.run *)
Definition gather_raises (w : nat) (now : Q) (s : running) : running :=
  match workers s !! w with
  | Some (Failed e) =>
      if is_Exception e then with_main (Cancelling e) (store s) s
      else with_main (Ended (Raise e)) (save true now (store s)) s
  | _ => s
  end.
(* eval/session/runner.py:214-218 EvaluationRunner.run *)
Definition cancelled_all (e : exn) (now : Q) (s : running) : running :=
  if forallb finished (workers s) then with_main (Ended (Raise e)) (save true now (store s)) s else s.

(** A worker that is cancelled gives up what it runs. *)
(* eval/session/runner.py:210-214 EvaluationRunner.run *)
Definition cancel_worker (w : nat) (s : running) : running :=
  match workers s !! w with
  | Some Created => with_worker w Cancelled s
  | Some (Running sp) => with_worker w Cancelled (with_lost (sp :: lost s) s)
  | Some (Recording r) => with_worker w Cancelled (with_lost (r_spec r :: lost s) s)
  | _ => s
  end.

Inductive event : Type :=
| Begin (w : nat)
| WorkflowEnds (w : nat) (o : res RunResult)
| Records (w : nat) (ts : Z) (now : Q)
| GatherReturns (now : Q)
| GatherRaises (w : nat) (now : Q)
| CancelWorker (w : nat)
| CancelledAll (now : Q).

(* eval/session/runner.py:204-218 EvaluationRunner.run *)
Definition step (s : running) (e : event) : running :=
  match gather s, e with
  | Gathering, Begin w => match workers s !! w with Some Created => loop_top w s | _ => s end
  | Gathering, WorkflowEnds w o =>
      match workers s !! w with Some (Running sp) => workflow_ended w sp o s | _ => s end
  | Gathering, Records w ts now =>
      match workers s !! w with Some (Recording r) => record_result w r ts now s | _ => s end
  | Gathering, GatherReturns now => gather_returns now s
  | Gathering, GatherRaises w now => gather_raises w now s
  | Cancelling _, CancelWorker w => cancel_worker w s
  | Cancelling e, CancelledAll now => cancelled_all e now s
  | _, _ => s
  end.

Definition runs_from (specs : list RunSpec) (concurrency : Z) (st : ResultStore F) (l : list event)
    : running := run step (start_workers specs concurrency st) l.

(** *** Every spec once *)

Definition active (x : worker) : list RunSpec :=
  match x with Running sp => [sp] | Recording r => [r_spec r] | _ => [] end.
Definition stopped (x : worker) : bool := match x with Failed _ | Cancelled => true | _ => false end.

(** All the specs, wherever they are. *)
Definition all_specs (s : running) : list RunSpec :=
  specs_queue s ++ (workers s ≫= active) ++ (r_spec <$> recorded s) ++ lost s.

(** No spec is lost but by a worker that was stopped, and a worker only returns
    when the queue is empty. *)
Definition tidy (s : running) : Prop :=
  (lost s = [] ∨ exists w x, workers s !! w = Some x ∧ stopped x = true) ∧
  (forall w, workers s !! w = Some Exited -> specs_queue s = []).

Lemma bind_insert {A B} (f : A -> list B) l w x y : l !! w = Some y ->
  (<[w := x]> l ≫= f) ++ f y ≡ₚ (l ≫= f) ++ f x.
Proof.
  intros Hw. rewrite insert_take_drop by (by eapply lookup_lt_Some).
  rewrite <- (take_drop_middle l w y Hw) at 3. rewrite !bind_app. simpl.
  rewrite <- !app_assoc. apply Permutation_app_head.
  rewrite !(Permutation_app_comm (f _)). rewrite <- !app_assoc.
  apply Permutation_app_head, Permutation_app_comm.
Qed.

Lemma worker_moves s w x y q rec los :
  workers s !! w = Some y ->
  q ++ active x ++ (r_spec <$> rec) ++ los ≡ₚ
    specs_queue s ++ active y ++ (r_spec <$> recorded s) ++ lost s ->
  q ++ (<[w := x]> (workers s) ≫= active) ++ (r_spec <$> rec) ++ los ≡ₚ all_specs s.
Proof.
  intros Hw Hp. pose proof (bind_insert active _ w x y Hw) as Hb. unfold all_specs.
  apply (Permutation_app_inv_r (active y)). revert Hp Hb.
  generalize (active x) (active y) (workers s ≫= active) (<[w := x]> (workers s) ≫= active)
    (r_spec <$> rec) (r_spec <$> recorded s) (specs_queue s) (lost s).
  intros ax ay W W' R' R Q L Hp Hb.
  transitivity ((q ++ R' ++ los) ++ (W' ++ ay)); [solve_Permutation|].
  rewrite Hb. transitivity (W ++ (q ++ ax ++ R' ++ los)); [solve_Permutation|].
  rewrite Hp. solve_Permutation.
Qed.

Lemma loop_top_moves s w y rec :
  workers s !! w = Some y -> active y ++ (r_spec <$> recorded s) ≡ₚ r_spec <$> rec ->
  forall st, all_specs (loop_top w (with_record st rec s)) ≡ₚ all_specs s.
Proof.
  intros Hw Hp st. unfold loop_top. simpl. destruct (specs_queue s) as [|sp q] eqn:Hq;
    unfold all_specs at 1; simpl;
    [rewrite Hq; apply (worker_moves s w Exited y [])|apply (worker_moves s w (Running sp) y q)];
    try done; rewrite Hq; simpl; rewrite <- Hp, <- ?app_assoc; [done|solve_Permutation].
Qed.

Lemma with_record_same s : with_record (store s) (recorded s) s = s.
Proof. by destruct s. Qed.

Lemma step_specs s e : all_specs (step s e) ≡ₚ all_specs s.
Proof.
  unfold step. destruct (gather s), e as [w|w o|w ts now|now|w now|w|now]; try done.
  - destruct (workers s !! w) as [[]|] eqn:Hw; try done.
    rewrite <- (with_record_same s) at 1. by apply (loop_top_moves s w Created).
  - destruct (workers s !! w) as [[]|] eqn:Hw; try done. destruct o as [r|e].
    + by apply (worker_moves s w (Recording (for_spec sp r)) (Running sp)).
    + apply (worker_moves s w (Failed e) (Running sp)); [done|]. simpl. solve_Permutation.
  - destruct (workers s !! w) as [[]|] eqn:Hw; try done. unfold record_result.
    destruct (record _ _ _ _ _ _) as [st [[]|e]].
    + apply (loop_top_moves s w (Recording r)); [done|]. rewrite fmap_app. simpl. solve_Permutation.
    + apply (worker_moves s w (Failed e) (Recording r)); [done|]. simpl. solve_Permutation.
  - unfold gather_returns. by case_match.
  - unfold gather_raises. by destruct (workers s !! w) as [[| | | |e|]|]; try destruct (is_Exception e).
  - unfold cancel_worker. destruct (workers s !! w) as [[]|] eqn:Hw; try done.
    + by apply (worker_moves s w Cancelled Created).
    + apply (worker_moves s w Cancelled (Running sp)); [done|]. simpl. solve_Permutation.
    + apply (worker_moves s w Cancelled (Recording r)); [done|]. simpl. solve_Permutation.
  - unfold cancelled_all. by case_match.
Qed.

(** C29: in every interleaving of the workers, failures and cancellations included,
    the specs in the queue, with a worker, recorded and lost to a stopped worker are
    together exactly the specs that were not completed before: none is run twice. *)
Theorem each_spec_once specs concurrency st l :
  let s := runs_from specs concurrency st l in
  specs_queue s ++
    (workers s ≫= fun x => match x with Running sp => [sp] | Recording r => [r_spec r] | _ => [] end) ++
    (r_spec <$> recorded s) ++ lost s
  ≡ₚ filter (fun sp => dmem (run_key sp) (completed st) = false) specs.
Proof.
  assert (Hinit : all_specs (start_workers specs concurrency st) ≡ₚ pending specs (completed st)).
  { unfold all_specs. simpl. rewrite app_nil_r.
    assert (replicate (Z.to_nat concurrency) Created ≫= active = []) as ->; [|by rewrite app_nil_r].
    by induction (Z.to_nat concurrency). }
  intros s. change (all_specs s ≡ₚ pending specs (completed st)). rewrite <- Hinit. unfold s, runs_from.
  apply (run_invariant _ (fun s => all_specs s ≡ₚ all_specs (start_workers specs concurrency st))); [done|].
  intros s' e Hs. by rewrite step_specs.
Qed.
End workers.

(** *** The results of a run *)

Section completion.
Context {F : Type} `{Frame F}.
Context (sha256 : string -> string) (guess_extension : string -> option string).
Context (frame_update_rows : forall f w, NoDup (row_key <$> rows f) ->
     rows (frame_update f w) ≡ₚ w :: filter (fun w' => row_key w' ≠ row_key w) (rows f)).

#[local] Abbreviation step := (step sha256 guess_extension).
#[local] Abbreviation runs_from := (runs_from sha256 guess_extension).

(** The store holds what was recorded, on top of what it held. *)
Definition stored (m0 : gmap string RunResult) (s : running (F := F)) : Prop :=
  plain (store s) = [] ∧ sim (results (store s)) (foldl abstract m0 (recorded s)).
Definition fine (m0 : gmap string RunResult) (s : running (F := F)) : Prop :=
  tidy s ∧ stored m0 s ∧ (gather s = Ended (Ok tt) -> forallb is_exited (workers s) = true).

Lemma save_results force now (st : ResultStore F) :
  results (save force now st) = results st ∧ plain (save force now st) = plain st.
Proof. unfold save. by case_match. Qed.

Lemma tidy_worker (s : running (F := F)) w x y q :
  tidy s -> workers s !! w = Some y -> stopped y = false ->
  (specs_queue s = [] -> q = []) -> (x = Exited -> q = []) ->
  tidy (with_worker w x (with_queue q s)).
Proof.
  intros [Hl Hq] Hw Hy Hqq Hx. split; simpl.
  - destruct Hl as [Hl|(w' & z & Hw' & Hz)]; [by left|right]. exists w', z. split; [|done].
    rewrite list_lookup_insert_ne; [done|]. congruence.
  - intros w' Hw'. apply list_lookup_insert_Some in Hw' as [(_ & -> & _)|[_ Hw']]; [by apply Hx|].
    by eapply Hqq, Hq.
Qed.

Lemma tidy_stop (s : running (F := F)) w x y los :
  tidy s -> workers s !! w = Some y -> stopped x = true ->
  tidy (with_worker w x (with_lost los s)).
Proof.
  intros [_ Hq] Hw Hx. split; simpl.
  - right. exists w, x. split; [|done]. apply list_lookup_insert_eq. by eapply lookup_lt_Some.
  - intros w' Hw'. apply list_lookup_insert_Some in Hw' as [(_ & -> & _)|[_ Hw']]; [done|by eapply Hq].
Qed.

Lemma tidy_loop_top (s : running (F := F)) w y : tidy s -> workers s !! w = Some y -> stopped y = false -> tidy (loop_top w s).
Proof.
  intros Ht Hw Hy. unfold loop_top. destruct (specs_queue s) as [|sp q] eqn:Hq.
  - assert (s = with_queue [] s) as Heq by (rewrite <- Hq; by destruct s).
    rewrite Heq. by eapply tidy_worker.
  - eapply tidy_worker; [done..| |done]. by rewrite Hq.
Qed.

Lemma with_queue_same (s : running (F := F)) : with_queue (specs_queue s) s = s.
Proof. by destruct s. Qed.

Lemma with_lost_same (s : running (F := F)) : with_lost (lost s) s = s.
Proof. by destruct s. Qed.

Lemma fine_step m0 s e : Forall spec_ok (all_specs s) -> fine m0 s -> fine m0 (step s e).
Proof.
  intros Hok (Ht & [Hp Hs] & He). unfold Runner.step.
  destruct (gather s) as [|e0|r] eqn:Hg, e as [w|w o|w ts now|now|w now|w|now]; try by (split_and!; rewrite ?Hg).
  - destruct (workers s !! w) as [[]|] eqn:Hw; try by (split_and!; rewrite ?Hg).
    split; [by eapply tidy_loop_top|]. unfold loop_top. destruct (specs_queue s);
      (split; [done|]; simpl; by rewrite Hg).
  - destruct (workers s !! w) as [[|sp|r| |e1|]|] eqn:Hw; try by (split_and!; rewrite ?Hg).
    destruct o as [r|e2]; (split; [|split; [done|simpl; by rewrite Hg]]); simpl.
    + rewrite <- (with_queue_same s). by eapply tidy_worker.
    + by eapply tidy_stop.
  - destruct (workers s !! w) as [[|sp|r| |e1|]|] eqn:Hw; try by (split_and!; rewrite ?Hg).
    unfold record_result.
    destruct (record_results sha256 guess_extension r ts now (store s) Hp) as (st & p & q & Hrec & Hp' & Hres).
    rewrite Hrec. split; [eapply (tidy_loop_top (with_record _ _ s)); [exact Ht|exact Hw|done]|].
    assert (Hst : stored m0 (with_record st (recorded s ++ [r]) s)).
    { split; [done|]. simpl. rewrite Hres, foldl_app. apply sim_update; [done|done|].
      assert (r_spec r ∈ all_specs s); [|rewrite Forall_forall in Hok; by apply (Hok (r_spec r))].
      apply elem_of_app. right. apply elem_of_app. left. apply list_elem_of_bind. exists (Recording r).
      split; [left|by eapply list_elem_of_lookup_2]. }
    unfold loop_top. simpl. destruct (specs_queue s); (split; [done|]; simpl; by rewrite Hg).
  - unfold gather_returns. destruct (forallb _ _) eqn:Hall; [|split; [done|split; [done|by rewrite Hg]]].
    destruct (save_results true now (store s)) as [H1 H2].
    split; [done|]. split; [split; simpl; by rewrite ?H1, ?H2|done].
  - unfold gather_raises. destruct (workers s !! w) as [[| | | |e|]|]; try by (split_and!; rewrite ?Hg).
    destruct (save_results true now (store s)) as [H1 H2].
    destruct (is_Exception e); (split; [done|]; split; [split; simpl; by rewrite ?H1, ?H2|done]).
  - unfold cancel_worker. destruct (workers s !! w) as [[]|] eqn:Hw; try (by split_and!; rewrite ?Hg);
      (split; [|split; [done|simpl; by rewrite Hg]]).
    + rewrite <- (with_lost_same s). by eapply tidy_stop.
    + by eapply tidy_stop.
    + by eapply tidy_stop.
  - unfold cancelled_all. destruct (forallb finished (workers s)).
    + destruct (save_results true now (store s)) as [H1 H2].
      split; [done|]. split; [split; simpl; by rewrite ?H1, ?H2|done].
    + split; [done|]. split; [done|]. by rewrite Hg.
Qed.

Lemma dict_as_map (d : list (string * RunResult)) k :
  (list_to_map d : gmap string RunResult) !! k = dget k d.
Proof.
  induction d as [|[k' v] d IH]; [apply lookup_empty|]. simpl.
  destruct (decide (k = k')) as [->|Hne]; [by rewrite lookup_insert_eq|by rewrite lookup_insert_ne].
Qed.

Lemma sim_of_store (st : ResultStore F) : frame_ok (results st) ->
  sim (results st) (list_to_map (completed st)).
Proof.
  intros Hf. split; [done|]. intros k r. rewrite dict_as_map. by apply completed_get.
Qed.

Lemma abstract_other l m k : k ∉ (fun r => run_key (r_spec r)) <$> l -> foldl abstract m l !! k = m !! k.
Proof.
  revert m. induction l as [|r l IH]; intros m Hk; [done|]. simpl in *.
  apply not_elem_of_cons in Hk as [Hne Hk]. rewrite IH by done. unfold abstract.
  case_match; [by rewrite lookup_insert_ne|by rewrite lookup_delete_ne].
Qed.

Lemma abstract_recorded l m r : NoDup ((fun r => run_key (r_spec r)) <$> l) -> r ∈ l ->
  is_completed (r_status r) = true -> foldl abstract m l !! run_key (r_spec r) = Some (seen_again r).
Proof.
  revert m. induction l as [|x l IH]; intros m Hn Hr Hc; [by apply elem_of_nil in Hr|]. simpl in *.
  apply NoDup_cons in Hn as [Hx Hn]. apply elem_of_cons in Hr as [->|Hr]; [|by apply IH].
  rewrite abstract_other by done. unfold abstract. rewrite Hc. apply lookup_insert_eq.
Qed.

Lemma all_exited_specs (s : running (F := F)) :
  forallb is_exited (workers s) = true -> workers s ≫= active = [].
Proof.
  induction (workers s) as [|x l IH]; [done|]. csimpl. intros [Hx Hl]%andb_true_iff.
  rewrite IH by done. by destruct x.
Qed.

Lemma ended_tidy (s : running (F := F)) :
  tidy s -> forallb is_exited (workers s) = true -> workers s ≠ [] ->
  specs_queue s = [] ∧ lost s = [].
Proof.
  rewrite forallb_forall. intros [Hl Hq] Hall Hne.
  assert (Hex : forall w x, workers s !! w = Some x -> x = Exited).
  { intros w x Hx%list_elem_of_lookup_2%list_elem_of_In. specialize (Hall x Hx). by destruct x. }
  split.
  - destruct (workers s) as [|x l] eqn:Hw; [done|]. apply (Hq 0%nat).
    simpl. f_equal. by apply (Hex 0%nat).
  - destruct Hl as [|(w & x & Hw & Hx)]; [done|]. by rewrite (Hex w x Hw) in Hx.
Qed.

Lemma workers_length (s : running (F := F)) e : length (workers (step s e)) = length (workers s).
Proof.
  unfold Runner.step. destruct (gather s), e; try done.
  all: unfold workflow_ended, record_result, loop_top, gather_returns, gather_raises, cancel_worker,
    cancelled_all.
  all: repeat first [case_match | progress simpl]; rewrite ?length_insert; done.
Qed.

(** The state of a run that started well. *)
Lemma run_fine specs concurrency st l :
  plain st = [] -> frame_ok (results st) -> Forall spec_ok specs ->
  let s := runs_from specs concurrency st l in
  fine (list_to_map (completed st)) s ∧ all_specs s ≡ₚ pending specs (completed st) ∧
  length (workers s) = Z.to_nat concurrency.
Proof.
  intros Hp Hf Hok. unfold Runner.runs_from.
  apply (run_invariant step (fun s => fine (list_to_map (completed st)) s ∧
    all_specs s ≡ₚ pending specs (completed st) ∧ length (workers s) = Z.to_nat concurrency)).
  - split; [|split; [|apply length_replicate]].
    + split; [|split; [by split; [|apply sim_of_store]|done]]. split; [by left|]. simpl.
      intros w [Hw _]%lookup_replicate. done.
    + unfold all_specs. simpl. rewrite app_nil_r.
      assert (replicate (Z.to_nat concurrency) Created ≫= active = []) as ->; [|by rewrite app_nil_r].
      by induction (Z.to_nat concurrency).
  - intros s e (H1 & H2 & H3). split; [|split; [by rewrite step_specs|by rewrite workers_length]].
    apply fine_step; [|done]. rewrite H2. unfold pending. rewrite Forall_forall in *.
    intros sp [_ Hsp]%list_elem_of_filter. by apply Hok.
Qed.

(** When a run with at least one worker ends without an exception, each pending
    spec was recorded once, the completed results can be read from the store under
    their keys, every other key is as it was, and if all results completed a further
    run has nothing to do. *)
Theorem run_completes specs concurrency st l :
  plain st = [] -> frame_ok (results st) -> Forall spec_ok specs -> NoDup (run_key <$> specs) ->
  0 < concurrency ->
  let s := runs_from specs concurrency st l in
  gather s = Ended (Ok tt) ->
  r_spec <$> recorded s ≡ₚ pending specs (completed st) ∧
  (forall r, r ∈ recorded s -> is_completed (r_status r) = true ->
     dget (run_key (r_spec r)) (completed (store s)) = Some (seen_again r)) ∧
  (forall k, k ∉ run_key <$> pending specs (completed st) ->
     dget k (completed (store s)) = dget k (completed st)) ∧
  (Forall (fun r => is_completed (r_status r) = true) (recorded s) ->
     pending specs (completed (store s)) = []).
Proof.
  intros Hp Hf Hok Hn Hc s Hend. destruct (run_fine specs concurrency st l Hp Hf Hok) as ((Ht & [_ [Hf' Hm]] & He) & Hall & Hlen).
  fold s in Ht, Hf', Hm, He, Hall, Hlen. specialize (He Hend).
  destruct (ended_tidy s Ht He) as [Hq Hl]; [by intros Hw; rewrite Hw in Hlen; simpl in Hlen; lia|].
  unfold all_specs in Hall. rewrite Hq, Hl, (all_exited_specs s He), app_nil_r in Hall. simpl in Hall.
  assert (Hget : forall k, dget k (completed (store s)) =
    foldl abstract (list_to_map (completed st)) (recorded s) !! k).
  { intros k. apply option_eq. intros r. rewrite Hm. by apply completed_get. }
  assert (Hkeys : (fun r => run_key (r_spec r)) <$> recorded s ≡ₚ run_key <$> pending specs (completed st)).
  { rewrite <- Hall. by rewrite <- list_fmap_compose. }
  assert (Hnd : NoDup ((fun r => run_key (r_spec r)) <$> recorded s)).
  { rewrite Hkeys. eapply sublist_NoDup; [exact Hn|]. apply fmap_sublist, sublist_filter. }
  split_and!; [done| | |].
  - intros r Hr Hrc. rewrite Hget. by apply abstract_recorded.
  - intros k Hk. rewrite Hget, abstract_other, dict_as_map; [done|]. by rewrite Hkeys.
  - intros Hdone. apply elem_of_nil_inv. intros sp [Hmiss Hsp]%list_elem_of_filter.
    destruct (decide (dmem (run_key sp) (completed st) = false)) as [Hpend|Hin].
    + assert (Hr : sp ∈ r_spec <$> recorded s) by (rewrite Hall; by apply list_elem_of_filter).
      apply list_elem_of_fmap in Hr as (r & -> & Hr). rewrite Forall_forall in Hdone.
      assert (Hd : dmem (run_key (r_spec r)) (completed (store s)) = true); [|congruence].
      apply dmem_true, dkeys_elem. rewrite Hget, abstract_recorded; [by eexists|done|done|by apply Hdone].
    + assert (Hd : dmem (run_key sp) (completed (store s)) = true); [|congruence].
      apply not_false_is_true in Hin. apply dmem_true, dkeys_elem in Hin.
      apply dmem_true, dkeys_elem. rewrite Hget, abstract_other, dict_as_map; [done|]. rewrite Hkeys.
      intros (sp' & Hk & [Hp' Hsp']%list_elem_of_filter)%list_elem_of_fmap.
      apply dkeys_elem, dmem_true in Hin. congruence.
Qed.
End completion.

(** *** The run ends *)

Section termination.
Context {F : Type} `{Frame F}.
Context (sha256 : string -> string) (guess_extension : string -> option string).

#[local] Abbreviation step := (step sha256 guess_extension).

(** What is left to do. *)
Definition weight (x : worker) : nat :=
  match x with Created => 1 | Running _ => 3 | Recording _ => 2 | _ => 0 end.
Definition main_weight (m : main) : nat :=
  match m with Gathering => 2 | Cancelling _ => 1 | Ended _ => 0 end.
Definition measure (s : running (F := F)) : nat :=
  3 * length (specs_queue s) + list_sum (weight <$> workers s) + main_weight (gather s).

Lemma weight_insert w x y l : l !! w = Some y ->
  (list_sum (weight <$> <[w := x]> l) + weight y = list_sum (weight <$> l) + weight x)%nat.
Proof.
  revert w. induction l as [|z l IH]; intros [|w] Hw; simplify_eq/=; [lia|].
  specialize (IH _ Hw). lia.
Qed.

Lemma loop_top_measure w y s rec st : workers s !! w = Some y -> (0 < weight y)%nat ->
  (measure (loop_top w (with_record st rec s)) < measure s)%nat.
Proof.
  intros Hw Hy. unfold loop_top, measure. simpl. destruct (specs_queue s) as [|sp q] eqn:Hq; simpl.
  - pose proof (weight_insert w Exited y _ Hw) as Hi. simpl in Hi. rewrite Hq. simpl. lia.
  - pose proof (weight_insert w (Running sp) y _ Hw) as Hi. simpl in Hi. lia.
Qed.

Lemma step_measure s e : step s e = s ∨ (measure (step s e) < measure s)%nat.
Proof.
  unfold Runner.step. destruct (gather s) as [|e0|r] eqn:Hg, e as [w|w o|w ts now|now|w now|w|now];
    try by left.
  - destruct (workers s !! w) as [[]|] eqn:Hw; try by left. right.
    rewrite <- (with_record_same s) at 1. eapply loop_top_measure; [done|simpl; lia].
  - destruct (workers s !! w) as [[|sp|r| |e1|]|] eqn:Hw; try by left. right.
    destruct o as [r|e2]; unfold measure; simpl;
      [pose proof (weight_insert w (Recording (for_spec sp r)) _ _ Hw) as Hi|
       pose proof (weight_insert w (Failed e2) _ _ Hw) as Hi]; simpl in Hi; lia.
  - destruct (workers s !! w) as [[|sp|r| |e1|]|] eqn:Hw; try by left. right. unfold record_result.
    destruct (record _ _ _ _ _ _) as [st [[]|e2]]; [eapply loop_top_measure; [done|simpl; lia]|].
    unfold measure. simpl. pose proof (weight_insert w (Failed e2) _ _ Hw) as Hi. simpl in Hi. lia.
  - unfold gather_returns. case_match; [right|by left]. unfold measure. simpl. rewrite Hg. simpl. lia.
  - unfold gather_raises. destruct (workers s !! w) as [[| | | |e1|]|]; try by left. right.
    unfold measure. destruct (is_Exception e1); simpl; rewrite Hg; simpl; lia.
  - unfold cancel_worker. destruct (workers s !! w) as [[]|] eqn:Hw; try (by left); right; unfold measure; simpl;
      pose proof (weight_insert w Cancelled _ _ Hw) as Hi; simpl in Hi; lia.
  - unfold cancelled_all. case_match; [right|by left]. unfold measure. simpl. rewrite Hg. simpl. lia.
Qed.

(** Only [run] cancels a worker. *)
Definition uncancelled (s : running (F := F)) : Prop :=
  gather s = Gathering -> Cancelled ∉ workers s.

Lemma not_cancelled_insert w x (l : list worker) : x ≠ Cancelled -> Cancelled ∉ l -> Cancelled ∉ <[w := x]> l.
Proof.
  intros Hx Hl Hin. apply list_elem_of_lookup in Hin as [i Hi].
  apply list_lookup_insert_Some in Hi as [(_ & Heq & _)|[_ Hi]]; [congruence|].
  by apply Hl, (list_elem_of_lookup_2 _ i).
Qed.

Lemma uncancelled_step s e : uncancelled s -> uncancelled (step s e).
Proof.
  unfold uncancelled, Runner.step. intros Hu.
  assert (Htop : forall w (s' : running (F := F)), gather s' = gather s -> workers s' = workers s ->
    gather (loop_top w s') = Gathering -> Cancelled ∉ workers (loop_top w s')).
  { intros w s' Hg Hw. unfold loop_top. destruct (specs_queue s'); simpl; rewrite Hg, Hw; intros Hg';
      apply not_cancelled_insert; auto. }
  destruct (gather s) as [|e0|r] eqn:Hg, e as [w|w o|w ts now|now|w now|w|now]; rewrite ?Hg; try done; auto.
  - destruct (workers s !! w) as [[]|]; try by rewrite Hg. apply Htop; done.
  - destruct (workers s !! w) as [[]|]; try by rewrite Hg.
    destruct o; simpl; intros _; apply not_cancelled_insert; auto.
  - destruct (workers s !! w) as [[]|]; try by rewrite Hg. unfold record_result.
    destruct (record _ _ _ _ _ _) as [st [[]|e2]]; [by apply Htop|].
    simpl. intros _. apply not_cancelled_insert; auto.
  - unfold gather_returns. case_match; [done|by rewrite Hg].
  - unfold gather_raises. destruct (workers s !! w) as [[| | | |e1|]|]; try by rewrite Hg.
    by destruct (is_Exception e1).
  - unfold cancel_worker. destruct (workers s !! w) as [[]|]; simpl; by rewrite Hg.
  - unfold cancelled_all. case_match; [done|by rewrite Hg].
Qed.

Lemma not_all (f : worker -> bool) l : forallb f l = false -> exists w x, l !! w = Some x ∧ f x = false.
Proof.
  induction l as [|x l IH]; [done|]. simpl. destruct (f x) eqn:Hx; [|by intros _; exists 0%nat, x].
  intros (w & y & Hw & Hy)%IH. by exists (S w), y.
Qed.

Lemma progress s : uncancelled s -> (forall r, gather s ≠ Ended r) ->
  exists e, (measure (step s e) < measure s)%nat.
Proof.
  intros Hu Hend.
  assert (Hev : forall e, step s e ≠ s -> exists e, (measure (step s e) < measure s)%nat).
  { intros e He. exists e. by destruct (step_measure s e). }
  assert (Hset : forall w x y, workers s !! w = Some y -> x ≠ y -> <[w := x]> (workers s) ≠ workers s).
  { intros w x y Hw Hne Heq. pose proof (list_lookup_insert_eq (workers s) w x) as Hi.
    rewrite Heq, Hw in Hi. specialize (Hi (lookup_lt_Some _ _ _ Hw)). congruence. }
  destruct (gather s) as [|e0|r] eqn:Hg; [| |by destruct (Hend r)].
  - destruct (forallb is_exited (workers s)) eqn:Hall.
    { apply (Hev (GatherReturns 0)). unfold Runner.step. rewrite Hg. unfold gather_returns. rewrite Hall.
      intros Heq%(f_equal gather). simpl in Heq. congruence. }
    destruct (not_all _ _ Hall) as (w & x & Hw & Hx).
    destruct x as [|sp|r| |e1|]; [| | |done| |].
    + exists (Begin w). unfold Runner.step. rewrite Hg, Hw. rewrite <- (with_record_same s) at 1.
      eapply loop_top_measure; [done|simpl; lia].
    + apply (Hev (WorkflowEnds w (Raise CancelledError))). unfold Runner.step. rewrite Hg, Hw.
      intros Heq%(f_equal workers). by apply (Hset w (Failed CancelledError) (Running sp)) in Heq.
    + exists (Records w 0 0). destruct (step_measure s (Records w 0 0)) as [Heq|]; [|done].
      revert Heq. unfold Runner.step. rewrite Hg, Hw. unfold record_result.
      destruct (record _ _ _ _ _ _) as [st [[]|e2]].
      * intros _. eapply loop_top_measure; [done|simpl; lia].
      * intros Heq%(f_equal workers). by apply (Hset w (Failed e2) (Recording r)) in Heq.
    + apply (Hev (GatherRaises w 0)). unfold Runner.step. rewrite Hg. unfold gather_raises. rewrite Hw.
      destruct (is_Exception e1); intros Heq%(f_equal gather); simpl in Heq; congruence.
    + destruct (Hu Hg). by eapply list_elem_of_lookup_2.
  - destruct (forallb finished (workers s)) eqn:Hall.
    { apply (Hev (CancelledAll 0)). unfold Runner.step. rewrite Hg. unfold cancelled_all. rewrite Hall.
      intros Heq%(f_equal gather). simpl in Heq. congruence. }
    destruct (not_all _ _ Hall) as (w & x & Hw & Hx). apply (Hev (CancelWorker w)).
    unfold Runner.step. rewrite Hg. unfold cancel_worker. rewrite Hw.
    destruct x; try done; intros Heq%(f_equal workers); by eapply Hset in Heq.
Qed.

Lemma run_uncancelled specs concurrency st l :
  uncancelled (runs_from sha256 guess_extension specs concurrency st l).
Proof.
  unfold runs_from. apply (run_invariant step uncancelled); [|apply uncancelled_step]. intros _. simpl.
  intros [Heq _]%elem_of_replicate. done.
Qed.

(** Every step of a run that changes anything leaves less to do, and from every
    state a run can reach it can still come to its end within that many steps: no
    worker waits for ever. *)
Theorem run_ends specs concurrency st l :
  let s := runs_from sha256 guess_extension specs concurrency st l in
  let left s := (3 * length (specs_queue s) +
    list_sum ((fun x => match x with Created => 1 | Running _ => 3 | Recording _ => 2 | _ => 0 end)
                <$> workers s) +
    match gather s with Gathering => 2 | Cancelling _ => 1 | Ended _ => 0 end)%nat in
  (forall e, step s e = s ∨ (left (step s e) < left s)%nat) ∧
  exists l' r, (length l' <= left s)%nat ∧
    gather (runs_from sha256 guess_extension specs concurrency st (l ++ l')) = Ended r.
Proof.
  intros s left. split; [intros e; apply (step_measure s e)|].
  enough (exists l' r, (length l' <= left s)%nat ∧ gather (run step s l') = Ended r) as (l' & r & Hl & Hr).
  { exists l', r. split; [done|]. unfold runs_from. by rewrite run_app. }
  pose proof (run_uncancelled specs concurrency st l) as Hu. fold s in Hu.
  change (left s) with (measure s). clear left. clearbody s.
  remember (measure s) as n eqn:Hn. revert s Hn Hu.
  induction (lt_wf n) as [n _ IH]. intros s -> Hu.
  destruct (gather s) as [|e0|r] eqn:Hg; [| |by exists [], r; simpl; split; [lia|]];
    (destruct (progress s Hu) as [e He]; [by intros r; rewrite Hg|];
     destruct (IH _ He _ eq_refl (uncancelled_step s e Hu)) as (l' & r & Hlen & Hr);
     exists (e :: l'), r; split; [simpl; lia|done]).
Qed.
End termination.

(** ** Examples *)
Module Examples.
Import Store.Examples.
#[local] Existing Instance list_frame.

(** Clients are the names of their models; every shuffle turns the list round. *)
Definition two_models (cross : bool) : options (Client := string) :=
  {| models := ["org/A"; "v:b"]%string; cross_sample := cross; start_sample := false; has_controller := true;
     runs := Some 2; tasks := Some ["t"%string]; indices := []; custom_params := [] |}.
Definition name_of (c : string) : res string := Ok c.
Definition indices_of (t : string) : res (list val) := Ok [VInt (-1); VInt 2; VInt 3].
#[local] Abbreviation gather_models := (gather_models name_of (fun _ => None)).
#[local] Abbreviation gather_tasks := (gather_tasks name_of (fun _ => None) indices_of (fun _ => reverse)).

(** Two clients whose models bear one name: the first is never evaluated. *)
Example same_name_lost :
  name_clients name_of (fun _ => None) ["org/a"; "other/a"]%string = Ok [("a"%string, ["other/a"%string])].
Proof. by vm_compute. Qed.

Lemma gather_tasks_specs_witness :
  exists specs, (gather_tasks (two_models false) []).2 = Ok specs ∧ length specs = 8%nat ∧
    StronglySorted (fun a b => sp_run a <= sp_run b) specs.
Proof.
  destruct (gather_tasks (two_models false) []) as [d' r] eqn:E.
  assert (exists specs, r = Ok specs ∧ length specs = 8%nat) as (specs & -> & Hlen).
  { vm_compute in E. injection E as _ <-. by eexists. }
  exists specs. split; [done|]. split; [done|].
  destruct (gather_tasks_specs name_of (fun _ => None) indices_of (fun _ => reverse)
    (fun _ l => reverse_Permutation l) (two_models false) [] d' 2 ["t"%string] specs eq_refl eq_refl eq_refl E)
    as (names & l & _ & _ & _ & Hs & _).
  exact Hs.
Defined.

Lemma cross_sample_doubles_witness :
  exists d1 d2, gather_models (two_models true) [] = (d1, Ok ["a-b"%string]) ∧
    gather_models (two_models true) d1 = (d2, Ok ["a-b-a-b"%string]).
Proof.
  exact (cross_sample_doubles name_of (fun _ => None) (two_models true)
    [("a"%string, ["org/A"%string]); ("b"%string, ["v:b"%string])] eq_refl eq_refl ltac:(done) ltac:(by vm_compute)
    ltac:(done) ltac:(by apply (bool_decide_eq_false_1 _))).
Defined.

Definition two_specs : list RunSpec := [spec (VInt 1); spec (VInt 2)].
Definition one_worker : list event :=
  [Begin 0; WorkflowEnds 0 (Ok (result_of (VInt 1) COMPLETED)); Records 0 5 0;
   WorkflowEnds 0 (Ok (result_of (VInt 2) COMPLETED)); Records 0 6 0; GatherReturns 1].
#[local] Abbreviation runs_from := (runs_from (fun p => p) (fun _ => None)).

Lemma run_completes_witness :
  let s := runs_from two_specs 1 new_store one_worker in
  gather s = Ended (Ok tt) ∧ r_spec <$> Runner.recorded s ≡ₚ two_specs ∧
  pending two_specs (completed (store s)) = [].
Proof.
  intros s. assert (Hend : gather s = Ended (Ok tt)) by by vm_compute. split; [done|].
  assert (Hm : no_char ":" "m") by by apply no_char_compute.
  assert (Ht : no_char ":" "t") by by apply no_char_compute.
  destruct (@run_completes (list row) list_frame (fun p => p) (fun _ => None)
    (fun f w _ => Permutation_refl _) two_specs 1 new_store one_worker) as (H1 & _ & _ & H4).
  - done.
  - split; [apply NoDup_nil_2|by apply Forall_nil].
  - apply Forall_cons. split; [by split_and!|]. apply Forall_cons. split; [by split_and!|].
    by apply Forall_nil.
  - by apply (bool_decide_eq_true_1 _).
  - lia.
  - exact Hend.
  - split; [exact H1|]. apply H4. apply Forall_forall. intros r Hr%list_elem_of_In.
    assert (Hb : forallb (fun r => is_completed (r_status r)) (Runner.recorded s) = true) by by vm_compute.
    exact (proj1 (forallb_forall _ _) Hb r Hr).
Defined.
End Examples.
