(* ===== verification/Events.v ===== *)
(** * The event bus of the evaluator

    Models eval/event/bus.py: subscribing, publishing to the listeners of a type, and
    waiting for an event.  A step is what the event loop runs between two suspensions.
    What a listener of the program does with an event is a function: it may change the
    subscriptions, return, return a coroutine or raise.  Logging is left out. *)

From S2P Require Import Prelude PyVal.

(** An event: its type and what it carries. *)
Record event := { type : string; content : val }.

(** A listener of the program, or the one a call of [wait_for] subscribes. *)
Inductive listener : Type := Handler (n : nat) | Waiter (w : nat).
#[export] Instance listener_eq_dec : EqDecision listener.
Proof. solve_decision. Defined.

(** What a handler does while it is called. *)
Inductive operation : Type := Subscribes (ty : string) (n : nat) | Unsubscribes (ty : string) (n : nat).
Inductive called : Type := Returns | IsCoroutine | Raises (e : exn).

(** A call of [wait_for]: its future is pending; it has a result or an exception and the
    call will be resumed; the call has ended. *)
Inductive wait_phase : Type :=
| Pending
| Ready (r : res event)
| Over (r : res event).
Record wait := { w_type : string; w_phase : wait_phase }.

Record bus := {
  (** a set per type; its order is that of its iteration *)
  listeners : list (string * list listener);
  waits : gmap nat wait;
  (** every call of a listener, in order *)
  heard : list (listener * event);
  (** the publications that wait for the coroutines of their listeners *)
  awaited : gmap nat (list nat)
}.
Definition new_bus : bus := {| listeners := []; waits := ∅; heard := []; awaited := ∅ |}.

Definition set_listeners (l : list (string * list listener)) (s : bus) : bus :=
  {| listeners := l; waits := waits s; heard := heard s; awaited := awaited s |}.
Definition set_wait (w : nat) (x : wait) (s : bus) : bus :=
  {| listeners := listeners s; waits := <[w := x]> (waits s); heard := heard s; awaited := awaited s |}.
Definition hear (l : listener) (e : event) (s : bus) : bus :=
  {| listeners := listeners s; waits := waits s; heard := heard s ++ [(l, e)]; awaited := awaited s |}.
Definition set_awaited (p : nat) (l : list nat) (s : bus) : bus :=
  {| listeners := listeners s; waits := waits s; heard := heard s; awaited := <[p := l]> (awaited s) |}.

(** The listeners of a type. *)
Definition listening (ty : string) (s : bus) : list listener := dget_or ty [] (listeners s).

(* eval/event/bus.py:17-22 EventBus.subscribe *)
Definition subscribe (ty : string) (l : listener) (s : bus) : bus :=
  let ls := listening ty s in
  set_listeners (dset ty (if decide (l ∈ ls) then ls else ls ++ [l]) (listeners s)) s.

(* eval/event/bus.py:24-30 EventBus.unsubscribe *)
Definition unsubscribe (ty : string) (l : listener) (s : bus) : bus :=
  match dget ty (listeners s) with
  | None => s
  | Some ls => set_listeners (dset ty (filter (fun x => x ≠ l) ls) (listeners s)) s
  end.

Section bus.
(** What a handler does with an event. *)
Context (react : nat -> event -> list operation * called).
(** [check(event)] of a wait; without a check it is true. *)
Context (check : nat -> event -> res bool).
(** Whether a timeout or a cancellation that comes after the result, but before the call
    is resumed, wins: that depends on the version of asyncio. *)
Context (late : bool).

Definition operate (s : bus) (o : operation) : bus :=
  match o with Subscribes ty n => subscribe ty (Handler n) s | Unsubscribes ty n => unsubscribe ty (Handler n) s end.

(* eval/event/bus.py:67-70 EventBus.wait_for *)
Definition listen (w : nat) (e : event) (s : bus) : bus * called :=
  match check w e with
  | Raise x => (s, Raises x)
  | Ok false => (s, Returns)
  | Ok true =>
      (match waits s !! w with
       | Some {| w_type := ty; w_phase := Pending |} => set_wait w {| w_type := ty; w_phase := Ready (Ok e) |} s
       | _ => s
       end, Returns)
  end.

Definition call_listener (l : listener) (e : event) (s : bus) : bus * called :=
  let s := hear l e s in
  match l with
  | Handler n => let '(ops, c) := react n e in (foldl operate s ops, c)
  | Waiter w => listen w e s
  end.

(** The loop over the listeners; gives those that returned a coroutine.  An exception that
    is not an [Exception] ends it, and the publication. *)
(* eval/event/bus.py:36-42 EventBus.publish *)
Fixpoint call_all (ls : list listener) (e : event) (s : bus) : bus * res (list nat) :=
  match ls with
  | [] => (s, Ok [])
  | l :: ls =>
      let '(s, c) := call_listener l e s in
      match c with
      | Raises x => if is_Exception x then call_all ls e s else (s, Raise x)
      | Returns => call_all ls e s
      | IsCoroutine =>
          match call_all ls e s with
          | (s, Ok fs) => (s, Ok (match l with Handler n => n :: fs | Waiter _ => fs end))
          | r => r
          end
      end
  end.

(** Publication number [p] up to the point where it waits for the coroutines. *)
(* eval/event/bus.py:32-47 EventBus.publish *)
Definition publish (p : nat) (e : event) (s : bus) : bus :=
  match call_all (listening (type e) s) e s with
  | (s, Ok futures) => set_awaited p futures s
  | (s, Raise _) => s
  end.

Inductive happening : Type :=
| Operate (o : operation)
| Publish (p : nat) (e : event)
(** the coroutine of a handler has ended, or has raised; both are collected *)
| CoroutineEnds (p n : nat)
| WaitFor (w : nat) (ty : string)
| Timeout (w : nat)
| Cancel (w : nat)
| Resume (w : nat).

(** The future is cancelled by what ends the call. *)
Definition interrupt (w : nat) (x : exn) (s : bus) : bus :=
  match waits s !! w with
  | Some {| w_type := ty; w_phase := Pending |} => set_wait w {| w_type := ty; w_phase := Ready (Raise x) |} s
  | Some {| w_type := ty; w_phase := Ready (Ok _) |} => if late then set_wait w {| w_type := ty; w_phase := Ready (Raise x) |} s else s
  | _ => s
  end.

(* eval/event/bus.py:55-72 EventBus.wait_for *)
Definition wait_for (w : nat) (ty : string) (s : bus) : bus :=
  match waits s !! w with
  | None => subscribe ty (Waiter w) (set_wait w {| w_type := ty; w_phase := Pending |} s)
  | Some _ => s
  end.
(* eval/event/bus.py:74-77 EventBus.wait_for *)
Definition resume (w : nat) (s : bus) : bus :=
  match waits s !! w with
  | Some {| w_type := ty; w_phase := Ready r |} => unsubscribe ty (Waiter w) (set_wait w {| w_type := ty; w_phase := Over r |} s)
  | _ => s
  end.

Definition bus_step (s : bus) (h : happening) : bus :=
  match h with
  | Operate o => operate s o
  | Publish p e => publish p e s
  | CoroutineEnds p n =>
      match awaited s !! p with
      | Some l => set_awaited p (filter (fun m => m ≠ n) l) s
      | None => s
      end
  | WaitFor w ty => wait_for w ty s
  | Timeout w => interrupt w TimeoutError s
  | Cancel w => interrupt w CancelledError s
  | Resume w => resume w s
  end.

(** ** Proofs *)

Lemma listening_subscribe ty l ty' s :
  listening ty' (subscribe ty l s) = if decide (ty' = ty) then (if decide (l ∈ listening ty s) then listening ty s else listening ty s ++ [l])
                                     else listening ty' s.
Proof.
  unfold listening, subscribe, dget_or. simpl. rewrite dget_dset. by case_decide.
Qed.
Lemma listening_unsubscribe ty l ty' s :
  listening ty' (unsubscribe ty l s) = if decide (ty' = ty) then filter (fun x => x ≠ l) (listening ty s) else listening ty' s.
Proof.
  unfold listening, unsubscribe, dget_or. destruct (dget ty (listeners s)) as [ls|] eqn:E; simpl.
  - rewrite dget_dset. by case_decide.
  - case_decide; [subst; by rewrite E|done].
Qed.

(** Nobody is subscribed twice; a wait is subscribed to its type until its call has ended,
    and to nothing else. *)
Definition waiting_for (s : bus) (w : nat) (ty : string) : Prop :=
  exists ph, waits s !! w = Some {| w_type := ty; w_phase := ph |} ∧ forall r, ph ≠ Over r.
(** The events the check of a wait has accepted, in the order it was called. *)
Definition accepted (w : nat) (s : bus) : list event :=
  (filter (fun p => p.1 = Waiter w ∧ check w p.2 = Ok true) (heard s)).*2.

Record bus_ok (s : bus) : Prop := {
  ok_sets : forall ty, NoDup (listening ty s);
  ok_waiters : forall ty w, Waiter w ∈ listening ty s <-> waiting_for s w ty;
  ok_pending : forall w ty, waits s !! w = Some {| w_type := ty; w_phase := Pending |} -> accepted w s = [];
  ok_got : forall w ty ph e, waits s !! w = Some {| w_type := ty; w_phase := ph |} -> ph = Ready (Ok e) \/ ph = Over (Ok e) ->
    head (accepted w s) = Some e ∧ type e = ty
}.

Lemma accepted_hear w l e s : accepted w (hear l e s) = accepted w s ++ (if decide (l = Waiter w ∧ check w e = Ok true) then [e] else []).
Proof.
  unfold accepted. simpl. rewrite filter_app, fmap_app. f_equal. rewrite filter_cons. simpl. by repeat case_decide.
Qed.

(** Subscriptions of handlers do not concern the waits. *)
Lemma ok_same s s' : bus_ok s -> waits s' = waits s -> heard s' = heard s -> (forall ty, NoDup (listening ty s')) ->
  (forall ty w, Waiter w ∈ listening ty s' <-> Waiter w ∈ listening ty s) -> bus_ok s'.
Proof.
  intros [H1 H2 H3 H4] Hw Hh Hn Hl.
  split; [done|intros ty w; rewrite Hl; unfold waiting_for; rewrite Hw; apply H2|intros w ty; rewrite Hw|intros w ty ph e; rewrite Hw];
    unfold accepted; rewrite Hh; [apply H3|apply H4].
Qed.

Lemma operate_ok s o : bus_ok s -> bus_ok (operate s o) ∧ waits (operate s o) = waits s.
Proof.
  intros Hs. pose proof (ok_sets _ Hs) as Hn. destruct o as [ty n|ty n]; cbn [operate].
  - split; [|done]. apply (ok_same s); [done|done|done| |].
    + intros ty'. rewrite listening_subscribe. case_decide; [|done]. case_decide; [done|]. apply NoDup_app. split; [done|].
      split; [|apply NoDup_singleton]. by intros x Hx ->%list_elem_of_singleton.
    + intros ty' w. rewrite listening_subscribe. case_decide; [subst ty'|done]. case_decide; [done|]. set_solver.
  - assert (Hw : waits (unsubscribe ty (Handler n) s) = waits s) by (unfold unsubscribe; by destruct (dget _ _)).
    split; [|done]. apply (ok_same s); [done|done|unfold unsubscribe; by destruct (dget _ _)| |].
    + intros ty'. rewrite listening_unsubscribe. case_decide; [|done]. by apply NoDup_filter.
    + intros ty' w. rewrite listening_unsubscribe. case_decide; [subst ty'|done]. rewrite list_elem_of_filter. naive_solver.
Qed.
Lemma operate_all_ok ops s : bus_ok s -> bus_ok (foldl operate s ops) ∧ waits (foldl operate s ops) = waits s.
Proof.
  revert s. induction ops as [|o ops IH]; intros s Hs; [done|]. destruct (operate_ok s o Hs) as [Ho Hw]. cbn.
  rewrite <- Hw. by apply IH.
Qed.

(** A call that a wait does not accept, or that is of a handler. *)
Lemma hear_ok l e s : bus_ok s -> (forall w, l = Waiter w -> check w e ≠ Ok true) -> bus_ok (hear l e s).
Proof.
  intros [H1 H2 H3 H4] Hl. assert (Ha : forall w, accepted w (hear l e s) = accepted w s).
  { intros w. rewrite accepted_hear, decide_False; [by rewrite app_nil_r|]. intros [-> Hc]. by apply (Hl w). }
  split; [done|done| |]; intros; rewrite Ha; by eauto.
Qed.

(** Another phase of a wait that goes on. *)
Lemma phase_ok w ty ph ph' s : bus_ok s -> waits s !! w = Some {| w_type := ty; w_phase := ph |} ->
  (forall r, ph ≠ Over r) -> (forall r, ph' ≠ Over r) -> (ph' = Pending -> False) ->
  (forall e, ph' = Ready (Ok e) -> head (accepted w s) = Some e ∧ type e = ty) -> bus_ok (set_wait w {| w_type := ty; w_phase := ph' |} s).
Proof.
  intros [H1 H2 H3 H4] Hw Hph Hph' Hp He. split.
  - done.
  - intros ty' w'. change (listening ty' (set_wait _ _ _)) with (listening ty' s). rewrite H2. unfold waiting_for. simpl.
    destruct (decide (w' = w)) as [->|Hne]; [|by rewrite lookup_insert_ne]. rewrite Hw, lookup_insert_eq. split; intros (x & [= -> <-] & _); by eexists.
  - intros w' ty' Hw'. simpl in Hw'. change (accepted w' (set_wait _ _ _)) with (accepted w' s).
    destruct (decide (w' = w)) as [->|Hne]; [rewrite lookup_insert_eq in Hw'; by injection Hw' as _ ->|].
    rewrite lookup_insert_ne in Hw' by done. by eapply H3.
  - intros w' ty' x e Hw' Hx. simpl in Hw'. change (accepted w' (set_wait _ _ _)) with (accepted w' s).
    destruct (decide (w' = w)) as [->|Hne]; [|rewrite lookup_insert_ne in Hw' by done; by eapply H4].
    rewrite lookup_insert_eq in Hw'. injection Hw' as -> ->. destruct Hx as [->|Hx]; [by apply He|by destruct (Hph' (Ok e))].
Qed.

(** An accepted event fills a pending future, and is heard in vain by another. *)
Lemma accept_ok w e s : bus_ok s -> waiting_for s w (type e) -> check w e = Ok true ->
  bus_ok (match waits s !! w with
          | Some {| w_type := ty; w_phase := Pending |} => set_wait w {| w_type := ty; w_phase := Ready (Ok e) |} (hear (Waiter w) e s)
          | _ => hear (Waiter w) e s
          end).
Proof.
  intros Hs (ph & Hw & Hov) Hc. rewrite Hw. pose proof Hs as [H1 H2 H3 H4].
  assert (Hother : forall w', w' ≠ w -> accepted w' (hear (Waiter w) e s) = accepted w' s).
  { intros w' Hne. rewrite accepted_hear, decide_False by naive_solver. by rewrite app_nil_r. }
  assert (Hself : accepted w (hear (Waiter w) e s) = accepted w s ++ [e]) by (by rewrite accepted_hear, decide_True).
  destruct ph as [|r|r]; [|split; [done|done| |]|by destruct (Hov r)].
  - split; [done| | |].
    + intros ty' w'. change (listening ty' (set_wait _ _ _)) with (listening ty' s). rewrite H2. unfold waiting_for. simpl.
      destruct (decide (w' = w)) as [->|Hne]; [|by rewrite lookup_insert_ne]. rewrite Hw, lookup_insert_eq. split; intros (x & [= -> <-] & _); by eexists.
    + intros w' ty' Hw'. simpl in Hw'. destruct (decide (w' = w)) as [->|Hne]; [by rewrite lookup_insert_eq in Hw'|].
      rewrite lookup_insert_ne in Hw' by done. change (accepted w' (set_wait _ _ _)) with (accepted w' (hear (Waiter w) e s)).
      rewrite Hother by done. by eapply H3.
    + intros w' ty' x e' Hw' Hx. simpl in Hw'. change (accepted w' (set_wait _ _ _)) with (accepted w' (hear (Waiter w) e s)).
      destruct (decide (w' = w)) as [->|Hne]; [|rewrite lookup_insert_ne in Hw' by done; rewrite Hother by done; by eapply H4].
      rewrite lookup_insert_eq in Hw'. injection Hw' as <- <-. rewrite Hself, (H3 w _ Hw). destruct Hx as [[= <-]|[= ]]. done.
  - intros w' ty' Hw'. destruct (decide (w' = w)) as [->|Hne]; [simpl in Hw'; congruence|]. rewrite Hother by done. by eapply H3.
  - intros w' ty' x e' Hw' Hx. destruct (decide (w' = w)) as [->|Hne]; [|rewrite Hother by done; by eapply H4].
    rewrite Hself. destruct (H4 w ty' x e' Hw' Hx) as [Hh Ht]. split; [|done]. by destruct (accepted w s).
Qed.

(** The waits a publication still has to call go on during the calls before them. *)
Lemma waiting_kept s s' w ty : waiting_for s w ty ->
  (waits s' !! w = waits s !! w \/ exists r, waits s' !! w = Some {| w_type := ty; w_phase := Ready r |}) -> waiting_for s' w ty.
Proof. intros (ph & Hw & Hov) [E|[r E]]; [exists ph; by rewrite E|by exists (Ready r)]. Qed.

Lemma call_ok l e s : bus_ok s -> (forall w, l = Waiter w -> waiting_for s w (type e)) ->
  bus_ok (call_listener l e s).1 ∧ forall w ty, waiting_for s w ty -> waiting_for (call_listener l e s).1 w ty.
Proof.
  intros Hs Hl. destruct l as [n|w]; cbn [call_listener].
  - destruct (react n e) as [ops c]. cbn [fst]. assert (Hh : bus_ok (hear (Handler n) e s)) by (by apply hear_ok).
    destruct (operate_all_ok ops _ Hh) as [Ho Hw]. split; [done|]. intros w ty Hwt. eapply waiting_kept; [exact Hwt|]. left. by rewrite Hw.
  - unfold listen. destruct (check w e) as [[|]|x] eqn:Hc; cbn [fst].
    + pose proof (accept_ok w e s Hs (Hl w eq_refl) Hc) as Ha. change (waits (hear (Waiter w) e s)) with (waits s).
      split; [done|]. intros w' ty' Hwt. eapply waiting_kept; [exact Hwt|]. destruct Hwt as (ph & Hw' & Hov).
      destruct (decide (w' = w)) as [->|Hne].
      * rewrite Hw'. destruct ph; [right; exists (Ok e); simpl; by rewrite lookup_insert_eq|left; simpl; by rewrite Hw'|by left].
      * left. destruct (waits s !! w) as [[ty [| |]]|]; simpl; try done. by rewrite lookup_insert_ne.
    + split; [apply hear_ok; [done|]; intros w' [= <-]; by rewrite Hc|done].
    + split; [apply hear_ok; [done|]; intros w' [= <-]; by rewrite Hc|done].
Qed.

Lemma call_all_ok ls e s : bus_ok s -> (forall w, Waiter w ∈ ls -> waiting_for s w (type e)) -> bus_ok (call_all ls e s).1.
Proof.
  revert s. induction ls as [|l ls IH]; intros s Hs Hl; [done|]. cbn [call_all].
  destruct (call_ok l e s Hs) as [Hc Hw]; [intros w ->; apply Hl; left|].
  destruct (call_listener l e s) as [s1 c]. cbn [fst] in *.
  assert (Hn : bus_ok (call_all ls e s1).1) by (apply IH; [done|]; intros w Hw'; apply Hw, Hl; by right).
  destruct c as [| |x]; [done| |by destruct (is_Exception x)].
  by destruct (call_all ls e s1) as [s2 [fs|x]].
Qed.

(** Everybody subscribed when the event is published is called once, unless a call raises
    something that is not an Exception. *)
Lemma call_all_hears ls e s : (forall l s', is_ok (match (call_listener l e s').2 with Raises x => if is_Exception x then Ok tt else Raise x | _ => Ok tt end) = true) ->
  heard (call_all ls e s).1 = heard s ++ ((fun l => (l, e)) <$> ls) ∧ is_ok (call_all ls e s).2 = true.
Proof.
  intros Hx. revert s. induction ls as [|l ls IH]; intros s; [by rewrite app_nil_r|]. cbn [call_all].
  assert (Hh : heard (call_listener l e s).1 = heard s ++ [(l, e)]).
  { destruct l as [n|w]; cbn [call_listener].
    - destruct (react n e) as [ops c]. cbn [fst]. clear. change (heard s ++ _) with (heard (hear (Handler n) e s)). generalize (hear (Handler n) e s).
      induction ops as [|o ops IH]; intros s'; [done|]. cbn. rewrite IH. destruct o; [done|]. cbn. unfold unsubscribe. by destruct (dget _ _).
    - unfold listen. destruct (check w e) as [[|]|]; try done. simpl. by destruct (waits s !! w) as [[ty [| |]]|]. }
  specialize (Hx l s). destruct (call_listener l e s) as [s1 c]. cbn [fst snd] in *. destruct (IH s1) as [H1 H2].
  assert (Hn : heard (call_all ls e s1).1 = heard s ++ ((fun l => (l, e)) <$> l :: ls)) by (rewrite H1, Hh, <- app_assoc; done).
  destruct c as [| |x]; [done| |by destruct (is_Exception x)]. by destruct (call_all ls e s1) as [s2 [fs|x]].
Qed.

Lemma publish_ok p e s : bus_ok s -> bus_ok (publish p e s).
Proof.
  intros Hs. unfold publish. assert (H : bus_ok (call_all (listening (type e) s) e s).1).
  { apply call_all_ok; [done|]. intros w. apply (ok_waiters _ Hs). }
  destruct (call_all _ e s) as [s1 [fs|x]]; cbn [fst] in H; [|done]. by apply (ok_same s1); try apply H.
Qed.

Lemma interrupt_ok w x s : bus_ok s -> bus_ok (interrupt w x s).
Proof.
  intros Hs. unfold interrupt. destruct (waits s !! w) as [[ty [|[e|y]|]]|] eqn:E; try done.
  - by apply (phase_ok w ty Pending).
  - destruct late; [|done]. by apply (phase_ok w ty (Ready (Ok e))).
Qed.

(** Only waits that were started are subscribed or have heard something. *)
Lemma fresh_accepted w s : bus_ok s -> (forall e, (Waiter w, e) ∉ heard s) -> accepted w s = [].
Proof.
  intros _ Hn. unfold accepted. destruct (filter _ (heard s)) as [|[l e] t] eqn:E; [done|].
  assert (Hin : (l, e) ∈ filter (fun p => p.1 = Waiter w ∧ check w p.2 = Ok true) (heard s)) by (rewrite E; left).
  apply list_elem_of_filter in Hin as [[Hl _] Hin]. simpl in Hl. subst. by destruct (Hn e).
Qed.

Lemma wait_for_ok w ty s : bus_ok s -> (forall e, waits s !! w = None -> (Waiter w, e) ∉ heard s) -> bus_ok (wait_for w ty s).
Proof.
  intros Hs Hf. unfold wait_for. destruct (waits s !! w) as [x|] eqn:E; [done|]. pose proof Hs as [H1 H2 H3 H4].
  assert (Ha : accepted w s = []) by (apply fresh_accepted; [done|]; intros e; by apply Hf).
  assert (Hnew : forall ty', Waiter w ∉ listening ty' s).
  { intros ty' Hin. apply H2 in Hin as (ph & Hw & _). congruence. }
  set (s1 := set_wait w _ s). split.
  - intros ty'. rewrite listening_subscribe. change (listening ?t s1) with (listening t s). case_decide; [|done]. case_decide; [done|]. apply NoDup_app. split; [apply H1|].
    split; [|apply NoDup_singleton]. intros y Hy ->%list_elem_of_singleton. by destruct (Hnew ty).
  - intros ty' w'. rewrite listening_subscribe. change (listening ?t s1) with (listening t s). unfold waiting_for. simpl.
    rewrite (decide_False (P := Waiter w ∈ listening ty s)) by apply Hnew. destruct (decide (w' = w)) as [->|Hne].
    + rewrite lookup_insert_eq. case_decide; [subst; split; [intros _; by eexists|set_solver]|].
      split; [by intros ?%Hnew|]. by intros (ph & [= ? _] & _).
    + rewrite lookup_insert_ne by done. rewrite <- (H2 ty' w'). case_decide; [subst; set_solver|done].
  - intros w' ty' Hw'. simpl in Hw'. change (accepted w' (subscribe _ _ _)) with (accepted w' s).
    destruct (decide (w' = w)) as [->|Hne]; [done|]. rewrite lookup_insert_ne in Hw' by done. by eapply H3.
  - intros w' ty' ph e Hw' Hx. simpl in Hw'. change (accepted w' (subscribe _ _ _)) with (accepted w' s).
    destruct (decide (w' = w)) as [->|Hne]; [|rewrite lookup_insert_ne in Hw' by done; by eapply H4].
    rewrite lookup_insert_eq in Hw'. injection Hw' as _ <-. by destruct Hx.
Qed.

Lemma resume_ok w s : bus_ok s -> bus_ok (resume w s).
Proof.
  intros Hs. unfold resume. destruct (waits s !! w) as [[ty [|r|]]|] eqn:E; try done. pose proof Hs as [H1 H2 H3 H4].
  set (s1 := set_wait w _ s).
  assert (Hw1 : waits (unsubscribe ty (Waiter w) s1) = waits s1 ∧ heard (unsubscribe ty (Waiter w) s1) = heard s)
    by (unfold unsubscribe; by destruct (dget _ _)).
  destruct Hw1 as [Hw1 Hh1]. assert (Ha : forall w', accepted w' (unsubscribe ty (Waiter w) s1) = accepted w' s) by (intros; unfold accepted; by rewrite Hh1).
  split.
  - intros ty'. rewrite listening_unsubscribe. case_decide; [by apply NoDup_filter, H1|apply H1].
  - intros ty' w'. rewrite listening_unsubscribe. change (listening ?t s1) with (listening t s). unfold waiting_for. rewrite Hw1. simpl.
    destruct (decide (w' = w)) as [->|Hne].
    + rewrite lookup_insert_eq. split; [|intros (ph & [= _ <-] & Hov); by destruct (Hov r)]. case_decide; [rewrite list_elem_of_filter; naive_solver|].
      intros (ph & Hw & _)%H2. congruence.
    + rewrite lookup_insert_ne by done. rewrite <- (H2 ty' w'). case_decide; [subst; rewrite list_elem_of_filter; naive_solver|done].
  - intros w' ty' Hw'. rewrite Hw1 in Hw'. simpl in Hw'. rewrite Ha. destruct (decide (w' = w)) as [->|Hne]; [by rewrite lookup_insert_eq in Hw'|].
    rewrite lookup_insert_ne in Hw' by done. by eapply H3.
  - intros w' ty' ph e Hw' Hx. rewrite Hw1 in Hw'. simpl in Hw'. rewrite Ha. destruct (decide (w' = w)) as [->|Hne].
    + rewrite lookup_insert_eq in Hw'. injection Hw' as <- <-. apply (H4 w ty (Ready r) e E). destruct Hx as [[= ]|[= ->]]. by left.
    + rewrite lookup_insert_ne in Hw' by done. by eapply H4.
Qed.

(** What was heard was said to a wait that had been started, and waits are never forgotten. *)
Definition known (s : bus) : Prop := forall w e, (Waiter w, e) ∈ heard s -> is_Some (waits s !! w).

Lemma known_more s s' : known s -> (forall w, is_Some (waits s !! w) -> is_Some (waits s' !! w)) ->
  (forall w e, (Waiter w, e) ∈ heard s' -> (Waiter w, e) ∈ heard s \/ is_Some (waits s' !! w)) -> known s'.
Proof. intros Hs Hw Hh w e Hin. destruct (Hh w e Hin) as [H|H]; [apply Hw; by eapply Hs|done]. Qed.

Lemma waits_started w x s : waits s !! w = Some x -> forall y w', is_Some (waits s !! w') -> is_Some (waits (set_wait w y s) !! w').
Proof. intros Hw y w' Hs. simpl. destruct (decide (w' = w)) as [->|Hne]; [by rewrite lookup_insert_eq|by rewrite lookup_insert_ne]. Qed.

Lemma call_known l e s : known s -> (forall w, l = Waiter w -> is_Some (waits s !! w)) ->
  known (call_listener l e s).1 ∧ forall w, is_Some (waits s !! w) -> is_Some (waits (call_listener l e s).1 !! w).
Proof.
  intros Hs Hl. destruct l as [n|w]; cbn [call_listener].
  - destruct (react n e) as [ops c]. cbn [fst]. assert (Hops : waits (foldl operate (hear (Handler n) e s) ops) = waits s ∧
      heard (foldl operate (hear (Handler n) e s) ops) = heard s ++ [(Handler n, e)]).
    { change (waits s) with (waits (hear (Handler n) e s)). change (heard s ++ _) with (heard (hear (Handler n) e s)). generalize (hear (Handler n) e s).
      induction ops as [|o ops IH]; intros s'; [done|]. cbn. destruct (IH (operate s' o)) as [-> ->]. destruct o; [done|]. cbn. unfold unsubscribe.
      by destruct (dget _ _). }
    destruct Hops as [Hw Hh]. split; [|by rewrite Hw]. apply (known_more s); [done|by rewrite Hw|].
    intros w e'. rewrite Hh, elem_of_app. intros [?|?%list_elem_of_singleton]; [by left|done].
  - specialize (Hl w eq_refl). assert (Hh : known (hear (Waiter w) e s)).
    { apply (known_more s); [done|done|]. intros w' e' [?|[= -> _]%list_elem_of_singleton]%elem_of_app; [by left|by right]. }
    unfold listen. destruct (check w e) as [[|]|x]; cbn [fst]; try done.
    change (waits (hear (Waiter w) e s)) with (waits s). destruct (waits s !! w) as [[ty [| |]]|] eqn:E; try done.
    pose proof (waits_started w _ (hear (Waiter w) e s) E {| w_type := ty; w_phase := Ready (Ok e) |}) as Hmore.
    split; [|exact Hmore]. apply (known_more (hear (Waiter w) e s)); [done|exact Hmore|by left].
Qed.

Lemma call_all_known ls e s : known s -> (forall w, Waiter w ∈ ls -> is_Some (waits s !! w)) -> known (call_all ls e s).1.
Proof.
  revert s. induction ls as [|l ls IH]; intros s Hs Hl; [done|]. cbn [call_all].
  destruct (call_known l e s Hs) as [Hc Hw]; [intros w ->; apply Hl; left|].
  destruct (call_listener l e s) as [s1 c]. cbn [fst] in *.
  assert (Hn : known (call_all ls e s1).1) by (apply IH; [done|]; intros w Hw'; apply Hw, Hl; by right).
  destruct c as [| |x]; [done| |by destruct (is_Exception x)]. by destruct (call_all ls e s1) as [s2 [fs|x]].
Qed.

Lemma interrupt_known w x s : known s -> known (interrupt w x s).
Proof.
  intros Hk. unfold interrupt. destruct (waits s !! w) as [[ty [|[e|y]|]]|] eqn:E; try done; [|destruct late; [|done]];
    (apply (known_more s); [done|by apply (waits_started w _ s E)|by left]).
Qed.

Lemma bus_step_ok s h : bus_ok s ∧ known s -> bus_ok (bus_step s h) ∧ known (bus_step s h).
Proof.
  intros [Hs Hk]. destruct h as [o|p e|p n|w ty|w|w|w]; cbn [bus_step].
  - split; [by apply operate_ok|]. apply (known_more s); [done|by rewrite (proj2 (operate_ok s o Hs))|]. intros w e Hin. left. revert Hin.
    destruct o; [done|]. cbn. unfold unsubscribe. by destruct (dget _ _).
  - split; [by apply publish_ok|]. unfold publish. assert (H : known (call_all (listening (type e) s) e s).1).
    { apply call_all_known; [done|]. intros w (ph & Hw & _)%(ok_waiters _ Hs). by rewrite Hw. }
    by destruct (call_all _ e s) as [s1 [fs|x]].
  - destruct (awaited s !! p); [|done]. split; [|done]. by apply (ok_same s); try apply Hs.
  - split; [apply wait_for_ok; [done|]; intros e E Hin; apply Hk in Hin as [x Hx]; congruence|].
    unfold wait_for. destruct (waits s !! w) eqn:E; [done|]. apply (known_more s); [done| |by left].
    intros w' [x Hx]. simpl. rewrite lookup_insert_ne by congruence. by eexists.
  - split; [by apply interrupt_ok|]. by apply interrupt_known.
  - split; [by apply interrupt_ok|]. by apply interrupt_known.
  - split; [by apply resume_ok|]. unfold resume. destruct (waits s !! w) as [[ty [|r|]]|] eqn:E; try done.
    set (s1 := set_wait w _ s). assert (Hw1 : waits (unsubscribe ty (Waiter w) s1) = waits s1 ∧ heard (unsubscribe ty (Waiter w) s1) = heard s)
      by (unfold unsubscribe; by destruct (dget _ _)).
    destruct Hw1 as [Hw1 Hh1]. apply (known_more s); [done| |intros w' e'; rewrite Hh1; by left]. rewrite Hw1. by apply (waits_started w _ s E).
Qed.

Lemma new_bus_ok : bus_ok new_bus ∧ known new_bus.
Proof.
  split; [split|].
  - intros ty. apply NoDup_nil_2.
  - intros ty w. split; [by intros ?%elem_of_nil|by intros (ph & ? & _)].
  - done.
  - done.
  - by intros w e ?%elem_of_nil.
Qed.

(** C39: in every interleaving a wait is subscribed, once and to its type, exactly
    until its call has ended; it has missed nothing it accepts while it is pending,
    and what it gives is the first event it has accepted; and a publication calls
    everybody subscribed to its type at that moment, once, whatever exceptions they
    raise. *)
Theorem event_delivery (l : list happening) :
  let s := run bus_step new_bus l in
  (forall ty, NoDup (listening ty s)) ∧
  (forall w ty, Waiter w ∈ listening ty s <-> waiting_for s w ty) ∧
  (forall w x, waits s !! w = Some x ->
     match w_phase x with
     | Pending => accepted w s = []
     | Ready (Ok e) | Over (Ok e) => head (accepted w s) = Some e ∧ type e = w_type x
     | _ => True
     end) ∧
  (forall p e, (forall l s' x, (call_listener l e s').2 = Raises x -> is_Exception x = true) ->
     heard (publish p e s) = heard s ++ ((fun l => (l, e)) <$> listening (type e) s)).
Proof.
  intros s. assert (Hs : bus_ok s ∧ known s) by (apply run_invariant; [apply new_bus_ok|]; intros; by apply bus_step_ok).
  destruct Hs as [Hs _]. split; [apply Hs|]. split; [intros w ty; apply (ok_waiters _ Hs)|]. split.
  - intros w [ty ph] Hw. cbn. destruct ph as [|[e|]|[e|]]; try done; [by apply (ok_pending _ Hs w ty)|eapply (ok_got _ Hs); eauto..].
  - intros p e Hx. destruct (call_all_hears (listening (type e) s) e s) as [Hh Hok].
    { intros l' s'. specialize (Hx l' s'). destruct (call_listener l' e s').2 as [| |x]; try done. by rewrite (Hx x). }
    unfold publish. destruct (call_all _ e s) as [s1 [fs|x]]; [exact Hh|done].
Qed.
End bus.

(** ** Examples *)

Module Examples.
#[local] Open Scope string_scope.

Definition start : event := {| type := "workflow_start"; content := VNone |}.
Definition other : event := {| type := "specs"; content := VInt 1 |}.
(** Handler 1 leaves when it is called, handler 2 raises, handler 3 is a coroutine. *)
Definition react (n : nat) (e : event) : list operation * called :=
  match n with
  | 1%nat => ([Unsubscribes (type e) 1], Returns)
  | 2%nat => ([], Raises (RuntimeError "broken"))
  | _ => ([], IsCoroutine)
  end.
Abbreviation go := (run (bus_step react (fun w e => if decide (w = 9%nat) then Raise KeyError else Ok true) false) new_bus).

Example delivered :
  let s := go [Operate (Subscribes "specs" 1); Operate (Subscribes "specs" 2); Operate (Subscribes "specs" 3); Publish 0 other; Publish 1 other] in
  heard s = [(Handler 1, other); (Handler 2, other); (Handler 3, other); (Handler 2, other); (Handler 3, other)] ∧
  awaited s !! 1%nat = Some [3%nat].
Proof. by vm_compute. Qed.

(** The first event counts, and the listener is gone afterwards. *)
Example waited :
  let s := go [WaitFor 5 "workflow_start"; Publish 0 other; Publish 1 start; Publish 2 start; Resume 5; Timeout 5] in
  waits s !! 5%nat = Some {| w_type := "workflow_start"; w_phase := Over (Ok start) |} ∧ listening "workflow_start" s = [].
Proof. by vm_compute. Qed.

(** A check that raises is no answer: the wait goes on until its timeout. *)
Example check_raises :
  let s := go [WaitFor 9 "workflow_start"; Publish 0 start] in
  waits s !! 9%nat = Some {| w_type := "workflow_start"; w_phase := Pending |} ∧
  waits (go [WaitFor 9 "workflow_start"; Publish 0 start; Timeout 9; Resume 9]) !! 9%nat =
    Some {| w_type := "workflow_start"; w_phase := Over (Raise TimeoutError) |}.
Proof. by vm_compute. Qed.

(** An event published before anybody waits for it is lost. *)
Example too_early : waits (go [Publish 0 start; WaitFor 5 "workflow_start"]) !! 5%nat = Some {| w_type := "workflow_start"; w_phase := Pending |}.
Proof. by vm_compute. Qed.

Lemma event_delivery_witness : exists s, listening "specs" s = [Handler 2; Handler 3] ∧
  heard (publish react (fun _ _ => Ok true) 1 other s) = (heard s ++ [(Handler 2, other); (Handler 3, other)])%list.
Proof.
  set (l := [Operate (Subscribes "specs" 2); Operate (Subscribes "specs" 3)]).
  exists (run (bus_step react (fun _ _ => Ok true) false) new_bus l). split; [reflexivity|].
  refine (proj2 (proj2 (proj2 (event_delivery react (fun _ _ => Ok true) false l))) 1%nat other _).
  intros [[|[|[|n]]]|w] s' x; simpl; try discriminate. intros [= <-]. reflexivity.
Defined.
End Examples.
