(* ===== verification/Clients.v ===== *)
(** * Clients of the models

    Models eval/client/openai.py, anthropic.py, dummy.py and _create.py: what a
    query sends, what it does with the answer, and the fallback from the
    responses API to chat completions.  The vendors' libraries are a class of
    operations on a world; a response is the attributes the code reads. *)

From S2P Require Import Prelude PyVal EvalUtils Convert DataUrl Images.

(** ** The vendors' libraries *)

(** What a query sends; the effort of reasoning, or of thinking its budget. *)
Record request := {
  rq_messages : list val;
  rq_system : list val;
  rq_max_tokens : option Z;
  rq_model : string;
  rq_parallel : option bool;
  rq_cache_key : option string;
  rq_effort : option string;
  rq_thinking : option Z;
  rq_temperature : option Q;
  rq_tools : list val
}.

(** A response: its attributes, [usage] among them as [rs_usage] when it is
    there and true, and its output, a choice or the message itself. *)
Record response (Obj : Type) := {
  rs_attributes : attributes;
  rs_usage : option attributes;
  rs_output : Obj
}.
Arguments rs_attributes {Obj} _.
Arguments rs_usage {Obj} _.
Arguments rs_output {Obj} _.

(** A choice of a chat completion. *)
Record choice (Obj : Type) := { ch_message : Obj; ch_refusal : option string; ch_finish_reason : string }.
Arguments ch_message {Obj} _.
Arguments ch_refusal {Obj} _.
Arguments ch_finish_reason {Obj} _.

(** The operations on the world [W]; the parts of the content of an output, each
    its type and its refusal, when it has a content that can be iterated; the
    reason an Anthropic message stopped for. *)
Class Api (W Obj : Type) := {
  list_models : M W (list string);
  create_response : request -> M W (response (list Obj));
  create_chat : request -> M W (response (list (choice Obj)));
  create_message : request -> M W (response Obj);
  obj_parts : Obj -> list (string * string);
  stop_reason : Obj -> string
}.

(** ** Clients *)

(** A list of records, or of plain values. *)
Inductive messages (Obj : Type) : Type :=
| Records (l : list (MessageRecord Obj))
| Plain (l : list val).
Arguments Records {Obj} _.
Arguments Plain {Obj} _.

(* eval/client/openai.py:23-40 OpenAIOptions *)
Record options := {
  o_model : option string;
  o_base_url : option string;
  o_thinking : bool;
  o_computer_use : bool;
  o_temperature : option Q;
  o_parallel_tool_calls : option bool;
  o_max_thinking_tokens : Z;
  o_max_output_tokens : option Z;
  o_max_images : option Z;
  o_image_size : option string;
  o_chat_completions : bool
}.

Section clients.
Context {W Obj Img : Type} `{Json} `{Models Obj} `{Pil Img} `{Api W Obj}.

(** [model], whether the library's client was made, [_use_responses], the token
    counter, and the world. *)
(* eval/client/openai.py:66-67 OpenAIClient.__init__ *)
Record client := {
  model : option string;
  connected : bool;
  use_responses : bool;
  counter : option TokenCounter;
  world : W
}.

(* eval/client/openai.py:45-67 OpenAIClient.__init__ *)
Definition new_client (o : options) (c : option TokenCounter) (w : W) : client :=
  {| model := o_model o; connected := false; use_responses := negb (o_chat_completions o);
     counter := c; world := w |}.

Definition set_model (m : option string) (c : client) : client :=
  {| model := m; connected := connected c; use_responses := use_responses c; counter := counter c;
     world := world c |}.
Definition set_connected (b : bool) (c : client) : client :=
  {| model := model c; connected := b; use_responses := use_responses c; counter := counter c;
     world := world c |}.
Definition set_use_responses (b : bool) (c : client) : client :=
  {| model := model c; connected := connected c; use_responses := b; counter := counter c;
     world := world c |}.
Definition set_counter (t : option TokenCounter) (c : client) : client :=
  {| model := model c; connected := connected c; use_responses := use_responses c; counter := t;
     world := world c |}.
Definition set_world (w : W) (c : client) : client :=
  {| model := model c; connected := connected c; use_responses := use_responses c;
     counter := counter c; world := w |}.

(** An operation of the library. *)
Definition on_world {A} (m : M W A) : M client A := fun c =>
  let '(w, r) := m (world c) in (set_world w c, r).

(* eval/client/openai.py:69-85 OpenAIClient._get_client *)
Definition get_client : M client unit := modify (set_connected true).
(* eval/client/openai.py:220-223 OpenAIClient.close *)
Definition close : M client unit := modify (set_connected false).

(* eval/client/openai.py:87-100 OpenAIClient.get_model_name *)
Definition openai_model_name (o : options) : M client string :=
  m ← gets model;
  match m with
  | Some m => mret m
  | None =>
      match o_base_url o with
      | None => raise ValueError
      | Some _ =>
          get_client;;
          l ← on_world list_models;
          match l with
          | m :: _ => modify (set_model (Some m));; mret m
          | [] => raise ValueError
          end
      end
  end.

(** The effort of [Reasoning]. *)
(* eval/client/openai.py:110-123 OpenAIClient._reasoning_params *)
Definition reasoning_params (o : options) : M client (option string) :=
  m ← openai_model_name o;
  let m := normalize_model_name m None in
  if contains "thinking" m || starts_with "o" m || starts_with "gpt-5" m then
    if starts_with "gpt-5.1" m && negb (o_thinking o) then mret None
    else mret (Some (if starts_with "gpt-5-pro" m then "high"%string else "medium"%string))
  else mret None.

(** [MessageRecord.convert_all]: a plain value has no method to convert it. *)
(* eval/client/openai.py:133-133 OpenAIClient._query_responses *)
Definition convert_messages (m : messages Obj) (to : string) (ignore_errors : bool) : res (list val) :=
  match m with
  | Records l => convert_all l to true ignore_errors
  | Plain [] => Ok []
  | Plain _ => Raise AttributeError
  end.

(** [FunctionDefinition.convert_all], where no conversion gives a list. *)
Definition convert_tools (f : FunctionDefinition -> res val) (tools : list FunctionDefinition)
    : res (list val) := map_r f tools.

(* eval/client/openai.py:135-139 OpenAIClient._query_responses *)
Definition filter_messages (o : options) (l : list val) : res (list val) :=
  l ← match o_max_images o with Some n => trim_images l n | None => Ok l end;
  match o_image_size o with Some s => resize_images (Img := Img) l s | None => Ok l end.

(** [token_counter.add_from_usage(response.usage)] *)
(* eval/client/openai.py:160-161 OpenAIClient._query_responses *)
Definition count_usage (usage : option attributes) : M client unit := fun c =>
  match counter c, usage with
  | Some t, Some u =>
      let '(t, r) := add_from_usage u t in (set_counter (Some t) c, r)
  | _, _ => (c, Ok tt)
  end.

(* eval/client/openai.py:163-166 OpenAIClient._query_responses *)
Definition check_errors (a : attributes) : M client unit :=
  if existsb (fun k => truthy (dget_or k VNone a)) ["error"; "message"; "error_message"]%string
  then raise (RuntimeError "API error") else mret tt.

(* eval/client/openai.py:143-154 OpenAIClient._query_responses *)
Definition openai_request (o : options) (m : string) (messages tools : list val) (has_tools : bool)
    (cache_key effort : option string) : request :=
  {| rq_messages := messages; rq_system := []; rq_max_tokens := o_max_output_tokens o; rq_model := m;
     rq_parallel := if has_tools then o_parallel_tool_calls o else None;
     rq_cache_key := cache_key; rq_effort := effort; rq_thinking := None;
     rq_temperature := match effort with Some _ => None | None => o_temperature o end;
     rq_tools := tools |}.

(* eval/client/openai.py:176-218 OpenAIClient._query_chat_completions *)
Definition query_chat_completions (o : options) (ms : messages Obj) (tools : list FunctionDefinition)
    (cache_key : option string) : M client (list (MessageRecord Obj)) :=
  get_client;;
  m ← openai_model_name o;
  effort ← reasoning_params o;
  l ← lift_res (convert_messages ms "openai_chat_completion_input" false);
  l ← lift_res (filter_messages o l);
  ts ← lift_res (convert_tools to_openai_chat_completion tools);
  r ← on_world (create_chat (openai_request o m l ts (negb (bool_decide (length tools = 0%nat))) cache_key effort));
  count_usage (rs_usage r);;
  check_errors (rs_attributes r);;
  match rs_output r with
  | [] => raise IndexError
  | c :: _ =>
      match ch_refusal c with
      | Some s => raise (RuntimeError s)
      | None =>
          if bool_decide (ch_finish_reason c = "content_filter")
          then raise (RuntimeError "Content filter triggered")
          else mret [ChatOutput [ch_message c]]
      end
  end.

(** [BadRequestError] and [InternalServerError] *)
Definition falls_back (e : exn) : bool :=
  match e with APIStatusError n => bool_decide (n = 400 ∨ 500 <= n) | _ => false end.

(** The first refusal in the output. *)
(* eval/client/openai.py:168-172 OpenAIClient._query_responses *)
Definition first_refusal (l : list Obj) : option string :=
  (fun p => p.2.2) <$> list_find (fun p => p.1 = "refusal"%string) (l ≫= obj_parts).

(** The fallback passes on what was converted already. *)
(* eval/client/openai.py:125-174 OpenAIClient._query_responses *)
Definition query_responses (o : options) (ms : messages Obj) (tools : list FunctionDefinition)
    (cache_key : option string) : M client (list (MessageRecord Obj)) :=
  get_client;;
  m ← openai_model_name o;
  effort ← reasoning_params o;
  l ← lift_res (convert_messages ms "openai_response_input" false);
  l ← lift_res (filter_messages o l);
  answer ← try_except
    (ts ← lift_res (convert_tools to_openai_response tools);
     r ← on_world (create_response
           (openai_request o m l ts (negb (bool_decide (length tools = 0%nat))) cache_key effort));
     mret (inl r))
    (fun e => if falls_back e then
                Some (modify (set_use_responses false);;
                      x ← query_chat_completions o (Plain l) tools None; mret (inr x))
              else None);
  match answer with
  | inr x => mret x
  | inl r =>
      count_usage (rs_usage r);;
      check_errors (rs_attributes r);;
      match first_refusal (rs_output r) with
      | Some s => raise (RuntimeError s)
      | None => mret [ResponseOutput (rs_output r)]
      end
  end.

(* eval/client/openai.py:102-108 OpenAIClient.query *)
Definition openai_query (o : options) (ms : messages Obj) (tools : list FunctionDefinition)
    (cache_key : option string) : M client (list (MessageRecord Obj)) :=
  u ← gets use_responses;
  if (u : bool) then query_responses o ms tools cache_key else query_chat_completions o ms tools cache_key.

(** ** Anthropic *)

Definition ephemeral : val := VDict [("type", VStr "ephemeral")].

(** [l[-1]['cache_control'] = ...] of a list that is not empty. *)
Definition cache_last (l : list val) : res (list val) :=
  match last l with
  | None => Ok l
  | Some (VDict d) => Ok (take (length l - 1) l ++ [VDict (dset "cache_control" ephemeral d)])
  | Some _ => Raise TypeError
  end.
(* eval/client/anthropic.py:181-183 AnthropicClient.query *)
Definition cache_assistant (message : val) : res val :=
  match message with
  | VDict d => Ok (if is_str "assistant" (dget_or "role" VNone d)
                   then VDict (dset "cache_control" ephemeral d) else message)
  | _ => Raise AttributeError
  end.

(* eval/client/anthropic.py:163-167 AnthropicClient.get_model_name *)
Definition anthropic_model_name : M client string :=
  m ← gets model; match m with Some m => mret m | None => raise ValueError end.

(** The three lists a query sends. *)
(* eval/client/anthropic.py:176-186 AnthropicClient.query *)
Definition anthropic_lists (l : list (MessageRecord Obj)) (tools : list FunctionDefinition)
    : res (list val * list val * list val) :=
  system ← convert_all l "anthropic_message_system" true true;
  system ← cache_last system;
  messages ← convert_all l "anthropic_message_input" true true;
  messages ← map_r cache_assistant messages;
  ts ← convert_tools to_anthropic_message tools;
  ts ← cache_last ts;
  Ok (system, messages, ts).

(* eval/client/anthropic.py:169-227 AnthropicClient.query *)
Definition anthropic_query (o : options) (l : list (MessageRecord Obj)) (tools : list FunctionDefinition)
    : M client (list (MessageRecord Obj)) :=
  get_client;;
  m ← anthropic_model_name;
  '(system, messages, ts) ← lift_res (anthropic_lists l tools);
  messages ← lift_res (filter_messages o messages);
  r ← on_world (create_message
    (* [tool_choice] disables parallel calls unless they are allowed *)
    {| rq_messages := messages; rq_system := system; rq_max_tokens := o_max_output_tokens o; rq_model := m;
       rq_parallel := match ts with [] => None
                      | _ => Some (bool_decide (o_parallel_tool_calls o = Some true)) end;
       rq_cache_key := None; rq_effort := None;
       rq_thinking := if o_thinking o then Some (o_max_thinking_tokens o) else None;
       rq_temperature := if o_thinking o then Some 1%Q else o_temperature o; rq_tools := ts |});
  count_usage (rs_usage r);;
  check_errors (rs_attributes r);;
  if bool_decide (stop_reason (rs_output r) = "refusal") then raise (RuntimeError "Content filter triggered")
  else mret [AnthropicOutput (rs_output r)].

(* eval/client/anthropic.py:117-127 AnthropicClient.betas *)
Definition betas (o : options) : list string :=
  (if o_thinking o then ["interleaved-thinking-2025-05-14"%string] else []) ++
  (if o_computer_use o then ["computer-use-2025-01-24"%string] else []).

(** ** The dummy client, and the choice of a client *)

(* eval/client/dummy.py:37-49 DummyClient.query *)
Definition dummy_query : list (MessageRecord Obj) :=
  [ChatInput [VDict [("role", VStr "assistant"); ("content", VStr "Are you done?")]]].

Inductive provider : Type := OpenAI | Anthropic | Dummy.

(* eval/client/_create.py:23-36 create_client *)
Definition provider_of (name : string) : res provider :=
  if bool_decide (name = "openai") then Ok OpenAI
  else if bool_decide (name ∈ ["anthropic"; "bedrock"]) then Ok Anthropic
  else if bool_decide (name = "dummy") then Ok Dummy
  else Raise ValueError.

(** The first request of every client. *)
(* eval/client/_create.py:47-60 create_client *)
Definition sanity_check : list (MessageRecord Obj) :=
  [ChatInput [VDict [("role", VStr "system"); ("content", VStr "You are a helpful assistant.")]];
   ChatInput [VDict [("role", VStr "user"); ("content", VStr "Say hi.")]]].

(* eval/client/_create.py:20-62 create_client *)
Definition create_client (name : string) (o : options) (t : option TokenCounter) (w : W) : client * res provider :=
  let c := new_client o t w in
  match provider_of name with
  | Raise e => (c, Raise e)
  | Ok p =>
      (match p with
       | OpenAI => openai_model_name o;; openai_query o (Records sanity_check) [] None;; mret p
       | Anthropic => anthropic_model_name;; anthropic_query o sanity_check [];; mret p
       | Dummy => mret p
       end) c
  end.

(** ** The fallback *)

(** Of a client that knows its model. *)
Lemma run_model_name o c m : model c = Some m -> openai_model_name o c = (c, Ok m).
Proof. intros Hm. unfold openai_model_name, gets, mbind, M_bind. by rewrite Hm. Qed.

Definition effort_of (o : options) (m : string) : option string :=
  let m := normalize_model_name m None in
  if contains "thinking" m || starts_with "o" m || starts_with "gpt-5" m then
    if starts_with "gpt-5.1" m && negb (o_thinking o) then None
    else Some (if starts_with "gpt-5-pro" m then "high"%string else "medium"%string)
  else None.

Lemma run_reasoning o c m : model c = Some m -> reasoning_params o c = (c, Ok (effort_of o m)).
Proof.
  intros Hm. unfold reasoning_params. rewrite (M_bind_run _ _ _ _ _ (run_model_name o c m Hm)).
  unfold effort_of. by repeat case_match.
Qed.

(** Chat completions of plain values. *)
Lemma chat_of_plain o c m l tools key : model c = Some m -> l ≠ [] ->
  query_chat_completions o (Plain l) tools key c = (set_connected true c, Raise AttributeError).
Proof.
  intros Hm Hl. unfold query_chat_completions, get_client. rewrite bind_modify.
  assert (Hm' : model (set_connected true c) = Some m) by done.
  rewrite (M_bind_run _ _ _ _ _ (run_model_name o _ m Hm')).
  rewrite (M_bind_run _ _ _ _ _ (run_reasoning o _ m Hm')). by destruct l.
Qed.

(** C30: when the responses API refuses a request, the fallback to chat completions
    never asks for one: it converts messages that were converted already and raises
    AttributeError, with the responses API switched off for the queries to come. *)
Theorem fallback_raises o c m ms l0 l ts tools key w' e :
  use_responses c = true -> model c = Some m ->
  convert_all ms "openai_response_input" true false = Ok l0 -> filter_messages o l0 = Ok l -> l ≠ [] ->
  convert_tools to_openai_response tools = Ok ts ->
  create_response (openai_request o m l ts (negb (bool_decide (length tools = 0%nat))) key (effort_of o m))
    (world c) = (w', Raise e) ->
  falls_back e = true ->
  exists c', openai_query o (Records ms) tools key c = (c', Raise AttributeError) ∧
    use_responses c' = false ∧ world c' = w'.
Proof.
  intros Hu Hm Hc Hf Hl Ht Hr He. unfold openai_query.
  assert (Hg : gets use_responses c = (c, Ok true)) by (unfold gets; by rewrite Hu).
  rewrite (M_bind_run _ _ _ _ _ Hg). unfold query_responses, get_client. rewrite bind_modify.
  assert (Hm' : model (set_connected true c) = Some m) by done.
  rewrite (M_bind_run _ _ _ _ _ (run_model_name o _ m Hm')).
  rewrite (M_bind_run _ _ _ _ _ (run_reasoning o _ m Hm')).
  cbn [convert_messages]. rewrite bind_lift, Hc, bind_lift, Hf.
  set (c1 := set_world w' (set_connected true c)).
  assert (Hon : on_world (create_response
      (openai_request o m l ts (negb (bool_decide (length tools = 0%nat))) key (effort_of o m)))
      (set_connected true c) = (c1, Raise e)).
  { unfold on_world. cbn [world set_connected]. by rewrite Hr. }
  exists (set_connected true (set_use_responses false c1)). split; [|done].
  apply M_bind_raise. unfold try_except. rewrite bind_lift, Ht.
  rewrite (M_bind_raise _ _ _ _ _ Hon), He. rewrite bind_modify.
  apply M_bind_raise. by apply (chat_of_plain o (set_use_responses false c1) m).
Qed.

(** ** Histories of several models *)

(** A record an Anthropic client passes over or uses for its system prompt. *)
Definition passes (r : MessageRecord Obj) : Prop :=
  match convert r AnthropicMessageSystem with Ok _ | Raise ConversionError => True | Raise _ => False end.

Lemma convert_all_stops l1 out l2 :
  Forall passes l1 ->
  convert_all (l1 ++ ResponseOutput out :: l2) "anthropic_message_system" true true =
    Raise NotImplementedError.
Proof.
  induction 1 as [|r l1 Hr _ IH]; cbn [app]; rewrite convert_all_cons.
  - done.
  - unfold run_method. change (method_of "anthropic_message_system") with (Ok AnthropicMessageSystem).
    unfold mbind, res_bind. unfold passes in Hr. rewrite IH.
    destruct (convert r AnthropicMessageSystem) as [v|e]; [done|]. by destruct e.
Qed.

(** The Anthropic client refuses a history with a record of the responses API,
    whatever stands before and behind it. *)
Theorem anthropic_rejects_responses o l1 out l2 tools c m :
  model c = Some m -> Forall passes l1 ->
  anthropic_query o (l1 ++ ResponseOutput out :: l2) tools c =
    (set_connected true c, Raise NotImplementedError).
Proof.
  intros Hm Hl. unfold anthropic_query, get_client. rewrite bind_modify.
  assert (Hn : anthropic_model_name (set_connected true c) = (set_connected true c, Ok m)).
  { unfold anthropic_model_name, gets, mbind, M_bind. simpl. by rewrite Hm. }
  rewrite (M_bind_run _ _ _ _ _ Hn), bind_lift. unfold anthropic_lists.
  by rewrite convert_all_stops.
Qed.
End clients.

(** ** Examples *)
Module Examples.
(** Objects are values; every image fails to open; the world is the list of
    requests, and the responses API answers none of them. *)
#[local] Instance json : Json := {|
  loads := fun s => if bool_decide (s = "{}") then Ok (VDict []) else Raise ValueError;
  dumps := fun v => match v with VDict [] => Ok "{}" | _ => Raise TypeError end;
  str_of := fun v => match v with VStr s => s | _ => "" end
|}.
#[local] Instance models : Models val := {|
  model_dump := fun v => v; obj_content := fun v => [v]; obj_role := fun _ => VStr "assistant"
|}.
#[local] Instance pil : Pil unit := {|
  image_open := fun _ => None; img_size := fun _ => (1, 1); img_format := fun _ => None;
  img_mode := fun _ => "RGB"; img_resize := fun _ _ => None; img_convert_rgb := fun _ => None;
  img_save := fun _ _ _ => None
|}.
#[local] Instance api : Api (list request) val := {|
  list_models := fun w => (w, Ok []);
  create_response := fun r w => (r :: w, Raise (APIStatusError 400));
  create_chat := fun r w => (r :: w, Ok {| rs_attributes := []; rs_usage := None;
    rs_output := [{| ch_message := VStr "hi"; ch_refusal := None; ch_finish_reason := "stop" |}] |});
  create_message := fun r w => (r :: w, Ok {| rs_attributes := []; rs_usage := None; rs_output := VStr "hi" |});
  obj_parts := fun _ => [];
  stop_reason := fun _ => "end_turn"
|}.
Definition openai : options :=
  {| o_model := Some "gpt-4o"%string; o_base_url := None; o_thinking := true; o_computer_use := false;
     o_temperature := Some 1%Q; o_parallel_tool_calls := Some true; o_max_thinking_tokens := 1024;
     o_max_output_tokens := Some 1024; o_max_images := None; o_image_size := None;
     o_chat_completions := false |}.

(** The client cannot be created over a service without the responses API, but a
    second query of it would do. *)
Example create_fails :
  let '(c, r) := create_client (Obj := val) (Img := unit) "openai" openai None [] in
  r = Raise AttributeError ∧ length (world c) = 1%nat ∧
  (openai_query (Img := unit) openai (Records sanity_check) [] None c).2
    = Ok [ChatOutput [VStr "hi"]].
Proof. by vm_compute. Qed.

Lemma fallback_raises_witness :
  exists c', openai_query (Img := unit) openai (Records (Obj := val) sanity_check) [] None
      (new_client openai None []) = (c', Raise AttributeError) ∧
    use_responses c' = false ∧ length (world c') = 1%nat.
Proof.
  destruct (fallback_raises (Img := unit) openai (new_client openai None []) "gpt-4o"
    (sanity_check (Obj := val))
    [VDict [("content", VList [VDict [("type", VStr "input_text"); ("text", VStr "You are a helpful assistant.")]]);
            ("role", VStr "system"); ("type", VStr "message")];
     VDict [("content", VList [VDict [("type", VStr "input_text"); ("text", VStr "Say hi.")]]);
            ("role", VStr "user"); ("type", VStr "message")]]
    [VDict [("content", VList [VDict [("type", VStr "input_text"); ("text", VStr "You are a helpful assistant.")]]);
            ("role", VStr "system"); ("type", VStr "message")];
     VDict [("content", VList [VDict [("type", VStr "input_text"); ("text", VStr "Say hi.")]]);
            ("role", VStr "user"); ("type", VStr "message")]]
    [] [] None _ (APIStatusError 400)
    eq_refl eq_refl ltac:(by vm_compute) ltac:(by vm_compute) ltac:(done) eq_refl ltac:(reflexivity) eq_refl)
    as (c' & H1 & H2 & H3).
  exists c'. split; [exact H1|]. split; [exact H2|]. by rewrite H3.
Defined.

Lemma anthropic_rejects_responses_witness :
  (anthropic_query (Img := unit) openai (sanity_check ++ [ResponseOutput [VStr "hi"]]) []
     (new_client openai None [])).2 = Raise NotImplementedError ∧
  (anthropic_query (Img := unit) openai sanity_check [] (new_client openai None [])).2
    = Ok [AnthropicOutput (VStr "hi")].
Proof.
  split; [|by vm_compute].
  rewrite (anthropic_rejects_responses (Img := unit) openai sanity_check [VStr "hi"] [] []
    (new_client openai None []) "gpt-4o" eq_refl); [done|].
  apply Forall_cons. split; [by vm_compute|]. apply Forall_cons. split; [by vm_compute|]. by apply Forall_nil.
Defined.

(** A message with an image of another type is left out of what is sent. *)
Example dropped_image :
  let image := VDict [("type", VStr "image_url");
                      ("image_url", VDict [("url", VStr "data:image/bmp;base64,AAAA")])] in
  anthropic_lists [ChatInput [VDict [("role", VStr "user"); ("content", VList [image])]]] [] = Ok ([], [], []).
Proof. by vm_compute. Qed.
End Examples.
