(* ===== verification/Grpc.v ===== *)
(** * The gRPC transport of the worker

    Models worker/task_worker_grpc.py: the routing of requests to the methods of
    the worker, the queue of messages, and the loop that writes them to a stream
    that may break and be opened again.  A method's outcome is an argument of the
    event in which it ends; the stream itself is the list of what was written. *)

From S2P Require Import Prelude PyVal.

(** ** Requests and responses *)

(** [json] is [None] when it is empty, and what decoding it gives otherwise;
    encoded values are strings of bytes. *)
Record request := { rq_id : string; rq_endpoint : string; rq_json : option (res val) }.

(** A message that is not a request is not looked at. *)
(* worker/task_worker_grpc.py:48-51 GrpcTransport._route_message *)
Inductive incoming : Type :=
| Request (rq : request)
| OtherMessage.

Record response := {
  rs_id : string;
  rs_code : Z;
  rs_message : option string;
  rs_json : option string
}.

Inductive envelope : Type :=
| Response (r : response)
| Heartbeat (id : string) (indices : list (option Z * option string))
| CancelNotice (id : string) (session_id : Z)
| WorkerRequest (id method endpoint : string) (data : option string).

(** What a method returns: [None], a value, a [JSONResponse], an
    [HTTPException]. *)
Inductive returned : Type :=
| RNone
| RValue (v : val)
| RJson (status : Z) (body : string)
| RHttp (status : Z) (detail : string).

(** The body of a request; one that cannot be decoded is none. *)
(* worker/task_worker_grpc.py:52-59 GrpcTransport._route_message *)
Definition request_data (rq : request) : res val :=
  match rq_json rq with
  | None => Ok VNone
  | Some (Raise ValueError) => Ok VNone
  | Some r => r
  end.

Section route.
(** The methods of the worker: how many parameters one takes, and the validation
    of a dictionary by the type of its parameter; [json.dumps]. *)
Context (parameters : string -> option nat) (validate : string -> val -> res val)
  (dumps : val -> res string).

(** The argument a method is called with, [None] for a method without
    parameters. *)
(* worker/task_worker_grpc.py:74-84 GrpcTransport._route_message *)
Definition argument (rq : request) (data : val) : res (option val) :=
  match parameters (rq_endpoint rq) with
  | None => Raise AttributeError
  | Some O => Ok None
  | Some (S O) =>
      match data with
      | VDict _ => v ← validate (rq_endpoint rq) data; Ok (Some v)
      | _ => Ok (Some data)
      end
  | Some _ => Raise ValueError
  end.

(** [response_envelope]: 200, without message or body. *)
(* worker/task_worker_grpc.py:61-71 GrpcTransport._route_message *)
Definition new_response (rq : request) : response :=
  {| rs_id := rq_id rq; rs_code := 200; rs_message := None; rs_json := None |}.
Definition with_error (code : Z) (message : string) (r : response) : response :=
  {| rs_id := rs_id r; rs_code := code; rs_message := Some message; rs_json := rs_json r |}.

(** What the result of the method puts into the response. *)
(* worker/task_worker_grpc.py:86-94 GrpcTransport._route_message *)
Definition fill (result : returned) (r : response) : res response :=
  match result with
  | RHttp status detail => Raise (HTTPException status detail)
  | RJson status body =>
      Ok {| rs_id := rs_id r; rs_code := status; rs_message := rs_message r;
            rs_json := if bool_decide (body = "") then rs_json r else Some body |}
  | RValue v =>
      v ← dumps v;
      Ok {| rs_id := rs_id r; rs_code := rs_code r; rs_message := rs_message r; rs_json := Some v |}
  | RNone => Ok r
  end.

(** The response to a request whose method ended; what is not an [Exception],
    and what decoding raises besides [ValueError], leaves. *)
(* worker/task_worker_grpc.py:73-103 GrpcTransport._route_message *)
Definition respond (rq : request) (outcome : res returned) : res response :=
  data ← request_data rq;
  let r := new_response rq in
  match (_ ← argument rq data; result ← outcome; fill result r) with
  | Ok r => Ok r
  | Raise (HTTPException status detail) => Ok (with_error status detail r)
  | Raise e => if is_Exception e then Ok (with_error 500 "Internal Server Error" r) else Raise e
  end.

(* worker/task_worker_grpc.py:190-196 GrpcTransport.send_heartbeat *)
Definition task_index (i : val) : option Z * option string :=
  (match i with VInt n => Some n | VBool b => Some (if b then 1 else 0) | _ => None end, match i with VStr s => Some s | _ => None end).

(** The messages of the worker's own: [id] is a fresh one. *)
(* worker/task_worker_grpc.py:180-200 GrpcTransport.send_heartbeat *)
Definition heartbeat (id : string) (indices : list val) : envelope := Heartbeat id (task_index <$> indices).
(* worker/task_worker_grpc.py:203-214 GrpcTransport.send_cancel_notice *)
Definition cancel_notice (id : string) (session_id : Z) : envelope := CancelNotice id session_id.
(** Bytes are sent as they are; a body whose encoding raises [ValueError] is left
    out. *)
(* worker/task_worker_grpc.py:217-235 GrpcTransport.call_api *)
Definition call_api (id method endpoint : string) (data : string + val) : res envelope :=
  match data with
  | inl bytes => Ok (WorkerRequest id method endpoint (Some bytes))
  | inr VNone => Ok (WorkerRequest id method endpoint None)
  | inr v => match dumps v with
             | Ok d => Ok (WorkerRequest id method endpoint (Some d))
             | Raise ValueError => Ok (WorkerRequest id method endpoint None)
             | Raise e => Raise e
             end
  end.

(** ** The queue and the stream *)

(** The loop that sends: not running, waiting for a message, writing one, or
    ended by an exception. *)
Inductive sender : Type :=
| NotRunning
| Waiting
| Writing (m : envelope)
| SenderEnded (e : exn).

(** The queue with its number of unfinished tasks, the requests being routed,
    the loop; then what was put, what was written, what was lost, and the
    requests whose task ended without a response. *)
(* worker/task_worker_grpc.py:24-37 GrpcTransport.__init__ *)
Record transport := {
  running : bool;
  message_queue : list envelope;
  unfinished : Z;
  routing : list request;
  send_task : sender;
  was_put : list envelope;
  written : list envelope;
  lost : list envelope;
  unanswered : list request
}.

(* worker/task_worker_grpc.py:34-37 GrpcTransport.start *)
Definition start : transport :=
  {| running := true; message_queue := []; unfinished := 0; routing := []; send_task := NotRunning;
     was_put := []; written := []; lost := []; unanswered := [] |}.

Definition set_routing (l u : list request) (t : transport) : transport :=
  {| running := running t; message_queue := message_queue t; unfinished := unfinished t; routing := l;
     send_task := send_task t; was_put := was_put t; written := written t; lost := lost t; unanswered := u |}.
Definition set_sender (x : sender) (t : transport) : transport :=
  {| running := running t; message_queue := message_queue t; unfinished := unfinished t; routing := routing t;
     send_task := x; was_put := was_put t; written := written t; lost := lost t; unanswered := unanswered t |}.
Definition set_sent (w l : list envelope) (t : transport) : transport :=
  {| running := running t; message_queue := message_queue t; unfinished := unfinished t; routing := routing t;
     send_task := send_task t; was_put := was_put t; written := w; lost := l; unanswered := unanswered t |}.
Definition set_queue (p q : list envelope) (n : Z) (t : transport) : transport :=
  {| running := running t; message_queue := q; unfinished := n; routing := routing t;
     send_task := send_task t; was_put := p; written := written t; lost := lost t; unanswered := unanswered t |}.
Definition set_running (b : bool) (t : transport) : transport :=
  {| running := b; message_queue := message_queue t; unfinished := unfinished t; routing := routing t;
     send_task := send_task t; was_put := was_put t; written := written t; lost := lost t; unanswered := unanswered t |}.

(** A loop that waits takes the message when it runs again; until then it is in
    the queue. *)
(* worker/task_worker_grpc.py:45-46 GrpcTransport._put_message *)
Definition put_message (m : envelope) (t : transport) : transport :=
  set_queue (was_put t ++ [m]) (message_queue t ++ [m]) (unfinished t + 1) t.

(** [task_done()], and how the loop goes on: [e] is the exception that leaves it,
    unless [task_done] raises its own. *)
(* worker/task_worker_grpc.py:121-122 GrpcTransport._stream_send_loop *)
Definition task_done (e : option exn) (t : transport) : transport :=
  if bool_decide (unfinished t <= 0) then set_sender (SenderEnded ValueError) t
  else set_sender (match e with Some e => SenderEnded e | None => Waiting end)
         (set_queue (was_put t) (message_queue t) (unfinished t - 1) t).

(* worker/task_worker_grpc.py:113-114 GrpcTransport._stream_send_loop *)
Definition take_message (t : transport) : transport :=
  match message_queue t with
  | m :: q => set_sender (Writing m) (set_queue (was_put t) q (unfinished t) t)
  | [] => t
  end.

(** The write ends: an [Exception] is logged and its message gone. *)
(* worker/task_worker_grpc.py:115-122 GrpcTransport._stream_send_loop *)
Definition write_ended (m : envelope) (o : res unit) (t : transport) : transport :=
  match o with
  | Ok _ => task_done None (set_sent (written t ++ [m]) (lost t) t)
  | Raise e => task_done (if is_Exception e then None else Some e) (set_sent (written t) (lost t ++ [m]) t)
  end.

(** The loop is cancelled, also when it waits: then [task_done] counts down for a
    message that was never taken. *)
(* worker/task_worker_grpc.py:153-158 GrpcTransport._stream_loop *)
Definition cancel_sender (t : transport) : transport :=
  match send_task t with
  | Waiting => task_done (Some CancelledError) t
  | Writing m => write_ended m (Raise CancelledError) t
  | _ => t
  end.

Inductive event : Type :=
| Receive (m : incoming)
| MethodEnds (i : nat) (outcome : res returned)
| Put (m : envelope)
| Connect
| TakeMessage
| WriteEnds (o : res unit)
| StreamEnds
| Release.

(** The task of a request ends with its response in the queue, or with the
    exception that leaves it. *)
(* worker/task_worker_grpc.py:105-105 GrpcTransport._route_message *)
Definition method_ended (i : nat) (outcome : res returned) (t : transport) : transport :=
  match routing t !! i with
  | Some rq =>
      match respond rq outcome with
      | Ok r => put_message (Response r) (set_routing (delete i (routing t)) (unanswered t) t)
      | Raise _ => set_routing (delete i (routing t)) (unanswered t ++ [rq]) t
      end
  | None => t
  end.

(** Every request is a task of its own. *)
(* worker/task_worker_grpc.py:107-109 GrpcTransport._stream_recv_loop *)
Definition stream_recv (m : incoming) (t : transport) : transport :=
  match m with
  | Request rq => set_routing (routing t ++ [rq]) (unanswered t) t
  | OtherMessage => t
  end.

(* worker/task_worker_grpc.py:39-43 GrpcTransport.release *)
Definition release (t : transport) : transport := set_running false (cancel_sender t).

(** When the stream ends the loop is cancelled, and a new stream starts a new
    one, until the release. *)
(* worker/task_worker_grpc.py:124-178 GrpcTransport._stream_loop *)
Definition step (t : transport) (e : event) : transport :=
  match e with
  | Receive m => stream_recv m t
  | MethodEnds i outcome => method_ended i outcome t
  | Put m => match m with Response _ => t | _ => put_message m t end
  | Connect =>
      if running t then
        match send_task t with NotRunning | SenderEnded _ => set_sender Waiting t | _ => t end
      else t
  | TakeMessage => match send_task t with Waiting => take_message t | _ => t end
  | WriteEnds o => match send_task t with Writing m => write_ended m o t | _ => t end
  | StreamEnds => cancel_sender t
  | Release => release t
  end.

Definition runs (l : list event) : transport := run step start l.

(** ** One response per request *)

Lemma respond_id rq outcome r : respond rq outcome = Ok r -> rs_id r = rq_id rq.
Proof.
  unfold respond. destruct (request_data rq) as [data|e]; simpl; [|done].
  destruct (argument rq data) as [a|e]; simpl; [destruct outcome as [x|e]; simpl; [destruct x as [|v|st body|st d]; simpl|]|].
  2: destruct (dumps v) as [v'|e]; simpl.
  all: try (destruct e; simpl).
  all: intros [= <-]; done.
Qed.

(** Every failure of a request that an [Exception] reports is answered. *)
Lemma respond_answers rq outcome e : respond rq outcome = Raise e ->
  request_data rq = Raise e \/ is_Exception e = false.
Proof.
  unfold respond. destruct (request_data rq) as [data|e']; simpl; [|intros [= <-]; auto].
  destruct (_ ← argument rq data; result ← outcome; fill result (new_response rq)) as [x|e']; [done|].
  destruct e'; simpl; intros [= <-]; auto.
Qed.

Definition writing (t : transport) : list envelope := match send_task t with Writing m => [m] | _ => [] end.
Definition response_ids (l : list envelope) : list string :=
  omap (fun m => match m with Response r => Some (rs_id r) | _ => None end) l.

(** What was taken from the queue, in order, holds what was written and what is
    being written. *)
Definition in_order (t : transport) : Prop :=
  exists taken, was_put t = taken ++ message_queue t ∧
    written t ++ writing t `sublist_of` taken ∧ taken ≡ₚ written t ++ lost t ++ writing t.

Lemma in_order_put m t : in_order t -> in_order (put_message m t).
Proof. intros (taken & H1 & H2 & H3). exists taken. simpl. by rewrite H1, <- app_assoc. Qed.

Lemma in_order_idle t t' : was_put t' = was_put t -> message_queue t' = message_queue t ->
  written t' = written t -> lost t' = lost t -> writing t' = writing t -> in_order t -> in_order t'.
Proof. unfold in_order. by intros -> -> -> -> ->. Qed.

Lemma in_order_done e t m w los : send_task t = Writing m ->
  (w = written t ++ [m] ∧ los = lost t ∨ w = written t ∧ los = lost t ++ [m]) ->
  in_order t -> in_order (task_done e (set_sent w los t)).
Proof.
  intros Hs Hw (taken & H1 & H2 & H3). unfold writing in H2, H3. rewrite Hs in H2, H3.
  assert (Hn : writing (task_done e (set_sent w los t)) = [])
    by (unfold task_done; case_bool_decide; [done|by destruct e]).
  exists taken. rewrite Hn, !app_nil_r.
  assert (was_put (task_done e (set_sent w los t)) = was_put t ∧
    message_queue (task_done e (set_sent w los t)) = message_queue t ∧
    written (task_done e (set_sent w los t)) = w ∧ lost (task_done e (set_sent w los t)) = los)
    as (-> & -> & -> & ->) by (unfold task_done; by case_bool_decide).
  split; [done|]. destruct Hw as [[-> ->]|[-> ->]].
  - split; [done|]. rewrite H3, <- app_assoc. apply Permutation_app_head, Permutation_app_comm.
  - split; [|by rewrite H3]. etransitivity; [|exact H2]. by apply sublist_inserts_r.
Qed.

Lemma in_order_cancel t : in_order t -> in_order (cancel_sender t).
Proof.
  intros H. unfold cancel_sender. destruct (send_task t) as [| |m|e] eqn:Hs; try done.
  - revert H. unfold task_done. case_bool_decide; apply in_order_idle; try done; unfold writing; by rewrite Hs.
  - eapply in_order_done; [done|auto|done].
Qed.

Lemma in_order_step t e : in_order t -> in_order (step t e).
Proof.
  intros H. destruct e as [[rq|]|i outcome|m| | |o| |]; simpl.
  - done.
  - done.
  - unfold method_ended. destruct (routing t !! i) as [rq|]; [|done].
    destruct (respond rq outcome); [by apply in_order_put|done].
  - destruct m; [done|..]; by apply in_order_put.
  - destruct (running t); [|done].
    destruct (send_task t) eqn:Hs; try done; revert H; apply in_order_idle; try done; unfold writing; by rewrite Hs.
  - destruct (send_task t) eqn:Hs; try done. unfold take_message.
    destruct (message_queue t) as [|m q] eqn:Hq; [done|]. destruct H as (taken & H1 & H2 & H3).
    unfold writing in *. rewrite Hs in *. rewrite Hq in *. rewrite app_nil_r in *.
    exists (taken ++ [m]). simpl. rewrite <- app_assoc. split; [done|].
    split; [by apply sublist_app|]. by rewrite H3, <- app_assoc.
  - destruct (send_task t) as [| |m|e'] eqn:Hs; try done. unfold write_ended.
    destruct o as [[]|e']; (eapply in_order_done; [done|auto|done]).
  - by apply in_order_cancel.
  - by apply in_order_cancel.
Qed.

(** The requests that came in. *)
Definition request_of (e : event) : option request :=
  match e with Receive (Request rq) => Some rq | _ => None end.
Definition received (l : list event) : list request := omap request_of l.

(** The requests that are accounted for, by their identifiers. *)
Definition accounted (t : transport) : list string :=
  (rq_id <$> routing t) ++ response_ids (was_put t) ++ (rq_id <$> unanswered t).

Lemma accounted_idle t t' : routing t' = routing t -> was_put t' = was_put t -> unanswered t' = unanswered t ->
  accounted t' = accounted t.
Proof. unfold accounted. by intros -> -> ->. Qed.

Lemma accounted_task_done e t : accounted (task_done e t) = accounted t.
Proof. unfold task_done. by case_bool_decide. Qed.

Lemma accounted_cancel t : accounted (cancel_sender t) = accounted t.
Proof.
  unfold cancel_sender. destruct (send_task t); try done; simpl; by rewrite accounted_task_done.
Qed.

Lemma accounted_method i outcome t : accounted (method_ended i outcome t) ≡ₚ accounted t.
Proof.
  unfold method_ended, accounted. destruct (routing t !! i) as [rq|] eqn:Hi; [|done].
  rewrite (delete_Permutation (routing t) i rq Hi).
  pose proof (respond_id rq outcome) as Hr. destruct (respond rq outcome) as [r|e]; simpl.
  - specialize (Hr r eq_refl). unfold response_ids. rewrite omap_app. simpl. rewrite Hr.
    rewrite <- (app_assoc _ [_]). simpl. rewrite <- (Permutation_middle (response_ids (was_put t))).
    by rewrite <- Permutation_middle.
  - rewrite fmap_app, !(app_assoc _ _ (fmap _ [rq])). rewrite app_assoc. simpl.
    rewrite (Permutation_app_comm _ [rq_id rq]). simpl. by rewrite <- app_assoc.
Qed.

Lemma accounted_step t e : accounted (step t e) ≡ₚ accounted t ++ option_list (rq_id <$> request_of e).
Proof.
  destruct e as [[rq|]|i outcome|m| | |o| |]; simpl; rewrite ?app_nil_r; try done.
  - unfold accounted. simpl. rewrite fmap_app, <- !app_assoc. apply Permutation_app_head. simpl.
    rewrite (Permutation_app_comm _ [rq_id rq]). by rewrite app_assoc, (Permutation_app_comm _ [rq_id rq]).
  - apply accounted_method.
  - destruct m; simpl; try done; unfold accounted, response_ids; simpl; by rewrite omap_app, app_nil_r.
  - destruct (running t); [|done]. by destruct (send_task t).
  - destruct (send_task t); try done. unfold take_message. by destruct (message_queue t).
  - destruct (send_task t); try done. unfold write_ended. by destruct o; rewrite accounted_task_done.
  - by rewrite accounted_cancel.
  - change (accounted (cancel_sender t) ≡ₚ accounted t). by rewrite accounted_cancel.
Qed.


(** *** A stream that stays up *)

(** The loop is started where it does not run, takes a message and writes it. *)
Definition send_one : list event := [Connect; TakeMessage; WriteEnds (Ok tt)].

Lemma send_one_step m q t : running t = true -> writing t = [] -> message_queue t = m :: q ->
  let t' := run step t send_one in
  running t' = true /\ writing t' = [] /\ message_queue t' = q /\ written t' = written t ++ [m] /\ lost t' = lost t.
Proof.
  intros Hr Hw Hq t'. subst t'. unfold run, send_one. simpl. rewrite Hr.
  assert (exists u, match send_task t with NotRunning | SenderEnded _ => set_sender Waiting t | _ => t end = u /\
    send_task u = Waiting /\ running u = true /\ message_queue u = m :: q /\ written u = written t /\ lost u = lost t)
    as (u & -> & Hs & Hru & Hqu & Hwu & Hlu).
  { eexists. split; [done|]. unfold writing in Hw. destruct (send_task t) eqn:Hs; try done; by rewrite Hs. }
  rewrite Hs. unfold take_message. rewrite Hqu. simpl. unfold task_done, writing. simpl.
  case_bool_decide; simpl; rewrite Hru, Hwu, Hlu; done.
Qed.

(** A stream that stays up sends the whole queue in order. *)
Lemma drains t : running t = true -> writing t = [] ->
  let t' := run step t (mjoin (replicate (length (message_queue t)) send_one)) in
  message_queue t' = [] /\ written t' = written t ++ message_queue t /\ lost t' = lost t.
Proof.
  remember (message_queue t) as q eqn:Hq. revert t Hq.
  induction q as [|m q IH]; intros t Hq Hr Hw; [by simpl; rewrite app_nil_r|].
  destruct (send_one_step m q t Hr Hw (eq_sym Hq)) as (Hr' & Hw' & Hq' & Hwr & Hl).
  intros t'. subst t'. change (length (m :: q)) with (S (length q)).
  change (mjoin (replicate (S (length q)) send_one)) with (send_one ++ mjoin (replicate (length q) send_one)).
  rewrite run_app. destruct (IH _ (eq_sym Hq') Hr' Hw') as (H1 & H2 & H3).
  split; [done|]. rewrite H2, H3, Hwr, Hl. by rewrite <- app_assoc.
Qed.
End route.

Module Examples.
Definition parameters (e : string) : option nat :=
  if bool_decide (e = "start_sample") then Some 1%nat else if bool_decide (e = "calculate_overall") then Some 2%nat else None.
Definition validate (e : string) (d : val) : res val := Ok d.
Definition dumps (v : val) : res string := match v with VNone => Ok "null" | _ => Ok "{}" end.
Definition rq (id e : string) : request := {| rq_id := id; rq_endpoint := e; rq_json := None |}.
#[local] Abbreviation runs := (runs parameters validate dumps).

Example unknown_endpoint : respond parameters validate dumps (rq "a" "nope") (Ok RNone)
  = Ok {| rs_id := "a"; rs_code := 500; rs_message := Some "Internal Server Error"; rs_json := None |}.
Proof. reflexivity. Qed.
Example http_error : respond parameters validate dumps (rq "a" "start_sample") (Ok (RHttp 404 "No such session"))
  = Ok {| rs_id := "a"; rs_code := 404; rs_message := Some "No such session"; rs_json := None |}.
Proof. reflexivity. Qed.

(** The loop is cancelled with a message about to be taken: the count is one
    short, and the next stream is torn down once the message was written. *)
Example short_count :
  let t := runs [Put (CancelNotice "c" 3); Connect; StreamEnds; Connect; TakeMessage; WriteEnds (Ok tt)] in
  written t = [CancelNotice "c" 3] /\ send_task t = SenderEnded ValueError.
Proof. done. Qed.
(** A message that is being written when the stream breaks is not sent again. *)
Example message_lost :
  let t := runs [Receive (Request (rq "a" "start_sample")); MethodEnds 0 (Ok RNone); Connect; TakeMessage; StreamEnds] in
  response_ids (lost t) = ["a"] /\ written t = [] /\ message_queue t = [].
Proof. done. Qed.
End Examples.
