(* ===== verification/Snapshots.v ===== *)
(** * The client of the snapshots service

    Models worker/snapshots.py: the connection that is set up by the first call that
    needs it, the requests of each call and the tools offered to an agent.  The service
    is not in the repository: what it answers to a request is an argument.  The lock of
    the set-up makes it one step. *)

From S2P Require Import Prelude PyVal.

(** The index of a sample: the field for numbers or the one for text. *)
Inductive sample_index : Type := IndexInt (z : Z) | IndexStr (s : string).
Record TaskIndex := { int_value : option Z; string_value : option string }.
(* worker/snapshots.py:60-63 SnapshotsClient.create_snapshot *)
Definition task_index_message (i : sample_index) : TaskIndex :=
  match i with
  | IndexInt z => {| int_value := Some z; string_value := None |}
  | IndexStr s => {| int_value := None; string_value := Some s |}
  end.

(** What a snapshot is made or looked for with; a field that is [None] is not sent. *)
Record attributes := {
  task_type : option string;
  task_name : option string;
  task_index : option TaskIndex;
  env_type : option string;
  session_id : option Z;
  step : option Z;
  parent_id : option string;
  tags : list string
}.

Inductive request : Type :=
| OpenChannel
| ChannelReady
| GetStorePath
| CreateSnapshot (a : attributes) (expected_size : option Z)
| MarkReady (id : string)
| ListSnapshots (a : attributes) (page_size : Z)
| GetSnapshot (id : string) (require_path : bool)
| DeleteSnapshot (id : string)
| AddSnapshotTags (id : string) (tags : list string)
| RemoveSnapshotTags (id : string) (tags : list string)
| SetSnapshotTags (id : string) (tags : list string).

(** What the service answers: fields as text, and the snapshots as dictionaries. *)
Record response := { r_id : string; r_path : string; r_snapshot : val; r_snapshots : list val }.

Record client := { channel : bool; has_client : bool; store_path : option string; sent : list request }.
Definition new_client : client := {| channel := false; has_client := false; store_path := None; sent := [] |}.

Section client.
(** The answer to the last request; [ChannelReady] raises [TimeoutError] after ten
    seconds. *)
Context (service : list request -> res response).

Definition send (r : request) : M client response := fun c =>
  let l := sent c ++ [r] in
  ({| channel := channel c; has_client := has_client c; store_path := store_path c; sent := l |}, service l).
Definition set_channel (c : client) : client :=
  {| channel := true; has_client := has_client c; store_path := store_path c; sent := sent c ++ [OpenChannel] |}.
Definition set_client (c : client) : client :=
  {| channel := channel c; has_client := true; store_path := store_path c; sent := sent c |}.
Definition set_store_path (p : string) (c : client) : client :=
  {| channel := channel c; has_client := has_client c; store_path := Some p; sent := sent c |}.

(* worker/snapshots.py:27-40 SnapshotsClient._get_client *)
Definition _get_client : M client unit :=
  c ← get;
  (if channel c then mret tt else modify set_channel);;
  send ChannelReady;;
  c ← get;
  (if has_client c then mret tt else modify set_client);;
  match store_path c with
  | Some _ => mret tt
  | None => r ← send GetStorePath; modify (set_store_path (r_path r))
  end.

(* worker/snapshots.py:42-44 SnapshotsClient.get_store_path *)
Definition get_store_path : M client (option string) := _get_client;; gets store_path.

(* worker/snapshots.py:46-74 SnapshotsClient.create_snapshot *)
Definition create_snapshot (task_type task_name : option string) (task_index : option sample_index) (env_type : option string)
    (session_id step : option Z) (parent_id : option string) (expected_size : option Z) (tags : list string) : M client (string * string) :=
  _get_client;;
  r ← send (CreateSnapshot {| task_type := task_type; task_name := task_name; task_index := task_index_message <$> task_index;
       env_type := env_type; session_id := session_id; step := step; parent_id := parent_id; tags := tags |} expected_size);
  mret (r_id r, r_path r).

(* worker/snapshots.py:76-79 SnapshotsClient.mark_ready *)
Definition mark_ready (id : string) : M client unit := _get_client;; send (MarkReady id);; mret tt.

(* worker/snapshots.py:81-109 SnapshotsClient.list_snapshots *)
Definition list_snapshots (task_type task_name : option string) (task_index : option sample_index) (env_type : option string)
    (session_id step : option Z) (parent_id : option string) (tags : list string) (limit : Z) : M client (list val) :=
  _get_client;;
  r ← send (ListSnapshots {| task_type := task_type; task_name := task_name; task_index := task_index_message <$> task_index;
       env_type := env_type; session_id := session_id; step := step; parent_id := parent_id; tags := tags |} limit);
  mret (r_snapshots r).

(** An error of the service is no snapshot, one of the connection is raised. *)
(* worker/snapshots.py:111-119 SnapshotsClient.get_snapshot *)
Definition get_snapshot (id : string) : M client (option val) :=
  _get_client;;
  try_except (r ← send (GetSnapshot id false); mret (Some (r_snapshot r)))
    (fun e => if is_Exception e then Some (mret None) else None).

(* worker/snapshots.py:121-125 SnapshotsClient.get_snapshot_path *)
Definition get_snapshot_path (id : string) : M client string :=
  _get_client;; r ← send (GetSnapshot id true); mret (r_path r).

(* worker/snapshots.py:127-130 SnapshotsClient.delete_snapshot *)
Definition delete_snapshot (id : string) : M client unit := _get_client;; send (DeleteSnapshot id);; mret tt.

(* worker/snapshots.py:132-136 SnapshotsClient.add_snapshot_tags *)
Definition add_snapshot_tags (id : string) (tags : list string) : M client val :=
  _get_client;; r ← send (AddSnapshotTags id tags); mret (r_snapshot r).
(* worker/snapshots.py:138-142 SnapshotsClient.remove_snapshot_tags *)
Definition remove_snapshot_tags (id : string) (tags : list string) : M client val :=
  _get_client;; r ← send (RemoveSnapshotTags id tags); mret (r_snapshot r).
(* worker/snapshots.py:144-148 SnapshotsClient.set_snapshot_tags *)
Definition set_snapshot_tags (id : string) (tags : list string) : M client val :=
  _get_client;; r ← send (SetSnapshotTags id tags); mret (r_snapshot r).

(** ** The tools *)

Definition property (ty description : string) (more : list (string * val)) : val :=
  VDict ([("type", VStr ty)] ++ more ++ [("description", VStr description)]).
Definition snapshot_tool (name description : string) (properties more : list (string * val)) : val :=
  VDict [("type", VStr "function");
         ("function", VDict [("name", VStr name); ("description", VStr description);
            ("parameters", VDict ([("type", VStr "object"); ("properties", VDict properties)] ++ more ++ [("additionalProperties", VBool false)]));
            ("strict", VBool true)])].
Definition strings : list (string * val) := [("items", VDict [("type", VStr "string")])].
Definition with_default (v : val) (p : val) : val := match p with VDict d => VDict (d ++ [("default", v)]) | v => v end.

(* worker/snapshots.py:150-255 SnapshotsClient.tools *)
Definition tools : list val :=
  [snapshot_tool "snapshot.create" "Create a new snapshot saving the current state of the environment."
     [("continue", with_default (VBool true) (property "boolean" "Whether to continue execution after creating the snapshot" []));
      ("tags", property "array" "List of tags to associate with the created snapshot" strings)] [];
   snapshot_tool "snapshot.list" "List available snapshots with optional filtering parameters."
     [("env_type", property "string" "Filter by environment type" []);
      ("session_id", property "integer" "Filter by session ID" []);
      ("step", property "integer" "Filter by step number" []);
      ("parent_id", property "string" "Filter by parent snapshot ID" []);
      ("tags", property "array" "Filter by snapshots that contain all specified tags" strings);
      ("limit", with_default (VInt 100) (property "integer" "Maximum number of snapshots to return" []))] [];
   snapshot_tool "snapshot.load" "Load a snapshot by its ID to restore the environment state."
     [("id", property "string" "The ID of the snapshot to load" [])] [("required", VList [VStr "id"])];
   snapshot_tool "snapshot.delete" "Delete a snapshot by its ID to free up storage."
     [("id", property "string" "The ID of the snapshot to delete" [])] [("required", VList [VStr "id"])]].

(** ** Proofs *)

Definition is_open (r : request) : bool := match r with OpenChannel => true | _ => false end.
Definition count (p : request -> bool) (l : list request) : nat := length (filter (fun r => p r = true) l).

(** The channel is opened at most once, before anything else, and whoever has a path has
    asked for it. *)
Record set_up (c : client) : Prop := {
  su_open : count is_open (sent c) = if channel c then 1%nat else 0%nat;
  su_first : channel c = true -> head (sent c) = Some OpenChannel;
  su_empty : channel c = false -> sent c = [];
  su_path : is_Some (store_path c) -> GetStorePath ∈ sent c
}.

Lemma count_snoc p l r : count p (l ++ [r]) = (count p l + if p r then 1 else 0)%nat.
Proof. unfold count. rewrite filter_app, length_app, filter_cons. f_equal. destruct (p r) eqn:E; by case_decide. Qed.

Lemma send_set_up r c : set_up c -> is_open r = false -> channel c = true -> set_up (send r c).1.
Proof.
  intros [H1 H2 H3 H4] Hr Hc. unfold send. split; cbn [fst sent channel store_path].
  - rewrite count_snoc, Hr, H1. lia.
  - intros _. specialize (H2 Hc). by destruct (sent c).
  - congruence.
  - intros H. apply elem_of_app. left. by apply H4.
Qed.

(** After the set-up the channel is there; what the set-up has found once it keeps, and
    asks for no more. *)
Lemma get_client_set_up c : set_up c -> let '(c', r) := _get_client c in
  set_up c' ∧ channel c' = true ∧ (is_Some (store_path c) -> store_path c' = store_path c ∧ sent c' = sent c ++ [ChannelReady]) ∧
  match r with Ok _ => has_client c' = true ∧ is_Some (store_path c') | Raise _ => True end.
Proof.
  intros Hs. unfold _get_client. unfold mbind at 1, M_bind at 1, get at 1.
  set (c1 := if channel c then c else set_channel c).
  assert (Hc1 : set_up c1 ∧ channel c1 = true ∧ store_path c1 = store_path c ∧ (is_Some (store_path c) -> c1 = c)).
  { unfold c1. destruct (channel c) eqn:Ec; [done|]. pose proof (su_empty _ Hs Ec) as Hn.
    assert (Hp : is_Some (store_path c) -> False) by (intros H; apply (su_path _ Hs) in H; rewrite Hn in H; by apply elem_of_nil in H).
    split; [|split; [done|split; [done|by intros ?%Hp]]]. split; cbn; rewrite Hn; try done. }
  destruct Hc1 as (Hs1 & Hch & Hsp & Hsame).
  assert (Hrun : forall (k : unit -> M client unit), ((if channel c then mret tt else modify set_channel) ≫= k) c = k tt c1).
  { intros k. unfold c1. by destruct (channel c). }
  rewrite Hrun. clearbody c1. clear Hrun. pose proof (send_set_up ChannelReady c1 Hs1 eq_refl Hch) as Hs2. unfold mbind at 1, M_bind at 1.
  assert (Hsend : send ChannelReady c1 = ({| channel := channel c1; has_client := has_client c1; store_path := store_path c1; sent := sent c1 ++ [ChannelReady] |},
    service (sent c1 ++ [ChannelReady]))) by done.
  rewrite Hsend in *. cbn [fst] in Hs2. set (c2 := {| channel := channel c1 |}) in *.
  destruct (service (sent c1 ++ [ChannelReady])) as [x|e].
  2:{ split; [done|]. split; [done|]. split; [|done]. intros H. unfold c2. cbn. by rewrite (Hsame H). }
  unfold mbind at 1, M_bind at 1, get at 1. set (c3 := if has_client c2 then c2 else set_client c2).
  assert (Hrun3 : forall (k : unit -> M client unit), ((if has_client c2 then mret tt else modify set_client) ≫= k) c2 = k tt c3).
  { intros k. unfold c3. by destruct (has_client c2). }
  rewrite Hrun3. assert (Hc3 : set_up c3 ∧ has_client c3 = true ∧ channel c3 = true ∧ store_path c3 = store_path c2 ∧ sent c3 = sent c2).
  { unfold c3. destruct (has_client c2) eqn:Eh; [done|]. split; [by split; apply Hs2|done]. }
  destruct Hc3 as (Hs3 & Hh3 & Hch3 & Hp3 & Hsent3). destruct (store_path c2) as [p|] eqn:Ep.
  - split; [done|]. split; [done|]. split; [|split; [done|by rewrite Hp3]]. intros H. rewrite Hp3, Hsent3. cbn. rewrite (Hsame H). split; [|done].
    cbn in Ep. by rewrite <- Ep, Hsp.
  - pose proof (send_set_up GetStorePath c3 Hs3 eq_refl Hch3) as Hs4. unfold mbind, M_bind. cbn [send] in *. unfold send in *. cbn [fst] in Hs4.
    assert (Hno : is_Some (store_path c) -> False) by (intros [p Hp]; cbn in Ep; rewrite Hsp, Hp in Ep; done).
    destruct (service (sent c3 ++ [GetStorePath])) as [y|e]; [|split; [done|]; split; [done|]; by split; [intros ?%Hno|]].
    split; [|split; [done|split; [by intros ?%Hno|done]]]. split; cbn; try apply Hs4. intros _. apply elem_of_app. right. by left.
Qed.

(** Every operation sets the connection up, then makes one request. *)
Definition keeps_set_up {A} (m : M client A) : Prop := forall c, set_up c -> set_up (m c).1.

Lemma operation_keeps {A} (m : M client A) : (forall c, set_up c -> channel c = true -> set_up (m c).1) -> keeps_set_up (_get_client;; m).
Proof.
  intros Hm c Hs. pose proof (get_client_set_up c Hs) as H. unfold mbind, M_bind. destruct (_get_client c) as [c1 [[]|e]].
  - destruct H as (H1 & H2 & _). by apply Hm.
  - by destruct H.
Qed.
Lemma send_then {A} r (f : response -> A) c : is_open r = false -> set_up c -> channel c = true -> set_up ((x ← send r; mret (f x)) c).1.
Proof.
  intros Hr Hs Hc. pose proof (send_set_up r c Hs Hr Hc) as H. unfold mbind, M_bind. unfold send in *. by destruct (service _).
Qed.

(** Every operation keeps what the set-up has reached: one channel, and a path that is
    asked for once it is needed and then known. *)
Theorem operations_set_up : 
  keeps_set_up get_store_path ∧ (forall tt tn ti et si st pi es tg, keeps_set_up (create_snapshot tt tn ti et si st pi es tg)) ∧
  (forall id, keeps_set_up (mark_ready id)) ∧ (forall tt tn ti et si st pi tg n, keeps_set_up (list_snapshots tt tn ti et si st pi tg n)) ∧
  (forall id, keeps_set_up (get_snapshot id)) ∧ (forall id, keeps_set_up (get_snapshot_path id)) ∧ (forall id, keeps_set_up (delete_snapshot id)) ∧
  (forall id tg, keeps_set_up (add_snapshot_tags id tg)) ∧ (forall id tg, keeps_set_up (remove_snapshot_tags id tg)) ∧
  (forall id tg, keeps_set_up (set_snapshot_tags id tg)).
Proof.
  repeat apply conj; intros; apply operation_keeps; intros c Hs Hc; try done; try (by apply send_then).
  pose proof (send_then (GetSnapshot id false) (fun r => Some (r_snapshot r)) c eq_refl Hs Hc) as H. unfold try_except.
  destruct ((x ← send _; _) c) as [c1 [x|e]]; [done|]. by destruct (is_Exception e).
Qed.
End client.

(** ** Examples *)

Module Examples.
#[local] Open Scope string_scope.

(** A service that knows one snapshot, and fails at everything else about snapshots. *)
Definition service (l : list request) : res response :=
  match last l with
  | Some (GetSnapshot "s1" _) => Ok {| r_id := "s1"; r_path := "/p"; r_snapshot := VStr "s1"; r_snapshots := [] |}
  | Some ChannelReady | Some GetStorePath => Ok {| r_id := ""; r_path := "/root"; r_snapshot := VNone; r_snapshots := [] |}
  | _ => Raise (RpcError 5)
  end.

Example set_up_once :
  let '(c, r) := (a ← get_snapshot service "s1"; b ← get_snapshot service "s2"; p ← get_store_path service; mret (a, b, p)) new_client in
  r = Ok (Some (VStr "s1"), None, Some "/root") ∧
  sent c = [OpenChannel; ChannelReady; GetStorePath; GetSnapshot "s1" false; ChannelReady; GetSnapshot "s2" false; ChannelReady].
Proof. by vm_compute. Qed.

(** A service that cannot be reached is an error also where an absent snapshot is none. *)
Example unreachable : (get_snapshot (fun _ => Raise TimeoutError) "s1" new_client).2 = Raise TimeoutError.
Proof. by vm_compute. Qed.
End Examples.
