(* ===== verification/Files.v ===== *)
(** * A file system

    The files a program reads and writes: a map from paths to files, directories
    and symbolic links, with the operations of the standard library the modelled
    code uses, and what they leave. *)

From S2P Require Import Prelude PyVal.

(** ** Paths and the file system *)

Abbreviation path := (list string).

Inductive data : Type :=
| Bytes (s : string)
| Archive (l : list (path * data)).

Inductive node : Type :=
| File (d : data)
| Dir
| Link (target : path).

Abbreviation fs := (gmap path node).

Definition parts (s : string) : path := filter (fun x => x ≠ "" ∧ x ≠ ".") (split_on "/"%char s).
(** [p / s] *)
Definition slash (p : path) (s : string) : path :=
  match s with String "/" _ => parts s | _ => p ++ parts s end.
Definition parent (p : path) : path := take (length p - 1) p.
Definition basename (p : path) : string := default "" (last p).

(** [p.suffix]: from the last dot, when it is neither the first nor the last
    character. *)
Fixpoint last_dot (i : nat) (l : list ascii) : option nat :=
  match l with
  | [] => None
  | c :: l => match last_dot (S i) l with
              | Some k => Some k
              | None => if decide (c = "."%char) then Some i else None
              end
  end.
Definition suffix (p : path) : string :=
  let l := chars (basename p) in
  match last_dot 0 l with
  | Some i => if bool_decide (0 < i < length l - 1)%nat then of_chars (drop i l) else ""
  | None => ""
  end.
(** [p.with_suffix(p.suffix + '.partial')] *)
Definition partial (p : path) : path := parent p ++ [basename p +:+ ".partial"].

Definition is_OSError (e : exn) : bool :=
  match e with
  | OSError | FileNotFoundError | FileExistsError | NotADirectoryError => true
  | _ => false
  end.

(** ** Operations of the file system *)

(** [p] and what is below it, by the rest of the path. *)
Definition tree (p : path) (f : fs) : list (path * node) :=
  (fun kv => (drop (length p) kv.1, kv.2)) <$> filter (fun kv => p `prefix_of` kv.1) (map_to_list f).
Definition prune (p : path) (f : fs) : fs := filter (fun kv => ~ p `prefix_of` kv.1) f.
Definition graft (p : path) (t : list (path * node)) (f : fs) : fs :=
  foldr (fun kv f => <[p ++ kv.1 := kv.2]> f) f t.
(** [p.iterdir()], in the order of the file system *)
Definition children (p : path) (f : fs) : list (path * node) := filter (fun kv => length kv.1 = 1%nat) (tree p f).
(** The files of [p.rglob('*')]. *)
Definition files_below (p : path) (f : fs) : list (path * data) :=
  omap (fun kv => match kv with ((_ :: _) as q, File d) => Some (q, d) | _ => None end) (tree p f).

Definition mkdir1 (last : bool) (q : path) : M fs unit :=
  n ← gets (lookup q);
  match n with
  | None => modify (insert q Dir)
  | Some Dir => mret tt
  | Some _ => raise (if last then FileExistsError else NotADirectoryError)
  end.
(** [p.mkdir(parents=True, exist_ok=True)] *)
Definition mkdirs (p : path) : M fs unit :=
  for_each (seq 1 (length p)) (fun i => mkdir1 (bool_decide (i = length p)) (take i p)).

(** A file is created only where its directory is. *)
Definition in_directory (p : path) : M fs unit :=
  d ← gets (lookup (parent p));
  match d with
  | Some Dir => mret tt
  | None => raise FileNotFoundError
  | Some _ => raise NotADirectoryError
  end.

Definition unlink (p : path) : M fs unit :=
  n ← gets (lookup p);
  match n with
  | None => raise FileNotFoundError
  | Some Dir => raise OSError
  | Some _ => modify (delete p)
  end.
Definition symlink_to (p target : path) : M fs unit :=
  in_directory p;;
  n ← gets (lookup p);
  match n with
  | None => modify (insert p (Link target))
  | Some _ => raise FileExistsError
  end.
(** Written from the beginning. *)
Definition write_file (p : path) (d : data) : M fs unit :=
  in_directory p;;
  n ← gets (lookup p);
  match n with
  | Some Dir => raise OSError
  | _ => modify (insert p (File d))
  end.

(** ** The file system after an operation *)

Lemma prune_lookup p f q : prune p f !! q = if decide (p `prefix_of` q) then None else f !! q.
Proof.
  unfold prune. case_decide as H.
  - apply map_lookup_filter_None. right. intros x _. simpl. tauto.
  - destruct (f !! q) as [n|] eqn:E.
    + by apply map_lookup_filter_Some.
    + apply map_lookup_filter_None. by left.
Qed.

Lemma tree_elem p f r n : (r, n) ∈ tree p f <-> f !! (p ++ r) = Some n.
Proof.
  unfold tree. rewrite list_elem_of_fmap. split.
  - intros ([q m] & E & H). apply list_elem_of_filter in H as [[k Hk] H]. simpl in *.
    apply elem_of_map_to_list in H. subst q. rewrite drop_app_length in E. by injection E as -> ->.
  - intros H. exists (p ++ r, n). simpl. rewrite drop_app_length. split; [done|].
    apply list_elem_of_filter. split; [by apply prefix_app_r|]. by apply elem_of_map_to_list.
Qed.

Lemma foldr_insert_other (p : path) (l : list (path * node)) (f : fs) q : (forall r n, (r, n) ∈ l -> q ≠ p ++ r) ->
  foldr (fun kv f => <[p ++ kv.1 := kv.2]> f) f l !! q = f !! q.
Proof.
  induction l as [|[r n] l IH]; intros H; [done|]. simpl.
  rewrite lookup_insert_ne by (intros E; apply (H r n); [left|done]). apply IH. intros r' n' Hin. eapply H. by right.
Qed.
Lemma foldr_insert_in (p : path) (l : list (path * node)) (f : fs) r n : (forall n', (r, n') ∈ l -> n' = n) -> (r, n) ∈ l ->
  foldr (fun kv f => <[p ++ kv.1 := kv.2]> f) f l !! (p ++ r) = Some n.
Proof.
  induction l as [|[r' n'] l IH]; intros H Hin; [by apply elem_of_nil in Hin|]. simpl.
  destruct (decide (r' = r)) as [->|Hne].
  - rewrite (H n') by left. by rewrite lookup_insert_eq.
  - rewrite lookup_insert_ne by (intros E; by apply app_inj_1 in E as [_ ->]).
    apply IH; [intros; apply H; by right|]. apply elem_of_cons in Hin as [[= -> _]|]; done.
Qed.

(** A tree grafted where there was nothing, or what it covers. *)
Lemma graft_lookup src p g f q : (forall r, g !! (src ++ r) = None -> f !! (p ++ r) = None) ->
  graft p (tree src g) f !! q = if decide (p `prefix_of` q) then g !! (src ++ drop (length p) q) else f !! q.
Proof.
  intros Hf. unfold graft. case_decide as H.
  - destruct H as [r ->]. rewrite drop_app_length. destruct (g !! (src ++ r)) as [n|] eqn:E.
    + apply foldr_insert_in; [|by apply tree_elem]. intros n' H%tree_elem. congruence.
    + rewrite foldr_insert_other; [by apply Hf|]. intros r' n Hin E'. apply app_inj_1 in E' as [_ <-]; [|done].
      apply tree_elem in Hin. congruence.
  - apply foldr_insert_other. intros r n _ ->. destruct H. by apply prefix_app_r.
Qed.

(** [p] can be made a directory: nothing on the way is anything else. *)
Definition free (f : fs) (p : path) : Prop := forall i, (1 <= i <= length p)%nat -> f !! take i p = None \/ f !! take i p = Some Dir.
(** Directories where they were missing. *)
Definition made (p : path) (f f' : fs) : Prop :=
  forall q, f' !! q = if decide (q ≠ [] /\ q `prefix_of` p) then Some Dir else f !! q.

Lemma mkdir1_run last q f : (f !! q = None \/ f !! q = Some Dir) ->
  mkdir1 last q f = (<[q := Dir]> f, Ok tt).
Proof.
  intros H. unfold mkdir1. rewrite bind_gets. destruct H as [H|H]; rewrite H; [done|].
  unfold mret, M_ret. by rewrite insert_id.
Qed.

Lemma mkdirs_spec p f : free f p -> exists f', mkdirs p f = (f', Ok tt) /\ made p f f'.
Proof.
  intros Hf. unfold mkdirs.
  assert (Hg : forall l, (forall i, i ∈ l -> (1 <= i <= length p)%nat) -> forall f, free f p ->
    exists f', for_each l (fun i => mkdir1 (bool_decide (i = length p)) (take i p)) f = (f', Ok tt) /\
      (forall i, i ∈ l -> f' !! take i p = Some Dir) /\
      (forall q, (forall i, i ∈ l -> q ≠ take i p) -> f' !! q = f !! q)).
  { clear. induction l as [|i l IH]; intros Hl f Hf.
    - exists f. split; [done|]. split; [|done]. by intros i ?%elem_of_nil.
    - assert (Hi : (1 <= i <= length p)%nat) by (apply Hl; left).
      destruct (IH ltac:(intros; apply Hl; by right) (<[take i p := Dir]> f)) as (f' & E & H1 & H2).
      { intros j Hj. destruct (decide (take j p = take i p)) as [->|]; [rewrite lookup_insert_eq; auto|].
        rewrite lookup_insert_ne by done. by apply Hf. }
      exists f'. split; [|split].
      + simpl. erewrite M_bind_run; [exact E|]. apply mkdir1_run. by apply Hf.
      + intros j [->|Hj]%elem_of_cons; [|by apply H1].
        destruct (decide (Exists (fun k => take i p = take k p) l)) as [(k & Hk & ->)%Exists_exists|Hn]; [by apply H1|].
        rewrite H2, lookup_insert_eq; [done|]. intros k Hk E'. apply Hn, Exists_exists. by exists k.
      + intros q Hq. rewrite H2 by (intros; apply Hq; by right). apply lookup_insert_ne. intros <-. apply (Hq i); [left|done]. }
  destruct (Hg (seq 1 (length p)) ltac:(intros i Hi%elem_of_seq; lia) f Hf) as (f' & E & H1 & H2).
  exists f'. split; [done|]. intros q. case_decide as Hq.
  - destruct Hq as [Hq [r ->]]. rewrite <- (take_app_length q r) at 1. apply H1, elem_of_seq.
    rewrite length_app. destruct q; [done|]. simpl. lia.
  - apply H2. intros i Hi%elem_of_seq ->. apply Hq. split.
    + destruct p; simpl in *; [lia|]. destruct i; [lia|done].
    + exists (drop i p). by rewrite take_drop.
Qed.

Lemma parent_app d x : parent (d ++ [x]) = d.
Proof. unfold parent. rewrite length_app, Nat.add_sub. apply take_app_length. Qed.

Lemma in_directory_ok p f : f !! parent p = Some Dir -> in_directory p f = (f, Ok tt).
Proof. intros H. unfold in_directory. by rewrite bind_gets, H. Qed.

Lemma write_file_ok p d f : f !! parent p = Some Dir -> f !! p = None -> write_file p d f = (<[p := File d]> f, Ok tt).
Proof.
  intros H1 H2. unfold write_file. erewrite M_bind_run; [|by apply in_directory_ok]. by rewrite bind_gets, H2.
Qed.

(** All directories on the way to a path, itself included. *)
Definition directories (f : fs) (p : path) : Prop := forall q, q ≠ [] -> q `prefix_of` p -> f !! q = Some Dir.

Lemma directories_free f p : directories f p -> free f p.
Proof.
  intros H i Hi. right. apply H; [destruct p, i; simpl in *; done || lia|]. exists (drop i p). by rewrite take_drop.
Qed.

Lemma directories_mkdirs f p : directories f p -> mkdirs p f = (f, Ok tt).
Proof.
  intros H. destruct (mkdirs_spec p f (directories_free _ _ H)) as (f' & -> & Hm). f_equal. apply map_eq. intros q.
  rewrite Hm. case_decide as Hq; [|done]. destruct Hq. symmetry. by apply H.
Qed.

Lemma prefix_snoc (q d : path) y : q `prefix_of` d ++ [y] -> q = d ++ [y] \/ q `prefix_of` d.
Proof.
  intros [r E]. destruct r as [|z r _] using rev_ind; [left; by rewrite app_nil_r in E|]. right.
  rewrite app_assoc in E. apply app_inj_tail in E as [-> _]. by exists r.
Qed.
