(* ===== verification/Cli.v ===== *)
(** * The command line of the evaluator

    Models eval/cli/main.py: what a call of the program does with its settings, as the
    list of its effects: the display, the clients it creates, the evaluation of Runner
    it starts, and what it closes.  Reading the settings is pydantic's. *)

From S2P Require Import Prelude PyVal Files Runner.

(** The settings that [main] reads; [a_dump] is [settings.model_dump()]. *)
Record settings := {
  a_interactive : bool;
  a_controller : option string;
  a_tasks : list string;
  a_client : string;
  a_models : list (list (string * val));
  a_model : option (list string);
  a_dump : list (string * val);
  a_indices : list val;
  a_indices_range : option string;
  a_resume : option string;
  a_output : path;
  a_cross_sample : bool;
  a_start_sample : bool;
  a_custom_params : list (string * val);
  a_runs : Z
}.

Section main.
Context {Client : Type}.
(** Whether the display is installed; what creating a client gives; what an evaluation
    comes to; the directories. *)
Context (tui_installed : bool) (create_client : string -> list (string * val) -> res Client)
        (evaluate : options (Client := Client) -> option path -> res unit) (is_dir : path -> bool).

Inductive effect : Type :=
| ShowTui
| OpenController (url : string)
| CreateClient (provider : string) (o : list (string * val))
| Evaluate (o : options (Client := Client)) (resume : option path)
| CloseController
| CloseClient (c : Client)
| AwaitTui.

Definition emit (x : effect) : M (list effect) unit := modify (fun l => l ++ [x]).

(** A URL that is set is not empty. *)
(* eval/cli/main.py:57-63 main *)
Definition view_only (s : settings) : bool :=
  negb (match a_controller s with Some _ => true | None => false end) || bool_decide (a_tasks s = []).

(** One client per model; without models, the first of the server, unless none is needed. *)
(* eval/cli/main.py:78-90 main *)
Definition model_options (s : settings) : list (list (string * val)) :=
  match a_models s, a_model s with
  | _ :: _, _ => (fun model => dupdate (a_dump s) model) <$> a_models s
  | [], Some (n :: ns) => (fun name => dset "model" (VStr name) (a_dump s)) <$> (n :: ns)
  | [], _ => if negb (view_only s) && negb (a_start_sample s) then [a_dump s] else []
  end.

(** [asyncio.gather] starts all; of several that fail, the first in the list is raised. *)
(* eval/cli/main.py:91-94 main *)
Definition create_clients (s : settings) : M (list effect) (list Client) :=
  for_each (model_options s) (fun o => emit (CreateClient (a_client s) o));;
  lift_res (map_r (create_client (a_client s)) (model_options s)).

(** ["a-b"] with both ends. *)
(* eval/cli/main.py:97-99 main *)
Definition read_indices (s : settings) : res (list val) :=
  match a_indices_range s with
  | None => Ok (a_indices s)
  | Some r =>
      match split_first "-"%char r with
      | None => Raise ValueError
      | Some (a, b) =>
          match py_int (strip a), py_int (strip b) with
          | Some a, Some b => Ok (VInt <$> seqZ a (b + 1 - a))
          | _, _ => Raise ValueError
          end
      end
  end.

(** The directory to resume from, as given or below the output; [None] when there is none. *)
(* eval/cli/main.py:101-106 main *)
Definition read_resume (s : settings) : option (option path) :=
  match a_resume s with
  | None => Some None
  | Some r =>
      let p := if is_dir (slash [] r) then slash [] r else slash (a_output s) r in
      if is_dir p then Some (Some p) else None
  end.

Definition runner_options (s : settings) (models : list Client) (indices : list val) : options :=
  {| Runner.models := models; cross_sample := a_cross_sample s; start_sample := a_start_sample s;
     has_controller := negb (view_only s); runs := Some (a_runs s); tasks := Some (a_tasks s);
     Runner.indices := indices; custom_params := a_custom_params s |}.

(* eval/cli/main.py:132-136 main *)
Definition close_all (s : settings) (models : list Client) : M (list effect) unit :=
  (if view_only s then mret tt else emit CloseController);;
  for_each models (fun c => emit (CloseClient c)).

(* eval/cli/main.py:108-136 main *)
Definition evaluation (s : settings) (models : list Client) (indices : list val) (resume : option path) : M (list effect) unit :=
  finally
    (try_except (let o := runner_options s models indices in emit (Evaluate o resume);; lift_res (evaluate o resume))
       (fun e => if is_Exception e then Some (mret tt) else None))
    (close_all s models).

(* eval/cli/main.py:22-140 main *)
Definition main (s : settings) : M (list effect) unit :=
  if a_interactive s && negb tui_installed then mret tt
  else
    (if a_interactive s then emit ShowTui else mret tt);;
    if view_only s && negb (a_interactive s) then mret tt
    else
      (match a_controller s with
       | Some url => if view_only s then mret tt else emit (OpenController url)
       | None => mret tt
       end);;
      models ← create_clients s;
      indices ← lift_res (read_indices s);
      match read_resume s with
      | None => mret tt
      | Some resume =>
          evaluation s models indices resume;;
          (if a_interactive s then emit AwaitTui else mret tt)
      end.

(** ** Proofs *)

Lemma bind_effect {A} x (k : unit -> M (list effect) A) l : (emit x ≫= k) l = k tt (l ++ [x]).
Proof. done. Qed.

Lemma emit_all {A} (g : A -> effect) l acc : for_each l (fun x => emit (g x)) acc = (acc ++ (g <$> l), Ok tt).
Proof.
  revert acc. induction l as [|x l IH]; intros acc; cbn [for_each]; [by rewrite app_nil_r|].
  rewrite bind_effect, IH. by rewrite <- app_assoc.
Qed.

(** What is open when an evaluation may start. *)
Definition opened (s : settings) : list effect :=
  (if a_interactive s then [ShowTui] else []) ++
  (match a_controller s with Some url => if view_only s then [] else [OpenController url] | None => [] end) ++
  (CreateClient (a_client s) <$> model_options s).
Definition closed (s : settings) (models : list Client) : list effect :=
  (if view_only s then [] else [CloseController]) ++ (CloseClient <$> models).

Lemma close_all_run s models l : close_all s models l = (l ++ closed s models, Ok tt).
Proof.
  unfold close_all, closed. destruct (view_only s).
  - rewrite bind_ret. by rewrite (emit_all CloseClient).
  - rewrite bind_effect, (emit_all CloseClient). by rewrite <- app_assoc.
Qed.

Lemma evaluation_run s models indices resume l : let o := runner_options s models indices in
  evaluation s models indices resume l =
    (l ++ Evaluate o resume :: closed s models,
     match evaluate o resume with Raise e => if is_Exception e then Ok tt else Raise e | Ok _ => Ok tt end).
Proof.
  intros o. unfold evaluation, finally, try_except. fold o. rewrite bind_effect. unfold lift_res. destruct (evaluate o resume) as [[]|e]; [|destruct (is_Exception e)];
    cbn; rewrite close_all_run; by rewrite <- app_assoc.
Qed.

(** An evaluation that starts is followed by the end of every client that was created, and
    only what is not an Exception leaves it.  When creating a client fails, the range is
    not one or there is nothing to resume from, nothing that is open is closed. *)
Theorem main_closes (s : settings) : (a_interactive s = true -> tui_installed = true) -> (a_interactive s = true \/ view_only s = false) ->
  main s [] =
    match map_r (create_client (a_client s)) (model_options s), read_indices s, read_resume s with
    | Ok models, Ok indices, Some resume =>
        let o := runner_options s models indices in
        match evaluate o resume with
        | Raise e => if is_Exception e then (opened s ++ Evaluate o resume :: closed s models ++ (if a_interactive s then [AwaitTui] else []), Ok tt)
                     else (opened s ++ Evaluate o resume :: closed s models, Raise e)
        | Ok _ => (opened s ++ Evaluate o resume :: closed s models ++ (if a_interactive s then [AwaitTui] else []), Ok tt)
        end
    | Ok _, Ok _, None => (opened s, Ok tt)
    | Ok _, Raise e, _ => (opened s, Raise e)
    | Raise e, _, _ => (opened s, Raise e)
    end.
Proof.
  intros Htui Hview. unfold main. assert (a_interactive s && negb tui_installed = false) as ->.
  { destruct (a_interactive s); [by rewrite Htui|done]. }
  assert (Hopen : forall (k : M (list effect) unit), ((if a_interactive s then emit ShowTui else mret tt);; k) [] = k (if a_interactive s then [ShowTui] else [])).
  { intros k. by destruct (a_interactive s). }
  rewrite Hopen. assert (view_only s && negb (a_interactive s) = false) as ->.
  { destruct Hview as [-> | ->]; [by rewrite andb_false_r|done]. }
  assert (Hc : forall (k : M (list effect) unit) l, ((match a_controller s with Some url => if view_only s then mret tt else emit (OpenController url) | None => mret tt end);; k) l =
    k (l ++ match a_controller s with Some url => if view_only s then [] else [OpenController url] | None => [] end)).
  { intros k l. destruct (a_controller s); [|by rewrite app_nil_r]. destruct (view_only s); [by rewrite app_nil_r|done]. }
  rewrite Hc. assert (Hcl : forall l, create_clients s l = (l ++ (CreateClient (a_client s) <$> model_options s), map_r (create_client (a_client s)) (model_options s))).
  { intros l. unfold create_clients. by rewrite (M_bind_run _ _ _ _ _ (emit_all (CreateClient (a_client s)) (model_options s) l)). }
  set (l0 := _ ++ _). specialize (Hcl l0). assert (Hl0 : l0 ++ (CreateClient (a_client s) <$> model_options s) = opened s) by (unfold l0, opened; by rewrite <- app_assoc).
  rewrite Hl0 in Hcl. clearbody l0. destruct (map_r _ (model_options s)) as [models|e]; [|by rewrite (M_bind_raise _ _ _ _ _ Hcl)].
  rewrite (M_bind_run _ _ _ _ _ Hcl). rewrite bind_lift. destruct (read_indices s) as [indices|e]; [|done].
  destruct (read_resume s) as [resume|]; [|done]. cbv zeta. unfold mbind, M_bind. rewrite evaluation_run. cbv zeta.
  destruct (evaluate _ resume) as [u|e]; [|destruct (is_Exception e); [|done]];
    (destruct (a_interactive s); [unfold emit, modify; rewrite <- app_assoc; done|rewrite app_nil_r; done]).
Qed.
End main.

(** ** Examples *)

Module Examples.
#[local] Open Scope string_scope.

Definition base : settings := {|
  a_interactive := false; a_controller := Some "http://c"; a_tasks := ["calc"]; a_client := "openai"; a_models := [];
  a_model := Some ["m1"; "m2"]; a_dump := [("client", VStr "openai"); ("model", VNone)]; a_indices := []; a_indices_range := None;
  a_resume := None; a_output := ["results"]; a_cross_sample := false; a_start_sample := false; a_custom_params := []; a_runs := 1 |}.
Definition with_range (r : string) : settings := {|
  a_interactive := false; a_controller := Some "http://c"; a_tasks := ["calc"]; a_client := "openai";
  a_models := [[("client", VStr "anthropic"); ("model", VStr "m3")]]; a_model := None;
  a_dump := [("client", VStr "openai"); ("model", VNone)]; a_indices := []; a_indices_range := Some r;
  a_resume := None; a_output := ["results"]; a_cross_sample := false; a_start_sample := false; a_custom_params := []; a_runs := 1 |}.
Definition create (provider : string) (o : list (string * val)) : res string :=
  match dget "model" o with Some (VStr m) => Ok (provider +:+ "/" +:+ m) | _ => Raise ValueError end.
Abbreviation go s := (main true create (fun _ _ => Raise KeyError) (fun _ => false) s []).

Lemma main_closes_witness : go base =
  ([OpenController "http://c"; CreateClient "openai" [("client", VStr "openai"); ("model", VStr "m1")];
    CreateClient "openai" [("client", VStr "openai"); ("model", VStr "m2")];
    Evaluate (runner_options base ["openai/m1"; "openai/m2"] []) None; CloseController; CloseClient "openai/m1"; CloseClient "openai/m2"], Ok tt).
Proof. rewrite main_closes; [|done|by right]. vm_compute. reflexivity. Defined.

(** The client named for a model is not used, and the ends of a range are in it. *)
Example one_provider : read_indices (with_range "3 - 5") = Ok [VInt 3; VInt 4; VInt 5] ∧
  (go (with_range "3 - 5")).1 !! 1%nat = Some (CreateClient "openai" [("client", VStr "anthropic"); ("model", VStr "m3")]).
Proof. by vm_compute. Qed.

(** A range that is none ends the program with the connections open. *)
Example bad_range : go (with_range "7") =
  ([OpenController "http://c"; CreateClient "openai" [("client", VStr "anthropic"); ("model", VStr "m3")]], Raise ValueError).
Proof. by vm_compute. Qed.
End Examples.
