(* ===== verification/TraceStore.v ===== *)
(** * The trace store of the worker

    Models worker/trace_store.py over a file system that maps paths to files,
    directories and symbolic links: where a trace is put, how a temporary
    directory becomes a file, an archive or a directory, the links to it, and the
    writer that ends it.  [device] tells the file systems apart between which
    [os.replace] does not move; [rival] is what another process does between the
    removal of a link and its creation, for every link.  No directory on the way to a path is a
    link. *)

From S2P Require Import Prelude PyVal Files.

Section store.
Context (device : path -> nat) (rival : path -> fs -> fs).

(** [os.replace]: the new place is free, or a file for a file, or an empty
    directory for a directory. *)
Definition replace (src dst : path) : M fs unit :=
  if negb (bool_decide (device src = device dst)) then raise OSError
  else
    f ← get;
    match f !! src with
    | None => raise FileNotFoundError
    | Some Dir =>
        in_directory dst;;
        match f !! dst with
        | Some (File _) | Some (Link _) => raise NotADirectoryError
        | Some Dir => match children dst f with
                      | [] => put (graft dst (tree src f) (prune src f))
                      | _ => raise OSError
                      end
        | None => put (graft dst (tree src f) (prune src f))
        end
    | Some n =>
        in_directory dst;;
        match f !! dst with
        | Some Dir => raise OSError
        | _ => put (<[dst := n]> (delete src f))
        end
    end.

(** [shutil.copy2] *)
Definition copy2 (src dst : path) : M fs unit :=
  f ← get;
  match f !! src with
  | Some (File d) => write_file (match f !! dst with Some Dir => dst ++ [basename src] | _ => dst end) d
  | None => raise FileNotFoundError
  | Some _ => raise OSError
  end.

(** [shutil.copytree(src, dst, symlinks=True)] *)
Definition copytree (src dst : path) : M fs unit :=
  f ← get;
  match f !! dst with
  | Some _ => raise FileExistsError
  | None => mkdirs dst;; modify (graft dst (tree src f))
  end.

(** ** Moving into the store *)

Definition or_OSError {A} (m h : M fs A) : M fs A := try_except m (fun e => if is_OSError e then Some h else None).

(* worker/trace_store.py:134-143 TraceStore._atomic_move *)
Definition _atomic_move (src dst : path) : M fs unit :=
  or_OSError (replace src dst)
    (let tmp := partial dst in
     copy2 src tmp;;
     replace tmp dst).

(** [sorted]: paths by their parts. *)
Fixpoint path_le (p q : path) : bool :=
  match p, q with
  | [], _ => true
  | _, [] => false
  | x :: p, y :: q => if decide (x = y) then path_le p q else String.leb x y
  end.
Fixpoint insert_file (x : path * data) (l : list (path * data)) : list (path * data) :=
  match l with
  | [] => [x]
  | y :: l => if path_le x.1 y.1 then x :: y :: l else y :: insert_file x l
  end.
Definition sorted_files (l : list (path * data)) : list (path * data) := foldr insert_file [] l.

(* worker/trace_store.py:145-153 TraceStore._zip_dir *)
Definition _zip_dir (src_dir dst_zip : path) : M fs unit :=
  let tmp := partial dst_zip in
  f ← get;
  write_file tmp (Archive (sorted_files (files_below src_dir f)));;
  replace tmp dst_zip.

(* worker/trace_store.py:170-181 TraceStore._move_dir *)
Definition copy_then_rename (src_dir dst_dir : path) : M fs unit :=
  let staging := partial dst_dir in
  modify (fun f => match f !! staging with
                   | Some Dir => prune staging f
                   | _ => delete staging f
                   end);;
  copytree src_dir staging;;
  replace staging dst_dir;;
  modify (prune src_dir).

(* worker/trace_store.py:155-187 TraceStore._move_dir *)
Definition _move_dir (src_dir dst_dir : path) : M fs unit :=
  mkdirs (parent dst_dir);;
  finally (or_OSError (replace src_dir dst_dir) (copy_then_rename src_dir dst_dir))
    (try_except (mkdirs src_dir) (fun e => if is_Exception e then Some (mret tt) else None)).

(** ** Links *)

Fixpoint common (p q : path) : nat :=
  match p, q with
  | x :: p, y :: q => if decide (x = y) then S (common p q) else 0%nat
  | _, _ => 0%nat
  end.
(** [os.path.relpath(target, start)] *)
Definition relpath (target start : path) : path :=
  let i := common start target in
  match replicate (length start - i) ".."%string ++ drop i target with
  | [] => ["."%string]
  | p => p
  end.

(* worker/trace_store.py:104-119 TraceStore._create_link *)
Definition _create_link (link_path target_path : path) : M fs unit :=
  mkdirs (parent link_path);;
  let relative_path := relpath target_path (parent link_path) in
  try_except
    (n ← gets (lookup link_path);
     (match n with Some _ => unlink link_path | None => mret tt end);;
     modify (rival link_path);;
     symlink_to link_path relative_path)
    (fun e => match e with
              | FileExistsError => Some (
                  try_except (unlink link_path)
                    (fun e => match e with FileNotFoundError => Some (mret tt) | _ => None end);;
                  symlink_to link_path relative_path)
              | _ => None
              end).

(** ** Where a trace is put *)

Definition hex_digit (d : Z) : ascii := ascii_of_nat (Z.to_nat (if bool_decide (d < 10) then 48 + d else 87 + d)).
(** [f'{n:02x}'] of a byte *)
Definition hex2 (n : Z) : string := String (hex_digit (n / 16)) (String (hex_digit (n mod 16)) EmptyString).

(* worker/trace_store.py:121-126 TraceStore._session_bucket *)
Definition _session_bucket (root : path) (session_id : Z) : path :=
  let a := hex2 (Z.land (Z.shiftr session_id 8) 255) in
  let b := hex2 (Z.land (Z.shiftr session_id 0) 255) in
  root ++ [a; b].

(** The date of a number of days since 1970-01-01: eras of 400 years from a
    first of March. *)
Definition civil (days : Z) : Z * Z * Z :=
  let z := days + 719468 in
  let era := z / 146097 in
  let doe := z mod 146097 in
  let yoe := (doe - doe / 1460 + doe / 36524 - doe / 146096) / 365 in
  let doy := doe - (365 * yoe + yoe / 4 - yoe / 100) in
  let mp := (5 * doy + 2) / 153 in
  let m := if bool_decide (mp < 10) then mp + 3 else mp - 9 in
  (yoe + era * 400 + (if bool_decide (m <= 2) then 1 else 0), m, doy - (153 * mp + 2) / 5 + 1).

Definition two (n : Z) : string := if bool_decide (n < 10) then "0" +:+ str_Z n else str_Z n.

(** In UTC+8; the milliseconds are cut off. *)
(* worker/trace_store.py:128-132 TraceStore._time_partition_path *)
Definition _time_partition_path (root : path) (ts : Z) : res path :=
  let seconds := ts / 1000 in
  let '(y0, _, _) := civil (seconds / 86400) in
  let local := seconds + 8 * 3600 in
  let '(y, m, d) := civil (local / 86400) in
  if bool_decide (1 <= y0 <= 9999) then
    if bool_decide (1 <= y <= 9999) then
      Ok (root ++ [two (y mod 100); two m; two d; two (local mod 86400 / 3600)])
    else Raise OverflowError
  else Raise ValueError.

(** ** A trace *)

Record TraceStore := { root : path; by_time : path; by_session : path; by_task : path }.

(** [root] is resolved. *)
(* worker/trace_store.py:37-45 TraceStore.__init__ *)
Definition new_store (root : path) : M fs TraceStore :=
  mkdirs root;;
  mret {| root := root; by_time := slash root "by-time"; by_session := slash root "by-session";
          by_task := slash root "by-task" |}.

Record trace := { dir_by_time : path; file_base : string; task_index : string; session_id : Z; disable_compression : bool }.

(** [now] is the time in milliseconds. *)
(* worker/trace_store.py:47-67 TraceStore.new_trace *)
Definition new_trace (s : TraceStore) (now : Z) (task_index : string) (session_id : Z) (ts : option Z)
    (disable_compression : bool) (tag : option string) : res trace :=
  let ts := default now ts in
  dir_by_time ← _time_partition_path (by_time s) ts;
  let file_base := task_index +:+ "-" +:+ str_Z session_id +:+ "-" +:+ str_Z ts in
  let file_base := match tag with
                   | Some tag => if bool_decide (tag = "") then file_base else tag +:+ "-" +:+ file_base
                   | None => file_base
                   end in
  Ok {| dir_by_time := dir_by_time; file_base := file_base; task_index := task_index; session_id := session_id;
        disable_compression := disable_compression |}.

(** The only file, when it is at the top and nothing else is there. *)
(* worker/trace_store.py:70-75 TraceStore.new_trace *)
Definition only_top_file (tmp_dir : path) (f : fs) : option string :=
  match files_below tmp_dir f, children tmp_dir f with
  | [_], [([x], File _)] => Some x
  | _, _ => None
  end.

(* worker/trace_store.py:78-92 TraceStore.new_trace *)
Definition save (t : trace) (tmp_dir : path) (single : option string) : M fs path :=
  mkdirs (dir_by_time t);;
  match single with
  | Some x =>
      let single_file := tmp_dir ++ [x] in
      let file_ext := if bool_decide (suffix single_file = "") then ".bin"%string else suffix single_file in
      let final_path := slash (dir_by_time t) (file_base t +:+ file_ext) in
      _atomic_move single_file final_path;; mret final_path
  | None =>
      if disable_compression t then
        let final_path := slash (dir_by_time t) (file_base t) in
        _move_dir tmp_dir final_path;; mret final_path
      else
        let final_path := slash (dir_by_time t) (file_base t +:+ ".zip") in
        _zip_dir tmp_dir final_path;; mret final_path
  end.

(* worker/trace_store.py:69-100 TraceStore.new_trace *)
Definition _finalize (s : TraceStore) (t : trace) (tmp_dir : path) : M fs (option path) :=
  f ← get;
  match files_below tmp_dir f with
  | [] => mret None
  | _ =>
      final_path ← save t tmp_dir (only_top_file tmp_dir f);
      let link := ("session_" +:+ str_Z (session_id t))%string in
      _create_link (slash (_session_bucket (slash (by_task s) (task_index t)) (session_id t)) link) final_path;;
      _create_link (slash (_session_bucket (by_session s) (session_id t)) link) final_path;;
      mret (Some final_path)
  end.
End store.

(** ** The writer *)

Record writer := { tmp_dir : path; final_path : option path; finalized : bool; finalizer_alive : bool }.

(** [fresh] is the name of the new temporary directory below [mktemp_dir], the
    default one when it is [None]. *)
(* worker/trace_store.py:193-203 TraceWriter.__init__ *)
Definition new_writer (default_tmp : path) (mktemp_dir : option path) (fresh : string) : M fs writer :=
  (match mktemp_dir with Some d => mkdirs d | None => mret tt end);;
  let dir := default default_tmp mktemp_dir ++ [fresh] in
  modify (insert dir Dir);;
  mret {| tmp_dir := dir; final_path := None; finalized := false; finalizer_alive := true |}.

Definition on_fs {A} (m : M fs A) : M (fs * writer) A := fun s => let '(f, r) := m s.1 in ((f, s.2), r).
Definition set_writer (w : writer) : M (fs * writer) unit := modify (fun s => (s.1, w)).

(** [weakref.finalize] calls the same callback once more. *)
(* worker/trace_store.py:220-227 TraceWriter.close *)
Definition close (finalize_callback : path -> M fs (option path)) : M (fs * writer) (option path) :=
  w ← gets snd;
  if finalized w then mret (final_path w)
  else
    p ← on_fs (finalize_callback (tmp_dir w));
    set_writer {| tmp_dir := tmp_dir w; final_path := p; finalized := true; finalizer_alive := finalizer_alive w |};;
    (if finalizer_alive w then
       set_writer {| tmp_dir := tmp_dir w; final_path := p; finalized := true; finalizer_alive := false |};;
       on_fs (finalize_callback (tmp_dir w));; mret tt
     else mret tt);;
    mret p.

(** The same in a thread, for which the coroutine waits. *)
(* worker/trace_store.py:229-236 TraceWriter.aclose *)
Definition aclose (finalize_callback : path -> M fs (option path)) : M (fs * writer) (option path) :=
  close finalize_callback.

(** ** Where the link of a session leads *)

Fixpoint normalise (seen p : path) : path :=
  match p with
  | [] => reverse seen
  | x :: p => if decide (x = ".."%string) then normalise (drop 1 seen) p
              else if decide (x = "."%string) then normalise seen p
              else normalise (x :: seen) p
  end.
Definition follow (p : path) (f : fs) : option path :=
  match f !! p with
  | Some (Link r) => Some (normalise [] (parent p ++ r))
  | _ => None
  end.

Definition plain (p : path) : Prop := Forall (fun x => x ≠ ".." ∧ x ≠ ".")%string p.
#[export] Instance plain_dec p : Decision (plain p).
Proof. unfold plain. apply _. Defined.

Lemma normalise_plain seen p : plain p -> normalise seen p = reverse seen ++ p.
Proof.
  intros H. revert seen. induction H as [|x p [H1 H2] _ IH]; intros seen; simpl; [by rewrite app_nil_r|].
  rewrite !decide_False by done. rewrite IH, reverse_cons. by rewrite <- app_assoc.
Qed.

Lemma normalise_app seen p q : plain p -> normalise seen (p ++ q) = normalise (reverse p ++ seen) q.
Proof.
  intros H. revert seen. induction H as [|x p [H1 H2] _ IH]; intros seen; simpl; [done|].
  rewrite !decide_False by done. rewrite IH, reverse_cons. by rewrite <- app_assoc.
Qed.

Lemma normalise_up seen n q : normalise seen (replicate n ".."%string ++ q) = normalise (drop n seen) q.
Proof.
  revert seen. induction n as [|n IH]; intros seen; simpl; [by rewrite drop_0|]. rewrite IH, drop_drop. done.
Qed.

Lemma common_take p q : take (common p q) p = take (common p q) q.
Proof.
  revert q. induction p as [|x p IH]; intros [|y q]; simpl; try done. case_decide as E; [|done]. simpl. by rewrite E, IH.
Qed.
Lemma common_le p q : (common p q <= length p)%nat.
Proof. revert q. induction p as [|x p IH]; intros [|y q]; simpl; try lia. case_decide; [|lia]. specialize (IH q). lia. Qed.

(** The relative path of a link leads back to the target. *)
Lemma relpath_follows target start : plain target -> plain start ->
  normalise [] (start ++ relpath target start) = target.
Proof.
  intros Ht Hs. unfold relpath. set (i := common start target).
  assert (E : normalise [] (start ++ replicate (length start - i) ".."%string ++ drop i target) = target).
  { rewrite normalise_app, app_nil_r, normalise_up by done.
    rewrite normalise_plain by (by apply Forall_drop).
    assert (drop (length start - i) (reverse start) = reverse (take i start)) as ->.
    { rewrite <- (take_drop i start) at 2. rewrite reverse_app. apply drop_app_length'.
      rewrite length_reverse, length_drop. done. }
    rewrite reverse_involutive. unfold i. rewrite (common_take start target). apply take_drop. }
  destruct (replicate _ _ ++ drop i target) as [|x p] eqn:Er; [|done].
  rewrite app_nil_r, normalise_plain in E by done. simpl in E. subst target.
  rewrite normalise_app by done. simpl. by rewrite app_nil_r, reverse_involutive.
Qed.

(** ** Buckets and partitions *)

Fixpoint all_from (n : nat) (x : Z) (p : Z -> bool) : bool :=
  match n with
  | O => true
  | S n => p x && all_from n (x + 1) p
  end.
Definition all_below (n : Z) (p : Z -> bool) : bool := all_from (Z.to_nat n) 0 p.
Lemma all_from_spec n lo p x : all_from n lo p = true -> lo <= x < lo + Z.of_nat n -> p x = true.
Proof.
  revert lo. induction n as [|n IH]; intros lo H Hx; [lia|]. simpl in H. apply andb_true_iff in H as [H1 H2].
  destruct (decide (x = lo)) as [->|]; [done|]. apply (IH (lo + 1)); [done|lia].
Qed.
Lemma all_below_spec n p x : all_below n p = true -> 0 <= x < n -> p x = true.
Proof. intros H Hx. apply (all_from_spec _ _ _ _ H). lia. Qed.

Lemma hex2_injective a b : 0 <= a < 256 -> 0 <= b < 256 -> hex2 a = hex2 b -> a = b.
Proof.
  intros Ha Hb E.
  assert (H : all_below 256 (fun a => all_below 256 (fun b => implb (String.eqb (hex2 a) (hex2 b)) (a =? b))) = true)
    by (by vm_compute).
  apply (all_below_spec _ _ a) in H; [|done]. apply (all_below_spec _ _ b) in H; [|done]. cbv beta in H.
  rewrite E, String.eqb_refl in H. simpl in H. lia.
Qed.

Lemma two_injective a b : 0 <= a < 100 -> 0 <= b < 100 -> two a = two b -> a = b.
Proof.
  intros Ha Hb E.
  assert (H : all_below 100 (fun a => all_below 100 (fun b => implb (String.eqb (two a) (two b)) (a =? b))) = true)
    by (by vm_compute).
  apply (all_below_spec _ _ a) in H; [|done]. apply (all_below_spec _ _ b) in H; [|done]. cbv beta in H.
  rewrite E, String.eqb_refl in H. simpl in H. lia.
Qed.

Lemma two_parts {A} (a b c d : A) : [a; b] = [c; d] -> a = c /\ b = d.
Proof. by intros [= -> ->]. Qed.

(** Two sessions share a directory when their last sixteen bits are equal: there
    are 65536 directories at most, for every task and in all. *)
Lemma session_buckets root a b : _session_bucket root a = _session_bucket root b <-> a mod 65536 = b mod 65536.
Proof.
  unfold _session_bucket. rewrite !Z.shiftr_0_r. change 255 with (Z.ones 8). rewrite !Z.land_ones, !Z.shiftr_div_pow2 by lia.
  change (2 ^ 8) with 256. change 65536 with (256 * 256). rewrite !Z.rem_mul_r by lia.
  split.
  - intros E. apply app_inj_1 in E as [_ [E1 E2]%two_parts]; [|done].
    apply hex2_injective in E1; [|apply Z.mod_pos_bound; lia..]. apply hex2_injective in E2; [|apply Z.mod_pos_bound; lia..].
    congruence.
  - intros E. pose proof (Z.mod_pos_bound a 256). pose proof (Z.mod_pos_bound b 256).
    assert (a mod 256 = b mod 256) as -> by lia.
    assert ((a / 256) mod 256 = (b / 256) mod 256) as -> by lia. done.
Qed.

(** The days of a date, the other way around. *)
Definition days_of (y m d : Z) : Z :=
  let y := if bool_decide (m <= 2) then y - 1 else y in
  let yoe := y mod 400 in
  let doy := (153 * (if bool_decide (2 < m) then m - 3 else m + 9) + 2) / 5 + d - 1 in
  y / 400 * 146097 + yoe * 365 + yoe / 4 - yoe / 100 + doy - 719468.

(** The calendar: the date of the day after. *)
Definition next_day (ymd : Z * Z * Z) : Z * Z * Z :=
  let '(y, m, d) := ymd in
  let leap := (y mod 4 =? 0) && (negb (y mod 100 =? 0) || (y mod 400 =? 0)) in
  let last := if m =? 2 then (if leap then 29 else 28)
              else if (m =? 4) || (m =? 6) || (m =? 9) || (m =? 11) then 30 else 31 in
  if d <? last then (y, m, d + 1) else if m <? 12 then (y, m + 1, 1) else (y + 1, 1, 1).

Definition same_date (a b : Z * Z * Z) : bool :=
  let '(y, m, d) := a in let '(y', m', d') := b in (y =? y') && (m =? m') && (d =? d').
Lemma same_date_spec a b : same_date a b = true -> a = b.
Proof.
  destruct a as [[y m] d], b as [[y' m'] d']. unfold same_date. rewrite !andb_true_iff, !Z.eqb_eq.
  by intros [[-> ->] ->].
Qed.

(** From 2000-01-01 to 2099-12-31. *)
Definition century (days : Z) : Prop := 10957 <= days < 47482.

Lemma civil_century days : century days -> let '(y, m, d) := civil days in
  days_of y m d = days /\ 2000 <= y < 2100 /\ 1 <= m <= 12 /\ 1 <= d <= 31 /\ civil (days + 1) = next_day (civil days).
Proof.
  intros Hd.
  assert (H : all_below 36525 (fun i => let '(y, m, d) := civil (i + 10957) in
    (days_of y m d =? i + 10957) && (2000 <=? y) && (y <? 2100) && (1 <=? m) && (m <=? 12) && (1 <=? d) && (d <=? 31) &&
    same_date (civil (i + 10957 + 1)) (next_day (y, m, d))) = true) by (by vm_compute).
  apply (all_below_spec _ _ (days - 10957)) in H; [|unfold century in Hd; lia]. cbv beta in H.
  rewrite Z.sub_add in H. destruct (civil days) as [[y m] d]. rewrite !andb_true_iff in H.
  destruct H as [[[[[[[H1 H2] H3] H4] H5] H6] H7] H8]. apply same_date_spec in H8.
  split; [lia|]; split; [lia|]; split; [lia|]; split; [lia|done].
Qed.

Definition local_day (ts : Z) : Z := (ts / 1000 + 8 * 3600) / 86400.

Lemma four_parts {A} (a b c d a' b' c' d' : A) :
  [a; b; c; d] = [a'; b'; c'; d'] -> a = a' /\ b = b' /\ c = c' /\ d = d'.
Proof. by intros [= -> -> -> ->]. Qed.

(** The date in UTC, a day before at most, is one that [datetime] has. *)
Lemma utc_year days : 10956 <= days < 47482 -> let '(y, _, _) := civil days in 1999 <= y < 2100.
Proof.
  intros Hd. destruct (decide (days = 10956)) as [->|]; [by vm_compute|].
  pose proof (civil_century days) as H. unfold century in H. destruct (civil days) as [[y m] d]. lia.
Qed.

Lemma civil_ranges days : century days -> let '(y, m, d) := civil days in
  2000 <= y < 2100 /\ 0 <= m < 100 /\ 0 <= d < 100.
Proof.
  intros H. apply civil_century in H. destruct (civil days) as [[y m] d]. destruct H as (_ & Hy & Hm & Hd & _). lia.
Qed.

Lemma civil_injective a b : century a -> century b -> civil a = civil b -> a = b.
Proof.
  intros Ha Hb E. apply civil_century in Ha, Hb. rewrite E in Ha. destruct (civil b) as [[y m] d].
  destruct Ha as [<- _], Hb as [<- _]. done.
Qed.

(** The hours since the epoch. *)
Lemma local_hours ts : local_day ts = (ts / 3600000 + 8) / 24 /\
  (ts / 1000 + 8 * 3600) mod 86400 / 3600 = (ts / 3600000 + 8) mod 24.
Proof.
  unfold local_day. change 3600000 with (1000 * 3600). rewrite <- Z.div_div by lia. generalize (ts / 1000). intros s.
  change 86400 with (3600 * 24). rewrite <- Z.div_div, Z.div_add, Z.rem_mul_r, Z.div_add by lia. split; [done|].
  rewrite (Z.add_comm _ (3600 * _)), (Z.mul_comm 3600), Z.div_add_l, (Z.div_small (_ mod _)) by (lia || (apply Z.mod_pos_bound; lia)).
  lia.
Qed.

Lemma partition_path root ts : century (local_day ts) -> let '(y, m, d) := civil (local_day ts) in
  _time_partition_path root ts = Ok (root ++ [two (y mod 100); two m; two d; two ((ts / 3600000 + 8) mod 24)]).
Proof.
  intros H. unfold _time_partition_path. fold (local_day ts). rewrite (proj2 (local_hours ts)).
  assert (Hu : 10956 <= ts / 1000 / 86400 < 47482).
  { unfold century, local_day in H. revert H. generalize (ts / 1000). intros s H.
    Z.to_euclidean_division_equations; lia. }
  apply utc_year in Hu. apply civil_ranges in H.
  destruct (civil (ts / 1000 / 86400)) as [[y0 m0] d0]. destruct (civil (local_day ts)) as [[y m] d].
  rewrite (bool_decide_true (1 <= y0 <= 9999)) by lia. by rewrite bool_decide_true by lia.
Qed.

(** Within this century two traces are in one partition when they are of one
    hour. *)
Lemma time_partitions root ts1 ts2 : century (local_day ts1) -> century (local_day ts2) ->
  exists p1 p2, _time_partition_path root ts1 = Ok p1 /\ _time_partition_path root ts2 = Ok p2 /\
    (p1 = p2 <-> ts1 / 3600000 = ts2 / 3600000).
Proof.
  intros H1 H2. pose proof (partition_path root _ H1) as E1. pose proof (partition_path root _ H2) as E2.
  pose proof (civil_ranges _ H1) as C1. pose proof (civil_ranges _ H2) as C2.
  pose proof (civil_injective _ _ H1 H2) as Hinj.
  pose proof (proj1 (local_hours ts1)) as L1. pose proof (proj1 (local_hours ts2)) as L2.
  assert (Hback : ts1 / 3600000 = ts2 / 3600000 -> local_day ts1 = local_day ts2) by congruence.
  destruct (civil (local_day ts1)) as [[y1 m1] d1] eqn:D1. destruct (civil (local_day ts2)) as [[y2 m2] d2] eqn:D2.
  do 2 eexists. split; [exact E1|]. split; [exact E2|]. clear E1 E2 H1 H2.
  split; [|intros E; rewrite (Hback E), D2 in D1; injection D1 as -> -> ->; by rewrite E].
  clear Hback D1 D2.
  generalize dependent (local_day ts1). generalize dependent (local_day ts2). intros n2 L2 n1 Hinj L1.
  generalize dependent (ts1 / 3600000). generalize dependent (ts2 / 3600000). intros h2 L2 h1 L1 E.
  apply app_inj_1 in E as [_ (Ey & Em & Ed & Et)%four_parts]; [|done].
  assert (Hc : forall y, 2000 <= y < 2100 -> y mod 100 = y - 2000) by (intros; Z.to_euclidean_division_equations; lia).
  rewrite !Hc in Ey by lia.
  apply two_injective in Ey; [|lia..]. apply two_injective in Em; [|lia..]. apply two_injective in Ed; [|lia..].
  pose proof (Z.mod_pos_bound (h1 + 8) 24). pose proof (Z.mod_pos_bound (h2 + 8) 24).
  apply two_injective in Et; [|lia..]. assert (y1 = y2) by lia. subst y2 m2 d2. specialize (Hinj eq_refl).
  pose proof (Z.div_mod (h1 + 8) 24). pose proof (Z.div_mod (h2 + 8) 24). lia.
Qed.

(** ** A trace that is saved *)

Section saved.
Context (device : path -> nat).

Lemma partial_app d x : partial (d ++ [x]) = d ++ [x +:+ ".partial"].
Proof. unfold partial, basename. by rewrite parent_app, last_snoc. Qed.

Lemma replace_file src dst f d : device src = device dst -> f !! src = Some (File d) -> f !! parent dst = Some Dir ->
  f !! dst = None -> replace device src dst f = (<[dst := File d]> (delete src f), Ok tt).
Proof.
  intros Hd H1 H2 H3. unfold replace. rewrite bool_decide_true by done. cbn [negb].
  unfold mbind at 1, M_bind at 1, get. rewrite H1. erewrite M_bind_run; [|by apply in_directory_ok]. by rewrite H3.
Qed.
Lemma replace_dir src dst f : device src = device dst -> f !! src = Some Dir -> f !! parent dst = Some Dir ->
  f !! dst = None -> replace device src dst f = (graft dst (tree src f) (prune src f), Ok tt).
Proof.
  intros Hd H1 H2 H3. unfold replace. rewrite bool_decide_true by done. cbn [negb].
  unfold mbind at 1, M_bind at 1, get. rewrite H1. erewrite M_bind_run; [|by apply in_directory_ok]. by rewrite H3.
Qed.
Lemma replace_other_device src dst f : device src ≠ device dst -> replace device src dst f = (f, Raise OSError).
Proof. intros Hd. unfold replace. by rewrite bool_decide_false. Qed.

Lemma or_OSError_ok {A} (m h : M fs A) f f' a : m f = (f', Ok a) -> or_OSError m h f = (f', Ok a).
Proof. intros E. unfold or_OSError, try_except. by rewrite E. Qed.
Lemma or_OSError_raise {A} (m h : M fs A) f f' : m f = (f', Raise OSError) -> or_OSError m h f = h f'.
Proof. intros E. unfold or_OSError, try_except. by rewrite E. Qed.

Lemma not_partial x : x ≠ (x +:+ ".partial")%string.
Proof. induction x as [|c x IH]; [done|]. by intros [= E]. Qed.

(** A file moves to a free place of a directory of one device. *)
Lemma atomic_move_spec src dir x d f : f !! src = Some (File d) -> f !! dir = Some Dir ->
  f !! (dir ++ [x]) = None -> f !! partial (dir ++ [x]) = None -> device (partial (dir ++ [x])) = device (dir ++ [x]) ->
  exists f', _atomic_move device src (dir ++ [x]) f = (f', Ok tt) /\ f' !! (dir ++ [x]) = Some (File d) /\
    forall q, q ≠ src -> q ≠ dir ++ [x] -> f' !! q = f !! q.
Proof.
  intros H1 H2 H3 H4 Hd. unfold _atomic_move. destruct (decide (device src = device (dir ++ [x]))) as [E|E].
  - eexists. split; [apply or_OSError_ok, replace_file; [done|done|by rewrite parent_app|done]|].
    split; [apply lookup_insert_eq|]. intros q Hq Hq'. by rewrite lookup_insert_ne, lookup_delete_ne.
  - erewrite or_OSError_raise by (by apply replace_other_device).
    rewrite partial_app in *. set (p := dir ++ [(x +:+ ".partial")%string]) in *.
    assert (Hp : dir ++ [x] ≠ p) by (intros [_ E']%app_inj_1; [|done]; apply (not_partial x); congruence).
    assert (Hc : copy2 src p f = (<[p := File d]> f, Ok tt)).
    { unfold copy2. unfold mbind, M_bind, get. rewrite H1, H4. apply write_file_ok; [|done]. unfold p. by rewrite parent_app. }
    erewrite M_bind_run; [|exact Hc].
    assert (Hdir : dir ≠ p) by (intros E'; apply (f_equal length) in E'; unfold p in E'; rewrite length_app in E'; simpl in E'; lia).
    eexists. split; [apply replace_file; [done|apply lookup_insert_eq|rewrite parent_app; by rewrite lookup_insert_ne|by rewrite lookup_insert_ne]|].
    split; [apply lookup_insert_eq|]. intros q Hq Hq'. rewrite lookup_insert_ne by done.
    destruct (decide (p = q)) as [<-|]; [by rewrite lookup_delete_eq|]. by rewrite lookup_delete_ne, lookup_insert_ne.
Qed.

Lemma zip_dir_spec src dir x f : f !! dir = Some Dir ->
  f !! (dir ++ [x]) = None -> f !! partial (dir ++ [x]) = None -> device (partial (dir ++ [x])) = device (dir ++ [x]) ->
  exists f', _zip_dir device src (dir ++ [x]) f = (f', Ok tt) /\
    f' !! (dir ++ [x]) = Some (File (Archive (sorted_files (files_below src f)))) /\
    forall q, q ≠ dir ++ [x] -> f' !! q = f !! q.
Proof.
  intros H2 H3 H4 Hd. unfold _zip_dir. unfold mbind at 1, M_bind at 1, get. rewrite partial_app in *.
  set (p := dir ++ [(x +:+ ".partial")%string]) in *.
  assert (Hp : dir ++ [x] ≠ p) by (intros [_ E']%app_inj_1; [|done]; apply (not_partial x); congruence).
  assert (Hdir : dir ≠ p) by (intros E'; apply (f_equal length) in E'; unfold p in E'; rewrite length_app in E'; simpl in E'; lia).
  erewrite M_bind_run; [|apply write_file_ok; [unfold p; by rewrite parent_app|done]].
  eexists. split; [apply replace_file; [done|apply lookup_insert_eq|rewrite parent_app; by rewrite lookup_insert_ne|by rewrite lookup_insert_ne]|].
  split; [apply lookup_insert_eq|]. intros q Hq. rewrite lookup_insert_ne by done.
  destruct (decide (p = q)) as [<-|]; [by rewrite lookup_delete_eq|]. by rewrite lookup_delete_ne, lookup_insert_ne.
Qed.

(** The tree at [src] is at [p], and no longer at [src]. *)
Definition moved (src p : path) (f g : fs) : Prop :=
  forall q, g !! q = if decide (p `prefix_of` q) then f !! (src ++ drop (length p) q)
                     else if decide (src `prefix_of` q) then None else f !! q.

Lemma renamed_moved src p f : (forall r, f !! (p ++ r) = None) -> moved src p f (graft p (tree src f) (prune src f)).
Proof.
  intros Hn q. rewrite graft_lookup.
  - case_decide; [done|]. apply prune_lookup.
  - intros r _. rewrite prune_lookup. by case_decide.
Qed.

Lemma sibling_prefix (d q : path) x y : x ≠ y -> d ++ [x] `prefix_of` q -> ~ d ++ [y] `prefix_of` q.
Proof. intros Hne [r ->] [r' E]. rewrite <- !app_assoc in E. apply app_inj_1 in E as [_ [= E _]]; done. Qed.

(** By a copy under another name. *)
Lemma copied_moved src dir x f f1 : let final := dir ++ [x] in let p := partial final in
  f !! src = Some Dir -> directories f dir -> ~ src `prefix_of` final -> ~ dir `prefix_of` src ->
  (forall r, f !! (final ++ r) = None) -> (forall r, f !! (p ++ r) = None) -> made p f f1 ->
  let f2 := graft p (tree src f) f1 in
  f2 !! p = Some Dir /\ f2 !! dir = f !! dir /\ f2 !! final = None /\
  moved src final f (prune src (graft final (tree p f2) (prune p f2))).
Proof.
  intros final p Hsrc Hdir Hns Hnd Hf Hp Hm f2. unfold p in *. unfold final in *. rewrite partial_app in *. clear p final.
  assert (Hne : x ≠ (x +:+ ".partial")%string) by apply not_partial.
  assert (H2 : forall q, f2 !! q = if decide (dir ++ [(x +:+ ".partial")%string] `prefix_of` q)
      then f !! (src ++ drop (length (dir ++ [(x +:+ ".partial")%string])) q) else f !! q).
  { intros q. unfold f2. rewrite partial_app, graft_lookup.
    - case_decide as H; [done|]. rewrite Hm. case_decide as Hqq; [|done]. destruct Hqq as [Hq Hq']. apply prefix_snoc in Hq' as [->|Hq']; [done|].
      symmetry. by apply Hdir.
    - intros [|y r] Hr; [by rewrite app_nil_r, Hsrc in Hr|]. rewrite Hm, decide_False; [apply Hp|].
      intros [_ H]. apply prefix_length in H. rewrite !length_app in H. simpl in H. lia. }
  split; [|split; [|split]].
  - rewrite H2, decide_True by done. by rewrite drop_all, app_nil_r.
  - rewrite H2, decide_False; [done|]. intros H%prefix_length. rewrite length_app in H. simpl in H. lia.
  - rewrite H2, decide_False by (by apply (sibling_prefix dir _ x)). specialize (Hf []). by rewrite app_nil_r in Hf.
  - intros q. rewrite prune_lookup, graft_lookup.
    + destruct (decide (dir ++ [x] `prefix_of` q)) as [Hq|Hq].
      * rewrite decide_False.
        { rewrite H2, decide_True by (by apply prefix_app_r). by rewrite drop_app_length. }
        intros Hs. destruct (prefix_weak_total _ _ _ Hq Hs) as [H|H]; [|done].
        apply Hnd. etransitivity; [by apply prefix_app_r|done].
      * destruct (decide (src `prefix_of` q)); [done|]. rewrite prune_lookup. case_decide as H.
        { destruct H as [r ->]. by rewrite Hp. }
        by rewrite H2, decide_False.
    + intros r _. rewrite prune_lookup. case_decide; [done|]. rewrite H2, decide_False by done. apply Hf.
Qed.
Lemma copy_then_rename_spec src dir x f : let final := dir ++ [x] in let p := partial final in
  dir ≠ [] -> f !! src = Some Dir -> directories f dir -> ~ src `prefix_of` final -> ~ dir `prefix_of` src ->
  (forall r, f !! (final ++ r) = None) -> (forall r, f !! (p ++ r) = None) -> device p = device final ->
  exists g, copy_then_rename device src final f = (g, Ok tt) /\ moved src final f g.
Proof.
  intros final p Hd0 Hsrc Hdir Hns Hnd Hf Hp Hdev. unfold copy_then_rename. fold p.
  pose proof (Hp []) as Hp0. rewrite app_nil_r in Hp0. rewrite bind_modify, Hp0, delete_id by done.
  assert (Hfree : free f p).
  { intros i Hi. unfold p, final in *. rewrite partial_app in *. destruct (decide (i <= length dir)%nat) as [Hl|Hl].
    - right. apply Hdir; [intros E; apply (f_equal length) in E; rewrite length_take in E; simpl in E; lia|].
      rewrite take_app_le by done. exists (drop i dir). by rewrite take_drop.
    - left. rewrite take_ge; [done|]. rewrite length_app. simpl. lia. }
  destruct (mkdirs_spec p f Hfree) as (f1 & E1 & Hm).
  destruct (copied_moved src dir x f f1 Hsrc Hdir Hns Hnd Hf Hp Hm) as (C1 & C2 & C3 & C4).
  assert (Hc : copytree src p f = (graft p (tree src f) f1, Ok tt)).
  { unfold copytree. unfold mbind at 1, M_bind at 1, get. rewrite Hp0. by erewrite M_bind_run by exact E1. }
  erewrite M_bind_run by exact Hc. erewrite M_bind_run.
  - by eexists.
  - apply replace_dir; [done|done| |done]. unfold final. rewrite parent_app. rewrite C2. by apply Hdir.
Qed.

Lemma move_dir_spec src dir x f : let final := dir ++ [x] in
  dir ≠ [] -> src ≠ [] -> directories f src -> directories f dir -> ~ src `prefix_of` final -> ~ dir `prefix_of` src ->
  (forall r, f !! (final ++ r) = None) -> (forall r, f !! (partial final ++ r) = None) ->
  device (partial final) = device final ->
  exists f', _move_dir device src final f = (f', Ok tt) /\ (forall r, f' !! (final ++ r) = f !! (src ++ r)) /\
    forall q, ~ src `prefix_of` q -> ~ final `prefix_of` q -> f' !! q = f !! q.
Proof.
  intros final Hd0 Hs0 Hsrc Hdir Hns Hnd Hf Hp Hdev. unfold _move_dir.
  erewrite M_bind_run; [|unfold final; rewrite parent_app; by apply directories_mkdirs].
  pose proof (Hsrc src Hs0 ltac:(done)) as Hsd. pose proof (Hf []) as Hf0. rewrite app_nil_r in Hf0.
  assert (exists g, or_OSError (replace device src final) (copy_then_rename device src final) f = (g, Ok tt) /\ moved src final f g)
    as (g & Eg & Hg).
  { destruct (decide (device src = device final)) as [E|E].
    - eexists. split; [apply or_OSError_ok, replace_dir; [done|done| |done]|by apply renamed_moved].
      unfold final. rewrite parent_app. by apply Hdir.
    - erewrite or_OSError_raise by (by apply replace_other_device). by apply copy_then_rename_spec. }
  assert (Hfin : forall q, final `prefix_of` q -> ~ q `prefix_of` src).
  { intros q Hq Hqs. apply Hnd. etransitivity; [|exact Hqs]. etransitivity; [|exact Hq]. by apply prefix_app_r. }
  assert (Hfree : free g src).
  { intros i Hi. assert (Hi' : take i src `prefix_of` src) by (exists (drop i src); by rewrite take_drop).
    rewrite Hg, decide_False by (intros H; by apply (Hfin _ H)). case_decide; [by left|]. right. apply Hsrc; [|done].
    intros E. apply (f_equal length) in E. rewrite length_take in E. simpl in E. lia. }
  destruct (mkdirs_spec src g Hfree) as (f' & E' & Hm). exists f'. split; [|split].
  - unfold finally. rewrite Eg. unfold try_except. by rewrite E'.
  - intros r. rewrite Hm, decide_False by (intros [_ H]; by apply (Hfin (final ++ r)); [apply prefix_app_r|]).
    rewrite Hg, decide_True by (by apply prefix_app_r). by rewrite drop_app_length.
  - intros q H1 H2. rewrite Hm. case_decide as H; [destruct H; symmetry; by apply Hsrc|]. by rewrite Hg, !decide_False by done.
Qed.
End saved.

(** ** Where the parts of the store are *)

(** Names that are one part of a path. *)
Definition simple (n : string) : Prop := forall p, slash p n = p ++ [n].

Lemma simple_name n : "/"%char ∉ chars n -> n ≠ ""%string -> n ≠ "."%string -> simple n.
Proof.
  intros Hn H1 H2 p. assert (Hp : parts n = [n]).
  { unfold parts, split_on. rewrite split_chars_none by done. cbn [fmap list_fmap].
    replace (of_chars (chars n)) with n by (symmetry; apply String.string_of_list_ascii_of_string).
    by rewrite filter_cons, decide_True. }
  unfold slash. destruct n as [|c n]; [done|].
  assert (c ≠ "/"%char) by (intros ->; apply Hn; left).
  destruct c as [[] [] [] [] [] [] [] []]; try (by rewrite Hp); done.
Qed.

Lemma session_link_simple id : 0 <= id -> simple ("session_" +:+ str_Z id).
Proof.
  intros Hid. apply simple_name; [|done|done]. rewrite chars_app, elem_of_app. intros [H|H].
  - by vm_compute in H; repeat (apply elem_of_cons in H as [H|H]; [done|]); apply elem_of_nil in H.
  - destruct (str_Z_chars id Hid) as (l & Hl & Hd & _ & _). rewrite Hl in H. rewrite Forall_forall in Hd. by apply Hd in H.
Qed.

Lemma prefix_apart (p a b r1 r2 : path) x y : a = p ++ x :: r1 -> b = p ++ y :: r2 -> x ≠ y ->
  forall q, a `prefix_of` q -> ~ q `prefix_of` b.
Proof.
  intros -> -> Hne q H1 H2. assert (H : p ++ x :: r1 `prefix_of` p ++ y :: r2) by (by etransitivity).
  destruct H as [r E]. rewrite <- app_assoc in E. apply app_inj_1 in E as [_ [= E _]]; done.
Qed.

(** A path beside the root is beside everything below it. *)
Lemma beside_root (root tmp r q : path) : ~ root `prefix_of` tmp -> ~ tmp `prefix_of` root ->
  tmp `prefix_of` q -> ~ q `prefix_of` root ++ r /\ ~ root ++ r `prefix_of` q.
Proof.
  intros H1 H2 Hq. split; intros H.
  - destruct (prefix_weak_total root tmp (root ++ r)) as [E|E]; [by apply prefix_app_r|by etransitivity|done|done].
  - destruct (prefix_weak_total root tmp q) as [E|E]; [etransitivity; [by apply prefix_app_r|done]|done|done|done].
Qed.

Section finalize.
Context (device : path -> nat) (rival : path -> fs -> fs).
(** Another process at most puts a link of its own where one is made. *)
Context (rival_ok : forall l f, rival l f = f \/ exists r, rival l f = <[l := Link r]> f).

(** A link is made where no directory is. *)
Lemma create_link_spec dl n target f : dl ≠ [] -> free f dl -> f !! (dl ++ [n]) ≠ Some Dir ->
  exists f', _create_link rival (dl ++ [n]) target f = (f', Ok tt) /\
    f' !! (dl ++ [n]) = Some (Link (relpath target dl)) /\
    forall q, q ≠ dl ++ [n] -> f' !! q = if decide (q ≠ [] /\ q `prefix_of` dl) then Some Dir else f !! q.
Proof.
  intros Hd Hf Hl. unfold _create_link. rewrite parent_app. destruct (mkdirs_spec dl f Hf) as (f1 & E1 & Hm).
  erewrite M_bind_run by exact E1. set (l := dl ++ [n]) in *.
  assert (Hdl : dl ≠ l) by (intros E; apply (f_equal length) in E; unfold l in E; rewrite length_app in E; simpl in E; lia).
  assert (H1 : f1 !! l ≠ Some Dir).
  { rewrite Hm, decide_False; [done|]. intros [_ H%prefix_length]. unfold l in H. rewrite length_app in H. simpl in H. lia. }
  assert (Hdir : f1 !! dl = Some Dir) by (by rewrite Hm, decide_True).
  assert (Hun : (match f1 !! l with Some _ => unlink l | None => mret tt end) f1 = (delete l f1, Ok tt)).
  { destruct (f1 !! l) as [[| |r]|] eqn:El; try done; [..|by rewrite delete_id];
      unfold unlink; by rewrite bind_gets, El. }
  assert (Hsym : forall g, g !! dl = Some Dir -> g !! l = None ->
    symlink_to l (relpath target dl) g = (<[l := Link (relpath target dl)]> g, Ok tt)).
  { intros g Hg Hg'. unfold symlink_to. erewrite M_bind_run; [|apply in_directory_ok; unfold l; by rewrite parent_app].
    by rewrite bind_gets, Hg'. }
  assert (Hend : forall q, q ≠ l -> (<[l := Link (relpath target dl)]> (delete l f1)) !! q
     = if decide (q ≠ [] /\ q `prefix_of` dl) then Some Dir else f !! q).
  { intros q Hq. rewrite lookup_insert_ne, lookup_delete_ne by done. apply Hm. }
  exists (<[l := Link (relpath target dl)]> (delete l f1)).
  split; [|split; [apply lookup_insert_eq|done]]. unfold try_except.
  rewrite bind_gets. erewrite M_bind_run by exact Hun. rewrite bind_modify.
  destruct (rival_ok l (delete l f1)) as [->|[r ->]].
  - rewrite Hsym; [done|by rewrite lookup_delete_ne|apply lookup_delete_eq].
  - assert (Hex : symlink_to l (relpath target dl) (<[l := Link r]> (delete l f1)) = (<[l := Link r]> (delete l f1), Raise FileExistsError)).
    { unfold symlink_to. erewrite M_bind_run; [|apply in_directory_ok; unfold l; rewrite parent_app; by rewrite lookup_insert_ne, lookup_delete_ne].
      by rewrite bind_gets, lookup_insert_eq. }
    rewrite Hex. erewrite M_bind_run; [|unfold unlink; by rewrite bind_gets, lookup_insert_eq].
    rewrite delete_insert_eq, Hsym; [by rewrite delete_delete_eq|by rewrite !lookup_delete_ne|apply lookup_delete_eq].
Qed.
Lemma files_below_elem p f q d : (q, d) ∈ files_below p f <-> q ≠ [] /\ f !! (p ++ q) = Some (File d).
Proof.
  unfold files_below. rewrite list_elem_of_omap. split.
  - intros ([r n] & H & E). apply tree_elem in H. destruct r as [|y r]; [done|].
    destruct n as [d'| |]; try done. injection E as <- <-. by split.
  - intros [Hq H]. exists (q, File d). rewrite tree_elem. split; [done|]. by destruct q.
Qed.

Lemma sorted_files_elem l x : x ∈ sorted_files l <-> x ∈ l.
Proof.
  assert (Hi : forall y k, insert_file y k ≡ₚ y :: k).
  { intros y k. induction k as [|z k IH]; simpl; [done|]. destruct (path_le _ _); [done|]. rewrite IH. constructor. }
  assert (Hp : sorted_files l ≡ₚ l) by (induction l as [|y l IH]; simpl; [done|by rewrite Hi, IH]).
  by rewrite Hp.
Qed.

Lemma only_top_file_some p f x : only_top_file p f = Some x -> exists d, f !! (p ++ [x]) = Some (File d).
Proof.
  unfold only_top_file. destruct (files_below p f) as [|? [|]]; try done.
  destruct (children p f) as [|[[|y [|]] [d| |]] [|]] eqn:E; try done. intros [= ->].
  exists d. apply tree_elem. assert (H : ([x], File d) ∈ children p f) by (rewrite E; left).
  by apply list_elem_of_filter in H as [_ H].
Qed.

(** The name a trace gets, and what is found there. *)
Definition final_name (t : trace) (tmp : path) (single : option string) : string :=
  match single with
  | Some x => file_base t +:+ (if bool_decide (suffix (tmp ++ [x]) = "") then ".bin" else suffix (tmp ++ [x]))
  | None => if disable_compression t then file_base t else file_base t +:+ ".zip"
  end.
Definition stored (t : trace) (tmp final : path) (f f' : fs) : Prop :=
  match only_top_file tmp f with
  | Some x => exists d, f !! (tmp ++ [x]) = Some (File d) /\ f' !! final = Some (File d)
  | None =>
      if disable_compression t then forall r, f' !! (final ++ r) = f !! (tmp ++ r)
      else exists l, f' !! final = Some (File (Archive l)) /\
             forall q d, (q, d) ∈ l <-> q ≠ [] /\ f !! (tmp ++ q) = Some (File d)
  end.

(** A place for a trace: nothing is in the way. *)
Record place (t : trace) (tmp final : path) (f : fs) : Prop := {
  p_dir : dir_by_time t ≠ [];
  p_free : free f (dir_by_time t);
  p_tmp : tmp ≠ [] /\ directories f tmp;
  p_outside : ~ tmp `prefix_of` final /\ ~ dir_by_time t `prefix_of` tmp;
  p_new : forall r, f !! (final ++ r) = None /\ f !! (partial final ++ r) = None;
  p_device : device (partial final) = device final
}.

Lemma place_made t tmp x f f1 : place t tmp (dir_by_time t ++ [x]) f -> made (dir_by_time t) f f1 ->
  place t tmp (dir_by_time t ++ [x]) f1 /\ directories f1 (dir_by_time t) /\ forall r, f1 !! (tmp ++ r) = f !! (tmp ++ r).
Proof.
  intros [H1 H2 [H3 H4] [H5 H6] H7 H8] Hm.
  assert (Hbelow : forall y r, f1 !! (dir_by_time t ++ [y] ++ r) = f !! (dir_by_time t ++ [y] ++ r)).
  { intros y r. rewrite Hm, decide_False; [done|]. intros [_ H%prefix_length]. rewrite !length_app in H. simpl in H. lia. }
  assert (Hd : directories f1 (dir_by_time t)) by (intros q Hq Hp; by rewrite Hm, decide_True).
  split; [|split; [done|]].
  - split; [done|by apply directories_free| |done| |done].
    + split; [done|]. intros q Hq Hp. rewrite Hm. case_decide; [done|]. by apply H4.
    + rewrite partial_app in *. intros r. destruct (H7 r) as [Ha Hb]. rewrite <- !app_assoc in *. by rewrite !Hbelow.
  - intros r. rewrite Hm, decide_False; [done|]. intros [_ H]. apply H5.
    transitivity (tmp ++ r); [by apply prefix_app_r|]. transitivity (dir_by_time t); [done|by apply prefix_app_r].
Qed.
Lemma save_spec t tmp f : let x := final_name t tmp (only_top_file tmp f) in let final := dir_by_time t ++ [x] in
  simple x -> place t tmp final f ->
  exists f', save device t tmp (only_top_file tmp f) f = (f', Ok final) /\ stored t tmp final f f' /\
    forall q, ~ tmp `prefix_of` q -> ~ final `prefix_of` q ->
      f' !! q = if decide (q ≠ [] /\ q `prefix_of` dir_by_time t) then Some Dir else f !! q.
Proof.
  intros x final Hx Hp. unfold save. destruct (mkdirs_spec _ _ (p_free _ _ _ _ Hp)) as (f1 & E1 & Hm).
  destruct (place_made _ _ _ _ _ Hp Hm) as ([H1 H2 [H3 H4] [H5 H6] H7 H8] & Hd & Ht). fold final in H5, H7, H8.
  erewrite M_bind_run by exact E1.
  assert (Hnew : f1 !! final = None /\ f1 !! partial final = None).
  { destruct (H7 []) as [Ha Hb]. by rewrite !app_nil_r in *. }
  assert (Hdir : f1 !! dir_by_time t = Some Dir) by (by apply Hd).
  assert (Hrest : forall f' : fs, (forall q, ~ tmp `prefix_of` q -> ~ final `prefix_of` q -> f' !! q = f1 !! q) ->
    forall q, ~ tmp `prefix_of` q -> ~ final `prefix_of` q ->
      f' !! q = if decide (q ≠ [] /\ q `prefix_of` dir_by_time t) then Some Dir else f !! q).
  { intros f' H q Hq Hq'. rewrite H by done. apply Hm. }
  unfold stored, x, final_name in *. destruct (only_top_file tmp f) as [y|] eqn:Ey; [|destruct (disable_compression t) eqn:Ed].
  - destruct (only_top_file_some _ _ _ Ey) as [d Hyd].
    rewrite Hx. destruct (atomic_move_spec device (tmp ++ [y]) (dir_by_time t)
      (file_base t +:+ (if bool_decide (suffix (tmp ++ [y]) = "") then ".bin" else suffix (tmp ++ [y]))) d f1) as (f' & E & S1 & S2).
    { by rewrite Ht. } { exact Hdir. } { apply Hnew. } { apply Hnew. } { exact H8. }
    erewrite M_bind_run by exact E. eexists. split; [done|]. split; [by exists d|].
    apply Hrest. intros q Hq Hq'. apply S2; [intros ->; apply Hq; by apply prefix_app_r|by intros ->].
  - rewrite Hx. destruct (move_dir_spec device tmp (dir_by_time t) (file_base t) f1) as (f' & E & S1 & S2); try done.
    { intros r. apply H7. } { intros r. apply H7. }
    erewrite M_bind_run by exact E. eexists. split; [done|]. split; [intros r; by rewrite S1, Ht|by apply Hrest].
  - rewrite Hx. destruct (zip_dir_spec device tmp (dir_by_time t) (file_base t +:+ ".zip") f1) as (f' & E & S1 & S2).
    { exact Hdir. } { apply Hnew. } { apply Hnew. } { exact H8. }
    erewrite M_bind_run by exact E. eexists. split; [done|]. split.
    + eexists. split; [exact S1|]. intros q d. rewrite sorted_files_elem, files_below_elem, Ht. done.
    + apply Hrest. intros q _ Hq'. apply S2. by intros ->.
Qed.

Lemma stored_ext t tmp final f f1 f2 : (forall q, final `prefix_of` q -> f2 !! q = f1 !! q) ->
  stored t tmp final f f1 -> stored t tmp final f f2.
Proof.
  intros H. unfold stored. destruct (only_top_file tmp f); [|destruct (disable_compression t)].
  - by rewrite (H final).
  - intros Hs r. rewrite H by (by apply prefix_app_r). apply Hs.
  - by rewrite (H final).
Qed.

(** The directories of the two links of a session. *)
Definition task_bucket (root : path) (t : trace) : path :=
  root ++ "by-task"%string :: task_index t :: _session_bucket [] (session_id t).
Definition session_bucket (root : path) (t : trace) : path :=
  root ++ "by-session"%string :: _session_bucket [] (session_id t).
Definition link_name (t : trace) : string := "session_" +:+ str_Z (session_id t).

(** The store is where it says, a trace is of its place by time, nothing is in
    the way, and the temporary directory is elsewhere. *)
Record ready (root : path) (t : trace) (tmp : path) (f : fs) : Prop := {
  r_hour : exists hs, dir_by_time t = root ++ "by-time"%string :: hs;
  r_apart : ~ root `prefix_of` tmp /\ ~ tmp `prefix_of` root;
  r_names : simple (task_index t) /\ simple (final_name t tmp (only_top_file tmp f)) /\ 0 <= session_id t;
  r_place : place t tmp (dir_by_time t ++ [final_name t tmp (only_top_file tmp f)]) f;
  r_task : free f (task_bucket root t) /\ f !! (task_bucket root t ++ [link_name t]) ≠ Some Dir;
  r_session : free f (session_bucket root t) /\ f !! (session_bucket root t ++ [link_name t]) ≠ Some Dir;
  r_plain : plain (dir_by_time t ++ [final_name t tmp (only_top_file tmp f)]) /\
            plain (task_bucket root t) /\ plain (session_bucket root t)
}.

(** What is changed between two states, but for one link and directories on the
    way to it. *)
Definition linked (dl : path) (n : string) (f f' : fs) : Prop :=
  forall q, q ≠ dl ++ [n] -> f' !! q = if decide (q ≠ [] /\ q `prefix_of` dl) then Some Dir else f !! q.

Lemma linked_free dl n f f' p : linked dl n f f' -> ~ dl ++ [n] `prefix_of` p -> free f p -> free f' p.
Proof.
  intros Hl Hp Hf i Hi. rewrite Hl by (intros E; apply Hp; exists (drop i p); by rewrite <- E, take_drop).
  case_decide; [by right|]. by apply Hf.
Qed.
Lemma linked_other dl n f f' q : linked dl n f f' -> ~ q `prefix_of` dl ++ [n] -> f' !! q = f !! q.
Proof.
  intros Hl Hq. rewrite Hl by (by intros ->). rewrite decide_False; [done|]. intros [_ H]. apply Hq. by apply prefix_app_r.
Qed.

Lemma saved_free root t tmp f f1 final p r : ~ root `prefix_of` tmp -> ~ tmp `prefix_of` root ->
  (forall q, ~ tmp `prefix_of` q -> ~ final `prefix_of` q ->
     f1 !! q = if decide (q ≠ [] /\ q `prefix_of` dir_by_time t) then Some Dir else f !! q) ->
  p = root ++ r -> ~ final `prefix_of` p -> free f p -> free f1 p.
Proof.
  intros Ha Hb Hs Hp Hn Hf i Hi. assert (Hq : take i p `prefix_of` p) by (exists (drop i p); by rewrite take_drop).
  rewrite Hs.
  - case_decide; [by right|]. by apply Hf.
  - intros H. destruct (beside_root root tmp r _ Ha Hb H) as [H' _]. by rewrite <- Hp in H'.
  - intros H. apply Hn. by etransitivity.
Qed.

Lemma link_paths root t : simple (task_index t) -> 0 <= session_id t ->
  let s := {| root := root; by_time := slash root "by-time"; by_session := slash root "by-session";
              by_task := slash root "by-task" |} in
  slash (_session_bucket (slash (by_task s) (task_index t)) (session_id t)) ("session_" +:+ str_Z (session_id t))
    = task_bucket root t ++ [link_name t] /\
  slash (_session_bucket (by_session s) (session_id t)) ("session_" +:+ str_Z (session_id t))
    = session_bucket root t ++ [link_name t].
Proof.
  intros H1 H2 s. subst s. cbn [by_task by_session]. rewrite H1, !(session_link_simple (session_id t) H2). unfold task_bucket, session_bucket, _session_bucket.
  change (slash root "by-task") with (root ++ ["by-task"%string]).
  change (slash root "by-session") with (root ++ ["by-session"%string]). by rewrite <- !app_assoc.
Qed.

(** Links lead to the final path. *)
Lemma follow_link dl n target f : f !! (dl ++ [n]) = Some (Link (relpath target dl)) -> plain target -> plain dl ->
  follow (dl ++ [n]) f = Some target.
Proof. intros H Ht Hd. unfold follow. rewrite H, parent_app. f_equal. by apply relpath_follows. Qed.

(** Outside the store only directories on the way to it are made. *)
Lemma store_part (root r q : path) : root ++ r `prefix_of` q -> root `prefix_of` q.
Proof. intros H. etransitivity; [by apply prefix_app_r|done]. Qed.
Lemma outside_prefix (root r q : path) : ~ root `prefix_of` q -> (q ≠ [] /\ q `prefix_of` root ++ r) <-> (q ≠ [] /\ q `prefix_of` root).
Proof.
  intros Hq. split; intros [Hn H]; (split; [done|]).
  - destruct (prefix_weak_total root q (root ++ r)) as [E|E]; [by apply prefix_app_r|done|done|done].
  - by apply prefix_app_r.
Qed.
Lemma outside_store (root dl r : path) n f f' q : dl = root ++ r -> linked dl n f f' -> ~ root `prefix_of` q ->
  f' !! q = if decide (q ≠ [] /\ q `prefix_of` root) then Some Dir else f !! q.
Proof.
  intros -> Hl Hq. rewrite Hl.
  - rewrite (decide_ext _ _ _ _ (outside_prefix root r q Hq)). done.
  - intros ->. apply Hq. rewrite <- app_assoc. by apply prefix_app_r.
Qed.

(** What saving does, and that it leaves everything else alone. *)
Lemma finalize_spec root t tmp f :
  ready root t tmp f -> files_below tmp f ≠ [] ->
  let s := {| root := root; by_time := slash root "by-time"; by_session := slash root "by-session";
              by_task := slash root "by-task" |} in
  let final := dir_by_time t ++ [final_name t tmp (only_top_file tmp f)] in
  exists f', _finalize device rival s t tmp f = (f', Ok (Some final)) /\ stored t tmp final f f' /\
    follow (task_bucket root t ++ [link_name t]) f' = Some final /\
    follow (session_bucket root t ++ [link_name t]) f' = Some final /\
    forall q, ~ tmp `prefix_of` q -> ~ root `prefix_of` q ->
      f' !! q = if decide (q ≠ [] /\ q `prefix_of` root) then Some Dir else f !! q.
Proof.
  intros [[hs Hdir] [Ha Hb] (N1 & N2 & N3) Hplace [T1 T2] [S1 S2] (P1 & P2 & P3)] Hfiles s final.
  destruct (save_spec t tmp f N2 Hplace) as (f1 & E1 & Hst & Hsave). fold final in E1, Hst, Hsave.
  assert (Hf : final = root ++ "by-time"%string :: (hs ++ [final_name t tmp (only_top_file tmp f)]))
    by (unfold final; rewrite Hdir; by rewrite <- app_assoc).
  assert (Ht : task_bucket root t ++ [link_name t] = root ++ "by-task"%string :: (task_index t :: _session_bucket [] (session_id t)) ++ [link_name t])
    by (unfold task_bucket; by rewrite <- app_assoc).
  assert (Hs : session_bucket root t ++ [link_name t] = root ++ "by-session"%string :: _session_bucket [] (session_id t) ++ [link_name t])
    by (unfold session_bucket; by rewrite <- app_assoc).
  set (dl1 := task_bucket root t) in *. set (dl2 := session_bucket root t) in *. set (n := link_name t) in *.
  assert (F1 : forall q, final `prefix_of` q -> ~ q `prefix_of` dl1 ++ [n]) by (by eapply prefix_apart).
  assert (F2 : forall q, final `prefix_of` q -> ~ q `prefix_of` dl2 ++ [n]) by (by eapply prefix_apart).
  assert (X12 : forall q, dl1 ++ [n] `prefix_of` q -> ~ q `prefix_of` dl2 ++ [n]) by (by eapply prefix_apart).
  assert (X21 : forall q, dl2 ++ [n] `prefix_of` q -> ~ q `prefix_of` dl1 ++ [n]) by (by eapply prefix_apart).
  assert (D1 : forall q, dl1 ++ [n] `prefix_of` q -> ~ q `prefix_of` dir_by_time t) by (by eapply prefix_apart).
  assert (D2 : forall q, dl2 ++ [n] `prefix_of` q -> ~ q `prefix_of` dir_by_time t) by (by eapply prefix_apart).
  assert (Hnew : forall q r, q = root ++ r -> ~ final `prefix_of` q -> (forall p, q `prefix_of` p -> ~ p `prefix_of` dir_by_time t) ->
    f1 !! q = f !! q).
  { intros q r Hq Hn Hd. rewrite Hsave, decide_False; [done| |by rewrite Hq; intros H; by apply (beside_root root tmp r) in H as [? _]|done].
    intros [_ H]. by apply (Hd q). }
  assert (Hfree : forall dl r, dl = root ++ r -> ~ final `prefix_of` dl -> free f dl -> free f1 dl)
    by (intros dl r Hdl Hn; by apply (saved_free root t tmp f f1 final dl r)).
  assert (Hup : forall (dl : path) x, ~ dl `prefix_of` dl ++ [x] -> False) by (intros dl x H; apply H; by apply prefix_app_r).
  destruct (create_link_spec dl1 n final f1) as (f2 & E2 & L2 & R2).
  { unfold dl1, task_bucket. by destruct root. }
  { eapply Hfree; [done|intros H; by apply F1, Hup in H|done]. }
  { erewrite Hnew; [done|exact Ht|by intros H; apply F1 in H|exact D1]. }
  destruct (create_link_spec dl2 n final f2) as (f3 & E3 & L3 & R3).
  { unfold dl2, session_bucket. by destruct root. }
  { eapply linked_free; [exact R2|by intros H; apply X12, Hup in H|].
    eapply Hfree; [done|intros H; by apply F2, Hup in H|done]. }
  { rewrite (linked_other _ _ _ _ _ R2) by (by apply X21).
    erewrite Hnew; [done|exact Hs|by intros H; apply F2 in H|exact D2]. }
  exists f3. split; [|split; [|split; [|split]]].
  - unfold _finalize. unfold mbind at 1, M_bind at 1, get. destruct (files_below tmp f); [done|].
    erewrite M_bind_run by exact E1. destruct (link_paths root t N1 N3) as [Q1 Q2]. fold s in Q1, Q2. rewrite Q1, Q2.
    erewrite M_bind_run by exact E2. by erewrite M_bind_run by exact E3.
  - eapply stored_ext; [|exact Hst]. intros q Hq.
    rewrite (linked_other _ _ _ _ _ R3) by (by apply F2). apply (linked_other _ _ _ _ _ R2). by apply F1.
  - apply follow_link; [|done|done]. rewrite (linked_other _ _ _ _ _ R3) by (by apply X12). done.
  - by apply follow_link.
  - intros q Hq Hr. rewrite (outside_store root _ _ _ _ _ _ eq_refl R3 Hr), (outside_store root _ _ _ _ _ _ eq_refl R2 Hr).
    rewrite Hsave; [|done|rewrite Hf; by intros H%store_part].
    rewrite Hdir, (decide_ext _ _ _ _ (outside_prefix root _ q Hr)). by repeat case_decide.
Qed.

(** C33: when a trace with files ends and nothing is in the way, its only file, its
    archive or its directory is at the final path with exactly the contents of the
    temporary directory, on whatever devices, and the links by task and by session
    lead there, also when another process makes a link in between. *)
Theorem trace_saved root t tmp f :
  ready root t tmp f -> files_below tmp f ≠ [] ->
  let s := {| root := root; by_time := slash root "by-time"; by_session := slash root "by-session";
              by_task := slash root "by-task" |} in
  let final := dir_by_time t ++ [final_name t tmp (only_top_file tmp f)] in
  exists f', _finalize device rival s t tmp f = (f', Ok (Some final)) /\ stored t tmp final f f' /\
    follow (task_bucket root t ++ [link_name t]) f' = Some final /\
    follow (session_bucket root t ++ [link_name t]) f' = Some final.
Proof.
  intros Hr Hf s final. destruct (finalize_spec root t tmp f Hr Hf) as (f' & E & H1 & H2 & H3 & _). by exists f'.
Qed.
End finalize.

Module Examples.
#[local] Open Scope string_scope.
Definition two_disks (p : path) : nat := match p with "tmp" :: _ => 1%nat | _ => 0%nat end.
Definition alone (l : path) (f : fs) : fs := f.
Definition tmp : path := ["tmp"; "trace1"].
Definition before (files : list (path * node)) : fs :=
  list_to_map ([(["data"], Dir); (["tmp"], Dir); (tmp, Dir)] ++ files).
Definition one_file : fs := before [(["tmp"; "trace1"; "log.json"], File (Bytes "{}"))].
Definition two_files : fs :=
  before [(["tmp"; "trace1"; "log.json"], File (Bytes "{}")); (["tmp"; "trace1"; "err.txt"], File (Bytes "!"))].
Definition a_trace (flat : bool) : trace :=
  {| dir_by_time := ["data"; "by-time"; "25"; "01"; "02"; "03"]; file_base := "7-258-0"; task_index := "7";
     session_id := 258; disable_compression := flat |}.
Definition the_store : TraceStore :=
  {| root := ["data"]; by_time := slash ["data"] "by-time"; by_session := slash ["data"] "by-session";
     by_task := slash ["data"] "by-task" |}.
Definition finalize (t : trace) : M fs (option path) := _finalize two_disks alone the_store t tmp.

(** 2025-01-02 03:04:05 in UTC+8 *)
Example partition : _time_partition_path ["r"] 1735758245000 = Ok ["r"; "25"; "01"; "02"; "03"].
Proof. by vm_compute. Qed.
Example bucket : _session_bucket [] 258 = ["01"; "02"].
Proof. done. Qed.
Example the_suffix : suffix ["a.tar.gz"] = ".gz" /\ suffix [".x"] = "" /\ suffix ["x."] = "".
Proof. done. Qed.

(** The second call that [close] makes finds no file when there was one that could
    be moved; a file that had to be copied, and a directory that was packed, are
    saved again. *)
Example second_call_nothing :
  let f' := (_finalize (fun _ => O) alone the_store (a_trace false) tmp one_file).1 in
  (_finalize (fun _ => O) alone the_store (a_trace false) tmp f').2 = Ok None.
Proof. by vm_compute. Qed.
Example second_call_copied : let f' := (finalize (a_trace false) one_file).1 in (finalize (a_trace false) f').2 ≠ Ok None.
Proof. by vm_compute. Qed.
Example second_call_again :
  let f' := (finalize (a_trace false) two_files).1 in
  (finalize (a_trace false) f').2 ≠ Ok None.
Proof. by vm_compute. Qed.

Lemma slash_simple n : simple n -> slash [] n = [n].
Proof. intros H. by rewrite H. Qed.

Lemma before_none (files : list (path * node)) (p : path) : p ∉ ([["data"]; ["tmp"]; tmp] ++ files.*1)%list -> before files !! p = None.
Proof. intros H. apply not_elem_of_list_to_map_1. by rewrite fmap_app. Qed.

Ltac in_data := apply before_none; rewrite !elem_of_app; simpl; rewrite !elem_of_cons, elem_of_nil; by intuition discriminate.

Lemma one_file_ready : ready two_disks ["data"] (a_trace false) tmp one_file.
Proof.
  assert (Hfree : forall r, free one_file (["data"] ++ r)).
  { intros r [|[|i]] Hi; [lia|by right|]. left. destruct r as [|x r]; simpl in *; [lia|]. in_data. }
  split.
  - by eexists.
  - split; intros H; by apply prefix_cons_inv_1 in H.
  - split; [|split; [|done]]; apply simple_name; apply (bool_decide_unpack _); by vm_compute.
  - split; [done|apply (Hfree ["by-time"; "25"; "01"; "02"; "03"])| | | |by vm_compute].
    + split; [done|]. intros q Hq [r Hr]. unfold tmp in Hr. destruct q as [|a [|b [|c q]]]; simplify_eq/=; by vm_compute.
    + split; intros H; by apply prefix_cons_inv_1 in H.
    + intros r. split; in_data.
  - split; [apply (Hfree ["by-task"; "7"; "01"; "02"])|by vm_compute].
  - split; [apply (Hfree ["by-session"; "01"; "02"])|by vm_compute].
  - split; [|split]; apply (bool_decide_unpack _); by vm_compute.
Qed.

Lemma trace_saved_witness : exists f', finalize (a_trace false) one_file
    = (f', Ok (Some ["data"; "by-time"; "25"; "01"; "02"; "03"; "7-258-0.json"])) /\
  f' !! ["data"; "by-time"; "25"; "01"; "02"; "03"; "7-258-0.json"] = Some (File (Bytes "{}")).
Proof.
  destruct (trace_saved two_disks alone ltac:(by left) ["data"] (a_trace false) tmp one_file one_file_ready ltac:(by vm_compute))
    as (f' & E & Hst & _).
  assert (Hn : final_name (a_trace false) tmp (only_top_file tmp one_file) = "7-258-0.json") by (by vm_compute).
  assert (Ho : only_top_file tmp one_file = Some "log.json") by (by vm_compute).
  rewrite Hn in E, Hst. unfold stored in Hst. rewrite Ho in Hst. destruct Hst as (d & Hd & Hs).
  assert (Hf : one_file !! (tmp ++ ["log.json"])%list = Some (File (Bytes "{}"))) by (by vm_compute).
  rewrite Hf in Hd. injection Hd as <-. exists f'. split; [exact E|exact Hs].
Defined.
End Examples.
