(* ===== verification/Tracectl.v ===== *)
(** * Fetching traces

    Models extra/scripts/tracectl.py over the file system of Files: which sessions
    are asked for, where the store has their traces, and how they are copied out
    and unpacked.  With TraceStore it gives the way of a trace from the directory
    a task wrote it to, to the directory where it is looked at.  The threads of the
    pool are modelled as running one after the other. *)

From S2P Require Import Prelude PyVal EvalUtils Files TraceStore.

(** ** What paths lead to *)

(** The links the system follows before it gives up. *)
Definition max_links : nat := 40.

(** [p.resolve()], where something is: no link on the way to a path, but the path
    itself may be one. *)
Fixpoint real (fuel : nat) (p : path) (f : fs) : option path :=
  match f !! p with
  | None => None
  | Some (Link r) => match fuel with O => None | S n => real n (normalise [] (parent p ++ r)) f end
  | Some _ => Some p
  end.
Definition stat (p : path) (f : fs) : option node := q ← real max_links p f; f !! q.

Definition exists_ (p : path) (f : fs) : bool := bool_decide (is_Some (stat p f)).
Definition is_dir (p : path) (f : fs) : bool := match stat p f with Some Dir => true | _ => false end.
Definition is_file (p : path) (f : fs) : bool := match stat p f with Some (File _) => true | _ => false end.

(** [p.stem] *)
Definition stem (p : path) : string :=
  of_chars (take (String.length (basename p) - String.length (suffix p)) (chars (basename p))).

(** [shutil.rmtree(p)] *)
Definition rmtree (p : path) : M fs unit :=
  n ← gets (lookup p);
  match n with
  | None => raise FileNotFoundError
  | Some Dir => modify (prune p)
  | Some (File _) => raise NotADirectoryError
  | Some (Link _) => raise OSError
  end.

(** ** Copying *)

Section tracectl.
(** Whether there is a terminal, and what is typed there when a path is to be
    overwritten. *)
Context (isatty : bool) (input : path -> string).

(* extra/scripts/tracectl.py:20-25 prompt_yes_no *)
Definition prompt_yes_no (p : path) : bool :=
  isatty && bool_decide (lower (strip (input p)) = "y").

(* extra/scripts/tracectl.py:27-36 ensure_clean *)
Definition ensure_clean (p : path) (assume_yes : bool) : M fs unit :=
  f ← get;
  if exists_ p f then
    if assume_yes || prompt_yes_no p then
      if is_dir p f then rmtree p else unlink p
    else raise (SystemExit 1)
  else mret tt.

(* extra/scripts/tracectl.py:39-47 describe_entry *)
Definition describe_entry (p : path) (f : fs) : string :=
  if is_dir p f then "dir"
  else if is_file p f then if bool_decide (lower (suffix p) = ".zip") then "zip" else "file"
  else "unknown".

(** A member of an archive that [shutil] leaves out: with an absolute name or with
    two dots anywhere in it. *)
Definition left_out (q : path) : bool := let name := join "/" q in starts_with "/" name || contains ".." name.

(** [shutil.unpack_archive]: the format is told from the end of the name, which must be
    in lower case. *)
Definition unpack_archive (archive extract_dir : path) : M fs unit :=
  if ends_with ".zip" (basename archive) then
    f ← get;
    match stat archive f with
    | Some (File (Archive l)) =>
        for_each l (fun m =>
          if left_out m.1 then mret tt
          else mkdirs (parent (extract_dir ++ m.1));; write_file (extract_dir ++ m.1) m.2)
    | _ => raise OSError
    end
  else raise OSError.

(* extra/scripts/tracectl.py:50-79 copy_entry *)
Definition copy_entry (src output : path) (assume_yes : bool) : M fs (option path) :=
  entry_type ← gets (describe_entry src);
  let dest := output ++ [basename src] in
  if bool_decide (entry_type = "dir") then
    ensure_clean dest assume_yes;;
    copytree src dest;;
    mret (Some dest)
  else if bool_decide (entry_type = "file") then
    ensure_clean dest assume_yes;;
    copy2 src dest;;
    mret (Some dest)
  else if bool_decide (entry_type = "zip") then
    ensure_clean dest assume_yes;;
    copy2 src dest;;
    let extract_dir := output ++ [stem src] in
    ensure_clean extract_dir assume_yes;;
    unpack_archive dest extract_dir;;
    unlink dest;;
    mret (Some extract_dir)
  else mret None.

(** ** Sessions *)

(** [s.isdigit()] *)
Definition isdigit (s : string) : bool := negb (bool_decide (s = "")) && forallb is_digit (chars s).

Context (json_loads : string -> res val) (str_of : val -> string).

(** What a line of a file of results says. *)
(* extra/scripts/tracectl.py:89-100 parse_session_ids *)
Definition line_ids (line : string) : list Z :=
  let line := strip line in
  let line := match json_loads line with
              | Ok (VDict data) =>
                  match dget_or "session_id" VNone data with
                  | VNone => match dget_or "sid" VNone data with VNone => line | v => str_of v end
                  | v => str_of v
                  end
              | _ => line
              end in
  if isdigit line then [digits_value 0 (chars line)] else [].

(** [lines] gives the lines of a file; an argument that is not a file counts by
    itself. *)
(* extra/scripts/tracectl.py:82-103 parse_session_ids *)
Definition parse_session_ids (lines : path -> list string) (cwd : path) (input_args : list string) (f : fs) : list Z :=
  mjoin ((fun arg => if is_file (slash cwd arg) f then mjoin (line_ids <$> lines (slash cwd arg))
                     else if isdigit arg then [digits_value 0 (chars arg)] else []) <$> input_args).

(* extra/scripts/tracectl.py:105-111 find_by_session *)
Definition find_by_session (root : path) (session_id : Z) (f : fs) : option path :=
  let a := hex2 (Z.land (Z.shiftr session_id 8) 255) in
  let b := hex2 (Z.land (Z.shiftr session_id 0) 255) in
  let p := slash (slash (slash root a) b) ("session_" +:+ str_Z session_id) in
  if exists_ p f then real max_links p f else None.

(* extra/scripts/tracectl.py:113-132 process_one *)
Definition process_one (root output : path) (assume_yes : bool) (session_id : Z) : M fs unit :=
  p ← gets (find_by_session root session_id);
  match p with
  | None => mret tt
  | Some p => copy_entry p output assume_yes;; mret tt
  end.

(* extra/scripts/tracectl.py:134-139 guess_default_jobs *)
Definition guess_default_jobs (cpu_count : option Z) (n_items : Z) : Z :=
  let cpu := match cpu_count with Some (Zpos _ as n) => n | _ => 4 end in
  Z.min (Z.min (Z.max 4 (cpu * 5)) 32) (Z.max 1 n_items).

(** All tasks run, whatever becomes of the others; then the first failure is
    raised. *)
Fixpoint all_futures (l : list (M fs unit)) : M fs unit := fun f =>
  match l with
  | [] => (f, Ok tt)
  | m :: l =>
      let '(f, r) := m f in
      let '(f, r') := all_futures l f in
      (f, match r with Raise e => Raise e | Ok _ => r' end)
  end.

(* extra/scripts/tracectl.py:141-184 main *)
Definition main (store output : path) (lines : path -> list string) (cwd : path) (assume_yes : bool)
    (input_args : list string) : M fs unit :=
  session_ids ← gets (parse_session_ids lines cwd input_args);
  match session_ids with
  | [] => mret tt
  | _ =>
      mkdirs output;;
      let root := slash store "by-session" in
      all_futures (process_one root output assume_yes <$> session_ids)
  end.
End tracectl.

(** ** Proofs: names *)

Lemma basename_snoc (d : path) x : basename (d ++ [x]) = x.
Proof. unfold basename. by rewrite last_snoc. Qed.

Lemma last_dot_app l k i : last_dot i (l ++ k) = match last_dot (i + length l) k with Some n => Some n | None => last_dot i l end.
Proof.
  revert i. induction l as [|c l IH]; intros i; simpl.
  - rewrite Nat.add_0_r. by destruct (last_dot i k).
  - rewrite IH, Nat.add_succ_r, <- Nat.add_succ_l. by destruct (last_dot _ k).
Qed.

Lemma zip_suffix p b : b ≠ ""%string -> suffix (p ++ [b +:+ ".zip"]) = ".zip"%string.
Proof.
  intros Hb. unfold suffix. rewrite basename_snoc, chars_app, last_dot_app.
  cbn. rewrite !decide_False by done. rewrite decide_True by done. rewrite length_app.
  rewrite bool_decide_true; [|split; [|simpl; lia]].
  - by rewrite drop_app_length.
  - destruct b; [done|simpl; lia].
Qed.

Lemma chars_length s : length (chars s) = String.length s.
Proof. induction s; simpl; [done|]. by f_equal. Qed.

Lemma zip_stem p b : b ≠ ""%string -> stem (p ++ [b +:+ ".zip"]) = b.
Proof.
  intros Hb. unfold stem. rewrite zip_suffix, basename_snoc by done.
  rewrite <- !chars_length, chars_app, length_app. cbn [length chars String.list_ascii_of_string]. rewrite Nat.add_sub, take_app_length. apply of_chars_chars.
Qed.

Lemma zip_name b : ends_with ".zip" (b +:+ ".zip") = true.
Proof.
  unfold ends_with. rewrite <- !chars_length, chars_app, length_app. rewrite bool_decide_true by lia.
  rewrite Nat.add_sub. apply String.eqb_eq. by induction b.
Qed.

(** ** Proofs: what paths lead to *)

Definition solid (n : node) : Prop := match n with Link _ => False | _ => True end.

Lemma real_solid fuel p f n : f !! p = Some n -> solid n -> real fuel p f = Some p.
Proof. intros H Hn. destruct fuel; simpl; rewrite H; by destruct n. Qed.
Lemma real_none fuel p f : f !! p = None -> real fuel p f = None.
Proof. intros H. destruct fuel; simpl; by rewrite H. Qed.
Lemma stat_solid p f n : f !! p = Some n -> solid n -> stat p f = Some n.
Proof. intros H Hn. unfold stat. by rewrite (real_solid _ _ _ n). Qed.
Lemma stat_none p f : f !! p = None -> stat p f = None.
Proof. intros H. unfold stat. by rewrite real_none. Qed.
Lemma real_link fuel p f q n : follow p f = Some q -> f !! q = Some n -> solid n -> real (S fuel) p f = Some q.
Proof.
  unfold follow. destruct (f !! p) as [[| |r]|] eqn:E; try done. intros [= <-] Hq Hn.
  cbn [real]. rewrite E. by apply (real_solid _ _ _ n).
Qed.
Lemma exists_real p f q n : real max_links p f = Some q -> f !! q = Some n -> exists_ p f = true.
Proof.
  intros H Hn. unfold exists_, stat. rewrite H. apply bool_decide_true. exists n. exact Hn.
Qed.

(** Nothing there: nothing is asked. *)
Lemma ensure_clean_free isatty input p yes f : f !! p = None -> ensure_clean isatty input p yes f = (f, Ok tt).
Proof.
  intros H. unfold ensure_clean. unfold mbind, M_bind, get. unfold exists_. by rewrite stat_none, bool_decide_false by (done || apply is_Some_None).
Qed.

Lemma hex2_simple n : 0 <= n < 256 -> simple (hex2 n).
Proof.
  intros Hn. set (ok := fun n => bool_decide ("/"%char ∉ chars (hex2 n)) && bool_decide (hex2 n ≠ ""%string) && bool_decide (hex2 n ≠ "."%string)).
  assert (H : ok n = true) by (apply (all_below_spec 256); [by vm_compute|lia]).
  unfold ok in H. rewrite !andb_true_iff, !bool_decide_eq_true in H. destruct H as [[H1 H2] H3]. by apply simple_name.
Qed.

Lemma session_path root id : 0 <= id -> slash (slash (slash root (hex2 (Z.land (Z.shiftr id 8) 255)))
    (hex2 (Z.land (Z.shiftr id 0) 255))) ("session_" +:+ str_Z id)
  = _session_bucket root id ++ ["session_" +:+ str_Z id].
Proof.
  intros Hid. assert (Hb : forall z, 0 <= Z.land z 255 < 256).
  { intros z. change 255 with (Z.ones 8). rewrite Z.land_ones by lia. apply Z.mod_pos_bound. lia. }
  rewrite !(hex2_simple (Z.land _ _)) by apply Hb. rewrite (session_link_simple id Hid). unfold _session_bucket.
  by rewrite <- !app_assoc.
Qed.

(** The link of a session is found under its number. *)
Lemma find_linked root id f q n : 0 <= id ->
  follow (_session_bucket root id ++ ["session_" +:+ str_Z id]) f = Some q -> f !! q = Some n -> solid n ->
  find_by_session root id f = Some q.
Proof.
  intros Hid Hf Hq Hn. unfold find_by_session. rewrite session_path by done.
  pose proof (real_link 39 _ _ _ _ Hf Hq Hn) as Hr. change (real max_links (_session_bucket root id ++ [("session_" +:+ str_Z id)%string]) f = Some q) in Hr. rewrite (exists_real _ _ _ _ Hr Hq). exact Hr.
Qed.

(** ** Proofs: unpacking *)

(** The files of a tree: one content for each name, and no file below a file. *)
Definition tree_files (l : list (path * data)) : Prop :=
  forall q d q' d', (q, d) ∈ l -> (q', d') ∈ l -> q `prefix_of` q' -> q = q' ∧ d = d'.

(** What is below [e] when the files [l] have been written there. *)
Definition unpacked (e : path) (l : list (path * data)) (f g : fs) : Prop :=
  (forall q, ~ e `prefix_of` q -> g !! q = f !! q) ∧
  (forall q d, (q, d) ∈ l -> g !! (e ++ q) = Some (File d)) ∧
  (forall q n, g !! (e ++ q) = Some n ->
     (n = Dir ∧ exists p d, (p, d) ∈ l ∧ q `prefix_of` p ∧ q ≠ p) ∨ exists d, n = File d ∧ (q, d) ∈ l).

Definition write_member (e : path) (m : path * data) : M fs unit :=
  mkdirs (parent (e ++ m.1));; write_file (e ++ m.1) m.2.

Lemma parent_prefix (q : path) x : q ++ [x] ≠ q.
Proof. intros E. apply (f_equal length) in E. rewrite length_app in E. simpl in E. lia. Qed.

(** A member finds its directories made or free. *)
Lemma member_free e l f g q x d : directories f (parent e) -> e ≠ [] -> unpacked e l f g ->
  tree_files (l ++ [(q ++ [x], d)]) -> free g (e ++ q).
Proof.
  intros Hdir He (Hout & _ & Hin) Hl i Hi. destruct (decide (i < length e)%nat) as [H|H].
  - right. rewrite take_app_le by lia. rewrite Hout.
    + apply Hdir.
      * intros E. apply (f_equal length) in E. rewrite length_take in E. simpl in E. lia.
      * unfold parent. exists (drop i (take (length e - 1) e)).
        rewrite <- (take_drop i (take (length e - 1) e)) at 1. f_equal. rewrite take_take. f_equal. lia.
    + intros E%prefix_length. rewrite length_take in E. lia.
  - rewrite take_app_ge by lia. set (r := take (i - length e) q).
    destruct (g !! (e ++ r)) as [n|] eqn:E; [|by left]. right. apply Hin in E as [[-> _]|(d' & -> & Hm)]; [done|].
    exfalso. destruct (Hl r d' (q ++ [x]) d) as [E _].
    + apply elem_of_app. by left.
    + apply elem_of_app. right. by left.
    + exists (drop (i - length e) q ++ [x]). unfold r. by rewrite app_assoc, take_drop.
    + apply (f_equal length) in E. unfold r in E. rewrite length_take, length_app in E. simpl in E. lia.
Qed.

Lemma write_file_over p d f : f !! parent p = Some Dir -> (forall n, f !! p = Some n -> n ≠ Dir) ->
  write_file p d f = (<[p := File d]> f, Ok tt).
Proof.
  intros H1 H2. unfold write_file. erewrite M_bind_run; [|by apply in_directory_ok].
  rewrite bind_gets. destruct (f !! p) as [[| |]|] eqn:E; try done. by destruct (H2 Dir).
Qed.

Lemma above_parent (e k : path) y : ~ e `prefix_of` k -> k `prefix_of` e ++ y -> k `prefix_of` parent e.
Proof.
  intros Hn Hk. destruct (prefix_weak_total k e (e ++ y)) as [[r ->]|H]; [done|by apply prefix_app_r| |done].
  destruct r as [|z r _] using rev_ind; [by rewrite app_nil_r in Hn|]. rewrite app_assoc, parent_app. by apply prefix_app_r.
Qed.

Lemma member_written e l f g g1 q x d : directories f (parent e) -> unpacked e l f g ->
  tree_files (l ++ [(q ++ [x], d)]) -> made (e ++ q) g g1 ->
  unpacked e (l ++ [(q ++ [x], d)]) f (<[e ++ (q ++ [x]) := File d]> g1).
Proof.
  intros Hdir (Hout & Hfiles & Hin) Hl Hm. split; [|split].
  - intros k Hk. rewrite lookup_insert_ne by (intros <-; apply Hk; by apply prefix_app_r).
    rewrite Hm. case_decide as Hd; [|by apply Hout]. destruct Hd as [Hd1 Hd2]. symmetry.
    apply Hdir; [done|]. by apply (above_parent e k q).
  - intros k d' [Hk|Hk%list_elem_of_singleton]%elem_of_app; [|injection Hk as -> ->; by apply lookup_insert_eq].
    destruct (decide (k = q ++ [x])) as [->|Hne].
    + rewrite lookup_insert_eq. repeat f_equal. eapply Hl; [apply elem_of_app; right; by left|apply elem_of_app; by left|done].
    + rewrite lookup_insert_ne by (intros E%app_inv_head; by rewrite E in Hne). rewrite Hm, decide_False; [by apply Hfiles|].
      intros [_ H%prefix_app_inv]. apply Hne. eapply Hl; [apply elem_of_app; by left|apply elem_of_app; right; by left|].
      etransitivity; [done|by apply prefix_app_r].
  - intros k n. destruct (decide (k = q ++ [x])) as [->|Hne].
    + rewrite lookup_insert_eq. intros [= <-]. right. exists d. split; [done|]. apply elem_of_app. right. by left.
    + rewrite lookup_insert_ne by (intros E%app_inv_head; by rewrite E in Hne). rewrite Hm. case_decide as Hd.
      * destruct Hd as [_ H%prefix_app_inv]. intros [= <-]. left. split; [done|]. exists (q ++ [x]), d.
        split; [apply elem_of_app; right; by left|]. split; [|done]. etransitivity; [done|by apply prefix_app_r].
      * intros [[-> (p & d' & Hp & H)]|(d' & -> & Hp)]%Hin; [left; split; [done|]; exists p, d'|right; exists d'];
          [split; [apply elem_of_app; by left|done]|split; [done|apply elem_of_app; by left]].
Qed.

Lemma member_step e l f g q x d : directories f (parent e) -> e ≠ [] -> unpacked e l f g ->
  tree_files (l ++ [(q ++ [x], d)]) ->
  exists g', write_member e (q ++ [x], d) g = (g', Ok tt) ∧ unpacked e (l ++ [(q ++ [x], d)]) f g'.
Proof.
  intros Hdir He Hu Hl. pose proof (member_free e l f g q x d Hdir He Hu Hl) as Hfree.
  destruct Hu as (Hout & Hfiles & Hin). unfold write_member. cbn [fst snd]. rewrite app_assoc, parent_app.
  destruct (mkdirs_spec _ _ Hfree) as (g1 & E1 & Hm). erewrite M_bind_run by exact E1.
  assert (Hbelow : forall k, ~ e ++ k `prefix_of` e ++ q -> g1 !! (e ++ k) = g !! (e ++ k)).
  { intros k Hk. rewrite Hm, decide_False; [done|]. by intros [_ H]. }
  eexists. split.
  - apply write_file_over.
    + rewrite parent_app, Hm, decide_True; [done|]. split; [by destruct e|done].
    + intros n. rewrite <- app_assoc, Hbelow by (intros H%prefix_app_inv%prefix_length; rewrite length_app in H; simpl in H; lia).
      intros [[-> (p & d' & Hp & Hpre & Hne)]|(d' & -> & _)]%Hin; [|done]. exfalso. apply Hne.
      by apply (Hl (q ++ [x]) d p d'); [apply elem_of_app; right; left|apply elem_of_app; left|].
  - rewrite <- app_assoc. by apply (member_written e l f g g1 q x d).
Qed.

Lemma unpack_members e k l f g : directories f (parent e) -> e ≠ [] -> unpacked e l f g -> tree_files (l ++ k) ->
  (forall q d, (q, d) ∈ k -> left_out q = false ∧ q ≠ []) ->
  exists g', for_each k (fun m => if left_out m.1 then mret tt
      else mkdirs (parent (e ++ m.1));; write_file (e ++ m.1) m.2) g = (g', Ok tt) ∧ unpacked e (l ++ k) f g'.
Proof.
  intros Hdir He. revert l g. induction k as [|[q d] k IH]; intros l g Hu Hl Hk.
  - exists g. split; [done|]. by rewrite app_nil_r.
  - destruct (Hk q d) as [Hleft Hq]; [by left|]. destruct q as [|x q _] using rev_ind; [done|].
    rewrite cons_middle, app_assoc in Hl. destruct (member_step e l f g q x d Hdir He Hu) as (g1 & E1 & H1).
    { intros q1 d1 q2 d2 Ha Hb. eapply Hl; apply elem_of_app; by left. }
    destruct (IH _ g1 H1 Hl) as (g2 & E2 & H2); [intros; apply (Hk q0 d0); by right|].
    exists g2. split; [|by rewrite cons_middle, app_assoc].
    cbn [for_each]. erewrite M_bind_run; [exact E2|]. cbn [fst]. rewrite Hleft. exact E1.
Qed.

(** An archive is unpacked where nothing is. *)
Lemma unpack_spec archive e l f : ends_with ".zip" (basename archive) = true -> f !! archive = Some (File (Archive l)) ->
  directories f (parent e) -> e ≠ [] -> (forall r, f !! (e ++ r) = None) -> tree_files l ->
  (forall q d, (q, d) ∈ l -> left_out q = false ∧ q ≠ []) ->
  exists g, unpack_archive archive e f = (g, Ok tt) ∧ unpacked e l f g.
Proof.
  intros Hz Ha Hdir He Hnew Hl Hk. destruct (unpack_members e l [] f f) as (g & E & Hg); try done.
  - split; [done|]. split; [by intros q d ?%elem_of_nil|]. intros q n H. by rewrite Hnew in H.
  - exists g. split; [|done]. unfold unpack_archive. rewrite Hz. unfold mbind at 1, M_bind at 1, get.
    by rewrite (stat_solid _ _ _ Ha).
Qed.

(** ** Proofs: copying *)

Section copying.
Context (isatty : bool) (input : path -> string) (yes : bool) (out : path) (f : fs).
Context (out_dir : directories f out) (out_some : out ≠ []).

#[local] Abbreviation copy_entry := (copy_entry isatty input).

Lemma out_is_dir : f !! out = Some Dir.
Proof. by apply out_dir. Qed.

Lemma copy_file src x d : f !! src = Some (File d) -> f !! (out ++ [x]) = None ->
  copy2 src (out ++ [x]) f = (<[out ++ [x] := File d]> f, Ok tt).
Proof.
  intros Hs Hn. unfold copy2. unfold mbind, M_bind, get. rewrite Hs, Hn.
  apply write_file_ok; [|done]. rewrite parent_app. apply out_is_dir.
Qed.

Lemma describe_solid p n : f !! p = Some n -> solid n -> describe_entry p f =
  match n with Dir => "dir" | File _ => if bool_decide (lower (suffix p) = ".zip") then "zip" else "file" | Link _ => "unknown" end.
Proof.
  intros H Hn. unfold describe_entry, is_dir, is_file. rewrite (stat_solid _ _ _ H Hn). by destruct n.
Qed.

Lemma copy_entry_file dir x d : let src := dir ++ [x] in f !! src = Some (File d) -> lower (suffix src) ≠ ".zip" ->
  f !! (out ++ [x]) = None ->
  copy_entry src out yes f = (<[out ++ [x] := File d]> f, Ok (Some (out ++ [x]))).
Proof.
  intros src Hs Hz Hn. unfold Tracectl.copy_entry. rewrite bind_gets, (describe_solid src _ Hs) by done.
  rewrite (bool_decide_false _ Hz). replace (basename src) with x by (unfold src; by rewrite basename_snoc). simpl.
  erewrite M_bind_run by (by apply ensure_clean_free). by erewrite M_bind_run by (by apply copy_file).
Qed.

Lemma new_dir_free x : (forall r, f !! (out ++ x :: r) = None) -> free f (out ++ [x]).
Proof.
  intros Hn i Hi. destruct (decide (i <= length out)%nat) as [H|H].
  - rewrite take_app_le by done. right. apply out_dir; [|exists (drop i out); by rewrite take_drop].
    intros E. apply (f_equal length) in E. rewrite length_take in E. simpl in E. lia.
  - left. rewrite take_ge; [apply Hn|]. rewrite length_app. simpl. lia.
Qed.

Lemma copy_entry_dir dir x : let src := dir ++ [x] in f !! src = Some Dir -> (forall r, f !! (out ++ x :: r) = None) ->
  exists g, copy_entry src out yes f = (g, Ok (Some (out ++ [x]))) ∧
    (forall r, g !! (out ++ x :: r) = f !! (src ++ r)) ∧
    forall q, ~ out ++ [x] `prefix_of` q -> g !! q = f !! q.
Proof.
  intros src Hs Hn. destruct (mkdirs_spec _ _ (new_dir_free x Hn)) as (f1 & E1 & Hm).
  assert (Hbelow : forall y r, f1 !! (out ++ x :: y :: r) = None).
  { intros y r. rewrite Hm, decide_False; [apply Hn|]. intros [_ H%prefix_length]. rewrite !length_app in H. simpl in H. lia. }
  assert (Hg : forall q, graft (out ++ [x]) (tree src f) f1 !! q =
    if decide (out ++ [x] `prefix_of` q) then f !! (src ++ drop (length (out ++ [x])) q) else f1 !! q).
  { intros q. apply graft_lookup. intros [|y r] Hr; [by rewrite app_nil_r, Hs in Hr|]. rewrite <- app_assoc. apply Hbelow. }
  exists (graft (out ++ [x]) (tree src f) f1). split; [|split].
  - unfold Tracectl.copy_entry. rewrite bind_gets, (describe_solid src _ Hs) by done.
    replace (basename src) with x by (unfold src; by rewrite basename_snoc). simpl.
    erewrite M_bind_run by (by apply ensure_clean_free). erewrite M_bind_run; [done|].
    unfold copytree. unfold mbind at 1, M_bind at 1, get. rewrite Hn. by erewrite M_bind_run by exact E1.
  - intros r. rewrite (cons_middle x out r), app_assoc, Hg, decide_True by (by apply prefix_app_r). by rewrite drop_app_length.
  - intros q Hq. rewrite Hg, decide_False by done. rewrite Hm. case_decide as Hd; [|done].
    destruct Hd as [Hq0 Hd%prefix_snoc]. destruct Hd as [->|Hd]; [done|]. symmetry. by apply out_dir.
Qed.

Lemma copy_entry_zip dir b l : let src := dir ++ [b +:+ ".zip"] in b ≠ "" -> f !! src = Some (File (Archive l)) ->
  (forall r, f !! (out ++ (b +:+ ".zip") :: r) = None) -> (forall r, f !! (out ++ b :: r) = None) -> tree_files l ->
  (forall q d, (q, d) ∈ l -> left_out q = false ∧ q ≠ []) ->
  exists g, copy_entry src out yes f = (g, Ok (Some (out ++ [b]))) ∧ unpacked (out ++ [b]) l f g.
Proof.
  intros src Hb Hs Hz Hn Hl Hk. set (dest := out ++ [b +:+ ".zip"]). set (e := out ++ [b]).
  set (f1 := <[dest := File (Archive l)]> f).
  assert (Hne : forall r, e ++ r ≠ dest).
  { intros r E. unfold e, dest in E. rewrite <- app_assoc in E. apply app_inv_head in E. injection E as E _.
    apply (f_equal String.length) in E. rewrite <- !chars_length, chars_app, length_app in E. simpl in E. lia. }
  assert (Hout : forall q, q ≠ [] -> q `prefix_of` out -> f1 !! q = Some Dir).
  { intros q Hq Hp. unfold f1. rewrite lookup_insert_ne; [by apply out_dir|]. intros <-.
    apply prefix_length in Hp. unfold dest in Hp. rewrite length_app in Hp. simpl in Hp. lia. }
  destruct (unpack_spec dest e l f1) as (g & E & Hg).
  { unfold dest. rewrite basename_snoc. apply zip_name. } { apply lookup_insert_eq. }
  { unfold e. by rewrite parent_app. } { unfold e. by destruct out. }
  { intros r. unfold f1. rewrite lookup_insert_ne by (intros E; by apply (Hne r)). unfold e. rewrite <- app_assoc. apply Hn. }
  { done. } { done. }
  exists (delete dest g). split.
  - unfold Tracectl.copy_entry. rewrite bind_gets, (describe_solid src _ Hs) by done.
    unfold src. rewrite zip_suffix, zip_stem, basename_snoc by done. simpl.
    erewrite M_bind_run by (apply ensure_clean_free, Hz). erewrite M_bind_run by (apply copy_file; [exact Hs|apply Hz]).
    erewrite M_bind_run.
    2:{ apply ensure_clean_free. specialize (Hne []). rewrite app_nil_r in Hne. fold dest f1. unfold f1. rewrite lookup_insert_ne by done. apply Hn. }
    erewrite M_bind_run by exact E. erewrite M_bind_run; [done|]. unfold unlink. rewrite bind_gets.
    destruct Hg as (Ho & _). rewrite Ho; [by unfold f1; rewrite lookup_insert_eq|]. intros [r Hr]. by apply (Hne r).
  - destruct Hg as (Ho & Hf & Hi). split; [|split].
    + intros q Hq. destruct (decide (q = dest)) as [->|Hd]; [rewrite lookup_delete_eq; symmetry; apply Hz|].
      rewrite lookup_delete_ne by done. rewrite Ho by done. unfold f1. by rewrite lookup_insert_ne.
    + intros q d Hq. rewrite lookup_delete_ne by done. by apply Hf.
    + intros q n. rewrite lookup_delete_ne by done. apply Hi.
Qed.
End copying.

(** ** From the task to the reader *)

Section fetching.
Context (device : path -> nat) (rival : path -> fs -> fs).
Context (rival_ok : forall l f, rival l f = f \/ exists r, rival l f = <[l := Link r]> f).
Context (isatty : bool) (input : path -> string) (yes : bool).

(** Whatever is in a directory has the directories above it. *)
Definition rooted (p : path) (f : fs) : Prop :=
  forall r x n, f !! (p ++ r ++ [x]) = Some n -> f !! (p ++ r) = Some Dir.

(** A directory to copy to: elsewhere, with nothing in the way.  A single file is no
    archive, and no name of a file has two dots. *)
Record reader (root : path) (t : trace) (tmp out : path) (f : fs) : Prop := {
  rd_dir : directories f out;
  rd_some : out ≠ [] /\ file_base t ≠ ""%string;
  rd_store : ~ root `prefix_of` out /\ ~ out `prefix_of` root;
  rd_tmp : ~ tmp `prefix_of` out /\ ~ out `prefix_of` tmp;
  rd_new : forall r, f !! (out ++ final_name t tmp (only_top_file tmp f) :: r) = None /\ f !! (out ++ file_base t :: r) = None;
  rd_names : match only_top_file tmp f with
             | Some x => lower (suffix (dir_by_time t ++ [final_name t tmp (Some x)])) ≠ ".zip"%string
             | None => forall r d, f !! (tmp ++ r) = Some (File d) -> left_out r = false
             end;
  rd_tree : rooted tmp f
}.

(** What was in the temporary directory [tmp] of [f] is below [out] in [g]. *)
Definition fetched (t : trace) (tmp out : path) (f g : fs) : Prop :=
  match only_top_file tmp f with
  | Some x => exists d, f !! (tmp ++ [x]) = Some (File d) ∧ g !! (out ++ [final_name t tmp (Some x)]) = Some (File d)
  | None =>
      if disable_compression t then forall r, g !! (out ++ file_base t :: r) = f !! (tmp ++ r)
      else forall r d, r ≠ [] -> g !! (out ++ file_base t :: r) = Some (File d) <-> f !! (tmp ++ r) = Some (File d)
  end.

Lemma rooted_above p f q k n : rooted p f -> f !! (p ++ q ++ k) = Some n -> k ≠ [] -> f !! (p ++ q) = Some Dir.
Proof.
  intros Hr. revert n. induction k as [|x k IH] using rev_ind; intros n H Hk; [done|].
  rewrite (app_assoc q k) in H. apply Hr in H. destruct k as [|y k]; [by rewrite app_nil_r in H|]. by apply (IH Dir).
Qed.

Lemma rooted_files p f l : rooted p f -> (forall q d, (q, d) ∈ l <-> q ≠ [] /\ f !! (p ++ q) = Some (File d)) -> tree_files l.
Proof.
  intros Hr Hl q d q' d' [Hq H]%Hl [Hq' H']%Hl [k ->]. destruct k as [|x k].
  - rewrite app_nil_r in H'. rewrite H in H'. injection H' as ->. by rewrite app_nil_r.
  - apply rooted_above in H'; [|done|done]. congruence.
Qed.

Lemma stored_solid t tmp final f f1 : f !! tmp = Some Dir -> stored t tmp final f f1 -> exists n, f1 !! final = Some n ∧ solid n.
Proof.
  intros Ht. unfold stored. destruct (only_top_file tmp f) as [x|]; [|destruct (disable_compression t)].
  - intros (d & _ & H). by exists (File d).
  - intros H. specialize (H []). rewrite !app_nil_r, Ht in H. by exists Dir.
  - intros (l & H & _). by eexists.
Qed.

(** Copying a trace out of the store leaves what was in the temporary directory. *)
Lemma copy_stored root t tmp out f f1 : let final := dir_by_time t ++ [final_name t tmp (only_top_file tmp f)] in
  reader root t tmp out f -> f !! tmp = Some Dir -> stored t tmp final f f1 ->
  (forall q, out `prefix_of` q -> f1 !! q = f !! q) -> directories f1 out ->
  exists g r, copy_entry isatty input final out yes f1 = (g, Ok r) ∧ fetched t tmp out f g ∧
    forall q, ~ out `prefix_of` q -> g !! q = f1 !! q.
Proof.
  intros final [_ [Ho Hb] _ _ Hn Hnames Htree] Ht Hst Hsame Hdir.
  assert (Hnew : forall r, f1 !! (out ++ final_name t tmp (only_top_file tmp f) :: r) = None ∧ f1 !! (out ++ file_base t :: r) = None)
    by (intros r; rewrite !Hsame by (by apply prefix_app_r); apply Hn).
  assert (Hout : forall x q, ~ out `prefix_of` q -> ~ out ++ [x] `prefix_of` q)
    by (intros x q Hq H; apply Hq; etransitivity; [by apply prefix_app_r|done]).
  unfold stored, fetched, final in *. destruct (only_top_file tmp f) as [x|] eqn:Ex; [|destruct (disable_compression t) eqn:Ed].
  - destruct Hst as (d & Hd & Hf). do 2 eexists. split; [|split].
    + by apply copy_entry_file; [..|apply Hnew].
    + exists d. split; [done|]. apply lookup_insert_eq.
    + intros q Hq. rewrite lookup_insert_ne; [done|]. intros <-. apply Hq. by apply prefix_app_r.
  - unfold final_name in *. rewrite Ed in *.
    destruct (copy_entry_dir isatty input yes out f1 Hdir (dir_by_time t) (file_base t)) as (g & E & H1 & H2).
    { specialize (Hst []). by rewrite !app_nil_r, Ht in Hst. } { intros r. apply Hnew. }
    exists g. eexists. split; [exact E|]. split; [intros r; by rewrite H1|]. intros q Hq. by apply H2, Hout.
  - unfold final_name in *. rewrite Ed in *. destruct Hst as (l & Hf & Hl).
    destruct (copy_entry_zip isatty input yes out f1 Hdir Ho (dir_by_time t) (file_base t) l) as (g & E & H1 & H2 & H3).
    { done. } { done. } { intros r. apply Hnew. } { intros r. apply Hnew. } { by apply (rooted_files tmp f). }
    { intros q d Hq. apply Hl in Hq as [Hq Hq']. split; [by apply (Hnames q d)|done]. }
    exists g. eexists. split; [exact E|]. split; [|intros q Hq; by apply H1, Hout].
    intros r d Hr. rewrite (cons_middle (file_base t) out r), app_assoc. split.
    + intros [[? _]|(d' & [= <-] & Hq)]%H3; [done|]. by apply Hl in Hq as [_ Hq].
    + intros Hq. by apply H2, Hl.
Qed.

End fetching.

Module Examples.
#[local] Open Scope string_scope.
Import TraceStore.Examples.

Definition disk : fs :=
  before [(["tmp"; "trace1"; "log.json"], File (Bytes "{}")); (["tmp"; "trace1"; "sub"], Dir);
          (["tmp"; "trace1"; "sub"; "err.txt"], File (Bytes "!")); (["out"], Dir)].
Definition no_input (p : path) : string := "".
Definition saved : fs := (finalize (a_trace false) disk).1.
Definition copied (f : fs) : fs * res unit := process_one false no_input ["data"; "by-session"] ["out"] false 258 f.

(** The archive of the store is unpacked beside where it was copied to. *)
Example unpacked_files : (copied saved).1 !! ["out"; "7-258-0"; "sub"; "err.txt"] = Some (File (Bytes "!")) /\
  (copied saved).1 !! ["out"; "7-258-0.zip"] = None.
Proof. by vm_compute. Qed.

(** Without a terminal a second copy ends the program. *)
Example second_copy : (copied (copied saved).1).2 = Raise (SystemExit 1).
Proof. by vm_compute. Qed.

(** An archive whose suffix is in capitals is taken for one and cannot be unpacked; its
    copy stays. *)
Definition capitals : fs := <[["out"] := Dir]> {[ ["A.ZIP"] := File (Archive [(["x"], Bytes "")]) ]}.
Example capitals_fail : let '(g, r) := copy_entry false no_input ["A.ZIP"] ["out"] false capitals in
  r = Raise OSError /\ is_Some (g !! ["out"; "A.ZIP"]).
Proof. vm_compute. split; [done|by eexists]. Qed.

(** Members with two dots in their name are lost. *)
Example dots_lost : let f := <[["a.zip"] := File (Archive [(["notes..txt"], Bytes "x")])]> capitals in
  let '(g, r) := copy_entry false no_input ["a.zip"] ["out"] false f in
  r = Ok (Some ["out"; "a"]) /\ g !! ["out"; "a"; "notes..txt"] = None /\ g !! ["out"; "a.zip"] = None.
Proof. by vm_compute. Qed.

Example ids : let loads s := if bool_decide (s = "{1}") then Ok (VDict [("sid", VInt 258)]) else Raise ValueError in
  parse_session_ids loads (fun v => match v with VInt z => str_Z z | _ => "" end)
    (fun _ => ["{1}"; " 17 "; "x"]) ["out"] ["7"; "A"; "-1"] (<[["out"; "A"] := File (Bytes "")]> capitals) = [7; 258; 17].
Proof. by vm_compute. Qed.

Lemma disk_ready : ready two_disks ["data"] (a_trace false) tmp disk.
Proof.
  assert (Hfree : forall r, free disk (["data"] ++ r)).
  { intros r [|[|i]] Hi; [lia|by right|]. left. destruct r as [|x r]; simpl in *; [lia|]. in_data. }
  split.
  - by eexists.
  - split; intros H; by apply prefix_cons_inv_1 in H.
  - split; [|split; [|done]]; apply simple_name; apply (bool_decide_unpack _); by vm_compute.
  - split; [done|apply (Hfree ["by-time"; "25"; "01"; "02"; "03"])| | | |by vm_compute].
    + split; [done|]. intros q Hq [r Hr]. unfold tmp in Hr. destruct q as [|a [|b [|c q]]]; simplify_eq/=; by vm_compute.
    + split; intros H; by apply prefix_cons_inv_1 in H.
    + intros r. split; in_data.
  - split; [apply (Hfree ["by-task"; "7"; "01"; "02"])|by vm_compute].
  - split; [apply (Hfree ["by-session"; "01"; "02"])|by vm_compute].
  - split; [|split]; apply (bool_decide_unpack _); by vm_compute.
Qed.

Lemma disk_elem p n : disk !! p = Some n -> (p, n) ∈ [(["data"], Dir); (["tmp"], Dir); (tmp, Dir);
  (["tmp"; "trace1"; "log.json"], File (Bytes "{}")); (["tmp"; "trace1"; "sub"], Dir);
  (["tmp"; "trace1"; "sub"; "err.txt"], File (Bytes "!")); (["out"], Dir)].
Proof. apply elem_of_list_to_map_2. Qed.

Lemma disk_reader : reader ["data"] (a_trace false) tmp ["out"] disk.
Proof.
  split.
  - intros q Hq [r Hr]. destruct q as [|a [|b q]]; simplify_eq/=; by vm_compute.
  - done.
  - split; intros H; by apply prefix_cons_inv_1 in H.
  - split; intros H; by apply prefix_cons_inv_1 in H.
  - intros r. split; in_data.
  - replace (only_top_file tmp disk) with (None : option string) by (by vm_compute).
    intros r d Hd%disk_elem. repeat (apply elem_of_cons in Hd as [Hd|Hd]; [|]); try (by apply elem_of_nil in Hd);
      injection Hd as Hd; try done; by subst r.
  - intros r x n Hd%disk_elem.
    assert (Hcut : forall q p : path, (tmp ++ r ++ [x])%list = q -> p = parent q -> disk !! p = Some Dir -> disk !! (tmp ++ r)%list = Some Dir).
    { intros q p <- -> H. by rewrite app_assoc, parent_app in H. }
    repeat (apply elem_of_cons in Hd as [Hd|Hd]; [apply (f_equal fst) in Hd; cbn [fst] in Hd|]); try (by apply elem_of_nil in Hd);
      (eapply Hcut; [exact Hd|reflexivity|by vm_compute]) || (apply (f_equal length) in Hd; rewrite !length_app in Hd; simpl in Hd; lia).
Qed.

End Examples.
