(* ===== verification/Fsdp.v ===== *)
(** * The training workers

    Models trainer/workers/fsdp_worker.py: packing samples into micro-batches,
    collating a micro-batch into the inputs of the model, and the pass over a
    mini-batch by all ranks, with its losses, its gradients and its metrics.
    The packages binpacking and torch (the sampler of a rank, the model, the
    optimizer) are arguments; numbers are exact, and a tensor divided by zero,
    which torch answers with nan or inf, is 0.  A gradient is represented by
    the losses whose gradients are added up in it.  Moving tensors between
    devices or through ray's store keeps them. *)

From stdpp Require Import sorting.
From S2P Require Import Prelude PyVal Advantage Sequences Schedules Losses Rollout.

#[local] Open Scope Qc_scope.

(** ** Data *)

(** What a sample holds under a key: a two-dimensional tensor, the dictionary
    of multi-modal inputs, or a plain value. *)
Inductive value : Type :=
| Tensor (t : tensor)
| Modal (d : list (string * tensor))
| Int (z : Z)
| Float (q : Qc)
| Str (s : string)
| Obj (v : val).

Abbreviation sample := (list (string * value)).

(** What the collated inputs hold: a concatenated tensor, a tensor stacked
    along a new dimension, a list of values, the ends of the samples. *)
Inductive cell : Type :=
| Cat (t : tensor)
| Stack (l : list tensor)
| Listed (l : list value)
| Ends (l : list Z).

Abbreviation inputs := (list (string * cell)).

(** ** Values *)

Definition nth_r {A} (l : list A) (i : nat) : res A := match l !! i with Some x => Ok x | None => Raise IndexError end.

Definition as_int (v : value) : res Z := match v with Int z => Ok z | _ => Raise TypeError end.
Definition as_number (v : value) : res Qc :=
  match v with Int z => Ok (ofZ z) | Float q => Ok q | _ => Raise TypeError end.

#[export] Instance value_eq_str : forall s v, Decision (v = Str s).
Proof. intros s v. destruct v as [| | | |s'|]; try (right; congruence). destruct (decide (s' = s)) as [->|]; [by left|right; congruence]. Defined.

(** [torch.cat(v, dim=1)]: tensors with as many rows each. *)
Definition cat1 (t u : tensor) : tensor := zip_with app t u.
Fixpoint cat_all (t : tensor) (l : list value) : res tensor :=
  match l with
  | [] => Ok t
  | Tensor u :: l =>
      if bool_decide (length t = length u) then cat_all (cat1 t u) l
      else Raise (RuntimeError "Sizes of tensors must match except in dimension 1.")
  | _ :: _ => Raise TypeError
  end.

(** [torch.stack(v, dim=1)]: tensors of one shape. *)
Definition stack (t : tensor) (l : list tensor) : res (list tensor) :=
  if forallb (fun u => bool_decide (shape u = shape t)) l then Ok (t :: l)
  else Raise (RuntimeError "stack expects each tensor to be equal size").

(** ** Packing *)

Section packing.
Context (to_constant_volume : list (nat * Z) -> Z -> list (list (nat * Z))).
Context (to_constant_bin_number : list (nat * Z) -> Z -> list (list (nat * Z))).

(** [d["seq_len"]] of every sample, with its position *)
Fixpoint seq_lens_from (i : nat) (data : list sample) : res (list (nat * Z)) :=
  match data with
  | [] => Ok []
  | d :: data => v ← required (dget "seq_len" d); z ← as_int v; l ← seq_lens_from (S i) data; Ok ((i, z) :: l)
  end.

(** [math.ceil(n / m) * m] *)
Definition round_up (n m : Z) : Z := - (- n / m) * m.

(* trainer/workers/fsdp_worker.py:55-61 pack *)
Definition pack (data : list sample) (max_tokens multiple_of : Z) : res (list (list sample)) :=
  seq_lens ← seq_lens_from 0 data;
  let bins := to_constant_volume seq_lens max_tokens in
  let num_bins := round_up (Z.of_nat (length bins)) multiple_of in
  let bins := to_constant_bin_number seq_lens num_bins in
  map_r (fun b => map_r (fun kv => nth_r data kv.1) b) bins.
End packing.

(** ** Collating *)

(** One round of the loop over a batch. *)
(* trainer/workers/fsdp_worker.py:185-197 FSDPWorker.collate *)
Definition gather_item (acc : list (string * list value) * list (string * list tensor)) (item : sample)
    : res (list (string * list value) * list (string * list tensor)) :=
  ids ← required (dget "input_ids" item);
  len ← match ids with Tensor t => Ok (width t) | _ => Raise AttributeError end;
  n ← required (dget "seq_len" item);
  if match n with Int z => bool_decide (z = len) | _ => false end then
    foldl (fun r kv =>
      '(text, modal) ← r;
      if bool_decide (kv.1 = "multi_modal_inputs") then
        match kv.2 with
        | Modal d => Ok (text, append_to_dict modal d)
        | _ => Raise AttributeError
        end
      else Ok (append_to_dict text [kv], modal)) (Ok acc) item
  else Raise AssertionError.

Fixpoint gather_items (acc : list (string * list value) * list (string * list tensor)) (batch : list sample)
    : res (list (string * list value) * list (string * list tensor)) :=
  match batch with
  | [] => Ok acc
  | item :: batch => acc ← gather_item acc item; gather_items acc batch
  end.

(** The values collected under one key. *)
(* trainer/workers/fsdp_worker.py:202-209 FSDPWorker.collate *)
Definition collate_cell (packing : bool) (v : list value) : res cell :=
  match v with
  | [] => Raise IndexError
  | Tensor t :: l => if packing then t ← cat_all t l; Ok (Cat t) else Raise NotImplementedError
  | _ => Ok (Listed v)
  end.

(* trainer/workers/fsdp_worker.py:210-214 FSDPWorker.collate *)
Definition collate_modal (v : list tensor) : res cell :=
  match v with [] => Raise IndexError | t :: l => l ← stack t l; Ok (Stack l) end.

(* trainer/workers/fsdp_worker.py:173-217 FSDPWorker.collate *)
Definition collate (packing : bool) (batch : list sample) : res inputs :=
  '(text, modal) ← gather_items ([], []) batch;
  seq_len ← required (dget "seq_len" text);
  lens ← map_r as_int seq_len;
  let indices := cumsum 0 lens in
  if negb packing || dmem "position_ids" text then
    model_inputs ← map_r (fun kv => c ← collate_cell packing kv.2; Ok (kv.1, c)) text;
    modal_inputs ← map_r (fun kv => c ← collate_modal kv.2; Ok (kv.1, c)) modal;
    Ok (dset "indices" (Ends indices) (dupdate model_inputs modal_inputs))
  else Raise AssertionError.

(** An item of the data set of micro-batches. *)
(* trainer/workers/fsdp_worker.py:64-73 ListDataset.__getitem__ *)
Definition dataset_item (data : list (list sample)) (idx : nat) : res (nat * inputs) :=
  batch ← nth_r data idx; c ← collate true batch; Ok (idx, c).

(** ** The pass over a mini-batch *)

(** [init_distributed]: the shape of the mesh of ranks. *)
(* trainer/workers/fsdp_worker.py:96-106 FSDPWorker.init_distributed *)
Definition mesh_shape (world_size : Z) (fsdp_size : option Z) : Z * Z :=
  let fsdp_size := default (-1)%Z fsdp_size in
  let fsdp_size := if bool_decide (fsdp_size = (-1)%Z) then world_size else fsdp_size in
  ((world_size / fsdp_size)%Z, fsdp_size).

(** A sample gets its position, and a weight when it has none. *)
(* trainer/workers/fsdp_worker.py:258-262 FSDPWorker.forward_backward *)
Definition prepare (i : nat) (item : sample) : sample :=
  let item := dset "sample_idx" (Int (Z.of_nat i)) item in
  if dmem "loss_weight" item then item else dset "loss_weight" (Float 1) item.

Definition weight_of (item : sample) : res Qc := w ← required (dget "loss_weight" item); as_number w.

(** Sorting by index, [list.sort] being stable. *)
Section by_key.
Context {A : Type}.
Fixpoint insert_key (x : Z * A) (l : list (Z * A)) : list (Z * A) :=
  match l with
  | [] => [x]
  | y :: l => if bool_decide (x.1 <= y.1)%Z then x :: y :: l else y :: insert_key x l
  end.
Definition sort_by_key (l : list (Z * A)) : list (Z * A) := foldr insert_key [] l.
End by_key.

Section passes.
Context {E P Mv : Type}.

(** What the model gives under a key: a tensor with a row for each sequence, or
    something else. *)
Inductive out : Type :=
| OTensor (t : list (list E))
| OOther (v : val).

#[local] Abbreviation output := (list (string * out)).
#[local] Abbreviation metric := (list (string * Mv)).

Context (to_constant_volume to_constant_bin_number : list (nat * Z) -> Z -> list (list (nat * Z))).
(** [DistributedSampler(ds, shuffle=False)]: the indices of a rank, from the length of
    the data set and the number of ranks *)
Context (sampler : nat -> nat -> nat -> list nat).
(** The forward pass with some parameters. *)
Context (forward : P -> inputs -> output).
(** [clip_grad_norm_] and the step of the optimizer: the gradient's norm and the
    new parameters *)
Context (optimize : Qc -> P -> list (list Qc) -> Qc * P).

(** The options the pass reads. *)
Record options := {
  max_tokens_per_micro_batch : Z;
  model_input_keys : list string;
  grad_clip : option Qc
}.

(** What is built, the losses in the gradient, and the value given to
    [set_is_last_backward] before each forward pass.  An attribute that has not
    been assigned raises [AttributeError]. *)
Record worker := {
  model : option P;
  has_optimizer : bool;
  training : bool;
  gradient : list Qc;
  last_flags : list bool
}.

(** The inputs named by [model_input_keys] *)
Definition model_inputs (o : options) (i : inputs) : inputs := filter (fun kv => kv.1 ∈ model_input_keys o) i.

(** [{k: v[:, last:index] ...}] *)
Definition slice_output (last index : Z) (o : output) : output :=
  (fun kv => (kv.1, match kv.2 with
                    | OTensor t => OTensor (slice (Some last) (Some index) <$> t)
                    | OOther v => OOther v
                    end)) <$> o.

(** A loss function takes a sample, or the inputs of a whole micro-batch. *)
Context (loss_fn : sample + inputs -> output -> res (Qc * metric)).

Definition listed (k : string) (i : inputs) : res (list value) :=
  c ← required (dget k i); match c with Listed l => Ok l | _ => Raise TypeError end.

(** The loop over the samples of a micro-batch; [mini_batch] is the whole one. *)
(* trainer/workers/fsdp_worker.py:285-296 FSDPWorker.forward_backward *)
Fixpoint unpack_loop (mini_batch micro_batch : list sample) (sample_idx : list value) (o : output)
    (batch_weight : Qc) (i : nat) (last_idx : Z) (indices : list Z) : res (list (Z * metric) * list Qc) :=
  match indices with
  | [] => Ok ([], [])
  | index :: indices =>
      let output_item := slice_output last_idx index o in
      idx ← nth_r sample_idx i;
      idx ← as_int idx;
      item ← nth_r micro_batch i;
      whole ← nth_r mini_batch (Z.to_nat idx);
      uid ← required (dget "uid" whole);
      uid' ← required (dget "uid" item);
      if match uid, uid' with Str s, Str s' => bool_decide (s = s') | _, _ => false end then
        '(loss, metric) ← loss_fn (inl item) output_item;
        w ← weight_of item;
        '(metrics, losses) ← unpack_loop mini_batch micro_batch sample_idx o batch_weight (S i) index indices;
        Ok ((idx, metric) :: metrics, loss * w / batch_weight :: losses)
      else Raise AssertionError
  end.

(** One micro-batch: its metrics and its loss. *)
(* trainer/workers/fsdp_worker.py:275-300 FSDPWorker.forward_backward *)
Definition micro_batch_loss (o : options) (p : P) (unpack : bool) (mini_batch : list sample)
    (micro_batches : list (list sample)) (batch_idx : nat) (ins : inputs) : res (list (Z * metric) * Qc * Qc) :=
  weights ← listed "loss_weight" ins;
  weights ← map_r as_number weights;
  let batch_weight := sum weights in
  let out := forward p (model_inputs o ins) in
  if unpack then
    ends ← required (dget "indices" ins);
    indices ← match ends with Ends l => Ok l | _ => Raise TypeError end;
    sample_idx ← listed "sample_idx" ins;
    micro_batch ← nth_r micro_batches batch_idx;
    '(metrics, losses) ← unpack_loop mini_batch micro_batch sample_idx out batch_weight 0 0 indices;
    Ok (metrics, sum losses, batch_weight)
  else
    '(loss, metric) ← loss_fn (inr ins) out;
    Ok ([(Z.of_nat batch_idx, metric)], loss, batch_weight).

Definition set_training (b : bool) (w : worker) : worker :=
  {| model := model w; has_optimizer := has_optimizer w; training := b; gradient := gradient w; last_flags := last_flags w |}.
Definition set_last (b : bool) (w : worker) : worker :=
  {| model := model w; has_optimizer := has_optimizer w; training := training w; gradient := gradient w;
     last_flags := last_flags w ++ [b] |}.

(** [loss.backward()] *)
Definition backward (loss : Qc) (w : worker) : worker :=
  {| model := model w; has_optimizer := has_optimizer w; training := training w;
     gradient := gradient w ++ [loss]; last_flags := last_flags w |}.

(** The body of the loop over the micro-batches of a rank. *)
(* trainer/workers/fsdp_worker.py:273-304 FSDPWorker.forward_backward *)
Definition micro_batch_step (o : options) (p : P) (forward_only unpack : bool) (mini_batch : list sample)
    (micro_batches : list (list sample)) (full_weight : Qc) (total_batches batch_idx : nat)
    : M worker (list (Z * metric)) :=
  '(batch_idx, ins) ← lift_res (dataset_item micro_batches batch_idx);
  modify (set_last (bool_decide (batch_idx = total_batches)));;
  '(metrics, loss, batch_weight) ← lift_res (micro_batch_loss o p unpack mini_batch micro_batches batch_idx ins);
  (if forward_only then mret tt else modify (backward (loss * batch_weight / full_weight)));;
  mret metrics.

(** What a rank does before the metrics are gathered. *)
(* trainer/workers/fsdp_worker.py:230-304 FSDPWorker.forward_backward *)
Definition local_pass (o : options) (mesh_size : nat) (mini_batch : list sample) (forward_only unpack : bool)
    (rank : nat) : M worker (list (Z * metric)) :=
  p ← get ≫= (fun w => lift_res (match model w with Some p => Ok p | None => Raise AttributeError end));
  optimizer ← gets has_optimizer;
  (if forward_only || optimizer then mret tt else raise AttributeError);;
  modify (set_training (negb forward_only));;
  let mini_batch := imap prepare mini_batch in
  weights ← lift_res (map_r weight_of mini_batch);
  let full_weight := sum weights / of_nat mesh_size in
  micro_batches ← lift_res (pack to_constant_volume to_constant_bin_number mini_batch
                              (max_tokens_per_micro_batch o) (Z.of_nat mesh_size));
  let mine := sampler (length micro_batches) mesh_size rank in
  metrics ← map_m (micro_batch_step o p forward_only unpack mini_batch micro_batches full_weight (length mine)) mine;
  mret (mjoin metrics).

(** All ranks do the same up to a collective operation; when one raises, the
    others never get past that operation. *)
Fixpoint all_ranks {A} (f : nat -> M worker A) (rank : nat) (ws : list worker) : list worker * res (list A) :=
  match ws with
  | [] => ([], Ok [])
  | w :: ws =>
      let '(w, r) := f rank w in
      let '(ws, rs) := all_ranks f (S rank) ws in
      (w :: ws, r ← r; rs ← rs; Ok (r :: rs))
  end.

(* trainer/workers/fsdp_worker.py:229-317 FSDPWorker.forward_backward *)
Definition forward_backward (o : options) (mini_batch : list sample) (forward_only unpack : bool)
    : M (list worker) (list (string * list Mv)) := fun ws =>
  let '(ws, all_metrics) := all_ranks (local_pass o (length ws) mini_batch forward_only unpack) 0 ws in
  (ws, all_metrics ← all_metrics;
       let flattened_metrics := sort_by_key (mjoin all_metrics) in
       Ok (foldl (fun metrics im => append_to_dict metrics im.2) [] flattened_metrics)).

(** The step of the optimizer on one rank; [grads] is what all ranks have added up,
    which is averaged over them. *)
(* trainer/workers/fsdp_worker.py:319-330 FSDPWorker.step *)
Definition step_rank (o : options) (grads : list (list Qc)) : M worker Qc :=
  w ← get;
  (if has_optimizer w then mret tt else raise AttributeError);;
  p ← lift_res (match model w with Some p => Ok p | None => Raise AttributeError end);
  let '(grad_norm, p) := optimize (default 1 (grad_clip o)) p grads in
  put {| model := Some p; has_optimizer := true; training := training w; gradient := []; last_flags := last_flags w |};;
  mret grad_norm.

Definition step (o : options) : M (list worker) (list Qc) := fun ws =>
  all_ranks (fun _ => step_rank o (gradient <$> ws)) 0 ws.
End passes.

(** ** Proofs: sorting by index *)

Section by_key_facts.
Context {A : Type}.
Implicit Types l : list (Z * A).

Lemma insert_key_perm x l : insert_key x l ≡ₚ x :: l.
Proof.
  induction l as [|y l IH]; simpl; [done|]. case_bool_decide; [done|]. rewrite IH. apply Permutation_swap.
Qed.

Lemma sort_by_key_perm l : sort_by_key l ≡ₚ l.
Proof. induction l as [|x l IH]; simpl; [done|]. by rewrite insert_key_perm, IH. Qed.

Lemma insert_key_sorted x l :
  StronglySorted Z.le l.*1 -> StronglySorted Z.le (insert_key x l).*1.
Proof.
  induction l as [|y l IH]; simpl; intros H; [by repeat constructor|].
  apply StronglySorted_inv in H as [Hs Hf]. case_bool_decide as Hd; simpl.
  - constructor; [by constructor|]. constructor; [done|].
    eapply Forall_impl; [exact Hf|]. simpl. intros; lia.
  - constructor; [by apply IH|]. rewrite Forall_fmap.
    rewrite Forall_fmap in Hf. rewrite insert_key_perm. constructor; [simpl; lia|done].
Qed.

Lemma sort_by_key_sorted l : StronglySorted Z.le (sort_by_key l).*1.
Proof. induction l; simpl; [constructor|by apply insert_key_sorted]. Qed.

(** Values named by distinct positions come back in the order of the positions. *)
Lemma sort_by_key_seq (f : nat -> A) l n :
  l ≡ₚ (fun i => (Z.of_nat i, f i)) <$> seq 0 n -> sort_by_key l = (fun i => (Z.of_nat i, f i)) <$> seq 0 n.
Proof.
  intros Hp. rewrite <- sort_by_key_perm in Hp. pose proof (sort_by_key_sorted l) as Hs.
  remember (sort_by_key l) as s eqn:E. clear E l.
  assert (Hk : s.*1 = Z.of_nat <$> seq 0 n).
  { apply (StronglySorted_unique Z.le); [done| |].
    - clear. generalize 0%nat. induction n as [|n IH]; intros k; simpl; constructor; [apply IH|].
      rewrite Forall_fmap, Forall_seq. simpl. intros; lia.
    - rewrite Hp, <- list_fmap_compose. done. }
  assert (Hf : Forall (fun x => exists i, x = (Z.of_nat i, f i)) s).
  { rewrite Hp, Forall_fmap. apply Forall_true. intros i. by exists i. }
  clear Hp Hs. revert Hk. generalize (seq 0 n). induction Hf as [|x s [i ->] _ IH]; intros [|j js] Hk; try done.
  simpl in *. injection Hk as Hi Hk. apply Nat2Z.inj in Hi as ->. f_equal. by apply IH.
Qed.
End by_key_facts.

(** ** Proofs: collecting the values of a batch *)

Lemma append_to_dict_cons {V} (acc : list (string * list V)) kv d :
  append_to_dict acc (kv :: d) = append_to_dict (append_to_dict acc [kv]) d.
Proof. done. Qed.

Lemma append_to_dict_lookup {V} (acc : list (string * list V)) (d : list (string * V)) k :
  dict_wf d ->
  dget k (append_to_dict acc d) =
    match dget k d with
    | Some v => Some (default [] (dget k acc) ++ [v])
    | None => dget k acc
    end.
Proof.
  revert acc. induction d as [|[k' v] d IH]; intros acc Hd; [done|].
  rewrite append_to_dict_cons. unfold dict_wf, dkeys in Hd. apply NoDup_cons in Hd as [Hn Hd].
  rewrite IH by done. simpl. rewrite dget_dset. destruct (decide (k = k')) as [->|Hne]; [|done].
  replace (dget k' d) with (None : option V); [done|]. symmetry. by apply dget_None.
Qed.

Lemma append_to_dict_wf {V} (acc : list (string * list V)) (d : list (string * V)) :
  dict_wf acc -> dict_wf (append_to_dict acc d).
Proof.
  revert acc. induction d as [|kv d IH]; intros acc H; [done|]. rewrite append_to_dict_cons. apply IH.
  simpl. auto with agentrl.
Qed.

(** What the trainer gives the workers: [tk] are the keys that hold tensors, of
    one row each, the token ids as long as [seq_len] says, and the weight, when
    there is one, is positive. *)
Record sample_ok (tk : list string) (d : sample) : Prop := {
  so_wf : dict_wf d;
  so_ids : "input_ids" ∈ tk ∧ "position_ids" ∈ tk ∧ "seq_len" ∉ tk ∧ "uid" ∉ tk ∧ "loss_weight" ∉ tk ∧ "sample_idx" ∉ tk;
  so_tensor : forall k v, dget k d = Some v -> k ∈ tk -> exists r, v = Tensor [r];
  so_plain : forall k v, dget k d = Some v -> k ∉ tk -> forall t, v ≠ Tensor t;
  so_len : exists r, dget "input_ids" d = Some (Tensor [r]) ∧ dget "seq_len" d = Some (Int (Z.of_nat (length r)));
  so_pos : is_Some (dget "position_ids" d);
  so_modal : dget "multi_modal_inputs" d = None;
  so_uid : exists s, dget "uid" d = Some (Str s);
  so_weight : forall v, dget "loss_weight" d = Some v -> exists q, as_number v = Ok q ∧ 0 < q
}.

Definition row_of (k : string) (d : sample) : list Qc :=
  match dget k d with Some (Tensor (r :: _)) => r | _ => [] end.
Definition seq_len_of (d : sample) : nat := length (row_of "input_ids" d).

(** What a collated batch holds under a key other than "indices". *)
Definition collected (tk : list string) (k : string) (batch : list sample) : option cell :=
  match omap (dget k) batch with
  | [] => None
  | l => Some (if decide (k ∈ tk) then Cat [mjoin (row_of k <$> batch)] else Listed l)
  end.

Lemma gather_plain text (item : sample) : dget "multi_modal_inputs" item = None ->
  foldl (fun r kv =>
      '(text, modal) ← r;
      if bool_decide (kv.1 = "multi_modal_inputs") then
        match kv.2 with
        | Modal d => Ok (text, append_to_dict modal d)
        | _ => Raise AttributeError
        end
      else Ok (append_to_dict text [kv], modal)) (Ok (text, [])) item = Ok (append_to_dict text item, []).
Proof.
  revert text. induction item as [|[k v] item IH]; intros text Hm; [done|].
  simpl in Hm. case_decide as Hk; [done|]. cbn [foldl mbind res_bind fst snd].
  rewrite bool_decide_false by done. rewrite IH by done. by rewrite append_to_dict_cons.
Qed.

Lemma sample_width tk d : sample_ok tk d -> exists r,
  dget "input_ids" d = Some (Tensor [r]) ∧ dget "seq_len" d = Some (Int (Z.of_nat (seq_len_of d))).
Proof.
  intros [? ? ? ? (r & Hi & Hl) ? ? ? ?]. exists r. split; [done|].
  unfold seq_len_of, row_of. by rewrite Hi.
Qed.

Lemma gather_item_ok tk text d : sample_ok tk d -> gather_item (text, []) d = Ok (append_to_dict text d, []).
Proof.
  intros Hd. unfold gather_item. destruct (so_len _ _ Hd) as (r & Hi & Hl). rewrite Hi, Hl.
  cbn [required mbind res_bind]. unfold width. simpl. rewrite bool_decide_true by done.
  by apply gather_plain, (so_modal tk).
Qed.

Lemma gather_items_ok tk text batch : Forall (sample_ok tk) batch ->
  gather_items (text, []) batch = Ok (foldl append_to_dict text batch, []).
Proof.
  intros H. revert text. induction H as [|d batch Hd _ IH]; intros text; simpl; [done|].
  rewrite (gather_item_ok tk) by done. simpl. apply IH.
Qed.

Lemma collected_values tk k (batch : list sample) text : Forall (sample_ok tk) batch ->
  dget k (foldl append_to_dict text batch) =
    match omap (dget k) batch with [] => dget k text | l => Some (default [] (dget k text) ++ l) end.
Proof.
  intros H. revert text. induction H as [|d batch Hd _ IH]; intros text; simpl; [done|].
  rewrite IH, append_to_dict_lookup by apply Hd. destruct (dget k d) as [v|]; simpl; [|done].
  change (list_omap sample value (dget k) batch) with (omap (dget k) batch).
  destruct (omap (dget k) batch) as [|v' l]; [done|]. by rewrite <- app_assoc.
Qed.

Lemma collected_wf (batch : list sample) text : dict_wf text -> dict_wf (foldl append_to_dict text batch).
Proof. revert text. induction batch as [|d batch IH]; intros text H; simpl; [done|]. by apply IH, append_to_dict_wf. Qed.

Lemma cat_rows tk k r (batch : list sample) : Forall (sample_ok tk) batch -> k ∈ tk ->
  cat_all [r] (omap (dget k) batch) = Ok [r ++ mjoin (row_of k <$> batch)].
Proof.
  intros H Hk. revert r. induction H as [|d batch Hd _ IH]; intros r; simpl; [by rewrite app_nil_r|].
  unfold row_of at 1. destruct (dget k d) as [v|] eqn:E; [|simpl; apply IH].
  destruct (so_tensor _ _ Hd k v E Hk) as [u ->]. simpl. rewrite IH. f_equal. f_equal. by rewrite <- app_assoc.
Qed.

Lemma collect_cell tk k (batch : list sample) : Forall (sample_ok tk) batch -> omap (dget k) batch ≠ [] ->
  exists c, collected tk k batch = Some c ∧ collate_cell true (omap (dget k) batch) = Ok c.
Proof.
  intros H. induction H as [|d batch Hd Hb IH]; [done|]. unfold collected in *. simpl.
  unfold row_of at 1. destruct (dget k d) as [v|] eqn:E; [|simpl; exact IH]. intros _. clear IH.
  eexists. split; [done|]. case_decide as Hk.
  - destruct (so_tensor _ _ Hd k v E Hk) as [u ->]. simpl. by rewrite (cat_rows tk) by done.
  - pose proof (so_plain _ _ Hd k v E Hk) as Hv. destruct v; simpl; try done. by destruct (Hv t).
Qed.

Lemma dget_map {V W} (h : string -> V -> W) (d : list (string * V)) k :
  dget k ((fun kv => (kv.1, h kv.1 kv.2)) <$> d) = h k <$> dget k d.
Proof. induction d as [|[k' v] d IH]; simpl; [done|]. case_decide as Hk; [by rewrite Hk|done]. Qed.

Lemma sample_values tk (batch : list sample) : Forall (sample_ok tk) batch ->
  omap (dget "seq_len") batch = (fun d => Int (Z.of_nat (seq_len_of d))) <$> batch.
Proof.
  induction 1 as [|d batch Hd _ IH]; [done|]. destruct (sample_width _ _ Hd) as (r & _ & Hl).
  cbn. rewrite Hl. by rewrite IH.
Qed.

(** Collating a batch of such samples: under every key what was collected, and the
    ends of the samples. *)
Lemma collate_spec tk (batch : list sample) : batch ≠ [] -> Forall (sample_ok tk) batch ->
  exists ins, collate true batch = Ok ins ∧
    dget "indices" ins = Some (Ends (cumsum 0 ((fun d => Z.of_nat (seq_len_of d)) <$> batch))) ∧
    forall k, k ≠ "indices" -> dget k ins = collected tk k batch.
Proof.
  intros Hne Hb. unfold collate. rewrite (gather_items_ok tk) by done. cbn [mbind res_bind].
  set (text := foldl append_to_dict [] batch).
  assert (Hwf : dict_wf text) by (apply collected_wf; constructor).
  assert (Hget : forall k, dget k text = match omap (dget k) batch with [] => None | l => Some l end).
  { intros k. unfold text. rewrite (collected_values tk) by done. simpl. by destruct (omap _ _). }
  rewrite Hget, (sample_values tk) by done. destruct batch as [|d0 batch]; [done|]. cbn [fmap list_fmap].
  cbn [required mbind res_bind].
  rewrite (map_r_ok _ (fun v => match v with Int z => z | _ => 0%Z end)).
  2:{ constructor; [done|]. apply Forall_fmap, Forall_true. done. }
  cbn [mbind res_bind].
  assert (Hp : dmem "position_ids" text = true).
  { unfold dmem. rewrite Hget. apply Forall_cons in Hb as [H0 _]. destruct (so_pos _ _ H0) as [v Hv].
    cbn. by rewrite Hv. }
  rewrite Hp. cbn [negb orb].
  rewrite (map_r_ok _ (B := string * cell) (A := string * list value) (fun kv => (kv.1, default (Listed []) (collected tk kv.1 (d0 :: batch))))).
  2:{ apply Forall_forall. intros [k v] Hin. simpl. pose proof (in_dget _ _ _ Hwf Hin) as Hv. rewrite Hget in Hv.
      destruct (omap (dget k) (d0 :: batch)) as [|v0 l] eqn:E; [done|]. simplify_eq.
      destruct (collect_cell tk k (d0 :: batch) Hb ltac:(by rewrite E)) as (c & Hc & Hcell).
      rewrite E in Hcell. rewrite Hcell, Hc. done. }
  cbn [mbind res_bind map_r]. eexists. split; [done|]. split.
  { rewrite dget_dset_eq. do 3 f_equal. simpl. f_equal. rewrite <- list_fmap_compose. done. }
  intros k Hk. rewrite dget_dset_ne by done. cbn [dupdate foldl].
  change (dupdate ?x []) with x.
  rewrite (dget_map (fun k _ => default (Listed []) (collected tk k (d0 :: batch)))).
  rewrite Hget. unfold collected. destruct (omap (dget k) (d0 :: batch)); done.
Qed.

(** ** Proofs: slices of the packed output *)

Section outputs.
Context {E : Type}.
#[local] Abbreviation output := (list (string * out (E := E))).

(** Every tensor has one row of [n] entries. *)
Definition wide (n : nat) (o : output) : Prop :=
  Forall (fun kv => match kv.2 with OTensor t => exists r, t = [r] ∧ length r = n | OOther _ => True end) o.

(** The same keys, tensors under the same keys, the same other values. *)
Definition like : output -> output -> Prop :=
  Forall2 (fun a b => a.1 = b.1 ∧
    match a.2, b.2 with OTensor _, OTensor _ => True | OOther v, OOther w => v = w | _, _ => False end).

(** One output after the other, along the sequence. *)
Definition cat_outputs : output -> output -> output :=
  zip_with (fun a b => (a.1, match a.2, b.2 with OTensor t, OTensor u => OTensor (zip_with app t u) | v, _ => v end)).

Lemma slice_whole n (a : output) : wide n a -> slice_output 0 (Z.of_nat n) a = a.
Proof.
  induction 1 as [|[k v] a Hv _ IH]; simpl; [done|]. f_equal; [|apply IH]. f_equal.
  destruct v as [t|v]; [|done]. destruct Hv as (r & -> & <-). simpl.
  change 0%Z with (Z.of_nat 0). rewrite slice_nat, drop_0, Nat.sub_0_r. by rewrite firstn_all.
Qed.

Lemma slice_head n (a b : output) : wide n a -> like a b ->
  Forall (fun kv => match kv.2 with OTensor t => length t = 1%nat | _ => True end) b ->
  slice_output 0 (Z.of_nat n) (cat_outputs a b) = a.
Proof.
  intros Hw Hl. revert Hw. induction Hl as [|[k v] [k' v'] a b [Hk Hv] _ IH]; simpl; intros Hw Hb; [done|].
  apply Forall_cons in Hw as [H1 Hw]. apply Forall_cons in Hb as [H2 Hb]. f_equal; [|by apply IH]. f_equal.
  simpl in *. destruct v as [t|v], v' as [t'|v']; try done. destruct H1 as (r & -> & <-).
  destruct t' as [|u [|]]; try done. simpl. change 0%Z with (Z.of_nat 0).
  rewrite slice_nat, drop_0, Nat.sub_0_r. by rewrite take_app_length.
Qed.

Lemma slice_tail n x y (a b : output) : wide n a -> like a b ->
  Forall (fun kv => match kv.2 with OTensor t => length t = 1%nat | _ => True end) b ->
  slice_output (Z.of_nat (n + x)) (Z.of_nat (n + y)) (cat_outputs a b) = slice_output (Z.of_nat x) (Z.of_nat y) b.
Proof.
  intros Hw Hl. revert Hw. induction Hl as [|[k v] [k' v'] a b [Hk Hv] _ IH]; simpl; intros Hw Hb; [done|].
  apply Forall_cons in Hw as [H1 Hw]. apply Forall_cons in Hb as [H2 Hb]. f_equal; [|by apply IH].
  simpl in *. subst k'. f_equal. destruct v as [t|v], v' as [t'|v']; simpl in *; try done; [|by subst].
  destruct H1 as (r & -> & <-). destruct t' as [|u [|]]; try done. simpl. rewrite !slice_nat.
  rewrite drop_app_ge by lia. do 3 f_equal; [lia|f_equal; lia].
Qed.

Lemma wide_rows n (b : output) : wide n b ->
  Forall (fun kv => match kv.2 with OTensor t => length t = 1%nat | _ => True end) b.
Proof.
  intros H. eapply Forall_impl; [exact H|]. intros [k [t|v]]; simpl; [by intros (r & -> & _)|done].
Qed.

Lemma wide_cat n m (a b : output) : wide n a -> wide m b -> like a b -> wide (n + m) (cat_outputs a b).
Proof.
  intros Hw Hw' Hl. revert Hw Hw'. induction Hl as [|[k v] [k' v'] a b [Hk Hv] _ IH]; intros Hw Hw'; [constructor|].
  apply Forall_cons in Hw as [H1 Hw]. apply Forall_cons in Hw' as [H2 Hw']. constructor; [|by apply IH].
  simpl in *. destruct v as [t|v], v' as [t'|v']; try done. destruct H1 as (r & -> & <-), H2 as (u & -> & <-).
  exists (r ++ u). split; [done|]. by rewrite length_app.
Qed.

Lemma like_cat (c a b : output) : like c a -> like a b -> like c (cat_outputs a b).
Proof.
  intros Hc Hl. revert c Hc. induction Hl as [|[k v] [k' v'] a b [Hk Hv] _ IH]; intros c Hc.
  { inversion Hc. constructor. }
  apply Forall2_cons_inv_r in Hc as ([k0 v0] & c' & [H1 H2] & Hc & ->). constructor; [|by apply IH].
  simpl in *. split; [done|]. by destruct v0, v, v'.
Qed.
End outputs.

(** ** Proofs: one micro-batch *)

Lemma nth_r_ok {A} (l : list A) i x : l !! i = Some x -> nth_r l i = Ok x.
Proof. unfold nth_r. by intros ->. Qed.

Section micro.
Context {E P Mv : Type} (forward : P -> inputs -> list (string * out (E := E))) (tk : list string) (o : options) (p : P).
Context (loss_fn : sample + inputs -> list (string * out (E := E)) -> res (Qc * list (string * Mv))).

(** The model on a batch, and on a sample alone. *)
Definition batch_output (batch : list sample) : list (string * out (E := E)) :=
  match collate true batch with Ok ins => forward p (model_inputs o ins) | Raise _ => [] end.
Definition alone (d : sample) : list (string * out (E := E)) := batch_output [d].

(** What the trainer relies on of the model: attention does not cross from one
    sample of a packed sequence into another, as the position ids tell, and the
    model gives a column for every token. *)
Record packed_attention : Prop := {
  pa_wide : forall d, sample_ok tk d -> wide (seq_len_of d) (alone d);
  pa_like : forall d d', sample_ok tk d -> sample_ok tk d' -> like (alone d) (alone d');
  pa_cat : forall d batch, Forall (sample_ok tk) (d :: batch) -> batch ≠ [] ->
    batch_output (d :: batch) = cat_outputs (alone d) (batch_output batch)
}.
Context (Hpacked : packed_attention).

Definition lens (batch : list sample) : nat := sum_list_with seq_len_of batch.

Lemma batch_shape d0 batch : sample_ok tk d0 -> Forall (sample_ok tk) batch -> batch ≠ [] ->
  wide (lens batch) (batch_output batch) ∧ like (alone d0) (batch_output batch).
Proof.
  intros H0 H. revert d0 H0. induction H as [|d batch Hd Hb IH]; intros d0 H0 Hne; [done|]. clear Hne.
  destruct batch as [|d' batch].
  { unfold lens. simpl. rewrite Nat.add_0_r. split; [by apply (pa_wide Hpacked)|by apply (pa_like Hpacked)]. }
  rewrite (pa_cat Hpacked); [|by constructor|done].
  destruct (IH d Hd ltac:(done)) as [Hw Hl]. split.
  - apply wide_cat; [by apply (pa_wide Hpacked)|done..].
  - apply like_cat; [by apply (pa_like Hpacked)|done].
Qed.

(** The slice of a sample is what the model gives for it alone. *)
Lemma slice_sample pre d post : Forall (sample_ok tk) (pre ++ d :: post) ->
  slice_output (Z.of_nat (lens pre)) (Z.of_nat (lens pre + seq_len_of d)) (batch_output (pre ++ d :: post)) = alone d.
Proof.
  intros H. induction pre as [|x pre IH]; simpl in *.
  - apply Forall_cons in H as [Hd Hp]. destruct post as [|y post].
    { by apply slice_whole, (pa_wide Hpacked). }
    rewrite (pa_cat Hpacked); [|by constructor|done].
    destruct (batch_shape d (y :: post) Hd Hp ltac:(done)) as [Hw Hl].
    apply slice_head; [by apply (pa_wide Hpacked)|done|by eapply wide_rows].
  - apply Forall_cons in H as [Hx Hp].
    rewrite (pa_cat Hpacked); [|by constructor|by destruct pre].
    destruct (batch_shape x (pre ++ d :: post) Hx Hp ltac:(by destruct pre)) as [Hw Hl].
    unfold lens. simpl. rewrite <- Nat.add_assoc. rewrite slice_tail; [by apply IH|by apply (pa_wide Hpacked)|done|].
    by eapply wide_rows.
Qed.

Context (items : list sample) (results : list (Qc * list (string * Mv))).

Definition weight (d : sample) : Qc :=
  match dget "loss_weight" d with Some v => match as_number v with Ok q => q | Raise _ => 0 end | None => 1 end.

(** The metric of the sample at a position, and its loss times its weight. *)
Definition metric_at (i : nat) : list (string * Mv) := match results !! i with Some lm => lm.2 | None => [] end.
Definition part_at (i : nat) : Qc :=
  match items !! i, results !! i with Some d, Some lm => lm.1 * weight d | _, _ => 0 end.

Record prepared : Prop := {
  pr_ok : Forall (sample_ok tk) items;
  pr_idx : forall i d, items !! i = Some d -> dget "sample_idx" d = Some (Int (Z.of_nat i));
  pr_weight : forall i d, items !! i = Some d -> is_Some (dget "loss_weight" d);
  pr_results : Forall2 (fun d lm => loss_fn (inl d) (alone d) = Ok lm) items results
}.
Context (Hprep : prepared).

(** A micro-batch: some of the samples, with their positions. *)
Definition positioned (b : list (nat * sample)) : Prop := Forall (fun x => items !! x.1 = Some x.2) b.

Lemma positioned_ok b : positioned b -> Forall (sample_ok tk) b.*2.
Proof.
  intros H. rewrite Forall_fmap. eapply Forall_impl; [exact H|]. intros [i d] Hi. simpl in *.
  by eapply Forall_lookup_1; [apply Hprep|].
Qed.

Lemma weight_of_ok i d : items !! i = Some d -> weight_of d = Ok (weight d) ∧ 0 < weight d.
Proof.
  intros Hi. destruct (pr_weight Hprep i d Hi) as [v Hv]. unfold weight_of, weight. rewrite Hv. simpl.
  pose proof (Forall_lookup_1 _ _ _ _ (pr_ok Hprep) Hi) as Hok.
  destruct (so_weight _ _ Hok v Hv) as (q & -> & Hq). done.
Qed.

Lemma collected_listed k (f : nat -> value) b :
  positioned b -> b ≠ [] -> k ∉ tk -> (forall i d, items !! i = Some d -> dget k d = Some (f i)) ->
  collected tk k b.*2 = Some (Listed (f <$> b.*1)).
Proof.
  intros Hb Hne Hk Hf. unfold collected.
  assert (omap (dget k) b.*2 = f <$> b.*1) as ->.
  { clear Hne. induction Hb as [|[i d] b Hi _ IH]; [done|]. cbn. simpl in Hi. rewrite (Hf i d Hi). by rewrite IH. }
  destruct b as [|[i d] b]; [done|]. cbn. by rewrite decide_False.
Qed.

Lemma unpack_loop_ok bw pre post : positioned (pre ++ post) ->
  unpack_loop loss_fn items (pre ++ post).*2 ((fun i => Int (Z.of_nat i)) <$> (pre ++ post).*1)
    (batch_output (pre ++ post).*2) bw (length pre) (Z.of_nat (lens pre.*2))
    (cumsum (Z.of_nat (lens pre.*2)) ((fun d => Z.of_nat (seq_len_of d)) <$> post.*2)) =
  Ok ((fun i => (Z.of_nat i, metric_at i)) <$> post.*1, (fun i => part_at i / bw) <$> post.*1).
Proof.
  revert pre. induction post as [|[i d] post IH]; intros pre Hb; [done|].
  assert (Hi : items !! i = Some d).
  { eapply Forall_app in Hb as [_ Hb]. by apply Forall_cons in Hb as [Hb _]. }
  cbn [fmap list_fmap cumsum unpack_loop fst snd].
  assert (Hn : ((pre ++ (i, d) :: post).*1) !! length pre = Some i).
  { rewrite fmap_app. apply list_lookup_middle. by rewrite length_fmap. }
  assert (Hn2 : ((pre ++ (i, d) :: post).*2) !! length pre = Some d).
  { rewrite fmap_app. apply list_lookup_middle. by rewrite length_fmap. }
  rewrite (nth_r_ok _ _ (Int (Z.of_nat i))) by (by rewrite list_lookup_fmap, Hn).
  cbn [mbind res_bind as_int]. rewrite (nth_r_ok _ _ _ Hn2). cbn [mbind res_bind].
  rewrite Nat2Z.id, (nth_r_ok _ _ _ Hi). cbn [mbind res_bind].
  destruct (so_uid _ _ (Forall_lookup_1 _ _ _ _ (pr_ok Hprep) Hi)) as [s Hs]. rewrite Hs.
  cbn [required mbind res_bind]. rewrite bool_decide_true by done.
  rewrite <- Nat2Z.inj_add.
  assert (Hout : slice_output (Z.of_nat (lens pre.*2)) (Z.of_nat (lens pre.*2 + seq_len_of d))
    (batch_output (pre ++ (i, d) :: post).*2) = alone d).
  { pose proof (positioned_ok _ Hb) as Hok. rewrite fmap_app in *. by apply slice_sample. }
  rewrite Hout. destruct (Forall2_lookup_l _ _ _ _ _ (pr_results Hprep) Hi) as ([loss metric] & Hr & Hl).
  rewrite Hl. cbn [mbind res_bind]. rewrite (proj1 (weight_of_ok i d Hi)). cbn [mbind res_bind].
  specialize (IH (pre ++ [(i, d)])). rewrite <- app_assoc in IH. simpl in IH. specialize (IH Hb).
  rewrite length_app, Nat.add_1_r in IH.
  assert (lens (pre ++ [(i, d)]).*2 = (lens pre.*2 + seq_len_of d)%nat) as Hlen.
  { unfold lens. rewrite fmap_app, sum_list_with_app. simpl. lia. }
  rewrite Hlen in IH. rewrite IH. cbn [mbind res_bind]. unfold metric_at at 2, part_at at 2. rewrite Hi, Hr. done.
Qed.

Lemma sum_div (f : nat -> Qc) c l : sum ((fun i => f i / c) <$> l) = sum (f <$> l) / c.
Proof. induction l as [|x l IH]; [unfold Qcdiv; simpl; ring|]. rewrite !fmap_cons, !sum_cons, IH. unfold Qcdiv. ring. Qed.

Definition metrics_of (b : list nat) : list (Z * list (string * Mv)) := (fun i => (Z.of_nat i, metric_at i)) <$> b.

Lemma sum_nonneg {A} (f : A -> Qc) (l : list A) : Forall (fun x => 0 < f x) l -> 0 <= sum (f <$> l).
Proof.
  induction 1 as [|x l Hx _ IH]; [done|]. rewrite fmap_cons, sum_cons.
  replace 0 with (0 + 0) by ring. apply Qcplus_le_compat; [by apply Qclt_le_weak|done].
Qed.

Lemma sum_positive {A} (f : A -> Qc) (l : list A) : Forall (fun x => 0 < f x) l -> l ≠ [] -> 0 < sum (f <$> l).
Proof.
  intros [|x l' Hx Hl]; [done|]. intros _. rewrite fmap_cons, sum_cons.
  apply sum_nonneg in Hl. eapply Qclt_le_trans; [exact Hx|].
  replace (f x) with (f x + 0) at 1 by ring. by apply Qcplus_le_compat; [apply Qcle_refl|].
Qed.

Lemma weights_positive b : positioned b -> b ≠ [] -> 0 < sum (weight <$> b.*2).
Proof.
  intros Hb Hne. apply sum_positive; [|by destruct b]. rewrite Forall_fmap. eapply Forall_impl; [exact Hb|].
  intros [i d] Hi. by apply (weight_of_ok i).
Qed.

Lemma collected_weights b : positioned b -> b ≠ [] -> "loss_weight" ∉ tk ->
  exists l, collected tk "loss_weight" b.*2 = Some (Listed l) ∧ map_r as_number l = Ok (weight <$> b.*2).
Proof.
  intros Hb Hne Hk. unfold collected.
  assert (map_r as_number (omap (dget "loss_weight") b.*2) = Ok (weight <$> b.*2)) as Hm.
  { clear Hne. induction Hb as [|[i d] b Hi _ IH]; [done|]. simpl in Hi.
    destruct (weight_of_ok i d Hi) as [Hw _]. destruct (pr_weight Hprep i d Hi) as [v Hv].
    unfold weight_of in Hw. rewrite Hv in Hw. cbn [required mbind res_bind] in Hw.
    cbn. rewrite Hv. cbn. rewrite Hw. cbn. by rewrite IH. }
  destruct (omap (dget "loss_weight") b.*2) as [|v l] eqn:Ew.
  2:{ rewrite decide_False by done. by exists (v :: l). }
  exfalso. destruct b; [done|]. by inversion Hm.
Qed.

Lemma micro_batch_loss_ok b k : positioned b -> b ≠ [] -> forall micro_batches ins,
  micro_batches !! k = Some b.*2 -> collate true b.*2 = Ok ins ->
  micro_batch_loss forward loss_fn o p true items micro_batches k ins =
    Ok (metrics_of b.*1, sum (part_at <$> b.*1) / sum (weight <$> b.*2), sum (weight <$> b.*2)).
Proof.
  intros Hb Hne micro_batches ins Hk Hc.
  pose proof (positioned_ok b Hb) as Hok.
  assert (Hne2 : b.*2 ≠ []) by (by destruct b).
  destruct (collate_spec tk b.*2 Hne2 Hok) as (ins' & Hc' & Hends & Hget). rewrite Hc in Hc'. injection Hc' as <-.
  assert (so := Hok). destruct (so_ids tk (default [] (head b.*2))) as (_ & _ & _ & _ & Hlw & Hsi).
  { destruct b as [|x b]; [done|]. apply Forall_cons in so as [? _]. done. }
  unfold micro_batch_loss, listed. rewrite (Hget "loss_weight"), (Hget "sample_idx") by done.
  rewrite (collected_listed "sample_idx" (fun i => Int (Z.of_nat i))); [|done..|apply Hprep].
  destruct (collected_weights b Hb Hne Hlw) as (ws & -> & Hws). cbn [required Losses.required mbind res_bind]. rewrite Hws. cbn [mbind res_bind].
  rewrite Hends. cbn [required Losses.required mbind res_bind]. rewrite (nth_r_ok _ _ _ Hk). cbn [mbind res_bind].
  pose proof (unpack_loop_ok (sum (weight <$> b.*2)) [] b Hb) as Hu.
  change (Z.of_nat (lens ([] : list (nat * sample)).*2)) with 0%Z in Hu. simpl in Hu.
  unfold batch_output in Hu. rewrite Hc in Hu. rewrite Hu. cbn [mbind res_bind]. by rewrite sum_div.
Qed.

Lemma micro_batch_step_ok b k micro_batches fw total w : positioned b -> b ≠ [] -> micro_batches !! k = Some b.*2 ->
  micro_batch_step forward loss_fn o p false true items micro_batches fw total k w =
    (backward (sum (part_at <$> b.*1) / fw) (set_last (bool_decide (k = total)) w), Ok (metrics_of b.*1)).
Proof.
  intros Hb Hne Hk. unfold micro_batch_step, dataset_item. rewrite (nth_r_ok _ _ _ Hk). cbn [mbind res_bind].
  destruct (collate_spec tk b.*2 ltac:(by destruct b) (positioned_ok b Hb)) as (ins & Hc & _).
  rewrite Hc. cbn [mbind res_bind]. rewrite bind_lift. cbn beta iota. rewrite bind_modify.
  rewrite (micro_batch_loss_ok b) by done. rewrite bind_lift. cbn beta iota. rewrite bind_modify.
  pose proof (weights_positive b Hb Hne) as Hw.
  unfold mret, M_ret. do 2 f_equal. unfold Qcdiv. rewrite <- (Qcmult_assoc _ (/ _) (sum _)), Qcmult_inv_l; [ring|].
  intros Hz. by rewrite Hz in Hw.
Qed.

(** ** Proofs: all micro-batches *)

Context (bins : list (list (nat * sample))).
Hypothesis (Hbins : Forall positioned bins).

Definition positions (k : nat) : list nat := (bins !!! k).*1.

(** What a rank has done after the micro-batches [mine]. *)
Definition passed (fw : Qc) (total : nat) (mine : list nat) (w : worker (P := P)) : worker :=
  {| model := model w; has_optimizer := has_optimizer w; training := training w;
     gradient := gradient w ++ ((fun k => sum (part_at <$> positions k) / fw) <$> mine);
     last_flags := last_flags w ++ ((fun k => bool_decide (k = total)) <$> mine) |}.

Definition filled (k : nat) : Prop := exists b, bins !! k = Some b ∧ b ≠ [].
#[export] Instance filled_dec k : Decision (filled k).
Proof.
  unfold filled. destruct (bins !! k) as [[|x b]|]; [right|left|right].
  - intros (b & ? & ?). congruence.
  - by exists (x :: b).
  - by intros (b & ? & _).
Defined.

Lemma steps_ok fw total mine w : Forall filled mine ->
  map_m (micro_batch_step forward loss_fn o p false true items ((fun b => b.*2) <$> bins) fw total) mine w =
    (passed fw total mine w, Ok ((fun k => metrics_of (positions k)) <$> mine)).
Proof.
  intros H. revert w. induction H as [|k mine (b & Hb & Hne) _ IH]; intros w; simpl.
  { unfold passed, mret, M_ret. simpl. rewrite !app_nil_r. by destruct w. }
  pose proof (Forall_lookup_1 _ _ _ _ Hbins Hb) as Hp.
  erewrite M_bind_run; [|apply (micro_batch_step_ok b); [done|done|by rewrite list_lookup_fmap, Hb]].
  erewrite M_bind_run; [|apply IH]. unfold mret, M_ret, passed, backward, set_last, positions. simpl.
  rewrite (list_lookup_total_correct _ _ _ Hb), <- !app_assoc. done.
Qed.

(** An empty micro-batch cannot be collated: it has no "seq_len". *)
Lemma steps_empty fw total mine w : Forall (fun k => (k < length bins)%nat) mine -> Exists (fun k => ~ filled k) mine ->
  exists w', map_m (micro_batch_step forward loss_fn o p false true items ((fun b => b.*2) <$> bins) fw total) mine w =
    (w', Raise KeyError).
Proof.
  intros Hl He. revert w. induction Hl as [|k mine Hk _ IH]; intros w; [by inversion He|]. simpl.
  apply lookup_lt_is_Some in Hk as [b Hb]. destruct b as [|x b].
  - eexists. apply M_bind_raise. unfold micro_batch_step, dataset_item.
    rewrite (nth_r_ok _ _ []) by by rewrite list_lookup_fmap, Hb. done.
  - apply Exists_cons in He as [He|He]; [destruct He; by exists (x :: b)|].
    destruct (IH He (backward (sum (part_at <$> (x :: b).*1) / fw) (set_last (bool_decide (k = total)) w))) as [w' Hw'].
    exists w'. erewrite M_bind_run; [|apply (micro_batch_step_ok (x :: b)); [|done|by rewrite list_lookup_fmap, Hb]].
    { by apply M_bind_raise. }
    by eapply Forall_lookup_1.
Qed.
End micro.

(** ** Proofs: packing *)

Section packed.
Context (to_constant_volume to_constant_bin_number : list (nat * Z) -> Z -> list (list (nat * Z))) (tk : list string).

(** What the package binpacking promises: a bin is used when there is something
    to put into it; the number of bins asked for; every item in exactly one bin. *)
Record binpacking : Prop := {
  bp_volume : forall d v, d ≠ [] -> to_constant_volume d v ≠ [];
  bp_count : forall d n, (0 < n)%Z -> length (to_constant_bin_number d n) = Z.to_nat n;
  bp_all : forall d n, (0 < n)%Z -> mjoin (to_constant_bin_number d n) ≡ₚ d
}.
Context (Hbp : binpacking).

Lemma seq_lens_ok i (data : list sample) : Forall (sample_ok tk) data ->
  exists l, seq_lens_from i data = Ok l ∧ l.*1 = seq i (length data).
Proof.
  intros H. revert i. induction H as [|d data Hd _ IH]; intros i; [by exists []|].
  destruct (sample_width _ _ Hd) as (r & _ & Hl). destruct (IH (S i)) as (l & Hs & Hk).
  cbn [seq_lens_from]. rewrite Hl. cbn [required mbind res_bind as_int]. rewrite Hs. cbn [mbind res_bind].
  eexists. split; [done|]. simpl. by f_equal.
Qed.

Lemma round_up_pos n m : (0 < n)%Z -> (0 < m)%Z -> exists k, round_up n m = (k * m)%Z ∧ (0 < k)%Z.
Proof. intros Hn Hm. unfold round_up. exists (- (- n / m))%Z. split; [done|]. Z.to_euclidean_division_equations. nia. Qed.

(** Packing puts every sample into one of the micro-batches, whose number is a
    multiple of the one asked for. *)
Lemma pack_spec items max_tokens (R : nat) : Forall (sample_ok tk) items -> items ≠ [] -> (0 < R)%nat ->
  exists bins m, pack to_constant_volume to_constant_bin_number items max_tokens (Z.of_nat R) = Ok ((fun b => b.*2) <$> bins) ∧
    Forall (positioned items) bins ∧ mjoin ((fun b => b.*1) <$> bins) ≡ₚ seq 0 (length items) ∧
    length bins = (m * R)%nat ∧ (0 < m)%nat.
Proof.
  intros Hok Hne HR. destruct (seq_lens_ok 0 items Hok) as (l & Hl & Hk). unfold pack. rewrite Hl. cbn [mbind res_bind].
  assert (Hl0 : l ≠ []) by (intros ->; by destruct items).
  pose proof (bp_volume Hbp l max_tokens Hl0) as Hv.
  set (n := Z.of_nat (length (to_constant_volume l max_tokens))).
  assert (Hn : (0 < n)%Z) by (unfold n; destruct (to_constant_volume l max_tokens); simpl; [done|lia]).
  destruct (round_up_pos n (Z.of_nat R) Hn ltac:(lia)) as (k & -> & Hkp).
  set (B := to_constant_bin_number l (k * Z.of_nat R)).
  assert (Hall : mjoin B ≡ₚ l) by (apply Hbp; lia).
  assert (Hin : Forall (Forall (fun kv => (kv.1 < length items)%nat)) B).
  { apply Forall_forall. intros b Hb. apply Forall_forall. intros kv Hkv.
    assert (kv ∈ l) as Hel by (rewrite <- Hall; apply list_elem_of_join; by exists b).
    apply (list_elem_of_fmap_2 fst) in Hel. rewrite Hk in Hel. apply elem_of_seq in Hel. simpl in *. lia. }
  exists ((fun b : list (nat * Z) => (fun kv => (kv.1, items !!! kv.1)) <$> b) <$> B), (Z.to_nat k). split_and!.
  - rewrite (map_r_ok _ (fun b : list (nat * Z) => (fun kv => items !!! kv.1) <$> b)).
    { f_equal. rewrite <- list_fmap_compose. apply list_fmap_ext. intros i b _. simpl.
      by rewrite <- list_fmap_compose. }
    eapply Forall_impl; [exact Hin|]. intros b Hb. apply map_r_ok. eapply Forall_impl; [exact Hb|].
    intros kv Hkv. simpl in Hkv. apply lookup_lt_is_Some in Hkv as [d Hd]. rewrite (nth_r_ok _ _ _ Hd).
    by rewrite (list_lookup_total_correct _ _ _ Hd).
  - apply Forall_fmap. eapply Forall_impl; [exact Hin|]. intros b Hb. apply Forall_fmap.
    eapply Forall_impl; [exact Hb|]. intros kv Hkv. simpl in *. by apply list_lookup_lookup_total_lt.
  - rewrite <- list_fmap_compose. rewrite <- Hk, <- Hall. clear.
    induction B as [|b B IH]; simpl; [done|]. rewrite fmap_app, IH. apply Permutation_app; [|done].
    by rewrite <- list_fmap_compose.
  - rewrite length_fmap. unfold B. rewrite (bp_count Hbp) by lia. lia.
  - lia.
Qed.
End packed.

(** ** Proofs: all ranks *)

Lemma join_cons {A} (x : list A) l : mjoin (x :: l) = x ++ mjoin l.
Proof. done. Qed.

Lemma prepare_lookup i d k :
  dget k (prepare i d) =
    if decide (k = "loss_weight") then Some (default (Float 1) (dget "loss_weight" d))
    else if decide (k = "sample_idx") then Some (Int (Z.of_nat i)) else dget k d.
Proof.
  unfold prepare, dmem. rewrite dget_dset_ne by done.
  destruct (dget "loss_weight" d) as [v|] eqn:E; simpl; rewrite !dget_dset; repeat case_decide; by subst.
Qed.

Lemma prepare_ok tk i d : sample_ok tk d -> sample_ok tk (prepare i d).
Proof.
  intros [Hwf Hids Ht Hp (r & Hi & Hl) Hpos Hm (s & Hu) Hw].
  split; try (rewrite !prepare_lookup; simpl; eauto; fail); try done.
  - unfold prepare. destruct (dmem _ _); auto with agentrl.
  - intros k v Hk Hin. rewrite prepare_lookup in Hk. repeat case_decide; subst; [set_solver..|eauto].
  - intros k v Hk Hin. rewrite prepare_lookup in Hk. repeat case_decide; simplify_eq; [|done|eauto].
    destruct (dget "loss_weight" d) as [v|] eqn:E; [by apply (Hp _ _ E)|done].
  - intros v Hv. rewrite prepare_lookup in Hv. simpl in Hv. simplify_eq.
    destruct (dget "loss_weight" d) as [v|] eqn:E; [by apply Hw|]. exists 1. done.
Qed.

Lemma prepare_items tk mini_batch : Forall (sample_ok tk) mini_batch ->
  Forall (sample_ok tk) (imap prepare mini_batch) ∧
  forall i d, imap prepare mini_batch !! i = Some d ->
    dget "sample_idx" d = Some (Int (Z.of_nat i)) ∧ is_Some (dget "loss_weight" d).
Proof.
  intros H. split.
  - apply Forall_lookup. intros i d. rewrite list_lookup_imap, fmap_Some. intros (d' & Hd & ->).
    apply prepare_ok. by eapply Forall_lookup_1.
  - intros i d. rewrite list_lookup_imap, fmap_Some. intros (d' & Hd & ->). rewrite !prepare_lookup. simpl. eauto.
Qed.

Lemma all_ranks_ok {P A} (f : nat -> M (worker (P := P)) A) g h rank ws :
  (forall i w, ws !! i = Some w -> f (rank + i)%nat w = (g (rank + i)%nat w, Ok (h (rank + i)%nat))) ->
  all_ranks f rank ws = (imap (fun i w => g (rank + i)%nat w) ws, Ok (h <$> seq rank (length ws))).
Proof.
  revert rank. induction ws as [|w ws IH]; intros rank Hf; [done|]. cbn [all_ranks].
  pose proof (Hf 0%nat w eq_refl) as H0. rewrite Nat.add_0_r in H0. rewrite H0.
  rewrite IH.
  2:{ intros i w' Hi. specialize (Hf (S i) w' Hi). by rewrite <- Nat.add_succ_comm in Hf. }
  cbn [mbind res_bind]. simpl. rewrite Nat.add_0_r. do 2 f_equal. apply imap_ext. intros i x _. simpl. f_equal; lia.
Qed.

Lemma all_ranks_raise {P A} (f : nat -> M (worker (P := P)) A) e rank ws :
  (forall i w, ws !! i = Some w -> exists w', (exists a, f (rank + i)%nat w = (w', Ok a)) ∨ f (rank + i)%nat w = (w', Raise e)) ->
  (exists i w w', ws !! i = Some w ∧ f (rank + i)%nat w = (w', Raise e)) ->
  exists ws', all_ranks f rank ws = (ws', Raise e).
Proof.
  revert rank. induction ws as [|w ws IH]; intros rank Hf (i & x & x' & Hi & Hx); [done|]. cbn [all_ranks].
  destruct (Hf 0%nat w eq_refl) as (w' & H0). rewrite Nat.add_0_r in H0.
  destruct H0 as [(a & H0)|H0]; rewrite H0; [|destruct (all_ranks f (S rank) ws); by eexists].
  destruct i as [|i].
  { simpl in Hi. injection Hi as ->. rewrite Nat.add_0_r in Hx. congruence. }
  destruct (IH (S rank)) as [ws' ->]; [| |by eexists].
  - intros j y Hj. specialize (Hf (S j) y Hj). by rewrite <- Nat.add_succ_comm in Hf.
  - exists i, x, x'. split; [done|]. by rewrite Nat.add_succ_comm.
Qed.

Section whole.
Context {E P Mv : Type}.
Context (to_constant_volume to_constant_bin_number : list (nat * Z) -> Z -> list (list (nat * Z))).
Context (sampler : nat -> nat -> nat -> list nat) (tk : list string) (o : options) (p : P).
Context (forward : P -> inputs -> list (string * out (E := E))).
Context (loss_fn : sample + inputs -> list (string * out (E := E)) -> res (Qc * list (string * Mv))).

(** What torch's sampler promises: when the ranks divide the length, every index
    goes to one rank, and every rank gets as many. *)
Record sharding : Prop := {
  sh_parts : forall m R, (0 < R)%nat -> mjoin (sampler (m * R) R <$> seq 0 R) ≡ₚ seq 0 (m * R);
  sh_even : forall m R r, (0 < R)%nat -> (r < R)%nat -> length (sampler (m * R) R r) = m
}.
Context (Hbp : binpacking to_constant_volume to_constant_bin_number) (Hsh : sharding).

Definition ready (w : worker (P := P)) : Prop := model w = Some p ∧ has_optimizer w = true.

(** A rank has made [m] backward passes, with these losses. *)
Definition grown (m : nat) (w' : worker (P := P)) (before : worker (P := P) * list Qc) : Prop :=
  model w' = model before.1 ∧ gradient w' = gradient before.1 ++ before.2 ∧ length before.2 = m.

Section with_batch.
Context (mini_batch : list sample) (bins : list (list (nat * sample))) (m R : nat).
Context (results : list (Qc * list (string * Mv))).
#[local] Abbreviation items := (imap prepare mini_batch).
#[local] Abbreviation mine := (sampler (m * R) R).
Hypothesis (Hpacked : packed_attention forward tk o p).
Hypothesis (Hprep : prepared forward tk o p loss_fn items results).
Hypothesis (HR : (0 < R)%nat) (Hlen : length bins = (m * R)%nat).
Hypothesis (Hpack : pack to_constant_volume to_constant_bin_number items (max_tokens_per_micro_batch o) (Z.of_nat R) =
  Ok ((fun b => b.*2) <$> bins)).
Hypothesis (Hbins : Forall (positioned items) bins).

Lemma weights_ok : map_r weight_of items = Ok (weight <$> items).
Proof.
  apply map_r_ok, Forall_lookup. intros i d Hd. by destruct (weight_of_ok _ _ _ _ _ _ _ Hprep i d Hd).
Qed.

Definition full_weight : Qc := sum (weight <$> items) / of_nat R.

Lemma mine_below r : (r < R)%nat -> Forall (fun k => (k < length bins)%nat) (mine r).
Proof.
  intros Hr. apply Forall_forall. intros k Hk. rewrite Hlen.
  assert (k ∈ seq 0 (m * R)) as [_ ?]%elem_of_seq; [|simpl in *; lia].
  rewrite <- (sh_parts Hsh) by done. apply list_elem_of_join. exists (mine r). split; [done|].
  apply list_elem_of_fmap. exists r. split; [done|]. apply elem_of_seq. lia.
Qed.

(** What is left of a pass, once the mini-batch is packed. *)
Lemma local_pass_run r w s : ready w -> (r < R)%nat ->
  map_m (micro_batch_step forward loss_fn o p false true items ((fun b => b.*2) <$> bins) full_weight m) (mine r)
    (set_training true w) = s ->
  local_pass to_constant_volume to_constant_bin_number sampler forward loss_fn o R mini_batch false true r w =
    (s.1, match s.2 with Ok l => Ok (mjoin l) | Raise e => Raise e end).
Proof.
  intros [Hm Ho] Hr Hs. unfold local_pass. unfold get at 1.
  erewrite M_bind_run; [|unfold mbind, M_bind, lift_res; by rewrite Hm].
  rewrite bind_gets, Ho. cbn [orb]. rewrite bind_ret, bind_modify. rewrite weights_ok, bind_lift, Hpack, bind_lift.
  rewrite length_fmap, Hlen, (sh_even Hsh) by done. destruct s as [w' [l|e]].
  - by erewrite M_bind_run.
  - by erewrite M_bind_raise.
Qed.

Lemma local_pass_ok r w : ready w -> (r < R)%nat -> Forall (filled bins) (mine r) ->
  local_pass to_constant_volume to_constant_bin_number sampler forward loss_fn o R mini_batch false true r w =
    (passed items results bins full_weight m (mine r) (set_training true w),
     Ok (mjoin ((fun k => metrics_of results (positions bins k)) <$> mine r))).
Proof.
  intros Hw Hr Hf. erewrite local_pass_run; [|done|done|by apply (steps_ok forward tk o p loss_fn Hpacked)]. done.
Qed.

Lemma local_pass_empty r w : ready w -> (r < R)%nat -> Exists (fun k => ~ filled bins k) (mine r) -> exists w',
  local_pass to_constant_volume to_constant_bin_number sampler forward loss_fn o R mini_batch false true r w = (w', Raise KeyError).
Proof.
  intros Hw Hr He.
  destruct (steps_empty forward tk o p loss_fn Hpacked items results Hprep bins Hbins full_weight m (mine r)
    (set_training true w) (mine_below r Hr) He) as [w' Hw'].
  exists w'. erewrite local_pass_run; [|done|done|exact Hw']. done.
Qed.

Lemma items_results : length results = length mini_batch.
Proof. by rewrite <- (Forall2_length _ _ _ (pr_results _ _ _ _ _ _ _ Hprep)), length_imap. Qed.

Lemma positions_all : mjoin ((fun b => b.*1) <$> bins) ≡ₚ seq 0 (length mini_batch) ->
  mjoin (positions bins <$> mjoin (mine <$> seq 0 R)) ≡ₚ seq 0 (length mini_batch).
Proof.
  intros Hall. rewrite (sh_parts Hsh) by done. rewrite <- Hall, <- Hlen. apply reflexive_eq. f_equal.
  apply list_eq. intros i. rewrite !list_lookup_fmap. destruct (decide (i < length bins)%nat) as [Hi|Hi].
  - rewrite lookup_seq_lt by done. pose proof Hi as [b Hb]%lookup_lt_is_Some. rewrite Hb. simpl.
    unfold positions. by rewrite (list_lookup_total_correct _ _ _ Hb).
  - rewrite lookup_seq_ge, lookup_ge_None_2 by lia. done.
Qed.

Lemma metrics_in_order : foldl (fun metrics im => append_to_dict metrics im.2) []
    ((fun i => (Z.of_nat i, metric_at results i)) <$> seq 0 (length mini_batch)) = foldl append_to_dict [] results.*2.
Proof.
  assert (metric_at results <$> seq 0 (length mini_batch) = results.*2) as <-.
  { rewrite <- items_results. apply list_eq. intros i. rewrite !list_lookup_fmap.
    destruct (decide (i < length results)%nat) as [Hi|Hi].
    - rewrite lookup_seq_lt by done. apply lookup_lt_is_Some in Hi as [lm Hlm]. rewrite Hlm. simpl.
      unfold metric_at. by rewrite Hlm.
    - rewrite lookup_seq_ge, lookup_ge_None_2 by lia. done. }
  generalize (seq 0 (length mini_batch)) as l. intros l. clear. generalize (@nil (string * list Mv)) as acc.
  induction l as [|i l IH]; intros acc; simpl; [done|]. by rewrite IH.
Qed.

Lemma parts_sum : sum (part_at items results <$> seq 0 (length mini_batch)) =
  sum (zip_with (fun d lm => weight d * lm.1) items results).
Proof.
  f_equal. apply list_eq. intros i. rewrite list_lookup_fmap, lookup_zip_with.
  destruct (decide (i < length mini_batch)%nat) as [Hi|Hi].
  - rewrite lookup_seq_lt by done. unfold part_at. simpl.
    assert (is_Some (items !! i)) as [d Hd] by (apply lookup_lt_is_Some; by rewrite length_imap).
    assert (is_Some (results !! i)) as [lm Hlm] by (apply lookup_lt_is_Some; by rewrite items_results).
    rewrite Hd, Hlm. simpl. f_equal. ring.
  - rewrite lookup_seq_ge by lia. rewrite (lookup_ge_None_2 items) by (rewrite length_imap; lia). done.
Qed.

Lemma metrics_joined l : mjoin ((fun r => mjoin ((fun k => metrics_of results (positions bins k)) <$> mine r)) <$> l) =
  metrics_of results (mjoin (positions bins <$> mjoin (mine <$> l))).
Proof.
  induction l as [|r l IH]; [done|]. rewrite !fmap_cons, !join_cons, IH, fmap_app, join_app. unfold metrics_of.
  rewrite fmap_app. f_equal. induction (mine r) as [|k ks IHk]; [done|].
  rewrite !fmap_cons, !join_cons, IHk. unfold metrics_of. by rewrite fmap_app.
Qed.

Lemma metrics_gathered : mjoin ((fun b => b.*1) <$> bins) ≡ₚ seq 0 (length mini_batch) ->
  foldl (fun metrics im => append_to_dict metrics im.2) []
    (sort_by_key (mjoin ((fun r => mjoin ((fun k => metrics_of results (positions bins k)) <$> mine r)) <$> seq 0 R))) =
  foldl append_to_dict [] results.*2.
Proof.
  intros Hall. rewrite metrics_joined, <- metrics_in_order. f_equal. apply sort_by_key_seq.
  unfold metrics_of. by rewrite (positions_all Hall).
Qed.

(** What the ranks have added up: the weighted mean of the losses of the samples. *)
Definition added : list (list Qc) :=
  (fun r => (fun k => sum (part_at items results <$> positions bins k) / full_weight) <$> mine r) <$> seq 0 R.

Lemma passed_ranks ws : length ws = R ->
  Forall2 (grown m)
    (imap (fun r w => passed items results bins full_weight m (mine r) (set_training true w)) ws) (zip ws added).
Proof.
  intros Hw. assert (length added = R) as Ha by (unfold added; by rewrite length_fmap, length_seq).
  apply Forall2_same_length_lookup. split; [rewrite length_imap, length_zip; lia|].
  intros r w' wa Hi Hz. rewrite list_lookup_imap, fmap_Some in Hi. destruct Hi as (w & Hr & ->).
  rewrite lookup_zip_with in Hz. rewrite Hr in Hz. simpl in Hz. unfold added in Hz. rewrite list_lookup_fmap in Hz.
  pose proof (lookup_lt_Some _ _ _ Hr). rewrite lookup_seq_lt in Hz by lia. simpl in Hz. simplify_eq.
  split_and!; [done|done|]. cbn [snd]. by rewrite length_fmap, (sh_even Hsh) by lia.
Qed.

Lemma added_sum : mjoin ((fun b => b.*1) <$> bins) ≡ₚ seq 0 (length mini_batch) ->
  sum (sum <$> added) = sum (zip_with (fun d lm => weight d * lm.1) items results) / full_weight.
Proof.
  intros Hall. rewrite <- parts_sum. rewrite <- (sum_perm _ _ (fmap_Permutation _ _ _ (positions_all Hall))).
  unfold added. rewrite sum_join. generalize (seq 0 R) as rs. intros rs.
  induction rs as [|r rs IH]; [unfold Qcdiv; simpl; ring|]. rewrite !fmap_cons, !join_cons.
  rewrite fmap_app, join_app, fmap_app, !sum_app, IH. unfold Qcdiv. rewrite Qcmult_plus_distr_l. f_equal.
  induction (mine r) as [|k l IHl]; [simpl; ring|]. rewrite !fmap_cons, sum_cons, join_cons.
  rewrite fmap_app, sum_app, IHl. ring.
Qed.
End with_batch.

Lemma prepared_items mini_batch results : Forall (sample_ok tk) mini_batch ->
  Forall2 (fun d lm => loss_fn (inl d) (alone forward o p d) = Ok lm) (imap prepare mini_batch) results ->
  prepared forward tk o p loss_fn (imap prepare mini_batch) results.
Proof.
  intros Hok Hres. destruct (prepare_items tk mini_batch Hok) as [Hi Hs].
  split; [done|intros i d Hd; by apply (Hs i)|intros i d Hd; by apply (Hs i)|done].
Qed.

(** C3: when no micro-batch is empty, a training pass over packed micro-batches on
    all ranks is the pass over the samples one by one: the metrics are those of each
    sample alone, once each and in the order of the samples, every rank makes the
    same number of backward passes, and the mean over the ranks of the losses they
    add up is the mean of the losses of the samples, by their weights. *)
Theorem forward_backward_exact mini_batch results ws :
  Forall (sample_ok tk) mini_batch -> mini_batch ≠ [] -> Forall ready ws -> ws ≠ [] ->
  packed_attention forward tk o p ->
  Forall2 (fun d lm => loss_fn (inl d) (alone forward o p d) = Ok lm) (imap prepare mini_batch) results ->
  (forall mbs, pack to_constant_volume to_constant_bin_number (imap prepare mini_batch) (max_tokens_per_micro_batch o)
     (Z.of_nat (length ws)) = Ok mbs -> Forall (fun mb => mb ≠ []) mbs) ->
  exists ws' added m,
    forward_backward to_constant_volume to_constant_bin_number sampler forward loss_fn o mini_batch false true ws =
      (ws', Ok (foldl append_to_dict [] results.*2)) ∧
    Forall2 (grown m) ws' (zip ws added) ∧
    length added = length ws ∧
    mean (sum <$> added) =
      sum (zip_with (fun d lm => weight d * lm.1) (imap prepare mini_batch) results) / sum (weight <$> imap prepare mini_batch).
Proof.
  intros Hok Hne Hready Hws Hpacked Hres Hfull. set (R := length ws). fold R in Hfull.
  assert (HR : (0 < R)%nat) by (unfold R; destruct ws; simpl; [done|lia]).
  pose proof (prepared_items mini_batch results Hok Hres) as Hprep.
  destruct (pack_spec to_constant_volume to_constant_bin_number tk Hbp (imap prepare mini_batch)
    (max_tokens_per_micro_batch o) R (pr_ok _ _ _ _ _ _ _ Hprep) ltac:(by destruct mini_batch) HR)
    as (bins & m & Hpack & Hb & Hall & Hlen & Hm).
  rewrite length_imap in Hall. specialize (Hfull _ Hpack).
  assert (Hfilled : forall r, (r < R)%nat -> Forall (filled bins) (sampler (m * R) R r)).
  { intros r Hr. eapply Forall_impl; [by apply (mine_below bins m R HR Hlen)|]. intros k [b Hk]%lookup_lt_is_Some.
    exists b. split; [done|]. intros ->. eapply Forall_lookup_1 in Hfull; [|by rewrite list_lookup_fmap, Hk]. done. }
  set (add := added mini_batch bins m R results).
  eexists _, add, m. split_and!.
  - unfold forward_backward. fold R. erewrite all_ranks_ok.
    2:{ intros i w Hi. simpl. apply (local_pass_ok mini_batch bins m R results Hpacked Hprep HR Hlen Hpack Hb).
        - by eapply Forall_lookup_1.
        - apply lookup_lt_Some in Hi. done.
        - apply Hfilled. by apply lookup_lt_Some in Hi. }
    fold R. simpl. by rewrite (metrics_gathered mini_batch bins m R results).
  - by apply passed_ranks.
  - unfold add, added. by rewrite length_fmap, length_seq.
  - unfold mean. rewrite length_fmap. unfold add at 2, added. rewrite length_fmap, length_seq.
    unfold add. rewrite (added_sum mini_batch bins m R results) by done.
    unfold full_weight. pose proof (of_nat_ne R HR) as HR0.
    assert (sum (weight <$> imap prepare mini_batch) ≠ 0).
    { intros Hz. apply (Qclt_not_eq 0 (sum (weight <$> imap prepare mini_batch))); [|done].
      apply sum_positive; [|by destruct mini_batch]. apply Forall_lookup. intros i d Hd.
      by apply (weight_of_ok _ _ _ _ _ _ _ Hprep i). }
    field. done.
Qed.

(** With fewer samples than micro-batches one of them is empty. *)
Lemma an_empty_bin (bins : list (list (nat * sample))) n :
  mjoin ((fun b => b.*1) <$> bins) ≡ₚ seq 0 n -> (n < length bins)%nat -> exists k, bins !! k = Some [].
Proof.
  intros Hall Hn. apply Permutation_length in Hall. rewrite length_seq in Hall. subst n.
  induction bins as [|b bins IH]; [simpl in Hn; lia|]. destruct b as [|x b]; [by exists 0%nat|].
  rewrite fmap_cons, join_cons, length_app, length_fmap in Hn. simpl in Hn.
  destruct IH as [k Hk]; [lia|]. by exists (S k).
Qed.

(** With fewer samples than ranks a micro-batch stays empty, and its rank raises [KeyError]. *)
Theorem few_samples_raise mini_batch results ws :
  Forall (sample_ok tk) mini_batch -> mini_batch ≠ [] -> Forall ready ws ->
  packed_attention forward tk o p ->
  Forall2 (fun d lm => loss_fn (inl d) (alone forward o p d) = Ok lm) (imap prepare mini_batch) results ->
  (length mini_batch < length ws)%nat ->
  exists ws', forward_backward to_constant_volume to_constant_bin_number sampler forward loss_fn o mini_batch false true ws =
    (ws', Raise KeyError).
Proof.
  intros Hok Hne Hready Hpacked Hres Hfew. set (R := length ws). fold R in Hfew.
  assert (HR : (0 < R)%nat) by lia.
  pose proof (prepared_items mini_batch results Hok Hres) as Hprep.
  destruct (pack_spec to_constant_volume to_constant_bin_number tk Hbp (imap prepare mini_batch)
    (max_tokens_per_micro_batch o) R (pr_ok _ _ _ _ _ _ _ Hprep) ltac:(by destruct mini_batch) HR)
    as (bins & m & Hpack & Hb & Hall & Hlen & Hm).
  rewrite length_imap in Hall. destruct (an_empty_bin bins _ Hall ltac:(nia)) as [k Hk].
  pose proof (lookup_lt_Some _ _ _ Hk) as Hkl.
  assert (k ∈ mjoin (sampler (m * R) R <$> seq 0 R)) as Hin.
  { rewrite (sh_parts Hsh) by done. apply elem_of_seq. lia. }
  apply list_elem_of_join in Hin as (mine & Hkm & (r & -> & Hr)%list_elem_of_fmap). apply elem_of_seq in Hr as [_ Hr].
  assert (Hempty : Exists (fun k => ~ filled bins k) (sampler (m * R) R r)).
  { apply Exists_exists. exists k. split; [done|]. intros (b & ? & ?). congruence. }
  unfold forward_backward. fold R.
  destruct (all_ranks_raise (local_pass to_constant_volume to_constant_bin_number sampler forward loss_fn o R mini_batch false true)
    KeyError 0 ws) as [ws' ->]; [| |by eexists].
  - intros i w Hi. simpl. pose proof (Forall_lookup_1 _ _ _ _ Hready Hi) as Hw. pose proof (lookup_lt_Some _ _ _ Hi) as Hl.
    destruct (decide (Forall (filled bins) (sampler (m * R) R i))) as [Hf|Hf].
    + eexists. left. eexists. by apply (local_pass_ok mini_batch bins m R results Hpacked Hprep HR Hlen Hpack Hb).
    + apply not_Forall_Exists in Hf; [|apply _].
      destruct (local_pass_empty mini_batch bins m R results Hpacked Hprep HR Hlen Hpack Hb i w Hw Hl Hf) as [w' ->].
      exists w'. by right.
  - destruct (lookup_lt_is_Some_2 ws r ltac:(lia)) as [w Hw].
    pose proof (Forall_lookup_1 _ _ _ _ Hready Hw) as Hrw.
    destruct (local_pass_empty mini_batch bins m R results Hpacked Hprep HR Hlen Hpack Hb r w Hrw ltac:(lia) Hempty) as [w' Hw'].
    by exists r, w, w'.
Qed.
End whole.

(** ** Proofs: passes without gradients, the step *)

Section steps.
Context {E P Mv : Type}.
Context (to_constant_volume to_constant_bin_number : list (nat * Z) -> Z -> list (list (nat * Z))).
Context (sampler : nat -> nat -> nat -> list nat) (o : options).
Context (forward : P -> inputs -> list (string * out (E := E))) (optimize : Qc -> P -> list (list Qc) -> Qc * P).
Context (loss_fn : sample + inputs -> list (string * out (E := E)) -> res (Qc * list (string * Mv))).

Definition same_training (w0 w : worker (P := P)) : Prop := gradient w = gradient w0 ∧ model w = model w0.

Lemma all_ranks_keep {A} (R : worker (P := P) -> worker -> Prop) (f : nat -> M worker A) rank ws :
  (forall r w, R w (f r w).1) -> Forall2 R ws (all_ranks f rank ws).1.
Proof.
  intros Hf. revert rank. induction ws as [|w ws IH]; intros rank; [constructor|]. cbn [all_ranks].
  specialize (Hf rank w). destruct (f rank w) as [w' r]. specialize (IH (S rank)).
  destruct (all_ranks f (S rank) ws) as [ws' rs]. by constructor.
Qed.

(** A pass that only goes forward leaves the gradients and the parameters, also
    when it raises. *)
Lemma forward_only_keeps mini_batch unpack ws :
  Forall2 same_training ws
    (forward_backward to_constant_volume to_constant_bin_number sampler forward loss_fn o mini_batch true unpack ws).1.
Proof.
  unfold forward_backward.
  pose proof (all_ranks_keep same_training (local_pass to_constant_volume to_constant_bin_number sampler forward loss_fn o
    (length ws) mini_batch true unpack) 0 ws) as Hk.
  destruct (all_ranks _ 0 ws) as [ws' rs]. apply Hk. intros r w. clear Hk.
  assert (safe (same_training w) (fun _ => True)
    (local_pass to_constant_volume to_constant_bin_number sampler forward loss_fn o (length ws) mini_batch true unpack r)) as Hs.
  { unfold local_pass. safe_auto; try (by apply safe_lift). apply safe_map_m. intros k _.
    unfold micro_batch_step. safe_auto; by apply safe_lift. }
  by apply Hs.
Qed.

(** The step takes what all ranks have added up and starts anew. *)
Lemma step_zeroes ps ws : Forall2 (fun p w => model w = Some p ∧ has_optimizer w = true) ps ws ->
  let r := (fun p => optimize (default 1 (grad_clip o)) p (gradient <$> ws)) <$> ps in
  (step optimize o ws).2 = Ok r.*1 ∧
  Forall2 (fun q w => model w = Some q ∧ gradient w = [] ∧ has_optimizer w = true) r.*2 (step optimize o ws).1.
Proof.
  unfold step. generalize (gradient <$> ws) as gs, 0%nat as rank. intros gs rank H. revert rank.
  induction H as [|p w ps ws [Hm Ho] _ IH]; intros rank; [by split|]. cbn [all_ranks]. specialize (IH (S rank)).
  destruct (all_ranks (fun _ => step_rank optimize o gs) (S rank) ws) as [ws' rs]. destruct IH as [IH1 IH2]. simpl in IH1, IH2.
  unfold step_rank at 1 2, get, mbind, M_bind, lift_res, put, mret, M_ret. rewrite Ho, Hm. simpl.
  destruct (optimize (default 1 (grad_clip o)) p gs) as [norm q] eqn:E1. simpl. subst rs. split; [done|]. by constructor.
Qed.
End steps.

(** ** Concrete inputs *)

Module Examples.
Definition one_bin (d : list (nat * Z)) (v : Z) : list (list (nat * Z)) := [d].
Fixpoint deal (d : list (nat * Z)) (n : nat) : list (list (nat * Z)) :=
  match n with O => [] | S O => [d] | S n => take 1 d :: deal (drop 1 d) n end.
Definition stride (n R r : nat) : list nat := (fun k => (r + R * k)%nat) <$> seq 0 (n / R).
Definition linear (p : Qc) (ins : inputs) : list (string * out (E := Qc)) :=
  match dget "input_ids" ins with
  | Some (Cat t) => [("logits", OTensor (map_tensor (fun x => p * x) t))]
  | _ => []
  end.

Lemma deal_join d n : (0 < n)%nat -> mjoin (deal d n) = d.
Proof.
  revert d. induction n as [|[|n] IH]; intros d Hn; [lia|simpl; by rewrite app_nil_r|].
  change (take 1 d ++ mjoin (deal (drop 1 d) (S n)) = d). rewrite IH by lia. apply take_drop.
Qed.
Lemma deal_length d n : length (deal d n) = n.
Proof.
  revert d. induction n as [|[|n] IH]; intros d; [done..|].
  change (S (length (deal (drop 1 d) (S n))) = S (S n)). by rewrite IH.
Qed.
Lemma dealt : binpacking one_bin (fun d n => deal d (Z.to_nat n)).
Proof.
  split; [done|intros; apply deal_length|]. intros d n Hn. rewrite deal_join by lia. done.
Qed.

Lemma strided : sharding stride.
Proof.
  split; [|intros; unfold stride; rewrite length_fmap, length_seq, Nat.div_mul by lia; done].
  intros m R HR. unfold stride. rewrite Nat.div_mul by lia. symmetry. apply submseteq_length_Permutation.
  - apply NoDup_submseteq; [apply NoDup_seq|]. intros x [_ Hx]%elem_of_seq. simpl in Hx.
    apply list_elem_of_join. eexists. split; [|apply list_elem_of_fmap; exists (x mod R)%nat; split; [done|apply elem_of_seq]].
    + apply list_elem_of_fmap. exists (x / R)%nat. split; [pose proof (Nat.div_mod_eq x R); lia|].
      apply elem_of_seq. split; [lia|]. simpl. apply Nat.Div0.div_lt_upper_bound. lia.
    + pose proof (Nat.mod_upper_bound x R). lia.
  - rewrite length_seq, (Nat.mul_comm m R). rewrite <- (length_seq R 0) at 2. generalize (seq 0 R) as l. clear.
    induction l as [|r l IH]; [done|]. rewrite fmap_cons, join_cons, length_app, length_fmap, length_seq. simpl. lia.
Qed.

Lemma dget_filter {V} (keys : list string) (d : list (string * V)) k :
  k ∈ keys -> dget k (filter (fun kv => kv.1 ∈ keys) d) = dget k d.
Proof.
  intros Hk. induction d as [|[k' v] d IH]; [done|]. rewrite filter_cons. simpl.
  case_decide as Hin; simpl; case_decide; by subst.
Qed.

Definition keys : list string := ["input_ids"; "position_ids"].
Definition demo_options : options :=
  {| max_tokens_per_micro_batch := 8; model_input_keys := keys; grad_clip := None |}.

Lemma linear_output p batch : batch ≠ [] -> Forall (sample_ok keys) batch ->
  batch_output linear demo_options p batch =
    [("logits", OTensor [(fun x => p * x) <$> mjoin (row_of "input_ids" <$> batch)])].
Proof.
  intros Hne Hb. unfold batch_output. destruct (collate_spec keys batch Hne Hb) as (ins & -> & _ & Hget).
  unfold linear, model_inputs. rewrite (dget_filter keys) by (by left). rewrite Hget by done.
  destruct batch as [|d batch]; [done|]. apply Forall_cons in Hb as [Hd _].
  destruct (sample_width _ _ Hd) as (r & Hi & _). unfold collected. cbn [omap list_omap]. rewrite Hi. done.
Qed.

Lemma linear_packs p : packed_attention linear keys demo_options p.
Proof.
  split.
  - intros d Hd. unfold alone. rewrite linear_output by (try done; by constructor). constructor; [|done]. simpl.
    eexists. split; [done|]. by rewrite length_fmap, app_nil_r.
  - intros d d' Hd Hd'. unfold alone. rewrite !linear_output by (try done; by constructor). by repeat constructor.
  - intros d batch Hb Hne. apply Forall_cons in Hb as [Hd Hb]. unfold alone.
    rewrite !linear_output by first [done | by apply Forall_cons | by apply Forall_singleton]. simpl. by rewrite app_nil_r, fmap_app.
Qed.

(** A sample of some tokens, with or without a weight. *)
Definition demo_sample (uid : string) (ids : list Qc) (w : option Qc) : sample :=
  [("uid", Str uid); ("input_ids", Tensor [ids]); ("position_ids", Tensor [ids]); ("seq_len", Int (Z.of_nat (length ids)))]
  ++ match w with Some q => [("loss_weight", Float q)] | None => [] end.

Lemma demo_ok uid ids w : match w with Some q => 0 < q | None => True end -> sample_ok keys (demo_sample uid ids w).
Proof.
  intros Hw. split; try (destruct w; simpl; eauto; fail).
  - destruct w; by apply (bool_decide_unpack (NoDup _)).
  - unfold keys. split_and!; set_solver.
  - intros k v Hk [->|[->|[]%elem_of_nil]%elem_of_cons]%elem_of_cons; destruct w; simpl in Hk; simplify_eq; eauto.
  - intros k v Hk Hn t ->. destruct w; simpl in Hk; repeat case_decide; simplify_eq; apply Hn; set_solver.
  - intros v Hv. destruct w; simpl in Hv; simplify_eq. eauto.
Qed.

(** The loss of a sample: the sum of its outputs; its metric: their number. *)
Definition demo_loss (x : sample + inputs) (out : list (string * out (E := Qc))) : res (Qc * list (string * nat)) :=
  match dget "logits" out with
  | Some (OTensor [r]) => Ok (sum r, [("tokens", length r)])
  | _ => Raise KeyError
  end.

Definition demo_results (p : Qc) (items : list sample) : list (Qc * list (string * nat)) :=
  (fun d => (sum ((fun x => p * x) <$> row_of "input_ids" d), [("tokens", seq_len_of d)])) <$> items.

Lemma demo_results_ok p items : Forall (sample_ok keys) items ->
  Forall2 (fun d lm => demo_loss (inl d) (alone linear demo_options p d) = Ok lm) items (demo_results p items).
Proof.
  intros H. apply Forall2_fmap_r, Forall_Forall2_diag. eapply Forall_impl; [exact H|]. intros d Hd. unfold alone.
  rewrite linear_output by first [done | by apply Forall_singleton]. unfold demo_loss. simpl.
  by rewrite app_nil_r, length_fmap.
Qed.

Definition three : list sample :=
  [demo_sample "a" [1; 1] (Some (qc 2 1)); demo_sample "b" [1] None; demo_sample "c" [1; 1; 1] None].
Definition rank (p : Qc) : worker := {| model := Some p; has_optimizer := true; training := false; gradient := []; last_flags := [] |}.

Lemma three_ok : Forall (sample_ok keys) three.
Proof. unfold three. rewrite !Forall_cons. split_and!; [by apply demo_ok..|by apply Forall_nil]. Qed.

Lemma forward_backward_exact_witness : exists ws' added m,
  forward_backward one_bin (fun d n => deal d (Z.to_nat n)) stride linear demo_loss demo_options three false true [rank 1; rank 1] =
    (ws', Ok [("tokens", [2; 1; 3]%nat)]) ∧
  Forall2 (grown m) ws' (zip [rank 1; rank 1] added) ∧ length added = 2%nat ∧
  mean (sum <$> added) = qc 8 4.
Proof.
  destruct (forward_backward_exact one_bin (fun d n => deal d (Z.to_nat n)) stride keys demo_options 1 linear demo_loss dealt strided
    three (demo_results 1 (imap prepare three)) [rank 1; rank 1])
    as (ws' & added & m & H1 & H2 & H3 & H4).
  - apply three_ok.
  - done.
  - by repeat constructor.
  - done.
  - apply linear_packs.
  - apply demo_results_ok, prepare_items, three_ok.
  - intros mbs Hm. vm_compute in Hm. injection Hm as <-. by repeat constructor.
  - exists ws', added, m. split; [exact H1|split; [exact H2|split; [exact H3|]]]. rewrite H4. by apply Qc_is_canon.
Defined.

Lemma few_samples_raise_witness : exists ws',
  forward_backward one_bin (fun d n => deal d (Z.to_nat n)) stride linear demo_loss demo_options [demo_sample "b" [1] None]
    false true [rank 1; rank 1] = (ws', Raise KeyError).
Proof.
  apply (few_samples_raise one_bin (fun d n => deal d (Z.to_nat n)) stride keys demo_options 1 linear demo_loss dealt strided
    [demo_sample "b" [1] None] (demo_results 1 (imap prepare [demo_sample "b" [1] None])) [rank 1; rank 1]).
  - apply Forall_cons. split; [by apply demo_ok|by apply Forall_nil].
  - done.
  - by repeat constructor.
  - apply linear_packs.
  - apply demo_results_ok, prepare_items, Forall_singleton. by apply demo_ok.
  - simpl. lia.
Defined.

(** The last micro-batch is not marked: a single rank compares the indices 0 and 1
    with their number. *)
Example never_last : exists w,
  forward_backward one_bin (fun d _ => (fun x => [x]) <$> d) stride linear demo_loss demo_options
    [demo_sample "a" [1] None; demo_sample "b" [1] None] false true [rank 1] = ([w], Ok [("tokens", [1; 1]%nat)]) ∧
  last_flags w = [false; false].
Proof. eexists. by vm_compute. Qed.
End Examples.
