(* ===== verification/Checkpoint.v ===== *)
(** * Checkpoints of the trainer

    Models trainer/checkpoint/checkpoint_manager.py and
    fsdp_checkpoint_manager.py: the managers of all ranks over the file system
    they share.  A save is the sequence of its phases between two barriers; in a phase
    the ranks come one after the other, in any order.  [dump] and [undump] are
    torch.save and torch.load; what transformers writes for a configuration, a
    processor or a whole model is given as lists of files.  The lock file of
    [local_mkdir] is not modelled: the directory is made with and without it. *)

From S2P Require Import Prelude PyVal Files EvalUtils.

(** ** Managers *)

Section checkpoint.
Context {St : Type}.

(** What is written to one file: the state of a shard of the model, of its
    optimizer, or the schedule and the state of the random numbers. *)
Inductive saved : Type :=
| ModelState (s : St)
| OptimState (s : option St)
| ExtraState (lr : option St) (rng : option St).

(** A manager, with the state of the objects it refers to. *)
Record manager := {
  rank : nat;
  world_size : nat;
  previous_global_step : option Z;
  previous_saved_paths : list path;
  checkpoint_contents : list string;
  m_model : St;
  m_optimizer : option St;
  m_lr_scheduler : option St;
  m_rng : St
}.

Context (dump : saved -> string) (undump : string -> option saved) (cwd : path).
(** What [save_pretrained] writes for the configuration and for the processor, the
    generation configuration when the model has one, the architectures it names, and what
    is written for a whole model with a class of transformers. *)
Context (config_files processor_files : list (string * string)) (generation : option (res (list (string * string)))).
Context (architectures : list string) (full_model : string -> list (string * string)).

Definition default_contents : list string := ["model"; "optimizer"; "extra"].

(* trainer/checkpoint/fsdp_checkpoint_manager.py:46-69 FSDPCheckpointManager.__init__ *)
Definition new_manager (rank world_size : nat) (model : St) (optimizer lr_scheduler : option St) (rng : St)
    (has_processor has_tokenizer : bool) (contents : option (list string)) : res manager :=
  let contents := default default_contents contents in
  if negb (has_processor || has_tokenizer) then Raise AssertionError
  else if bool_decide ("model" ∈ contents ∧ "optimizer" ∈ contents ∧ "extra" ∈ contents) then
    Ok {| rank := rank; world_size := world_size; previous_global_step := None; previous_saved_paths := [];
          checkpoint_contents := contents; m_model := model; m_optimizer := optimizer;
          m_lr_scheduler := lr_scheduler; m_rng := rng |}
  else Raise AssertionError.

(* trainer/checkpoint/checkpoint_manager.py:71-73 BaseCheckpointManager.checkpath *)
Definition checkpath (local_path hdfs_path : option string) : res (bool * string) :=
  match local_path, hdfs_path with
  | None, None => Raise AssertionError
  | Some l, _ => Ok (true, l)
  | None, Some h => Ok (false, h)
  end.

(** [shutil.rmtree(p, ignore_errors=True)], where something is *)
(* trainer/checkpoint/checkpoint_manager.py:75-83 BaseCheckpointManager.remove_previous_save_local_path *)
Definition remove_previous_save_local_path (paths : list path) : M fs unit :=
  for_each paths (fun p =>
    n ← gets (lookup p);
    match n with
    | Some Dir => modify (prune p)
    | _ => mret tt
    end).

(* trainer/checkpoint/checkpoint_manager.py:86-104 BaseCheckpointManager.local_mkdir *)
Definition local_mkdir (local_path : string) : M fs path :=
  let path := slash cwd local_path in
  try_except (mkdirs path) (fun e => if is_Exception e then Some (mkdirs path) else None);;
  mret path.

(** The name of the file of a rank. *)
(* trainer/checkpoint/fsdp_checkpoint_manager.py:162-164 FSDPCheckpointManager.save_checkpoint *)
Definition shard_file (kind : string) (m : manager) : string :=
  kind +:+ "_world_size_" +:+ str_Z (Z.of_nat (world_size m)) +:+ "_rank_" +:+ str_Z (Z.of_nat (rank m)) +:+ ".pt".

(** The checkpoints to be removed before the next one, and those that stay. *)
(* trainer/checkpoint/fsdp_checkpoint_manager.py:142-146 FSDPCheckpointManager.save_checkpoint *)
Definition rotate (max_ckpt_to_keep : option Z) (paths : list path) : list path * list path :=
  match max_ckpt_to_keep with
  | Some k =>
      if bool_decide (0 < k ∧ k <= Z.of_nat (length paths)) then
        let keep_start := Z.to_nat (Z.of_nat (length paths) - k + 1) in
        (take keep_start paths, drop keep_start paths)
      else ([], paths)
  | None => ([], paths)
  end.

Definition with_paths (step : option Z) (l : list path) (m : manager) : manager :=
  {| rank := rank m; world_size := world_size m; previous_global_step := step; previous_saved_paths := l;
     checkpoint_contents := checkpoint_contents m; m_model := m_model m; m_optimizer := m_optimizer m;
     m_lr_scheduler := m_lr_scheduler m; m_rng := m_rng m |}.

(** Before the first barrier. *)
(* trainer/checkpoint/fsdp_checkpoint_manager.py:139-149 FSDPCheckpointManager.save_checkpoint *)
Definition make_room (local_path : string) (global_step : Z) (max_ckpt_to_keep : option Z) (m : manager)
    : M fs (manager * path) :=
  let '(old, kept) := rotate max_ckpt_to_keep (previous_saved_paths m) in
  remove_previous_save_local_path old;;
  p ← local_mkdir local_path;
  mret (with_paths (Some global_step) kept m, p).

Definition write_text (p : path) (files : list (string * string)) : M fs unit :=
  for_each files (fun x => write_file (p ++ [x.1]) (Bytes x.2)).

(** Between the first barrier and the second. *)
(* trainer/checkpoint/fsdp_checkpoint_manager.py:151-189 FSDPCheckpointManager.save_checkpoint *)
Definition write_shards (mp : manager * path) : M fs unit :=
  let '(m, p) := mp in
  write_file (p ++ [shard_file "model" m]) (Bytes (dump (ModelState (m_model m))));;
  write_file (p ++ [shard_file "optim" m]) (Bytes (dump (OptimState (m_optimizer m))));;
  write_file (p ++ [shard_file "extra_state" m]) (Bytes (dump (ExtraState (m_lr_scheduler m) (Some (m_rng m)))));;
  if bool_decide (rank m = 0%nat) then
    match generation with
    | Some r => files ← lift_res r; write_text p files
    | None => mret tt
    end;;
    write_text p config_files;;
    write_text p processor_files
  else mret tt.

(** The class of transformers for an architecture.  The message of the error at the end
    subscripts the configuration object, which raises [TypeError]. *)
(* trainer/checkpoint/fsdp_checkpoint_manager.py:199-212 FSDPCheckpointManager.save_checkpoint *)
Definition auto_model_cls : res string :=
  match architectures with
  | [] => Raise IndexError
  | a :: _ =>
      if contains "ForTokenClassification" a then Ok "AutoModelForTokenClassification"
      else if contains "ForCausalLM" a then Ok "AutoModelForCausalLM"
      else if contains "ForConditionalGeneration" a then Ok "AutoModelForVision2Seq"
      else Raise TypeError
  end.

(** After the second barrier. *)
(* trainer/checkpoint/fsdp_checkpoint_manager.py:191-230 FSDPCheckpointManager.save_checkpoint *)
Definition write_hf_model (mp : manager * path) : M fs unit :=
  let '(m, p) := mp in
  if bool_decide ("hf_model" ∈ checkpoint_contents m) then
    let hf_local_path := p ++ ["huggingface"] in
    mkdirs hf_local_path;;
    if bool_decide (rank m = 0%nat) then
      cls ← lift_res auto_model_cls;
      write_text hf_local_path (full_model cls);;
      write_text hf_local_path processor_files
    else mret tt
  else mret tt.

(** All ranks. *)
(* trainer/checkpoint/fsdp_checkpoint_manager.py:118-232 FSDPCheckpointManager.save_checkpoint *)
Definition save_checkpoint (local_path : option string) (global_step : Z) (max_ckpt_to_keep : option Z)
    (ms : list manager) : M fs (list manager) :=
  match local_path with
  | None => mret ms
  | Some local_path =>
      mps ← map_m (make_room local_path global_step max_ckpt_to_keep) ms;
      for_each mps write_shards;;
      for_each mps write_hf_model;;
      mret ((fun mp => with_paths (previous_global_step mp.1) (previous_saved_paths mp.1 ++ [mp.2]) mp.1) <$> mps)
  end.

(** [torch.load] *)
Definition load_file (p : path) : M fs saved :=
  n ← gets (lookup p);
  match n with
  | None => raise FileNotFoundError
  | Some (File (Bytes s)) =>
      lift_res (match undump s with Some x => Ok x | None => Raise (RuntimeError "Invalid magic number; corrupt file?") end)
  | Some (File (Archive _)) => raise (RuntimeError "Invalid magic number; corrupt file?")
  | Some _ => raise OSError
  end.

Definition with_state (model : St) (optimizer lr_scheduler : option St) (rng : St) (m : manager) : manager :=
  {| rank := rank m; world_size := world_size m; previous_global_step := previous_global_step m;
     previous_saved_paths := previous_saved_paths m; checkpoint_contents := checkpoint_contents m;
     m_model := model; m_optimizer := optimizer; m_lr_scheduler := lr_scheduler; m_rng := rng |}.

(** [o.load_state_dict(s)], for an object that may be missing *)
Definition load_state_dict (o s : option St) : res (option St) :=
  match o, s with
  | None, _ => Ok None
  | Some _, Some s => Ok (Some s)
  | Some _, None => Raise TypeError
  end.

(** One rank. *)
(* trainer/checkpoint/fsdp_checkpoint_manager.py:71-116 FSDPCheckpointManager.load_checkpoint *)
Definition load_checkpoint (local_path : option string) (del_local_after_load : bool) (m : manager) : M fs manager :=
  match local_path with
  | None => mret m
  | Some local_path =>
      let p := slash cwd local_path in
      let local_model_path := p ++ [shard_file "model" m] in
      let local_optim_path := p ++ [shard_file "optim" m] in
      let local_extra_state_path := p ++ [shard_file "extra_state" m] in
      model_state_dict ← load_file local_model_path;
      optimizer_state_dict ← load_file local_optim_path;
      extra_state_dict ← load_file local_extra_state_path;
      (if del_local_after_load then
         try_except (unlink local_model_path;; unlink local_optim_path;; unlink local_extra_state_path)
           (fun e => if is_Exception e then Some (mret tt) else None)
       else mret tt);;
      '(lr, rng) ← lift_res (match extra_state_dict with ExtraState lr rng => Ok (lr, rng) | _ => Raise KeyError end);
      model ← lift_res (match model_state_dict with ModelState s => Ok s | _ => Raise (RuntimeError "Error(s) in loading state_dict") end);
      optim ← lift_res (match optimizer_state_dict with OptimState s => load_state_dict (m_optimizer m) s | _ => Raise KeyError end);
      lr ← lift_res (load_state_dict (m_lr_scheduler m) lr);
      mret (with_state model optim lr (default (m_rng m) rng) m)
  end.

(** ** The workers' calls *)

(** The attribute of a worker has no value before [build_checkpoint_manager], and reading it
    raises.  The number of the step is not passed on: the managers keep 0. *)
(* trainer/workers/fsdp_worker.py:332-334 FSDPWorker.save_checkpoint *)
Definition worker_save_checkpoint (max_ckpt_to_keep : option Z) (path : string) (managers : option (list manager))
    : M fs (list manager) :=
  match managers with
  | Some ms => save_checkpoint (Some path) 0 max_ckpt_to_keep ms
  | None => raise AttributeError
  end.

(* trainer/workers/fsdp_worker.py:336-338 FSDPWorker.load_checkpoint *)
Definition worker_load_checkpoint (path : string) (m : option manager) : M fs manager :=
  match m with
  | Some m => load_checkpoint (Some path) false m
  | None => raise AttributeError
  end.

(** ** The latest checkpoint *)

(* trainer/checkpoint/checkpoint_manager.py:161-165 get_checkpoint_tracker_filename *)
Definition get_checkpoint_tracker_filename (root_path : path) : path :=
  root_path ++ ["latest_checkpointed_iteration.txt"].

Definition global_step_dir (step : Z) : string := "global_step_" +:+ str_Z step.

(* trainer/checkpoint/checkpoint_manager.py:129-158 find_latest_ckpt_path *)
Definition find_latest_ckpt_path (p : option path) (directory_format : Z -> string) : M fs (option path) :=
  match p with
  | None => mret None
  | Some p =>
      f ← get;
      match f !! get_checkpoint_tracker_filename p with
      | None => mret None
      | Some (File (Bytes s)) =>
          match py_int s with
          | None => raise ValueError
          | Some iteration =>
              let ckpt_path := p ++ [directory_format iteration] in
              mret (if bool_decide (is_Some (f !! ckpt_path)) then Some ckpt_path else None)
          end
      | Some (File (Archive _)) => raise ValueError
      | Some _ => raise OSError
      end
  end.
End checkpoint.

(** ** Proofs: names of files *)

Lemma append_inj_l (a b c : string) : a +:+ b = a +:+ c -> b = c.
Proof. induction a as [|x a IH]; [done|]. intros [= H]. by apply IH. Qed.

Lemma append_inj_r (a b c : string) : a +:+ c = b +:+ c -> a = b.
Proof.
  intros H. apply (f_equal chars) in H. rewrite !chars_app in H. apply app_inv_tail in H.
  apply (f_equal of_chars) in H. unfold of_chars, chars in H. by rewrite !String.string_of_list_ascii_of_string in H.
Qed.

Section names.
Context {St : Type}.
Implicit Types m : manager (St := St).

Lemma shard_file_rank kind m m' : world_size m = world_size m' -> shard_file kind m = shard_file kind m' -> rank m = rank m'.
Proof.
  unfold shard_file. intros -> H%append_inj_l%append_inj_l%append_inj_l%append_inj_l%append_inj_r. unfold str_Z in H.
  apply pretty_Z_inj in H. lia.
Qed.
Lemma model_optim m m' : shard_file "model" m ≠ shard_file "optim" m'.
Proof. done. Qed.
Lemma model_extra m m' : shard_file "model" m ≠ shard_file "extra_state" m'.
Proof. done. Qed.
Lemma optim_extra m m' : shard_file "optim" m ≠ shard_file "extra_state" m'.
Proof. done. Qed.
End names.

(** ** Proofs: what an operation that returns has done *)

Lemma for_each_inv {S A} (P : S -> S -> Prop) (f : A -> M S unit) (l : list A) s s' :
  (forall s, P s s) -> (forall a b c, P a b -> P b c -> P a c) ->
  (forall x s s', x ∈ l -> f x s = (s', Ok tt) -> P s s') ->
  for_each l f s = (s', Ok tt) -> P s s'.
Proof.
  intros Hr Ht. revert s. induction l as [|x l IH]; intros s Hx H; simpl in H.
  { unfold mret, M_ret in H. by simplify_eq. }
  apply M_bind_ok in H as ([] & s1 & H1 & H2). eapply Ht; [eapply Hx; [left|exact H1]|].
  apply IH; [|done]. intros y a b Hy. apply Hx. by right.
Qed.

Lemma write_file_inv p d f f' : write_file p d f = (f', Ok tt) -> f' = <[p := File d]> f.
Proof.
  unfold write_file. intros H. apply M_bind_ok in H as ([] & f1 & H1 & H).
  unfold in_directory in H1. rewrite bind_gets in H1. assert (f1 = f) as ->.
  { by destruct (f !! parent p) as [[]|]; cbv [mret M_ret raise] in H1; simplify_eq. }
  rewrite bind_gets in H. destruct (f !! p) as [[]|]; cbv [modify raise] in H; by simplify_eq.
Qed.

Lemma write_text_inv p files f f' : write_text p files f = (f', Ok tt) ->
  forall q, q ∉ (fun x => p ++ [x.1]) <$> files -> f' !! q = f !! q.
Proof.
  intros H q Hq. unfold write_text in H.
  apply (for_each_inv (fun f f' => f' !! q = f !! q)) in H; [done|done|congruence|].
  intros x s s' Hx ->%write_file_inv. apply lookup_insert_ne. intros <-. apply Hq, list_elem_of_fmap. by exists x.
Qed.

Lemma mkdir1_inv last q f f' : mkdir1 last q f = (f', Ok tt) -> f' = <[q := Dir]> f.
Proof.
  unfold mkdir1. rewrite bind_gets. destruct (f !! q) as [[]|] eqn:E; cbv [mret M_ret modify raise]; intros; simplify_eq; [|done].
  by rewrite insert_id.
Qed.

Lemma mkdir1_frame last q f x : x ≠ q -> (mkdir1 last q f).1 !! x = f !! x.
Proof.
  intros Hx. unfold mkdir1. rewrite bind_gets. destruct (f !! q) as [[]|]; cbv [mret M_ret modify raise]; simpl; try done.
  by apply lookup_insert_ne.
Qed.

Lemma mkdirs_frame p f q : ~ (q ≠ [] ∧ q `prefix_of` p) -> (mkdirs p f).1 !! q = f !! q.
Proof.
  intros Hq. unfold mkdirs.
  assert (forall l, Forall (fun i => (1 <= i <= length p)%nat) l -> forall f,
    (for_each l (fun i => mkdir1 (bool_decide (i = length p)) (take i p)) f).1 !! q = f !! q) as Hg.
  { induction 1 as [|i l Hi _ IH]; intros g; [done|]. simpl. unfold mbind at 1, M_bind at 1.
    pose proof (mkdir1_frame (bool_decide (i = length p)) (take i p) g q) as Hf.
    destruct (mkdir1 _ _ g) as [g1 [[]|e]]; simpl in *; [rewrite IH|]; apply Hf; intros ->; apply Hq; split;
      [destruct p, i; simpl in *; done || lia|exists (drop i p); by rewrite take_drop|
       destruct p, i; simpl in *; done || lia|exists (drop i p); by rewrite take_drop]. }
  apply Hg, Forall_forall. intros i Hi%elem_of_seq. lia.
Qed.

Lemma mkdirs_inv p f f' : mkdirs p f = (f', Ok tt) -> made p f f'.
Proof.
  intros H q. case_decide as Hq.
  2:{ pose proof (mkdirs_frame p f q Hq) as Hf. by rewrite H in Hf. }
  destruct Hq as [Hq [r ->]]. unfold mkdirs in H.
  assert (forall l f f', for_each l (fun i => mkdir1 (bool_decide (i = length (q ++ r))) (take i (q ++ r))) f = (f', Ok tt) ->
    (f !! q = Some Dir \/ length q ∈ l) -> f' !! q = Some Dir) as Hg.
  { clear. induction l as [|i l IH]; intros f f' H Hl; simpl in H.
    { cbv [mret M_ret] in H. simplify_eq. destruct Hl as [|?%elem_of_nil]; done. }
    apply M_bind_ok in H as ([] & f1 & ->%mkdir1_inv & H). apply (IH _ _ H).
    destruct (decide (q = take i (q ++ r))) as [<-|Hne]; [left; apply lookup_insert_eq|].
    rewrite lookup_insert_ne by done. destruct Hl as [|[<-|]%elem_of_cons]; auto. by rewrite take_app_length in Hne. }
  apply (Hg _ _ _ H). right. apply elem_of_seq. rewrite length_app. destruct q; [done|]. simpl. lia.
Qed.

Lemma local_mkdir_inv cwd s f f' p : local_mkdir cwd s f = (f', Ok p) -> p = slash cwd s ∧ made p f f'.
Proof.
  unfold local_mkdir. intros H. apply M_bind_ok in H as ([] & f1 & H & Hp). cbv [mret M_ret] in Hp. simplify_eq.
  split; [done|]. unfold try_except in H. destruct (mkdirs (slash cwd s) f) as [g [[]|e]] eqn:E.
  - simplify_eq. by apply mkdirs_inv.
  - destruct (is_Exception e); [|done]. apply mkdirs_inv in H. intros q. rewrite H.
    case_decide as Hq; [done|]. pose proof (mkdirs_frame (slash cwd s) f q Hq) as Hf. by rewrite E in Hf.
Qed.

(** ** Proofs: making room *)

(** A path that is a directory, or has nothing at it. *)
Definition removable (f : fs) (p : path) : Prop := f !! p = Some Dir ∨ forall r, f !! (p ++ r) = None.
Definition below (l : list path) (q : path) : Prop := Exists (fun o => o `prefix_of` q) l.

Lemma prune_removable p o f : removable f o -> removable (prune p f) o.
Proof.
  intros [H|H].
  - destruct (decide (p `prefix_of` o)) as [Hp|Hp].
    + right. intros r. rewrite prune_lookup, decide_True; [done|by apply prefix_app_r].
    + left. by rewrite prune_lookup, decide_False.
  - right. intros r. rewrite prune_lookup. by case_decide.
Qed.

Lemma remove_run l f : Forall (removable f) l -> exists f', remove_previous_save_local_path l f = (f', Ok tt) ∧
  forall q, f' !! q = if decide (below l q) then None else f !! q.
Proof.
  intros H. revert f H. induction l as [|p l IH]; intros f H.
  { exists f. split; [done|]. intros q. rewrite decide_False; [done|]. by intros ?%Exists_nil. }
  apply Forall_cons in H as [Hp Hl]. unfold remove_previous_save_local_path. simpl.
  set (f1 := match f !! p with Some Dir => prune p f | _ => f end).
  assert (Hf1 : forall q, f1 !! q = if decide (p `prefix_of` q) then None else f !! q).
  { intros q. unfold f1. destruct Hp as [Hp|Hp].
    - rewrite Hp. apply prune_lookup.
    - specialize (Hp []) as Hp0. rewrite app_nil_r in Hp0. rewrite Hp0. case_decide as Hd; [|done].
      destruct Hd as [r ->]. apply Hp. }
  destruct (IH f1) as (f' & Hr & Hq).
  { eapply Forall_impl; [exact Hl|]. intros o Ho. unfold f1. destruct (f !! p) as [[]|]; try done. by apply prune_removable. }
  exists f'. split.
  - erewrite M_bind_run; [exact Hr|]. rewrite bind_gets. unfold f1. by destruct (f !! p) as [[]|].
  - intros q. rewrite Hq, Hf1. unfold below. repeat case_decide; try done.
    + rewrite Exists_cons in *. tauto.
    + rewrite Exists_cons in *. tauto.
    + rewrite Exists_cons in *. tauto.
Qed.

Section saves.
Context {St : Type}.
Context (dump : saved (St := St) -> string) (undump : string -> option (saved (St := St))) (cwd : path).
Context (config_files processor_files : list (string * string)) (generation : option (res (list (string * string)))).
Context (architectures : list string) (full_model : string -> list (string * string)).
#[local] Abbreviation manager := (manager (St := St)).
#[local] Abbreviation make_room := (make_room (St := St) cwd).
#[local] Abbreviation write_shards := (write_shards dump config_files processor_files generation).
#[local] Abbreviation write_hf_model := (write_hf_model (St := St) processor_files architectures full_model).
#[local] Abbreviation save_checkpoint :=
  (save_checkpoint dump cwd config_files processor_files generation architectures full_model).
#[local] Abbreviation load_checkpoint := (load_checkpoint undump cwd).

(** The old checkpoints are gone and the directory is there. *)
Definition room (old : list path) (p : path) (f f' : fs) : Prop :=
  forall q, f' !! q = if decide (q ≠ [] ∧ q `prefix_of` p) then Some Dir else if decide (below old q) then None else f !! q.

(** Neither is on the way to the other. *)
Definition apart (p q : path) : Prop := ~ p `prefix_of` q ∧ ~ q `prefix_of` p.

Lemma room_again old p f f1 f2 : room old p f f1 -> room old p f1 f2 -> room old p f f2.
Proof. intros H1 H2 q. rewrite H2. case_decide; [done|]. case_decide; [done|]. rewrite H1. by rewrite !decide_False. Qed.

Lemma room_removable old p f f1 : Forall (apart p) old -> room old p f f1 -> Forall (removable f1) old.
Proof.
  intros Ha Hr. apply Forall_forall. intros o Ho. right. intros r. rewrite Hr.
  rewrite Forall_forall in Ha. destruct (Ha o Ho) as [_ Hop].
  rewrite decide_False; [|intros [_ H]; apply Hop; etransitivity; [|exact H]; by apply prefix_app_r].
  rewrite decide_True; [done|]. apply Exists_exists. exists o. split; [done|]. by apply prefix_app_r.
Qed.

Lemma make_room_inv s step keep old kept (m : manager) f f' mp :
  rotate keep (previous_saved_paths m) = (old, kept) -> Forall (removable f) old ->
  make_room s step keep m f = (f', Ok mp) ->
  mp = (with_paths (Some step) kept m, slash cwd s) ∧ room old (slash cwd s) f f'.
Proof.
  intros Hrot Hold. unfold Checkpoint.make_room. rewrite Hrot. destruct (remove_run old f Hold) as (g & Hg & Hgq).
  erewrite M_bind_run by exact Hg. intros H. apply M_bind_ok in H as (p & f1 & H & Hp). cbv [mret M_ret] in Hp. simplify_eq.
  apply local_mkdir_inv in H as [-> Hm]. split; [done|]. intros q. rewrite Hm. case_decide; [done|]. apply Hgq.
Qed.

Lemma make_room_all s step keep prev old kept (ms : list manager) f f' mps : ms ≠ [] ->
  Forall (fun m => previous_saved_paths m = prev) ms -> rotate keep prev = (old, kept) ->
  Forall (removable f) old -> Forall (apart (slash cwd s)) old ->
  map_m (make_room s step keep) ms f = (f', Ok mps) ->
  mps = (fun m => (with_paths (Some step) kept m, slash cwd s)) <$> ms ∧ room old (slash cwd s) f f'.
Proof.
  intros Hne Hprev Hrot Hold Hapart. revert f Hold mps Hne. induction Hprev as [|m ms Hm Hms IH]; intros f Hold mps Hne H; [done|].
  simpl in H. apply M_bind_ok in H as (mp & f1 & H1 & H). rewrite <- Hm in Hrot.
  destruct (make_room_inv s step keep old kept m f f1 mp Hrot Hold H1) as [-> Hr1]. rewrite Hm in Hrot.
  apply M_bind_ok in H as (mps' & f2 & H2 & H). cbv [mret M_ret] in H. simplify_eq.
  destruct ms as [|m' ms].
  { simpl in H2. cbv [mret M_ret] in H2. by simplify_eq. }
  destruct (IH f1 ltac:(by eapply room_removable) mps' ltac:(done) H2) as [-> Hr2].
  split; [done|]. by eapply room_again.
Qed.

(** A checkpoint of a rank. *)
Record complete (f : fs) (p : path) (m : manager) : Prop := {
  cp_model : f !! (p ++ [shard_file "model" m]) = Some (File (Bytes (dump (ModelState (m_model m)))));
  cp_optim : f !! (p ++ [shard_file "optim" m]) = Some (File (Bytes (dump (OptimState (m_optimizer m)))));
  cp_extra : f !! (p ++ [shard_file "extra_state" m]) = Some (File (Bytes (dump (ExtraState (m_lr_scheduler m) (Some (m_rng m))))))
}.

Lemma complete_frame f f' p m : (forall n, f' !! (p ++ [n]) = f !! (p ++ [n])) -> complete f p m -> complete f' p m.
Proof. intros H [H1 H2 H3]. split; by rewrite H. Qed.

(** The names transformers gives to its files are not those of the shards. *)
Definition generated : list (string * string) := match generation with Some (Ok l) => l | _ => [] end.
Definition plain_names (l : list (string * string)) : Prop :=
  Forall (fun x => forall m : manager, x.1 ≠ shard_file "model" m ∧ x.1 ≠ shard_file "optim" m ∧ x.1 ≠ shard_file "extra_state" m) l.
Context (Hnames : plain_names (generated ++ config_files ++ processor_files)).

Definition shards (p : path) (m : manager) : list path :=
  [p ++ [shard_file "model" m]; p ++ [shard_file "optim" m]; p ++ [shard_file "extra_state" m]].
Definition texts (p : path) : list path := (fun x => p ++ [x.1]) <$> (generated ++ config_files ++ processor_files).

Lemma shards_texts p m q : q ∈ shards p m -> q ∉ texts p.
Proof.
  intros Hq (x & Hx & Hin)%list_elem_of_fmap. unfold plain_names in Hnames. rewrite Forall_forall in Hnames.
  destruct (Hnames x Hin m) as (H1 & H2 & H3). unfold shards in Hq. subst q.
  rewrite !elem_of_cons in Hq. destruct Hq as [E|[E|[E|[]%elem_of_nil]]]; apply app_inj_tail in E as [_ E]; done.
Qed.

Lemma shards_ranks p m m' q : world_size m = world_size m' -> rank m ≠ rank m' -> q ∈ shards p m -> q ∉ shards p m'.
Proof.
  intros Hw Hr Hq Hq'. unfold shards in *. rewrite !elem_of_cons in Hq, Hq'.
  destruct Hq as [->|[->|[->|[]%elem_of_nil]]]; destruct Hq' as [E|[E|[E|[]%elem_of_nil]]];
    apply app_inj_tail in E as [_ E]; try done; by apply shard_file_rank in E.
Qed.

Lemma write_shards_inv m p f f' : write_shards (m, p) f = (f', Ok tt) ->
  complete f' p m ∧ forall q, q ∉ shards p m -> q ∉ texts p -> f' !! q = f !! q.
Proof.
  unfold Checkpoint.write_shards. intros H.
  apply M_bind_ok in H as ([] & f1 & ->%write_file_inv & H). apply M_bind_ok in H as ([] & f2 & ->%write_file_inv & H).
  apply M_bind_ok in H as ([] & f3 & ->%write_file_inv & H).
  assert (Ht : forall q, q ∉ texts p -> f' !! q = (<[p ++ [shard_file "extra_state" m]:=File (Bytes (dump (ExtraState (m_lr_scheduler m) (Some (m_rng m)))))]>
    (<[p ++ [shard_file "optim" m]:=File (Bytes (dump (OptimState (m_optimizer m))))]>
      (<[p ++ [shard_file "model" m]:=File (Bytes (dump (ModelState (m_model m))))]> f))) !! q).
  { intros q Hq. unfold texts in Hq. rewrite !fmap_app, !not_elem_of_app in Hq. destruct Hq as (Hq1 & Hq2 & Hq3).
    case_bool_decide; [|cbv [mret M_ret] in H; by simplify_eq].
    apply M_bind_ok in H as ([] & g1 & Hg & H). apply M_bind_ok in H as ([] & g2 & H2 & H3).
    rewrite (write_text_inv _ _ _ _ H3) by done. rewrite (write_text_inv _ _ _ _ H2) by done.
    unfold generated in Hq1. destruct generation as [[l|e]|]; cbv [mbind M_bind lift_res mret M_ret] in Hg; simplify_eq; [|done].
    by rewrite (write_text_inv _ _ _ _ Hg). }
  split.
  - split; rewrite Ht by (apply (shards_texts p m); unfold shards; set_solver).
    + by rewrite !lookup_insert_ne, lookup_insert_eq by (intros E; by apply app_inj_tail in E as [_ E]).
    + by rewrite lookup_insert_ne, lookup_insert_eq by (intros E; by apply app_inj_tail in E as [_ E]).
    + by rewrite lookup_insert_eq.
  - intros q Hq1 Hq2. rewrite Ht by done. unfold shards in Hq1. rewrite !not_elem_of_cons in Hq1.
    destruct Hq1 as (H1 & H2 & H3 & _). by rewrite !lookup_insert_ne.
Qed.

Definition one_world (ms : list manager) : Prop := NoDup (rank <$> ms) ∧ exists w, Forall (fun m => world_size m = w) ms.

Lemma one_world_cons m ms : one_world (m :: ms) -> one_world ms ∧ Forall (fun m' => world_size m = world_size m' ∧ rank m ≠ rank m') ms.
Proof.
  intros [Hn (w & Hw)]. rewrite fmap_cons, NoDup_cons in Hn. destruct Hn as [Hni Hn]. apply Forall_cons in Hw as [Hm Hw].
  split; [split; [done|by exists w]|]. apply Forall_forall. intros m' Hm'. rewrite Forall_forall in Hw. split.
  - rewrite Hm. symmetry. by apply Hw.
  - intros E. apply Hni. rewrite E. apply list_elem_of_fmap. by exists m'.
Qed.

Lemma write_all p ms f f' : one_world ms -> for_each ((fun m => (m, p)) <$> ms) write_shards f = (f', Ok tt) ->
  Forall (complete f' p) ms ∧ forall q, (forall n, q ≠ p ++ [n]) -> f' !! q = f !! q.
Proof.
  intros Hw. assert (Hmain : (Forall (complete f' p) ms ∧ forall q, Forall (fun m => q ∉ shards p m) ms -> q ∉ texts p -> f' !! q = f !! q) ->
    Forall (complete f' p) ms ∧ forall q, (forall n, q ≠ p ++ [n]) -> f' !! q = f !! q).
  { intros [H1 H2]. split; [done|]. intros q Hq. apply H2.
    - apply Forall_forall. intros m _ Hm. unfold shards in Hm. rewrite !elem_of_cons in Hm.
      destruct Hm as [E|[E|[E|[]%elem_of_nil]]]; by apply Hq in E.
    - intros (x & E & _)%list_elem_of_fmap. by apply Hq in E. }
  intros H. apply Hmain. clear Hmain. revert f H. induction ms as [|m ms IH]; intros f H.
  { cbv [mret M_ret for_each fmap list_fmap] in H. simplify_eq. by split. }
  rewrite fmap_cons in H. cbn [for_each] in H. apply M_bind_ok in H as ([] & f1 & [Hc Hf1]%write_shards_inv & H).
  apply one_world_cons in Hw as [Hw Hms]. destruct (IH Hw f1 H) as [Hall Hfr]. split.
  - constructor; [|done]. assert (forall q, q ∈ shards p m -> f' !! q = f1 !! q) as Hkeep.
    { intros q Hq. apply Hfr; [|by eapply shards_texts]. eapply Forall_impl; [exact Hms|]. intros m' [Hw' Hr].
      by apply (shards_ranks p m m'). }
    destruct Hc as [H1 H2 H3]. split; rewrite Hkeep by (unfold shards; set_solver); done.
  - intros q Hq Ht. apply Forall_cons in Hq as [Hqm Hq]. rewrite Hfr by done. by apply Hf1.
Qed.

(** What is written after the second barrier is below the directory of the whole model. *)
Lemma write_hf_inv p mps f f' : p ≠ [] -> directories f p -> Forall (fun mp => mp.2 = p) mps ->
  for_each mps write_hf_model f = (f', Ok tt) ->
  forall q, ~ p ++ ["huggingface"] `prefix_of` q -> f' !! q = f !! q.
Proof.
  intros Hp Hd Hmps H q Hq. set (hf := p ++ ["huggingface"]) in *.
  assert (Hg : forall mps f, directories f p -> Forall (fun mp => mp.2 = p) mps -> for_each mps write_hf_model f = (f', Ok tt) ->
    forall q, ~ hf `prefix_of` q -> f' !! q = f !! q); [|by eapply Hg].
  clear. induction mps as [|[m p'] mps IH]; intros f Hd Hmps H q Hq.
  { cbv [for_each mret M_ret] in H. by simplify_eq. }
  apply Forall_cons in Hmps as [E Hmps]. simpl in E. subst p'. cbn [for_each] in H.
  apply M_bind_ok in H as ([] & f1 & H1 & H).
  assert (Hf1 : forall q, ~ hf `prefix_of` q -> f1 !! q = f !! q).
  { clear q Hq. intros q Hq. unfold Checkpoint.write_hf_model in H1. case_bool_decide; [|cbv [mret M_ret] in H1; by simplify_eq].
    apply M_bind_ok in H1 as ([] & g & Hm%mkdirs_inv & H1).
    assert (Hgq : g !! q = f !! q).
    { rewrite Hm. destruct (decide (q ≠ [] ∧ _)) as [[Hne Hpre]|]; [|done]. symmetry. apply Hd; [done|].
      apply prefix_snoc in Hpre as [->|]; [destruct Hq; reflexivity|done]. }
    case_bool_decide; [|cbv [mret M_ret] in H1; by simplify_eq].
    assert (forall files g g', write_text hf files g = (g', Ok tt) -> g' !! q = g !! q) as Htext.
    { intros files a b Hw. apply (write_text_inv _ _ _ _ Hw). intros (x & -> & _)%list_elem_of_fmap. apply Hq. by apply prefix_app_r. }
    apply M_bind_ok in H1 as (cls & g1 & Hl & H1). assert (g1 = g) as -> by (unfold lift_res in Hl; congruence).
    apply M_bind_ok in H1 as ([] & g2 & Hw1 & Hw2). by rewrite (Htext _ _ _ Hw2), (Htext _ _ _ Hw1). }
  rewrite (IH f1); [by apply Hf1| |done|done|done].
  intros x Hx Hxp. rewrite Hf1; [by apply Hd|]. intros Hc. apply prefix_length in Hc, Hxp. unfold hf in Hc.
  rewrite length_app in Hc. simpl in Hc. lia.
Qed.

(** What a save that returns has done. *)
Lemma save_inv s step keep prev old kept ms f f' ms' : ms ≠ [] -> one_world ms ->
  Forall (fun m => previous_saved_paths m = prev) ms -> rotate keep prev = (old, kept) ->
  slash cwd s ≠ [] -> Forall (removable f) old -> Forall (apart (slash cwd s)) old ->
  save_checkpoint (Some s) step keep ms f = (f', Ok ms') ->
  ms' = with_paths (Some step) (kept ++ [slash cwd s]) <$> ms ∧ Forall (complete f' (slash cwd s)) ms ∧
  f' !! slash cwd s = Some Dir ∧
  forall q, apart (slash cwd s) q -> f' !! q = if decide (below old q) then None else f !! q.
Proof.
  intros Hne Hw Hprev Hrot Hp Hold Hapart H. set (p := slash cwd s) in *. unfold Checkpoint.save_checkpoint in H.
  apply M_bind_ok in H as (mps & f1 & H1 & H).
  destruct (make_room_all s step keep prev old kept ms f f1 mps Hne Hprev Hrot Hold Hapart H1) as [-> Hroom]. fold p in Hroom, H.
  apply M_bind_ok in H as ([] & f2 & H2 & H). apply M_bind_ok in H as ([] & f3 & H3 & H).
  cbv [mret M_ret] in H. injection H as <- <-.
  set (ms1 := with_paths (Some step) kept <$> ms).
  assert (Hms1 : (fun m => (with_paths (Some step) kept m, p)) <$> ms = (fun m => (m, p)) <$> ms1).
  { unfold ms1. by rewrite <- list_fmap_compose. }
  assert (Hw1 : one_world ms1).
  { destruct Hw as [Hn (w & Hws)]. split; [unfold ms1; by rewrite <- list_fmap_compose|]. exists w. by apply Forall_fmap. }
  rewrite Hms1 in H2, H3. destruct (write_all p ms1 f1 f2 Hw1 H2) as [Hc Hf2].
  assert (Hd1 : directories f1 p) by (intros q Hq Hqp; rewrite Hroom, decide_True; done).
  assert (Hlong : forall q n, q `prefix_of` p -> q ≠ p ++ [n]).
  { intros q n Hqp ->. apply prefix_length in Hqp. rewrite length_app in Hqp. simpl in Hqp. lia. }
  assert (Hd2 : directories f2 p) by (intros q Hq Hqp; rewrite Hf2 by (intros; by apply Hlong); by apply Hd1).
  assert (Hf3 : forall q, ~ p ++ ["huggingface"] `prefix_of` q -> f3 !! q = f2 !! q).
  { eapply write_hf_inv; [done|done| |exact H3]. apply Forall_fmap, Forall_true. done. }
  split_and!.
  - rewrite <- list_fmap_compose. apply list_fmap_ext. done.
  - unfold ms1 in Hc. rewrite Forall_fmap in Hc. eapply Forall_impl; [exact Hc|]. intros m [C1 C2 C3].
    split; (rewrite Hf3; [done|]); intros [r Hr]; rewrite <- app_assoc in Hr; apply app_inv_head in Hr; by injection Hr.
  - rewrite Hf3; [by apply Hd2|]. intros Hc'. apply prefix_length in Hc'. rewrite length_app in Hc'. simpl in Hc'. lia.
  - intros q [Hq1 Hq2]. rewrite Hf3 by (intros E; apply Hq1; etransitivity; [|exact E]; by apply prefix_app_r).
    rewrite Hf2 by (intros n ->; apply Hq1; by apply prefix_app_r). by rewrite Hroom, decide_False by by intros [_ ?].
Qed.

(** ** Proofs: a save returns *)

Lemma try_except_ok {S A} (m : M S A) h s s' a : m s = (s', Ok a) -> try_except m h s = (s', Ok a).
Proof. unfold try_except. by intros ->. Qed.

Lemma free_room old p f f1 : free f p -> room old p f f1 -> free f1 p.
Proof.
  intros Hf Hr i Hi. right. rewrite Hr, decide_True; [done|]. split.
  - intros E. apply (f_equal length) in E. rewrite length_take in E. simpl in E. lia.
  - exists (drop i p). by rewrite take_drop.
Qed.

Lemma removed_free old p f g : free f p -> (forall q, g !! q = if decide (below old q) then None else f !! q) -> free g p.
Proof. intros Hf Hg i Hi. rewrite Hg. case_decide; [by left|]. by apply Hf. Qed.

Lemma make_room_returns s step keep old kept (m : manager) f :
  rotate keep (previous_saved_paths m) = (old, kept) -> Forall (removable f) old -> free f (slash cwd s) ->
  exists f' mp, make_room s step keep m f = (f', Ok mp).
Proof.
  intros Hrot Hold Hfree. unfold Checkpoint.make_room. rewrite Hrot. destruct (remove_run old f Hold) as (g & Hg & Hgq).
  erewrite M_bind_run by exact Hg.
  destruct (mkdirs_spec (slash cwd s) g (removed_free _ _ _ _ Hfree Hgq)) as (f' & Hm & _).
  assert (local_mkdir cwd s g = (f', Ok (slash cwd s))) as Hl.
  { unfold local_mkdir. erewrite M_bind_run; [done|]. by apply try_except_ok. }
  erewrite M_bind_run by exact Hl. by eexists _, _.
Qed.

Lemma make_room_all_returns s step keep prev old kept (ms : list manager) f :
  Forall (fun m => previous_saved_paths m = prev) ms -> rotate keep prev = (old, kept) ->
  Forall (removable f) old -> Forall (apart (slash cwd s)) old -> free f (slash cwd s) ->
  exists f' mps, map_m (make_room s step keep) ms f = (f', Ok mps).
Proof.
  intros Hprev Hrot Hold Hapart. revert f Hold. induction Hprev as [|m ms Hm Hms IH]; intros f Hold Hfree; [by eexists _, _|].
  simpl. rewrite <- Hm in Hrot.
  destruct (make_room_returns s step keep old kept m f Hrot Hold Hfree) as (f1 & mp & H1).
  destruct (make_room_inv s step keep old kept m f f1 mp Hrot Hold H1) as [-> Hr1].
  destruct (IH f1) as (f' & mps & H2); [by eapply room_removable|by eapply free_room|].
  erewrite M_bind_run by exact H1. erewrite M_bind_run by exact H2. by eexists _, _.
Qed.

(** A directory in which every name can be a file. *)
Definition only_files (f : fs) (p : path) : Prop := f !! p = Some Dir ∧ forall n, f !! (p ++ [n]) ≠ Some Dir.

Lemma write_file_returns f p n d : only_files f p -> exists f', write_file (p ++ [n]) d f = (f', Ok tt) ∧ only_files f' p.
Proof.
  intros [Hp Hn]. exists (<[p ++ [n] := File d]> f). split.
  - unfold write_file. erewrite M_bind_run; [|apply in_directory_ok; by rewrite parent_app]. rewrite bind_gets.
    specialize (Hn n). by destruct (f !! (p ++ [n])) as [[]|].
  - split.
    + rewrite lookup_insert_ne; [done|]. intros E. apply (f_equal length) in E. rewrite length_app in E. simpl in E. lia.
    + intros n'. destruct (decide (p ++ [n] = p ++ [n'])) as [<-|]; [by rewrite lookup_insert_eq|by rewrite lookup_insert_ne].
Qed.

Lemma for_each_returns {S A} (P : S -> Prop) (g : A -> M S unit) (l : list A) s :
  (forall x s, x ∈ l -> P s -> exists s', g x s = (s', Ok tt) ∧ P s') -> P s -> exists s', for_each l g s = (s', Ok tt) ∧ P s'.
Proof.
  revert s. induction l as [|x l IH]; intros s Hg Hs; [by exists s|]. simpl.
  destruct (Hg x s ltac:(by left) Hs) as (s1 & H1 & Hs1). erewrite M_bind_run by exact H1. apply IH; [|done].
  intros y s2 Hy. apply Hg. by right.
Qed.

Lemma write_text_returns f p files : only_files f p -> exists f', write_text p files f = (f', Ok tt) ∧ only_files f' p.
Proof.
  intros H. unfold write_text. apply (for_each_returns (fun f => only_files f p)); [|done].
  intros x s _ Hs. by apply write_file_returns.
Qed.

Lemma write_shards_returns f (m : manager) p : (forall e, generation ≠ Some (Raise e)) -> only_files f p ->
  exists f', write_shards (m, p) f = (f', Ok tt) ∧ only_files f' p.
Proof.
  intros Hg H. unfold Checkpoint.write_shards.
  destruct (write_file_returns f p (shard_file "model" m) (Bytes (dump (ModelState (m_model m)))) H) as (f1 & H1 & F1).
  destruct (write_file_returns f1 p (shard_file "optim" m) (Bytes (dump (OptimState (m_optimizer m)))) F1) as (f2 & H2 & F2).
  destruct (write_file_returns f2 p (shard_file "extra_state" m) (Bytes (dump (ExtraState (m_lr_scheduler m) (Some (m_rng m))))) F2) as (f3 & H3 & F3).
  erewrite M_bind_run by exact H1. erewrite M_bind_run by exact H2. erewrite M_bind_run by exact H3.
  case_bool_decide; [|by eexists].
  assert (exists f4, (match generation with Some r => files ← lift_res r; write_text p files | None => mret tt end) f3 = (f4, Ok tt) ∧ only_files f4 p)
    as (f4 & H4 & F4).
  { destruct generation as [[l|e]|]; [|by destruct (Hg e)|by exists f3].
    destruct (write_text_returns f3 p l F3) as (f4 & H4 & F4). by exists f4. }
  destruct (write_text_returns f4 p config_files F4) as (f5 & H5 & F5).
  destruct (write_text_returns f5 p processor_files F5) as (f6 & H6 & F6).
  exists f6. split; [|done]. erewrite M_bind_run by exact H4. erewrite M_bind_run by exact H5. exact H6.
Qed.

(** Into a fresh directory. *)
Lemma save_returns s step keep prev old kept (ms : list manager) f : ms ≠ [] ->
  Forall (fun m => previous_saved_paths m = prev) ms -> rotate keep prev = (old, kept) ->
  slash cwd s ≠ [] -> Forall (removable f) old -> Forall (apart (slash cwd s)) old ->
  free f (slash cwd s) -> (forall n, f !! (slash cwd s ++ [n]) = None) ->
  (forall e, generation ≠ Some (Raise e)) -> Forall (fun m => "hf_model" ∉ checkpoint_contents m) ms ->
  exists f' ms', save_checkpoint (Some s) step keep ms f = (f', Ok ms').
Proof.
  intros Hne Hprev Hrot Hp Hold Hapart Hfree Hfresh Hg Hhf. unfold Checkpoint.save_checkpoint.
  destruct (make_room_all_returns s step keep prev old kept ms f Hprev Hrot Hold Hapart Hfree) as (f1 & mps & H1).
  destruct (make_room_all s step keep prev old kept ms f f1 mps Hne Hprev Hrot Hold Hapart H1) as [-> Hroom].
  assert (only_files f1 (slash cwd s)) as F1.
  { split; [by rewrite Hroom, decide_True|]. intros n. rewrite Hroom, decide_False.
    - rewrite Hfresh. by case_decide.
    - intros [_ E]. apply prefix_length in E. rewrite length_app in E. simpl in E. lia. }
  erewrite M_bind_run by exact H1.
  destruct (for_each_returns (fun f => only_files f (slash cwd s)) write_shards
    ((fun m => (with_paths (Some step) kept m, slash cwd s)) <$> ms) f1) as (f2 & H2 & F2); [|done|].
  { intros x f0 (m & -> & _)%list_elem_of_fmap. by apply write_shards_returns. }
  erewrite M_bind_run by exact H2.
  destruct (for_each_returns (fun f => only_files f (slash cwd s)) write_hf_model
    ((fun m => (with_paths (Some step) kept m, slash cwd s)) <$> ms) f2) as (f3 & H3 & F3); [|done|].
  { intros x f0 (m & -> & Hm)%list_elem_of_fmap F0. exists f0. split; [|done]. unfold Checkpoint.write_hf_model.
    rewrite Forall_forall in Hhf. rewrite bool_decide_false; [done|]. cbn. by apply Hhf. }
  erewrite M_bind_run by exact H3. by eexists _, _.
Qed.

(** ** Proofs: loading *)

Context (Hdump : forall x, undump (dump x) = Some x).

(** The objects a manager refers to after a load. *)
Definition restored (m m' : manager) : manager :=
  with_state (m_model m) (match m_optimizer m' with Some _ => m_optimizer m | None => None end)
    (match m_lr_scheduler m' with Some _ => m_lr_scheduler m | None => None end) (m_rng m) m'.

(** The same place among the ranks, and no object that the other lacks. *)
Definition resumes (m m' : manager) : Prop :=
  rank m' = rank m ∧ world_size m' = world_size m ∧ (is_Some (m_optimizer m') -> is_Some (m_optimizer m)) ∧
  (is_Some (m_lr_scheduler m') -> is_Some (m_lr_scheduler m)).

Lemma load_complete s m m' f : complete f (slash cwd s) m -> resumes m m' ->
  load_checkpoint (Some s) false m' f = (f, Ok (restored m m')).
Proof.
  intros [H1 H2 H3] (Hr & Hw & Ho & Hl). unfold Checkpoint.load_checkpoint.
  assert (forall k, shard_file k m' = shard_file k m) as Hs by (intros k; unfold shard_file; by rewrite Hr, Hw).
  rewrite !Hs.
  assert (forall p x, f !! p = Some (File (Bytes (dump x))) -> load_file undump p f = (f, Ok x)) as Hload.
  { intros p x Hp. unfold load_file. rewrite bind_gets, Hp. by rewrite Hdump. }
  erewrite M_bind_run by (by apply Hload). erewrite M_bind_run by (by apply Hload). erewrite M_bind_run by (by apply Hload).
  rewrite bind_ret. rewrite !bind_lift. cbn beta iota. unfold restored.
  destruct (m_optimizer m') as [o'|]; [destruct (Ho ltac:(by eexists)) as [o ->]|]; cbn [load_state_dict];
    (destruct (m_lr_scheduler m') as [l'|]; [destruct (Hl ltac:(by eexists)) as [l ->]|]); done.
Qed.

(** ** Proofs: rotation *)

(** The checkpoints that are kept of all that were made. *)
Definition kept_last {A} (keep : option Z) (h : list A) : list A :=
  match keep with
  | Some k => if bool_decide (0 < k) then drop (length h - Z.to_nat k) h else h
  | None => h
  end.

Lemma rotate_kept {A} keep (h : list A) (g : A -> path) : exists n,
  rotate keep (g <$> kept_last keep h) = (g <$> take n (kept_last keep h), g <$> drop n (kept_last keep h)) ∧
  forall x, kept_last keep (h ++ [x]) = drop n (kept_last keep h) ++ [x].
Proof.
  unfold rotate, kept_last. destruct keep as [k|]; [|by exists 0%nat].
  destruct (decide (0 < k)) as [Hk|Hk].
  2:{ exists 0%nat. split; [by rewrite bool_decide_false by lia|]. intros x. by rewrite !bool_decide_false. }
  rewrite !(bool_decide_true (0 < k)) by done. rewrite length_fmap, length_drop.
  case_bool_decide as Hl.
  - exists 1%nat. split.
    + replace (Z.to_nat _) with 1%nat by lia. by rewrite !fmap_take, !fmap_drop.
    + intros x. rewrite length_app. cbn [length]. rewrite drop_drop, drop_app_le by lia. f_equal. f_equal. lia.
  - exists 0%nat. split; [done|]. intros x. rewrite drop_0, length_app. simpl.
    replace (length h + 1 - Z.to_nat k)%nat with 0%nat by lia. replace (length h - Z.to_nat k)%nat with 0%nat by lia. done.
Qed.

(** The managers are the same, the objects they refer to may have changed. *)
Definition same_place (m m' : manager) : Prop :=
  rank m' = rank m ∧ world_size m' = world_size m ∧ previous_saved_paths m' = previous_saved_paths m.

(** A history of saves: training goes on between them, and the rest of the file
    system changes as it likes. *)
Inductive saves (keep : option Z) : fs -> list manager -> list (path * list manager) -> Prop :=
| saves_start f ms : ms ≠ [] -> one_world ms -> Forall (fun m => previous_saved_paths m = []) ms -> saves keep f ms []
| saves_train f ms h f' ms' : saves keep f ms h -> Forall2 same_place ms ms' ->
    Forall (fun x => forall r, f' !! (x.1 ++ r) = f !! (x.1 ++ r)) h -> saves keep f' ms' h
| saves_save f ms h s step f' ms' : saves keep f ms h -> slash cwd s ≠ [] -> Forall (fun x => apart (slash cwd s) x.1) h ->
    save_checkpoint (Some s) step keep ms f = (f', Ok ms') -> saves keep f' ms' (h ++ [(slash cwd s, ms)]).

Lemma apart_below p q r : apart p q -> apart p (q ++ r).
Proof.
  intros [H1 H2]. split; intros H.
  - destruct (prefix_weak_total p q (q ++ r) H ltac:(by apply prefix_app_r)); auto.
  - apply H2. etransitivity; [|exact H]. by apply prefix_app_r.
Qed.

Lemma same_place_world ms ms' : Forall2 same_place ms ms' -> one_world ms -> one_world ms'.
Proof.
  intros H [Hn (w & Hw)]. assert (rank <$> ms' = rank <$> ms) as E.
  { clear -H. induction H as [|m m' ms ms' (Hr & _) _ IH]; [done|]. by rewrite !fmap_cons, Hr, IH. }
  split; [by rewrite E|]. exists w. clear -H Hw. induction H as [|m m' ms ms' (_ & Hm & _) _ IH]; [done|].
  apply Forall_cons in Hw as [H1 H2]. constructor; [congruence|by apply IH].
Qed.

(** A checkpoint that is there for all ranks; one that is gone. *)
Definition present (f : fs) (x : path * list manager) : Prop := f !! x.1 = Some Dir ∧ Forall (complete f x.1) x.2.
Definition gone (f : fs) (x : path * list manager) : Prop := forall r, f !! (x.1 ++ r) = None.

Record rotated (keep : option Z) (f : fs) (ms : list manager) (h : list (path * list manager)) : Prop := {
  ro_some : ms ≠ [];
  ro_world : one_world ms;
  ro_paths : Forall (fun m => previous_saved_paths m = (kept_last keep h).*1) ms;
  ro_apart : forall i j x y, h !! i = Some x -> h !! j = Some y -> i ≠ j -> apart x.1 y.1;
  ro_kept : Forall (present f) (kept_last keep h);
  ro_gone : Forall (gone f) (take (length h - length (kept_last keep h)) h)
}.

Lemma kept_last_split {A} keep (h : list A) : take (length h - length (kept_last keep h)) h ++ kept_last keep h = h.
Proof.
  unfold kept_last. destruct keep as [k|]; [case_bool_decide|]; try by rewrite Nat.sub_diag.
  rewrite length_drop. replace (length h - (length h - (length h - Z.to_nat k)))%nat with (length h - Z.to_nat k)%nat by lia.
  apply take_drop.
Qed.

Lemma present_frame f f' x : (forall r, f' !! (x.1 ++ r) = f !! (x.1 ++ r)) -> present f x -> present f' x.
Proof.
  intros Hf [H1 H2]. split; [specialize (Hf []); rewrite app_nil_r in Hf; congruence|].
  eapply Forall_impl; [exact H2|]. intros m. apply complete_frame. intros n. apply Hf.
Qed.

Lemma kept_last_lookup {A} keep (h : list A) i x : kept_last keep h !! i = Some x ->
  h !! (length h - length (kept_last keep h) + i)%nat = Some x.
Proof.
  intros Hi. assert (Hl : (length (kept_last keep h) <= length h)%nat).
  { pose proof (f_equal length (kept_last_split keep h)) as E. rewrite length_app in E. lia. }
  assert ((take (length h - length (kept_last keep h)) h ++ kept_last keep h) !!
    (length h - length (kept_last keep h) + i)%nat = Some x) as H; [|by rewrite kept_last_split in H].
  rewrite lookup_app_r; rewrite length_take; [|lia]. rewrite <- Hi. f_equal. lia.
Qed.

Lemma take_front {A} (l a b : list A) : l = a ++ b -> take (length l - length b) l = a.
Proof. intros ->. rewrite length_app, Nat.add_sub. apply take_app_length. Qed.

Lemma kept_last_in {A} keep (h : list A) (P : A -> Prop) : Forall P h -> Forall P (kept_last keep h).
Proof. intros H. rewrite <- (kept_last_split keep h) in H. by apply Forall_app in H as [_ H]. Qed.

Lemma apart_sym p q : apart p q -> apart q p.
Proof. unfold apart. tauto. Qed.

Lemma apart_snoc h (x : path * list manager) :
  (forall i j x y, h !! i = Some x -> h !! j = Some y -> i ≠ j -> apart x.1 y.1) -> Forall (fun y => apart x.1 y.1) h ->
  forall i j (y z : path * list manager), (h ++ [x]) !! i = Some y -> (h ++ [x]) !! j = Some z -> i ≠ j -> apart y.1 z.1.
Proof.
  intros Hh Hx i j y z Hi Hj Hij. rewrite lookup_app_Some in Hi, Hj.
  destruct Hi as [Hi|[Hi Hi']], Hj as [Hj|[Hj Hj']].
  - by apply (Hh i j).
  - apply list_lookup_singleton_Some in Hj' as [_ <-]. apply apart_sym. by eapply Forall_lookup_1 in Hx.
  - apply list_lookup_singleton_Some in Hi' as [_ <-]. by eapply Forall_lookup_1 in Hx.
  - apply list_lookup_singleton_Some in Hi' as [? _], Hj' as [? _]. lia.
Qed.

Lemma save_rotated keep f ms h s step f' ms' : rotated keep f ms h ->
  slash cwd s ≠ [] -> Forall (fun x => apart (slash cwd s) x.1) h ->
  save_checkpoint (Some s) step keep ms f = (f', Ok ms') -> rotated keep f' ms' (h ++ [(slash cwd s, ms)]).
Proof.
  intros [Hne Hw Hp Ha Hk Hg] Hs Hap Hsave. set (kl := kept_last keep h) in *.
  destruct (rotate_kept keep h fst) as (n & Hrot & Hsnoc). fold kl in Hrot, Hsnoc.
  assert (Hkl : Forall (fun x => apart (slash cwd s) x.1) kl) by by apply kept_last_in.
  destruct (save_inv s step keep kl.*1 (take n kl).*1 (drop n kl).*1 ms f f' ms' Hne Hw Hp Hrot Hs) as (-> & Hc & Hd & Hf).
  { apply Forall_fmap, Forall_take. eapply Forall_impl; [exact Hk|]. intros x [H _]. by left. }
  { apply Forall_fmap, Forall_take. exact Hkl. }
  { exact Hsave. }
  assert (Hall : h ++ [(slash cwd s, ms)] = (take (length h - length kl) h ++ take n kl) ++ (drop n kl ++ [(slash cwd s, ms)])).
  { rewrite <- !app_assoc, (app_assoc (take n kl)), take_drop, app_assoc. f_equal. symmetry. apply kept_last_split. }
  split.
  - by destruct ms.
  - destruct Hw as [Hn (w & Hws)]. split; [by rewrite <- list_fmap_compose|]. exists w. by apply Forall_fmap.
  - rewrite Hsnoc, fmap_app. apply Forall_fmap, Forall_true. done.
  - by apply apart_snoc.
  - rewrite Hsnoc. apply Forall_app. split; [|by apply Forall_singleton].
    apply Forall_lookup. intros b y Hy. assert (Hyk := Hy). rewrite lookup_drop in Hyk.
    apply (present_frame f); [|by eapply Forall_lookup_1 in Hk]. intros r.
    rewrite Hf by (apply apart_below; by eapply Forall_lookup_1 in Hkl). rewrite decide_False; [done|].
    intros (o & (z & -> & (a & Hz)%list_elem_of_lookup)%list_elem_of_fmap & Hor)%Exists_exists.
    apply lookup_take_Some in Hz as [Hz Han].
    assert (apart z.1 y.1) as Hzy.
    { apply (Ha _ _ _ _ (kept_last_lookup keep h a z Hz) (kept_last_lookup keep h _ y Hyk)). lia. }
    by destruct (apart_below _ _ r Hzy).
  - rewrite Hsnoc, (take_front _ _ _ Hall). apply Forall_app. split.
    + eapply Forall_impl; [apply Forall_and; split; [exact Hg|apply Forall_take, Hap]|].
      intros y [Hy Hay] r. rewrite Hf by by apply apart_below. case_decide; [done|]. apply Hy.
    + apply Forall_forall. intros y Hy r. rewrite Hf.
      * rewrite decide_True; [done|]. apply Exists_exists. exists y.1. split; [by apply list_elem_of_fmap_2|by apply prefix_app_r].
      * apply apart_below. apply (Forall_take _ n) in Hkl. rewrite Forall_forall in Hkl. by apply Hkl.
Qed.

Lemma saves_rotated keep f ms h : saves keep f ms h -> rotated keep f ms h.
Proof.
  induction 1 as [f ms Hne Hw Hp|f ms h f' ms' _ [Hne Hw Hp Ha Hk Hg] Hsame Hf|f ms h s step f' ms' _ IH Hs Hap Hsave].
  - assert (kept_last keep (@nil (path * list manager)) = []) as E.
    { unfold kept_last. destruct keep; [case_bool_decide|]; done. }
    split; try done; by rewrite ?E.
  - split; [by destruct Hsame|by eapply same_place_world| |done| |].
    + clear -Hp Hsame. revert Hp. generalize (kept_last keep h).*1. intros l. induction Hsame as [|m m' ms ms' (_ & _ & Hm) _ IH]; [done|].
      intros [H1 H2]%Forall_cons. constructor; [congruence|by apply IH].
    + apply (kept_last_in keep) in Hf. eapply Forall_impl; [apply Forall_and; split; [exact Hk|exact Hf]|].
      intros x [Hx Hfx]. by apply (present_frame f).
    + apply (Forall_take _ (length h - length (kept_last keep h))) in Hf.
      eapply Forall_impl; [apply Forall_and; split; [exact Hg|exact Hf]|]. intros x [Hx Hfx] r. by rewrite Hfx.
  - by eapply save_rotated.
Qed.

(** C6: after any number of saves into directories apart from each other, with
    training between them, all ranks list the last max_ckpt_to_keep checkpoints
    (all, when there is no limit), these are there with the states all ranks had
    when they were saved, and nothing is left of the earlier ones. *)
Theorem rotation_keeps_last keep f ms h : saves keep f ms h ->
  Forall (fun m => previous_saved_paths m = (kept_last keep h).*1) ms ∧
  Forall (present f) (kept_last keep h) ∧
  Forall (gone f) (take (length h - length (kept_last keep h)) h).
Proof. intros [_ _ Hp _ Hk Hg]%saves_rotated. done. Qed.

(** C7: a save of all ranks into a fresh directory returns, and as long as its files
    stay, a manager of the same rank and number of ranks that loads it has the
    model, the optimizer, the schedule and the random numbers of the one that saved. *)
Theorem save_then_load s step keep prev old kept (ms : list manager) f : ms ≠ [] -> one_world ms ->
  Forall (fun m => previous_saved_paths m = prev) ms -> rotate keep prev = (old, kept) ->
  slash cwd s ≠ [] -> Forall (removable f) old -> Forall (apart (slash cwd s)) old ->
  free f (slash cwd s) -> (forall n, f !! (slash cwd s ++ [n]) = None) ->
  (forall e, generation ≠ Some (Raise e)) -> Forall (fun m => "hf_model" ∉ checkpoint_contents m) ms ->
  exists f' ms', save_checkpoint (Some s) step keep ms f = (f', Ok ms') ∧
    forall g m m', (forall n, g !! (slash cwd s ++ [n]) = f' !! (slash cwd s ++ [n])) -> m ∈ ms -> resumes m m' ->
      load_checkpoint (Some s) false m' g = (g, Ok (restored m m')).
Proof.
  intros Hne Hw Hprev Hrot Hp Hold Hapart Hfree Hfresh Hgen Hhf.
  destruct (save_returns s step keep prev old kept ms f) as (f' & ms' & Hsave); try done.
  exists f', ms'. split; [done|]. intros g m m' Hg Hm Hr.
  destruct (save_inv s step keep prev old kept ms f f' ms' Hne Hw Hprev Hrot Hp Hold Hapart Hsave) as (_ & Hc & _ & _).
  rewrite Forall_forall in Hc. apply load_complete; [|done]. by apply (complete_frame f'), Hc.
Qed.

(** With room for one checkpoint, the last one is gone before anything of the next is
    written. *)
Lemma none_while_saving f ms h s step f' mps : saves (Some 1) f ms h -> slash cwd s ≠ [] ->
  Forall (fun x => apart (slash cwd s) x.1) h -> map_m (make_room s step (Some 1)) ms f = (f', Ok mps) -> Forall (gone f') h.
Proof.
  intros Hh Hs Hap Hm. apply saves_rotated in Hh as [Hne Hw Hp Ha Hk Hg].
  destruct (rotate_kept (Some 1) h fst) as (n & Hrot & Hsnoc).
  set (kl := kept_last (Some 1) h) in *.
  assert (Hn : take n kl = kl).
  { apply take_ge. specialize (Hsnoc (s :: nil, ms)). apply (f_equal length) in Hsnoc. unfold kept_last in Hsnoc.
    rewrite bool_decide_true, length_drop, !length_app, length_drop in Hsnoc by lia. simpl in Hsnoc. lia. }
  rewrite Hn in Hrot.
  assert (Hold : Forall (removable f) kl.*1) by (apply Forall_fmap; eapply Forall_impl; [exact Hk|]; intros x [H _]; by left).
  destruct (make_room_all s step (Some 1) kl.*1 kl.*1 (drop n kl).*1 ms f f' mps Hne Hp Hrot Hold) as [_ Hr]; [|exact Hm|].
  { apply Forall_fmap. by apply kept_last_in. }
  assert (Hgone : forall y r, apart (slash cwd s) y.1 -> (y ∈ kl ∨ gone f y) -> f' !! (y.1 ++ r) = None).
  { intros y r Hy Hyg. rewrite Hr. apply (apart_below _ _ r) in Hy as [_ Hy]. rewrite decide_False by by intros [_ ?].
    case_decide as Hb; [done|]. destruct Hyg as [Hin|Hyg]; [|apply Hyg]. destruct Hb. apply Exists_exists. exists y.1.
    split; [by apply list_elem_of_fmap_2|by apply prefix_app_r]. }
  apply Forall_forall. intros y Hy r. rewrite Forall_forall in Hap. apply Hgone; [by apply Hap|].
  rewrite <- (kept_last_split (Some 1) h), elem_of_app in Hy. destruct Hy as [Hy|Hy]; [right|by left].
  rewrite Forall_forall in Hg. by apply Hg.
Qed.
End saves.

(** ** Concrete inputs *)

Module Examples.
Definition code (b : option bool) : string := match b with None => "-" | Some true => "1" | Some false => "0" end.
Definition decode (c : ascii) : option (option bool) :=
  if decide (c = "-"%char) then Some None else if decide (c = "1"%char) then Some (Some true)
  else if decide (c = "0"%char) then Some (Some false) else None.
Definition dump (x : saved (St := bool)) : string :=
  match x with
  | ModelState b => "m" +:+ code (Some b)
  | OptimState b => "o" +:+ code b
  | ExtraState lr rng => "e" +:+ code lr +:+ code rng
  end.
Definition undump (s : string) : option (saved (St := bool)) :=
  match chars s with
  | ["m"%char; c] => b ← decode c; b ← b; Some (ModelState b)
  | ["o"%char; c] => b ← decode c; Some (OptimState b)
  | ["e"%char; c; d] => lr ← decode c; rng ← decode d; Some (ExtraState lr rng)
  | _ => None
  end.
Lemma undump_dump x : undump (dump x) = Some x.
Proof. destruct x as [[]|[[]|]|[[]|] [[]|]]; reflexivity. Qed.

Definition texts : list (string * string) := [("config.json", "{}")].
Lemma plain_texts : plain_names (St := bool) (generated None ++ texts ++ []).
Proof. apply Forall_singleton. intros m. by split_and!. Qed.

Definition a_manager (rank : nat) (b : bool) : manager (St := bool) := {|
  rank := rank; world_size := 2; previous_global_step := None; previous_saved_paths := []; checkpoint_contents := default_contents;
  m_model := b; m_optimizer := Some (negb b); m_lr_scheduler := None; m_rng := b |}.
Definition managers : list (manager (St := bool)) := [a_manager 0 true; a_manager 1 false].
Definition save (s : string) (keep : option Z) (ms : list (manager (St := bool))) : M fs (list (manager (St := bool))) :=
  save_checkpoint dump ["run"] texts [] None ["Qwen2ForCausalLM"] (fun _ => []) (Some s) 0 keep ms.

Lemma managers_world : one_world managers.
Proof. split; [by apply (bool_decide_unpack _)|]. exists 2%nat. by repeat constructor. Qed.

Lemma save_then_load_witness :
  exists f' ms', save "global_step_50" (Some 1) managers ∅ = (f', Ok ms') ∧
    forall g m m', (forall n, g !! (["run"; "global_step_50"] ++ [n]) = f' !! (["run"; "global_step_50"] ++ [n])) ->
      m ∈ managers -> resumes m m' ->
      load_checkpoint undump ["run"] (Some "global_step_50") false m' g = (g, Ok (restored m m')).
Proof.
  apply (save_then_load dump undump ["run"] texts [] None ["Qwen2ForCausalLM"] (fun _ => []) plain_texts undump_dump
    "global_step_50" 0 (Some 1) [] [] [] managers ∅).
  - done.
  - exact managers_world.
  - by repeat constructor.
  - done.
  - done.
  - constructor.
  - constructor.
  - intros i _. left. apply lookup_empty.
  - intros n. apply lookup_empty.
  - done.
  - repeat constructor; by apply (bool_decide_unpack _).
Defined.

Definition first : fs := (save "global_step_50" (Some 1) managers ∅).1.
Definition moved_on : list (manager (St := bool)) := with_paths (Some 0) [["run"; "global_step_50"]] <$> managers.
Definition second : fs := (save "global_step_100" (Some 1) moved_on first).1.
Definition later : list (manager (St := bool)) := with_paths (Some 0) [["run"; "global_step_100"]] <$> managers.

Lemma saved_first : save "global_step_50" (Some 1) managers ∅ = (first, Ok moved_on).
Proof. unfold first. rewrite (surjective_pairing (save _ _ _ _)) at 1. f_equal. Qed.
Lemma saved_second : save "global_step_100" (Some 1) moved_on first = (second, Ok later).
Proof. unfold second. rewrite (surjective_pairing (save _ _ _ _)) at 1. f_equal. Qed.

Lemma rotation_keeps_last_witness :
  Forall (fun m => previous_saved_paths m = [["run"; "global_step_100"]]) later ∧
  Forall (present dump second) [(["run"; "global_step_100"], moved_on)] ∧
  Forall (gone second) [(["run"; "global_step_50"], managers)].
Proof.
  apply (rotation_keeps_last dump ["run"] texts [] None ["Qwen2ForCausalLM"] (fun _ => []) plain_texts (Some 1) second later
    [(["run"; "global_step_50"], managers); (["run"; "global_step_100"], moved_on)]).
  assert (Hs : saves dump ["run"] texts [] None ["Qwen2ForCausalLM"] (fun _ => []) (Some 1) first moved_on
    ([] ++ [(slash ["run"] "global_step_50", managers)])).
  { apply (saves_save _ _ _ _ _ _ _ _ ∅ managers [] "global_step_50" 0).
    - apply saves_start; [done|exact managers_world|by repeat constructor].
    - done.
    - constructor.
    - exact saved_first. }
  change ([(["run"; "global_step_50"], managers); (["run"; "global_step_100"], moved_on)])
    with ([(["run"; "global_step_50"], managers)] ++ [(slash ["run"] "global_step_100", moved_on)]).
  apply (saves_save _ _ _ _ _ _ _ _ first moved_on _ "global_step_100" 0).
  - exact Hs.
  - done.
  - apply Forall_singleton. split; by apply (bool_decide_unpack (~ _)).
  - exact saved_second.
Defined.
End Examples.
