(* ===== verification/Training.v ===== *)
(** * The training loops

    Models examples/training/agentrl_trainer.py and async_trainer.py: the drivers
    that place the workers, resume from the last checkpoint and go through the
    steps of training.  What a driver asks the workers, the task managers and
    the file system for is the list of its calls, in their order; the world they act
    on is a second state.  What the queue holds at a step, the hash of an item and the random
    numbers are arguments. *)

From stdpp Require Import sorting.
From S2P Require Import Prelude PyVal Advantage Sequences Schedules Losses Rollout.

#[local] Open Scope Z_scope.

(** ** Calls *)

Inductive call : Type :=
| Fill (n : Z)                             (* put_nowait of so many items *)
| GetBatch (minimum : Qc) (multiple : Z)
| RefPass
| ActorPass
| ActorStep
| CollectVal
| LoadVal
| SendParams
| ReceiveParams
| SendStale
| ReceiveStale
| Wait                                     (* ray.get on the transfer *)
| SaveCheckpoint (dir : string)            (* not waited for *)
| WriteMarker (text : string)
| TouchMarker
| LoadCheckpoint (dir : string)
| Barrier
| LogMetrics (step : Z)
| Finish.

(** The options of a run; [stale_step] is given when there are stale workers. *)
Record options := {
  max_steps : Z;
  save_interval : option Z;
  val_interval : option Z;
  val_before_train : bool;
  batch_size : Z;
  group_n : Z;
  loss_reduce_mode : option string;
  stale_step : option Z
}.

Record trainer := {
  global_step : Z;
  first_step : bool;
  validating : bool;
  log : list call
}.

Definition emit (c : call) : M trainer unit :=
  modify (fun t => {| global_step := global_step t; first_step := first_step t; validating := validating t; log := log t ++ [c] |}).
Definition set_step (z : Z) : M trainer unit :=
  modify (fun t => {| global_step := z; first_step := first_step t; validating := validating t; log := log t |}).
Definition set_first (b : bool) : M trainer unit :=
  modify (fun t => {| global_step := global_step t; first_step := b; validating := validating t; log := log t |}).
Definition set_validating (b : bool) : M trainer unit :=
  modify (fun t => {| global_step := global_step t; first_step := first_step t; validating := b; log := log t |}).

(** [a % b] *)
Definition py_mod (a b : Z) : res Z := if bool_decide (b = 0) then Raise ZeroDivisionError else Ok (a mod b).

Definition global_step_dir (step : Z) : string := "global_step_" +:+ str_Z step.

(** ** Placement *)

(** The numbers of workers of the engines, of the stale ones and of actors; [int]
    cuts towards zero. *)
(* examples/training/agentrl_trainer.py:82-97 main *)
Definition placement (total_gpus : Z) (rollout_ratio stale_ratio : option Qc) (tp_size : option Z) : res (Z * Z * Z) :=
  let rollout_gpus := trunc (default (qc 1 2) rollout_ratio * ofZ total_gpus)%Qc in
  let rollout_stale_gpus := trunc (default 0%Qc stale_ratio * ofZ rollout_gpus)%Qc in
  let actor_gpus := total_gpus - rollout_gpus in
  let rollout_tp := default 1 tp_size in
  if bool_decide (rollout_tp = 0) then Raise ZeroDivisionError
  else Ok ((rollout_gpus - rollout_stale_gpus) / rollout_tp,
           (if bool_decide (0 < rollout_stale_gpus) then rollout_stale_gpus / rollout_tp else 0), actor_gpus).

Inductive engine : Type := Fresh | Stale.

(** Which worker generates for an item; [r] is what [random.random()] gives. *)
(* examples/training/agentrl_trainer.py:149-156 main.cross_sampler *)
Definition cross_sampler (rollout_size : Z) (stale_size : option Z) (stale_ratio r : Qc) (hash : Z) : engine * Z :=
  match stale_size with
  | None => (Fresh, hash mod rollout_size)
  | Some n => if Qcltb r (1 - stale_ratio)%Qc then (Fresh, hash mod rollout_size) else (Stale, hash mod n)
  end.

(** ** A step *)

(** The weight of an item in the loss; the message of the error reads a key the
    configuration does not have. *)
(* examples/training/agentrl_trainer.py:294-300 main *)
Definition loss_weight (mode : option string) (loss_tokens : Z) : res Z :=
  match mode with
  | None => Raise KeyError
  | Some m =>
      if bool_decide (m = "seq-mean") then Ok 1
      else if bool_decide (m = "token-mean") then Ok loss_tokens
      else Raise KeyError
  end.

Section loop.
Context (o : options) (queue_size : Z -> Z) (items : Z -> list Z).

Definition real_bsz : Z := batch_size o * group_n o.

(** Filling the queue of the task manager, whose size is twice a batch. *)
(* examples/training/agentrl_trainer.py:258-268 main *)
Definition next_batch : M trainer unit :=
  s ← gets global_step;
  first ← gets first_step;
  emit (Fill (Z.max 0 (real_bsz * 2 - queue_size s)));;
  emit (GetBatch (if first : bool then (ofZ real_bsz * qc 17 10)%Qc else ofZ real_bsz) (group_n o));;
  set_first false.

(** The losses: first of the reference model, then of the actor, with the weights
    of the items between ([items] gives their numbers of tokens). *)
(* examples/training/agentrl_trainer.py:283-306 main *)
Definition learn : M trainer unit :=
  s ← gets global_step;
  emit RefPass;;
  lift_res (map_r (loss_weight (loss_reduce_mode o)) (items s));;
  emit ActorPass;;
  emit ActorStep.

(* examples/training/agentrl_trainer.py:311-315 main *)
Definition collect_val : M trainer unit :=
  v ← gets validating;
  if v : bool then emit CollectVal;; set_validating false else mret tt.

(* examples/training/agentrl_trainer.py:317-325 main *)
Definition sync_params : M trainer unit :=
  s ← gets global_step;
  emit SendParams;;
  emit ReceiveParams;;
  match stale_step o with
  | None => mret tt
  | Some k =>
      m ← lift_res (py_mod s k);
      if bool_decide (m = 0) then emit SendStale;; emit ReceiveStale else mret tt
  end;;
  emit Wait.

(* examples/training/agentrl_trainer.py:227-236 main.load_val_data *)
Definition load_val_data : M trainer unit := emit LoadVal;; set_validating true.

(* examples/training/agentrl_trainer.py:327-336 main *)
Definition issue : M trainer unit :=
  s ← gets global_step;
  m ← lift_res (py_mod s (default 25 (val_interval o)));
  (if bool_decide (m = 0) then load_val_data else mret tt);;
  m ← lift_res (py_mod s (default 50 (save_interval o)));
  if bool_decide (m = 0) then
    emit (SaveCheckpoint (global_step_dir s));;
    emit (WriteMarker (str_Z s))
  else mret tt.

(** The body of the loop. *)
(* examples/training/agentrl_trainer.py:254-348 main *)
Definition train_step : M trainer unit :=
  next_batch;; learn;; collect_val;; sync_params;; issue;;
  s ← gets global_step;
  emit (LogMetrics s);;
  set_step (s + 1).

(** [while global_step < max_steps]; [fuel] bounds the rounds. *)
(* examples/training/agentrl_trainer.py:252-350 main *)
Fixpoint train_loop (fuel : nat) : M trainer unit :=
  s ← gets global_step;
  if bool_decide (s < max_steps o) then
    match fuel with
    | O => raise RecursionLimit
    | S fuel => train_step;; train_loop fuel
    end
  else emit Finish.

(** [marker] is the text of the marker file, when there is one. *)
(* examples/training/agentrl_trainer.py:178-194 main *)
Definition resume (marker : option string) : M trainer unit :=
  match marker with
  | Some text =>
      let step := strip text in
      if bool_decide (step = "") then mret tt
      else
        z ← lift_res (match py_int step with Some z => Ok z | None => Raise ValueError end);
        set_step (z + 1);;
        emit (LoadCheckpoint ("global_step_" +:+ step))
  | None => emit TouchMarker
  end.

(* examples/training/agentrl_trainer.py:178-350 main *)
Definition main (fuel : nat) (marker : option string) : M trainer unit :=
  resume marker;;
  emit Barrier;;
  emit SendParams;;
  emit ReceiveParams;;
  (match stale_step o with Some _ => emit SendStale;; emit ReceiveStale | None => mret tt end);;
  (if val_before_train o then load_val_data else mret tt);;
  train_loop fuel.
End loop.

Definition new_trainer : trainer := {| global_step := 1; first_step := true; validating := false; log := [] |}.

(** ** Metrics *)

(** What the metrics of an item are made of. *)
Record scored_item := {
  data_source : string;
  scores : scored;
  item_metrics : option (list (string * Qc));
  adv_mask : option (row * row)
}.

Section metrics.
Context (std np_std : row -> Qc).

(** The dictionaries the functions of metrics.py return. *)
Definition rl_dict (m : rl_metrics) : list (string * Qc) :=
  [("average_reward", average_reward m); ("BoN_reward", BoN_reward m); ("average_margin", average_margin m);
   ("num_uids", of_nat (num_uids m)); ("effective_uids", effective_uids m); ("all_1_uids", all_1_uids m);
   ("all_leq0_uids", all_leq0_uids m); ("average_repeat", average_repeat m)].
Definition adv_dict (m : Qc * Qc * Qc * Qc) : list (string * Qc) :=
  let '(mean, std, hi, lo) := m in [("adv/mean", mean); ("adv/std", std); ("adv/max", hi); ("adv/min", lo)].

(** The items of every source, in the order of the first ones. *)
(* examples/training/agentrl_trainer.py:41-43 gather_metrics *)
Definition by_source (data : list scored_item) : list (string * list scored_item) :=
  foldl (fun d i => dset (data_source i) (dget_or (data_source i) [] d ++ [i]) d) [] data.

(* examples/training/agentrl_trainer.py:48-50 gather_metrics *)
Definition source_metrics (items : list scored_item) : res (list (string * Qc)) :=
  let m := dupdate (calc_metrics (item_metrics <$> items)) (rl_dict (calc_batch_rl_metrics (scores <$> items))) in
  match items with
  | i :: _ =>
      match adv_mask i with
      | Some _ =>
          advs ← map_r (fun i => match adv_mask i with Some p => Ok p | None => Raise KeyError end) items;
          a ← calc_adv_metrics std advs;
          Ok (dupdate m (adv_dict a))
      | None => Ok m
      end
  | [] => Raise IndexError
  end.

(* examples/training/agentrl_trainer.py:40-57 gather_metrics *)
Definition gather_metrics (data : list scored_item) : res (list (string * Qc)) :=
  sources ← map_r (fun kv => m ← source_metrics kv.2; Ok (kv.1, m)) (by_source data);
  let metrics := foldl (fun d s => append_with_prefix d (s.1 +:+ "/") s.2) [] sources in
  let over_all_metrics := foldl (fun d s => append_to_dict d s.2) [] sources in
  let overall_metrics := (fun kv => (kv.1, mean kv.2)) <$> over_all_metrics in
  Ok (append_with_prefix metrics "overall/" overall_metrics).

(** The advantages of the tokens with a loss *)
Definition effective_adv (i : row * row) : row := (fun p : Qc * Qc => p.1) <$> filter (fun p => p.2 ≠ 0%Qc) (zip i.1 i.2).

(** The advantages of the items of a source, centred and scaled over the tokens with a
    loss. *)
(* examples/training/agentrl_trainer.py:60-71 adv_norm *)
Definition adv_norm (items : list (row * row)) : res (list (row * row)) :=
  match items with
  | [] => Raise (RuntimeError "expected a non-empty list of tensors")
  | _ =>
      let all_adv := mjoin (effective_adv <$> items) in
      let m := mean all_adv in
      let s := std all_adv in
      Ok ((fun i : row * row => ((fun x => (x - m) / (s + qc 1 1000000))%Qc <$> i.1, i.2)) <$> items)
  end.

(** The mean of the lists of a dictionary; an empty list is left out. *)
(* trainer/utils/utils.py:33-43 reduce_dict *)
Definition reduce_dict (data : list (string * (list Qc + Qc))) : list (string * Qc) :=
  omap (fun kv => match kv.2 with
                  | inl [] => None
                  | inl l => Some (kv.1, mean l)
                  | inr x => Some (kv.1, x)
                  end) data.
End metrics.

(** ** The driver without stale workers *)

(** async_trainer.py: the steps of the other driver, but for the transfer. *)
(* examples/training/async_trainer.py:270-275 main *)
Definition async_sync_params : M trainer unit := emit SendParams;; emit ReceiveParams;; emit Wait.

(* examples/training/async_trainer.py:215-298 main *)
Definition async_step (o : options) (queue_size : Z -> Z) (items : Z -> list Z) : M trainer unit :=
  next_batch o queue_size;; learn o items;; collect_val;; async_sync_params;; issue o;;
  s ← gets global_step;
  emit (LogMetrics s);;
  set_step (s + 1).

(* examples/training/async_trainer.py:213-300 main *)
Fixpoint async_loop (o : options) (queue_size : Z -> Z) (items : Z -> list Z) (fuel : nat) : M trainer unit :=
  s ← gets global_step;
  if bool_decide (s < max_steps o) then
    match fuel with
    | O => raise RecursionLimit
    | S fuel => async_step o queue_size items;; async_loop o queue_size items fuel
    end
  else emit Finish.

(* examples/training/async_trainer.py:141-300 main *)
Definition async_main (o : options) (queue_size : Z -> Z) (items : Z -> list Z) (fuel : nat) (marker : option string)
    : M trainer unit :=
  resume marker;;
  emit Barrier;;
  emit SendParams;;
  emit ReceiveParams;;
  (if val_before_train o then load_val_data else mret tt);;
  async_loop o queue_size items fuel.

(** ** The world *)

(** The marker file, the checkpoints the actors have been asked for and not finished, and
    the finished ones. *)
Record world := { marker : option string; pending : list string; complete : list string }.

(** The methods of an actor run one at a time, in the order they were asked for:
    what is waited for has everything asked for before it behind it. *)
Definition effect (w : world) (c : call) : world :=
  match c with
  | SaveCheckpoint d => {| marker := marker w; pending := pending w ++ [d]; complete := complete w |}
  | WriteMarker s => {| marker := Some s; pending := pending w; complete := complete w |}
  | TouchMarker => {| marker := Some ""; pending := pending w; complete := complete w |}
  | ActorPass | ActorStep | Wait | Barrier => {| marker := marker w; pending := []; complete := complete w ++ pending w |}
  | _ => w
  end.

(** After every call of a list. *)
Fixpoint along (P : world -> Prop) (l : list call) (w : world) : Prop :=
  P w ∧ match l with [] => True | c :: l => along P l (effect w c) end.

(** The marker is missing or empty, or names a finished checkpoint. *)
Definition marker_ok (w : world) : Prop :=
  match marker w with
  | None => True
  | Some s => strip s = "" ∨ ("global_step_" +:+ strip s) ∈ complete w
  end.
(** The marker names the one checkpoint that is being written. *)
Definition marker_early (w : world) : Prop :=
  exists k, marker w = Some (str_Z k) ∧ pending w = [global_step_dir k].

(** ** Proofs: the marker *)

Lemma str_Z_plain k : exists l, chars (str_Z k) = l ∧ Forall (fun c => is_space c = false) l ∧ l ≠ [].
Proof.
  assert (forall n, 0 <= n -> exists l, chars (str_Z n) = l ∧ Forall (fun c => is_space c = false) l ∧ l ≠ []) as Hn.
  { intros n Hn. destruct (str_Z_chars n Hn) as (l & H1 & H2 & H3 & _). exists l. split_and!; [done| |done].
    eapply Forall_impl; [exact H2|]. apply digit_not_space. }
  destruct k as [|p|p]; [by apply Hn|by apply Hn|]. destruct (Hn (Z.pos p) ltac:(done)) as (l & H1 & H2 & H3).
  exists ("-"%char :: l). split_and!; [|by constructor|done]. change (str_Z (Z.neg p)) with ("-" +:+ str_Z (Z.pos p)).
  by rewrite chars_app, H1.
Qed.

Lemma strip_str_Z k : strip (str_Z k) = str_Z k.
Proof.
  destruct (str_Z_plain k) as (l & H1 & H2 & H3). rewrite Forall_forall in H2.
  assert (chars (strip (str_Z k)) = l) as Hs.
  { apply strip_id_ends; [done|..]; intros c Hc; apply H2.
    - by destruct l; simplify_eq/=; left.
    - apply last_Some in Hc as [l' ->]. apply elem_of_app. right. left. }
  rewrite <- H1 in Hs. apply (f_equal of_chars) in Hs. unfold of_chars, chars in Hs.
  by rewrite !String.string_of_list_ascii_of_string in Hs.
Qed.

Lemma along_app P l1 l2 w : along P (l1 ++ l2) w <-> along P l1 w ∧ along P l2 (foldl effect w l1).
Proof.
  revert w. induction l1 as [|c l1 IH]; intros w; simpl.
  - split; [|by intros [_ ?]]. intros H. split; [split; [|done]|done]. by destruct l2 as [|? ?]; destruct H.
  - rewrite IH. tauto.
Qed.

Lemma along_prefix P l1 l2 w : along P (l1 ++ l2) w -> P (foldl effect w l1).
Proof. rewrite along_app. intros [_ H]. by destruct l2; destruct H. Qed.

Section safety.
Context (w0 : world).

Definition fine (w : world) : Prop := marker_ok w ∨ marker_early w.
Definition now (t : trainer) : world := foldl effect w0 (log t).

(** Between two steps: nothing is being written, or only what the marker names. *)
Definition between (t : trainer) : Prop :=
  along fine (log t) w0 ∧ (marker_ok (now t) ∧ pending (now t) = [] ∨ marker_early (now t)).
(** After the actor has been waited for. *)
Definition settled (t : trainer) : Prop :=
  along fine (log t) w0 ∧ marker_ok (now t) ∧ pending (now t) = [].
Definition all_fine (t : trainer) : Prop := along fine (log t) w0.

(** [hoare P m Q]: from [P], [m] returns with [Q], or raises with all calls fine. *)
Definition hoare {A} (P : trainer -> Prop) (m : M trainer A) (Q : trainer -> Prop) : Prop :=
  forall t, P t -> match (m t).2 with Ok _ => Q (m t).1 | Raise _ => all_fine (m t).1 end.

Lemma hoare_bind {A B} P Q R (m : M trainer A) (f : A -> M trainer B) :
  hoare P m Q -> (forall a, hoare Q (f a) R) -> hoare P (m ≫= f) R.
Proof.
  intros Hm Hf t Ht. unfold mbind, M_bind. specialize (Hm t Ht). destruct (m t) as [t1 [a|e]]; [by apply Hf|done].
Qed.
Lemma hoare_ret {A} P (a : A) : hoare P (mret a) P.
Proof. by intros t Ht. Qed.
Lemma hoare_gets {A} P (f : trainer -> A) : hoare P (gets f) P.
Proof. by intros t Ht. Qed.
Lemma hoare_raise {A} (P Q : trainer -> Prop) e : (forall t, P t -> all_fine t) -> hoare P (raise e : M trainer A) Q.
Proof. intros H t Ht. by apply H. Qed.
Lemma hoare_lift {A} P (r : res A) : (forall t, P t -> all_fine t) -> hoare P (lift_res r) P.
Proof. intros H t Ht. unfold lift_res. simpl. destruct r; [done|by apply H]. Qed.
Lemma hoare_pre {A} (P P' Q : trainer -> Prop) (m : M trainer A) : (forall t, P t -> P' t) -> hoare P' m Q -> hoare P m Q.
Proof. intros H Hm t Ht. by apply Hm, H. Qed.

Lemma settled_between t : settled t -> between t.
Proof. intros (H1 & H2 & H3). split; [done|by left]. Qed.
Lemma between_fine t : between t -> all_fine t.
Proof. by intros [H _]. Qed.
Lemma settled_fine t : settled t -> all_fine t.
Proof. by intros [H _]. Qed.

Lemma now_log t l : foldl effect w0 (log t ++ l) = foldl effect (now t) l.
Proof. unfold now. by rewrite foldl_app. Qed.

(** A call that leaves the world as it is. *)
Definition quiet (c : call) : Prop := forall w, effect w c = w.

Lemma all_fine_snoc t c : all_fine t -> fine (effect (now t) c) -> along fine (log t ++ [c]) w0.
Proof.
  intros H Hc. rewrite along_app. split; [done|]. simpl. split; [|done].
  unfold all_fine in H. rewrite <- (app_nil_r (log t)) in H. by apply along_prefix in H.
Qed.

Lemma now_fine t : all_fine t -> fine (now t).
Proof. unfold all_fine. intros H. rewrite <- (app_nil_r (log t)) in H. by apply along_prefix in H. Qed.

Lemma hoare_quiet_between c : quiet c -> hoare between (emit c) between.
Proof.
  intros Hq t [H1 H2]. split; simpl.
  - apply all_fine_snoc; [done|]. rewrite Hq. by apply now_fine.
  - unfold now in *. simpl. by rewrite foldl_app; simpl; rewrite Hq.
Qed.
Lemma hoare_quiet_settled c : quiet c -> hoare settled (emit c) settled.
Proof.
  intros Hq t (H1 & H2). split; simpl.
  - apply all_fine_snoc; [done|]. rewrite Hq. by apply now_fine.
  - unfold now in *. simpl. by rewrite foldl_app; simpl; rewrite Hq.
Qed.

(** Waiting for the actor. *)
Lemma hoare_wait c : (forall w, effect w c = {| marker := marker w; pending := []; complete := complete w ++ pending w |}) ->
  hoare between (emit c) settled.
Proof.
  intros Hc t [H1 H2]. assert (marker_ok (effect (now t) c)) as Hok.
  { rewrite Hc. unfold marker_ok. simpl. destruct H2 as [[H2 _]|(k & H2 & H3)].
    - unfold marker_ok in H2. destruct (marker (now t)); [|done]. destruct H2 as [|H2]; [by left|right; apply elem_of_app; by left].
    - rewrite H2, H3. right. rewrite strip_str_Z. apply elem_of_app. right. by left. }
  split; simpl.
  - apply all_fine_snoc; [done|by left].
  - unfold now in *. simpl. rewrite foldl_app. simpl. split; [done|]. by rewrite Hc.
Qed.

Lemma hoare_modify P (f : trainer -> trainer) : (forall t, log (f t) = log t) ->
  (forall t t', log t' = log t -> P t -> P t') -> hoare P (modify f) P.
Proof. intros Hf HP t Ht. simpl. by apply (HP t). Qed.
Lemma settled_log t t' : log t' = log t -> settled t -> settled t'.
Proof. unfold settled, now. by intros ->. Qed.
Lemma between_log t t' : log t' = log t -> between t -> between t'.
Proof. unfold between, now. by intros ->. Qed.

Lemma hoare_set_settled (f : trainer -> trainer) : (forall t, log (f t) = log t) -> hoare settled (modify f) settled.
Proof. intros Hf. apply hoare_modify; [done|apply settled_log]. Qed.
Lemma hoare_set_between (f : trainer -> trainer) : (forall t, log (f t) = log t) -> hoare between (modify f) between.
Proof. intros Hf. apply hoare_modify; [done|apply between_log]. Qed.

(** Asking for a checkpoint and naming it at once. *)
Lemma hoare_save k : hoare settled (emit (SaveCheckpoint (global_step_dir k));; emit (WriteMarker (str_Z k))) between.
Proof.
  intros t (H1 & H2 & H3). simpl. unfold all_fine, between, now. simpl. rewrite <- app_assoc, foldl_app. simpl.
  fold (now t). rewrite H3. simpl. split.
  - rewrite along_app. split; [done|]. fold (now t). simpl. rewrite H3. simpl.
    split_and!; [by left|by left|right; by exists k|done].
  - right. by exists k.
Qed.
End safety.

Ltac hoare_step :=
  match goal with
  | |- hoare _ _ (_ ≫= _) _ => eapply hoare_bind; [|intros ?]
  | |- hoare _ _ (gets _) _ => apply hoare_gets
  | |- hoare _ _ (mret _) _ => apply hoare_ret
  | |- hoare _ (settled _) (emit _) _ => apply hoare_quiet_settled; by intros []
  | |- hoare _ (between _) (emit _) (settled _) => apply hoare_wait; by intros []
  | |- hoare _ (between _) (emit _) _ => apply hoare_quiet_between; by intros []
  | |- hoare _ (settled _) (modify _) _ => by apply hoare_set_settled
  | |- hoare _ (between _) (modify _) _ => by apply hoare_set_between
  | |- hoare _ _ (lift_res _) _ => apply hoare_lift; first [apply settled_fine|apply between_fine]
  | |- hoare _ _ (match ?x with _ => _ end) _ => destruct x
  end.

Ltac hoare_then Q := eapply (hoare_bind _ _ Q); [hoare_step|intros ?].

Section marker_safety.
Context (w0 : world) (o : options) (queue_size : Z -> Z) (items : Z -> list Z).

Lemma next_batch_between : hoare w0 (between w0) (next_batch o queue_size) (between w0).
Proof. unfold next_batch, set_first. repeat hoare_step. Qed.

Lemma learn_settled : hoare w0 (between w0) (learn o items) (settled w0).
Proof.
  unfold learn. hoare_then (between w0). hoare_then (between w0). hoare_then (between w0). hoare_then (settled w0).
  eapply hoare_pre; [apply settled_between|]. hoare_step.
Qed.

Lemma collect_settled : hoare w0 (settled w0) collect_val (settled w0).
Proof. unfold collect_val, set_validating. repeat hoare_step. Qed.

Lemma sync_settled : hoare w0 (settled w0) (sync_params o) (settled w0).
Proof.
  unfold sync_params. do 3 hoare_then (settled w0). apply (hoare_bind _ _ (settled w0)).
  - repeat hoare_step.
  - intros _. eapply hoare_pre; [apply settled_between|]. hoare_step.
Qed.

Lemma load_settled : hoare w0 (settled w0) load_val_data (settled w0).
Proof. unfold load_val_data, set_validating. repeat hoare_step. Qed.

Lemma issue_between : hoare w0 (settled w0) (issue o) (between w0).
Proof.
  unfold issue. do 2 hoare_then (settled w0). apply (hoare_bind _ _ (settled w0)).
  { case_bool_decide; [apply load_settled|hoare_step]. }
  intros _. hoare_then (settled w0). case_bool_decide; [apply hoare_save|].
  eapply hoare_pre; [apply settled_between|hoare_step].
Qed.

Lemma train_step_between : hoare w0 (between w0) (train_step o queue_size items) (between w0).
Proof.
  unfold train_step, set_step. eapply hoare_bind; [apply next_batch_between|intros _].
  eapply hoare_bind; [apply learn_settled|intros _]. eapply hoare_bind; [apply collect_settled|intros _].
  eapply hoare_bind; [apply sync_settled|intros _]. eapply hoare_bind; [apply issue_between|intros _].
  do 2 hoare_then (between w0). hoare_step.
Qed.

Lemma train_loop_between fuel : hoare w0 (between w0) (train_loop o queue_size items fuel) (between w0).
Proof.
  induction fuel as [|fuel IH]; cbn [train_loop]; hoare_then (between w0); case_bool_decide; [|hoare_step| |hoare_step].
  - apply hoare_raise, between_fine.
  - apply (hoare_bind _ _ (between w0)); [apply train_step_between|intros _; exact IH].
Qed.

Lemma resume_settled text : hoare w0 (settled w0) (resume text) (settled w0).
Proof.
  unfold resume, set_step. destruct text as [text|]; [repeat (hoare_step || case_bool_decide)|].
  intros t (H1 & H2 & H3). assert (marker_ok (effect (now w0 t) TouchMarker)) as Hok by by left.
  split; simpl; [apply all_fine_snoc; [done|by left]|]. unfold now in *. simpl. by rewrite foldl_app.
Qed.

Lemma main_fine fuel text : hoare w0 (settled w0) (main o queue_size items fuel text) (all_fine w0).
Proof.
  unfold main. eapply hoare_bind; [apply resume_settled|intros _].
  apply (hoare_bind _ _ (settled w0)); [eapply hoare_pre; [apply settled_between|hoare_step]|intros _].
  do 2 hoare_then (settled w0). apply (hoare_bind _ _ (settled w0)); [repeat hoare_step|intros _].
  apply (hoare_bind _ _ (settled w0)); [case_match; [apply load_settled|hoare_step]|intros _].
  eapply hoare_pre; [apply settled_between|]. intros t Ht. pose proof (train_loop_between fuel t Ht) as H.
  destruct (train_loop o queue_size items fuel t) as [t' [u|e]]; [by apply between_fine|done].
Qed.

End marker_safety.

(** ** Proofs: a run *)

Definition logged (c : call) : option Z := match c with LogMetrics s => Some s | _ => None end.
Definition saved (c : call) : option string := match c with SaveCheckpoint d => Some d | _ => None end.
Definition loads (c : call) : option bool := match c with LoadVal => Some true | CollectVal => Some false | _ => None end.

(** Loading and collecting validation items in turn; whether some are loaded. *)
Fixpoint alternates (outstanding : bool) (l : list bool) : option bool :=
  match l with
  | [] => Some outstanding
  | load :: l => if Bool.eqb load outstanding then None else alternates load l
  end.

Lemma alternates_app b l1 l2 : alternates b (l1 ++ l2) = b' ← alternates b l1; alternates b' l2.
Proof. revert b. induction l1 as [|x l1 IH]; intros b; simpl; [done|]. by destruct (Bool.eqb x b). Qed.

Section runs.
Context (o : options) (queue_size : Z -> Z) (items : Z -> list Z).

Definition every_save : Z := default 50 (save_interval o).
Definition every_val : Z := default 25 (val_interval o).

(** Options a run can go through with. *)
Record runnable : Prop := {
  ru_save : 0 < every_save;
  ru_val : 0 < every_val;
  ru_mode : loss_reduce_mode o = Some "seq-mean" ∨ loss_reduce_mode o = Some "token-mean";
  ru_stale : stale_step o ≠ Some 0
}.
Context (Hrun : runnable).

Definition stale_calls (s : Z) : list call :=
  match stale_step o with Some k => if bool_decide (s mod k = 0) then [SendStale; ReceiveStale] else [] | None => [] end.
Definition step_calls (t : trainer) : list call :=
  let s := global_step t in
  [Fill (Z.max 0 (real_bsz o * 2 - queue_size s));
   GetBatch (if first_step t then (ofZ (real_bsz o) * qc 17 10)%Qc else ofZ (real_bsz o)) (group_n o);
   RefPass; ActorPass; ActorStep] ++
  (if validating t then [CollectVal] else []) ++ [SendParams; ReceiveParams] ++ stale_calls s ++ [Wait] ++
  (if bool_decide (s mod every_val = 0) then [LoadVal] else []) ++
  (if bool_decide (s mod every_save = 0) then [SaveCheckpoint (global_step_dir s); WriteMarker (str_Z s)] else []) ++
  [LogMetrics s].

Lemma loss_weights_ok l : exists ws, map_r (loss_weight (loss_reduce_mode o)) l = Ok ws.
Proof.
  induction l as [|x l [ws IH]]; [by exists []|]. simpl.
  destruct (ru_mode Hrun) as [E|E]; rewrite E in *; simpl; rewrite IH; by eexists.
Qed.

Lemma py_mod_ok a b : b ≠ 0 -> py_mod a b = Ok (a mod b).
Proof. intros Hb. unfold py_mod. by rewrite bool_decide_false. Qed.

Definition with_log (l : list call) (t : trainer) : trainer :=
  {| global_step := global_step t; first_step := first_step t; validating := validating t; log := log t ++ l |}.
Definition with_validating (b : bool) (t : trainer) : trainer :=
  {| global_step := global_step t; first_step := first_step t; validating := b; log := log t |}.

Lemma emit_run {A} c (k : unit -> M trainer A) t : (emit c ≫= k) t = k tt (with_log [c] t).
Proof. done. Qed.
Lemma with_log_twice l1 l2 t : with_log l2 (with_log l1 t) = with_log (l1 ++ l2) t.
Proof. unfold with_log. simpl. by rewrite <- app_assoc. Qed.
Lemma with_log_nil t : with_log [] t = t.
Proof. unfold with_log. rewrite app_nil_r. by destruct t. Qed.

Lemma next_batch_run t : next_batch o queue_size t =
  ({| global_step := global_step t; first_step := false; validating := validating t;
      log := log t ++ [Fill (Z.max 0 (real_bsz o * 2 - queue_size (global_step t)));
        GetBatch (if first_step t then (ofZ (real_bsz o) * qc 17 10)%Qc else ofZ (real_bsz o)) (group_n o)] |}, Ok tt).
Proof.
  unfold next_batch. rewrite !bind_gets, !emit_run, with_log_twice. by unfold set_first, modify, with_log.
Qed.

Lemma learn_run t : learn o items t = (with_log [RefPass; ActorPass; ActorStep] t, Ok tt).
Proof.
  unfold learn. rewrite bind_gets, emit_run, bind_lift. destruct (loss_weights_ok (items (global_step t))) as [ws ->].
  unfold emit, mbind, M_bind, modify, with_log. simpl. by rewrite <- !app_assoc.
Qed.

Lemma collect_run t :
  collect_val t = (with_validating false (with_log (if validating t then [CollectVal] else []) t), Ok tt).
Proof.
  unfold collect_val. rewrite bind_gets. destruct (validating t) eqn:E; [done|]. rewrite with_log_nil.
  unfold mret, M_ret, with_validating. rewrite <- E. by destruct t.
Qed.

Lemma sync_run t : sync_params o t =
  (with_log ([SendParams; ReceiveParams] ++ stale_calls (global_step t) ++ [Wait]) t, Ok tt).
Proof.
  unfold sync_params, stale_calls. rewrite bind_gets, !emit_run, with_log_twice.
  destruct (stale_step o) as [k|] eqn:Ek.
  - erewrite M_bind_run.
    2:{ rewrite bind_lift, py_mod_ok by (intros ->; by apply (ru_stale Hrun)).
        instantiate (1 := tt). instantiate (1 := with_log (if bool_decide (global_step t mod k = 0) then [SendStale; ReceiveStale] else []) (with_log ([SendParams] ++ [ReceiveParams]) t)).
        case_bool_decide; [unfold with_log, emit, mbind, M_bind, modify; simpl; by rewrite <- app_assoc|by rewrite with_log_nil]. }
    unfold emit, modify. rewrite with_log_twice. unfold with_log. simpl. by rewrite <- !app_assoc.
  - rewrite bind_ret. unfold emit, modify, with_log. simpl. by rewrite <- app_assoc.
Qed.

Lemma load_branch (b : bool) t : (if b then load_val_data else mret tt) t =
  (with_validating (b || validating t) (with_log (if b then [LoadVal] else []) t), Ok tt).
Proof. destruct b; [done|]. rewrite with_log_nil. by destruct t. Qed.
Lemma save_branch (b : bool) s t :
  (if b then emit (SaveCheckpoint (global_step_dir s));; emit (WriteMarker (str_Z s)) else mret tt) t =
  (with_log (if b then [SaveCheckpoint (global_step_dir s); WriteMarker (str_Z s)] else []) t, Ok tt).
Proof.
  destruct b; [|by rewrite with_log_nil]. rewrite emit_run. unfold emit, modify, with_log. simpl. by rewrite <- app_assoc.
Qed.

Lemma issue_run t : issue o t =
  (with_validating (bool_decide (global_step t mod every_val = 0) || validating t)
    (with_log ((if bool_decide (global_step t mod every_val = 0) then [LoadVal] else []) ++
       (if bool_decide (global_step t mod every_save = 0)
        then [SaveCheckpoint (global_step_dir (global_step t)); WriteMarker (str_Z (global_step t))] else [])) t), Ok tt).
Proof.
  pose proof (ru_save Hrun). pose proof (ru_val Hrun). unfold issue. fold every_val every_save.
  rewrite bind_gets, bind_lift, py_mod_ok by lia. erewrite M_bind_run by apply load_branch.
  rewrite bind_lift, py_mod_ok by lia. rewrite save_branch. unfold with_log, with_validating. simpl. by rewrite <- app_assoc.
Qed.

Lemma train_step_run t : train_step o queue_size items t =
  ({| global_step := global_step t + 1; first_step := false; validating := bool_decide (global_step t mod every_val = 0);
      log := log t ++ step_calls t |}, Ok tt).
Proof.
  unfold train_step, step_calls. erewrite M_bind_run by apply next_batch_run. erewrite M_bind_run by apply learn_run. erewrite M_bind_run by apply collect_run.
  erewrite M_bind_run by apply sync_run. erewrite M_bind_run by apply issue_run.
  rewrite bind_gets, emit_run. unfold set_step, modify, with_log, with_validating. simpl.
  f_equal. f_equal; [by rewrite orb_false_r|]. rewrite <- !app_assoc. cbn [app]. by rewrite <- ?app_assoc.
Qed.

(** What the calls of one step amount to. *)
Definition saved_at (s : Z) : list string := if bool_decide (s mod every_save = 0) then [global_step_dir s] else [].

Lemma stale_silent s : omap logged (stale_calls s) = [] ∧ omap saved (stale_calls s) = [] ∧ omap loads (stale_calls s) = [] ∧
  forall w, foldl effect w (stale_calls s) = w.
Proof. unfold stale_calls. destruct (stale_step o); [|done]. by case_bool_decide. Qed.

Lemma step_facts t : let s := global_step t in
  omap logged (step_calls t) = [s] ∧ omap saved (step_calls t) = saved_at s ∧
  alternates (validating t) (omap loads (step_calls t)) = Some (bool_decide (s mod every_val = 0)) ∧
  forall w, pending (foldl effect w (step_calls t)) = saved_at s.
Proof.
  intros s. destruct (stale_silent s) as (H1 & H2 & H3 & H4). unfold step_calls. fold s.
  split; [|split; [|split]]; [..|intros w].
  - rewrite !omap_app, H1. destruct (validating t); repeat case_bool_decide; done.
  - rewrite !omap_app, H2. unfold saved_at. destruct (validating t); repeat case_bool_decide; done.
  - rewrite !omap_app, H3. destruct (validating t); repeat case_bool_decide; done.
  - rewrite !foldl_app, H4. unfold saved_at. destruct (validating t); repeat case_bool_decide; done.
Qed.

Definition steps_from (s : Z) : list Z := seqZ s (max_steps o - s).

Lemma steps_from_cons s : s < max_steps o -> steps_from s = s :: steps_from (s + 1).
Proof. intros Hs. unfold steps_from. rewrite seqZ_cons by lia. f_equal. unfold Z.succ, Z.pred. f_equal. lia. Qed.

Lemma saved_from_cons s l : mjoin (saved_at <$> (s :: l)) = saved_at s ++ mjoin (saved_at <$> l).
Proof. done. Qed.

Lemma train_loop_run fuel t : max_steps o - global_step t <= Z.of_nat fuel -> exists t' new,
  train_loop o queue_size items fuel t = (t', Ok tt) ∧ log t' = log t ++ new ++ [Finish] ∧
  global_step t' = Z.max (global_step t) (max_steps o) ∧
  omap logged new = steps_from (global_step t) ∧
  omap saved new = mjoin (saved_at <$> steps_from (global_step t)) ∧
  alternates (validating t) (omap loads new) = Some (validating t') ∧
  forall w, pending (foldl effect w new) = if bool_decide (global_step t < max_steps o) then saved_at (max_steps o - 1) else pending w.
Proof.
  revert t. induction fuel as [|fuel IH]; intros t Hf; cbn [train_loop]; rewrite bind_gets;
    (destruct (decide (global_step t < max_steps o)) as [Hs|Hs];
     [rewrite !(bool_decide_true (_ < _)) by done|rewrite !(bool_decide_false (_ < _)) by done]); try lia.
  1, 3: exists (with_log [Finish] t), []; unfold steps_from; rewrite seqZ_nil by lia; split_and!; try done; simpl; lia.
  erewrite M_bind_run by apply train_step_run.
  set (t1 := {| global_step := global_step t + 1; first_step := _; validating := _; log := _ |}).
  destruct (IH t1) as (t' & new & Hr & Hl & Hg & H1 & H2 & H3 & H4); [simpl; lia|].
  destruct (step_facts t) as (S1 & S2 & S3 & S4).
  exists t', (step_calls t ++ new). split_and!.
  - exact Hr.
  - rewrite Hl. unfold t1. cbn [log]. by rewrite <- !app_assoc.
  - rewrite Hg. simpl. lia.
  - rewrite omap_app, S1, H1, (steps_from_cons (global_step t)) by done. done.
  - rewrite omap_app, S2, H2, (steps_from_cons (global_step t)) by done. done.
  - rewrite omap_app, alternates_app, S3. exact H3.
  - intros w. rewrite foldl_app, H4. unfold t1. cbn [global_step].
    destruct (decide (global_step t + 1 < max_steps o)) as [Hlast|Hlast]; [by rewrite bool_decide_true|].
    rewrite bool_decide_false, S4 by done. f_equal. lia.
Qed.

(** The step a run starts with. *)
Definition start_step (text : option string) : res Z :=
  match text with
  | None => Ok 1
  | Some s => if bool_decide (strip s = "") then Ok 1
              else match py_int (strip s) with Some z => Ok (z + 1) | None => Raise ValueError end
  end.

Lemma resume_run text s0 : start_step text = Ok s0 -> exists new, resume text new_trainer =
  ({| global_step := s0; first_step := true; validating := false; log := new |}, Ok tt) ∧
  omap logged new = [] ∧ omap saved new = [] ∧ omap loads new = [] ∧ forall w, pending (foldl effect w new) = pending w.
Proof.
  unfold start_step, resume. destruct text as [text|]; [|intros; simplify_eq; by exists [TouchMarker]].
  case_bool_decide; [intros; simplify_eq; by exists []|].
  destruct (py_int (strip text)) as [z|]; [|done]. intros; simplify_eq. by exists [LoadCheckpoint ("global_step_" +:+ strip text)].
Qed.

End runs.

(** After a marker the run goes on with the next step. *)
Lemma start_after k : 0 <= k -> start_step (Some (str_Z k)) = Ok (k + 1).
Proof.
  intros Hk. unfold start_step. rewrite strip_str_Z, py_int_str_Z by done. rewrite bool_decide_false; [done|].
  intros E. destruct (str_Z_plain k) as (l & Hl & _ & Hne). by rewrite E in Hl.
Qed.

(** ** Proofs: the other driver *)

Lemma bind_ext {S A B} (m m' : M S A) (f g : A -> M S B) s : (forall s, m s = m' s) -> (forall a s, f a s = g a s) ->
  (m ≫= f) s = (m' ≫= g) s.
Proof. intros Hm Hf. unfold mbind, M_bind. rewrite Hm. destruct (m' s) as [s1 [a|e]]; [apply Hf|done]. Qed.

(** Without stale workers the two drivers make the same calls. *)
Lemma async_step_same o queue_size items t : stale_step o = None ->
  async_step o queue_size items t = train_step o queue_size items t.
Proof.
  intros Ho. unfold async_step, train_step. apply bind_ext; [done|intros _ t1]. apply bind_ext; [done|intros _ t2].
  apply bind_ext; [done|intros _ t3]. apply bind_ext; [|done]. intros t4. unfold async_sync_params, sync_params. by rewrite Ho.
Qed.

Lemma async_main_same o queue_size items fuel text t : stale_step o = None ->
  async_main o queue_size items fuel text t = main o queue_size items fuel text t.
Proof.
  intros Ho. unfold async_main, main. rewrite Ho. do 4 (apply bind_ext; [done|intros _ ?s]). rewrite bind_ret.
  apply bind_ext; [done|intros _ s4]. revert s4. induction fuel as [|fuel IH]; intros s4; cbn [async_loop train_loop];
    rewrite !bind_gets; case_bool_decide; try done.
  apply bind_ext; [intros s5; by apply async_step_same|intros _ s5; apply IH].
Qed.

(** ** Proofs: normalised advantages *)

Lemma effective_map (f : Qc -> Qc) (a m : row) : effective_adv (f <$> a, m) = f <$> effective_adv (a, m).
Proof.
  unfold effective_adv. simpl. revert m. induction a as [|x a IH]; intros [|y m]; try done. simpl.
  rewrite !filter_cons. simpl. case_decide; [by rewrite !fmap_cons, IH|apply IH].
Qed.

Lemma sum_map_affine (m s : Qc) (l : row) : sum ((fun x => (x - m) / s)%Qc <$> l) = ((sum l - of_nat (length l) * m) / s)%Qc.
Proof.
  induction l as [|x l IH].
  - change (sum (_ <$> []))%Qc with 0%Qc. change (sum []) with 0%Qc. simpl. replace (of_nat 0) with 0%Qc by by apply Qc_is_canon. unfold Qcdiv. ring.
  - rewrite fmap_cons, !sum_cons, IH. cbn [length]. rewrite of_nat_S. unfold Qcdiv. ring.
Qed.

(** Over the tokens with a loss the normalised advantages add up to nothing. *)
Lemma adv_norm_centred std items items' : adv_norm std items = Ok items' -> mjoin (effective_adv <$> items) ≠ [] ->
  sum (mjoin (effective_adv <$> items')) = 0%Qc.
Proof.
  unfold adv_norm. set (all := mjoin (effective_adv <$> items)). intros H Hne. destruct items as [|i0 items]; [done|].
  set (s := (std all + qc 1 1000000)%Qc) in *.
  set (g := fun i : row * row => ((fun x => ((x - mean all) / s)%Qc) <$> i.1, i.2)).
  assert (items' = g <$> (i0 :: items)) as -> by (by injection H).
  assert (forall l : list (row * row), mjoin (effective_adv <$> (g <$> l)) =
    (fun x => ((x - mean all) / s)%Qc) <$> mjoin (effective_adv <$> l)) as Hmap.
  { induction l as [|[a m] l IH]; [done|]. rewrite !fmap_cons. unfold g at 1. cbn [fst snd].
    rewrite effective_map. change (mjoin (?x :: ?l)) with (x ++ mjoin l). rewrite fmap_app. f_equal. exact IH. }
  rewrite Hmap. fold all. rewrite sum_map_affine. unfold mean.
  assert (of_nat (length all) ≠ 0)%Qc by (apply of_nat_ne; destruct all; simpl; [done|lia]).
  replace (sum all - of_nat (length all) * (sum all / of_nat (length all)))%Qc with 0%Qc by by field.
  unfold Qcdiv. ring.
Qed.

(** ** Concrete inputs *)

Module Examples.
Definition demo : options := {|
  max_steps := 5; save_interval := Some 2; val_interval := Some 2; val_before_train := true; batch_size := 4; group_n := 2;
  loss_reduce_mode := Some "token-mean"; stale_step := None |}.

Lemma demo_runnable : runnable demo.
Proof. split; [done|done|by right|done]. Qed.


Definition on_disk : world := {| Training.marker := Some "2"; pending := []; complete := ["global_step_2"] |}.


(** When the run is over the marker names a checkpoint nobody has waited for. *)
Example ends_early :
  let w := foldl effect on_disk (log (main demo (fun _ => 0) (fun _ => [7]) 5 (Some "2") new_trainer).1) in
  marker w = Some "4" ∧ "global_step_4" ∉ complete w.
Proof. vm_compute. split; [done|]. intros H%list_elem_of_singleton; done. Qed.

(** An unknown mode raises for the missing key of its message. *)
Example unknown_mode : loss_weight (Some "mean") 3 = Raise KeyError.
Proof. done. Qed.
End Examples.
