(* ===== verification/Scripts.v ===== *)
(** * What the evaluation scripts share

    examples/eval/server_agent.py and extra/scripts/testeval.py run the samples of a
    task against a controller and keep the results in a data frame.  This file has
    the requests they make, the table of results and the runs that a semaphore lets
    in.  The data frame of pandas is a class of the operations the scripts call with
    what pandas documents of them; the instance at the end is a list of labelled
    rows.  The scripts themselves are ServerAgent and Testeval. *)

From stdpp Require Import sorting.
From S2P Require Import Prelude PyVal.

(** ** Lists *)

Lemma NoDup_map_inj {A B} (f : A -> B) l x y : NoDup (f <$> l) -> x ∈ l -> y ∈ l -> f x = f y -> x = y.
Proof.
  intros Hn Hx Hy Heq. apply list_elem_of_lookup in Hx as [i Hx], Hy as [j Hy].
  assert (i = j) as ->; [|congruence].
  eapply (NoDup_lookup _ _ _ (f x) Hn); rewrite list_lookup_fmap; [by rewrite Hx|by rewrite Hy, Heq].
Qed.

(** ** Keys and rows *)

(** The index of a sample. *)
Inductive task_index : Type := IntIndex (z : Z) | StrIndex (s : string).
#[export] Instance task_index_eq_dec : EqDecision task_index.
Proof. solve_decision. Defined.

(** A row is found by model, index and number of the run. *)
Record key := { k_model : string; k_index : task_index; k_run : Z }.
#[export] Instance key_eq_dec : EqDecision key.
Proof. solve_decision. Defined.

(** The result is what the controller gave as reward, or ['error']. *)
Record row := { r_key : key; r_result : val; r_messages : list val; r_sid : option string }.

Definition is_error (v : val) : bool := match v with VStr s => bool_decide (s = "error") | _ => false end.

(** ** Requests *)

(** A request to the controller, or to a model. *)
Record request := { url : string; session_header : option string; payload : val }.
(** A response; reading its body as JSON or as text may raise. *)
Record response := { status : Z; headers : list (string * string); json : res val; text : res string }.
Abbreviation log := (list request).

(** [response.raise_for_status()] *)
Definition raise_for_status (r : response) : res unit :=
  if bool_decide (400 <= status r) then Raise (HTTPStatusError (status r)) else Ok tt.

Definition index_val (i : task_index) : val := match i with IntIndex z => VInt z | StrIndex s => VStr s end.

(** The exception of a computation as a value, for a handler that catches all. *)
Definition caught {S A} (m : M S A) : M S (res A) := fun s => let '(s', r) := m s in (s', Ok r).

(** What a worker has sent, and the messages of its sample so far. *)
Record wstate (V : Type) := { sent : log; messages : V }.
Arguments sent {V} _.
Arguments messages {V} _.
Definition set_messages {V} (ms : V) : M (wstate V) unit := modify (fun s => {| sent := sent s; messages := ms |}).

(** [server] answers the last of the requests. *)
Definition post {V} (server : log -> res response) (r : request) : M (wstate V) response := fun s =>
  let l := sent s ++ [r] in ({| sent := l; messages := messages s |}, server l).

(** ** Data frames *)

Class Frame (F : Type) := {
  empty_frame : F;
  (** the rows in their order, with their labels *)
  labelled : F -> list (nat * row);
  (** [df.at[label, ...] = ...], one or several cells *)
  set_at : nat -> (row -> row) -> F -> F;
  (** [df.loc[label] = ...] *)
  set_loc : nat -> row -> F -> F;
  (** [df.sort_values(by=['model', 'task_index', 'run_number'], inplace=True)] *)
  sort_values : F -> F
}.

Class FrameLaws (F : Type) `{Frame F} := {
  labelled_empty : labelled (empty_frame : F) = [];
  labelled_set_at : forall l f (df : F),
    labelled (set_at l f df) = (fun p => if decide (p.1 = l) then (l, f p.2) else p) <$> labelled df;
  labelled_set_loc : forall l r (df : F),
    labelled (set_loc l r df) =
      if decide (l ∈ (labelled df).*1) then (fun p => if decide (p.1 = l) then (l, r) else p) <$> labelled df
      else labelled df ++ [(l, r)];
  (** rows move with their labels *)
  labelled_sort : forall df : F, labelled (sort_values df) ≡ₚ labelled df
}.

Section frame.
Context {F : Type} `{Frame F}.

Definition rows (df : F) : list row := (labelled df).*2.
Definition len (df : F) : nat := length (labelled df).

(** [df[(df['model'] == ...) & ...].index] *)
Definition index_of (k : key) (df : F) : list nat := (filter (fun p => r_key p.2 = k) (labelled df)).*1.

(** The row of a key, if there is one. *)
Definition find_row (k : key) (df : F) : option row := List.find (fun r => bool_decide (r_key r = k)) (rows df).

(** [if len(index) > 0: df.at[index[0], ...] = ... else: df.loc[len(df)] = ...] *)
Definition upsert (k : key) (cells : row -> row) (fresh : row) (df : F) : F :=
  match index_of k df with
  | l :: _ => set_at l cells df
  | [] => set_loc (len df) fresh df
  end.

(** ** Proofs *)

(** Labels are the numbers below the length, as after reading a file, in any order; and
    no key has two rows. *)
Record tidy (df : F) : Prop := {
  tidy_labels : (labelled df).*1 ≡ₚ seq 0 (len df);
  tidy_keys : NoDup (r_key <$> rows df)
}.
End frame.

Section frame_facts.
Context {F : Type} `{FrameLaws F}.

Lemma find_row_elem k (df : F) r : find_row k df = Some r -> r ∈ rows df ∧ r_key r = k.
Proof. intros [Hr Hk]%List.find_some. split; [by apply list_elem_of_In|]. by apply bool_decide_eq_true in Hk. Qed.
Lemma find_row_none k (df : F) : find_row k df = None <-> k ∉ (r_key <$> rows df).
Proof.
  split.
  - intros Hf Hin. apply list_elem_of_fmap in Hin as (r & -> & Hr%list_elem_of_In). apply (List.find_none _ _ Hf) in Hr.
    by rewrite bool_decide_true in Hr.
  - intros Hn. destruct (find_row k df) as [r|] eqn:E; [|done]. apply find_row_elem in E as [Hr <-].
    destruct Hn. apply list_elem_of_fmap. by eexists.
Qed.
Lemma find_row_in k (df : F) r : NoDup (r_key <$> rows df) -> r ∈ rows df -> r_key r = k -> find_row k df = Some r.
Proof.
  unfold find_row. induction (rows df) as [|x l IH]; simpl; [by intros _ ?%elem_of_nil|].
  rewrite NoDup_cons, elem_of_cons. intros [Hx Hl] Hr Hk. case_bool_decide as Hd.
  - destruct Hr as [->|Hr]; [done|]. destruct Hx. apply list_elem_of_fmap. exists r. by rewrite Hd, Hk.
  - destruct Hr as [->|Hr]; [done|]. by apply IH.
Qed.

(** What a table says about keys does not depend on the order of its rows. *)
Lemma find_row_perm (df df' : F) : labelled df ≡ₚ labelled df' -> NoDup (r_key <$> rows df) -> forall k, find_row k df = find_row k df'.
Proof.
  intros Hp Hn k. assert (Hr : rows df ≡ₚ rows df') by (unfold rows; by rewrite Hp). symmetry.
  destruct (find_row k df) as [r|] eqn:E.
  - apply find_row_elem in E as [Hin Hk]. apply find_row_in; [by rewrite <- Hr|by rewrite <- Hr|done].
  - apply find_row_none. rewrite <- Hr. by apply find_row_none.
Qed.

Lemma tidy_sort (df : F) : tidy df -> tidy (sort_values df) ∧ forall k, find_row k (sort_values df) = find_row k df.
Proof.
  intros [Hl Hk]. pose proof (labelled_sort df) as Hp. split.
  - split; [unfold len; by rewrite Hp|]. unfold rows. by rewrite Hp.
  - intros k. apply find_row_perm; [done|]. unfold rows. by rewrite Hp.
Qed.

Lemma index_of_nil k (df : F) : index_of k df = [] <-> find_row k df = None.
Proof.
  rewrite find_row_none. unfold index_of, rows. induction (labelled df) as [|[l r] t IH]; simpl.
  - split; [by intros _ ?%elem_of_nil|done].
  - rewrite filter_cons, not_elem_of_cons. simpl. case_decide; simpl; [naive_solver|]. rewrite IH. naive_solver.
Qed.

Lemma in_labelled (df : F) l r : (l, r) ∈ labelled df -> r ∈ rows df.
Proof. intros Hin. unfold rows. apply list_elem_of_fmap. by exists (l, r). Qed.
Lemma row_labelled (df : F) r : r ∈ rows df -> exists l, (l, r) ∈ labelled df.
Proof. unfold rows. rewrite list_elem_of_fmap. intros ([l r'] & -> & Hin). by exists l. Qed.

(** The labels are distinct, so a label names one row. *)
Lemma tidy_row (df : F) l r r' : tidy df -> (l, r) ∈ labelled df -> (l, r') ∈ labelled df -> r = r'.
Proof.
  intros [Hl _] H1 H2. assert (Hn : NoDup (labelled df).*1) by (rewrite Hl; apply NoDup_seq).
  by injection (NoDup_map_inj fst _ _ _ Hn H1 H2 eq_refl).
Qed.

Section upsert_facts.
Context (k : key) (cells : row -> row) (fresh : row).
Context (cells_key : forall r, r_key (cells r) = r_key r) (fresh_key : r_key fresh = k).

Lemma upsert_rows (df : F) : tidy df -> (labelled (upsert k cells fresh df)).*1 ≡ₚ seq 0 (len (upsert k cells fresh df)) ∧
  match find_row k df with
  | Some _ => rows (upsert k cells fresh df) = (fun r => if decide (r_key r = k) then cells r else r) <$> rows df
  | None => rows (upsert k cells fresh df) = rows df ++ [fresh]
  end.
Proof.
  intros Ht. pose proof Ht as [Hl Hk]. unfold upsert. destruct (index_of k df) as [|l t] eqn:E.
  - pose proof E as ->%index_of_nil. assert (Hn : len df ∉ (labelled df).*1) by (rewrite Hl, elem_of_seq; lia).
    unfold rows, len in *. rewrite labelled_set_loc, decide_False by done. rewrite !fmap_app, length_app. split; [|done].
    rewrite Nat.add_1_r, seq_S, Hl. done.
  - assert (Hlr : exists r, (l, r) ∈ labelled df ∧ r_key r = k).
    { assert (Hin : l ∈ index_of k df) by (rewrite E; left). unfold index_of in Hin.
      apply list_elem_of_fmap in Hin as ([l' r] & -> & [Hr Hin]%list_elem_of_filter). by exists r. }
    destruct Hlr as (r & Hin & Hr). rewrite (find_row_in k df r Hk (in_labelled _ _ _ Hin) Hr).
    unfold rows, len in *. rewrite labelled_set_at, length_fmap. split.
    + rewrite <- Hl. rewrite <- list_fmap_compose. erewrite list_fmap_ext; [done|]. intros i [l' r'] _. simpl. by case_decide.
    + rewrite <- !list_fmap_compose. apply list_fmap_ext. intros i [l' r'] Hi%list_elem_of_lookup_2. simpl.
      case_decide as Hd; simpl in *.
      * subst l'. rewrite (tidy_row df l r' r Ht Hi Hin). by rewrite decide_True.
      * rewrite decide_False; [done|]. intros Hr'. destruct Hd.
        assert (r' = r) as -> by (pose proof (find_row_in k df r Hk (in_labelled _ _ _ Hin) Hr) as H1;
          pose proof (find_row_in k df r' Hk (in_labelled _ _ _ Hi) Hr') as H2; congruence).
        assert (Hrows : NoDup (labelled df).*2) by (by apply NoDup_fmap_1 in Hk).
        by injection (NoDup_map_inj snd _ _ _ Hrows Hi Hin eq_refl).
Qed.

(** A row is changed if its key is there and added if it is not; no other row changes. *)
Lemma upsert_spec (df : F) : tidy df -> tidy (upsert k cells fresh df) ∧
  forall k', find_row k' (upsert k cells fresh df) =
    if decide (k' = k) then Some (match find_row k df with Some r => cells r | None => fresh end) else find_row k' df.
Proof.
  intros Ht. pose proof Ht as [_ Hk]. destruct (upsert_rows df Ht) as [Hl Hr]. destruct (find_row k df) as [r|] eqn:E.
  - assert (Hkeys : r_key <$> rows (upsert k cells fresh df) = r_key <$> rows df).
    { rewrite Hr, <- list_fmap_compose. apply list_fmap_ext. intros i r' _. simpl. by case_decide. }
    assert (Ht' : NoDup (r_key <$> rows (upsert k cells fresh df))) by (by rewrite Hkeys).
    split; [by split|]. intros k'. case_decide as Hd.
    + subst k'. apply find_row_elem in E as [Hin Hrk]. apply find_row_in; [done| |by rewrite cells_key].
      rewrite Hr. apply list_elem_of_fmap. exists r. by rewrite decide_True.
    + destruct (find_row k' df) as [r'|] eqn:E'.
      * apply find_row_elem in E' as [Hin Hrk]. apply find_row_in; [done| |done].
        rewrite Hr. apply list_elem_of_fmap. exists r'. by rewrite decide_False by congruence.
      * apply find_row_none. rewrite Hkeys. by apply find_row_none.
  - apply find_row_none in E as Hnk. assert (Ht' : NoDup (r_key <$> rows (upsert k cells fresh df))).
    { rewrite Hr, fmap_app. apply NoDup_app. split; [done|]. split; [|apply NoDup_singleton].
      intros x Hx ->%list_elem_of_singleton. by rewrite fresh_key in Hx. }
    split; [by split|]. intros k'. case_decide as Hd.
    + subst k'. apply find_row_in; [done| |done]. rewrite Hr. set_solver.
    + destruct (find_row k' df) as [r'|] eqn:E'.
      * apply find_row_elem in E' as [Hin Hrk]. apply find_row_in; [done| |done]. rewrite Hr. set_solver.
      * apply find_row_none. rewrite Hr, fmap_app. apply find_row_none in E'.
        intros [?|?%list_elem_of_singleton]%elem_of_app; [done|]. congruence.
Qed.
End upsert_facts.
End frame_facts.

(** ** Proofs: requests *)

Section adds.
Context {V : Type} (server : log -> res response).

(** What a computation adds to the requests, and what it gives then. *)
Definition adds {A} (m : M (wstate V) A) (Q : log -> log -> res A -> Prop) : Prop :=
  forall s s' r, m s = (s', r) -> exists l, sent s' = sent s ++ l ∧ Q (sent s) l r.

Lemma adds_nothing {A} (m : M (wstate V) A) (Q : log -> log -> res A -> Prop) :
  (forall s, sent (m s).1 = sent s) -> (forall s, Q (sent s) [] (m s).2) -> adds m Q.
Proof. intros Hs HQ s s' r E. exists []. specialize (Hs s). specialize (HQ s). rewrite E in Hs, HQ. by rewrite app_nil_r. Qed.

Lemma adds_weaken {A} (m : M (wstate V) A) (Q R : log -> log -> res A -> Prop) :
  adds m Q -> (forall l0 l r, Q l0 l r -> R l0 l r) -> adds m R.
Proof. intros Hm HQ s s' r E. destruct (Hm s s' r E) as (l & Hl & H). exists l. auto. Qed.

Lemma adds_bind {A B} (m : M (wstate V) A) (f : A -> M (wstate V) B) Q R (T : log -> log -> res B -> Prop) :
  adds m Q -> (forall a, adds (f a) (R a)) ->
  (forall l0 l e, Q l0 l (Raise e) -> T l0 l (Raise e)) ->
  (forall l0 l1 l2 a r, Q l0 l1 (Ok a) -> R a (l0 ++ l1) l2 r -> T l0 (l1 ++ l2) r) ->
  adds (m ≫= f) T.
Proof.
  intros Hm Hf He Ho s s' r E. unfold mbind, M_bind in E. destruct (m s) as [s1 [a|e]] eqn:Em.
  - destruct (Hm _ _ _ Em) as (l1 & E1 & H1), (Hf a _ _ _ E) as (l2 & E2 & H2).
    exists (l1 ++ l2). rewrite E2, E1, <- app_assoc. split; [done|]. eapply Ho; [done|]. by rewrite <- E1.
  - injection E as <- <-. destruct (Hm _ _ _ Em) as (l1 & E1 & H1). exists l1. auto.
Qed.

(** A computation that sends nothing first. *)
Lemma adds_after {A B} (m : M (wstate V) A) (f : A -> M (wstate V) B) (T : log -> log -> res B -> Prop) :
  (forall s, sent (m s).1 = sent s) -> (forall l0 e, T l0 [] (Raise e)) -> (forall a, adds (f a) T) -> adds (m ≫= f) T.
Proof.
  intros Hm He Hf. apply (adds_bind m f (fun _ l _ => l = []) (fun _ => T)); [|done| |].
  - by apply adds_nothing.
  - by intros l0 l e ->.
  - intros l0 l1 l2 a r ->. by rewrite app_nil_r.
Qed.

Lemma post_adds r : adds (post (V := V) server r) (fun l0 l x => l = [r] ∧ x = server (l0 ++ l)).
Proof. intros s s' x [= <- <-]. by exists [r]. Qed.
End adds.

(** ** Runs behind a semaphore *)

(** [asyncio.gather] over coroutines that do their work inside [async with semaphore]: the
    coroutines get in in their order, at most [limit] at once, and end in any order. *)
Section schedule.
Context {K W O : Type} `{EqDecision K}.
Context (limit : nat) (finish : K -> O -> W -> W).

Record sched := { waiting : list K; running : list K; world : W }.

Inductive happening : Type := Enter | Leave (k : K) (o : O).

Fixpoint remove_first (k : K) (l : list K) : list K :=
  match l with [] => [] | x :: l => if decide (x = k) then l else x :: remove_first k l end.

Definition sched_step (s : sched) (h : happening) : sched :=
  match h with
  | Enter =>
      match waiting s with
      | k :: w => if bool_decide (length (running s) < limit)%nat
                  then {| waiting := w; running := running s ++ [k]; world := world s |} else s
      | [] => s
      end
  | Leave k o =>
      if bool_decide (k ∈ running s)
      then {| waiting := waiting s; running := remove_first k (running s); world := finish k o (world s) |} else s
  end.

(** [gather] returns. *)
Definition all_left (s : sched) : Prop := waiting s = [] ∧ running s = [].

Lemma remove_first_perm k l : k ∈ l -> l ≡ₚ k :: remove_first k l.
Proof.
  induction l as [|x l IH]; simpl; [by intros ?%elem_of_nil|]. case_decide as Hx; [by subst|].
  intros [->|Hk]%elem_of_cons; [done|]. rewrite Permutation_swap. by rewrite <- IH.
Qed.

(** Every coroutine gets in once and leaves once; what has left is what has been done. *)
Lemma sched_run keys w0 l : exists dones : list (K * O),
  let s := run sched_step {| waiting := keys; running := []; world := w0 |} l in
  dones.*1 ++ running s ++ waiting s ≡ₚ keys ∧ (length (running s) <= limit)%nat ∧
  world s = foldl (fun w d => finish d.1 d.2 w) w0 dones.
Proof.
  induction l as [|h l IH] using rev_ind; [exists []; simpl; split; [done|]; split; [lia|done]|].
  destruct IH as (dones & Hp & Hlen & Hw). cbv zeta in *. rewrite run_app. cbn [run foldl].
  set (s := run sched_step _ l) in *. clearbody s. destruct h as [|k o]; simpl.
  - exists dones. destruct (waiting s) as [|k w] eqn:E; [by rewrite E|]. case_bool_decide; [|by rewrite E]. simpl.
    split; [|split; [rewrite length_app; simpl; lia|done]]. by rewrite <- app_assoc.
  - case_bool_decide as Hk; [|by exists dones]. exists (dones ++ [(k, o)]). simpl.
    pose proof (remove_first_perm _ _ Hk) as Hr. split; [|split].
    + rewrite fmap_app, <- app_assoc. simpl. rewrite <- Hp. apply Permutation_app_head. symmetry. by apply (Permutation_app_tail (waiting s)) in Hr.
    + apply Permutation_length in Hr. simpl in Hr. lia.
    + by rewrite foldl_app, Hw.
Qed.

(** As long as something is left to do, something can happen, and it brings the end nearer. *)
Definition left_over (s : sched) : nat := (2 * length (waiting s) + length (running s))%nat.
Lemma sched_progress (o : O) s : (0 < limit)%nat -> ~ all_left s ->
  exists h, (left_over (sched_step s h) < left_over s)%nat.
Proof.
  intros Hl Hs. unfold left_over. destruct (running s) as [|k r] eqn:Er.
  - destruct (waiting s) as [|k w] eqn:Ew; [by destruct Hs|]. exists Enter. simpl. rewrite Ew, Er.
    rewrite bool_decide_true by (simpl; lia). simpl. lia.
  - exists (Leave k o). simpl. rewrite Er, bool_decide_true by left. simpl. rewrite decide_True by done. simpl. lia.
Qed.
End schedule.

Arguments sched K W : clear implicits.
Arguments happening K O : clear implicits.

(** ** Results *)

(** What a sample has come to: the messages, the result or an exception, the session. *)
Record outcome := { o_messages : list val; o_result : res val; o_sid : string }.

(** The table and the lines last written to the file. *)
Record results (F : Type) := { df : F; file : option (list row) }.
Arguments df {F} _.
Arguments file {F} _.

Section recording.
Context {F : Type} `{FrameLaws F}.
Context (model_name : string).

(* examples/eval/server_agent.py:309-314 task *)
Definition coroutines (task_indices : list task_index) (runs : nat) (completed : list (task_index * Z)) : list key :=
  (fun p => {| k_model := model_name; k_index := p.1; k_run := p.2 |}) <$>
  filter (fun p => p ∉ completed)
    (mjoin ((fun n => (fun i => (i, Z.of_nat n)) <$> task_indices) <$> seq 1 runs)).

Definition final_result (o : outcome) : val := match o_result o with Ok v => v | Raise _ => VStr "error" end.
(** An error before the first message leaves no row. *)
Definition unrecorded (o : outcome) : bool := is_error (final_result o) && bool_decide (o_messages o = []).

Definition changed (o : outcome) (r : row) : row :=
  {| r_key := r_key r; r_result := final_result o; r_messages := o_messages o; r_sid := r_sid r |}.
Definition write_sorted (t : F) : results F :=
  let t := sort_values t in {| df := t; file := Some (rows t) |}.

(** What both scripts do with an outcome: the row it adds is [fresh], and [write] may
    write the table to the file. *)
Context (fresh : key -> outcome -> row) (fresh_key : forall k o, r_key (fresh k o) = k).
Context (write : F -> option (list row) -> results F).
Context (write_ok : forall t f, tidy t -> tidy (df (write t f)) ∧ forall k, find_row k (df (write t f)) = find_row k t).

Definition recorded (k : key) (o : outcome) (w : results F) : results F :=
  if unrecorded o then w else write (upsert k (changed o) (fresh k o) (df w)) (file w).

(** ** Proofs: the table *)

(** The last outcome of a key in a list. *)
Lemma recorded_one k o (w : results F) : tidy (df w) -> tidy (df (recorded k o w)) ∧
  forall k', find_row k' (df (recorded k o w)) =
    if decide (k' = k ∧ unrecorded o = false)
    then Some (match find_row k (df w) with Some r => changed o r | None => fresh k o end) else find_row k' (df w).
Proof.
  intros Ht. unfold recorded. destruct (unrecorded o); [split; [done|]; intros k'; by rewrite decide_False by (by intros [_ ?])|].
  destruct (upsert_spec k (changed o) (fresh k o) (fun _ => eq_refl) (fresh_key k o) (df w) Ht) as [Ht' Hf].
  destruct (write_ok _ (file w) Ht') as [Hs Hfs]. split; [done|]. intros k'. rewrite Hfs, Hf. repeat case_decide; naive_solver.
Qed.

(** The row a list of outcomes of distinct keys leaves for a key. *)
Definition row_after (t : F) (dones : list (key * outcome)) (k : key) : option row :=
  match dget k dones with
  | Some o => if unrecorded o then find_row k t
              else Some (match find_row k t with Some r => changed o r | None => fresh k o end)
  | None => find_row k t
  end.

Lemma recorded_all dones : forall w : results F, tidy (df w) -> NoDup dones.*1 ->
  let w' := foldl (fun w d => recorded d.1 d.2 w) w dones in
  tidy (df w') ∧ forall k, find_row k (df w') = row_after (df w) dones k.
Proof.
  induction dones as [|[k o] dones IH]; intros w Ht Hn; [done|]. rewrite fmap_cons, NoDup_cons in Hn. destruct Hn as [Hk Hn].
  destruct (recorded_one k o w Ht) as [Ht1 Hf1]. destruct (IH _ Ht1 Hn) as [Ht2 Hf2]. split; [done|].
  intros k'. cbn [foldl fst snd]. rewrite Hf2. unfold row_after. rewrite Hf1. cbn [dget].
  destruct (decide (k' = k)) as [->|Hne].
  - assert (dget k dones = None) as -> by (by apply dget_None).
    destruct (unrecorded o); [by rewrite decide_False by naive_solver|by rewrite decide_True].
  - by rewrite decide_False by naive_solver.
Qed.

(** ** Proofs: which samples are run *)

Definition wanted (task_indices : list task_index) (runs : nat) (k : key) : Prop :=
  k_model k = model_name ∧ k_index k ∈ task_indices ∧ 1 <= k_run k <= Z.of_nat runs.

Lemma pairs_elem (task_indices : list task_index) runs p :
  p ∈ mjoin ((fun n => (fun i => (i, Z.of_nat n)) <$> task_indices) <$> seq 1 runs) <->
  p.1 ∈ task_indices ∧ 1 <= p.2 <= Z.of_nat runs.
Proof.
  rewrite list_elem_of_join. split.
  - intros (l & Hp & Hl). apply list_elem_of_fmap in Hl as (n & -> & Hn%elem_of_seq).
    apply list_elem_of_fmap in Hp as (i & -> & Hi). simpl. split; [done|lia].
  - intros [Hi Hn]. exists ((fun i => (i, p.2)) <$> task_indices). split.
    + apply list_elem_of_fmap. exists p.1. by destruct p.
    + apply list_elem_of_fmap. exists (Z.to_nat p.2). rewrite Z2Nat.id by lia. split; [done|]. apply elem_of_seq. lia.
Qed.

Lemma pairs_nodup (task_indices : list task_index) l : NoDup task_indices -> NoDup l ->
  NoDup (mjoin ((fun n => (fun i => (i, Z.of_nat n)) <$> task_indices) <$> l)).
Proof.
  intros Hi. induction l as [|n l IH]; simpl; [constructor|]. rewrite NoDup_cons. intros [Hn Hl]. apply NoDup_app.
  split; [by apply NoDup_fmap_2_strong; [congruence|]|]. split; [|by apply IH].
  intros [i z] Hz Hm. apply list_elem_of_fmap in Hz as (i' & [= -> ->] & _).
  apply list_elem_of_join in Hm as (m & Hp & Hm). apply list_elem_of_fmap in Hm as (n' & -> & Hn').
  apply list_elem_of_fmap in Hp as (j & [= _ E%Nat2Z.inj] & _). by subst.
Qed.

Lemma coroutines_nodup task_indices runs completed : NoDup task_indices -> NoDup (coroutines task_indices runs completed).
Proof.
  intros Hi. unfold coroutines. apply NoDup_fmap_2_strong.
  - intros [i n] [j m] _ _ [= -> ->]. done.
  - apply NoDup_filter, pairs_nodup; [done|apply NoDup_seq].
Qed.

(** What is run, given which keys of those that are wanted are completed. *)
Definition open_keys (t : F) task_indices runs (k : key) : Prop :=
  wanted task_indices runs k ∧ forall r, find_row k t = Some r -> is_error (r_result r) = true.

Lemma coroutines_elem (t : F) task_indices runs completed k :
  (forall i n, (i, n) ∈ completed <-> exists r, find_row {| k_model := model_name; k_index := i; k_run := n |} t = Some r ∧ is_error (r_result r) = false) ->
  k ∈ coroutines task_indices runs completed <-> open_keys t task_indices runs k.
Proof.
  intros Hc. unfold coroutines. rewrite list_elem_of_fmap. split.
  - intros ([i n] & -> & [Hnc Hp]%list_elem_of_filter). apply pairs_elem in Hp as [Hp1 Hp2]. split; [done|].
    intros r Hr. destruct (is_error (r_result r)) eqn:E; [done|]. destruct Hnc. apply Hc. by exists r.
  - intros [(Hm & Hi & Hn) Hr]. exists (k_index k, k_run k). split; [by destruct k; simpl in *; subst|].
    apply list_elem_of_filter. split; [|by apply pairs_elem]. intros (r & Hin & He)%Hc.
    rewrite (Hr r) in He; [done|]. destruct k; simpl in *; by subst.
Qed.

(** A run of all coroutines from a table, up to any moment. *)
Definition from_table (concurrency : nat) (t : F) (task_indices : list task_index) (runs : nat) (completed : list (task_index * Z))
    (l : list (happening key outcome)) : sched key (results F) :=
  run (sched_step concurrency recorded)
    {| waiting := coroutines task_indices runs completed; running := []; world := {| df := t; file := None |} |} l.

Lemma from_table_spec concurrency t task_indices runs completed l : tidy t -> NoDup task_indices ->
  (forall i n, (i, n) ∈ completed <-> exists r, find_row {| k_model := model_name; k_index := i; k_run := n |} t = Some r ∧ is_error (r_result r) = false) ->
  let s := from_table concurrency t task_indices runs completed l in
  exists dones, NoDup (dones.*1 ++ running s ++ waiting s) ∧ (length (running s) <= concurrency)%nat ∧
    (forall k, k ∈ dones.*1 ++ running s ++ waiting s <-> open_keys t task_indices runs k) ∧
    tidy (df (world s)) ∧ (forall k, find_row k (df (world s)) = row_after t dones k) ∧
    world s = foldl (fun w d => recorded d.1 d.2 w) {| df := t; file := None |} dones.
Proof.
  intros Ht Hn Hc. destruct (sched_run concurrency recorded (coroutines task_indices runs completed) {| df := t; file := None |} l)
    as (dones & Hp & Hlen & Hw). cbv zeta in *. fold (from_table concurrency t task_indices runs completed l) in Hp, Hlen, Hw.
  set (s := from_table _ _ _ _ _ _) in *. clearbody s.
  pose proof (coroutines_nodup task_indices runs completed Hn) as Hnd. rewrite <- Hp in Hnd.
  pose proof Hnd as [Hdn _]%NoDup_app. destruct (recorded_all dones {| df := t; file := None |} Ht Hdn) as [Ht' Hf].
  rewrite <- Hw in Ht', Hf. exists dones. split; [done|]. split; [done|]. split; [|done].
  intros k. rewrite Hp. by apply coroutines_elem.
Qed.
End recording.

(** ** A table as a list *)

Definition table : Type := list (nat * row).

Definition index_compare (a b : task_index) : comparison :=
  match a, b with
  | IntIndex x, IntIndex y => Z.compare x y
  | StrIndex x, StrIndex y => String.compare x y
  | IntIndex _, StrIndex _ => Lt
  | StrIndex _, IntIndex _ => Gt
  end.
Definition key_compare (a b : key) : comparison :=
  match String.compare (k_model a) (k_model b) with
  | Eq => match index_compare (k_index a) (k_index b) with Eq => Z.compare (k_run a) (k_run b) | c => c end
  | c => c
  end.
Definition row_le (p q : nat * row) : Prop := key_compare (r_key p.2) (r_key q.2) ≠ Gt.
#[export] Instance row_le_dec : RelDecision row_le.
Proof. intros p q. unfold row_le. apply _. Defined.

#[export] Instance table_frame : Frame table := {|
  empty_frame := [];
  labelled df := df;
  set_at l f df := (fun p => if decide (p.1 = l) then (l, f p.2) else p) <$> df;
  set_loc l r df := if decide (l ∈ df.*1) then (fun p => if decide (p.1 = l) then (l, r) else p) <$> df else df ++ [(l, r)];
  sort_values df := merge_sort row_le df
|}.
#[export] Instance table_laws : FrameLaws table.
Proof. split; try done. intros df. apply merge_sort_Permutation. Qed.
