(* ===== verification/ServerAgent.v ===== *)
(** * The evaluation script of the examples

    Models examples/eval/server_agent.py: the agent that asks a model, the worker that
    plays one sample against the controller, and the task that runs all samples and
    keeps the results, over Scripts.  Every request is put on a list; [server] answers
    the last of them.  The progress display, the summary printed at the end and the
    pauses between attempts are left out. *)

From S2P Require Import Prelude PyVal Scripts.

Abbreviation wstate := (wstate (list val)).
Definition new_worker (l : log) : wstate := {| sent := l; messages := [] |}.
Definition add_messages (ms : list val) : M wstate unit := modify (fun s => {| sent := sent s; messages := messages s ++ ms |}).

(** The models: the second one, if there is one, is asked half of the time. *)
Record agent := { model : string; base_url : string; model2 : string; base_url2 : string }.

Definition none_free (d : list (string * val)) : list (string * val) :=
  filter (fun kv => negb (match kv.2 with VNone => true | _ => false end)) d.

Section script.
(** The answer to the last request, which may fail; the draws of [random.random() < 0.5]. *)
Context (server : log -> res response) (coin : log -> bool).
(** The arguments of the command line. *)
Context (controller task_name : string) (temperature : val) (verbose truncate_multiple_toolcall : bool).

#[local] Abbreviation post := (post server).

(** ** The agent *)

Definition chat_request (base model : string) (ms : list val) (tools : val) : request :=
  {| url := base +:+ "/chat/completions"; session_header := None;
     payload := VDict [("model", VStr model); ("messages", VList ms); ("tool_choice", VStr "auto"); ("tools", tools);
                       ("temperature", temperature); ("max_completion_tokens", VInt 1024)] |}.

(** [v[0]]; the keys of a dictionary are strings. *)
Definition item0 (v : val) : res val :=
  match v with
  | VList (x :: _) => Ok x
  | VList [] => Raise IndexError
  | VStr (String c _) => Ok (VStr (String c EmptyString))
  | VStr EmptyString => Raise IndexError
  | VDict _ => Raise KeyError
  | _ => Raise TypeError
  end.

(** A body that is not JSON is read as text first. *)
Definition body (r : response) : res val :=
  match json r with
  | Raise ValueError => _ ← text r; Raise ValueError
  | x => x
  end.

(** The message of an answer, its fields that are null left out. *)
Definition answer_message (data : val) : res (list (string * val)) :=
  choices ← vsub "choices" data; choice ← item0 choices; message ← vsub "message" choice;
  content ← vsub "content" message;
  match message with
  | VDict d => Ok (none_free (match content with VNone => dset "content" (VStr "") d | _ => d end))
  | _ => Raise TypeError
  end.

(* examples/eval/server_agent.py:42-69 OpenAIAgent.call *)
Definition call (base model : string) (ms : list val) (tools : val) : M wstate (list (string * val)) :=
  response ← post (chat_request base model ms tools);
  lift_res (data ← body response; _ ← raise_for_status response; answer_message data).

(* examples/eval/server_agent.py:76-78 OpenAIAgent.chat_completion *)
Definition ask (a : agent) (ms : list val) (tools : val) : M wstate (list (string * val)) :=
  heads ← gets (fun s => coin (sent s));
  if negb (bool_decide (model2 a = "")) && heads then call (base_url2 a) (model2 a) ms tools
  else call (base_url a) (model a) ms tools.

Fixpoint ask_loop (max_retries : nat) (a : agent) (ms : list val) (tools : val) : M wstate (list (string * val)) :=
  match max_retries with
  | O => raise NotImplementedError
  | S n =>
      try_except (ask a ms tools)
        (fun e => if is_Exception e then Some (match n with O => raise e | S _ => ask_loop n a ms tools end) else None)
  end.
(* examples/eval/server_agent.py:71-88 OpenAIAgent.chat_completion *)
Definition chat_completion (a : agent) (ms : list val) (tools : val) : M wstate (list (string * val)) := ask_loop 3 a ms tools.

(** ** The worker *)

Definition start_request (i : task_index) : request :=
  {| url := controller +:+ "/start_sample"; session_header := None; payload := VDict [("name", VStr task_name); ("index", index_val i)] |}.
Definition interact_request (sid : string) (message : val) : request :=
  {| url := controller +:+ "/interact"; session_header := Some sid; payload := VDict [("messages", VList [message])] |}.
Definition cancel_request (sid : string) : request :=
  {| url := controller +:+ "/cancel"; session_header := Some sid; payload := VDict [] |}.

(* examples/eval/server_agent.py:100-101 worker *)
Definition session_id (r : response) : res (response * string) :=
  _ ← raise_for_status r;
  match dget "session_id" (headers r) with Some sid => Ok (r, sid) | None => Raise KeyError end.

(** The handler catches everything, but its message reads [text], which is not set
    before a first response has come; [bound] says whether one has. *)
(* examples/eval/server_agent.py:93-106 worker *)
Fixpoint start_sample (fuel : nat) (bound : bool) (i : task_index) : M wstate (response * string) :=
  match fuel with
  | O => raise RecursionLimit
  | S n =>
      r ← caught (post (start_request i));
      let '(bound, r) := match r with
                         | Ok response => match text response with Ok _ => (true, session_id response) | Raise e => (bound, Raise e) end
                         | Raise e => (bound, Raise e)
                         end in
      match r with
      | Ok x => mret x
      | Raise _ => if verbose && negb bound then raise UnboundLocalError else start_sample n bound i
      end
  end.

(** [{k: v for k, v in turn.items() if v is not None}] *)
(* examples/eval/server_agent.py:120-120 worker *)
Definition strip_none (turn : val) : res val :=
  match turn with VDict d => Ok (VDict (none_free d)) | _ => Raise AttributeError end.

(** [message["tool_calls"][:1]], the field deleted when that is empty. *)
(* examples/eval/server_agent.py:123-126 worker *)
Definition truncate_tool_calls (message : list (string * val)) : res (list (string * val)) :=
  match dget "tool_calls" message with
  | None => Raise KeyError
  | Some (VList l) => Ok (match take 1 l with [] => ddel "tool_calls" message | l => dset "tool_calls" (VList l) message end)
  | Some (VStr s) => Ok (match s with EmptyString => ddel "tool_calls" message
                                | String c _ => dset "tool_calls" (VStr (String c EmptyString)) message end)
  | Some _ => Raise TypeError
  end.

(** What an answer of the controller says: the reward when the sample is over, or else
    more messages. *)
(* examples/eval/server_agent.py:138-147 worker *)
Definition read_turn (response : response) : res (val + list val) :=
  _ ← raise_for_status response;
  data ← json response;
  _ ← (if verbose then l ← vsub "messages" data; _ ← iterate l; Ok tt else Ok tt);
  finish ← vsub "finish" data;
  if truthy finish then reward ← vsub "reward" data; Ok (inl reward)
  else l ← vsub "messages" data; l ← iterate l; Ok (inr l).

(** One turn; gives the reward when the sample is over. *)
(* examples/eval/server_agent.py:118-147 worker *)
Definition turn (a : agent) (tools : val) (sid : string) : M wstate (option val) :=
  ms ← gets messages;
  ms ← lift_res (map_r strip_none ms);
  set_messages ms;;
  message ← chat_completion a ms tools;
  message ← lift_res (if truncate_multiple_toolcall then truncate_tool_calls message else Ok message);
  add_messages [VDict message];;
  response ← post (interact_request sid (VDict message));
  r ← lift_res (read_turn response);
  match r with
  | inl reward => mret (Some reward)
  | inr l => add_messages l;; mret None
  end.

(** When the turns are used up the result is 0. *)
Fixpoint turns (n : nat) (a : agent) (tools : val) (sid : string) : M wstate val :=
  match n with
  | O => mret (VInt 0)
  | S n => r ← turn a tools sid; match r with Some reward => mret reward | None => turns n a tools sid end
  end.

(* examples/eval/server_agent.py:110-148 worker *)
Definition play (a : agent) (response : response) (sid : string) : M wstate val :=
  data ← lift_res (json response);
  l ← lift_res (vsub "messages" data);
  l ← lift_res (iterate l);
  add_messages l;;
  tools ← lift_res (vsub "tools" data);
  turns 20 a tools sid.

(** The result of a sample, or the exception that ended it, and its session. *)
(* examples/eval/server_agent.py:91-156 worker *)
Definition worker (fuel : nat) (a : agent) (i : task_index) : M wstate (res val * string) :=
  '(response, sid) ← start_sample fuel false i;
  set_messages [];;
  r ← caught (play a response sid);
  match r with
  | Ok reward => mret (Ok reward, sid)
  | Raise e => if is_Exception e then caught (post (cancel_request sid));; mret (Raise e, sid) else raise e
  end.
End script.

(** ** The samples of a task *)

Section task.
Context {F : Type} `{FrameLaws F}.
Context (model_name : string).

(** [int(row['task_index'])] *)
Definition int_of (i : task_index) : res Z :=
  match i with
  | IntIndex z => Ok z
  | StrIndex s => match py_int s with Some z => Ok z | None => Raise ValueError end
  end.

(* examples/eval/server_agent.py:266-271 task *)
Definition completed_runs (t : F) : res (list (task_index * Z)) :=
  map_r (fun r => z ← int_of (k_index (r_key r)); Ok (IntIndex z, k_run (r_key r)))
    (filter (fun r => k_model (r_key r) = model_name ∧ is_error (r_result r) = false) (rows t)).

Definition added (k : key) (o : outcome) : row :=
  {| r_key := k; r_result := final_result o; r_messages := o_messages o; r_sid := Some (o_sid o) |}.

(** What a coroutine does when its worker is over. *)
(* examples/eval/server_agent.py:281-307 task.sem_task *)
Definition record_result (k : key) (o : outcome) (w : results F) : results F :=
  if unrecorded o then w
  else
    let t := upsert k (changed o) (added k o) (df w) in
    if bool_decide (Z.of_nat (len t) mod 50 = 0) then write_sorted t else {| df := t; file := file w |}.

(** The run up to the moment the events have led to; when all is done the table is
    written once more. *)
(* examples/eval/server_agent.py:258-320 task *)
Definition task (existing : option F) (task_indices : list task_index) (runs concurrency : nat)
    (l : list (happening key outcome)) : res (sched key (results F)) :=
  let t := default empty_frame existing in
  completed ← completed_runs t;
  let s := run (sched_step concurrency record_result)
             {| waiting := coroutines model_name task_indices runs completed; running := []; world := {| df := t; file := None |} |} l in
  Ok (match waiting s, running s with
      | [], [] => {| waiting := []; running := []; world := write_sorted (df (world s)) |}
      | _, _ => s
      end).

(** ** Proofs: the table *)

Definition write (t : F) (f : option (list row)) : results F :=
  if bool_decide (Z.of_nat (len t) mod 50 = 0) then write_sorted t else {| df := t; file := f |}.
Lemma write_kept t f : tidy t -> tidy (df (write t f)) ∧ forall k, find_row k (df (write t f)) = find_row k t.
Proof. intros Ht. unfold write. case_bool_decide; [by apply tidy_sort|done]. Qed.

(** The indices of the table's rows are numbers. *)
Definition int_rows (t : F) : Prop := Forall (fun r => exists z, k_index (r_key r) = IntIndex z) (rows t).

Lemma completed_ok (t : F) : int_rows t ->
  completed_runs t = Ok ((fun r => (k_index (r_key r), k_run (r_key r))) <$>
    filter (fun r => k_model (r_key r) = model_name ∧ is_error (r_result r) = false) (rows t)).
Proof.
  intros Hi. apply map_r_ok, Forall_forall. intros r [_ Hr]%list_elem_of_filter.
  unfold int_rows in Hi. rewrite Forall_forall in Hi. destruct (Hi r Hr) as [z Hz]. by rewrite Hz.
Qed.

Lemma completed_elem (t : F) completed i n : tidy t -> int_rows t -> completed_runs t = Ok completed ->
  (i, n) ∈ completed <-> exists r, find_row {| k_model := model_name; k_index := i; k_run := n |} t = Some r ∧ is_error (r_result r) = false.
Proof.
  intros Ht Hi Hc. rewrite completed_ok in Hc by done. injection Hc as <-. rewrite list_elem_of_fmap. split.
  - intros (r & [= -> ->] & [[<- He] Hr]%list_elem_of_filter). exists r. split; [|done]. apply find_row_in; [apply Ht|done|by destruct (r_key r)].
  - intros (r & [Hr Hk]%find_row_elem & He). exists r. rewrite Hk. split; [done|]. apply list_elem_of_filter. by rewrite Hk.
Qed.

(** C37: from a table with at most one row per sample and run, whatever order the
    samples end in, exactly the wanted runs without a result are run, each once and
    at most concurrency together; the table keeps one row per run, with the outcome
    of every run that ended unless that is an error before the first message, other
    rows stay, and when all is done the file has the table. *)
Theorem task_records existing task_indices runs concurrency l s :
  let t := default empty_frame existing in
  tidy t -> int_rows t -> NoDup task_indices ->
  task existing task_indices runs concurrency l = Ok s ->
  exists dones, NoDup (dones.*1 ++ running s ++ waiting s) ∧ (length (running s) <= concurrency)%nat ∧
    (forall k, k ∈ dones.*1 ++ running s ++ waiting s <-> open_keys model_name t task_indices runs k) ∧
    tidy (df (world s)) ∧ (forall k, find_row k (df (world s)) = row_after added t dones k) ∧
    (all_left s -> file (world s) = Some (rows (df (world s)))).
Proof.
  intros t Ht Hi Hn E. unfold task in E. fold t in E. destruct (completed_runs t) as [completed|] eqn:Hc; [|done]. cbn in E.
  destruct (from_table_spec model_name added (fun _ _ => eq_refl) write write_kept concurrency t task_indices runs completed l Ht Hn)
    as (dones & Hd & Hlen & Hel & Ht' & Hf & _); [intros; by apply completed_elem|].
  change (from_table _ _ _ _ _ _ _ _ _) with (run (sched_step concurrency record_result)
    {| waiting := coroutines model_name task_indices runs completed; running := []; world := {| df := t; file := None |} |} l) in *.
  set (s1 := run _ _ l) in *. clearbody s1.
  exists dones. destruct (waiting s1) as [|kw w] eqn:Ew, (running s1) as [|kr r] eqn:Er; injection E as <-;
    rewrite ?Ew, ?Er; try (split; [done|]; split; [done|]; split; [done|]; split; [done|]; split; [done|]; intros [? ?]; congruence).
  destruct (tidy_sort _ Ht') as [Hs Hfs]. split; [done|]. split; [done|]. split; [done|]. split; [done|]. split; [|done].
  intros k. simpl. by rewrite Hfs.
Qed.
End task.

(** ** Proofs: the requests of a worker *)

Section requests.
Context (server : log -> res response) (coin : log -> bool).
Context (controller task_name : string) (temperature : val) (verbose truncate_multiple_toolcall : bool).
#[local] Abbreviation start_request := (start_request controller task_name).
#[local] Abbreviation interact_request := (interact_request controller).
#[local] Abbreviation cancel_request := (cancel_request controller).

Definition is_chat (r : request) : Prop := exists b m ms tools, r = chat_request temperature b m ms tools.
(** The attempts to get a message of the model. *)
Definition asked (n : nat) (l : log) : Prop := Forall is_chat l ∧ (length l <= n)%nat.

Lemma call_adds b m ms tools : adds (call server temperature b m ms tools) (fun _ l _ => asked 1 l).
Proof.
  unfold call. apply (adds_bind _ _ _ (fun _ _ l _ => l = []) _ (post_adds server _)).
  - intros a. by apply adds_nothing.
  - intros l0 l e [-> _]. split; [|done]. constructor; [|done]. by do 4 eexists.
  - intros l0 l1 l2 a r [-> _] ->. split; [|done]. constructor; [|done]. by do 4 eexists.
Qed.

Lemma ask_loop_adds n a ms tools : adds (ask_loop server coin temperature n a ms tools) (fun _ l _ => asked n l).
Proof.
  induction n as [|n IH]; cbn [ask_loop]; [by apply adds_nothing|].
  assert (Hask : adds (ask server coin temperature a ms tools) (fun _ l _ => asked 1 l)).
  { unfold ask. apply adds_after; [done|by split; [constructor|simpl; lia]|]. intros h. destruct (_ && h); apply call_adds. }
  intros s s' r E. unfold try_except in E. destruct (ask _ _ _ a ms tools s) as [s1 [m|e]] eqn:Em;
    destruct (Hask _ _ _ Em) as (l1 & E1 & H1 & Hl1).
  - injection E as <- <-. exists l1. split; [done|]. split; [done|lia].
  - assert (Hend : forall x, (s1, x) = (s', r) -> exists l, sent s' = sent s ++ l ∧ asked (S n) l).
    { intros x [= <- <-]. exists l1. split; [done|]. split; [done|lia]. }
    destruct (is_Exception e); [|by apply (Hend (Raise e))]. destruct n as [|n]; [by apply (Hend (Raise e))|].
    destruct (IH _ _ _ E) as (l2 & E2 & H2 & Hl2). exists (l1 ++ l2). rewrite E2, E1, app_assoc. split; [done|].
    split; [by apply Forall_app|]. rewrite length_app. lia.
Qed.

(** An answer of the controller that ends the sample with a reward. *)
Definition over (x : res response) (reward : val) : Prop :=
  exists a data fin, x = Ok a ∧ json a = Ok data ∧ vsub "finish" data = Ok fin ∧ truthy fin = true ∧ vsub "reward" data = Ok reward.

(** The requests of one turn: some to the model and then, if that has worked, one to the
    controller. *)
Definition turn_log (sid : string) (complete : bool) (l : log) : Prop :=
  exists chats talk, l = chats ++ talk ∧ asked 3 chats ∧
    (talk = [] ∧ complete = false \/ exists m, talk = [interact_request sid m]).

#[local] Abbreviation the_turn := (turn server coin controller temperature verbose truncate_multiple_toolcall).
#[local] Abbreviation the_turns := (turns server coin controller temperature verbose truncate_multiple_toolcall).

Lemma turn_adds a tools sid : adds (the_turn a tools sid) (fun l0 l r => turn_log sid (is_ok r) l ∧
  forall v, r = Ok (Some v) -> over (server (l0 ++ l)) v).
Proof.
  assert (Hnone : forall e : exn, forall l, asked 3 l -> turn_log sid (is_ok (Raise e : res (option val))) l).
  { intros e l Hl. exists l, []. rewrite app_nil_r. split; [done|]. split; [done|]. by left. }
  assert (H0 : asked 3 []) by (split; [done|simpl; lia]).
  unfold turn. apply adds_after; [done|by split; [apply Hnone|]|]. intros ms. apply adds_after; [done|by split; [apply Hnone|]|]. intros ms'.
  apply adds_after; [done|by split; [apply Hnone|]|]. intros _.
  eapply adds_bind; [apply (ask_loop_adds 3)| |by intros l0 l e Hl; split; [apply Hnone|]|].
  - intros m. instantiate (1 := fun _ l0 l r => (l = [] ∧ is_ok r = false) \/
      exists x, l = [interact_request sid x] ∧ forall v, r = Ok (Some v) -> over (server (l0 ++ l)) v). cbv beta.
    apply adds_after; [done|by left|]. intros m'. apply adds_after; [done|by left|]. intros _.
    eapply adds_bind; [apply post_adds| |intros l0 l e [-> _]; right; by exists (VDict m')|].
    + intros resp. instantiate (1 := fun resp _ l r => l = [] ∧ forall v, r = Ok (Some v) -> over (Ok resp) v). cbv beta.
      apply adds_nothing; intros s; destruct (read_turn verbose resp) as [[v|l]|] eqn:E; try done; split; try done.
      intros v' [= <-]. revert E. unfold read_turn. destruct (raise_for_status resp); [|done]. cbn.
      destruct (json resp) as [data|] eqn:Ej; [|done]. cbn. destruct (if verbose then _ else _); [|done]. cbn.
      destruct (vsub "finish" data) as [fin|] eqn:Ef; [|done]. cbn. destruct (truthy fin) eqn:Et.
      * destruct (vsub "reward" data) as [rw|] eqn:Er; [|done]. intros [= <-]. by exists resp, data, fin.
      * destruct (vsub "messages" data); [|done]. cbn. by destruct (iterate _).
    + intros l0 l1 l2 x r [-> Hx] [-> Hr]. right. exists (VDict m'). rewrite app_nil_r. split; [done|]. by rewrite <- Hx.
  - intros l0 l1 l2 m r Hl [[-> Hr]|(x & -> & Hv)].
    + rewrite app_nil_r. split; [|intros v ->; done]. destruct r; [done|]. by apply Hnone.
    + split; [|by rewrite app_assoc]. exists l1, [interact_request sid x]. split; [done|]. split; [done|]. right. by exists x.
Qed.

(** The requests of a sample that has been started: those of its turns.  It gives the
    reward of the last answer, or 0 after all its turns. *)
Definition turns_log (sid : string) (n : nat) (l0 l : log) (r : res val) : Prop :=
  exists ts, l = mjoin ts ∧ (length ts <= n)%nat ∧ Forall (turn_log sid false) ts ∧
    forall v, r = Ok v -> over (server (l0 ++ l)) v \/ (v = VInt 0 ∧ length ts = n ∧ Forall (turn_log sid true) ts).

Lemma turn_log_weaken sid b l : turn_log sid b l -> turn_log sid false l.
Proof. intros (c & t & H1 & H2 & [[H3 H4]|H3]); exists c, t; (split; [done|]; split; [done|]); [by left|by right]. Qed.

Lemma turns_adds n a tools sid : adds (the_turns n a tools sid) (turns_log sid n).
Proof.
  induction n as [|n IH]; cbn [turns].
  - apply adds_nothing; [done|]. intros s. exists []. split; [done|]. split; [done|]. split; [done|]. intros v [= <-]. by right.
  - eapply adds_bind; [apply turn_adds| | |].
    + intros r. instantiate (1 := fun x l0 l r => match x with Some v => l = [] ∧ r = Ok v | None => turns_log sid n l0 l r end).
      destruct r as [v|]; [by apply adds_nothing|exact IH].
    + intros l0 l e [Ht _]. exists [l]. cbn. rewrite app_nil_r. split; [done|]. split; [lia|]. split; [|done].
      by constructor; [eapply turn_log_weaken|].
    + intros l0 l1 l2 [v|] r [Ht Hv] H2.
      * destruct H2 as [-> ->]. exists [l1]. cbn. rewrite !app_nil_r. split; [done|]. split; [lia|].
        split; [by constructor; [eapply turn_log_weaken|]|]. intros v' [= <-]. left. by apply Hv.
      * destruct H2 as (ts & -> & Hlen & Hts & Hr). exists (l1 :: ts). split; [done|]. split; [cbn; lia|].
        split; [by constructor; [eapply turn_log_weaken|]|]. intros v E. destruct (Hr v E) as [H|(-> & Hn & Hall)].
        -- left. cbn. by rewrite app_assoc.
        -- right. split; [done|]. split; [cbn; lia|]. by constructor.
Qed.

Lemma play_adds a resp sid : adds (play server coin controller temperature verbose truncate_multiple_toolcall a resp sid) (turns_log sid 20).
Proof.
  assert (H0 : forall l0 e, turns_log sid 20 l0 [] (Raise e)).
  { intros l0 e. exists []. split; [done|]. split; [cbn; lia|]. by split. }
  unfold play. apply adds_after; [done|by intros; apply H0|]. intros data. apply adds_after; [done|by intros; apply H0|]. intros l.
  apply adds_after; [done|by intros; apply H0|]. intros ms. apply adds_after; [done|by intros; apply H0|]. intros _.
  apply adds_after; [done|by intros; apply H0|]. intros tools. apply (turns_adds 20).
Qed.

(** An answer that opens a session. *)
Definition opens (x : res response) (a : response) (sid : string) : Prop :=
  x = Ok a ∧ is_ok (text a) = true ∧ status a < 400 ∧ dget "session_id" (headers a) = Some sid.
#[local] Abbreviation starts i k := (replicate k (start_request i)).

Lemma session_id_opens a x : session_id a = Ok x <-> x.1 = a ∧ status a < 400 ∧ dget "session_id" (headers a) = Some x.2.
Proof.
  unfold session_id, raise_for_status. case_bool_decide; cbn; [split; [done|lia]|].
  destruct x as [a' sid]. destruct (dget _ _) as [s|]; simpl; split.
  - intros [= <- <-]. split; [done|]. split; [lia|done].
  - by intros (-> & _ & [= ->]).
  - done.
  - by intros (_ & _ & ?).
Qed.

(** The first attempt that opens a session is the last. *)
Definition started (i : task_index) (l0 l : log) (r : res (response * string)) : Prop :=
  exists k, l = starts i k ∧
    (forall j a sid, (S j < k)%nat -> ~ opens (server (l0 ++ starts i (S j))) a sid) ∧
    match r with
    | Ok (a, sid) => (1 <= k)%nat ∧ opens (server (l0 ++ l)) a sid
    | Raise e => forall j a sid, (S j = k)%nat -> ~ opens (server (l0 ++ starts i (S j))) a sid
    end.

#[local] Abbreviation the_start := (start_sample server controller task_name verbose).

(** One round of the loop: the answer opens a session, or another attempt is made, unless
    the message of the handler fails. *)
Lemma start_round n bound i s : exists bound',
  let x := server (sent s ++ [start_request i]) in
  let s1 := {| sent := sent s ++ [start_request i]; messages := messages s |} in
  (exists a sid, opens x a sid ∧ the_start (S n) bound i s = (s1, Ok (a, sid))) \/
  (forall a sid, ~ opens x a sid) ∧
   the_start (S n) bound i s = if verbose && negb bound' then (s1, Raise UnboundLocalError) else the_start n bound' i s1.
Proof.
  cbn [start_sample]. unfold caught, post. unfold mbind, M_bind. cbv zeta.
  destruct (server (sent s ++ [start_request i])) as [a|e].
  2:{ exists bound. right. split; [by intros a sid [? _]|]. by destruct (verbose && _). }
  destruct (text a) as [t|e] eqn:Et.
  2:{ exists bound. right. split; [intros a' sid ([= <-] & H & _); by rewrite Et in H|]. by destruct (verbose && _). }
  destruct (session_id a) as [[a' sid]|e] eqn:Es.
  - exists true. left. apply session_id_opens in Es as (Ha & Hst & Hsid). simpl in Ha, Hsid. subst a'.
    exists a, sid. split; [|done]. split; [done|]. by rewrite Et.
  - exists true. right. split; [|by destruct (verbose && _)]. intros a' sid ([= <-] & _ & H2 & H3).
    assert (E : session_id a = Ok (a, sid)) by (by apply session_id_opens). congruence.
Qed.

Lemma start_adds n bound i : adds (the_start n bound i) (started i).
Proof.
  revert bound. induction n as [|n IH]; intros bound s s' r E.
  - injection E as <- <-. exists []. rewrite app_nil_r. split; [done|]. exists 0%nat. split; [done|]. split; [lia|]. intros; lia.
  - destruct (start_round n bound i s) as (b & [(a & sid & Ho & E')|[Hno E']]); rewrite E in E'.
    + injection E' as -> ->. exists [start_request i]. split; [done|]. exists 1%nat. split; [done|]. split; [lia|]. by split; [lia|].
    + destruct (verbose && negb b).
      * injection E' as -> ->. exists [start_request i]. split; [done|]. exists 1%nat. split; [done|]. split; [lia|].
        intros j a sid [= ->]. exact (Hno a sid).
      * symmetry in E'. destruct (IH b _ _ _ E') as (l & Hl & k & -> & Hk & Hr). cbn [sent] in *. exists (starts i (S k)).
        split; [by rewrite Hl, <- app_assoc|]. exists (S k). split; [done|].
        split; [|destruct r as [[a sid]|e]].
        -- intros [|j] a sid Hj; [apply Hno|]. specialize (Hk j a sid ltac:(lia)). by rewrite <- app_assoc in Hk.
        -- destruct Hr as [_ Hr]. split; [lia|]. by rewrite <- app_assoc in Hr.
        -- intros [|j] a sid Hj; [apply Hno|]. specialize (Hr j a sid ltac:(lia)). by rewrite <- app_assoc in Hr.
Qed.

(** Not verbose, the loop goes on until an attempt opens a session. *)
Lemma start_ends n fuel bound i s : verbose = false -> (n < fuel)%nat ->
  (exists a sid, opens (server (sent s ++ starts i (S n))) a sid) -> exists x, (the_start fuel bound i s).2 = Ok x.
Proof.
  intros Hv. revert fuel bound s. induction n as [|n IH]; intros [|fuel] bound s Hn Ho; try lia.
  - destruct (start_round fuel bound i s) as (b & [(a & sid & _ & ->)|[Hno _]]); [by eexists|].
    destruct Ho as (a & sid & Ho). by destruct (Hno a sid).
  - destruct (start_round fuel bound i s) as (b & [(a & sid & _ & ->)|[_ ->]]); [by eexists|].
    assert (verbose && negb b = false) as -> by (by rewrite Hv). apply IH; [lia|]. cbn [sent]. by rewrite <- app_assoc.
Qed.

#[local] Abbreviation the_worker := (worker server coin controller task_name temperature verbose truncate_multiple_toolcall).

(** The requests of a worker: attempts to start, of which only the last can open a
    session, then at most twenty turns in that session, each some requests to the model
    and then one message.  A reward is the one of the last answer, or 0 after twenty
    turns, and then the session is left open; after an Exception the session is cancelled.
    Not verbose, a worker whose server lets it start within the fuel starts. *)
Theorem worker_requests fuel a i l0 s' r : the_worker fuel a i (new_worker l0) = (s', r) ->
  (exists k ts c, sent s' = l0 ++ starts i k ++ mjoin ts ++ c ∧
    (forall j x sid, (S j < k)%nat -> ~ opens (server (l0 ++ starts i (S j))) x sid) ∧ (length ts <= 20)%nat ∧
    match r with
    | Ok (Ok v, sid) => c = [] ∧ (exists x, opens (server (l0 ++ starts i k)) x sid) ∧ Forall (turn_log sid false) ts ∧
        (over (server (sent s')) v \/ v = VInt 0 ∧ length ts = 20%nat ∧ Forall (turn_log sid true) ts)
    | Ok (Raise e, sid) => c = [cancel_request sid] ∧ is_Exception e = true ∧
        (exists x, opens (server (l0 ++ starts i k)) x sid) ∧ Forall (turn_log sid false) ts
    | Raise e => c = [] ∧ (is_Exception e = true -> ts = [] ∧ forall j x sid, (S j = k)%nat -> ~ opens (server (l0 ++ starts i k)) x sid)
    end) ∧
  (forall n, verbose = false -> (n < fuel)%nat -> (exists x sid, opens (server (l0 ++ starts i (S n))) x sid) ->
     forall e, r = Raise e -> is_Exception e = false).
Proof.
  intros E. unfold worker in E. destruct (the_start fuel false i (new_worker l0)) as [s1 [[x sid]|e]] eqn:Es.
  2:{ unfold mbind, M_bind in E. rewrite Es in E. injection E as <- <-.
      destruct (start_adds _ _ _ _ _ _ Es) as (l & Hl & k & -> & Hk & Hr). split.
      - exists k, [], []. cbn. rewrite app_nil_r. split; [done|]. split; [done|]. split; [lia|]. split; [done|]. intros _. split; [done|].
        intros j x sid <-. by apply Hr.
      - intros n Hv Hn Ho e' [= <-]. destruct (start_ends n fuel false i (new_worker l0) Hv Hn Ho) as [x Hx]. by rewrite Es in Hx. }
  destruct (start_adds _ _ _ _ _ _ Es) as (l & Hl & k & -> & Hk & H1 & Ho). erewrite M_bind_run in E by exact Es.
  unfold set_messages in E. rewrite bind_modify in E. unfold mbind, M_bind, caught in E.
  destruct (play server coin controller temperature verbose truncate_multiple_toolcall a x sid _) as [s2 r2] eqn:Ep.
  destruct (play_adds a x sid _ _ _ Ep) as (l2 & Hl2 & ts & -> & Hlen & Hts & Hr). cbn [sent new_worker] in *.
  rewrite Hl, <- app_assoc in Hl2. destruct r2 as [v|e].
  - injection E as <- <-. split; [|by intros].
    exists k, ts, []. rewrite app_nil_r. split; [done|]. split; [done|]. split; [done|]. split; [done|]. split; [by exists x|]. split; [done|].
    specialize (Hr v eq_refl). by rewrite Hl, <- app_assoc, <- Hl2 in Hr.
  - destruct (is_Exception e) eqn:He; injection E as <- <-.
    + split; [|by intros]. exists k, ts, [cancel_request sid]. cbn. rewrite Hl2, <- !app_assoc.
      split; [done|]. split; [done|]. split; [done|]. split; [done|]. split; [done|]. by split; [exists x|].
    + split; [|by intros ? ? ? ? e' [= <-]]. exists k, ts, []. rewrite app_nil_r. split; [done|]. split; [done|]. split; [done|].
      split; [done|]. by rewrite He.
Qed.
End requests.

(** ** The rest of the script *)

(** [re.search(r"/([^/]+?)/global_step_(\d+?)/", name)], on the parts between slashes;
    the first part has no slash before it, the last none behind. *)
Fixpoint trained (parts : list string) : option (string * string) :=
  match parts with
  | run :: ((step :: _ :: _) as parts) =>
      if negb (bool_decide (run = "")) && starts_with "global_step_" step &&
         negb (bool_decide (drop_str 12 step = "")) && forallb is_digit (chars (drop_str 12 step))
      then Some (run, drop_str 12 step) else trained parts
  | _ => None
  end.
(** [re.search(r"/([^/]+?)/", name)] *)
Fixpoint local_path (parts : list string) : option string :=
  match parts with
  | run :: ((_ :: _) as parts) => if bool_decide (run = "") then local_path parts else Some run
  | _ => None
  end.
(* examples/eval/server_agent.py:168-177 parse_model_name *)
Definition parse_model_name (name : string) : string :=
  let parts := tail (split_on "/"%char name) in
  match trained parts with
  | Some (run, step) => run +:+ "-step" +:+ step
  | None => default name (local_path parts)
  end.

(** The indices and the number of runs: one index, a range, or what the controller has. *)
(* examples/eval/server_agent.py:211-227 run_tasks *)
Definition select_indices (index range : option string) (runs : nat) (get_indices : res (list val)) : res (list val * nat) :=
  let or_none o := match o with Some s => if bool_decide (s = "") then None else Some s | None => None end in
  match or_none index, or_none range with
  | Some i, _ => Ok ([VStr i], 1%nat)
  | None, Some r =>
      match split_on ","%char r with
      | [a; b] =>
          match py_int a, py_int b with
          | Some a, Some b => Ok (VInt <$> seqZ a (b - a), runs)
          | _, _ => Raise ValueError
          end
      | _ => Raise ValueError
      end
  | None, None => l ← get_indices; Ok (filter (fun v => negb (match v with VInt z => bool_decide (z = -1) | _ => false end)) l, runs)
  end.

(** ** Examples *)

Module Examples.
#[local] Open Scope string_scope.

Example names :
  parse_model_name "/ckpt/calc/global_step_40/hf" = "calc-step40" ∧ parse_model_name "/models/glm" = "models" ∧
  parse_model_name "gpt" = "gpt" ∧ parse_model_name "/m//global_step_7/x" = "m".
Proof. by vm_compute. Qed.

Example ranges :
  select_indices None (Some "2, 4") 4 (Ok []) = Ok ([VInt 2; VInt 3], 4%nat) ∧
  select_indices (Some "7") (Some "2,4") 4 (Ok []) = Ok ([VStr "7"], 1%nat) ∧
  select_indices None None 4 (Ok [VInt (-1); VInt 5]) = Ok ([VInt 5], 4%nat).
Proof. by vm_compute. Qed.

Definition reply (v : val) : response := {| status := 200; headers := [("session_id", "s1")]; json := Ok v; text := Ok "" |}.
Definition message (d : list (string * val)) : val := VDict [("choices", VList [VDict [("message", VDict d)]])].

(** A controller that refuses the first start and ends the sample at the first message. *)
Definition server (answer : list (string * val)) (l : log) : res response :=
  match last l with
  | Some r =>
      if bool_decide (url r = "c/start_sample") then
        if bool_decide (length l = 1%nat) then Raise OSError
        else Ok (reply (VDict [("messages", VList [VDict [("role", VStr "user")]]); ("tools", VList [])]))
      else if bool_decide (url r = "m/chat/completions") then Ok (reply (message answer))
      else Ok (reply (VDict [("finish", VBool true); ("reward", VInt 1); ("messages", VList [])]))
  | None => Raise OSError
  end.
Definition gpt : agent := {| model := "gpt"; base_url := "m"; model2 := ""; base_url2 := "" |}.
Definition text_answer : list (string * val) := [("role", VStr "assistant"); ("content", VNone)].
Definition play_it (verbose truncate : bool) : wstate * res (res val * string) :=
  worker (server text_answer) (fun _ => false) "c" "calc" (VInt 0) verbose truncate 5 gpt (IntIndex 3) (new_worker []).

Example plain : (play_it false false).2 = Ok (Ok (VInt 1), "s1") ∧ length (sent (play_it false false).1) = 4%nat.
Proof. by vm_compute. Qed.

(** With the option that keeps the first tool call, an answer without one is an error. *)
Example text_is_an_error : (play_it false true).2 = Ok (Raise KeyError, "s1") ∧
  last (sent (play_it false true).1) = Some (cancel_request "c" "s1").
Proof. by vm_compute. Qed.

(** Verbose, a first attempt that gets no answer ends the worker. *)
Example unbound_text : (play_it true false).2 = Raise UnboundLocalError.
Proof. by vm_compute. Qed.

Lemma worker_requests_witness : forall e, (play_it false false).2 = Raise e -> is_Exception e = false.
Proof.
  intros e He. refine (proj2 (worker_requests (server text_answer) (fun _ => false) "c" "calc" (VInt 0) false false 5 gpt (IntIndex 3) []
    (play_it false false).1 (play_it false false).2 (surjective_pairing _)) 1%nat eq_refl _ _ e He).
  - lia.
  - exists (reply (VDict [("messages", VList [VDict [("role", VStr "user")]]); ("tools", VList [])])), "s1". by repeat split.
Defined.

(** An endless sample: twenty turns, the result 0, and the session stays. *)
Definition endless (l : log) : res response :=
  match last l with
  | Some r =>
      if bool_decide (url r = "m/chat/completions") then Ok (reply (message text_answer))
      else Ok (reply (VDict [("finish", VBool false); ("messages", VList []); ("tools", VList [])]))
  | None => Raise OSError
  end.
Example session_left_open :
  let '(s, r) := worker endless (fun _ => false) "c" "calc" (VInt 0) false false 1 gpt (IntIndex 3) (new_worker []) in
  r = Ok (Ok (VInt 0), "s1") ∧ length (sent s) = 41%nat ∧ Forall (fun r => url r ≠ "c/cancel") (sent s).
Proof. vm_compute. split; [done|]. split; [done|]. by repeat constructor. Qed.

(** A table with an error and a result, resumed with two runs of two samples. *)
Definition a_key (z n : Z) : key := {| k_model := "gpt"; k_index := IntIndex z; k_run := n |}.
Definition old : table :=
  [(0%nat, {| r_key := a_key 3 1; r_result := VStr "error"; r_messages := [VNone]; r_sid := Some "s0" |});
   (1%nat, {| r_key := a_key 4 1; r_result := VInt 1; r_messages := []; r_sid := Some "s1" |})].
Definition done_with (sid : string) (v : res val) : outcome := {| o_messages := [VInt 7]; o_result := v; o_sid := sid |}.
Definition events : list (happening key outcome) :=
  [Enter; Enter; Leave (a_key 3 2) (done_with "s3" (Raise KeyError)); Leave (a_key 3 1) (done_with "s2" (Ok (VInt 0)));
   Enter; Leave (a_key 4 2) {| o_messages := []; o_result := Raise OSError; o_sid := "" |}].
Abbreviation the_run := (task "gpt" (Some old) [IntIndex 3; IntIndex 4] 2 2 events).

Lemma task_records_witness : exists s, the_run = Ok s ∧ all_left s ∧
  rows (df (world s)) = [changed (done_with "s2" (Ok (VInt 0))) {| r_key := a_key 3 1; r_result := VNone; r_messages := []; r_sid := Some "s0" |};
                         added (a_key 3 2) (done_with "s3" (Raise KeyError));
                         {| r_key := a_key 4 1; r_result := VInt 1; r_messages := []; r_sid := Some "s1" |}] ∧
  file (world s) = Some (rows (df (world s))).
Proof.
  destruct the_run as [s|] eqn:E; [|by vm_compute in E]. exists s. split; [done|].
  assert (Hl : all_left s) by (vm_compute in E; by injection E as <-). split; [done|].
  split; [vm_compute in E; by injection E as <-|].
  destruct (task_records "gpt" (Some old) [IntIndex 3; IntIndex 4] 2 2 events s) as (dones & _ & _ & _ & _ & _ & Hf).
  - split; [done|]. simpl. apply NoDup_cons. split; [|apply NoDup_singleton]. by intros ?%list_elem_of_singleton.
  - repeat constructor; by eexists.
  - apply NoDup_cons. split; [|apply NoDup_singleton]. by intros ?%list_elem_of_singleton.
  - exact E.
  - by apply Hf.
Defined.

(** The index given with [-i] is text, those of the table are numbers: the sample is run
    again and gets another row. *)
Example text_index_twice :
  let k := {| k_model := "gpt"; k_index := StrIndex "4"; k_run := 1 |} in
  match task "gpt" (Some old) [StrIndex "4"] 1 1 [Enter; Leave k (done_with "s9" (Ok (VInt 1)))] with
  | Ok s => (index_val ∘ k_index ∘ r_key) <$> rows (df (world s)) = [VInt 3; VInt 4; VStr "4"]
  | Raise _ => False
  end.
Proof. by vm_compute. Qed.
End Examples.
