(* ===== verification/Testeval.v ===== *)
(** * The evaluation script of the operators

    Models extra/scripts/testeval.py: the checks that printing a message makes, the
    removal of early messages, the workers and the run of all samples, over Scripts.
    The client of the model is a function of the requests made so far, the number of
    the attempt, the messages and the tools; what is printed and the pauses are left
    out. *)

From S2P Require Import Prelude PyVal Scripts.

(** ** Messages *)

(** [for x in l: f x] for checks *)
Fixpoint all_r {A} (f : A -> res unit) (l : list A) : res unit :=
  match l with [] => Ok tt | x :: l => _ ← f x; all_r f l end.

Definition as_str (v : val) : res string := match v with VStr s => Ok s | _ => Raise AttributeError end.

Definition print_item (item : val) : res unit :=
  type ← vget_or "type" VNone item;
  if is_str "text" type then text ← vsub "text" item; _ ← as_str text; Ok tt
  else _ ← vsub "type" item; Ok tt.

Definition print_one (message : val) : res unit :=
  role ← vsub "role" message; _ ← as_str role;
  content ← vget_or "content" (VList []) message;
  _ ← (match content with VStr _ => Ok tt | _ => items ← iterate content; all_r print_item items end);
  calls ← vget_or "tool_calls" (VList []) message;
  _ ← iterate (if truthy calls then calls else VList []);
  Ok tt.

(** Printing a message, or a list of them, raises or returns nothing. *)
(* extra/scripts/testeval.py:16-41 print_message *)
Fixpoint print_message (message : val) : res unit :=
  match message with
  | VList l => (fix go l := match l with [] => Ok tt | x :: l => _ ← print_message x; go l end) l
  | _ => print_one message
  end.

(** A message of the history. *)
Abbreviation message := (list (string * val)).

Definition role (m : message) : res val := match dget "role" m with Some v => Ok v | None => Raise KeyError end.

(** How many messages at the end are of tools; the list is reversed. *)
(* extra/scripts/testeval.py:51-55 remove_earliest_messages *)
Fixpoint trailing (rev_messages : list message) : res nat :=
  match rev_messages with
  | [] => Ok 0%nat
  | m :: l => r ← role m; if is_str "tool" r then n ← trailing l; Ok (S n) else Ok 0%nat
  end.

(** The first message of the assistant that is not protected; [i] is the index of the
    head of the list. *)
(* extra/scripts/testeval.py:57-61 remove_earliest_messages *)
Fixpoint find_assistant (protected : nat -> bool) (i : nat) (l : list message) : res (option nat) :=
  match l with
  | [] => Ok None
  | m :: l => r ← role m; if is_str "assistant" r && negb (protected i) then Ok (Some i) else find_assistant protected (S i) l
  end.

(** [==] on ids. *)
Definition same_id (a b : val) : bool :=
  match a, b with
  | VStr x, VStr y => bool_decide (x = y)
  | VInt x, VInt y => bool_decide (x = y)
  | VNone, VNone => true
  | _, _ => false
  end.

(** The results of the calls of that message which follow it. *)
(* extra/scripts/testeval.py:72-78 remove_earliest_messages *)
Fixpoint answers_of (tool_call_ids : list val) (protected : nat -> bool) (i : nat) (l : list message) : res (list nat) :=
  match l with
  | [] => Ok []
  | m :: l =>
      r ← role m;
      if is_str "tool" r && existsb (same_id (dget_or "tool_call_id" VNone m)) tool_call_ids
      then js ← answers_of tool_call_ids protected (S i) l; Ok (if protected i then js else i :: js)
      else Ok []
  end.

Definition mark (m : message) : message := dset "removed" (VBool true) m.

Definition call_ids (m : message) : res (list val) :=
  match dget "tool_calls" m with
  | None => Ok []
  | Some calls => l ← iterate calls; map_r (vsub "id") l
  end.

(* extra/scripts/testeval.py:44-85 remove_earliest_messages *)
Definition remove_earliest_messages (messages : list message) : res (list message) :=
  n ← trailing (reverse messages);
  let protected i := bool_decide (i < 2)%nat || bool_decide (length messages - n <= i)%nat in
  a ← find_assistant protected 0 messages;
  match a with
  | None => Ok messages
  | Some a =>
      ids ← call_ids (default [] (messages !! a));
      js ← answers_of ids protected (S a) (drop (S a) messages);
      Ok (imap (fun i m => if bool_decide (i = a \/ i ∈ js) then mark m else m) messages)
  end.

(** ** The workers *)

Abbreviation wstate := (wstate val).

Section script.
Context (server : log -> res response).
(** The client of the model, and [message.model_dump()] of its answer. *)
Context (complete : log -> nat -> list val -> val -> res val).
(** The arguments of the command line. *)
Context (controller task_name : string) (verbose cover : bool).
#[local] Abbreviation post := (post server).

Definition start_request (i : task_index) : request :=
  {| url := controller +:+ "/start_sample"; session_header := None; payload := VDict [("name", VStr task_name); ("index", index_val i)] |}.
Definition interact_request (sid : string) (message : val) : request :=
  {| url := controller +:+ "/interact"; session_header := Some sid; payload := VDict [("messages", VList [message])] |}.
Definition cancel_request (sid : string) : request :=
  {| url := controller +:+ "/cancel"; session_header := Some sid; payload := VDict [] |}.

Definition session_id (r : response) : res string :=
  match dget "session_id" (headers r) with Some sid => Ok sid | None => Raise KeyError end.

(* extra/scripts/testeval.py:88-106 worker_start_sample_only *)
Definition worker_start_sample_only (i : task_index) : M wstate bool :=
  try_except
    (response ← post (start_request i);
     lift_res (raise_for_status response);;
     data ← lift_res (json response);
     l ← lift_res (vsub "messages" data);
     (if truthy l then mret tt else raise AssertionError);;
     sid ← lift_res (session_id response);
     post (cancel_request sid);;
     mret true)
    (fun e => if is_Exception e then Some (mret false) else None).

(** The loop that starts a sample catches everything. *)
(* extra/scripts/testeval.py:110-123 worker *)
Fixpoint start_sample (fuel : nat) (i : task_index) : M wstate (response * string) :=
  match fuel with
  | O => raise RecursionLimit
  | S n =>
      r ← caught (response ← post (start_request i);
                  lift_res (_ ← raise_for_status response; sid ← session_id response; Ok (response, sid)));
      match r with Ok x => mret x | Raise _ => start_sample n i end
  end.

(** [for tries in range(10)], where the attempt number 4 raises; [remaining] is what is left
    of the range. *)
(* extra/scripts/testeval.py:135-147 worker *)
Fixpoint ask_model (remaining tries : nat) (ms : list val) (tools : val) : M wstate val :=
  match remaining with
  | O => raise UnboundLocalError
  | S remaining =>
      try_except (l ← gets sent; lift_res (complete l tries ms tools))
        (fun e => if is_Exception e then Some (if bool_decide (tries = 4%nat) then raise e else ask_model remaining (S tries) ms tools) else None)
  end.

(** ['removed' not in i] *)
(* extra/scripts/testeval.py:140-140 worker *)
Definition not_removed (i : val) : res bool :=
  match i with
  | VDict d => Ok (negb (dmem "removed" d))
  | VStr s => Ok (match String.index 0 "removed" s with Some _ => false | None => true end)
  | VList l => Ok (negb (existsb (is_str "removed") l))
  | _ => Raise TypeError
  end.
Definition kept_messages (ms : val) : res (list val) :=
  l ← iterate ms; flat_m (fun i : val => b ← not_removed i; Ok (if (b : bool) then [i] else [])) l.

(** [messages.append(message)] and [messages.extend(l)] *)
Definition append (message : val) : M wstate unit :=
  ms ← gets messages; match ms with VList l => set_messages (VList (l ++ [message])) | _ => raise AttributeError end.
Definition extend (more : list val) : M wstate unit :=
  ms ← gets messages; match ms with VList l => set_messages (VList (l ++ more)) | _ => raise AttributeError end.

Definition printed (v : val) : res unit := if verbose then print_message v else Ok tt.

(** What an answer of the controller says: the reward, or the next messages. *)
(* extra/scripts/testeval.py:158-170 worker *)
Definition read_turn (response : response) : res (val + val) :=
  _ ← raise_for_status response;
  data ← json response;
  _ ← (if verbose then l ← vsub "messages" data; print_message l else Ok tt);
  finish ← vsub "finish" data;
  if truthy finish then reward ← vsub "reward" data; Ok (inl reward)
  else l ← vsub "messages" data; Ok (inr l).

(* extra/scripts/testeval.py:135-170 worker *)
Definition turn (tools : val) (sid : string) : M wstate (option val) :=
  ms ← gets messages;
  ms ← lift_res (kept_messages ms);
  message ← ask_model 10 0 ms tools;
  append message;;
  lift_res (printed message);;
  response ← post (interact_request sid message);
  r ← lift_res (read_turn response);
  match r with
  | inl reward => mret (Some reward)
  | inr l =>
      (if cover then set_messages l else more ← lift_res (iterate l); extend more);;
      mret None
  end.

(** The turns have no bound; [None] when the fuel ends before them. *)
(* extra/scripts/testeval.py:134-170 worker *)
Fixpoint turns (fuel : nat) (tools : val) (sid : string) : M wstate (option val) :=
  match fuel with
  | O => mret None
  | S n => r ← turn tools sid; match r with Some reward => mret (Some reward) | None => turns n tools sid end
  end.

(* extra/scripts/testeval.py:125-170 worker *)
Definition play (fuel : nat) (response : response) (sid : string) : M wstate (option val) :=
  data ← lift_res (json response);
  ms ← lift_res (vsub "messages" data);
  set_messages ms;;
  tools ← lift_res (vsub "tools" data);
  lift_res (printed ms);;
  turns fuel tools sid.

(** [None] while the turns go on. *)
(* extra/scripts/testeval.py:109-178 worker *)
Definition worker (fuel : nat) (i : task_index) : M wstate (option (res val) * string) :=
  '(response, sid) ← start_sample fuel i;
  set_messages (VList []);;
  r ← caught (play fuel response sid);
  match r with
  | Ok reward => mret (Ok <$> reward, sid)
  | Raise e => if is_Exception e then caught (post (cancel_request sid));; mret (Some (Raise e), sid) else raise e
  end.
End script.

(** ** The samples of a task *)

Section task.
Context {F : Type} `{FrameLaws F}.
Context (model : string) (start_sample_only : bool).

(* extra/scripts/testeval.py:212-216 run_tasks *)
Definition completed_runs (t : F) : list (task_index * Z) :=
  (fun r => (k_index (r_key r), k_run (r_key r))) <$>
    filter (fun r => k_model (r_key r) = model ∧ is_error (r_result r) = false) (rows t).

Definition added (k : key) (o : outcome) : row :=
  {| r_key := k; r_result := final_result o; r_messages := o_messages o; r_sid := None |}.

(** What a coroutine does when its worker is over: the table is written each time. *)
(* extra/scripts/testeval.py:220-254 run_tasks.sem_task *)
Definition record_result (k : key) (o : outcome) (w : results F) : results F :=
  if start_sample_only then w
  else if unrecorded o then w
  else write_sorted (upsert k (changed o) (added k o) (df w)).

(* extra/scripts/testeval.py:204-262 run_tasks *)
Definition run_tasks (existing : option F) (task_indices : list task_index) (runs concurrency : nat)
    (l : list (happening key outcome)) : sched key (results F) :=
  let t := default empty_frame existing in
  run (sched_step concurrency record_result)
    {| waiting := coroutines model task_indices runs (completed_runs t); running := []; world := {| df := t; file := None |} |} l.
End task.

(** ** Proofs: removing messages *)

(** The same message, marked or not. *)
Definition same_message (m m' : message) : Prop := m' = m \/ m' = mark m.

Lemma same_get k m m' : k ≠ "removed"%string -> same_message m m' -> dget k m' = dget k m.
Proof. intros Hk [->| ->]; [done|]. unfold mark. by apply dget_dset_ne. Qed.
Lemma same_role m m' : same_message m m' -> role m' = role m.
Proof. intros Hm. unfold role. by erewrite same_get by done. Qed.

Lemma trailing_same l l' : Forall2 same_message l l' -> trailing l' = trailing l.
Proof. induction 1 as [|m m' l l' Hm _ IH]; simpl; [done|]. by rewrite (same_role m m'), IH. Qed.
Lemma find_assistant_same p i l l' : Forall2 same_message l l' -> find_assistant p i l' = find_assistant p i l.
Proof.
  intros Hl. revert i. induction Hl as [|m m' l l' Hm _ IH]; intros i; simpl; [done|]. by rewrite (same_role m m'), IH.
Qed.
Lemma answers_same ids p i l l' : Forall2 same_message l l' -> answers_of ids p i l' = answers_of ids p i l.
Proof.
  intros Hl. revert i. induction Hl as [|m m' l l' Hm _ IH]; intros i; simpl; [done|].
  unfold dget_or. by rewrite (same_role m m'), (same_get "tool_call_id" m m'), IH.
Qed.

Lemma mark_mark m : mark (mark m) = mark m.
Proof. unfold mark. by rewrite dset_dset. Qed.

Lemma imap_same (f : nat -> message -> message) l : (forall i m, same_message m (f i m)) -> Forall2 same_message l (imap f l).
Proof.
  revert f. induction l as [|m l IH]; intros f Hf; simpl; [constructor|]. constructor; [apply Hf|]. apply IH. intros i x. apply Hf.
Qed.

(** Removing again removes nothing more: the first message found is the same. *)
Lemma remove_again l l' : remove_earliest_messages l = Ok l' -> remove_earliest_messages l' = Ok l'.
Proof.
  unfold remove_earliest_messages. intros H. destruct (trailing (reverse l)) as [n|] eqn:Et; [|done]. cbn in H.
  set (p := fun i => bool_decide (i < 2)%nat || bool_decide (length l - n <= i)%nat) in *.
  destruct (find_assistant p 0 l) as [[a|]|] eqn:Ea; [|cbn in H|done].
  2:{ injection H as <-. rewrite Et. cbn. fold p. by rewrite Ea. }
  cbn in H. destruct (call_ids _) as [ids|] eqn:Ei; [|done]. cbn in H. destruct (answers_of ids p (S a) _) as [js|] eqn:Ej; [|done].
  injection H as <-. set (f := fun (i : nat) m => if bool_decide (i = a \/ i ∈ js) then mark m else m).
  assert (Hs : forall i m, same_message m (f i m)) by (intros i m; unfold f; case_bool_decide; [by right|by left]).
  pose proof (imap_same f l Hs) as Hl. rewrite (trailing_same (reverse l)) by (by apply Forall2_reverse). rewrite Et. cbn.
  rewrite length_imap. fold p. rewrite (find_assistant_same p 0 l) by done. rewrite Ea. cbn.
  assert (Hids : call_ids (default [] (imap f l !! a)) = Ok ids).
  { rewrite list_lookup_imap. destruct (l !! a) as [m|]; [|done]. cbn in *. unfold call_ids in *. by rewrite (same_get "tool_calls" m). }
  rewrite Hids. cbn. rewrite (answers_same ids p (S a) (drop (S a) l)) by (by apply Forall2_drop). rewrite Ej. cbn. f_equal.
  apply list_eq. intros i. rewrite !list_lookup_imap. destruct (l !! i) as [m|]; [|done]. cbn. unfold f.
  by case_bool_decide; rewrite ?mark_mark.
Qed.

(** ** Proofs: the end of a worker *)

Section ends.
Context (server : log -> res response) (complete : log -> nat -> list val -> val -> res val).
Context (controller task_name : string) (verbose cover : bool).
#[local] Abbreviation the_turn := (turn server complete controller verbose cover).
#[local] Abbreviation the_turns := (turns server complete controller verbose cover).
#[local] Abbreviation the_worker := (worker server complete controller task_name verbose cover).

(** An answer that ends the sample with a reward. *)
Definition over (x : res response) (reward : val) : Prop :=
  exists a data fin, x = Ok a ∧ json a = Ok data ∧ vsub "finish" data = Ok fin ∧ truthy fin = true ∧ vsub "reward" data = Ok reward.

Lemma read_turn_over a v : read_turn verbose a = Ok (inl v) -> over (Ok a) v.
Proof.
  unfold read_turn. destruct (raise_for_status a); [|done]. cbn. destruct (json a) as [data|] eqn:Ej; [|done]. cbn.
  destruct (if verbose then _ else _); [|done]. cbn. destruct (vsub "finish" data) as [fin|] eqn:Ef; [|done]. cbn.
  destruct (truthy fin) eqn:Et; [|by destruct (vsub "messages" data)].
  destruct (vsub "reward" data) as [rw|] eqn:Er; [|done]. intros [= <-]. by exists a, data, fin.
Qed.

Lemma turn_over tools sid s s' v : the_turn tools sid s = (s', Ok (Some v)) -> over (server (sent s')) v.
Proof.
  intros H. unfold turn in H. apply M_bind_ok in H as (ms & s1 & _ & H). apply M_bind_ok in H as (ks & s2 & _ & H).
  apply M_bind_ok in H as (m & s3 & _ & H). apply M_bind_ok in H as (u & s4 & _ & H). apply M_bind_ok in H as (u' & s5 & _ & H).
  apply M_bind_ok in H as (a & s6 & Hp & H). injection Hp as <- Hp. rewrite bind_lift in H.
  destruct (read_turn verbose a) as [[w|l]|] eqn:Er; [| |done].
  - injection H as <- <-. cbn [sent]. rewrite Hp. by apply read_turn_over.
  - by apply M_bind_ok in H as (u'' & s7 & _ & [= _ ?]).
Qed.

Lemma turns_over n tools sid s s' v : the_turns n tools sid s = (s', Ok (Some v)) -> over (server (sent s')) v.
Proof.
  revert s. induction n as [|n IH]; intros s H; [done|]. cbn [turns] in H. apply M_bind_ok in H as ([w|] & s1 & Ht & H).
  - injection H as <- <-. by apply turn_over in Ht.
  - by apply IH in H.
Qed.

(** A worker that ends with a reward has it from the last answer of the controller, and
    one that ends with an Exception has cancelled its session last. *)
Theorem worker_ends fuel i s s' r sid : the_worker fuel i s = (s', Ok (Some r, sid)) ->
  match r with
  | Ok v => over (server (sent s')) v
  | Raise e => is_Exception e = true ∧ last (sent s') = Some (cancel_request controller sid)
  end.
Proof.
  intros H. unfold worker in H. apply M_bind_ok in H as ([a sid'] & s1 & _ & H). apply M_bind_ok in H as (u & s2 & _ & H).
  unfold mbind, M_bind, caught in H. destruct (play server complete controller verbose cover fuel a sid' s2) as [s3 [[v|]|e]] eqn:Ep.
  - injection H as <- <- <-. unfold play in Ep. apply M_bind_ok in Ep as (d & s4 & _ & Ep). apply M_bind_ok in Ep as (m & s5 & _ & Ep).
    apply M_bind_ok in Ep as (u1 & s6 & _ & Ep). apply M_bind_ok in Ep as (t & s7 & _ & Ep). apply M_bind_ok in Ep as (u2 & s8 & _ & Ep).
    by apply turns_over in Ep.
  - done.
  - destruct (is_Exception e) eqn:He; [|done]. injection H as <- <- <-. split; [done|]. cbn [sent]. by rewrite last_snoc.
Qed.
End ends.

(** ** Proofs: the table *)

Section table.
Context {F : Type} `{FrameLaws F}.
Context (model : string).

Lemma write_sorted_kept (t : F) (f : option (list row)) : tidy t ->
  tidy (df (write_sorted t)) ∧ forall k, find_row k (df (write_sorted t)) = find_row k t.
Proof. apply tidy_sort. Qed.

Lemma completed_raw_elem (t : F) i n : tidy t -> (i, n) ∈ completed_runs model t <->
  exists r, find_row {| k_model := model; k_index := i; k_run := n |} t = Some r ∧ is_error (r_result r) = false.
Proof.
  intros Ht. unfold completed_runs. rewrite list_elem_of_fmap. split.
  - intros (r & [= -> ->] & [[<- He] Hr]%list_elem_of_filter). exists r. split; [|done]. apply find_row_in; [apply Ht|done|by destruct (r_key r)].
  - intros (r & [Hr Hk]%find_row_elem & He). exists r. rewrite Hk. split; [done|]. apply list_elem_of_filter. by rewrite Hk.
Qed.

(** The file is what the table was when it was last changed. *)
Lemma written_each_time (t : F) dones :
  let w := foldl (fun w d => recorded added (fun t _ => write_sorted t) d.1 d.2 w) {| df := t; file := None |} dones in
  file w = if forallb (fun d => unrecorded d.2) dones then None else Some (rows (df w)).
Proof.
  induction dones as [|[k o] dones IH] using rev_ind; [done|]. cbv zeta in *. rewrite foldl_app, forallb_app. cbn [foldl forallb fst snd].
  set (w := foldl _ _ dones) in *. clearbody w. unfold recorded. destruct (unrecorded o) eqn:E; rewrite ?E.
  - by rewrite andb_true_r.
  - cbn [andb]. by rewrite andb_false_r.
Qed.

(** As ServerAgent.task_records, with the file written at every change: what is run is
    what has no result yet, every sample once and at most [concurrency] together, and the
    table and the file say what the samples that ended have come to. *)
Theorem tasks_recorded existing task_indices runs concurrency l :
  let t := default empty_frame existing in
  let s := run_tasks model false existing task_indices runs concurrency l in
  tidy t -> NoDup task_indices ->
  exists dones, NoDup (dones.*1 ++ running s ++ waiting s) ∧ (length (running s) <= concurrency)%nat ∧
    (forall k, k ∈ dones.*1 ++ running s ++ waiting s <-> open_keys model t task_indices runs k) ∧
    tidy (df (world s)) ∧ (forall k, find_row k (df (world s)) = row_after added t dones k) ∧
    file (world s) = if forallb (fun d => unrecorded d.2) dones then None else Some (rows (df (world s))).
Proof.
  intros t s Ht Hn. destruct (from_table_spec model added (fun _ _ => eq_refl) (fun t _ => write_sorted t) write_sorted_kept
    concurrency t task_indices runs (completed_runs model t) l Ht Hn) as (dones & H1 & H2 & H3 & H4 & H5 & H6);
    [intros; by apply completed_raw_elem|].
  exists dones. split; [exact H1|]. split; [exact H2|]. split; [exact H3|]. split; [exact H4|]. split; [exact H5|].
  change (world s) with (world (from_table model added (fun t _ => write_sorted t) concurrency t task_indices runs (completed_runs model t) l)).
  rewrite H6. apply written_each_time.
Qed.
End table.

(** ** Examples *)

Module Examples.
#[local] Open Scope string_scope.

Definition msg (role : string) (more : message) : message := ("role", VStr role) :: more.
Definition calls (id : string) : message := [("tool_calls", VList [VDict [("id", VStr id)]])].
Definition history : list message :=
  [msg "system" []; msg "user" []; msg "assistant" (calls "a"); msg "tool" [("tool_call_id", VStr "a")];
   msg "assistant" (calls "b"); msg "tool" [("tool_call_id", VStr "b")]].

(** The first turn goes, the last one is protected. *)
Example first_turn_removed :
  match remove_earliest_messages history with
  | Ok l => dmem "removed" <$> l = [false; false; true; true; false; false]
  | Raise _ => False
  end.
Proof. by vm_compute. Qed.

(** A message of the model that only calls tools has no content: printing it fails. *)
Example tool_call_not_printed :
  print_message (VDict (("content", VNone) :: msg "assistant" (calls "a"))) = Raise TypeError ∧
  print_message (VDict (("content", VStr "") :: msg "assistant" (calls "a"))) = Ok tt.
Proof. by vm_compute. Qed.

(** The model is asked five times, not ten. *)
Example five_attempts :
  (ask_model (fun _ tries _ _ => if bool_decide (tries = 5%nat) then Ok VNone else Raise ValueError) 10 0 [] VNone
    {| sent := []; messages := VNone |}).2 = Raise ValueError.
Proof. by vm_compute. Qed.

Definition reply (v : val) : response := {| status := 200; headers := [("session_id", "s1")]; json := Ok v; text := Ok "" |}.
Definition server (fin : bool) (l : log) : res response :=
  match last l with
  | Some r => if bool_decide (url r = "c/start_sample") then Ok (reply (VDict [("messages", VList []); ("tools", VList [])]))
              else if fin then Ok (reply (VDict [("finish", VBool true); ("reward", VInt 1)]))
              else Ok (reply (VDict [("finish", VBool true)]))
  | None => Raise OSError
  end.
Definition play_it (fin : bool) : wstate * res (option (res val) * string) :=
  worker (server fin) (fun _ _ _ _ => Ok (VDict (msg "assistant" []))) "c" "calc" false false 3 (IntIndex 3) {| sent := []; messages := VNone |}.

Lemma worker_ends_witness : over (server true (sent (play_it true).1)) (VInt 1) ∧ last (sent (play_it false).1) = Some (cancel_request "c" "s1").
Proof.
  pose proof (fun fin => worker_ends (server fin) (fun _ _ _ _ => Ok (VDict (msg "assistant" []))) "c" "calc" false false 3 (IntIndex 3)
    {| sent := []; messages := VNone |} (play_it fin).1) as H.
  split; [apply (H true (Ok (VInt 1)) "s1"); vm_compute; reflexivity|]. apply (H false (Raise KeyError) "s1"). vm_compute. reflexivity.
Defined.

Definition a_key (z n : Z) : key := {| k_model := "gpt"; k_index := IntIndex z; k_run := n |}.
Definition outcome_of (ms : list val) (v : res val) : outcome := {| o_messages := ms; o_result := v; o_sid := "" |}.
Definition events : list (happening key outcome) :=
  [Enter; Leave (a_key 3 1) (outcome_of [] (Raise OSError)); Enter; Leave (a_key 4 1) (outcome_of [VNone] (Raise KeyError))].
Definition the_run : sched key (results table) := run_tasks "gpt" false None [IntIndex 3; IntIndex 4] 1 1 events.

Lemma tasks_recorded_witness : tidy (df (world the_run)) ∧ file (world the_run) = Some (rows (df (world the_run))).
Proof.
  destruct (tasks_recorded (F := table) "gpt" None [IntIndex 3; IntIndex 4] 1 1 events) as (dones & _ & _ & _ & Ht & _ & Hf).
  - split; [done|]. apply NoDup_nil_2.
  - apply NoDup_cons. split; [|apply NoDup_singleton]. by intros ?%list_elem_of_singleton.
  - fold the_run in Ht, Hf. split; [exact Ht|]. destruct (forallb _ dones); [|exact Hf]. vm_compute in Hf. discriminate.
Defined.
End Examples.
