(* ===== verification/PassK.v ===== *)
(** * Pass rates of a file of results

    Models the pass@k of examples/eval/check.py over MathComp: the rows of one file or
    two, grouped by sample, the numbers k it looks at and the score of each, with exact
    rationals for its floats.  The rest of the script prints means of pandas. *)

From HB Require Import structures.
From mathcomp Require Import all_boot ssralg ssrnum rat order.

Set Implicit Arguments.
Unset Strict Implicit.
Unset Printing Implicit Defensive.

Import GRing.Theory Num.Theory Order.Theory.
Local Open Scope ring_scope.

(** A row: the sample, the number of the run, and the result, which is none when the run
    was an error. *)
Record row := Row { task_index : nat; run_number : nat; result : option rat }.
Definition row_tuple (r : row) : nat * nat * option rat := (task_index r, run_number r, result r).
Definition tuple_row (p : nat * nat * option rat) : row := Row p.1.1 p.1.2 p.2.
Lemma row_tupleK : cancel row_tuple tuple_row. Proof. by case. Qed.
HB.instance Definition _ := Equality.copy row (can_type row_tupleK).

(* examples/eval/check.py:47-48 main *)
Definition valid (r : row) : bool := isSome (result r) && (run_number r < 256)%N.

(** The rows of a second file are taken as they are. *)
(* examples/eval/check.py:46-66 main *)
Definition frame (df : seq row) (df2 : option (seq row)) : seq row := [seq r <- df | valid r] ++ odflt [::] df2.

Definition is_pass (r : row) : bool := result r == Some 1%R.

(* examples/eval/check.py:69-69 main *)
Definition grouped (df : seq row) : seq (seq row) :=
  [seq [seq r <- df | task_index r == i] | i <- undup [seq task_index r | r <- df]].

(* examples/eval/check.py:70-70 main *)
Definition max_size (df : seq row) : nat := foldr maxn 0%N [seq size g | g <- grouped df].

(** [while i < n: ks.append(i); i *= 2] *)
(* examples/eval/check.py:72-75 main *)
Fixpoint powers (fuel i n : nat) : seq nat :=
  if fuel is fuel'.+1 then if (i < n)%N then i :: powers fuel' (i * 2) n else [::] else [::].

(** [ks[-1]] of an empty list raises [IndexError]. *)
(* examples/eval/check.py:71-77 main *)
Definition ks (n : nat) : option (seq nat) :=
  let l := powers n 1 n in
  if l is i :: l' then Some (if last i l' != n then rcons l n else l) else None.

(* examples/eval/check.py:83-83 main *)
Definition score (n k c : nat) : rat := 1 - ('C(n - c, k))%:R / ('C(n, k))%:R.

(* examples/eval/check.py:79-85 main *)
Definition pass_at (df : seq row) (k : nat) : rat :=
  let scores := [seq score (max_size df) k (count is_pass g) | g <- grouped df] in
  (\sum_(s <- scores) s) / (size scores)%:R.

(* examples/eval/check.py:62-85 main *)
Definition pass_at_k (df : seq row) (df2 : option (seq row)) : option (seq (nat * rat)) :=
  let df := frame df df2 in
  omap (map (fun k => (k, pass_at df k))) (ks (max_size df)).

(** ** Scores *)

Section subsets.
Variable T : finType.
Implicit Types (A passed : {set T}).

(** The sets of [k] runs, and those of them with a run that has passed. *)
Definition draws (k : nat) : {set {set T}} := [set A : {set T} | #|A| == k].
Definition lucky (passed : {set T}) (k : nat) : {set {set T}} := [set A : {set T} in draws k | ~~ [disjoint A & passed]].

Lemma unlucky_card passed k : #|draws k :\: lucky passed k| = 'C(#|T| - #|passed|, k).
Proof.
  have -> : draws k :\: lucky passed k = [set A : {set T} | A \subset ~: passed & #|A| == k].
  { apply/setP => A. rewrite !inE negb_and negbK. rewrite disjoints_subset.
    case: (#|A| == k); by rewrite /= ?andbT ?andbF. }
  by rewrite cards_draws cardsCs setCK.
Qed.

(** The score is the share of the sets of [k] runs in which a run has passed. *)
Lemma score_lucky passed k : (k <= #|T|)%N -> score #|T| k #|passed| = #|lucky passed k|%:R / #|draws k|%:R.
Proof.
  move=> Hk. have Hd : #|draws k| = 'C(#|T|, k) by rewrite /draws -card_draws.
  have Hsub : lucky passed k \subset draws k by apply/subsetP => A; rewrite inE => /andP [].
  have Hpos : ('C(#|T|, k))%:R != 0 :> rat by rewrite pnatr_eq0 -lt0n bin_gt0.
  have Hcard : (#|lucky passed k| + 'C(#|T| - #|passed|, k))%N = 'C(#|T|, k).
  { rewrite -unlucky_card -Hd -(cardsID (lucky passed k) (draws k)). by rewrite (setIidPr Hsub). }
  rewrite /score Hd -[X in X - _](divff Hpos) -mulrBl. congr (_ / _).
  by rewrite -[in X in X - _]Hcard natrD addrK.
Qed.
End subsets.

(** The runs of a group that have passed, as numbers below [n]; a group that is shorter
    has no more. *)
Definition passed_runs (n : nat) (g : seq row) : {set 'I_n} := [set i : 'I_n | nth false (map is_pass g) i].

Lemma card_nth (n : nat) (s : seq bool) : (size s <= n)%N -> #|[set i : 'I_n | nth false s i]| = count id s.
Proof.
  move=> Hs. rewrite cardsE -sum1_card big_mkcond /=.
  rewrite (eq_bigr (fun i : 'I_n => nat_of_bool (nth false s i))); first by move=> i _; rewrite unfold_in; case: (nth false s i).
  elim: n s Hs => [|n IH] [|b s] //= Hs; first by rewrite big_ord0.
  - by apply: big1 => i _; rewrite nth_nil.
  - by rewrite big_ord_recl /= IH.
Qed.

Definition share (n k : nat) (g : seq row) : rat := #|lucky (passed_runs n g) k|%:R / #|draws 'I_n k|%:R.

Lemma score_share (n k : nat) (g : seq row) : (size g <= n)%N -> (k <= n)%N -> score n k (count is_pass g) = share n k g.
Proof.
  move=> Hg Hk. have Hc : #|passed_runs n g| = count is_pass g.
  { rewrite /passed_runs card_nth ?size_map // count_map. exact: eq_count. }
  rewrite -Hc -{1}(card_ord n). rewrite score_lucky ?card_ord //.
Qed.

Lemma share_bounds n k g : 0 <= share n k g <= 1.
Proof.
  have Hsub : (#|lucky (passed_runs n g) k| <= #|draws 'I_n k|)%N by apply: subset_leq_card; apply/subsetP => A; rewrite inE => /andP [].
  rewrite /share divr_ge0 ?ler0n //=. case: (posnP #|draws 'I_n k|) => [-> | H]; first by rewrite invr0 mulr0 ler01.
  by rewrite ler_pdivrMr ?ltr0n // mul1r ler_nat.
Qed.

(** ** The numbers that are looked at *)

Lemma powers_sorted fuel i n : (0 < i)%N -> path ltn i (powers fuel (i * 2) n) && all (fun k => (0 < k < n)%N) (powers fuel (i * 2) n).
Proof.
  elim: fuel i => [|fuel IH] i Hi //=. case: ifP => //= Hn. have H2 : (0 < i * 2)%N by rewrite muln_gt0 Hi.
  have /andP [H3 H4] := IH _ H2. by rewrite ltn_Pmulr // H3 H2 Hn H4.
Qed.

Lemma ks_spec n : (1 < n)%N -> exists2 l, ks n = Some l & [&& sorted ltn l, head 0%N l == 1%N, last 0%N l == n & all (fun k => (0 < k <= n)%N) l].
Proof.
  case: n => // -[//|m] Hn. rewrite /ks. set n := m.+2. have -> : powers n 1 n = 1%N :: powers m.+1 2 n by [].
  have /andP [H1 H2] := powers_sorted m.+1 n (isT : (0 < 1)%N). rewrite mul1n in H1 H2.
  set l := powers m.+1 2 n in H1 H2 *. have Hlast : (last 1%N l < n)%N.
  { case/lastP: l H2 {H1} => [|l x] //=. by rewrite all_rcons last_rcons => /andP [/andP [_ ->]]. }
  have -> : last 1%N l != n by rewrite neq_ltn Hlast.
  exists (1%N :: rcons l n) => //. rewrite /= rcons_path H1 /= Hlast last_rcons !eqxx /= all_rcons leqnn /=.
  apply: sub_all H2 => k /andP [-> /ltnW ->]. done.
Qed.

Lemma group_size df g : g \in grouped df -> (size g <= max_size df)%N.
Proof. move=> Hg. by rewrite /max_size foldrE big_map; apply: (leq_bigmax_seq (F := size)). Qed.

(** C40: where some sample has more than one run, the numbers k rise from 1 to the
    size n of the largest group, and pass@k is the mean over the samples of the
    share of the k-element subsets of n runs that hold a run that passed, missing
    runs counting as failed; every share is between 0 and 1. *)
Theorem pass_at_k_shares df df2 : let d := frame df df2 in let n := max_size d in (1 < n)%N ->
  exists l, [/\ pass_at_k df df2 = Some [seq (k, (\sum_(g <- grouped d) share n k g) / (size (grouped d))%:R) | k <- l],
    sorted ltn l, head 0%N l = 1%N, last 0%N l = n & forall k g, 0 <= share n k g <= 1].
Proof.
  move=> d n Hn. have [l Hl /and4P [H1 /eqP H2 /eqP H3 H4]] := ks_spec Hn. exists l. split=> //; last by move=> k g; exact: share_bounds.
  rewrite /pass_at_k -/d -/n Hl /=. congr Some. apply/eq_in_map => k Hk. rewrite /pass_at size_map big_map. congr (_, _ / _).
  apply: eq_big_seq => g Hg. have /andP [_ Hkn] := allP H4 k Hk. by rewrite score_share ?group_size.
Qed.

(** Where no sample has more than one run there is no number to look at: the script fails. *)
Lemma pass_at_k_fails df df2 : (max_size (frame df df2) <= 1)%N -> pass_at_k df df2 = None.
Proof. rewrite /pass_at_k. by case: (max_size _) => [|[|n]]. Qed.

(** ** Examples *)

Module Examples.
Definition rows : seq row := [:: Row 3 1 (Some 1%R); Row 3 2 (Some 0%R); Row 3 3 None; Row 3 3 (Some 0%R); Row 4 1 (Some 0%R); Row 4 2 (Some 1%R)].

(** A second file brings its errors in, as runs that have not passed. *)
Example errors_of_second : (max_size (frame rows None), max_size (frame rows (Some [:: Row 3 1 None])), ks 3, ks 8, ks 1) =
  (3%N, 4%N, Some [:: 1%N; 2%N; 3%N], Some [:: 1%N; 2%N; 4%N; 8%N], None).
Proof. by vm_compute. Qed.

Lemma pass_at_k_shares_witness : (max_size (frame rows None) = 3)%N /\ exists l, sorted ltn l /\ last 0%N l = 3%N /\
  pass_at_k rows None = Some [seq (k, (\sum_(g <- grouped (frame rows None)) share 3 k g) / 2%:R) | k <- l].
Proof.
  have Hm : max_size (frame rows None) = 3%N by vm_compute.
  split=> //. have H := @pass_at_k_shares rows None. rewrite /= Hm in H. have [//|l [H1 H2 _ H3 _]] := H _. exists l. by split.
Defined.
End Examples.
