(* ===== verification/StoreMetrics.v ===== *)
(** * Metrics of the evaluator

    Models ResultStore.metrics of eval/store/store.py: the values of the completed rows,
    aggregated per run and then per model and task, over exact rationals.  polars does not
    say in which order groups come; [std], which divides by one less than the number of
    values, is an argument. *)

From S2P Require Import Prelude PyVal DataUrl Workflow Store Advantage.

#[local] Open Scope Qc_scope.

(** ** Groups *)

(** The elements with each key. *)
Definition group_by {A K} `{EqDecision K} (key : A -> K) (l : list A) : list (K * list A) :=
  (fun k => (k, filter (fun x => key x = k) l)) <$> remove_dups (key <$> l).

(** Over every key once, the groups are the list in another order. *)
Lemma groups_perm {A K} `{EqDecision K} (key : A -> K) (ks : list K) (l : list A) :
  NoDup ks -> (forall x, x ∈ l -> key x ∈ ks) -> mjoin ((fun k => filter (fun x => key x = k) l) <$> ks) ≡ₚ l.
Proof.
  revert l. induction ks as [|k ks IH]; intros l Hnd Hin.
  { destruct l as [|x l]; [done|]. exfalso. specialize (Hin x ltac:(left)). by apply elem_of_nil in Hin. }
  apply NoDup_cons in Hnd as [Hk Hnd]. rewrite fmap_cons. simpl.
  etransitivity; [|apply (filter_app_complement (fun x => key x = k) l)]. f_equiv.
  rewrite <- (IH (filter (fun x => key x ≠ k) l)) by first
    [done | intros x [Hne Hx]%list_elem_of_filter; specialize (Hin x Hx); by apply elem_of_cons in Hin as [?|?]].
  apply reflexive_eq. f_equal. apply list_fmap_ext. intros i k' Hk'. rewrite list_filter_filter.
  apply list_filter_iff. intros x. split; [|tauto]. intros ->. split; [done|]. intros ->.
  apply Hk. by eapply list_elem_of_lookup_2.
Qed.

Lemma group_by_keys {A K} `{EqDecision K} (key : A -> K) (l : list A) : NoDup (group_by key l).*1.
Proof.
  unfold group_by. rewrite <- list_fmap_compose. unfold compose. simpl. rewrite list_fmap_id. apply NoDup_remove_dups.
Qed.

Lemma group_by_elem {A K} `{EqDecision K} (key : A -> K) (l : list A) k g :
  (k, g) ∈ group_by key l <-> g = filter (fun x => key x = k) l ∧ g ≠ [].
Proof.
  unfold group_by. split.
  - intros (k' & [= -> ->] & Hk)%list_elem_of_fmap. split; [done|].
    apply elem_of_remove_dups, list_elem_of_fmap in Hk as (x & -> & Hx). intros Hn.
    eapply elem_of_nil. rewrite <- Hn. by apply list_elem_of_filter.
  - intros [-> Hne]. apply list_elem_of_fmap. exists k. split; [done|]. apply elem_of_remove_dups.
    destruct (filter _ l) as [|x g] eqn:E; [done|]. assert (x ∈ filter (fun x => key x = k) l) as Hx by (rewrite E; left).
    apply list_elem_of_filter in Hx as [<- Hx]. by apply list_elem_of_fmap_2.
Qed.

(** ** The query *)

Section query.
Context (std : list Qc -> Qc).

(** [pl.col(f'metric_{metric.type.value}')] *)
(* eval/store/store.py:194-194 ResultStore.metrics *)
Definition column (t : MetricType) (w : Store.row) : option pyfloat :=
  match t with REWARD => w_reward w | SCORE => w_score w | SUCCESS_RATE => w_success_rate w end.

(** The values of some rows without nulls and NaNs; infinite values are not modelled. *)
(* eval/store/store.py:197-197 ResultStore.metrics *)
Definition metric_values (t : MetricType) (l : list Store.row) : list Qc :=
  omap (fun w => match column t w with Some (Fin q) => Some (Q2Qc q) | _ => None end) l.

Record run_level_row := {
  rl_model : string;
  rl_task : string;
  rl_run : Z;
  run_valid : nat;
  run_sum : Qc;
  run_avg : option Qc
}.

Definition mean_of (l : list Qc) : option Qc := match l with [] => None | _ => Some (mean l) end.
Definition max_of (l : list Qc) : option Qc := match l with [] => None | x :: l => Some (foldr Qcmax x l) end.

(* eval/store/store.py:203-206 ResultStore.metrics *)
Definition aggregate_run (t : MetricType) (k : string * string * Z) (g : list Store.row) : run_level_row :=
  let values := metric_values t g in
  {| rl_model := k.1.1; rl_task := k.1.2; rl_run := k.2; run_valid := length values; run_sum := sum values;
     run_avg := mean_of values |}.

Definition run_key3 (w : Store.row) : string * string * Z := (w_model w, w_task w, w_run w).
Definition model_task (a : run_level_row) : string * string := (rl_model a, rl_task a).

(* eval/store/store.py:198-207 ResultStore.metrics *)
Definition run_level (t : MetricType) (rows : list Store.row) : list run_level_row :=
  (fun kg => aggregate_run t kg.1 kg.2) <$> group_by run_key3 (filter (fun w => is_completed (w_status w) = true) rows).

(* eval/store/types.py:9-15 MetricsListItem *)
Record MetricsListItem := {
  mi_model : string;
  mi_task : string;
  valid : nat;
  avg : option Qc;
  mi_std : option Qc;
  bon : option Qc
}.

(* eval/store/store.py:209-229 ResultStore.metrics *)
Definition aggregate (k : string * string) (g : list run_level_row) : MetricsListItem :=
  let total_valid := foldr Nat.add 0%nat (run_valid <$> g) in
  let total_sum := sum (run_sum <$> g) in
  let run_avgs := omap run_avg g in
  {| mi_model := k.1; mi_task := k.2; valid := total_valid;
     avg := if bool_decide (0 < total_valid)%nat then Some (total_sum / of_nat total_valid) else None;
     mi_std := if bool_decide (1 < length run_avgs)%nat then Some (std run_avgs) else None;
     bon := max_of run_avgs |}.

(* eval/store/store.py:193-235 ResultStore.metrics *)
Definition metrics (t : MetricType) (rows : list Store.row) : list MetricsListItem :=
  filter (fun i => (0 < valid i)%nat)
    ((fun kg => aggregate kg.1 kg.2) <$> group_by model_task (run_level t rows)).
End query.

(** ** Proofs *)

(** The completed rows of a model and a task. *)
Definition rows_of (rows : list Store.row) (model task : string) : list Store.row :=
  filter (fun w => w_model w = model ∧ w_task w = task) (filter (fun w => is_completed (w_status w) = true) rows).

(** The values of one run among some rows. *)
Definition run_values (t : MetricType) (rows : list Store.row) (r : Z) : list Qc :=
  metric_values t (filter (fun w => w_run w = r) rows).

Lemma filter_map {A B} (P : B -> Prop) `{!forall x, Decision (P x)} (f : A -> B) (l : list A) :
  filter P (f <$> l) = f <$> filter (fun x => P (f x)) l.
Proof.
  induction l as [|x l IH]; [done|]. rewrite fmap_cons, !filter_cons.
  repeat case_decide; try tauto; by rewrite ?fmap_cons, IH.
Qed.

Lemma group_runs t rows model task : exists rs, NoDup rs ∧ (forall w, w ∈ rows_of rows model task -> w_run w ∈ rs) ∧
  filter (fun a => model_task a = (model, task)) (run_level t rows) =
    (fun r => aggregate_run t (model, task, r) (filter (fun w => w_run w = r) (rows_of rows model task))) <$> rs.
Proof.
  unfold run_level, group_by. set (C := filter _ rows). set (ks := remove_dups (run_key3 <$> C)).
  exists (snd <$> filter (fun k => k.1 = (model, task)) ks). split_and!.
  - apply NoDup_fmap_2_strong; [|apply NoDup_filter, NoDup_remove_dups].
    intros [k1 r1] [k2 r2] [H1 _]%list_elem_of_filter [H2 _]%list_elem_of_filter. simpl in *. congruence.
  - intros w [[Hm Ht] Hw]%list_elem_of_filter. apply list_elem_of_fmap. exists (run_key3 w). split; [done|].
    apply list_elem_of_filter. split; [by unfold run_key3; simpl; rewrite Hm, Ht|].
    apply elem_of_remove_dups. by apply list_elem_of_fmap_2.
  - rewrite <- list_fmap_compose, filter_map, <- list_fmap_compose.
    rewrite (list_filter_iff _ (fun k => k.1 = (model, task))) by (by intros [[m tk] r]). apply list_fmap_ext. intros i k Hk.
    apply list_elem_of_lookup_2, list_elem_of_filter in Hk as [Hk _]. destruct k as [[m tk] r]. simpl in Hk. injection Hk as -> ->.
    unfold compose. cbn [fst snd]. f_equal. unfold rows_of. fold C. rewrite list_filter_filter.
    apply list_filter_iff. intros w. unfold run_key3. split; [by intros [= <- <- <-]|by intros (<- & <- & <-)].
Qed.

Lemma metric_values_join t (ls : list (list Store.row)) : metric_values t (mjoin ls) = mjoin (metric_values t <$> ls).
Proof.
  induction ls as [|l ls IH]; [done|]. rewrite fmap_cons. simpl. unfold metric_values in *. by rewrite omap_app, IH.
Qed.

(** What a model and task have is what its runs have. *)
Lemma values_perm t rows rs : NoDup rs -> (forall w, w ∈ rows -> w_run w ∈ rs) ->
  mjoin (run_values t rows <$> rs) ≡ₚ metric_values t rows.
Proof.
  intros Hnd Hin. etransitivity; [|apply omap_Permutation, (groups_perm w_run rs rows Hnd Hin)].
  fold (metric_values t (mjoin ((fun r => filter (fun w => w_run w = r) rows) <$> rs))).
  by rewrite metric_values_join, <- list_fmap_compose.
Qed.

Lemma sum_nats (l : list (list Qc)) : foldr Nat.add 0%nat (length <$> l) = length (mjoin l).
Proof. induction l as [|x l IH]; [done|]. change (length x + foldr Nat.add 0 (length <$> l) = length (x ++ mjoin l))%nat. by rewrite length_app, IH. Qed.

Lemma max_of_spec l : l ≠ [] -> exists b, max_of l = Some b ∧ b ∈ l ∧ forall x, x ∈ l -> x <= b.
Proof.
  destruct l as [|x l]; [done|]. intros _. exists (foldr Qcmax x l). split; [done|].
  induction l as [|y l [IH1 IH2]]; simpl.
  { split; [left|]. intros z ->%list_elem_of_singleton. apply Qcle_refl. }
  destruct (Qcmax_case y (foldr Qcmax x l)) as [[H ->]|[H ->]].
  - split; [apply elem_of_cons in IH1 as [->|IH1]; [left|by do 2 right]|].
    intros z [->|[->|Hz]%elem_of_cons]%elem_of_cons; [apply IH2; left|by apply Qclt_le_weak|apply IH2; by right].
  - split; [right; left|]. intros z [->|[->|Hz]%elem_of_cons]%elem_of_cons; [|apply Qcle_refl|];
      (eapply Qcle_trans; [apply IH2|done]); [left|by right].
Qed.

Lemma mean_sum l : l ≠ [] -> sum l = mean l * of_nat (length l).
Proof. intros Hl. unfold mean. field. apply of_nat_ne. destruct l; [done|simpl; lia]. Qed.

Lemma sum_at_most b (l : list Qc) : (l ≠ [] -> mean l <= b) -> sum l <= b * of_nat (length l).
Proof.
  intros Hb. destruct l as [|x l].
  - rewrite sum_nil. change (length (@nil Qc)) with 0%nat. replace (of_nat 0) with 0 by (by apply Qc_is_canon). rewrite Qcmult_0_r. apply Qcle_refl.
  - rewrite (mean_sum (x :: l)) by done. apply Qcmult_le_compat_r; [by apply Hb|].
    apply Qclt_le_weak, of_nat_pos. simpl. lia.
Qed.

(** No weighted mean is above the largest of its means. *)
Lemma sum_bound b (ls : list (list Qc)) : (forall l, l ∈ ls -> l ≠ [] -> mean l <= b) ->
  sum (mjoin ls) <= b * of_nat (length (mjoin ls)).
Proof.
  induction ls as [|l ls IH]; intros Hb; [by apply (sum_at_most b [])|].
  change (mjoin (l :: ls)) with (l ++ mjoin ls). rewrite sum_app, length_app, of_nat_add, Qcmult_plus_distr_r.
  apply Qcplus_le_compat; [apply sum_at_most, Hb; left|apply IH; intros; apply Hb; [by right|done]].
Qed.

Lemma run_averages (V : Z -> list Qc) (rs : list Z) :
  omap (fun r => mean_of (V r)) rs = (fun r => mean (V r)) <$> filter (fun r => V r ≠ []) rs.
Proof.
  induction rs as [|r rs IH]; [done|]. rewrite filter_cons.
  case_decide as H; [rewrite fmap_cons, <- IH|rewrite <- IH]; simpl; destruct (V r); try done; by destruct H.
Qed.

Lemma two_runs (l : list Z) : NoDup l -> (1 < length l)%nat <-> exists r r', r ≠ r' ∧ r ∈ l ∧ r' ∈ l.
Proof.
  intros Hnd. split.
  - destruct l as [|r [|r' l]]; simpl; [lia..|]. intros _. apply NoDup_cons in Hnd as [Hr _].
    exists r, r'. split_and!; [|left|right; left]. intros ->. apply Hr. left.
  - intros (r & r' & Hne & H1 & H2). destruct l as [|a [|b l]]; [by apply elem_of_nil in H1| |simpl; lia].
    apply list_elem_of_singleton in H1, H2. congruence.
Qed.

(** What an item should hold, of a metric over some rows. *)
Record item_ok (t : MetricType) (rows : list Store.row) (i : MetricsListItem) : Prop := {
  ok_valid : valid i = length (metric_values t rows);
  ok_avg : avg i = Some (mean (metric_values t rows));
  ok_bon : exists b r, bon i = Some b ∧ run_values t rows r ≠ [] ∧ b = mean (run_values t rows r) ∧
    mean (metric_values t rows) <= b ∧ forall r', run_values t rows r' ≠ [] -> mean (run_values t rows r') <= b;
  ok_std : is_Some (mi_std i) <-> exists r r', r ≠ r' ∧ run_values t rows r ≠ [] ∧ run_values t rows r' ≠ []
}.

Section item.
Context (std : list Qc -> Qc) (t : MetricType) (rows : list Store.row) (model task : string).
Abbreviation mine := (rows_of rows model task).
Abbreviation it := (aggregate std (model, task) (filter (fun a => model_task a = (model, task)) (run_level t rows))).

Lemma item_valid : valid it = length (metric_values t mine).
Proof.
  destruct (group_runs t rows model task) as (rs & Hnd & Hin & Hg). unfold aggregate. cbn [valid]. rewrite Hg.
  rewrite <- (values_perm t mine rs Hnd Hin), <- sum_nats. by rewrite <- !list_fmap_compose.
Qed.

Lemma item_sum : sum (run_sum <$> filter (fun a => model_task a = (model, task)) (run_level t rows)) = sum (metric_values t mine).
Proof.
  destruct (group_runs t rows model task) as (rs & Hnd & Hin & Hg). rewrite Hg.
  rewrite <- (values_perm t mine rs Hnd Hin), <- sum_join. by rewrite <- !list_fmap_compose.
Qed.

Lemma item_avg : metric_values t mine ≠ [] -> avg it = Some (mean (metric_values t mine)).
Proof.
  intros Hne. pose proof item_valid as Hv. unfold aggregate in *. cbn [valid avg] in *. rewrite Hv, item_sum.
  rewrite bool_decide_eq_true_2; [done|]. destruct (metric_values t mine); [done|simpl; lia].
Qed.

Lemma item_runs : exists rs, NoDup rs ∧ (forall r, r ∈ rs <-> run_values t mine r ≠ []) ∧
  mjoin (run_values t mine <$> rs) ≡ₚ metric_values t mine ∧
  omap run_avg (filter (fun a => model_task a = (model, task)) (run_level t rows)) = (fun r => mean (run_values t mine r)) <$> rs.
Proof.
  destruct (group_runs t rows model task) as (rs & Hnd & Hin & Hg).
  exists (filter (fun r => run_values t mine r ≠ []) rs). split_and!.
  - by apply NoDup_filter.
  - intros r. rewrite list_elem_of_filter. split; [tauto|]. intros Hr. split; [done|].
    unfold run_values, metric_values in Hr. destruct (filter (fun w => w_run w = r) mine) as [|w l] eqn:E; [done|].
    assert (w ∈ filter (fun w => w_run w = r) mine) as [<- Hw]%list_elem_of_filter by (rewrite E; left). by apply Hin.
  - rewrite <- (values_perm t mine rs Hnd Hin). apply reflexive_eq. clear. induction rs as [|r rs IH]; [done|].
    rewrite filter_cons, (fmap_cons _ r rs). case_decide as H; [rewrite fmap_cons; simpl; by rewrite IH|].
    rewrite IH. simpl. by rewrite H.
  - rewrite Hg, <- run_averages. apply list_omap_ext, Forall2_fmap_l, Forall_Forall2_diag, Forall_forall. done.
Qed.

Lemma item_is_ok : metric_values t mine ≠ [] -> item_ok t mine it.
Proof.
  intros Hne. destruct item_runs as (rs & Hnd & Hrs & Hp & Ha). split; [apply item_valid|by apply item_avg| |].
  - assert (rs ≠ []) as Hrs0 by (intros ->; apply Hne; by apply Permutation_nil_l in Hp).
    destruct (max_of_spec ((fun r => mean (run_values t mine r)) <$> rs)) as (b & Hb & Hin & Hle); [by destruct rs|].
    apply list_elem_of_fmap in Hin as (r & -> & Hr%Hrs). eexists _, r. unfold aggregate. cbn [bon]. rewrite Ha.
    split_and!; [exact Hb|done|done| |].
    + assert (sum (metric_values t mine) <= mean (run_values t mine r) * of_nat (length (metric_values t mine))) as Hs.
      { rewrite <- Hp. apply sum_bound. intros l (r' & -> & Hr')%list_elem_of_fmap _.
        apply Hle. by apply list_elem_of_fmap_2 with (f := fun r => mean (run_values t mine r)). }
      rewrite mean_sum in Hs by done. apply (Qcmult_lt_0_le_reg_r _ _ (of_nat (length (metric_values t mine)))); [|done].
      apply of_nat_pos. destruct (metric_values t mine); [done|simpl; lia].
    + intros r' Hr'%Hrs. apply Hle. by apply list_elem_of_fmap_2 with (f := fun r => mean (run_values t mine r)).
  - unfold aggregate. cbn [mi_std]. rewrite Ha, length_fmap. setoid_rewrite <- Hrs. rewrite <- two_runs by done.
    case_bool_decide; split; intros; done.
Qed.
End item.

(** The items are one for each model and task with a value of a completed row: the number of values and
    their mean, the best mean of a run, which no mean is above, and a deviation when two runs have values. *)
Theorem metrics_of_rows (std : list Qc -> Qc) (t : MetricType) (rows : list Store.row) :
  NoDup ((fun i => (mi_model i, mi_task i)) <$> metrics std t rows) ∧
  (forall m tk, metric_values t (rows_of rows m tk) ≠ [] <-> exists i, i ∈ metrics std t rows ∧ mi_model i = m ∧ mi_task i = tk) ∧
  forall i, i ∈ metrics std t rows -> item_ok t (rows_of rows (mi_model i) (mi_task i)) i.
Proof.
  assert (forall i, i ∈ metrics std t rows <-> metric_values t (rows_of rows (mi_model i) (mi_task i)) ≠ [] ∧
    i = aggregate std (mi_model i, mi_task i) (filter (fun a => model_task a = (mi_model i, mi_task i)) (run_level t rows))) as Hall.
  { intros i. unfold metrics. rewrite list_elem_of_filter, list_elem_of_fmap. split.
    - intros [Hv ([[m tk] g] & -> & [-> Hg]%group_by_elem)]. cbn [fst snd mi_model mi_task aggregate] in *. split; [|done].
      rewrite item_valid in Hv. by destruct (metric_values t (rows_of rows m tk)); simpl in *; [lia|].
    - intros [Hne Hi]. rewrite Hi at 1. rewrite item_valid. split; [destruct (metric_values _ _); simpl; [done|lia]|].
      eexists (_, _). split; [exact Hi|]. apply group_by_elem. split; [done|]. intros E. apply Hne.
      pose proof (item_valid std t rows (mi_model i) (mi_task i)) as Hv. rewrite E in Hv. unfold aggregate in Hv. simpl in Hv.
      by destruct (metric_values t _). }
  split_and!.
  - eapply sublist_NoDup; [apply (group_by_keys model_task (run_level t rows))|].
    unfold metrics. etransitivity; [apply fmap_sublist, sublist_filter|].
    rewrite <- list_fmap_compose. apply reflexive_eq, list_fmap_ext. by intros _ [[m tk] g] _.
  - intros m tk. split.
    + intros Hne. exists (aggregate std (m, tk) (filter (fun a => model_task a = (m, tk)) (run_level t rows))). by rewrite Hall.
    + intros (i & [Hne _]%Hall & <- & <-). done.
  - intros i [Hne Hi]%Hall. pose proof (item_is_ok std t rows _ _ Hne) as H. by rewrite <- Hi in H.
Qed.

(** ** Examples *)

Module Examples.
Definition demo_row (index run : Z) (status : SampleStatus) (reward : option pyfloat) : Store.row :=
  {| w_model := "m"; w_session_id := None; w_run := run; w_task := "t"; w_index := (Some index, None);
     w_status := status; w_reward := reward; w_score := None; w_success_rate := None; w_metrics := None;
     w_result := None; w_task_trace := None; w_raw_trace := None |}.

(** Two samples, each passed in one of two runs: the best run is as good as the mean, though the best result
    of each sample is 1; an error of the model and a missing reward do not count. *)
Example bon_is_best_run :
  let i := metrics (fun _ => 0) REWARD [demo_row 0 1 COMPLETED (Some (Fin 1)); demo_row 1 1 COMPLETED (Some (Fin 0));
    demo_row 0 2 COMPLETED (Some (Fin 0)); demo_row 1 2 COMPLETED (Some (Fin 1)); demo_row 2 1 MODEL_ERROR (Some (Fin 1));
    demo_row 3 1 COMPLETED None] in
  map valid i = [4%nat] ∧ map (fun i => this <$> avg i) i = [Some (1 # 2)]%Q ∧ map (fun i => this <$> bon i) i = [Some (1 # 2)]%Q.
Proof. by vm_compute. Qed.
End Examples.
