(* ===== verification/MetricTree.v ===== *)
(** * Printing metrics

    Models pretty_print_metrics of trainer/utils/utils.py, with which a training step ends:
    the metrics as a tree of their names split at slashes, and its lines.  A value is
    anything but a dictionary; how it is printed is an argument. *)

From stdpp Require Import sorting.
From S2P Require Import Prelude PyVal.

(** ** Data *)

Inductive tree (V : Type) : Type :=
| Leaf (v : V)
| Node (d : list (string * tree V)).
Arguments Leaf {V}.
Arguments Node {V}.

(** What is at a path. *)
Fixpoint tree_at {V} (p : list string) (d : tree V) : option (tree V) :=
  match p, d with
  | [], _ => Some d
  | k :: p, Node m => dget k m ≫= tree_at p
  | _ :: _, Leaf _ => None
  end.

(** ** The function *)

Section print.
Context {V : Type} (format : V -> string).

(** [d[keys[0]]] of a [defaultdict] makes a tree where there is none; a value has no items. *)
(* trainer/utils/utils.py:164-168 pretty_print_metrics.insert *)
Fixpoint insert (keys : list string) (value : V) (d : tree V) : res (tree V) :=
  match keys, d with
  | [], _ => Raise IndexError
  | _, Leaf _ => Raise TypeError
  | [k], Node m => Ok (Node (dset k (Leaf value) m))
  | k :: keys, Node m =>
      sub ← insert keys value (dget_or k (Node []) m);
      Ok (Node (dset k sub m))
  end.

Fixpoint spaces (n : nat) : string := match n with O => "" | S n => "  " +:+ spaces n end.

Definition key_le (x y : string * list string) : Prop := String.leb x.1 y.1 = true.
#[export] Instance key_le_dec x y : Decision (key_le x y).
Proof. unfold key_le. apply _. Defined.

(* trainer/utils/utils.py:170-180 pretty_print_metrics.print_tree *)
Fixpoint print_tree (d : tree V) (indent : nat) : list string :=
  match d with
  | Leaf _ => []
  | Node m =>
      let lines := (fix lines (m : list (string * tree V)) : list (string * list string) :=
        match m with
        | [] => []
        | (key, Leaf v) :: m => (key, [spaces indent +:+ key +:+ ": " +:+ format v]) :: lines m
        | (key, c) :: m => (key, (spaces indent +:+ key +:+ "/") :: print_tree c (S indent)) :: lines m
        end) in
      mjoin (snd <$> merge_sort key_le (lines m))
  end.

(* trainer/utils/utils.py:182-185 pretty_print_metrics *)
Fixpoint insert_all (items : list (list string * V)) (root : tree V) : res (tree V) :=
  match items with
  | [] => Ok root
  | (parts, v) :: items => root ← insert parts v root; insert_all items root
  end.

(* trainer/utils/utils.py:160-187 pretty_print_metrics *)
Definition pretty_print_metrics (metrics : list (string * V)) : res (list string) :=
  root ← insert_all (prod_map (split_on "/"%char) id <$> metrics) (Node []);
  Ok (print_tree root 0).
End print.

(** ** Proofs: one insertion *)

Section insertion.
Context {V : Type}.
Implicit Types (p q : list string) (d : tree V).

(** [p] comes above [q]. *)
Definition above p q : Prop := p `prefix_of` q ∧ p ≠ q.

Lemma tree_at_node p k (m : list (string * tree V)) : tree_at (k :: p) (Node m : tree V) = dget k m ≫= tree_at p.
Proof. done. Qed.

Lemma tree_at_child p k (m : list (string * tree V)) u :
  dget k m ≫= tree_at p = Some (Leaf u : tree V) <-> tree_at p (dget_or k (Node []) m) = Some (Leaf u).
Proof. unfold dget_or. destruct (dget k m); [done|]. split; [done|]. by destruct p. Qed.

Lemma insert_deep k ks v (m : list (string * tree V)) : ks ≠ [] ->
  insert (k :: ks) v (Node m) = (sub ← insert ks v (dget_or k (Node []) m); (Ok (Node (dset k sub m)) : res (tree V))).
Proof. by destruct ks. Qed.

(** A leaf after an insertion is the new one, or an old one that is not at or below it. *)
Lemma insert_leaves ks v d d' p u : insert ks v d = Ok d' ->
  tree_at p d' = Some (Leaf u) <-> (p = ks ∧ u = v) ∨ (¬ ks `prefix_of` p ∧ tree_at p d = Some (Leaf u)).
Proof.
  revert d d' p. induction ks as [|k ks IH]; intros d d' p H; [done|]. destruct d as [w|m]; [by destruct ks|].
  assert (exists c, d' = Node (dset k c m) ∧ ((ks = [] ∧ c = Leaf v) ∨ insert ks v (dget_or k (Node []) m) = Ok c)) as (c & -> & Hc).
  { destruct ks as [|k' ks]; [injection H as <-; eauto 10|].
    rewrite insert_deep in H by done.
    destruct (insert (k' :: ks) v _) as [c|]; [|done]. injection H as <-. eauto 10. }
  destruct p as [|k' p].
  { split; [done|]. by intros [[? _]|[_ ?]]. }
  rewrite tree_at_node, dget_dset. destruct (decide (k' = k)) as [->|Hne].
  - rewrite (tree_at_node p k m), tree_at_child. cbn [mbind option_bind]. destruct Hc as [[-> ->]|Hc].
    + destruct p as [|k2 p]; simpl.
      * split; [intros [= ->]; by left|]. intros [[_ ->]|[Hn _]]; [done|]. by destruct Hn.
      * split; [done|]. intros [[? _]|[Hn _]]; [done|]. destruct Hn. by exists (k2 :: p).
    + rewrite (IH _ _ p Hc). split.
      * intros [[-> ->]|[Hn Hp]]; [by left|]. right. split; [|done]. by intros Hp'%prefix_cons_inv_2.
      * intros [[[= ->] ->]|[Hn Hp]]; [by left|]. right. split; [|done]. intros Hp'. by apply Hn, prefix_cons.
  - split.
    + intros Hp. right. split; [|done]. by intros ->%prefix_cons_inv_1.
    + intros [[[= ->] _]|[_ Hp]]; [done|]. done.
Qed.

(** An insertion fails exactly below a value. *)
Lemma insert_cases ks v d : ks ≠ [] ->
  (insert ks v d = Raise TypeError ∧ exists p u, above p ks ∧ tree_at p d = Some (Leaf u)) ∨
  (exists d', insert ks v d = Ok d') ∧ forall p u, above p ks -> tree_at p d ≠ Some (Leaf u).
Proof.
  revert d. induction ks as [|k ks IH]; intros d Hne; [done|]. destruct d as [w|m].
  { left. split; [by destruct ks|]. exists [], w. split; [split; [apply prefix_nil|done]|done]. }
  destruct (decide (ks = [])) as [->|Hks].
  { right. split; [by eexists|]. intros [|k' p] u [Hp Hn]; [done|]. exfalso.
    pose proof (prefix_cons_inv_1 _ _ _ _ Hp) as ->. apply prefix_cons_inv_2, prefix_nil_inv in Hp as ->. done. }
  rewrite insert_deep by done.
  destruct (IH (dget_or k (Node []) m) Hks) as [[-> (p & u & [Hp Hn] & Hu)]|[[c ->] Hok]].
  - left. split; [done|]. exists (k :: p), u. split; [split; [by apply prefix_cons|congruence]|]. rewrite tree_at_node. by apply tree_at_child.
  - right. split; [by eexists|]. intros [|k' p] u [Hp Hn]; [done|].
    pose proof (prefix_cons_inv_1 _ _ _ _ Hp) as ->. apply prefix_cons_inv_2 in Hp. rewrite tree_at_node, tree_at_child.
    apply Hok. split; [done|congruence].
Qed.
End insertion.

(** ** Proofs: all metrics *)

Section metrics.
Context {V : Type}.
Implicit Types (ms : list (list string * V)) (p q : list string).

(** The entry is not overwritten by a later one at or above its path. *)
Definition survives ms p (v : V) : Prop :=
  exists l1 l2, ms = l1 ++ (p, v) :: l2 ∧ Forall (fun qw => ¬ qw.1 `prefix_of` p) l2.

(** An entry comes after one whose path is above its own. *)
Definition conflict ms : Prop :=
  exists l1 l2 p v q w, ms = l1 ++ (q, w) :: l2 ∧ (p, v) ∈ l1 ∧ above p q.

Lemma survives_snoc ms q w p v :
  survives (ms ++ [(q, w)]) p v <-> (p = q ∧ v = w) ∨ (¬ q `prefix_of` p ∧ survives ms p v).
Proof.
  split.
  - intros (l1 & l2 & H & Hl). destruct l2 as [|x l2 _] using rev_ind.
    + apply app_inj_tail in H as [_ [= -> ->]]. by left.
    + right. rewrite app_comm_cons, (assoc_L (++)) in H. apply app_inj_tail in H as [-> <-].
      apply Forall_app in Hl as [Hl Hq%Forall_inv]. split; [exact Hq|]. by exists l1, l2.
  - intros [[-> ->]|[Hq (l1 & l2 & -> & Hl)]].
    + exists ms, []. by split; [|constructor].
    + exists l1, (l2 ++ [(q, w)]). rewrite <- (assoc_L (++)). split; [done|]. apply Forall_app. split; [done|]. by apply Forall_singleton.
Qed.

(** Whatever became of an entry, something at or above its path is left. *)
Lemma covered ms p v : (p, v) ∈ ms -> exists p' v', p' `prefix_of` p ∧ survives ms p' v'.
Proof.
  induction ms as [|[q w] ms IH] using rev_ind; intros Hin; [by apply elem_of_nil in Hin|].
  destruct (decide (q `prefix_of` p)) as [Hq|Hq].
  { exists q, w. split; [done|]. apply survives_snoc. by left. }
  apply elem_of_app in Hin as [Hin|[= -> ->]%list_elem_of_singleton]; [|done].
  destruct (IH Hin) as (p' & v' & Hp & Hs). exists p', v'. split; [done|]. apply survives_snoc. right. split; [|done].
  intros H. apply Hq. by transitivity p'.
Qed.

Lemma insert_all_snoc ms q w (d : tree V) :
  insert_all (ms ++ [(q, w)]) d = (r ← insert_all ms d; (insert q w r : res (tree V))).
Proof.
  revert d. induction ms as [|[p v] ms IH]; intros d; simpl.
  - by destruct (insert q w d).
  - destruct (insert p v d) as [r|]; [|done]. apply IH.
Qed.

Lemma conflict_snoc ms q w : conflict (ms ++ [(q, w)]) <-> conflict ms ∨ exists p v, (p, v) ∈ ms ∧ above p q.
Proof.
  split.
  - intros (l1 & l2 & p & v & q' & w' & H & Hin & Ha). destruct l2 as [|x l2 _] using rev_ind.
    + apply app_inj_tail in H as [-> [= -> ->]]. right. by exists p, v.
    + rewrite app_comm_cons, (assoc_L (++)) in H. apply app_inj_tail in H as [-> _]. left. by exists l1, l2, p, v, q', w'.
  - intros [(l1 & l2 & p & v & q' & w' & -> & Hin & Ha)|(p & v & Hin & Ha)].
    + exists l1, (l2 ++ [(q, w)]), p, v, q', w'. split_and!; [by rewrite <- (assoc_L (++))|done|done].
    + by exists ms, [], p, v, q, w.
Qed.

Lemma insert_all_spec ms : Forall (fun pv => pv.1 ≠ []) ms ->
  (conflict ms ∧ insert_all ms (Node []) = Raise TypeError) ∨
  (¬ conflict ms ∧ exists d, insert_all ms (Node []) = Ok d ∧
    forall p v, tree_at p d = Some (Leaf v) <-> survives ms p v).
Proof.
  induction ms as [|[q w] ms IH] using rev_ind; intros Hne.
  { right. split; [by intros ([] & ? & ? & ? & ? & ? & ? & _)|]. exists (Node []). split; [done|].
    intros [|k p] v; (split; [done|]); by intros ([] & ? & ? & _). }
  apply Forall_app in Hne as [Hms Hq%Forall_inv]. rewrite insert_all_snoc, conflict_snoc.
  destruct (IH Hms) as [[Hc ->]|[Hc (d & -> & Hd)]]; [left; split; [by left|done]|].
  cbn [mbind res_bind]. destruct (insert_cases q w d Hq) as [[-> (p & u & Ha & Hu)]|[[d' E] Hok]].
  - left. split; [|done]. right. apply Hd in Hu as (l1 & l2 & -> & _). exists p, u. split; [|done].
    apply elem_of_app. right. left.
  - right. split.
    + intros [?|(p & v & Hin & [Hp Hn])]; [done|]. destruct (covered _ _ _ Hin) as (p' & v' & Hp' & Hs%Hd).
      apply (Hok p' v'); [|done]. split; [by transitivity p|]. intros ->. apply Hn. by apply (anti_symm prefix).
    + exists d'. split; [done|]. intros p v. rewrite (insert_leaves _ _ _ _ p v E), survives_snoc. by rewrite Hd.
Qed.
End metrics.

(** ** Proofs: the lines *)

Section lines.
Context {V : Type} (format : V -> string).

(** The line of a value, below the lines of the names above it. *)
Definition line (n : nat) (k : string) (v : V) : string := spaces n +:+ k +:+ ": " +:+ format v.

Fixpoint children (m : list (string * tree V)) (indent : nat) : list (string * list string) :=
  match m with
  | [] => []
  | (key, Leaf v) :: m => (key, [line indent key v]) :: children m indent
  | (key, c) :: m => (key, (spaces indent +:+ key +:+ "/") :: print_tree format c (S indent)) :: children m indent
  end.

Lemma print_node m n : print_tree format (Node m) n = mjoin (snd <$> merge_sort key_le (children m n)).
Proof.
  cbn [print_tree]. do 3 f_equal. induction m as [|[k [v|c]] m IH]; [done| |]; cbn [children]; f_equal; apply IH.
Qed.

Lemma child_lines m n k c x : dget k m = Some c ->
  x ∈ (match c with Leaf v => [line n k v] | Node _ => (spaces n +:+ k +:+ "/") :: print_tree format c (S n) end) ->
  x ∈ print_tree format (Node m) n.
Proof.
  intros Hk Hx. rewrite print_node, list_elem_of_join. eexists. split; [exact Hx|].
  apply list_elem_of_fmap. eexists (k, _). split; [done|]. rewrite merge_sort_Permutation.
  clear Hx. induction m as [|[k' c'] m IH]; [done|]. simpl in Hk. case_decide as E.
  - injection Hk as ->. subst k'. destruct c; left.
  - destruct c'; right; by apply IH.
Qed.

(** Every value of the tree has its line. *)
Lemma leaf_line p k v d n : tree_at (p ++ [k]) d = Some (Leaf v) ->
  line (n + length p) k v ∈ print_tree format d n.
Proof.
  revert d n. induction p as [|k' p IH]; intros [w|m] n H; try done.
  - rewrite Nat.add_0_r. simpl in H. destruct (dget k m) as [c|] eqn:E; [|done]. simpl in H. injection H as ->.
    eapply child_lines; [exact E|]. left.
  - simpl in H. destruct (dget k' m) as [c|] eqn:E; [|done]. simpl in H. eapply child_lines; [exact E|].
    destruct c as [u|m']; [by destruct p|]. right. cbn [length]. rewrite <- Nat.add_succ_comm. by apply IH.
Qed.
End lines.

(** The metrics are printed unless the name of one comes, at a slash, below that of an earlier one, when TypeError
    is raised; and every metric then has its line, indented by the depth of its name, unless a later one has
    a name above its own, when it is lost. *)
Theorem printed_metrics {V} (format : V -> string) (metrics : list (string * V)) :
  let ms := prod_map (split_on "/"%char) id <$> metrics in
  (conflict ms ∧ pretty_print_metrics format metrics = Raise TypeError) ∨
  (¬ conflict ms ∧ exists d, pretty_print_metrics format metrics = Ok (print_tree format d 0) ∧
    (forall p v, tree_at p d = Some (Leaf v) <-> survives ms p v) ∧
    forall p k v, survives ms (p ++ [k]) v -> line format (length p) k v ∈ print_tree format d 0).
Proof.
  cbv zeta. unfold pretty_print_metrics.
  assert (Forall (fun pv : list string * V => pv.1 ≠ []) (prod_map (split_on "/"%char) id <$> metrics)) as Hne.
  { apply Forall_fmap, Forall_forall. intros [s v] _. simpl. unfold split_on.
    destruct (chars s) as [|c l]; simpl; [done|]. case_match; [done|]. by destruct (split_chars _ _). }
  destruct (insert_all_spec _ Hne) as [[Hc ->]|[Hc (d & -> & Hd)]]; [by left|]. right. split; [done|].
  exists d. split_and!; [done|done|]. intros p k v Hs%Hd. by apply (leaf_line format p k v d 0).
Qed.

(** ** Examples *)

Module Examples.
Definition show (v : Z) : string := str_Z v.

Example lines : pretty_print_metrics show [("val/a/mean", 1); ("step", 2); ("val/a/max", 3)] =
  Ok ["step: 2"; "val/"; "  a/"; "    max: 3"; "    mean: 1"].
Proof. by vm_compute. Qed.

(** A name below an earlier one raises, a name above an earlier one hides it. *)
Example below : pretty_print_metrics show [("loss", 1); ("loss/max", 2)] = Raise TypeError.
Proof. by vm_compute. Qed.
Example over : pretty_print_metrics show [("loss/max", 2); ("loss", 1)] = Ok ["loss: 1"].
Proof. by vm_compute. Qed.
End Examples.
